(* ===== verification/_CoqProject ===== *)
-Q . S2P
Prelude.v
Crc.v
HdlcLL.v
HdlcSpec.v
HdlcTx.v
HdlcRx.v
HdlcInit.v
HdlcLink.v
FdTypes.v
FdQueue.v
FdPeers.v
FdIQueue.v
FdLog.v
FdService.v
FdTx.v
FdRx.v
Fd.v
FdApi.v
FdInv.v
FdSafe.v
FdStation.v
FdInit.v
FdRun.v
FdFifo.v
FdSlots.v
FdFlow.v
FdConn.v
FdMoves.v
FdXmit.v
FdE2E.v
FdDelivery.v
FdProgress.v
FdConnect.v
FdSession.v
FdWire.v
FdBytes.v
FdByteDelivery.v
FdStall.v
FdLinkState.v
FdLimits.v
Hal.v
LinuxHal.v
Packet.v
TinyList.v
Proto.v
ProtoQueue.v
ProtoFlow.v
SerialLink.v
HdlcLayer.v
ProtoLink.v
ProtoRecv.v
ProtoBegin.v
LinuxSerial.v
FdLayer.v
HdlcHL.v
HdlcSend.v
Light.v
Wrappers.v
LightLink.v
FdMarker.v
FdMarkerTx.v
FdLine.v
FdTalker.v
FdPollStall.v
PosixHal.v
WinHal.v
RtosHal.v
AtomicHal.v
MacSerial.v
WinSerial.v
SmallSerial.v
