(* ===== verification/Prelude.v ===== *)
(** * Verification of the tinyproto protocol stack

    tinyproto is a C library, with C++ classes on top, for reliable communication over
    serial lines.  This development models src/src as executable functions and proves
    what the layers promise to each other and to the application.

    ** The program

    - _Checksums_ (proto/crc): the 8-bit sum, FCS-16 and FCS-32.
    - _Framing_ (proto/hdlc/low_level): HDLC frames over a byte stream - flags, byte
      stuffing, FCS - as two state machines driven by [hdlc_ll_run_tx] and
      [hdlc_ll_run_rx], with callbacks for received and sent frames.
    - _High-level HDLC_ (proto/hdlc/high_level) and the _light protocol_
      (proto/light): blocking and polled use of the framing layer.
    - _Full duplex_ (proto/fd): connections with a send window of seven frames,
      acknowledgement, retransmission, keep-alive, and several stations on one
      line.  A station has two frame queues (data and service frames) and a
      control block per peer; it uses the framing layer through the same callbacks.
    - _Linked lists_ (hal/tiny_list.c).
    - _Platform services_ (hal): mutexes, event groups and the clock, which all layers use;
      portable implementations in hal/no_platform and hal/single_core (on AVR and Arduino), and
      those for Linux, macOS, MinGW, Windows, FreeRTOS and the ESP32, with their serial ports.
    - _C++ classes_: packets (TinyPacket.h); objects over the three C interfaces
      (TinyProtocolFd.cpp, TinyProtocolHdlc.cpp, TinyLightProtocol.cpp); and the protocol
      object [Proto] (TinyProtocol.cpp) with its pool and queue of packets, which sends and
      receives through a link layer (link): HDLC or full duplex over a serial port.

    ** The files

    Models, each next to its source file (the same function names):
    - [Crc]: tiny_crc.c.  [HdlcLL]: low_level/hdlc.c and hdlc_int.h.
    - [FdTypes]: the structures and constants of proto/fd, and the platform services
      (mutex, event groups, clock).  [FdQueue]: tiny_fd_frames_queue.c.  [FdPeers]:
      tiny_fd_peers.c.  [FdIQueue]: tiny_fd_i_queue_control.c.  [FdLog]:
      tiny_fd_proto_logger.c.  [FdService]: tiny_fd_service_queue.c.  [FdTx]:
      tiny_fd_tx.c.  [FdRx]: tiny_fd_on_rx_int.h and the callbacks of tiny_fd.c.
      [Fd], [FdApi], [FdInit]: the rest of tiny_fd.c.
    - [HdlcHL]: high_level/hdlc.c.  [Light]: tiny_light.c.  [TinyList]: tiny_list.c.
    - [Hal]: the platform services as programs of atomic actions, with their threads,
      schedules and theorems.  [LinuxHal]: hal/linux/linux_hal.inl, event groups on a condition
      variable.  [LinuxSerial]: hal/linux/linux_serial.inl over system calls with their laws; it is
      one of the ports of [SerialLink].  [PosixHal] and [MacSerial]: hal/macos and hal/mingw32, by what they
      have in common with Linux.  [WinHal] and [WinSerial]: hal/win32.  [RtosHal]: hal/freertos and
      hal/esp32/esp32_hal.inl.  [AtomicHal]: the atomic blocks of hal/avr and hal/arduino.
      [SmallSerial]: the ports of hal/esp32, hal/arduino and hal/no_platform.
    - [Packet]: TinyPacket.h, with its theorems.  [Proto]: TinyProtocol.cpp and the interface
      [ILinkLayer] of link/TinyLinkLayer.h.  [SerialLink]: link/TinySerialLinkLayer.h and
      interface/TinySerial.cpp over the port [serial_port].  [HdlcLayer]:
      link/TinyHdlcLinkLayer.cpp and TinySerialHdlcLink.cpp.  [FdLayer]:
      link/TinyFdLinkLayer.cpp and TinySerialFdLink.cpp.  [Wrappers]: [IFd], [Hdlc] and [Light].

    Specifications and proofs:
    - [HdlcSpec] has the wire format ([wire_frame]) and the byte-at-a-time
      abstract receiver ([receive]); [HdlcTx] and [HdlcRx] prove that the state machines
      implement them for all buffer sizes; [HdlcLink] composes the two
      directions (round trip, resynchronisation, burst errors); [HdlcInit] proves
      that an initialised handle satisfies the invariants.
    - [FdInv] has the invariant of a station and the interface its callbacks
      and the other threads must satisfy ([CallbacksOk], [OthersOk]); [FdSafe],
      [FdStation] and [FdRun] prove that every operation keeps it and ends;
      [FdInit] establishes it.
    - [FdFifo], [FdSlots] and [FdFlow] abstract the queues and one direction of a
      connection; [FdConn], [FdMoves] and [FdXmit] prove that each operation of
      a connected station is a step of the abstraction; [FdE2E] has two
      stations and two lossy channels as a step relation with its invariant, and
      [FdDelivery] the delivery guarantee and a simulator for witnesses.
    - [FdWire], [FdBytes] and [FdByteDelivery] put the framing layer underneath: the memory
      of a frame in transit is stable, [tiny_fd_get_tx_data] and [tiny_fd_on_rx_data] on
      channels of bytes are simulated by the frame-level system, and the delivery
      guarantee holds for the bytes.
    - [FdProgress]: packets exchanged over a channel that loses nothing do arrive and are
      confirmed.  [FdConnect] follows the U-frames through a station; [FdSession] has whole
      sessions of two stations, from [tiny_fd_init] over connection and packets to the end.
    - [FdMarker] and [FdMarkerTx] follow the right to send of normal response mode, and the timer after
      which a primary takes it back, through every operation of a station; [FdLine] has a primary and its
      secondaries on one line, and the time, as a step relation with its invariant, and [FdTalker] the
      property of its runs from power up, and a run with a late secondary.
    - [FdLinkState]: the connection automaton.  [FdStall], [FdPollStall] and [FdLimits]: reachable
      situations in which the code does not do what it is meant to.
    - [HdlcSend] and [LightLink]: what the two blocking interfaces do over a byte
      channel.
    - [ProtoQueue] shows that the list operations of [Proto] keep two well-formed lists;
      [ProtoFlow] has all that can happen to an object with any number of threads as a step
      relation, one critical section a step, with its invariant.
    - [ProtoLink] (sending), [ProtoRecv] (receiving) and [ProtoBegin] (starting) put an
      object on the HDLC link layer, the framing layer and a port that takes and gives
      bytes in pieces ([SerialLine]).

    ** Conventions

    - Integers are [Z]; each conversion to a narrower C type is written out ([u8],
      [u16], [u32], [s32]).  Time is a function [millis] from the number of the reading to the
      value, so theorems hold for every clock.
    - Pointers into user memory are addresses; the framing handle reads them
      through [cl_mem].  Pointers into the receive buffer are offsets, and a write
      outside it sets [rx_overrun], which the safety theorems show to stay false.
    - A mutex locked twice or unlocked while free sets [fd_mutex_misuse].
    - Callbacks are functions on the whole state: they can call the protocol again.  A
      wait lets a function [others] act for the other threads before it looks
      again.
    - NULL handles are [None]; errors are the C result codes.
    - Loops that are not structural have fuel.  [run_tx_fuel], [run_rx_fuel] and
      [get_tx_data_fuel] are proved sufficient in every state; the loops over the window
      (at most eight steps) have 9; fuel that depends on the channel or the
      clock is an argument, and the theorems say how much is enough.

    ** The theorems

    - Framing: what is sent is what is received, in any pieces, through noise; nothing
      else is delivered; bursts on the wire that the FCS covers are rejected, unless they make or remove a
      flag or an escape character; no input makes the receiver write outside its buffer; every call
      ends.
    - Checksums: the tables equal the bit-serial definition; residue; bursts.
    - Full duplex: reliable in-order delivery over lossy channels in every
      interleaving, for frames and for bytes cut in any pieces and damaged detectably;
      progress of every exchange when nothing is lost; one talker at a time on a line with
      several stations, as long as no secondary keeps its turn longer than the retry timeout of the
      primary; the connection automaton on every U-frame; the window as unbounded
      counters; the queue search; round-robin polling; the invariant and the lock
      discipline of every sequence of calls; initialisation.
    - Light and high-level HDLC: exactly one wire frame per call, results on every
      branch, termination, and the state failed calls leave behind.
    - Lists: insertion, removal and enumeration of well-formed lists.
    - Platform services: mutual exclusion, and event functions that act at one instant, in
      every interleaving; this is why the models of the layers let a whole event function
      happen in one step.  On Linux: no wake-up is lost, the serial port keeps no descriptor and
      counts the bytes it moves, and is a line the link layers can work with.  The other systems:
      macOS and MinGW do what Linux does; waits on Windows and FreeRTOS end with what was asked
      for, or after their time (less a tick on FreeRTOS), and on Windows sleep for ever only without a limit, with
      no bit set and nobody to wake them; an atomic block is one instant where interrupts are disabled; the
      ports count their bytes and give their handles back.
    - Packets: fields come back as they were put.  [Proto]: packets are in one place and
      frames come in order or are counted as lost (in an int, exactly while it can hold the number), wake-ups are not lost, [begin] gives an object that
      works, and what one object sends another one reads, down to the bytes on the line.
    - Where the code falls short, a theorem shows it: buffers of the advertised size that are
      overrun or refused, the stalled connection, a primary that stops polling, retries that are not
      restored, a secondary station that cannot answer, a slot reused while it is still
      being sent and a packet delivered that nobody sent, two talkers when a secondary is late, stale events and pointers, a string put behind a full packet, a cancelled
      send reported as done, a full duplex link that never starts with its default MTU,
      null handles that are closed, waits that never time out, clocks that jump, blocks that are not
      atomic, handles closed twice and timeouts that are none.

    ** Not modelled

    hal/cpp, which is empty functions behind an [#error]; what the operating systems do, which are
    parameters with documented laws, and the creation and destruction of their objects; the text of
    debug messages; the variants of the C++ classes for Arduino; the Python and Rust bindings, the examples and tools, which wrap the
    functions modelled here.  Callbacks of an [FdLayer] that use the handle of its station
    themselves.  Destructors and [free] give memory back, which the models do not count.
    Delivery is proved for balanced mode (ABM); the modes with several peers have the
    safety invariant, the automaton and the single talker, for which a frame on the line is heard
    whole or not at all, each call happens at one instant, and the turn of a secondary takes less than the
    retry timeout of the primary.  The delivery theorem for bytes leaves out the runs in which
    a packet is queued into the slot the transmitter is still reading from. *)

From Stdlib Require Export ZArith Lia Bool.
From stdpp Require Export base tactics option list.

#[global] Open Scope Z_scope.

(** ** Machine integers

    A C unsigned integer of [w] bits is a [Z] in [[0, 2^w)]; every conversion
    the code performs to such a type is written out with one of these
    functions. *)

Definition u8 (z : Z) : Z := z mod 2 ^ 8.
Definition u16 (z : Z) : Z := z mod 2 ^ 16.
Definition u32 (z : Z) : Z := z mod 2 ^ 32.

(** [z] is representable by an unsigned type of [w] bits. *)
Definition fits (w z : Z) : Prop := 0 <= z < 2 ^ w.

(** A byte buffer holds bytes only. *)
Definition bytes (l : list Z) : Prop := Forall (fits 8) l.

#[export] Instance fits_dec w z : Decision (fits w z).
Proof. unfold fits. apply _. Defined.

#[export] Instance bytes_dec l : Decision (bytes l).
Proof. unfold bytes. apply _. Defined.

(** ** Error codes of src/hal/tiny_types.h *)

Definition TINY_SUCCESS : Z := 0.
Definition TINY_ERR_FAILED : Z := -1.
Definition TINY_ERR_TIMEOUT : Z := -2.
Definition TINY_ERR_DATA_TOO_LARGE : Z := -3.
Definition TINY_ERR_INVALID_DATA : Z := -4.
Definition TINY_ERR_BUSY : Z := -5.
Definition TINY_ERR_OUT_OF_SYNC : Z := -6.
Definition TINY_ERR_AGAIN : Z := -7.
Definition TINY_ERR_WRONG_CRC : Z := -8.
Definition TINY_ERR_OUT_OF_MEMORY : Z := -9.
Definition TINY_ERR_UNKNOWN_PEER : Z := -10.
Definition TINY_ERR_IO : Z := -11.

(** A [bool] used as a C truth value, and back. *)
Definition nz (z : Z) : bool := negb (z =? 0).

(** ** Functional record update

    [r <| f := v |>] is [r] with field [f] replaced.  A record type declares
    itself updatable by an instance of [Eta] that rebuilds a value from its
    projections; the setter of a field is then found by abstracting the field's
    projection out of that rebuilding. *)

Class Eta (R : Type) := eta : R -> R.

Class FieldUpd {R T : Type} (proj : R -> T) := fupd : (T -> T) -> R -> R.

Ltac derive_field_upd proj :=
  match type of proj with
  | ?R -> ?T =>
      let e := eval unfold eta in (@eta R _) in
      let e := eval hnf in e in
      lazymatch e with
      | fun x => _ =>
          let g := constr:(fun (f : T -> T) (r : R) =>
            ltac:(let b := eval cbv beta in (e r) in
                  let b := eval pattern (proj r) in b in
                  lazymatch b with
                  | ?h _ => let b := eval cbv beta in (h (f (proj r))) in exact b
                  end)) in
          exact g
      end
  end.

#[export] Hint Extern 1 (FieldUpd ?proj) => derive_field_upd proj : typeclass_instances.

Declare Scope update_scope.
Delimit Scope update_scope with upd.
Notation "r <| f := v |>" := (fupd (proj := f) (fun _ => v) r)
  (at level 1, left associativity, f constr) : update_scope.
Notation "r <| f ::= g |>" := (fupd (proj := f) g r)
  (at level 1, left associativity, f constr) : update_scope.
#[global] Open Scope update_scope.

(** Unfold setters and evaluate the projections of an updated record. *)
Ltac red_upd := cbn [fupd] in *; unfold fupd in *; cbn in *.

(** ** Facts on machine integers shared by the components *)

Create HintDb tiny discriminated.
#[export] Hint Constants Opaque : tiny.

Lemma fits_u8 z : fits 8 (u8 z).
Proof. apply Z.mod_pos_bound. lia. Qed.

Lemma fits_u16 z : fits 16 (u16 z).
Proof. apply Z.mod_pos_bound. lia. Qed.

Lemma fits_u32 z : fits 32 (u32 z).
Proof. apply Z.mod_pos_bound. lia. Qed.

Lemma u8_id z : fits 8 z -> u8 z = z.
Proof. apply Z.mod_small. Qed.

Lemma u16_id z : fits 16 z -> u16 z = z.
Proof. apply Z.mod_small. Qed.

Lemma u32_id z : fits 32 z -> u32 z = z.
Proof. apply Z.mod_small. Qed.

Lemma fits_mono v w z : v <= w -> fits v z -> fits w z.
Proof.
  unfold fits. intros Hvw [H0 H1]. split; [done|].
  destruct (Z.le_gt_cases 0 v).
  - eapply Z.lt_le_trans; [done|]. apply Z.pow_le_mono_r; lia.
  - rewrite Z.pow_neg_r in H1 by lia. lia.
Qed.

(** A number fits in [w] bits exactly when no bit from [w] on is set. *)
Lemma fits_testbit w z :
  0 <= w -> fits w z <-> 0 <= z /\ forall i, w <= i -> Z.testbit z i = false.
Proof.
  intros Hw. unfold fits. split.
  - intros [H0 H1]. split; [done|]. intros i Hi.
    rewrite <- (Z.mod_small z (2 ^ w)) by done.
    by apply Z.mod_pow2_bits_high.
  - intros [H0 Hb]. split; [done|].
    enough (z mod 2 ^ w = z) as <-.
    { apply Z.mod_pos_bound. apply Z.pow_pos_nonneg; lia. }
    apply Z.bits_inj'. intros i Hi.
    destruct (Z.lt_ge_cases i w).
    + by apply Z.mod_pow2_bits_low.
    + rewrite Z.mod_pow2_bits_high by done. symmetry. auto.
Qed.

Lemma fits_lxor w a b : 0 <= w -> fits w a -> fits w b -> fits w (Z.lxor a b).
Proof.
  intros Hw Ha%fits_testbit Hb%fits_testbit; [|done..].
  destruct Ha as [? Ha], Hb as [? Hb]. apply fits_testbit; [done|].
  split; [by apply Z.lxor_nonneg|].
  intros i Hi. by rewrite Z.lxor_spec, Ha, Hb.
Qed.

Lemma fits_lor w a b : 0 <= w -> fits w a -> fits w b -> fits w (Z.lor a b).
Proof.
  intros Hw Ha%fits_testbit Hb%fits_testbit; [|done..].
  destruct Ha as [? Ha], Hb as [? Hb]. apply fits_testbit; [done|].
  split; [by apply Z.lor_nonneg|].
  intros i Hi. by rewrite Z.lor_spec, Ha, Hb.
Qed.

Lemma fits_land_r w a b : 0 <= w -> 0 <= a -> fits w b -> fits w (Z.land a b).
Proof.
  intros Hw Ha Hb%fits_testbit; [|done]. destruct Hb as [? Hb].
  apply fits_testbit; [done|]. split; [apply Z.land_nonneg; by left|].
  intros i Hi. by rewrite Z.land_spec, Hb, andb_false_r.
Qed.

Lemma fits_land_l w a b : 0 <= w -> fits w a -> 0 <= b -> fits w (Z.land a b).
Proof. intros. rewrite Z.land_comm. by apply fits_land_r. Qed.

Lemma fits_shiftr v w z : 0 <= v -> 0 <= w -> fits (v + w) z -> fits w (Z.shiftr z v).
Proof.
  intros Hv Hw Hz%fits_testbit; [|lia]. destruct Hz as [? Hz].
  apply fits_testbit; [done|]. split; [by apply Z.shiftr_nonneg|].
  intros i Hi. rewrite Z.shiftr_spec by lia. apply Hz. lia.
Qed.

Lemma fits_shiftr_self v w z : 0 <= v -> 0 <= w -> fits w z -> fits w (Z.shiftr z v).
Proof. intros. apply fits_shiftr; [done..|]. eapply fits_mono; [|done]. lia. Qed.

#[export] Hint Resolve fits_u8 fits_u16 fits_u32 fits_lxor fits_lor : tiny.

(** ** Exhaustive checks over a byte *)

(** The 256 values of a [uint8_t]. *)
Definition all_bytes : list Z := Z.of_nat <$> seq 0 256.

Lemma elem_of_all_bytes b : fits 8 b -> b ∈ all_bytes.
Proof.
  intros [H0 H1]. apply list_elem_of_fmap. exists (Z.to_nat b).
  split; [lia|]. apply elem_of_seq. change (2 ^ 8) with 256 in H1. lia.
Qed.

(** A boolean property of bytes holds everywhere once it has been evaluated on
    all of them. *)
Lemma byte_forall (P : Z -> bool) :
  forallb P all_bytes = true -> forall b, fits 8 b -> P b = true.
Proof.
  intros H b Hb. rewrite forallb_forall in H. apply H.
  apply list_elem_of_In. by apply elem_of_all_bytes.
Qed.

(** The same for two bytes. *)
Lemma byte_forall2 (P : Z -> Z -> bool) :
  forallb (fun a => forallb (P a) all_bytes) all_bytes = true ->
  forall a b, fits 8 a -> fits 8 b -> P a b = true.
Proof.
  intros H a b Ha Hb.
  apply (byte_forall (fun a => forallb (P a) all_bytes) H) in Ha.
  by apply (byte_forall (P a)).
Qed.

(** ** Facts on byte lists *)

Lemma bytes_nil : bytes [].
Proof. constructor. Qed.

Lemma bytes_cons b l : bytes (b :: l) <-> fits 8 b /\ bytes l.
Proof. apply Forall_cons. Qed.

Lemma bytes_app l k : bytes (l ++ k) <-> bytes l /\ bytes k.
Proof. apply Forall_app. Qed.

Lemma bytes_take n l : bytes l -> bytes (take n l).
Proof. apply Forall_take. Qed.

Lemma bytes_drop n l : bytes l -> bytes (drop n l).
Proof. apply Forall_drop. Qed.

#[export] Hint Resolve bytes_nil bytes_take bytes_drop : tiny.

(** [destruct] every boolean test of the goal into the fact it decides. *)
Ltac case_bools :=
  repeat match goal with
  | |- context [ ?a =? ?b ] => destruct (Z.eqb_spec a b)
  | |- context [ ?a <? ?b ] => destruct (Z.ltb_spec a b)
  | |- context [ ?a <=? ?b ] => destruct (Z.leb_spec a b)
  end.

(** Bounds of machine integers for [lia]. *)
Ltac flia := unfold bytes, fits in *; lia.
