(* ===== verification/Crc.v ===== *)
(** * CRC and checksum engine (src/proto/crc/tiny_crc.c)

    The lookup tables and the byte and block routines of the three frame check
    sequences, a bit-serial reference definition of the CRCs, and the facts the
    HDLC layer relies on: the tables are the ones the generator polynomials
    define, the table-driven routines compute the reference CRC, results fit
    their type, appending the transmitted field gives the documented residue,
    and every error burst no wider than the CRC changes the CRC. *)

From S2P Require Import Prelude.

(** ** Data *)

(** [hdlc_crc_t] (tiny_crc.h). *)
Inductive hdlc_crc_t : Type :=
| HDLC_CRC_DEFAULT
| HDLC_CRC_8
| HDLC_CRC_16
| HDLC_CRC_32
| HDLC_CRC_OFF.

#[export] Instance hdlc_crc_t_eq_dec : EqDecision hdlc_crc_t.
Proof. solve_decision. Defined.

(** The integer value of an enumerator. *)
Definition crc_type_val (t : hdlc_crc_t) : Z :=
  match t with
  | HDLC_CRC_DEFAULT => 0
  | HDLC_CRC_8 => 8
  | HDLC_CRC_16 => 16
  | HDLC_CRC_32 => 32
  | HDLC_CRC_OFF => 0xFF
  end.

Definition INITCHECKSUM : Z := 0x0000.
Definition GOODCHECKSUM : Z := 0x0000.
Definition PPPINITFCS16 : Z := 0xffff.
Definition PPPGOODFCS16 : Z := 0xf0b8.
Definition PPPINITFCS32 : Z := 0xffffffff.
Definition PPPGOODFCS32 : Z := 0xdebb20e3.

Definition fcstab_32 : list Z :=
  [0x00000000; 0x77073096; 0xee0e612c; 0x990951ba; 0x076dc419; 0x706af48f; 0xe963a535; 0x9e6495a3;
   0x0edb8832; 0x79dcb8a4; 0xe0d5e91e; 0x97d2d988; 0x09b64c2b; 0x7eb17cbd; 0xe7b82d07; 0x90bf1d91;
   0x1db71064; 0x6ab020f2; 0xf3b97148; 0x84be41de; 0x1adad47d; 0x6ddde4eb; 0xf4d4b551; 0x83d385c7;
   0x136c9856; 0x646ba8c0; 0xfd62f97a; 0x8a65c9ec; 0x14015c4f; 0x63066cd9; 0xfa0f3d63; 0x8d080df5;
   0x3b6e20c8; 0x4c69105e; 0xd56041e4; 0xa2677172; 0x3c03e4d1; 0x4b04d447; 0xd20d85fd; 0xa50ab56b;
   0x35b5a8fa; 0x42b2986c; 0xdbbbc9d6; 0xacbcf940; 0x32d86ce3; 0x45df5c75; 0xdcd60dcf; 0xabd13d59;
   0x26d930ac; 0x51de003a; 0xc8d75180; 0xbfd06116; 0x21b4f4b5; 0x56b3c423; 0xcfba9599; 0xb8bda50f;
   0x2802b89e; 0x5f058808; 0xc60cd9b2; 0xb10be924; 0x2f6f7c87; 0x58684c11; 0xc1611dab; 0xb6662d3d;
   0x76dc4190; 0x01db7106; 0x98d220bc; 0xefd5102a; 0x71b18589; 0x06b6b51f; 0x9fbfe4a5; 0xe8b8d433;
   0x7807c9a2; 0x0f00f934; 0x9609a88e; 0xe10e9818; 0x7f6a0dbb; 0x086d3d2d; 0x91646c97; 0xe6635c01;
   0x6b6b51f4; 0x1c6c6162; 0x856530d8; 0xf262004e; 0x6c0695ed; 0x1b01a57b; 0x8208f4c1; 0xf50fc457;
   0x65b0d9c6; 0x12b7e950; 0x8bbeb8ea; 0xfcb9887c; 0x62dd1ddf; 0x15da2d49; 0x8cd37cf3; 0xfbd44c65;
   0x4db26158; 0x3ab551ce; 0xa3bc0074; 0xd4bb30e2; 0x4adfa541; 0x3dd895d7; 0xa4d1c46d; 0xd3d6f4fb;
   0x4369e96a; 0x346ed9fc; 0xad678846; 0xda60b8d0; 0x44042d73; 0x33031de5; 0xaa0a4c5f; 0xdd0d7cc9;
   0x5005713c; 0x270241aa; 0xbe0b1010; 0xc90c2086; 0x5768b525; 0x206f85b3; 0xb966d409; 0xce61e49f;
   0x5edef90e; 0x29d9c998; 0xb0d09822; 0xc7d7a8b4; 0x59b33d17; 0x2eb40d81; 0xb7bd5c3b; 0xc0ba6cad;
   0xedb88320; 0x9abfb3b6; 0x03b6e20c; 0x74b1d29a; 0xead54739; 0x9dd277af; 0x04db2615; 0x73dc1683;
   0xe3630b12; 0x94643b84; 0x0d6d6a3e; 0x7a6a5aa8; 0xe40ecf0b; 0x9309ff9d; 0x0a00ae27; 0x7d079eb1;
   0xf00f9344; 0x8708a3d2; 0x1e01f268; 0x6906c2fe; 0xf762575d; 0x806567cb; 0x196c3671; 0x6e6b06e7;
   0xfed41b76; 0x89d32be0; 0x10da7a5a; 0x67dd4acc; 0xf9b9df6f; 0x8ebeeff9; 0x17b7be43; 0x60b08ed5;
   0xd6d6a3e8; 0xa1d1937e; 0x38d8c2c4; 0x4fdff252; 0xd1bb67f1; 0xa6bc5767; 0x3fb506dd; 0x48b2364b;
   0xd80d2bda; 0xaf0a1b4c; 0x36034af6; 0x41047a60; 0xdf60efc3; 0xa867df55; 0x316e8eef; 0x4669be79;
   0xcb61b38c; 0xbc66831a; 0x256fd2a0; 0x5268e236; 0xcc0c7795; 0xbb0b4703; 0x220216b9; 0x5505262f;
   0xc5ba3bbe; 0xb2bd0b28; 0x2bb45a92; 0x5cb36a04; 0xc2d7ffa7; 0xb5d0cf31; 0x2cd99e8b; 0x5bdeae1d;
   0x9b64c2b0; 0xec63f226; 0x756aa39c; 0x026d930a; 0x9c0906a9; 0xeb0e363f; 0x72076785; 0x05005713;
   0x95bf4a82; 0xe2b87a14; 0x7bb12bae; 0x0cb61b38; 0x92d28e9b; 0xe5d5be0d; 0x7cdcefb7; 0x0bdbdf21;
   0x86d3d2d4; 0xf1d4e242; 0x68ddb3f8; 0x1fda836e; 0x81be16cd; 0xf6b9265b; 0x6fb077e1; 0x18b74777;
   0x88085ae6; 0xff0f6a70; 0x66063bca; 0x11010b5c; 0x8f659eff; 0xf862ae69; 0x616bffd3; 0x166ccf45;
   0xa00ae278; 0xd70dd2ee; 0x4e048354; 0x3903b3c2; 0xa7672661; 0xd06016f7; 0x4969474d; 0x3e6e77db;
   0xaed16a4a; 0xd9d65adc; 0x40df0b66; 0x37d83bf0; 0xa9bcae53; 0xdebb9ec5; 0x47b2cf7f; 0x30b5ffe9;
   0xbdbdf21c; 0xcabac28a; 0x53b39330; 0x24b4a3a6; 0xbad03605; 0xcdd70693; 0x54de5729; 0x23d967bf;
   0xb3667a2e; 0xc4614ab8; 0x5d681b02; 0x2a6f2b94; 0xb40bbe37; 0xc30c8ea1; 0x5a05df1b; 0x2d02ef8d].

Definition fcstab_16 : list Z :=
  [0x0000; 0x1189; 0x2312; 0x329b; 0x4624; 0x57ad; 0x6536; 0x74bf; 0x8c48; 0x9dc1; 0xaf5a; 0xbed3;
   0xca6c; 0xdbe5; 0xe97e; 0xf8f7; 0x1081; 0x0108; 0x3393; 0x221a; 0x56a5; 0x472c; 0x75b7; 0x643e;
   0x9cc9; 0x8d40; 0xbfdb; 0xae52; 0xdaed; 0xcb64; 0xf9ff; 0xe876; 0x2102; 0x308b; 0x0210; 0x1399;
   0x6726; 0x76af; 0x4434; 0x55bd; 0xad4a; 0xbcc3; 0x8e58; 0x9fd1; 0xeb6e; 0xfae7; 0xc87c; 0xd9f5;
   0x3183; 0x200a; 0x1291; 0x0318; 0x77a7; 0x662e; 0x54b5; 0x453c; 0xbdcb; 0xac42; 0x9ed9; 0x8f50;
   0xfbef; 0xea66; 0xd8fd; 0xc974; 0x4204; 0x538d; 0x6116; 0x709f; 0x0420; 0x15a9; 0x2732; 0x36bb;
   0xce4c; 0xdfc5; 0xed5e; 0xfcd7; 0x8868; 0x99e1; 0xab7a; 0xbaf3; 0x5285; 0x430c; 0x7197; 0x601e;
   0x14a1; 0x0528; 0x37b3; 0x263a; 0xdecd; 0xcf44; 0xfddf; 0xec56; 0x98e9; 0x8960; 0xbbfb; 0xaa72;
   0x6306; 0x728f; 0x4014; 0x519d; 0x2522; 0x34ab; 0x0630; 0x17b9; 0xef4e; 0xfec7; 0xcc5c; 0xddd5;
   0xa96a; 0xb8e3; 0x8a78; 0x9bf1; 0x7387; 0x620e; 0x5095; 0x411c; 0x35a3; 0x242a; 0x16b1; 0x0738;
   0xffcf; 0xee46; 0xdcdd; 0xcd54; 0xb9eb; 0xa862; 0x9af9; 0x8b70; 0x8408; 0x9581; 0xa71a; 0xb693;
   0xc22c; 0xd3a5; 0xe13e; 0xf0b7; 0x0840; 0x19c9; 0x2b52; 0x3adb; 0x4e64; 0x5fed; 0x6d76; 0x7cff;
   0x9489; 0x8500; 0xb79b; 0xa612; 0xd2ad; 0xc324; 0xf1bf; 0xe036; 0x18c1; 0x0948; 0x3bd3; 0x2a5a;
   0x5ee5; 0x4f6c; 0x7df7; 0x6c7e; 0xa50a; 0xb483; 0x8618; 0x9791; 0xe32e; 0xf2a7; 0xc03c; 0xd1b5;
   0x2942; 0x38cb; 0x0a50; 0x1bd9; 0x6f66; 0x7eef; 0x4c74; 0x5dfd; 0xb58b; 0xa402; 0x9699; 0x8710;
   0xf3af; 0xe226; 0xd0bd; 0xc134; 0x39c3; 0x284a; 0x1ad1; 0x0b58; 0x7fe7; 0x6e6e; 0x5cf5; 0x4d7c;
   0xc60c; 0xd785; 0xe51e; 0xf497; 0x8028; 0x91a1; 0xa33a; 0xb2b3; 0x4a44; 0x5bcd; 0x6956; 0x78df;
   0x0c60; 0x1de9; 0x2f72; 0x3efb; 0xd68d; 0xc704; 0xf59f; 0xe416; 0x90a9; 0x8120; 0xb3bb; 0xa232;
   0x5ac5; 0x4b4c; 0x79d7; 0x685e; 0x1ce1; 0x0d68; 0x3ff3; 0x2e7a; 0xe70e; 0xf687; 0xc41c; 0xd595;
   0xa12a; 0xb0a3; 0x8238; 0x93b1; 0x6b46; 0x7acf; 0x4854; 0x59dd; 0x2d62; 0x3ceb; 0x0e70; 0x1ff9;
   0xf78f; 0xe606; 0xd49d; 0xc514; 0xb1ab; 0xa022; 0x92b9; 0x8330; 0x7bc7; 0x6a4e; 0x58d5; 0x495c;
   0x3de3; 0x2c6a; 0x1ef1; 0x0f78].

(** ** Operations *)

(** [crc >> 8] xor a table entry: the byte step both CRCs share. *)
Definition table_step (tab : list Z) (crc data : Z) : Z :=
  Z.lxor (nth (Z.to_nat (Z.land (Z.lxor crc data) 0xFF)) tab 0) (Z.shiftr crc 8).

Definition crc32_byte (crc data : Z) : Z := table_step fcstab_32 crc data.

Definition crc16_byte (crc data : Z) : Z := u16 (table_step fcstab_16 crc data).

Definition chksum_byte (sum data : Z) : Z := u16 (sum + data).

(** [while ( size-- ) crc = ...; return crc ^ ~0U] over the [size] bytes of [buf]. *)
Fixpoint crc32_loop (crc : Z) (buf : list Z) : Z :=
  match buf with
  | [] => crc
  | p :: buf => crc32_loop (table_step fcstab_32 crc p) buf
  end.

Definition tiny_crc32 (crc : Z) (buf : list Z) : Z :=
  Z.lxor (crc32_loop crc buf) 0xFFFFFFFF.

Fixpoint crc16_loop (crc : Z) (data : list Z) : Z :=
  match data with
  | [] => crc
  | d :: data => crc16_loop (u16 (table_step fcstab_16 crc d)) data
  end.

(** [~0U] is 32 bits wide; the result is converted to [uint16_t]. *)
Definition tiny_crc16 (crc : Z) (data : list Z) : Z :=
  u16 (Z.lxor (crc16_loop crc data) 0xFFFFFFFF).

Fixpoint chksum_loop (tmp_sum : Z) (data : list Z) : Z :=
  match data with
  | [] => tmp_sum
  | d :: data => chksum_loop (u32 (tmp_sum + d)) data
  end.

Definition tiny_chksum (sum : Z) (data : list Z) : Z :=
  u16 (0xFFFF - Z.land (chksum_loop sum data) 0xFFFF).

(** [HDLC_CRC_DEFAULT] counts as [HDLC_CRC_32] here. *)
Definition get_crc_field_size (crc_type : hdlc_crc_t) : Z :=
  if bool_decide (crc_type = HDLC_CRC_OFF) then 0 else
  let crc_type := if bool_decide (crc_type = HDLC_CRC_DEFAULT) then HDLC_CRC_32 else crc_type in
  Z.quot (crc_type_val crc_type) 8.

(** ** Reference definition

    A reflected CRC is a shift register: one step shifts right and, when a one
    falls out, adds the reversed generator polynomial [poly]. *)

Definition lfsr_step (poly c : Z) : Z :=
  if Z.odd c then Z.lxor (Z.shiftr c 1) poly else Z.shiftr c 1.

Fixpoint lfsr (poly : Z) (n : nat) (c : Z) : Z :=
  match n with
  | O => c
  | S n => lfsr poly n (lfsr_step poly c)
  end.

(** Feeding a byte adds it to the low end of the register and shifts 8 times. *)
Definition lfsr_byte (poly c data : Z) : Z := lfsr poly 8 (Z.lxor c data).

(** The CRC register after a whole message. *)
Definition lfsr_bytes (poly c : Z) (data : list Z) : Z := foldl (lfsr_byte poly) c data.

(** The reversed polynomials of the comments of tiny_crc.c: bit [w-1-i] is the
    coefficient of [x^i]. *)
Definition reversed_poly (w : Z) (exponents : list Z) : Z :=
  foldl (fun acc i => Z.lor acc (Z.shiftl 1 (w - 1 - i))) 0 exponents.

Definition poly_16 : Z := reversed_poly 16 [0; 5; 12].
Definition poly_32 : Z := reversed_poly 32 [0; 1; 2; 4; 5; 7; 8; 10; 11; 12; 16; 22; 23; 26].

(** The bytes of a [n]-byte number, least significant first. *)
Fixpoint le_bytes (n : nat) (z : Z) : list Z :=
  match n with
  | O => []
  | S n => u8 z :: le_bytes n (Z.shiftr z 8)
  end.

Fixpoint le_value (l : list Z) : Z :=
  match l with
  | [] => 0
  | b :: l => Z.lor b (Z.shiftl (le_value l) 8)
  end.

(** ** The reference register: linearity, range, injectivity *)

Lemma lxor_cancel a b c d : Z.lxor (Z.lxor a b) (Z.lxor c d) = Z.lxor (Z.lxor a c) (Z.lxor b d).
Proof.
  rewrite !Z.lxor_assoc. f_equal. rewrite <- !Z.lxor_assoc. f_equal. apply Z.lxor_comm.
Qed.

Lemma lfsr_step_lxor poly a b :
  lfsr_step poly (Z.lxor a b) = Z.lxor (lfsr_step poly a) (lfsr_step poly b).
Proof.
  unfold lfsr_step. rewrite <- !Z.bit0_odd, Z.lxor_spec, Z.shiftr_lxor.
  destruct (Z.testbit a 0), (Z.testbit b 0); simpl.
  - rewrite lxor_cancel, Z.lxor_nilpotent. by rewrite Z.lxor_0_r.
  - rewrite !Z.lxor_assoc. f_equal. apply Z.lxor_comm.
  - by rewrite Z.lxor_assoc.
  - done.
Qed.

Lemma lfsr_lxor poly n a b : lfsr poly n (Z.lxor a b) = Z.lxor (lfsr poly n a) (lfsr poly n b).
Proof. revert a b. induction n as [|n IH]; intros a b; simpl; [done|]. by rewrite lfsr_step_lxor, IH. Qed.

Lemma lfsr_add poly m n c : lfsr poly (m + n) c = lfsr poly n (lfsr poly m c).
Proof. revert c. induction m as [|m IH]; intros c; simpl; [done|]. apply IH. Qed.

(** Zero bits just shift out. *)
Lemma lfsr_shiftl poly n x : lfsr poly n (Z.shiftl x (Z.of_nat n)) = x.
Proof.
  induction n as [|n IH]; [apply Z.shiftl_0_r|].
  cbn [lfsr]. unfold lfsr_step at 1.
  rewrite <- Z.bit0_odd. rewrite Z.shiftl_spec_low by lia.
  rewrite Z.shiftr_shiftl_l by lia.
  by replace (Z.of_nat (S n) - 1) with (Z.of_nat n) by lia.
Qed.

Lemma lfsr_step_0 poly : lfsr_step poly 0 = 0.
Proof. done. Qed.

Lemma split_low n z :
  0 <= n -> z = Z.lxor (Z.land z (Z.ones n)) (Z.shiftl (Z.shiftr z n) n).
Proof.
  intros Hn. apply Z.bits_inj'. intros i Hi.
  rewrite Z.lxor_spec, Z.land_spec, Z.shiftl_spec by done.
  destruct (Z.lt_ge_cases i n).
  - rewrite Z.ones_spec_low, (Z.testbit_neg_r _ (i - n)) by lia. by rewrite andb_true_r, xorb_false_r.
  - rewrite Z.ones_spec_high, Z.shiftr_spec by lia. rewrite andb_false_r, xorb_false_l. f_equal. lia.
Qed.

Lemma shiftr_small n z : 0 <= n -> fits n z -> Z.shiftr z n = 0.
Proof. intros Hn Hz. rewrite Z.shiftr_div_pow2 by done. by apply Z.div_small. Qed.

Section Register.

Context (w poly : Z) (Hw : 8 <= w) (Hpoly : fits w poly) (Htop : Z.testbit poly (w - 1) = true).

Lemma lfsr_step_fits c : fits w c -> fits w (lfsr_step poly c).
Proof using Hpoly Hw.
  intros Hc. unfold lfsr_step.
  assert (fits w (Z.shiftr c 1)) by (apply fits_shiftr_self; [lia..|done]).
  destruct (Z.odd c); [|done].
  apply fits_lxor; [lia|done..].
Qed.

Lemma lfsr_fits n c : fits w c -> fits w (lfsr poly n c).
Proof using Hpoly Hw. revert c. induction n as [|n IH]; simpl; auto using lfsr_step_fits. Qed.

(** A nonzero register stays nonzero: the bit that falls out comes back as the
    top bit of the polynomial. *)
Lemma lfsr_step_zero c : fits w c -> lfsr_step poly c = 0 -> c = 0.
Proof using Htop Hpoly Hw.
  intros Hc. unfold lfsr_step. destruct (Z.odd c) eqn:Ho.
  - intros Hx%Z.lxor_eq. exfalso.
    enough (Z.testbit (Z.shiftr c 1) (w - 1) = false) by congruence.
    rewrite Z.shiftr_spec by lia. apply fits_testbit in Hc; [|lia].
    apply Hc. lia.
  - intros Hs. rewrite Z.shiftr_div_pow2 in Hs by lia.
    rewrite <- Z.negb_even in Ho. apply negb_false_iff, Z.even_spec in Ho as [k ->].
    change (2 ^ 1) with 2 in Hs. rewrite Z.mul_comm, Z.div_mul in Hs by lia. lia.
Qed.

Lemma lfsr_zero n c : fits w c -> lfsr poly n c = 0 -> c = 0.
Proof using Htop Hpoly Hw.
  revert c. induction n as [|n IH]; simpl; intros c Hc; [done|].
  intros H%IH; [|by apply lfsr_step_fits]. by apply lfsr_step_zero.
Qed.

Lemma lfsr_inj n a b : fits w a -> fits w b -> lfsr poly n a = lfsr poly n b -> a = b.
Proof using Htop Hpoly Hw.
  intros Ha Hb H. apply Z.lxor_eq. apply (lfsr_zero n).
  - apply fits_lxor; [lia|done..].
  - by rewrite lfsr_lxor, H, Z.lxor_nilpotent.
Qed.

Lemma lfsr_byte_fits c d : fits w c -> fits 8 d -> fits w (lfsr_byte poly c d).
Proof using Hpoly Hw.
  intros Hc Hd. apply lfsr_fits. apply fits_lxor; [lia|done|].
  eapply fits_mono; [|done]. lia.
Qed.

Lemma lfsr_bytes_fits c data : fits w c -> bytes data -> fits w (lfsr_bytes poly c data).
Proof using Hpoly Hw.
  unfold lfsr_bytes. intros Hc Hd. revert c Hc.
  induction Hd as [|d data Hd Hds IH]; simpl; intros c Hc; [done|].
  apply IH. by apply lfsr_byte_fits.
Qed.

(** A table of the register's answers to the 256 bytes makes the byte step a
    lookup. *)
Lemma table_step_lfsr tab c d :
  (forall i, fits 8 i -> nth (Z.to_nat i) tab 0 = lfsr poly 8 i) ->
  fits w c -> fits 8 d -> table_step tab c d = lfsr_byte poly c d.
Proof using Type.
  intros Htab Hc Hd. unfold table_step, lfsr_byte.
  rewrite Htab; cycle 1.
  { rewrite Z.land_comm. change 0xFF with (Z.ones 8).
    rewrite Z.land_comm, Z.land_ones by lia. apply Z.mod_pos_bound. lia. }
  rewrite (split_low 8 (Z.lxor c d)) at 2 by lia.
  rewrite lfsr_lxor. f_equal.
  pose proof (lfsr_shiftl poly 8 (Z.shiftr (Z.lxor c d) 8)) as E.
  change (Z.of_nat 8) with 8 in E. rewrite E.
  rewrite Z.shiftr_lxor, (shiftr_small 8 d) by (lia || done).
  by rewrite Z.lxor_0_r.
Qed.

End Register.

(** ** Little-endian fields *)

Lemma le_bytes_length n z : length (le_bytes n z) = n.
Proof. revert z. induction n; simpl; auto. Qed.

Lemma le_bytes_bytes n z : bytes (le_bytes n z).
Proof. revert z. induction n; simpl; intros; constructor; auto using fits_u8. apply IHn. Qed.

Lemma le_value_cons b l : le_value (b :: l) = Z.lor b (Z.shiftl (le_value l) 8).
Proof. done. Qed.

Lemma lor_shiftl_lxor n b z : 0 <= n -> fits n b -> Z.lor b (Z.shiftl z n) = Z.lxor b (Z.shiftl z n).
Proof.
  intros Hn [_ Hb]%fits_testbit; [|done]. apply Z.bits_inj'. intros i Hi.
  rewrite Z.lor_spec, Z.lxor_spec. destruct (Z.lt_ge_cases i n).
  - rewrite Z.shiftl_spec_low by done. by destruct (Z.testbit b i).
  - rewrite Hb by done. by destruct (Z.testbit (Z.shiftl z n) i).
Qed.

Lemma fits_shiftl n w z : 0 <= n -> 0 <= w -> fits w z -> fits (n + w) (Z.shiftl z n).
Proof.
  intros ?? [? Hz]%fits_testbit; [|done]. apply fits_testbit; [lia|].
  split; [by apply Z.shiftl_nonneg|]. intros i Hi.
  rewrite Z.shiftl_spec by lia. apply Hz. lia.
Qed.

Lemma le_value_fits l : bytes l -> fits (8 * Z.of_nat (length l)) (le_value l).
Proof.
  induction 1 as [|b l Hb Hl IH]; [done|]. rewrite le_value_cons. cbn [length].
  replace (8 * Z.of_nat (S (length l))) with (8 + 8 * Z.of_nat (length l)) by lia.
  apply fits_lor; [lia| |apply fits_shiftl; [lia..|done]].
  eapply fits_mono; [|done]. lia.
Qed.

(** The low byte and the rest of a little-endian number. *)
Lemma le_value_low b l : fits 8 b -> u8 (le_value (b :: l)) = b.
Proof.
  intros Hb. rewrite le_value_cons, lor_shiftl_lxor by (lia || done). unfold u8.
  rewrite <- Z.land_ones by lia. apply Z.bits_inj'. intros i Hi.
  rewrite Z.land_spec, Z.lxor_spec. destruct (Z.lt_ge_cases i 8).
  - rewrite Z.ones_spec_low, Z.shiftl_spec_low by lia. by rewrite andb_true_r, xorb_false_r.
  - rewrite Z.ones_spec_high, andb_false_r by lia. symmetry.
    apply fits_testbit in Hb; [|lia]. by apply Hb.
Qed.

Lemma le_value_high b l : fits 8 b -> Z.shiftr (le_value (b :: l)) 8 = le_value l.
Proof.
  intros Hb. rewrite le_value_cons, Z.shiftr_lor, shiftr_small by (lia || done).
  rewrite Z.shiftr_shiftl_l by lia. by rewrite Z.lor_0_l, Z.shiftl_0_r.
Qed.

Lemma le_bytes_value l : bytes l -> le_bytes (length l) (le_value l) = l.
Proof.
  induction 1 as [|b l Hb Hl IH]; [done|]. cbn [length le_bytes].
  by rewrite le_value_low, le_value_high, IH.
Qed.

Lemma le_value_bytes n z : fits (8 * Z.of_nat n) z -> le_value (le_bytes n z) = z.
Proof.
  revert z. induction n as [|n IH]; intros z Hz.
  { unfold fits in Hz. simpl in *. lia. }
  cbn [le_bytes le_value]. rewrite IH.
  - rewrite lor_shiftl_lxor by (lia || apply fits_u8). unfold u8.
    rewrite <- Z.land_ones by lia. symmetry. by apply split_low.
  - apply fits_shiftr; [lia..|]. eapply fits_mono; [|done]. lia.
Qed.

Lemma le_value_inj l k :
  length l = length k -> bytes l -> bytes k -> le_value l = le_value k -> l = k.
Proof.
  intros Hlen Hl Hk He. rewrite <- (le_bytes_value l), <- (le_bytes_value k) by done. congruence.
Qed.

(** ** Processing a block is reducing the whole message at once *)

Lemma lfsr_bytes_cons poly c d data :
  lfsr_bytes poly c (d :: data) = lfsr_bytes poly (lfsr_byte poly c d) data.
Proof. done. Qed.

Lemma lfsr_bytes_app poly c data1 data2 :
  lfsr_bytes poly c (data1 ++ data2) = lfsr_bytes poly (lfsr_bytes poly c data1) data2.
Proof. apply foldl_app. Qed.

(** Feeding bytes one by one shifts the register, with the little-endian number
    they form added to it, by their total width. *)
Lemma lfsr_bytes_value poly c data :
  bytes data -> lfsr_bytes poly c data = lfsr poly (8 * length data) (Z.lxor c (le_value data)).
Proof.
  intros Hd. revert c. induction Hd as [|d data Hd Hds IH]; intros c.
  { simpl. by rewrite Z.lxor_0_r. }
  rewrite lfsr_bytes_cons, IH. cbn [length].
  replace (8 * S (length data))%nat with (8 + 8 * length data)%nat by lia.
  rewrite lfsr_add. f_equal. unfold lfsr_byte.
  rewrite le_value_cons, lor_shiftl_lxor by (lia || done).
  rewrite <- Z.lxor_assoc, (lfsr_lxor _ _ _ (Z.shiftl _ _)). f_equal.
  pose proof (lfsr_shiftl poly 8 (le_value data)) as E.
  change (Z.of_nat 8) with 8 in E. done.
Qed.

(** ** The two configured CRCs *)

Lemma fcstab_16_lfsr i : fits 8 i -> nth (Z.to_nat i) fcstab_16 0 = lfsr poly_16 8 i.
Proof.
  intros Hi. apply Z.eqb_eq.
  by apply (byte_forall (fun i => nth (Z.to_nat i) fcstab_16 0 =? lfsr poly_16 8 i)); [vm_compute|].
Qed.

Lemma fcstab_32_lfsr i : fits 8 i -> nth (Z.to_nat i) fcstab_32 0 = lfsr poly_32 8 i.
Proof.
  intros Hi. apply Z.eqb_eq.
  by apply (byte_forall (fun i => nth (Z.to_nat i) fcstab_32 0 =? lfsr poly_32 8 i)); [vm_compute|].
Qed.

Lemma poly_16_fits : fits 16 poly_16.
Proof. by vm_compute. Qed.

Lemma poly_32_fits : fits 32 poly_32.
Proof. by vm_compute. Qed.

Lemma poly_16_top : Z.testbit poly_16 (16 - 1) = true.
Proof. done. Qed.

Lemma poly_32_top : Z.testbit poly_32 (32 - 1) = true.
Proof. done. Qed.

Lemma init16_fits : fits 16 PPPINITFCS16.
Proof. by vm_compute. Qed.

Lemma init32_fits : fits 32 PPPINITFCS32.
Proof. by vm_compute. Qed.

#[export] Hint Resolve poly_16_fits poly_32_fits init16_fits init32_fits : tiny.

Lemma crc16_loop_lfsr c data :
  fits 16 c -> bytes data -> crc16_loop c data = lfsr_bytes poly_16 c data.
Proof.
  intros Hc Hd. revert c Hc. induction Hd as [|d data Hd Hds IH]; intros c Hc; [done|].
  cbn [crc16_loop]. rewrite lfsr_bytes_cons.
  rewrite (table_step_lfsr 16 poly_16) by (done || apply fcstab_16_lfsr).
  assert (fits 16 (lfsr_byte poly_16 c d)).
  { apply lfsr_byte_fits; (lia || done || apply poly_16_fits). }
  rewrite u16_id by done. by apply IH.
Qed.

Lemma crc32_loop_lfsr c data :
  fits 32 c -> bytes data -> crc32_loop c data = lfsr_bytes poly_32 c data.
Proof.
  intros Hc Hd. revert c Hc. induction Hd as [|d data Hd Hds IH]; intros c Hc; [done|].
  cbn [crc32_loop]. rewrite lfsr_bytes_cons.
  rewrite (table_step_lfsr 32 poly_32) by (done || apply fcstab_32_lfsr).
  apply IH. apply lfsr_byte_fits; (lia || done || apply poly_32_fits).
Qed.

Lemma u16_lxor_ones c : fits 16 c -> u16 (Z.lxor c 0xFFFFFFFF) = Z.lxor c 0xFFFF.
Proof.
  intros Hc. unfold u16. rewrite <- Z.land_ones by lia.
  apply Z.bits_inj'. intros i Hi. rewrite Z.land_spec, !Z.lxor_spec.
  change 0xFFFFFFFF with (Z.ones 32). change 0xFFFF with (Z.ones 16).
  destruct (Z.lt_ge_cases i 16).
  - rewrite !Z.ones_spec_low by lia. by rewrite andb_true_r.
  - rewrite !(Z.ones_spec_high 16), andb_false_r by lia.
    apply fits_testbit in Hc; [|lia]. destruct Hc as [_ ->]; [done|lia].
Qed.

Lemma tiny_crc16_lfsr c data :
  fits 16 c -> bytes data -> tiny_crc16 c data = Z.lxor (lfsr_bytes poly_16 c data) 0xFFFF.
Proof.
  intros Hc Hd. unfold tiny_crc16. rewrite crc16_loop_lfsr by done.
  apply u16_lxor_ones. apply lfsr_bytes_fits; (lia || done || apply poly_16_fits).
Qed.

Lemma tiny_crc32_lfsr c data :
  fits 32 c -> bytes data -> tiny_crc32 c data = Z.lxor (lfsr_bytes poly_32 c data) 0xFFFFFFFF.
Proof. intros Hc Hd. unfold tiny_crc32. by rewrite crc32_loop_lfsr. Qed.

Lemma tiny_crc16_fits c data : fits 16 (tiny_crc16 c data).
Proof. apply fits_u16. Qed.

Lemma tiny_crc32_fits c data : fits 32 c -> bytes data -> fits 32 (tiny_crc32 c data).
Proof.
  intros Hc Hd. rewrite tiny_crc32_lfsr by done.
  apply fits_lxor; [lia| |by vm_compute].
  apply lfsr_bytes_fits; (lia || done || apply poly_32_fits).
Qed.

Lemma tiny_chksum_fits s data : fits 16 (tiny_chksum s data).
Proof. apply fits_u16. Qed.

(** ** Residue *)

(** A register [c] followed by its own complement, sent least significant byte
    first, ends in the register the complement mask alone leads to. *)
Lemma lfsr_residue poly n c mask :
  fits (8 * Z.of_nat n) c -> fits (8 * Z.of_nat n) mask ->
  lfsr_bytes poly c (le_bytes n (Z.lxor c mask)) = lfsr poly (8 * n) mask.
Proof.
  intros Hc Hm. rewrite lfsr_bytes_value by apply le_bytes_bytes.
  rewrite le_bytes_length, le_value_bytes by (apply fits_lxor; [lia|done..]).
  by rewrite <- Z.lxor_assoc, Z.lxor_nilpotent, Z.lxor_0_l.
Qed.

(** ** Error bursts *)

Lemma lxor_inj_l c a b : Z.lxor c a = Z.lxor c b -> a = b.
Proof.
  intros H. apply (f_equal (Z.lxor c)) in H.
  by rewrite <- !Z.lxor_assoc, Z.lxor_nilpotent, !Z.lxor_0_l in H.
Qed.

Lemma lxor_inj_r c a b : Z.lxor a c = Z.lxor b c -> a = b.
Proof. rewrite (Z.lxor_comm a), (Z.lxor_comm b). apply lxor_inj_l. Qed.

(** Distinct registers stay distinct under the same input. *)
Lemma lfsr_bytes_inj w poly a b data :
  8 <= w -> fits w poly -> Z.testbit poly (w - 1) = true -> fits w a -> fits w b -> bytes data ->
  lfsr_bytes poly a data = lfsr_bytes poly b data -> a = b.
Proof.
  intros Hw Hp Ht Ha Hb Hd. revert a b Ha Hb.
  induction Hd as [|d data Hd Hds IH]; intros a b Ha Hb; [done|].
  rewrite !lfsr_bytes_cons. intros H%IH; [|by apply lfsr_byte_fits..].
  assert (Hf : forall c, fits w c -> fits w (Z.lxor c d)).
  { intros c Hc. apply fits_lxor; [lia|done|]. eapply fits_mono; [|done]. lia. }
  apply (lfsr_inj w) in H; [by apply lxor_inj_r in H|auto..].
Qed.

(** Two messages that differ only inside a window no wider than the register
    lead to different registers. *)
Lemma lfsr_burst w poly c pre mid mid' post :
  8 <= w -> fits w poly -> Z.testbit poly (w - 1) = true -> fits w c ->
  bytes pre -> bytes mid -> bytes mid' -> bytes post ->
  length mid = length mid' -> 8 * Z.of_nat (length mid) <= w -> mid <> mid' ->
  lfsr_bytes poly c (pre ++ mid ++ post) <> lfsr_bytes poly c (pre ++ mid' ++ post).
Proof.
  intros Hw Hp Ht Hc Hpre Hmid Hmid' Hpost Hlen Hwin Hne Heq. apply Hne.
  rewrite !lfsr_bytes_app in Heq.
  set (r := lfsr_bytes poly c pre) in *.
  assert (Hr : fits w r) by (by apply lfsr_bytes_fits).
  assert (Hf : forall l, bytes l -> length l = length mid -> fits w (Z.lxor r (le_value l))).
  { intros l Hl Hll. apply fits_lxor; [lia|done|].
    eapply fits_mono; [|by apply le_value_fits]. lia. }
  apply (lfsr_bytes_inj w) in Heq; [|try done; by apply lfsr_bytes_fits..].
  rewrite !lfsr_bytes_value, <- Hlen in Heq by done.
  apply (lfsr_inj w) in Heq; [|auto..].
  apply lxor_inj_l, le_value_inj in Heq; done.
Qed.

(** ** Properties *)

(** C30: the table-driven FCS routines compute the CRCs of the generator
    polynomials their comments give: from the initial values the code uses,
    [tiny_crc16] and [tiny_crc32] are the complement of the bit-serial shift
    register of [x^16+x^12+x^5+1] and of the 32-bit polynomial, for every
    message. *)
Theorem tiny_crc_reference (data : list Z) (Hd : bytes data) :
  tiny_crc16 PPPINITFCS16 data = Z.lxor (lfsr_bytes poly_16 PPPINITFCS16 data) 0xFFFF /\
  tiny_crc32 PPPINITFCS32 data = Z.lxor (lfsr_bytes poly_32 PPPINITFCS32 data) 0xFFFFFFFF.
Proof.
  split; [apply tiny_crc16_lfsr|apply tiny_crc32_lfsr]; auto with tiny.
Qed.

(** "123456789" *)
Definition check_message : list Z := [0x31; 0x32; 0x33; 0x34; 0x35; 0x36; 0x37; 0x38; 0x39].

(** At the catalogue's check message both sides are the published check values. *)
Lemma tiny_crc_reference_witness :
  tiny_crc16 PPPINITFCS16 check_message = 0x906E /\
  tiny_crc32 PPPINITFCS32 check_message = 0xCBF43926 /\
  tiny_crc16 PPPINITFCS16 check_message
    = Z.lxor (lfsr_bytes poly_16 PPPINITFCS16 check_message) 0xFFFF.
Proof.
  split; [vm_compute; reflexivity|]. split; [vm_compute; reflexivity|].
  apply (tiny_crc_reference check_message). repeat constructor; vm_compute; congruence.
Defined.

(** The good-FCS residues: running the FCS register over a message and the
    little-endian FCS the sender appends ends in [PPPGOODFCS16] resp.
    [PPPGOODFCS32], whatever the message. *)
Theorem tiny_crc_residue (data : list Z) (Hd : bytes data) :
  crc16_loop PPPINITFCS16 (data ++ le_bytes 2 (tiny_crc16 PPPINITFCS16 data)) = PPPGOODFCS16 /\
  crc32_loop PPPINITFCS32 (data ++ le_bytes 4 (tiny_crc32 PPPINITFCS32 data)) = PPPGOODFCS32.
Proof.
  assert (Ha : forall n z, bytes (data ++ le_bytes n z)).
  { intros n z. apply bytes_app. split; [done|apply le_bytes_bytes]. }
  rewrite crc16_loop_lfsr, crc32_loop_lfsr by auto with tiny.
  rewrite tiny_crc16_lfsr, tiny_crc32_lfsr by auto with tiny.
  assert (fits 16 (lfsr_bytes poly_16 PPPINITFCS16 data)).
  { apply lfsr_bytes_fits; auto with tiny; lia. }
  assert (fits 32 (lfsr_bytes poly_32 PPPINITFCS32 data)).
  { apply lfsr_bytes_fits; auto with tiny; lia. }
  rewrite !lfsr_bytes_app, !lfsr_residue by done. split; reflexivity.
Qed.

Lemma tiny_crc_residue_witness :
  crc16_loop PPPINITFCS16 (check_message ++ [0x6E; 0x90]) = PPPGOODFCS16 /\
  crc16_loop PPPINITFCS16
    (check_message ++ le_bytes 2 (tiny_crc16 PPPINITFCS16 check_message)) = PPPGOODFCS16.
Proof.
  split; [vm_compute; reflexivity|].
  apply (tiny_crc_residue check_message). repeat constructor; vm_compute; congruence.
Defined.

(** Burst detection: two messages of the same length that differ only
    inside two adjacent bytes have different FCS-16, and two that differ only
    inside four adjacent bytes have different FCS-32. *)
Theorem tiny_crc_burst (pre mid mid' post : list Z)
  (Hb : bytes pre /\ bytes mid /\ bytes mid' /\ bytes post)
  (Hl : length mid = length mid') (Hne : mid <> mid') :
  ((length mid <= 2)%nat ->
   tiny_crc16 PPPINITFCS16 (pre ++ mid ++ post) <> tiny_crc16 PPPINITFCS16 (pre ++ mid' ++ post)) /\
  ((length mid <= 4)%nat ->
   tiny_crc32 PPPINITFCS32 (pre ++ mid ++ post) <> tiny_crc32 PPPINITFCS32 (pre ++ mid' ++ post)).
Proof.
  destruct Hb as (? & ? & ? & ?).
  assert (Ha : forall m, bytes m -> bytes (pre ++ m ++ post)).
  { intros m Hm. rewrite !bytes_app. done. }
  split; intros Hw.
  - rewrite !tiny_crc16_lfsr by auto with tiny. intros E%lxor_inj_r. revert E.
    apply (lfsr_burst 16); auto with tiny; lia.
  - rewrite !tiny_crc32_lfsr by auto with tiny. intros E%lxor_inj_r. revert E.
    apply (lfsr_burst 32); auto with tiny; lia.
Qed.

Lemma tiny_crc_burst_witness :
  tiny_crc16 PPPINITFCS16 [1; 2; 3] <> tiny_crc16 PPPINITFCS16 [1; 7; 8].
Proof.
  apply (tiny_crc_burst [1] [2; 3] [7; 8] []).
  - repeat split; repeat constructor; vm_compute; congruence.
  - reflexivity.
  - congruence.
  - simpl; lia.
Defined.
