(* ===== verification/HdlcLL.v ===== *)
(** * Low-level HDLC framing: state and operations (src/proto/hdlc/low_level)

    The handle [hdlc_ll_data_t] of hdlc_int.h and every function of hdlc.c.

    - A pointer to user memory is an address (a [Z], 0 is [NULL]); the memory
      behind it belongs to the client [U] of the layer and is read through
      [cl_mem].  [rx_ptr] and [rx_active_frame_buf] are offsets into [rx_buf],
      whose contents are part of the handle; a store outside [rx_buf] (undefined
      behaviour in C) sets [rx_overrun].
    - The two callbacks are functions of the client on the pair of the handle
      and the client's own state: they may call back into this layer.
    - The buffer a [hdlc_ll_run_tx] call fills is the list of bytes written so
      far and the room left. *)

From S2P Require Import Prelude Crc.

Definition FLAG_SEQUENCE : Z := 0x7E.
Definition FILL_BYTE : Z := 0xFF.
Definition TINY_ESCAPE_CHAR : Z := 0x7D.
Definition TINY_ESCAPE_BIT : Z := 0x20.

(** [hdlc_ll_reset_flags_t] *)
Definition HDLC_LL_RESET_BOTH : Z := 0.
Definition HDLC_LL_RESET_TX_ONLY : Z := 1.
Definition HDLC_LL_RESET_RX_ONLY : Z := 2.

(** The values of the function pointers [rx.state] and [tx.state]. *)
Inductive rx_fn : Type := RX_READ_START | RX_READ_DATA | RX_READ_END.
Inductive tx_fn : Type := TX_SEND_START | TX_SEND_DATA | TX_SEND_CRC | TX_SEND_END.

#[export] Instance rx_fn_eq_dec : EqDecision rx_fn.
Proof. solve_decision. Defined.
#[export] Instance tx_fn_eq_dec : EqDecision tx_fn.
Proof. solve_decision. Defined.

(** [hdlc_ll_data_t]; the callbacks and [user_data] are the client below. *)
Record hdlc_ll_data_t : Type := mk_hdlc_ll {
  rx_buf : list Z;
  rx_buf_size : Z;
  crc_type : hdlc_crc_t;
  phys_mtu : Z;
  rx_state : rx_fn;
  rx_ptr : Z;
  rx_escape : Z;
  rx_active_frame_buf : Z;
  tx_state : tx_fn;
  tx_out_buffer : list Z;
  tx_out_buffer_len : Z;
  tx_origin_data : Z;
  tx_data : Z;
  tx_len : Z;
  tx_crc : Z;
  tx_escape : Z;
  rx_overrun : bool
}.

#[export] Instance eta_hdlc_ll : Eta hdlc_ll_data_t := fun h =>
  mk_hdlc_ll (rx_buf h) (rx_buf_size h) (crc_type h) (phys_mtu h) (rx_state h) (rx_ptr h)
    (rx_escape h) (rx_active_frame_buf h) (tx_state h) (tx_out_buffer h) (tx_out_buffer_len h)
    (tx_origin_data h) (tx_data h) (tx_len h) (tx_crc h) (tx_escape h) (rx_overrun h).

(** What the layer needs from the code above it: the memory the transmitted
    frames live in, and the two optional callbacks.  [on_frame_send] gets the
    address and length of the sent frame. *)
Record ll_client (U : Type) : Type := mk_ll_client {
  cl_mem : U -> Z -> Z;
  cl_on_frame_read : option (hdlc_ll_data_t * U -> list Z -> hdlc_ll_data_t * U);
  cl_on_frame_send : option (hdlc_ll_data_t * U -> Z -> Z -> hdlc_ll_data_t * U)
}.
Arguments cl_mem {U}.
Arguments cl_on_frame_read {U}.
Arguments cl_on_frame_send {U}.

(** [hdlc_ll_init_t]: [hi_buf_mem] is the memory at [hi_buf]. *)
Record hdlc_ll_init_t : Type := mk_hdlc_ll_init {
  hi_buf : Z;
  hi_buf_mem : list Z;
  hi_buf_size : Z;
  hi_crc_type : hdlc_crc_t;
  hi_mtu : Z
}.

(** ** Buffers *)

(** [len] bytes of [l] from offset [off]. *)
Definition slice (l : list Z) (off len : Z) : list Z :=
  take (Z.to_nat len) (drop (Z.to_nat off) l).

(** [l[off]] *)
Definition load (l : list Z) (off : Z) : Z := nth (Z.to_nat off) l 0.

(** The [len] bytes of memory from address [a]. *)
Fixpoint mem_range (mem : Z -> Z) (a : Z) (len : nat) : list Z :=
  match len with
  | O => []
  | S len => mem a :: mem_range mem (a + 1) len
  end.

(** [*handle->rx.ptr = byte] *)
Definition rx_store (h : hdlc_ll_data_t) (byte : Z) : hdlc_ll_data_t :=
  if (0 <=? rx_ptr h) && (rx_ptr h <? Z.of_nat (length (rx_buf h)))
  then h <| rx_buf ::= <[Z.to_nat (rx_ptr h) := byte]> |>
  else h <| rx_overrun := true |>.

(** ** Initialisation and reset *)

Definition hdlc_ll_reset (h : hdlc_ll_data_t) (flags : Z) : hdlc_ll_data_t :=
  let h := if negb (flags =? HDLC_LL_RESET_TX_ONLY) then h <| rx_state := RX_READ_START |> else h in
  if negb (flags =? HDLC_LL_RESET_RX_ONLY)
  then h <| tx_data := 0 |> <| tx_origin_data := 0 |> <| tx_escape := 0 |>
         <| tx_state := TX_SEND_START |>
  else h.

Section Init.

(** [TINY_ALIGN_STRUCT_VALUE = sizeof(uintptr_t)] and [sizeof(hdlc_ll_data_t)]
    are the compiler's. *)
Context (TINY_ALIGN_STRUCT_VALUE sizeof_hdlc_ll_data_t : Z).

(** Arithmetic on [uintptr_t]. *)
Definition uptr (z : Z) : Z := z mod 2 ^ (8 * TINY_ALIGN_STRUCT_VALUE).

(** [TINY_ALIGN_BUFFER] *)
Definition align_buffer (x : Z) : Z :=
  Z.land (uptr (x + TINY_ALIGN_STRUCT_VALUE - 1)) (uptr (Z.lnot (TINY_ALIGN_STRUCT_VALUE - 1))).

(** [HDLC_MIN_BUF_SIZE] and [HDLC_BUF_SIZE_EX] *)
Definition HDLC_MIN_BUF_SIZE (mtu : Z) (crc : hdlc_crc_t) : Z :=
  sizeof_hdlc_ll_data_t + Z.quot (crc_type_val crc) 8 + mtu + TINY_ALIGN_STRUCT_VALUE - 1.

Definition HDLC_BUF_SIZE_EX (mtu : Z) (crc : hdlc_crc_t) (window : Z) : Z :=
  sizeof_hdlc_ll_data_t + (Z.quot (crc_type_val crc) 8 + mtu) * window + TINY_ALIGN_STRUCT_VALUE - 1.

(** [raw] is what the memory of the handle holds before: fields the function
    does not assign keep their value.  The result is the error code and the
    handle, [None] when [*handle] is left [NULL] (or, for the first error,
    untouched). *)
Definition hdlc_ll_init (raw : hdlc_ll_data_t) (init : hdlc_ll_init_t)
  : Z * option hdlc_ll_data_t :=
  if hi_buf init =? 0 then (TINY_ERR_INVALID_DATA, None) else
  let aligned_buf := align_buffer (hi_buf init) in
  let offset := aligned_buf - hi_buf init in
  let buf_size := hi_buf_size init - offset in
  if buf_size <? sizeof_hdlc_ll_data_t then (TINY_ERR_OUT_OF_MEMORY, None) else
  let h := raw
    <| rx_buf := drop (Z.to_nat (offset + sizeof_hdlc_ll_data_t)) (hi_buf_mem init) |>
    <| rx_buf_size := buf_size - sizeof_hdlc_ll_data_t |>
    <| crc_type := if bool_decide (hi_crc_type init = HDLC_CRC_OFF)
                   then HDLC_CRC_DEFAULT else hi_crc_type init |> in
  let h := h
    <| phys_mtu := if nz (hi_mtu init) then hi_mtu init + get_crc_field_size (crc_type h)
                   else rx_buf_size h |>
    <| rx_active_frame_buf := 0 |> in
  (TINY_SUCCESS, Some (hdlc_ll_reset h HDLC_LL_RESET_BOTH)).

Definition hdlc_ll_get_buf_size (mtu : Z) : Z :=
  get_crc_field_size HDLC_CRC_32 + sizeof_hdlc_ll_data_t + mtu + TINY_ALIGN_STRUCT_VALUE - 1.

Definition hdlc_ll_get_buf_size_ex (mtu : Z) (crc_type : hdlc_crc_t) (rx_window : Z) : Z :=
  (get_crc_field_size crc_type + mtu) * rx_window
  + sizeof_hdlc_ll_data_t + TINY_ALIGN_STRUCT_VALUE - 1.

End Init.

(** ** Queueing a frame *)

Definition put_frame (h : hdlc_ll_data_t) (data len : Z) : Z * hdlc_ll_data_t :=
  if nz (tx_origin_data h) then (TINY_ERR_BUSY, h) else
  if (len =? 0) || (data =? 0) then (TINY_SUCCESS, h) else
  (TINY_SUCCESS, h <| tx_origin_data := data |> <| tx_data := data |> <| tx_len := len |>).

(** [None] is a [NULL] handle. *)
Definition hdlc_ll_put_frame (handle : option hdlc_ll_data_t) (data len : Z)
  : Z * option hdlc_ll_data_t :=
  match handle with
  | None => (TINY_ERR_INVALID_DATA, None)
  | Some h => let '(r, h) := put_frame h data len in (r, Some h)
  end.

Definition hdlc_ll_put (handle : option hdlc_ll_data_t) (data len : Z) :=
  hdlc_ll_put_frame handle data len.

(** ** Transmission *)

(** [hdlc_ll_send_tx_internal]: [while ( len-- && handle->tx.out_buffer_len )]
    over the [len] bytes [data]; the result is the number of bytes copied. *)
Fixpoint hdlc_ll_send_tx_internal (h : hdlc_ll_data_t) (data : list Z) : Z * hdlc_ll_data_t :=
  match data with
  | [] => (0, h)
  | b :: data =>
      if tx_out_buffer_len h =? 0 then (0, h) else
      let h := h <| tx_out_buffer ::= fun o => o ++ [b] |> <| tx_out_buffer_len ::= Z.pred |> in
      let '(sent, h) := hdlc_ll_send_tx_internal h data in
      (sent + 1, h)
  end.

(** The scan of [hdlc_ll_send_data]: [pos] advances over at most [n] bytes
    that need no escape.  (The C loop reads [data[len]] before it compares [pos]
    with [len]; that read does not change the result.) *)
Fixpoint plain_run (mem : Z -> Z) (data : Z) (n : nat) : Z :=
  match n with
  | O => 0
  | S n =>
      if (mem data =? FLAG_SEQUENCE) || (mem data =? TINY_ESCAPE_CHAR) then 0
      else plain_run mem (data + 1) n + 1
  end.

(** The frame check sequence of the [switch] in [hdlc_ll_send_start]; [crc] is
    the value [tx.crc] keeps when no case matches. *)
Definition send_fcs (t : hdlc_crc_t) (data : list Z) (crc : Z) : Z :=
  match t with
  | HDLC_CRC_16 => tiny_crc16 PPPINITFCS16 data
  | HDLC_CRC_32 => tiny_crc32 PPPINITFCS32 data
  | HDLC_CRC_8 => tiny_chksum INITCHECKSUM data
  | _ => crc
  end.

Section Link.

Context {U : Type} (cl : ll_client U).

Definition hdlc_ll_send_start (w : hdlc_ll_data_t * U) : Z * (hdlc_ll_data_t * U) :=
  let '(h, u) := w in
  if tx_origin_data h =? 0 then (0, w) else
  let data := mem_range (cl_mem cl u) (tx_data h) (Z.to_nat (tx_len h)) in
  let h := h <| tx_crc ::= send_fcs (crc_type h) data |> in
  let '(result, h) := hdlc_ll_send_tx_internal h [FLAG_SEQUENCE] in
  let h := if result =? 1 then h <| tx_state := TX_SEND_DATA |> <| tx_escape := 0 |> else h in
  (result, (h, u)).

Definition hdlc_ll_send_data (w : hdlc_ll_data_t * U) : Z * (hdlc_ll_data_t * U) :=
  let '(h, u) := w in
  let mem := cl_mem cl u in
  let pos := plain_run mem (tx_data h) (Z.to_nat (tx_len h)) in
  let '(result, h) :=
    if nz pos then
      let '(result, h) := hdlc_ll_send_tx_internal h (mem_range mem (tx_data h) (Z.to_nat pos)) in
      if 0 <? result
      then (result, h <| tx_data ::= Z.add result |> <| tx_len ::= fun l => l - result |>)
      else (result, h)
    else
      let byte := if nz (tx_escape h) then u8 (Z.lxor (mem (tx_data h)) TINY_ESCAPE_BIT)
                  else TINY_ESCAPE_CHAR in
      let '(result, h) := hdlc_ll_send_tx_internal h [byte] in
      if 0 <? result then
        let h := h <| tx_escape ::= fun e => if nz e then 0 else 1 |> in
        if negb (nz (tx_escape h))
        then (result, h <| tx_data ::= Z.succ |> <| tx_len ::= Z.pred |>)
        else (result, h)
      else (result, h) in
  let h := if tx_len h =? 0 then h <| tx_state := TX_SEND_CRC |> else h in
  (result, (h, u)).

Definition hdlc_ll_send_crc (w : hdlc_ll_data_t * U) : Z * (hdlc_ll_data_t * U) :=
  let '(h, u) := w in
  if tx_len h =? u8 (crc_type_val (crc_type h))
  then (1, (h <| tx_state := TX_SEND_END |>, u))
  else
    let byte := u8 (Z.shiftr (tx_crc h) (tx_len h)) in
    if negb (byte =? TINY_ESCAPE_CHAR) && negb (byte =? FLAG_SEQUENCE) then
      let '(result, h) := hdlc_ll_send_tx_internal h [byte] in
      let h := if result =? 1 then h <| tx_len ::= Z.add 8 |> else h in
      (result, (h, u))
    else
      let byte := if nz (tx_escape h) then u8 (Z.lxor byte TINY_ESCAPE_BIT) else TINY_ESCAPE_CHAR in
      let '(result, h) := hdlc_ll_send_tx_internal h [byte] in
      let h :=
        if result =? 1 then
          let h := h <| tx_escape ::= fun e => if nz e then 0 else 1 |> in
          if negb (nz (tx_escape h)) then h <| tx_len ::= Z.add 8 |> else h
        else h in
      (result, (h, u)).

(** [on_frame_send] as the layer calls it: nothing happens when it is not set. *)
Definition call_frame_send (w : hdlc_ll_data_t * U) (ptr len : Z) : hdlc_ll_data_t * U :=
  match cl_on_frame_send cl with
  | Some f => f w ptr len
  | None => w
  end.

Definition hdlc_ll_send_end (w : hdlc_ll_data_t * U) : Z * (hdlc_ll_data_t * U) :=
  let '(h, u) := w in
  let '(result, h) := hdlc_ll_send_tx_internal h [FLAG_SEQUENCE] in
  if result =? 1 then
    let h := h <| tx_state := TX_SEND_START |> <| tx_escape := 0 |> in
    let len := tx_data h - tx_origin_data h in
    let ptr := tx_origin_data h in
    let h := h <| tx_origin_data := 0 |> <| tx_data := 0 |> in
    (result, call_frame_send (h, u) ptr len)
  else (result, (h, u)).

Definition hdlc_ll_close (w : hdlc_ll_data_t * U) : Z * (hdlc_ll_data_t * U) :=
  let '(h, u) := w in
  if nz (tx_data h)
  then (TINY_SUCCESS,
        call_frame_send w (tx_origin_data h) (tx_data h - tx_origin_data h + tx_len h))
  else (TINY_SUCCESS, w).

(** [handle->tx.state(handle)] *)
Definition tx_step (w : hdlc_ll_data_t * U) : Z * (hdlc_ll_data_t * U) :=
  match tx_state (fst w) with
  | TX_SEND_START => hdlc_ll_send_start w
  | TX_SEND_DATA => hdlc_ll_send_data w
  | TX_SEND_CRC => hdlc_ll_send_crc w
  | TX_SEND_END => hdlc_ll_send_end w
  end.

(** The loop of [hdlc_ll_run_tx]; [None] means the fuel ran out. *)
Fixpoint run_tx_loop (fuel : nat) (repeated_empty_data : bool) (w : hdlc_ll_data_t * U)
  : option (hdlc_ll_data_t * U) :=
  match fuel with
  | O => None
  | S fuel =>
      if tx_out_buffer_len (fst w) =? 0 then Some w else
      let '(result, w) := tx_step w in
      if result <? 0 then Some w
      else if result =? 0 then
        if repeated_empty_data then Some w else run_tx_loop fuel true w
      else run_tx_loop fuel false w
  end.

Definition run_tx_fuel (len : Z) : nat := 4 * Z.to_nat len + 4.

(** [hdlc_ll_run_tx] with a buffer of [len] bytes.  The bytes written are
    [tx_out_buffer] of the resulting handle. *)
Definition hdlc_ll_run_tx (w : hdlc_ll_data_t * U) (len : Z) : Z * (hdlc_ll_data_t * U) :=
  let '(h, u) := w in
  let h := h <| tx_out_buffer := [] |> <| tx_out_buffer_len := len |> in
  match run_tx_loop (run_tx_fuel len) false (h, u) with
  | Some w => (len - tx_out_buffer_len (fst w), w)
  | None => (0, w)
  end.

(** ** Reception *)

Definition hdlc_ll_read_start (h : hdlc_ll_data_t) (data : list Z) : Z * hdlc_ll_data_t :=
  match data with
  | [] => (0, h)
  | b :: _ =>
      if negb (b =? FLAG_SEQUENCE) then (1, h)
      else (1, h <| rx_escape := 0 |> <| rx_ptr := rx_active_frame_buf h |>
                 <| rx_state := RX_READ_DATA |>)
  end.

(** The loop of [hdlc_ll_read_data]; the result counts the processed bytes. *)
Fixpoint hdlc_ll_read_data (h : hdlc_ll_data_t) (data : list Z) : Z * hdlc_ll_data_t :=
  match data with
  | [] => (0, h)
  | byte :: data =>
      if byte =? FLAG_SEQUENCE then (1, h <| rx_state := RX_READ_END |>) else
      let h :=
        if byte =? TINY_ESCAPE_CHAR then h <| rx_escape := 1 |>
        else if rx_ptr h - rx_active_frame_buf h <? phys_mtu h then
          let h := if nz (rx_escape h)
                   then (rx_store h (u8 (Z.lxor byte TINY_ESCAPE_BIT))) <| rx_escape := 0 |>
                   else rx_store h byte in
          h <| rx_ptr ::= Z.succ |>
        else h in
      let '(result, h) := hdlc_ll_read_data h data in
      (result + 1, h)
  end.

(** [calc_crc] and [read_crc] of [hdlc_ll_read_end] for a frame of [len] bytes
    at offset [a] of [buf]; [p] is the offset just after it. *)
Definition read_end_crcs (t : hdlc_crc_t) (buf : list Z) (a p len : Z) : Z * Z :=
  match t with
  | HDLC_CRC_8 =>
      (Z.land (tiny_chksum INITCHECKSUM (slice buf a (len - 1))) 0x00FF, load buf (p - 1))
  | HDLC_CRC_16 =>
      (tiny_crc16 PPPINITFCS16 (slice buf a (len - 2)),
       Z.lor (load buf (p - 2)) (Z.shiftl (load buf (p - 1)) 8))
  | HDLC_CRC_32 =>
      (tiny_crc32 PPPINITFCS32 (slice buf a (len - 4)),
       Z.lor (Z.lor (Z.lor (load buf (p - 4)) (Z.shiftl (load buf (p - 3)) 8))
                    (Z.shiftl (load buf (p - 2)) 16))
             (Z.shiftl (load buf (p - 1)) 24))
  | _ => (0, 0)
  end.

Definition call_frame_read (w : hdlc_ll_data_t * U) (data : list Z) : hdlc_ll_data_t * U :=
  match cl_on_frame_read cl with
  | Some f => f w data
  | None => w
  end.

Definition hdlc_ll_read_end (w : hdlc_ll_data_t * U) : Z * (hdlc_ll_data_t * U) :=
  let '(h, u) := w in
  if rx_ptr h =? rx_active_frame_buf h
  then (0, (h <| rx_escape := 0 |> <| rx_state := RX_READ_DATA |>, u))
  else
    let h := h <| rx_state := RX_READ_START |> in
    let len := rx_ptr h - rx_active_frame_buf h in
    let fcs_size := Z.quot (u8 (crc_type_val (crc_type h))) 8 in
    if phys_mtu h <? len then (TINY_ERR_DATA_TOO_LARGE, (h, u)) else
    if len <? fcs_size then (TINY_ERR_WRONG_CRC, (h, u)) else
    let '(calc_crc, read_crc) :=
      read_end_crcs (crc_type h) (rx_buf h) (rx_active_frame_buf h) (rx_ptr h) len in
    if negb (calc_crc =? read_crc) then (TINY_ERR_WRONG_CRC, (h, u)) else
    let len := len - fcs_size in
    let '(h, u) := call_frame_read (h, u) (slice (rx_buf h) (rx_active_frame_buf h) len) in
    let h := h <| rx_active_frame_buf ::= Z.add (phys_mtu h) |> in
    let h := if rx_buf_size h <? rx_active_frame_buf h + phys_mtu h
             then h <| rx_active_frame_buf := 0 |> else h in
    (TINY_SUCCESS, (h, u)).

(** [handle->rx.state(handle, data, len)] *)
Definition rx_step (w : hdlc_ll_data_t * U) (data : list Z) : Z * (hdlc_ll_data_t * U) :=
  match rx_state (fst w) with
  | RX_READ_START => let '(r, h) := hdlc_ll_read_start (fst w) data in (r, (h, snd w))
  | RX_READ_DATA => let '(r, h) := hdlc_ll_read_data (fst w) data in (r, (h, snd w))
  | RX_READ_END => hdlc_ll_read_end w
  end.

(** The loop of [hdlc_ll_run_rx]: the processed bytes, the error and the state;
    [None] means the fuel ran out. *)
Fixpoint run_rx_loop (fuel : nat) (result : Z) (w : hdlc_ll_data_t * U) (data : list Z)
  : option (Z * Z * (hdlc_ll_data_t * U)) :=
  match fuel with
  | O => None
  | S fuel =>
      if negb (bool_decide (data = [])) || bool_decide (rx_state (fst w) = RX_READ_END) then
        let '(temp_result, w) := rx_step w data in
        if temp_result <=? 0 then Some (result, temp_result, w)
        else run_rx_loop fuel (result + temp_result) w (drop (Z.to_nat temp_result) data)
      else Some (result, TINY_SUCCESS, w)
  end.

Definition run_rx_fuel (data : list Z) : nat := length data + 2.

(** [hdlc_ll_run_rx]: the number of processed bytes, [*error], and the state. *)
Definition hdlc_ll_run_rx (w : hdlc_ll_data_t * U) (data : list Z)
  : Z * Z * (hdlc_ll_data_t * U) :=
  match run_rx_loop (run_rx_fuel data) 0 w data with
  | Some r => r
  | None => (0, TINY_SUCCESS, w)
  end.

End Link.
