(* ===== verification/HdlcSpec.v ===== *)
(** * What the framing layer promises: the wire format and its receiver

    An abstract specification of src/proto/hdlc/low_level/hdlc.c that mentions
    no handle, buffer or state function: a frame on the wire is a flag, the
    byte-stuffed payload and frame check sequence, and a flag; a receiver is a
    machine that reads one byte at a time.  HdlcTx.v and HdlcRx.v show that the
    handle's operations implement it. *)

From S2P Require Import Prelude Crc HdlcLL.

(** ** Wire format *)

(** Number of FCS bytes on the wire (the handle's [crc_type / 8]). *)
Definition fcs_size (t : hdlc_crc_t) : nat :=
  match t with
  | HDLC_CRC_8 => 1
  | HDLC_CRC_16 => 2
  | HDLC_CRC_32 => 4
  | _ => 0
  end.

(** The FCS bytes of a payload, least significant first. *)
Definition fcs_field (t : hdlc_crc_t) (payload : list Z) : list Z :=
  le_bytes (fcs_size t) (send_fcs t payload 0).

(** A byte the transparency rule escapes. *)
Definition special (b : Z) : bool := (b =? FLAG_SEQUENCE) || (b =? TINY_ESCAPE_CHAR).

Definition stuff_byte (b : Z) : list Z :=
  if special b then [TINY_ESCAPE_CHAR; Z.lxor b TINY_ESCAPE_BIT] else [b].

Definition stuff (l : list Z) : list Z := flat_map stuff_byte l.

Definition frame_body (t : hdlc_crc_t) (payload : list Z) : list Z :=
  payload ++ fcs_field t payload.

Definition wire_frame (t : hdlc_crc_t) (payload : list Z) : list Z :=
  FLAG_SEQUENCE :: stuff (frame_body t payload) ++ [FLAG_SEQUENCE].

(** ** The receiver *)

(** What the user of the receiver sees. *)
Inductive rx_event : Type :=
| Delivered (payload : list Z)
| Rejected (error : Z).

(** Hunting for a flag, or collecting the unstuffed bytes of a frame. *)
Inductive receiver : Type :=
| Hunting
| Receiving (acc : list Z) (esc : bool).

(** The verdict on the unstuffed bytes between two flags. *)
Definition check_frame (t : hdlc_crc_t) (acc : list Z) : rx_event :=
  if (length acc <? fcs_size t)%nat then Rejected TINY_ERR_WRONG_CRC else
  let payload := take (length acc - fcs_size t) acc in
  if bool_decide (drop (length acc - fcs_size t) acc = fcs_field t payload)
  then Delivered payload else Rejected TINY_ERR_WRONG_CRC.

(** One received byte; bytes beyond [mtu] are dropped. *)
Definition receive_byte (t : hdlc_crc_t) (mtu : Z) (s : receiver) (b : Z)
  : receiver * list rx_event :=
  match s with
  | Hunting => if b =? FLAG_SEQUENCE then (Receiving [] false, []) else (Hunting, [])
  | Receiving acc esc =>
      if b =? FLAG_SEQUENCE then
        match acc with
        | [] => (Receiving [] false, [])
        | _ :: _ => (Hunting, [check_frame t acc])
        end
      else if b =? TINY_ESCAPE_CHAR then (Receiving acc true, [])
      else if Z.of_nat (length acc) <? mtu then
        (Receiving (acc ++ [if esc then Z.lxor b TINY_ESCAPE_BIT else b]) false, [])
      else (Receiving acc esc, [])
  end.

Fixpoint receive (t : hdlc_crc_t) (mtu : Z) (s : receiver) (l : list Z)
  : receiver * list rx_event :=
  match l with
  | [] => (s, [])
  | b :: l =>
      let '(s, e) := receive_byte t mtu s b in
      let '(s, e') := receive t mtu s l in
      (s, e ++ e')
  end.

(** The payloads among the events. *)
Definition delivered (es : list rx_event) : list (list Z) :=
  omap (fun e => match e with Delivered p => Some p | Rejected _ => None end) es.

(** ** Facts on the wire format *)

Lemma special_spec b : special b = true <-> b = FLAG_SEQUENCE \/ b = TINY_ESCAPE_CHAR.
Proof. unfold special. rewrite orb_true_iff, !Z.eqb_eq. done. Qed.

Lemma special_false b : special b = false <-> b <> FLAG_SEQUENCE /\ b <> TINY_ESCAPE_CHAR.
Proof. unfold special. rewrite orb_false_iff, !Z.eqb_neq. done. Qed.

Lemma stuff_app l k : stuff (l ++ k) = stuff l ++ stuff k.
Proof. apply flat_map_app. Qed.

Lemma stuff_cons b l : stuff (b :: l) = stuff_byte b ++ stuff l.
Proof. done. Qed.

(** No flag appears inside a stuffed body. *)
Lemma stuff_no_flag l : Forall (fun b => b <> FLAG_SEQUENCE) (stuff l).
Proof.
  induction l as [|b l IH]; [constructor|]. rewrite stuff_cons. apply Forall_app. split; [|done].
  unfold stuff_byte. destruct (special b) eqn:Hs.
  - apply special_spec in Hs as [-> | ->]; repeat constructor; by vm_compute.
  - apply special_false in Hs as [? ?]. by repeat constructor.
Qed.

Lemma fcs_field_length t p : length (fcs_field t p) = fcs_size t.
Proof. apply le_bytes_length. Qed.

Lemma fcs_field_bytes t p : bytes (fcs_field t p).
Proof. apply le_bytes_bytes. Qed.

Lemma frame_body_length t p : length (frame_body t p) = (length p + fcs_size t)%nat.
Proof. unfold frame_body. by rewrite length_app, fcs_field_length. Qed.

(** ** Facts on the receiver *)

Lemma receive_app t mtu s l k :
  receive t mtu s (l ++ k) =
  let '(s1, e1) := receive t mtu s l in
  let '(s2, e2) := receive t mtu s1 k in (s2, e1 ++ e2).
Proof.
  revert s. induction l as [|b l IH]; intros s; simpl.
  { by destruct (receive t mtu s k). }
  destruct (receive_byte t mtu s b) as [s1 e1]. rewrite IH.
  destruct (receive t mtu s1 l) as [s2 e2]. destruct (receive t mtu s2 k) as [s3 e3].
  by rewrite app_assoc.
Qed.

Lemma delivered_app e1 e2 : delivered (e1 ++ e2) = delivered e1 ++ delivered e2.
Proof. apply omap_app. Qed.

(** A stuffed body is read back byte for byte while it fits. *)
Lemma receive_stuff t mtu acc l :
  Z.of_nat (length acc + length l) <= mtu ->
  receive t mtu (Receiving acc false) (stuff l) = (Receiving (acc ++ l) false, []).
Proof.
  revert acc. induction l as [|b l IH]; intros acc Hlen.
  { by rewrite app_nil_r. }
  rewrite stuff_cons, receive_app. cbn [length] in Hlen.
  assert (Hroom : (Z.of_nat (length acc) <? mtu) = true) by lia.
  assert (Hb : receive t mtu (Receiving acc false) (stuff_byte b)
               = (Receiving (acc ++ [b]) false, [])).
  { unfold stuff_byte. destruct (special b) eqn:Hs.
    - apply special_spec in Hs as [-> | ->]; simpl; rewrite Hroom; done.
    - apply special_false in Hs as [H1 H2]. simpl.
      apply Z.eqb_neq in H1 as ->. apply Z.eqb_neq in H2 as ->. by rewrite Hroom. }
  rewrite Hb, IH.
  - by rewrite <- app_assoc.
  - rewrite length_app. simpl. lia.
Qed.

Lemma check_frame_body t p : check_frame t (frame_body t p) = Delivered p.
Proof.
  unfold check_frame. rewrite frame_body_length.
  destruct (Nat.ltb_spec (length p + fcs_size t) (fcs_size t)); [lia|].
  replace (length p + fcs_size t - fcs_size t)%nat with (length p) by lia.
  unfold frame_body. rewrite take_app_length, drop_app_length.
  by rewrite bool_decide_eq_true_2.
Qed.

Lemma receive_frame_from t mtu s p :
  p <> [] -> Z.of_nat (length p + fcs_size t) <= mtu ->
  s = Hunting \/ (exists esc, s = Receiving [] esc) ->
  receive t mtu s (wire_frame t p) = (Hunting, [Delivered p]).
Proof.
  intros Hp Hlen Hs. unfold wire_frame. cbn [receive].
  assert (receive_byte t mtu s FLAG_SEQUENCE = (Receiving [] false, [])) as ->.
  { by destruct Hs as [-> | [esc ->]]. }
  rewrite receive_app, receive_stuff; [|simpl; rewrite frame_body_length; lia].
  simpl. destruct (frame_body t p) as [|b l] eqn:Hb.
  - apply (f_equal length) in Hb. rewrite frame_body_length in Hb.
    destruct p; simpl in *; [done|lia].
  - by rewrite <- Hb, check_frame_body.
Qed.

(** ** A recording client

    The smallest client of the layer: its memory is a list of bytes at
    address 1, its callbacks record what they are given. *)

Record recorder : Type := mk_recorder {
  rec_mem : list Z;
  rec_read : list (list Z);
  rec_sent : list (Z * Z)
}.

#[export] Instance eta_recorder : Eta recorder := fun r =>
  mk_recorder (rec_mem r) (rec_read r) (rec_sent r).

Definition recording_client : ll_client recorder := {|
  cl_mem u a := load (rec_mem u) (a - 1);
  cl_on_frame_read := Some (fun w p => (fst w, (snd w) <| rec_read ::= fun l => l ++ [p] |>));
  cl_on_frame_send := Some (fun w p l => (fst w, (snd w) <| rec_sent ::= fun s => s ++ [(p, l)] |>))
|}.

(** A freshly initialised handle with [size] bytes of receive buffer. *)
Definition fresh_handle (t : hdlc_crc_t) (mtu size : Z) : hdlc_ll_data_t := {|
  rx_buf := replicate (Z.to_nat size) 0; rx_buf_size := size; crc_type := t; phys_mtu := mtu;
  rx_state := RX_READ_START; rx_ptr := 0; rx_escape := 0; rx_active_frame_buf := 0;
  tx_state := TX_SEND_START; tx_out_buffer := []; tx_out_buffer_len := 0; tx_origin_data := 0;
  tx_data := 0; tx_len := 0; tx_crc := 0; tx_escape := 0; rx_overrun := false
|}.

Definition sample_recorder : recorder := mk_recorder [1; 0x7E; 2; 0x7D] [] [].
