(* ===== verification/HdlcTx.v ===== *)
(** * The transmitter implements the wire format

    [tx_pending] abstracts a handle to the bytes it still has to send; each call
    of a transmit state function moves a prefix of them to the output buffer.
    From this: [hdlc_ll_run_tx] terminates, fills the buffer, and a queued frame
    leaves the handle as exactly [wire_frame], whatever buffer sizes the calls
    use. *)

From S2P Require Import Prelude Crc HdlcLL HdlcSpec.

(** ** Abstraction *)

(** The rest of a stuffed sequence whose escape byte is already out. *)
Definition after_escape (esc : Z) (l : list Z) : list Z := if nz esc then drop 1 l else l.

(** The bytes a handle still has to put on the wire. *)
Definition tx_pending (mem : Z -> Z) (h : hdlc_ll_data_t) : list Z :=
  match tx_state h with
  | TX_SEND_START =>
      if tx_origin_data h =? 0 then []
      else wire_frame (crc_type h) (mem_range mem (tx_data h) (Z.to_nat (tx_len h)))
  | TX_SEND_DATA =>
      after_escape (tx_escape h) (stuff (mem_range mem (tx_data h) (Z.to_nat (tx_len h))))
      ++ stuff (le_bytes (fcs_size (crc_type h)) (tx_crc h)) ++ [FLAG_SEQUENCE]
  | TX_SEND_CRC =>
      after_escape (tx_escape h)
        (stuff (le_bytes (fcs_size (crc_type h) - Z.to_nat (tx_len h / 8))
                         (Z.shiftr (tx_crc h) (tx_len h))))
      ++ [FLAG_SEQUENCE]
  | TX_SEND_END => [FLAG_SEQUENCE]
  end.

(** The states the transmitter can be in while it sends a frame of [total]
    bytes (idle handles satisfy it for every [total]). *)
Definition tx_inv (mem : Z -> Z) (total : Z) (h : hdlc_ll_data_t) : Prop :=
  crc_type h <> HDLC_CRC_OFF /\ (tx_escape h = 0 \/ tx_escape h = 1) /\
  match tx_state h with
  | TX_SEND_START =>
      tx_origin_data h = 0 \/
      (tx_origin_data h <> 0 /\ tx_data h = tx_origin_data h /\ tx_len h = total /\ 0 < total)
  | TX_SEND_DATA =>
      tx_origin_data h <> 0 /\ 0 < tx_len h <= total /\ tx_data h + tx_len h = tx_origin_data h + total /\
      (tx_escape h = 1 -> special (mem (tx_data h)) = true)
  | TX_SEND_CRC =>
      tx_origin_data h <> 0 /\ tx_data h = tx_origin_data h + total /\
      (exists k, tx_len h = 8 * k /\ 0 <= k <= Z.of_nat (fcs_size (crc_type h))) /\
      (tx_escape h = 1 -> tx_len h < 8 * Z.of_nat (fcs_size (crc_type h)) /\
                          special (u8 (Z.shiftr (tx_crc h) (tx_len h))) = true)
  | TX_SEND_END => tx_origin_data h <> 0 /\ tx_data h = tx_origin_data h + total
  end.

(** Nothing to send. *)
Definition tx_idle (h : hdlc_ll_data_t) : Prop :=
  tx_state h = TX_SEND_START /\ tx_origin_data h = 0.

#[export] Instance tx_idle_dec h : Decision (tx_idle h).
Proof. unfold tx_idle. apply _. Defined.

(** The measure of [run_tx_loop]. *)
Definition tx_measure (repeated : bool) (h : hdlc_ll_data_t) : nat :=
  4 * Z.to_nat (tx_out_buffer_len h)
  + (if bool_decide (tx_state h = TX_SEND_END) then 0 else 2)
  + (if repeated then 0 else 1).

(** ** Memory ranges and the scan *)

Lemma mem_range_length mem a n : length (mem_range mem a n) = n.
Proof. revert a. induction n; simpl; auto. Qed.

Lemma mem_range_app mem a m n :
  mem_range mem a (m + n) = mem_range mem a m ++ mem_range mem (a + Z.of_nat m) n.
Proof.
  revert a. induction m as [|m IH]; intros a; simpl.
  - f_equal. lia.
  - rewrite IH. do 3 f_equal. lia.
Qed.

Lemma mem_range_split mem a m n :
  (m <= n)%nat -> mem_range mem a n = mem_range mem a m ++ mem_range mem (a + Z.of_nat m) (n - m).
Proof. intros. rewrite <- mem_range_app. f_equal. lia. Qed.

Lemma mem_range_take mem a m n : (m <= n)%nat -> take m (mem_range mem a n) = mem_range mem a m.
Proof.
  intros. rewrite (mem_range_split mem a m n) by done.
  apply take_app_length'. by rewrite mem_range_length.
Qed.

Lemma mem_range_ext mem mem' a n :
  (forall x, a <= x < a + Z.of_nat n -> mem x = mem' x) -> mem_range mem a n = mem_range mem' a n.
Proof.
  revert a. induction n as [|n IH]; intros a Hx; [done|]. cbn. rewrite Hx, IH; [done| |lia].
  intros x Hr. apply Hx. lia.
Qed.

Lemma mem_range_nth mem a (l : list Z) :
  (forall i b, l !! i = Some b -> mem (a + Z.of_nat i) = b) -> mem_range mem a (length l) = l.
Proof.
  revert a. induction l as [|b l IH]; intros a Hl; [done|]. cbn [length mem_range]. f_equal.
  - by rewrite <- (Hl 0%nat b eq_refl), Z.add_0_r.
  - apply IH. intros i b' Hi. rewrite <- (Hl (S i) b' Hi). f_equal. lia.
Qed.

Lemma plain_run_bounds mem a n : 0 <= plain_run mem a n <= Z.of_nat n.
Proof.
  revert a. induction n as [|n IH]; intros a; cbn [plain_run]; [lia|].
  destruct (_ || _); [lia|]. specialize (IH (a + 1)). lia.
Qed.

Lemma stuff_plain_run mem a n m :
  Z.of_nat m <= plain_run mem a n -> stuff (mem_range mem a m) = mem_range mem a m.
Proof.
  revert a n. induction m as [|m IH]; intros a n Hm; [done|].
  destruct n as [|n]; cbn [plain_run] in Hm; [lia|].
  fold (special (mem a)) in Hm. destruct (special (mem a)) eqn:Hs; [lia|].
  cbn [mem_range]. rewrite stuff_cons. unfold stuff_byte. rewrite Hs.
  rewrite (IH (a + 1) n); [done|lia].
Qed.

Lemma plain_run_zero mem a n : (0 < n)%nat -> plain_run mem a n = 0 -> special (mem a) = true.
Proof.
  destruct n as [|n]; [lia|]. cbn [plain_run]. fold (special (mem a)).
  destruct (special (mem a)); [done|]. pose proof (plain_run_bounds mem (a + 1) n). lia.
Qed.

Lemma plain_run_special mem a n : special (mem a) = true -> plain_run mem a n = 0.
Proof. destruct n as [|n]; [done|]. cbn [plain_run]. fold (special (mem a)). by intros ->. Qed.

(** ** The copy routine *)

Lemma send_tx_internal_spec h data r h' :
  0 <= tx_out_buffer_len h -> hdlc_ll_send_tx_internal h data = (r, h') ->
  r = Z.min (Z.of_nat (length data)) (tx_out_buffer_len h) /\
  h' = h <| tx_out_buffer := tx_out_buffer h ++ take (Z.to_nat r) data |>
         <| tx_out_buffer_len := tx_out_buffer_len h - r |>.
Proof.
  revert h r h'. induction data as [|b data IH]; intros h r h' Hl; cbn [hdlc_ll_send_tx_internal length].
  { intros [= <- <-]. split; [lia|]. simpl. rewrite app_nil_r, Z.sub_0_r. by destruct h. }
  destruct (Z.eqb_spec (tx_out_buffer_len h) 0) as [E|E].
  { intros [= <- <-]. split; [lia|]. simpl. rewrite app_nil_r, Z.sub_0_r. by destruct h. }
  destruct (hdlc_ll_send_tx_internal _ data) as [s h1] eqn:Hs. intros [= <- <-].
  apply IH in Hs as [Hs ->]; [|simpl; lia]. cbn in Hs. split; [lia|].
  replace (Z.to_nat (s + 1)) with (S (Z.to_nat s)) by lia.
  cbn. unfold fupd. cbn. rewrite <- app_assoc. f_equal; lia.
Qed.

(** With room for at least one byte, a one-byte copy succeeds. *)
Lemma send_tx_internal_one h b :
  0 < tx_out_buffer_len h ->
  hdlc_ll_send_tx_internal h [b] =
  (1, h <| tx_out_buffer := tx_out_buffer h ++ [b] |>
        <| tx_out_buffer_len := tx_out_buffer_len h - 1 |>).
Proof.
  intros Hl. cbn [hdlc_ll_send_tx_internal].
  destruct (Z.eqb_spec (tx_out_buffer_len h) 0); [lia|]. cbn. by rewrite Z.sub_1_r.
Qed.

(** ** One call of a state function *)

(** [h'] is [h] with [chunk] appended to the output; the frame being sent and
    the configuration are the same. *)
Definition tx_emits (h h' : hdlc_ll_data_t) (chunk : list Z) : Prop :=
  tx_out_buffer h' = tx_out_buffer h ++ chunk /\
  tx_out_buffer_len h' = tx_out_buffer_len h - Z.of_nat (length chunk) /\
  0 <= tx_out_buffer_len h' /\
  crc_type h' = crc_type h /\ tx_origin_data h' = tx_origin_data h.

(** The contract of a state function in a state where it sends. *)
Definition tx_progress (mem : Z -> Z) (total : Z) (h : hdlc_ll_data_t) (r : Z) (h' : hdlc_ll_data_t)
  : Prop :=
  0 < r /\ tx_inv mem total h' /\ ~ tx_idle h' /\
  (tx_measure false h' < tx_measure true h)%nat /\
  exists chunk, tx_emits h h' chunk /\ tx_pending mem h = chunk ++ tx_pending mem h'.

Section Steps.

Context {U : Type} (cl : ll_client U) (u : U).
#[local] Abbreviation mem := (cl_mem cl u).

Lemma send_start_progress total h :
  tx_inv mem total h -> tx_state h = TX_SEND_START -> tx_origin_data h <> 0 ->
  0 < tx_out_buffer_len h ->
  exists r h', hdlc_ll_send_start cl (h, u) = (r, (h', u)) /\ tx_progress mem total h r h'.
Proof.
  intros (Hcrc & Hesc & Hst) Es Ho Hl. rewrite Es in Hst.
  destruct Hst as [?|(_ & Hd & Hlen & Htot)]; [done|].
  unfold hdlc_ll_send_start. apply Z.eqb_neq in Ho as Ho'. rewrite Ho'.
  rewrite send_tx_internal_one by (cbn; lia).
  cbn -[Z.sub]. do 2 eexists. split; [reflexivity|].
  unfold tx_progress, tx_inv, tx_idle, tx_measure, tx_emits, tx_pending. cbn -[Z.sub Nat.mul].
  rewrite Es. split_and!; try done; try lia.
  - rewrite bool_decide_eq_false_2 by done. rewrite bool_decide_eq_false_2 by done. lia.
  - exists [FLAG_SEQUENCE]. cbn -[Z.sub]. split; [split_and!; try done; lia|].
    rewrite Ho'. unfold wire_frame, frame_body, after_escape. cbn -[stuff].
    f_equal. rewrite stuff_app, <- app_assoc. do 3 f_equal.
    unfold fcs_field, send_fcs. by destruct (crc_type h).
Qed.

(** The end of [hdlc_ll_send_data]: the state moves on when no data is left. *)
Definition data_done (h : hdlc_ll_data_t) : hdlc_ll_data_t :=
  if tx_len h =? 0 then h <| tx_state := TX_SEND_CRC |> else h.

Lemma data_done_fields h :
  tx_out_buffer (data_done h) = tx_out_buffer h /\
  tx_out_buffer_len (data_done h) = tx_out_buffer_len h /\
  crc_type (data_done h) = crc_type h /\ tx_origin_data (data_done h) = tx_origin_data h.
Proof. unfold data_done. by destruct (tx_len h =? 0). Qed.

Lemma data_done_spec total h :
  crc_type h <> HDLC_CRC_OFF -> tx_state h = TX_SEND_DATA -> tx_origin_data h <> 0 ->
  0 <= tx_len h <= total -> tx_data h + tx_len h = tx_origin_data h + total ->
  tx_escape h = 0 \/ (tx_escape h = 1 /\ 0 < tx_len h /\ special (mem (tx_data h)) = true) ->
  tx_inv mem total (data_done h) /\ tx_state (data_done h) <> TX_SEND_START /\
  tx_pending mem (data_done h) =
    after_escape (tx_escape h) (stuff (mem_range mem (tx_data h) (Z.to_nat (tx_len h))))
    ++ stuff (le_bytes (fcs_size (crc_type h)) (tx_crc h)) ++ [FLAG_SEQUENCE].
Proof.
  intros Hc Hs Ho Hl Hsum He. unfold data_done.
  destruct (Z.eqb_spec (tx_len h) 0) as [E|E].
  - destruct He as [He|(_ & ? & _)]; [|lia].
    unfold tx_inv, tx_pending, after_escape. cbn. rewrite ?He, E. cbn.
    split_and!; try done; try lia; auto; [exists 0; lia|]. by rewrite Z.shiftr_0_r, Nat.sub_0_r.
  - unfold tx_inv, tx_pending. rewrite Hs. destruct He as [He|(He & _ & Hsp)];
      rewrite He; split_and!; auto; lia.
Qed.

(** What is left to prove of [tx_progress] once the new state is known. *)
Lemma progress_intro total h r h' chunk :
  0 < r -> tx_inv mem total h' -> tx_state h' <> TX_SEND_START -> tx_state h <> TX_SEND_END ->
  0 < tx_out_buffer_len h -> chunk <> [] ->
  tx_emits h h' chunk -> tx_pending mem h = chunk ++ tx_pending mem h' ->
  tx_progress mem total h r h'.
Proof.
  intros Hr Hi Hs Hs0 Hl Hne He Hp. unfold tx_progress. split_and!; try done.
  - by intros [? _].
  - destruct He as (_ & Hlen & Hlen0 & _). unfold tx_measure.
    rewrite (bool_decide_eq_false_2 (tx_state h = _)) by done.
    destruct chunk; [done|]. cbn [length] in Hlen.
    destruct (bool_decide (tx_state h' = TX_SEND_END)); lia.
  - by exists chunk.
Qed.

(** [hdlc_ll_send_data] before its last test. *)
Definition send_data_core (h : hdlc_ll_data_t) : Z * hdlc_ll_data_t :=
  let pos := plain_run mem (tx_data h) (Z.to_nat (tx_len h)) in
  if nz pos then
    let '(result, h) := hdlc_ll_send_tx_internal h (mem_range mem (tx_data h) (Z.to_nat pos)) in
    if 0 <? result
    then (result, h <| tx_data ::= Z.add result |> <| tx_len ::= fun l => l - result |>)
    else (result, h)
  else
    let byte := if nz (tx_escape h) then u8 (Z.lxor (mem (tx_data h)) TINY_ESCAPE_BIT)
                else TINY_ESCAPE_CHAR in
    let '(result, h) := hdlc_ll_send_tx_internal h [byte] in
    if 0 <? result then
      let h := h <| tx_escape ::= fun e => if nz e then 0 else 1 |> in
      if negb (nz (tx_escape h))
      then (result, h <| tx_data ::= Z.succ |> <| tx_len ::= Z.pred |>)
      else (result, h)
    else (result, h).

Lemma send_data_core_eq h :
  hdlc_ll_send_data cl (h, u) = let '(r, h') := send_data_core h in (r, (data_done h', u)).
Proof. reflexivity. Qed.

(** The stuffed form of the byte at the data pointer when it is special. *)
Lemma stuff_special b :
  special b = true -> stuff_byte b = [TINY_ESCAPE_CHAR; u8 (Z.lxor b TINY_ESCAPE_BIT)].
Proof. intros Hb. unfold stuff_byte. rewrite Hb. by apply special_spec in Hb as [-> | ->]. Qed.

(** What [send_data_core] does to the transmit fields, and what it emits. *)
Definition core_result (h h' : hdlc_ll_data_t) (chunk : list Z) : Prop :=
  tx_emits h h' chunk /\ tx_state h' = tx_state h /\ tx_crc h' = tx_crc h /\ chunk <> [] /\
  tx_data h' + tx_len h' = tx_data h + tx_len h /\ 0 <= tx_len h' <= tx_len h /\
  (tx_escape h' = 0 \/ (tx_escape h' = 1 /\ 0 < tx_len h' /\ special (mem (tx_data h')) = true)) /\
  after_escape (tx_escape h) (stuff (mem_range mem (tx_data h) (Z.to_nat (tx_len h)))) =
    chunk ++ after_escape (tx_escape h')
               (stuff (mem_range mem (tx_data h') (Z.to_nat (tx_len h')))).

Lemma send_data_core_escaped h :
  0 < tx_len h -> 0 < tx_out_buffer_len h -> tx_escape h = 0 \/ tx_escape h = 1 ->
  special (mem (tx_data h)) = true ->
  exists r h' chunk, send_data_core h = (r, h') /\ 0 < r /\ core_result h h' chunk.
Proof.
  intros Hlen Hl Hesc Hb. unfold send_data_core. rewrite plain_run_special by done.
  assert (Hrange : mem_range mem (tx_data h) (Z.to_nat (tx_len h))
                   = mem (tx_data h) :: mem_range mem (tx_data h + 1) (Z.to_nat (tx_len h - 1))).
  { by replace (Z.to_nat (tx_len h)) with (S (Z.to_nat (tx_len h - 1))) by lia. }
  rewrite send_tx_internal_one by done. cbn -[Z.sub Z.add Z.succ Z.pred].
  destruct Hesc as [He|He]; rewrite He; cbn -[Z.sub Z.add Z.succ Z.pred]; do 3 eexists;
    (split; [reflexivity|]); unfold core_result, tx_emits, after_escape; rewrite He;
    cbn -[Z.sub Z.add Z.succ Z.pred Z.of_nat]; rewrite ?He.
  - rewrite Hrange, stuff_cons, stuff_special by done.
    split_and!; try done; try lia. by right.
  - rewrite Hrange, stuff_cons, stuff_special by done.
    split_and!; try done; try lia. by left.
Qed.

Lemma send_data_core_plain h :
  0 < tx_out_buffer_len h -> tx_escape h = 0 ->
  plain_run mem (tx_data h) (Z.to_nat (tx_len h)) <> 0 ->
  exists r h' chunk, send_data_core h = (r, h') /\ 0 < r /\ core_result h h' chunk.
Proof.
  intros Hl He Hne. unfold send_data_core.
  pose proof (plain_run_bounds mem (tx_data h) (Z.to_nat (tx_len h))) as Hpos.
  pose proof (stuff_plain_run mem (tx_data h) (Z.to_nat (tx_len h))) as Hplain.
  set (pos := plain_run mem (tx_data h) (Z.to_nat (tx_len h))) in *.
  assert (nz pos = true) as -> by (unfold nz; lia).
  destruct (hdlc_ll_send_tx_internal h _) as [r h1] eqn:E.
  apply send_tx_internal_spec in E as [Hr ->]; [|lia].
  rewrite mem_range_length in Hr.
  assert ((0 <? r) = true) as -> by lia.
  rewrite mem_range_take by lia.
  do 3 eexists. split; [reflexivity|]. split; [lia|].
  unfold core_result, tx_emits, after_escape. cbn -[Z.sub Z.add Z.of_nat]. rewrite He.
  rewrite mem_range_length. split_and!; try done; try lia.
  - destruct (Z.to_nat r) eqn:?; [lia|done].
  - cbn. rewrite (mem_range_split mem (tx_data h) (Z.to_nat r)) by lia.
    rewrite stuff_app, Hplain by lia.
    replace (r + tx_data h) with (tx_data h + Z.of_nat (Z.to_nat r)) by lia.
    replace (Z.to_nat (tx_len h - r)) with (Z.to_nat (tx_len h) - Z.to_nat r)%nat by lia. done.
Qed.

Lemma send_data_progress total h :
  tx_inv mem total h -> tx_state h = TX_SEND_DATA -> 0 < tx_out_buffer_len h ->
  exists r h', hdlc_ll_send_data cl (h, u) = (r, (h', u)) /\ tx_progress mem total h r h'.
Proof.
  intros (Hcrc & Hesc & Hst) Es Hl. rewrite Es in Hst.
  destruct Hst as (Ho & Hlen & Hsum & Hsp).
  assert (exists r h' chunk, send_data_core h = (r, h') /\ 0 < r /\ core_result h h' chunk)
    as (r & h' & chunk & Hcore & Hr & (Hem & Hs' & Hc' & Hne & Hsum' & Hl' & Hesc' & Hp)).
  { destruct (special (mem (tx_data h))) eqn:Hb.
    - apply send_data_core_escaped; [lia|done..].
    - apply send_data_core_plain; [done| |].
      + destruct Hesc as [?|He]; [done|]. by apply Hsp in He.
      + intros E. apply plain_run_zero in E; [congruence|lia]. }
  rewrite send_data_core_eq, Hcore. do 2 eexists. split; [reflexivity|].
  pose proof Hem as (Hb1 & Hb2 & Hb3 & Hb4 & Hb5).
  destruct (data_done_spec total h') as (Hi & Hst' & Hpend); [congruence|congruence|congruence|
    lia|lia|done|].
  destruct (data_done_fields h') as (F1 & F2 & F3 & F4).
  apply (progress_intro _ _ _ _ chunk); try done; [congruence| |].
  - unfold tx_emits. by rewrite F1, F2, F3, F4.
  - rewrite Hpend, app_assoc, <- Hp, Hc', Hb4. unfold tx_pending. by rewrite Es.
Qed.

Lemma crc_type_bits t : t <> HDLC_CRC_OFF -> u8 (crc_type_val t) = 8 * Z.of_nat (fcs_size t).
Proof. by destruct t. Qed.

(** The FCS bytes from bit [8 * k] on. *)
Lemma fcs_rest_cons crc size k :
  0 <= k < Z.of_nat size ->
  le_bytes (size - Z.to_nat (8 * k / 8)) (Z.shiftr crc (8 * k)) =
  u8 (Z.shiftr crc (8 * k)) ::
  le_bytes (size - Z.to_nat ((8 + 8 * k) / 8)) (Z.shiftr crc (8 + 8 * k)).
Proof.
  intros Hk. rewrite (Z.mul_comm 8 k), Z.div_mul by lia.
  replace ((8 + k * 8) / 8) with (k + 1) by (apply Z.div_unique with 0; lia).
  replace (size - Z.to_nat k)%nat with (S (size - Z.to_nat (k + 1)))%nat by lia.
  cbn [le_bytes]. rewrite Z.shiftr_shiftr by lia. do 2 f_equal. f_equal. lia.
Qed.

Lemma send_crc_progress total h :
  tx_inv mem total h -> tx_state h = TX_SEND_CRC -> 0 < tx_out_buffer_len h ->
  exists r h', hdlc_ll_send_crc (h, u) = (r, (h', u)) /\ tx_progress mem total h r h'.
Proof.
  intros (Hcrc & Hesc & Hst) Es Hl. rewrite Es in Hst.
  destruct Hst as (Ho & Hd & (k & Hk & Hk0) & Hsp).
  unfold hdlc_ll_send_crc. rewrite crc_type_bits by done.
  destruct (Z.eqb_spec (tx_len h) (8 * Z.of_nat (fcs_size (crc_type h)))) as [E|E].
  { (* all FCS bytes are out *)
    assert (He : tx_escape h = 0) by (destruct Hesc as [?|He]; [done|apply Hsp in He; lia]).
    do 2 eexists. split; [reflexivity|]. unfold tx_progress, tx_inv, tx_idle, tx_measure.
    cbn. rewrite Es. split_and!; try done; try lia; auto.
    - rewrite bool_decide_eq_true_2, bool_decide_eq_false_2 by done. lia.
    - exists []. unfold tx_emits, tx_pending. cbn. rewrite Es, He, E.
      rewrite Z.mul_comm, Z.div_mul, Nat2Z.id, Nat.sub_diag by lia.
      rewrite app_nil_r. split_and!; try done; lia. }
  assert (Hk1 : k < Z.of_nat (fcs_size (crc_type h))) by lia.
  pose proof (fcs_rest_cons (tx_crc h) (fcs_size (crc_type h)) k ltac:(lia)) as Hrest.
  rewrite <- Hk in Hrest. set (byte := u8 (Z.shiftr (tx_crc h) (tx_len h))) in *.
  rewrite <- negb_orb. rewrite orb_comm. fold (special byte).
  destruct (special byte) eqn:Hb; cbn [negb].
  - rewrite send_tx_internal_one by done. cbn -[Z.sub Z.add Z.succ Z.pred].
    destruct Hesc as [He|He]; rewrite He; cbn -[Z.sub Z.add Z.succ Z.pred];
      do 2 eexists; (split; [reflexivity|]);
      (eapply (progress_intro _ _ _ _ [_]); cbn; rewrite ?Es; try done);
      unfold tx_inv, tx_emits, tx_pending, after_escape;
      cbn -[Z.sub Z.add Z.of_nat Z.div Z.shiftr Nat.sub]; rewrite ?Es, ?He.
    + split_and!; try done; auto; [exists k; lia|]. intros _. split; [lia|done].
    + split_and!; try done; lia.
    + rewrite Hrest, stuff_cons, stuff_special by done. done.
    + split_and!; try done; auto. exists (k + 1). lia.
    + split_and!; try done; lia.
    + rewrite Hrest, stuff_cons, stuff_special by done. done.
  - assert (He : tx_escape h = 0).
    { destruct Hesc as [?|He]; [done|]. apply Hsp in He as [_ ?]. congruence. }
    rewrite send_tx_internal_one by done. cbn -[Z.sub Z.add Z.succ Z.pred].
    do 2 eexists. split; [reflexivity|].
    eapply (progress_intro _ _ _ _ [_]); cbn; rewrite ?Es; try done;
      unfold tx_inv, tx_emits, tx_pending, after_escape;
      cbn -[Z.sub Z.add Z.of_nat Z.div Z.shiftr Nat.sub]; rewrite ?Es, ?He.
    + split_and!; try done; auto. exists (k + 1). lia.
    + split_and!; try done; lia.
    + rewrite Hrest, stuff_cons. unfold stuff_byte. rewrite Hb. done.
Qed.

(** The last byte: the frame is handed to the callback and the handle is idle. *)
Definition tx_finished (h : hdlc_ll_data_t) : hdlc_ll_data_t :=
  h <| tx_out_buffer := tx_out_buffer h ++ [FLAG_SEQUENCE] |>
    <| tx_out_buffer_len := tx_out_buffer_len h - 1 |>
    <| tx_state := TX_SEND_START |> <| tx_escape := 0 |>
    <| tx_origin_data := 0 |> <| tx_data := 0 |>.

Lemma send_end_finish total h :
  tx_inv mem total h -> tx_state h = TX_SEND_END -> 0 < tx_out_buffer_len h ->
  hdlc_ll_send_end cl (h, u) = (1, call_frame_send cl (tx_finished h, u) (tx_origin_data h) total).
Proof.
  intros (Hcrc & Hesc & Hst) Es Hl. rewrite Es in Hst. destruct Hst as [Ho Hd].
  unfold hdlc_ll_send_end. rewrite send_tx_internal_one by done. cbn -[Z.sub].
  do 2 f_equal. lia.
Qed.

(** Any sending state but the last one makes progress. *)
Lemma tx_step_progress total h :
  tx_inv mem total h -> ~ tx_idle h -> tx_state h <> TX_SEND_END -> 0 < tx_out_buffer_len h ->
  exists r h', tx_step cl (h, u) = (r, (h', u)) /\ tx_progress mem total h r h'.
Proof.
  intros Hi Hn He Hl. unfold tx_step. cbn [fst].
  destruct (tx_state h) eqn:Es; [|by apply send_data_progress|by apply send_crc_progress|done].
  apply send_start_progress; try done. intros Ho. by apply Hn.
Qed.

End Steps.

Arguments tx_measure : simpl never.

(** ** Interfaces of the client

    [SendKeepsRoom]: the callback does not touch the output window of the call
    in progress (it does not call [hdlc_ll_run_tx] itself).  [SendPassive]: the
    callback only changes the client's own state, to [on_sent]. *)

Class SendKeepsRoom {U} (cl : ll_client U) : Prop :=
  send_keeps_room : forall w p l,
    tx_out_buffer_len (fst (call_frame_send cl w p l)) = tx_out_buffer_len (fst w).

Class SendPassive {U} (cl : ll_client U) (on_sent : hdlc_ll_data_t * U -> Z -> Z -> U) : Prop :=
  send_passive : forall w p l, call_frame_send cl w p l = (fst w, on_sent w p l).

#[export] Instance send_passive_keeps_room {U} (cl : ll_client U) on_sent :
  SendPassive cl on_sent -> SendKeepsRoom cl.
Proof. intros Hp w p l. by rewrite Hp. Qed.

(** Several calls of [hdlc_ll_run_tx], one per buffer size; the bytes written
    to the buffers, in order. *)
Fixpoint run_tx_calls {U} (cl : ll_client U) (w : hdlc_ll_data_t * U) (lens : list Z)
  : list Z * (hdlc_ll_data_t * U) :=
  match lens with
  | [] => ([], w)
  | len :: lens =>
      let '(_, w) := hdlc_ll_run_tx cl w len in
      let out := tx_out_buffer (fst w) in
      let '(out', w) := run_tx_calls cl w lens in
      (out ++ out', w)
  end.

Section Run.

Context {U : Type} (cl : ll_client U).

(** ** Termination *)

(** With room left, every state function either is idle or decreases the
    measure, in any state at all. *)
Lemma tx_step_measure `{!SendKeepsRoom cl} w r w' :
  0 < tx_out_buffer_len (fst w) -> tx_step cl w = (r, w') ->
  (r = 0 /\ w' = w) \/
  (0 < r /\ 0 <= tx_out_buffer_len (fst w') /\
   (tx_measure false (fst w') < tx_measure true (fst w))%nat).
Proof.
  destruct w as [h u]. intros Hl. cbn [fst] in *. unfold tx_step. cbn [fst].
  assert (Hdec : forall h' : hdlc_ll_data_t, tx_state h <> TX_SEND_END ->
    0 <= tx_out_buffer_len h' < tx_out_buffer_len h ->
    (tx_measure false h' < tx_measure true h)%nat).
  { intros h' He Hlt. unfold tx_measure. rewrite (bool_decide_eq_false_2 (tx_state h = _)) by done.
    destruct (bool_decide (tx_state h' = TX_SEND_END)); lia. }
  destruct (tx_state h) eqn:Es.
  - unfold hdlc_ll_send_start. destruct (tx_origin_data h =? 0).
    { intros [= <- <-]. by left. }
    rewrite send_tx_internal_one by done. cbn -[Z.sub]. intros [= <- <-]. right.
    split; [lia|]. cbn -[Z.sub]. split; [lia|]. apply Hdec; [done|]. cbn. lia.
  - rewrite send_data_core_eq. destruct (send_data_core cl u h) as [r1 h1] eqn:E.
    intros [= <- <-]. right. cbn [fst].
    destruct (data_done_fields h1) as (_ & F & _).
    enough (0 < r1 /\ 0 <= tx_out_buffer_len h1 < tx_out_buffer_len h) as (? & ? & ?).
    { rewrite F. split_and!; [done..|]. apply Hdec; [done|]. by rewrite F. }
    revert E. unfold send_data_core.
    pose proof (plain_run_bounds (cl_mem cl u) (tx_data h) (Z.to_nat (tx_len h))) as Hpos.
    set (pos := plain_run _ _ _) in *. unfold nz at 1.
    destruct (Z.eqb_spec pos 0); cbn [negb].
    + rewrite send_tx_internal_one by done. cbn -[Z.sub Z.succ Z.pred].
      destruct (negb _); intros [= <- <-]; cbn; lia.
    + destruct (hdlc_ll_send_tx_internal h _) as [s h2] eqn:Es2.
      apply send_tx_internal_spec in Es2 as [Hs ->]; [|lia]. rewrite mem_range_length in Hs.
      destruct (Z.ltb_spec 0 s); intros [= <- <-]; cbn; lia.
  - unfold hdlc_ll_send_crc. destruct (tx_len h =? _).
    { intros [= <- <-]. right. cbn. split_and!; [lia..|].
      unfold tx_measure. cbn. rewrite Es. rewrite bool_decide_eq_true_2, bool_decide_eq_false_2 by done.
      lia. }
    destruct (_ && _); rewrite send_tx_internal_one by done; cbn -[Z.sub Z.succ Z.pred Z.add].
    + intros [= <- <-]. right. cbn. split_and!; [lia..|]. apply Hdec; [done|]. cbn. lia.
    + intros [= <- <-]. right. cbn -[Z.sub Z.succ Z.pred Z.add].
      destruct (negb _); cbn; (split_and!; [lia..|]; apply Hdec; [done|]; cbn; lia).
  - unfold hdlc_ll_send_end. rewrite send_tx_internal_one by done. cbn -[Z.sub].
    intros [= <- <-]. right. rewrite send_keeps_room. cbn -[Z.sub]. split_and!; [lia..|].
    unfold tx_measure. rewrite send_keeps_room. cbn -[Z.sub Nat.mul]. rewrite Es.
    rewrite (bool_decide_eq_true_2 (TX_SEND_END = _)) by done.
    destruct (bool_decide _); lia.
Qed.

Lemma run_tx_loop_total `{!SendKeepsRoom cl} fuel repeated w :
  0 <= tx_out_buffer_len (fst w) -> (tx_measure repeated (fst w) < fuel)%nat ->
  is_Some (run_tx_loop cl fuel repeated w).
Proof.
  revert repeated w. induction fuel as [|fuel IH]; intros repeated w Hl Hm; [lia|].
  cbn [run_tx_loop]. destruct (Z.eqb_spec (tx_out_buffer_len (fst w)) 0); [eauto|].
  destruct (tx_step cl w) as [r w'] eqn:Es.
  apply tx_step_measure in Es as [[-> ->]|(Hr & Hl' & Hm')]; [|..|lia].
  - cbn. destruct repeated; [eauto|]. apply IH; [done|].
    revert Hm. unfold tx_measure. lia.
  - destruct (Z.ltb_spec r 0); [lia|]. destruct (Z.eqb_spec r 0); [lia|].
    apply IH; [done|]. destruct repeated; [lia|].
    revert Hm Hm'. unfold tx_measure. lia.
Qed.

End Run.

(** ** What a run sends *)

Lemma tx_pending_idle mem h : tx_idle h -> tx_pending mem h = [].
Proof. intros [Hs Ho]. unfold tx_pending. rewrite Hs, Ho. done. Qed.

Lemma tx_pending_busy mem h : ~ tx_idle h -> tx_pending mem h <> [].
Proof.
  intros Hn Hp. unfold tx_pending, tx_idle in *.
  destruct (tx_state h); [|by rewrite app_assoc in Hp; destruct (app_cons_not_nil _ _ _ (eq_sym Hp))
                          |by destruct (app_cons_not_nil _ _ _ (eq_sym Hp))|done].
  destruct (Z.eqb_spec (tx_origin_data h) 0); [|done]. by apply Hn.
Qed.

(** The result of running a handle with [n] bytes of room: it stays idle, or
    sends everything and reports the frame, or sends a prefix. *)
Definition tx_outcome {U} (mem : Z -> Z) (on_sent : hdlc_ll_data_t * U -> Z -> Z -> U)
  (total : Z) (h : hdlc_ll_data_t) (u : U) (n : Z) (h' : hdlc_ll_data_t) (u' : U) : Prop :=
  let pending := tx_pending mem h in
  crc_type h' = crc_type h /\
  tx_out_buffer h' = tx_out_buffer h ++ take (Z.to_nat n) pending /\
  tx_out_buffer_len h' = n - Z.min n (Z.of_nat (length pending)) /\
  ((tx_idle h /\ h' = h /\ u' = u) \/
   (~ tx_idle h /\ Z.of_nat (length pending) <= n /\ tx_idle h' /\ tx_escape h' = 0 /\
    exists hs, u' = on_sent (hs, u) (tx_origin_data h) total) \/
   (~ tx_idle h /\ n < Z.of_nat (length pending) /\ ~ tx_idle h' /\ u' = u /\
    tx_inv mem total h' /\ tx_pending mem h' = drop (Z.to_nat n) pending /\
    tx_origin_data h' = tx_origin_data h)).

Section Refinement.

Context {U : Type} (cl : ll_client U) (on_sent : hdlc_ll_data_t * U -> Z -> Z -> U).
Context `{!SendPassive cl on_sent}.

Lemma run_tx_loop_idle fuel repeated h u :
  tx_idle h -> 0 <= tx_out_buffer_len h -> (tx_measure repeated h < fuel)%nat ->
  run_tx_loop cl fuel repeated (h, u) = Some (h, u).
Proof using Type.
  intros [Hs Ho] Hl. revert repeated.
  assert (Hstep : tx_step cl (h, u) = (0, (h, u))).
  { unfold tx_step. cbn. rewrite Hs. unfold hdlc_ll_send_start. by rewrite Ho. }
  induction fuel as [|fuel IH]; intros repeated Hm; [lia|].
  cbn [run_tx_loop fst]. destruct (tx_out_buffer_len h =? 0); [done|].
  rewrite Hstep. cbn. destruct repeated; [done|]. apply IH.
  revert Hm. unfold tx_measure. lia.
Qed.

(** Composing a step that emits [chunk] with the outcome of the rest. *)
Lemma tx_outcome_step mem total h h1 u n chunk h' u' :
  ~ tx_idle h -> ~ tx_idle h1 -> tx_emits h h1 chunk -> tx_out_buffer_len h = n ->
  tx_pending mem h = chunk ++ tx_pending mem h1 ->
  tx_outcome mem on_sent total h1 u (n - Z.of_nat (length chunk)) h' u' ->
  tx_outcome mem on_sent total h u n h' u'.
Proof using Type.
  intros Hi Hi1 (E1 & E2 & E3 & E4 & E5) Hn Hp (O1 & O2 & O3 & O4).
  unfold tx_outcome. rewrite Hp, length_app.
  split_and!; [congruence| |lia|].
  - rewrite O2, E1, <- app_assoc, take_app. f_equal.
    rewrite (take_ge chunk) by lia. do 2 f_equal. lia.
  - right. destruct O4 as [[? _]|[O4|O4]]; [done|left|right].
    + destruct O4 as (_ & ? & ? & ? & hs & ->). split_and!; try done; [lia|].
      exists hs. by rewrite E5.
    + destruct O4 as (_ & ? & ? & ? & ? & Hp' & ?). split_and!; try done; [lia| |congruence].
      rewrite Hp', drop_app, (drop_ge chunk) by lia. simpl. f_equal. lia.
Qed.

Lemma tx_outcome_none mem total h u :
  tx_inv mem total h -> tx_out_buffer_len h = 0 -> ~ tx_idle h ->
  tx_outcome mem on_sent total h u 0 h u.
Proof using Type.
  intros Hi Hl Hn. pose proof (tx_pending_busy mem h Hn) as Hne.
  assert (0 < length (tx_pending mem h))%nat by (destruct (tx_pending mem h); simpl; [done|lia]).
  unfold tx_outcome. rewrite take_0, app_nil_r. split_and!; try done; [lia|].
  right. right. split_and!; try done. lia.
Qed.

Lemma run_tx_loop_outcome fuel repeated total h u :
  tx_inv (cl_mem cl u) total h -> 0 <= tx_out_buffer_len h ->
  (tx_measure repeated h < fuel)%nat ->
  exists h' u', run_tx_loop cl fuel repeated (h, u) = Some (h', u') /\
    tx_outcome (cl_mem cl u) on_sent total h u (tx_out_buffer_len h) h' u'.
Proof using SendPassive0.
  revert repeated h. induction fuel as [|fuel IH]; intros repeated h Hi Hl Hm; [lia|].
  destruct (decide (tx_idle h)) as [Hidle|Hidle]; [|].
  { exists h, u. split; [by apply run_tx_loop_idle|].
    unfold tx_outcome. rewrite tx_pending_idle, take_nil, app_nil_r by done. simpl.
    split_and!; try done; [lia|]. by left. }
  cbn [run_tx_loop fst]. destruct (Z.eqb_spec (tx_out_buffer_len h) 0) as [E|E].
  { exists h, u. split; [done|]. rewrite E. by apply tx_outcome_none. }
  destruct (decide (tx_state h = TX_SEND_END)) as [He|He].
  - assert (Hstep : tx_step cl (h, u) =
              (1, (tx_finished h, on_sent (tx_finished h, u) (tx_origin_data h) total))).
    { unfold tx_step. cbn [fst]. rewrite He. rewrite (send_end_finish cl u total) by (done || lia).
      by rewrite send_passive. }
    rewrite Hstep. cbn [Z.ltb Z.eqb Z.compare].
    rewrite run_tx_loop_idle; [..|by split| |].
    + do 2 eexists. split; [reflexivity|]. unfold tx_outcome, tx_pending. rewrite He.
      cbn -[Z.min Z.sub]. split_and!; try done; [| lia |].
      * by rewrite (take_ge [_]) by (simpl; lia).
      * right. left. split_and!; try done; [lia|]. eauto.
    + cbn. lia.
    + revert Hm. unfold tx_measure. cbn -[Nat.mul]. rewrite He.
      rewrite (bool_decide_eq_true_2 (TX_SEND_END = _)) by done.
      rewrite (bool_decide_eq_false_2 (TX_SEND_START = _)) by done. lia.
  - destruct (tx_step_progress cl u total h) as (r & h1 & Hstep & Hr & Hi1 & Hn1 & Hm1 & Hch);
      [done..|lia|].
    destruct Hch as (chunk & Hem & Hp). rewrite Hstep.
    destruct (Z.ltb_spec r 0); [lia|]. destruct (Z.eqb_spec r 0); [lia|].
    destruct (IH false h1) as (h' & u' & Hrun & Hout); [done|by apply Hem| |].
    { revert Hm. unfold tx_measure in *. destruct repeated; lia. }
    exists h', u'. split; [done|]. eapply tx_outcome_step; [done..|].
    destruct Hem as (_ & <- & _). done.
Qed.

End Refinement.

Section Calls.

Context {U : Type} (cl : ll_client U) (on_sent : hdlc_ll_data_t * U -> Z -> Z -> U).
Context `{!SendPassive cl on_sent}.

(** [h] with the output window of a call that passes a buffer of [len] bytes. *)
Definition with_window (h : hdlc_ll_data_t) (len : Z) : hdlc_ll_data_t :=
  h <| tx_out_buffer := [] |> <| tx_out_buffer_len := len |>.

Lemma tx_measure_window h len : 0 <= len -> (tx_measure false (with_window h len) < run_tx_fuel len)%nat.
Proof using Type.
  intros Hl. unfold tx_measure, run_tx_fuel, with_window. cbn -[Nat.mul].
  destruct (bool_decide _); lia.
Qed.

Lemma run_tx_outcome total h u len :
  tx_inv (cl_mem cl u) total h -> 0 <= len ->
  exists h' u',
    hdlc_ll_run_tx cl (h, u) len = (Z.min len (Z.of_nat (length (tx_pending (cl_mem cl u) h))), (h', u'))
    /\ tx_outcome (cl_mem cl u) on_sent total (with_window h len) u len h' u'.
Proof using SendPassive0.
  intros Hi Hl. unfold hdlc_ll_run_tx. fold (with_window h len).
  destruct (run_tx_loop_outcome cl on_sent (run_tx_fuel len) false total (with_window h len) u)
    as (h' & u' & Hrun & Hout); [done..|by apply tx_measure_window|].
  exists h', u'. rewrite Hrun. split; [|done]. cbn [fst].
  destruct Hout as (_ & _ & Hlen & _). rewrite Hlen. f_equal. cbn -[tx_pending Z.min].
  change (tx_pending (cl_mem cl u) (with_window h len)) with (tx_pending (cl_mem cl u) h). lia.
Qed.

(** A buffer of one byte: the next byte of the frame, or nothing when the handle is
    idle. *)
Lemma run_tx_byte total h u :
  tx_inv (cl_mem cl u) total h ->
  let pending := tx_pending (cl_mem cl u) h in
  exists h' u', hdlc_ll_run_tx cl (h, u) 1 = (Z.of_nat (length (take 1 pending)), (h', u')) /\
    tx_out_buffer h' = take 1 pending /\ crc_type h' = crc_type h /\
    ((tx_idle h /\ tx_idle h' /\ tx_escape h' = tx_escape h /\ u' = u) \/
     (pending <> [] /\ length pending = 1%nat /\ tx_idle h' /\ tx_escape h' = 0 /\
      exists hs, u' = on_sent (hs, u) (tx_origin_data h) total) \/
     (pending <> [] /\ ~ tx_idle h' /\ u' = u /\ tx_inv (cl_mem cl u) total h' /\
      tx_pending (cl_mem cl u) h' = drop 1 pending /\ tx_origin_data h' = tx_origin_data h)).
Proof using SendPassive0.
  intros Hi pending. destruct (run_tx_outcome total h u 1 Hi ltac:(lia))
    as (h' & u' & Hrun & Hc & Hb & _ & Hcase). cbn [with_window tx_out_buffer] in Hb.
  change (tx_pending (cl_mem cl u) (with_window h 1)) with pending in *. fold pending in Hrun.
  exists h', u'. split; [rewrite Hrun, length_take; f_equal; lia|].
  split; [exact Hb|]. split; [exact Hc|].
  assert (Hne : ~ tx_idle h -> pending <> []) by apply tx_pending_busy.
  destruct Hcase as [(Hid & -> & ->)|[(Hn & Hlen & Hid & He & Hs)|(Hn & Hlt & Hn' & -> & Hi' & Hp & Ho)]].
  - left. done.
  - right. left. specialize (Hne Hn). split; [done|].
    split; [|done]. destruct pending as [|x [|y l]]; [done|done|cbn in Hlen; lia].
  - right. right. specialize (Hne Hn). done.
Qed.

(** Sum of the buffer sizes. *)
Definition room (lens : list Z) : Z := foldr Z.add 0 lens.

Lemma room_nonneg lens : Forall (Z.le 0) lens -> 0 <= room lens.
Proof using Type. induction 1; simpl; lia. Qed.

Lemma tx_inv_idle mem total h :
  crc_type h <> HDLC_CRC_OFF -> tx_escape h = 0 -> tx_idle h -> tx_inv mem total h.
Proof using Type. intros Hc He [Hs Ho]. unfold tx_inv. rewrite Hs. auto. Qed.

Lemma run_tx_calls_idle u h lens :
  crc_type h <> HDLC_CRC_OFF -> tx_escape h = 0 -> tx_idle h -> Forall (Z.le 0) lens ->
  exists h', run_tx_calls cl (h, u) lens = ([], (h', u)) /\ tx_idle h' /\
    tx_escape h' = 0 /\ crc_type h' = crc_type h.
Proof using SendPassive0.
  intros Hc He Hi Hl. revert h Hc He Hi. induction Hl as [|len lens Hlen Hl IH]; intros h Hc He Hi.
  { by exists h. }
  destruct (run_tx_outcome 0 h u len) as (h' & u' & Hrun & Hout); [by apply tx_inv_idle|done|].
  destruct Hout as (_ & _ & _ & [(_ & -> & ->)|[(Hn & _)|(Hn & _)]]); [|by destruct Hn..].
  destruct (IH (with_window h len)) as (h2 & Hr2 & Hi2 & He2 & Hc2); [done..|].
  exists h2. split; [|done]. cbn [run_tx_calls]. by rewrite Hrun, Hr2.
Qed.

(** The bytes of a sequence of calls are the pending bytes, cut at the total
    room; once they are out the handle is idle and the callback has run. *)
Lemma run_tx_calls_outcome total u h lens :
  tx_inv (cl_mem cl u) total h -> ~ tx_idle h -> Forall (Z.le 0) lens ->
  let pending := tx_pending (cl_mem cl u) h in
  exists h' u', run_tx_calls cl (h, u) lens = (take (Z.to_nat (room lens)) pending, (h', u')) /\
    crc_type h' = crc_type h /\
    ((Z.of_nat (length pending) <= room lens /\ tx_idle h' /\ tx_escape h' = 0 /\
      exists hs, u' = on_sent (hs, u) (tx_origin_data h) total) \/
     (room lens < Z.of_nat (length pending) /\ u' = u /\ ~ tx_idle h' /\
      tx_inv (cl_mem cl u) total h' /\
      tx_pending (cl_mem cl u) h' = drop (Z.to_nat (room lens)) pending)).
Proof using SendPassive0.
  intros Hi Hn Hl. revert h Hi Hn. induction Hl as [|len lens Hlen Hl IH]; intros h Hi Hn pending.
  { assert (pending <> []) by by apply tx_pending_busy.
    exists h, u. split; [done|]. split; [done|]. right. simpl. rewrite drop_0. split_and!; try done.
    destruct pending; simpl; [done|lia]. }
  pose proof (room_nonneg _ Hl) as Hroom. cbn [run_tx_calls room foldr].
  change (foldr Z.add 0 lens) with (room lens).
  destruct (run_tx_outcome total h u len Hi Hlen) as (h1 & u1 & Hrun & Hout).
  rewrite Hrun. destruct Hout as (Hc & Hb & _ & Hcase). cbn [fst].
  rewrite Hb. cbn [with_window tx_out_buffer]. cbn -[tx_pending] in Hb.
  destruct Hcase as [(? & _)|[(_ & Hfit & Hi1 & He1 & hs & Hu)|(_ & Hlt & Hn1 & -> & Hi1 & Hp1 & Ho1)]];
    [done| |]; change (tx_pending (cl_mem cl u) (with_window h len)) with pending in *.
  - destruct (run_tx_calls_idle u1 h1 lens) as (h2 & Hr2 & Hi2 & He2 & Hc2);
      [rewrite Hc; apply Hi|done..|].
    rewrite Hr2. exists h2, u1. split; [|split; [by rewrite Hc2, Hc|]].
    + f_equal. cbn -[tx_pending]. rewrite app_nil_r, !take_ge by lia. done.
    + left. split_and!; [lia|done|done|]. exists hs. done.
  - destruct (IH h1 Hi1 Hn1) as (h2 & u2 & Hr2 & Hc2 & Hcase). rewrite Hr2, Hp1 in *.
    exists h2, u2. rewrite length_drop in Hcase. split; [|split; [by rewrite Hc2, Hc|]].
    + f_equal. cbn -[tx_pending].
      change (tx_pending (cl_mem cl u) (with_window h len)) with pending.
      rewrite <- (take_drop (Z.to_nat len) pending) at 3.
      rewrite take_app, (take_ge (take _ _)) by (rewrite length_take; lia).
      f_equal. f_equal. rewrite length_take. lia.
    + destruct Hcase as [(? & ? & ? & hs & ->)|(? & -> & ? & ? & Hp2)]; [left|right].
      * split_and!; [lia|done|done|]. exists hs. by rewrite Ho1.
      * split_and!; try done; [lia|]. rewrite Hp2, drop_drop. f_equal. lia.
Qed.

End Calls.

(** The recording client's send callback is passive. *)
Definition on_sent_rec (w : hdlc_ll_data_t * recorder) (p l : Z) : recorder :=
  (snd w) <| rec_sent ::= fun s => s ++ [(p, l)] |>.

#[export] Instance recording_passive :
  SendPassive recording_client on_sent_rec.
Proof. done. Qed.

(** ** Properties *)

(** C31: one call of [hdlc_ll_run_tx] terminates: whatever the state of the handle
    (a corrupted one included), the frame and the room in the buffer, the loop
    ends within [run_tx_fuel len] state-function calls, provided the
    [on_frame_send] callback does not itself call [hdlc_ll_run_tx]. *)
Theorem hdlc_ll_run_tx_total {U : Type} (cl : ll_client U) (H : SendKeepsRoom cl)
  (h : hdlc_ll_data_t) (u : U) (len : Z) (Hlen : 0 <= len) :
  is_Some (run_tx_loop cl (run_tx_fuel len) false (with_window h len, u)).
Proof. apply run_tx_loop_total; [apply H|cbn; lia|]. by apply tx_measure_window. Qed.

Lemma hdlc_ll_run_tx_total_witness :
  0 <= 5 /\
  is_Some (run_tx_loop recording_client (run_tx_fuel 5) false
             (with_window (fresh_handle HDLC_CRC_16 16 64) 5, sample_recorder)).
Proof.
  split; [lia|]. apply (hdlc_ll_run_tx_total recording_client); [apply _|lia].
Defined.

(** C10: the transmitter implements the wire format.  A non-empty frame put on an
    idle handle leaves it, over any sequence of [hdlc_ll_run_tx] calls with
    buffers of any sizes, as the prefix of [wire_frame] (flag, byte-stuffed
    payload and little-endian FCS, flag) that the buffers have room for; when they have
    room for all of it, the handle is idle again and [on_frame_send] has been
    called once, with the address and length of the frame; otherwise it has not
    been called. *)
Theorem hdlc_ll_sends_wire_frame {U : Type} (cl : ll_client U)
  (on_sent : hdlc_ll_data_t * U -> Z -> Z -> U) (H : SendPassive cl on_sent)
  (h : hdlc_ll_data_t) (u : U) (data len : Z) (lens : list Z)
  (Hidle : tx_idle h /\ tx_escape h = 0) (Hcrc : crc_type h <> HDLC_CRC_OFF)
  (Hdata : data <> 0) (Hlen : 0 < len) (Hlens : Forall (Z.le 0) lens) :
  let frame := wire_frame (crc_type h) (mem_range (cl_mem cl u) data (Z.to_nat len)) in
  exists h1 h' u',
    put_frame h data len = (TINY_SUCCESS, h1) /\
    run_tx_calls cl (h1, u) lens = (take (Z.to_nat (room lens)) frame, (h', u')) /\
    (if Z.of_nat (length frame) <=? room lens
     then tx_idle h' /\ exists hs, u' = on_sent (hs, u) data len
     else ~ tx_idle h' /\ u' = u).
Proof.
  destruct Hidle as [[Hs Ho] He]. unfold put_frame. rewrite Ho. cbn [nz Z.eqb negb].
  apply Z.eqb_neq in Hdata as Hd0. rewrite Hd0.
  assert ((len =? 0) = false) as -> by lia. cbn [orb].
  set (h1 := h <| tx_origin_data := data |> <| tx_data := data |> <| tx_len := len |>).
  assert (Hp : tx_pending (cl_mem cl u) h1 =
               wire_frame (crc_type h) (mem_range (cl_mem cl u) data (Z.to_nat len))).
  { unfold tx_pending. cbn. rewrite Hs, Hd0. done. }
  destruct (run_tx_calls_outcome cl on_sent len u h1 lens) as (h' & u' & Hrun & _ & Hcase);
    [| |done|].
  { unfold tx_inv. cbn. rewrite Hs. auto 10. }
  { by intros [_ ?]. }
  rewrite Hp in *. exists h1, h', u'. split_and!; [done..|].
  destruct Hcase as [(? & ? & _ & ?)|(? & ? & ? & _)].
  - rewrite (proj2 (Z.leb_le _ _)) by done. done.
  - rewrite (proj2 (Z.leb_gt _ _)) by done. done.
Qed.

Lemma hdlc_ll_sends_wire_frame_witness :
  exists h1 h' u',
    put_frame (fresh_handle HDLC_CRC_16 16 64) 1 4 = (TINY_SUCCESS, h1) /\
    run_tx_calls recording_client (h1, sample_recorder) [3; 0; 1; 20] =
      ([0x7E; 1; 0x7D; 0x5E; 2; 0x7D; 0x5D; 0x74; 0xEB; 0x7E], (h', u')) /\
    tx_idle h' /\ rec_sent u' = [(1, 4)].
Proof.
  destruct (hdlc_ll_sends_wire_frame recording_client on_sent_rec _ (fresh_handle HDLC_CRC_16 16 64)
              sample_recorder 1 4 [3; 0; 1; 20]) as (h1 & h' & u' & H1 & H2 & H3);
    [by split|done|done|lia|by repeat constructor|].
  assert (Hframe : wire_frame (crc_type (fresh_handle HDLC_CRC_16 16 64))
            (mem_range (cl_mem recording_client sample_recorder) 1 (Z.to_nat 4)) =
          [0x7E; 1; 0x7D; 0x5E; 2; 0x7D; 0x5D; 0x74; 0xEB; 0x7E]) by by vm_compute.
  rewrite Hframe in H2, H3. destruct H3 as [Hi [hs ->]].
  exists h1, h', (on_sent_rec (hs, sample_recorder) 1 4). auto.
Defined.
