(* ===== verification/HdlcRx.v ===== *)
(** * The receiver implements the abstract receiver

    [rx_abs] abstracts a handle to the [receiver] of HdlcSpec.v.  Under
    [rx_inv] every call of a receive state function is a step of that machine;
    so is [hdlc_ll_run_rx], and the loop that feeds it ([on_rx_data], the loop of
    [tiny_fd_on_rx_data]) delivers the same frames however the stream is cut,
    never writes outside the receive buffer and always terminates. *)

From S2P Require Import Prelude Crc HdlcLL HdlcSpec.

(** ** Abstraction and invariant *)

(** The unstuffed bytes collected so far. *)
Definition rx_acc (h : hdlc_ll_data_t) : list Z :=
  slice (rx_buf h) (rx_active_frame_buf h) (rx_ptr h - rx_active_frame_buf h).

Definition rx_abs (h : hdlc_ll_data_t) : receiver :=
  match rx_state h with
  | RX_READ_START => Hunting
  | _ => Receiving (rx_acc h) (nz (rx_escape h))
  end.

(** The flag a handle has read but not acted on. *)
Definition rx_unread (h : hdlc_ll_data_t) : list Z :=
  if bool_decide (rx_state h = RX_READ_END) then [FLAG_SEQUENCE] else [].

Record rx_inv (h : hdlc_ll_data_t) : Prop := mk_rx_inv {
  inv_size : rx_buf_size h = Z.of_nat (length (rx_buf h));
  inv_bytes : bytes (rx_buf h);
  inv_mtu : 0 <= phys_mtu h;
  inv_active : 0 <= rx_active_frame_buf h;
  inv_room : rx_active_frame_buf h + phys_mtu h <= rx_buf_size h;
  inv_ptr : rx_state h <> RX_READ_START ->
            rx_active_frame_buf h <= rx_ptr h <= rx_active_frame_buf h + phys_mtu h;
  inv_crc : crc_type h <> HDLC_CRC_OFF;
  inv_safe : rx_overrun h = false
}.

(** ** The receive half of a handle *)

(** [h] with the receive fields of [r]. *)
Definition set_rx (r h : hdlc_ll_data_t) : hdlc_ll_data_t :=
  h <| rx_buf := rx_buf r |> <| rx_state := rx_state r |> <| rx_ptr := rx_ptr r |>
    <| rx_escape := rx_escape r |> <| rx_active_frame_buf := rx_active_frame_buf r |>
    <| rx_overrun := rx_overrun r |>.

Lemma set_rx_self h : set_rx h h = h.
Proof. by destruct h. Qed.

Lemma set_rx_twice r r' h : set_rx r (set_rx r' h) = set_rx r h.
Proof. done. Qed.

(** [h'] differs from [h] in the receive fields only. *)
Definition only_rx (h h' : hdlc_ll_data_t) : Prop := h' = set_rx h' h.

Lemma only_rx_refl h : only_rx h h.
Proof. symmetry. apply set_rx_self. Qed.

Lemma only_rx_trans h1 h2 h3 : only_rx h1 h2 -> only_rx h2 h3 -> only_rx h1 h3.
Proof. unfold only_rx. intros -> ->. done. Qed.

#[export] Hint Resolve only_rx_refl : core.

(** The client's read callback neither reads nor writes the receive fields, and
    keeps the configuration. *)
Class ReadNatural {U} (cl : ll_client U) : Prop := {
  read_natural : forall r h u p,
    call_frame_read cl (set_rx r h, u) p =
    let '(h', u') := call_frame_read cl (h, u) p in (set_rx r h', u');
  read_config : forall h u p,
    let h' := fst (call_frame_read cl (h, u) p) in
    crc_type h' = crc_type h /\ phys_mtu h' = phys_mtu h /\ rx_buf_size h' = rx_buf_size h
}.

(** The callbacks a list of events makes, in order. *)
Definition deliver_event {U} (cl : ll_client U) (w : hdlc_ll_data_t * U) (e : rx_event)
  : hdlc_ll_data_t * U :=
  match e with
  | Delivered p => call_frame_read cl w p
  | Rejected _ => w
  end.

Definition deliver {U} (cl : ll_client U) (w : hdlc_ll_data_t * U) (es : list rx_event) :=
  foldl (deliver_event cl) w es.

(** The errors a list of events reports. *)
Definition errors (es : list rx_event) : list Z :=
  omap (fun e => match e with Rejected e => Some e | Delivered _ => None end) es.

(** ** The collected bytes *)

Lemma slice_length l off len :
  0 <= off -> 0 <= len -> off + len <= Z.of_nat (length l) ->
  Z.of_nat (length (slice l off len)) = len.
Proof. intros. unfold slice. rewrite length_take, length_drop. lia. Qed.

Lemma slice_bytes l off len : bytes l -> bytes (slice l off len).
Proof. intros. unfold slice. auto with tiny. Qed.

Lemma slice_snoc l off len b :
  0 <= off -> 0 <= len -> off + len < Z.of_nat (length l) ->
  slice (<[Z.to_nat (off + len) := b]> l) off (len + 1) = slice l off len ++ [b].
Proof.
  intros Ho Hl Hb. unfold slice.
  replace (Z.to_nat (len + 1)) with (S (Z.to_nat len)) by lia.
  replace (Z.to_nat (off + len)) with (Z.to_nat off + Z.to_nat len)%nat by lia.
  rewrite (take_S_r _ _ b).
  - f_equal. rewrite drop_insert_ge by lia. rewrite take_insert_ge by lia. done.
  - rewrite lookup_drop, list_lookup_insert_eq; [done|lia].
Qed.

Lemma rx_acc_length h :
  rx_inv h -> rx_state h <> RX_READ_START ->
  Z.of_nat (length (rx_acc h)) = rx_ptr h - rx_active_frame_buf h.
Proof.
  intros [] Hs. apply slice_length; [lia|..]; specialize (inv_ptr0 Hs); lia.
Qed.

Lemma rx_acc_bytes h : rx_inv h -> bytes (rx_acc h).
Proof. intros []. by apply slice_bytes. Qed.

(** ** [hdlc_ll_read_data] *)

(** One data byte: the body of the loop. *)
Definition read_data_byte (h : hdlc_ll_data_t) (byte : Z) : hdlc_ll_data_t :=
  if byte =? TINY_ESCAPE_CHAR then h <| rx_escape := 1 |>
  else if rx_ptr h - rx_active_frame_buf h <? phys_mtu h then
    let h := if nz (rx_escape h)
             then (rx_store h (u8 (Z.lxor byte TINY_ESCAPE_BIT))) <| rx_escape := 0 |>
             else rx_store h byte in
    h <| rx_ptr ::= Z.succ |>
  else h.

Lemma read_data_cons h byte data :
  hdlc_ll_read_data h (byte :: data) =
  if byte =? FLAG_SEQUENCE then (1, h <| rx_state := RX_READ_END |>)
  else let '(r, h') := hdlc_ll_read_data (read_data_byte h byte) data in (r + 1, h').
Proof. reflexivity. Qed.

(** A store at the end of the collected bytes appends to them. *)
Lemma rx_store_acc h b :
  rx_inv h -> rx_state h = RX_READ_DATA -> rx_ptr h - rx_active_frame_buf h < phys_mtu h ->
  fits 8 b ->
  let h' := (rx_store h b) <| rx_escape := 0 |> <| rx_ptr ::= Z.succ |> in
  rx_inv h' /\ rx_acc h' = rx_acc h ++ [b] /\ only_rx h h' /\ rx_state h' = RX_READ_DATA.
Proof.
  intros [] Hs Hlt Hb. unfold rx_store. rewrite Hs in inv_ptr0.
  specialize (inv_ptr0 ltac:(done)).
  assert ((0 <=? rx_ptr h) && (rx_ptr h <? Z.of_nat (length (rx_buf h))) = true) as -> by lia.
  cbn. split_and!; [split; cbn; try done| |done|done].
  - by rewrite length_insert.
  - by apply Forall_insert.
  - intros _. lia.
  - unfold rx_acc. cbn.
    replace (Z.succ (rx_ptr h) - rx_active_frame_buf h)
      with ((rx_ptr h - rx_active_frame_buf h) + 1) by lia.
    replace (rx_ptr h) with (rx_active_frame_buf h + (rx_ptr h - rx_active_frame_buf h)) at 1 by lia.
    apply slice_snoc; lia.
Qed.

Lemma lxor_escape_bit b : fits 8 b -> u8 (Z.lxor b TINY_ESCAPE_BIT) = Z.lxor b TINY_ESCAPE_BIT.
Proof. intros. apply u8_id. apply fits_lxor; [lia|done|]. by vm_compute. Qed.

Lemma read_data_byte_spec t h b :
  rx_inv h -> rx_state h = RX_READ_DATA -> fits 8 b -> b <> FLAG_SEQUENCE ->
  let h' := read_data_byte h b in
  rx_inv h' /\ only_rx h h' /\ rx_state h' = RX_READ_DATA /\
  receive_byte t (phys_mtu h) (rx_abs h) b = (rx_abs h', []).
Proof.
  intros Hi Hs Hb Hf. unfold read_data_byte, rx_abs. rewrite Hs. cbn [receive_byte].
  apply Z.eqb_neq in Hf as ->. rewrite rx_acc_length by (done || by rewrite Hs).
  destruct (b =? TINY_ESCAPE_CHAR).
  { destruct Hi. cbn. rewrite Hs. split_and!; try done. }
  destruct (Z.ltb_spec (rx_ptr h - rx_active_frame_buf h) (phys_mtu h)) as [Hlt|Hge]; [|].
  - cbv zeta. set (v := if nz (rx_escape h) then u8 (Z.lxor b TINY_ESCAPE_BIT) else b).
    assert (Hv : fits 8 v) by (unfold v; destruct (nz _); [apply fits_u8|done]).
    destruct (rx_store_acc h v Hi Hs Hlt Hv) as (Hi' & Ha & Ho & Hs').
    assert (E : (if nz (rx_escape h)
                 then (rx_store h (u8 (Z.lxor b TINY_ESCAPE_BIT))) <| rx_escape := 0 |>
                 else rx_store h b) <| rx_ptr ::= Z.succ |>
                = (rx_store h v) <| rx_escape := 0 |> <| rx_ptr ::= Z.succ |>).
    { unfold v, rx_store. destruct (nz (rx_escape h)) eqn:He; [done|].
      apply negb_false_iff, Z.eqb_eq in He. destruct (_ && _); by destruct h; cbn in *; subst. }
    rewrite E, Hs', Ha. split_and!; try done.
    unfold v. rewrite lxor_escape_bit by done. done.
  - rewrite Hs. by split_and!.
Qed.

(** The loop consumes everything, or everything up to the first flag. *)
Lemma read_data_spec t h data :
  rx_inv h -> rx_state h = RX_READ_DATA -> bytes data ->
  exists n h', hdlc_ll_read_data h data = (Z.of_nat n, h') /\
    (n <= length data)%nat /\ (data <> [] -> 0 < n)%nat /\ rx_inv h' /\ only_rx h h' /\
    ((rx_state h' = RX_READ_DATA /\ n = length data) \/ rx_state h' = RX_READ_END) /\
    exists pre, take n data = pre ++ rx_unread h' /\
      receive t (phys_mtu h) (rx_abs h) pre = (rx_abs h', []).
Proof.
  revert h. induction data as [|b data IH]; intros h Hi Hs Hd.
  { exists 0%nat, h. unfold rx_unread. rewrite Hs. split_and!; try done; [by left|].
    by exists []. }
  apply bytes_cons in Hd as [Hb Hd]. rewrite read_data_cons.
  destruct (Z.eqb_spec b FLAG_SEQUENCE) as [->|Hf].
  - exists 1%nat, (h <| rx_state := RX_READ_END |>). destruct Hi. cbn [length].
    split_and!; try done; try lia; try by right.
    + split; cbn; try done. intros _. apply inv_ptr0. by rewrite Hs.
    + exists []. unfold rx_unread, rx_abs. cbn. rewrite take_0, Hs. done.
  - destruct (read_data_byte_spec t h b Hi Hs Hb Hf) as (Hi1 & Ho1 & Hs1 & Hr1).
    set (h1 := read_data_byte h b) in *.
    destruct (IH h1 Hi1 Hs1 Hd) as (n & h' & Hrun & Hn & Hn0 & Hi' & Ho' & Hend & pre & Hpre & Hrec).
    rewrite Hrun. exists (S n), h'. split_and!; cbn [length]; try done; try lia.
    + f_equal. lia.
    + by eapply only_rx_trans.
    + destruct Hend as [[? ?]|?]; [left|right]; auto with lia.
    + exists (b :: pre). cbn. rewrite Hpre, Hr1.
      assert (phys_mtu h1 = phys_mtu h) as <- by by rewrite Ho1. by rewrite Hrec.
Qed.

(** ** [hdlc_ll_read_end] *)

Lemma load_slice l off len i :
  0 <= off -> 0 <= i < len -> load l (off + i) = nth (Z.to_nat i) (slice l off len) 0.
Proof.
  intros. unfold load, slice. rewrite nth_firstn, nth_skipn.
  destruct (Nat.ltb_spec (Z.to_nat i) (Z.to_nat len)); [|lia]. f_equal. lia.
Qed.

Lemma slice_prefix l off len k :
  0 <= k <= len -> slice l off k = take (Z.to_nat k) (slice l off len).
Proof. intros. unfold slice. rewrite take_take. f_equal. lia. Qed.

(** The FCS read from the wire equals the computed one exactly when the last
    bytes are the FCS field of the others. *)
Lemma fcs_value_eq t payload tail c :
  bytes tail -> length tail = fcs_size t -> fits (8 * Z.of_nat (fcs_size t)) c ->
  fcs_field t payload = le_bytes (fcs_size t) c ->
  (c =? le_value tail) = bool_decide (tail = fcs_field t payload).
Proof.
  intros Ht Hl Hc Hf. rewrite Hf. apply eq_true_iff_eq. rewrite Z.eqb_eq, bool_decide_eq_true.
  split.
  - intros ->. by rewrite <- Hl, le_bytes_value.
  - intros ->. by rewrite le_value_bytes.
Qed.

Lemma le_bytes_1_u8 z : le_bytes 1 (Z.land z 255) = le_bytes 1 z.
Proof.
  cbn. unfold u8. change 255 with (Z.ones 8). rewrite Z.land_ones by lia.
  by rewrite Z.mod_mod.
Qed.

Lemma read_end_crcs_spec t buf a len :
  let acc := slice buf a len in
  let n := fcs_size t in
  t <> HDLC_CRC_OFF -> bytes buf -> 0 <= a -> Z.of_nat n <= len -> Z.of_nat (length acc) = len ->
  (let '(calc_crc, read_crc) := read_end_crcs t buf a (a + len) len in calc_crc =? read_crc) =
  bool_decide (drop (length acc - n) acc = fcs_field t (take (length acc - n) acc)).
Proof.
  intros acc n Ht Hb Ha Hn Hlen.
  assert (Hacc : bytes acc) by by apply slice_bytes.
  set (pay := take (length acc - n) acc). set (tail := drop (length acc - n) acc).
  assert (Hpay : slice buf a (len - Z.of_nat n) = pay).
  { rewrite (slice_prefix buf a len) by lia. unfold pay. f_equal. lia. }
  assert (Htl : length tail = n) by (unfold tail; rewrite length_drop; lia).
  assert (Htb : bytes tail) by by apply bytes_drop.
  assert (Hpb : bytes pay) by by apply bytes_take.
  assert (Hload : forall j, 0 < j <= Z.of_nat n ->
            load buf (a + len - j) = nth (n - Z.to_nat j) tail 0).
  { intros j Hj. replace (a + len - j) with (a + (len - j)) by lia.
    rewrite (load_slice buf a len) by lia. unfold tail. rewrite nth_skipn. f_equal. lia. }
  subst n; destruct t; try done; cbn [read_end_crcs fcs_size] in *;
    repeat rewrite Hload by lia.
  - assert (tail = []) as -> by by apply length_zero_iff_nil. done.
  - destruct tail as [|b0 [|]]; try done. change (slice buf a (len - 1) = pay) in Hpay. rewrite Hpay.
    rewrite <- (fcs_value_eq HDLC_CRC_8 pay [b0] (Z.land (tiny_chksum INITCHECKSUM pay) 255));
      try done.
    + cbn. by rewrite Z.lor_0_r.
    + apply fits_land_r; [lia| |by vm_compute]. apply tiny_chksum_fits.
    + symmetry. apply le_bytes_1_u8.
  - destruct tail as [|b0 [|b1 [|]]]; try done. change (slice buf a (len - 2) = pay) in Hpay. rewrite Hpay.
    rewrite <- (fcs_value_eq HDLC_CRC_16 pay [b0; b1] (tiny_crc16 PPPINITFCS16 pay)); try done.
    + f_equal. cbn. by rewrite Z.lor_0_r.
    + apply tiny_crc16_fits.
  - destruct tail as [|b0 [|b1 [|b2 [|b3 [|]]]]]; try done. change (slice buf a (len - 4) = pay) in Hpay. rewrite Hpay.
    rewrite <- (fcs_value_eq HDLC_CRC_32 pay [b0; b1; b2; b3] (tiny_crc32 PPPINITFCS32 pay)); try done.
    + f_equal. cbn. rewrite Z.lor_0_r.
      rewrite !Z.shiftl_lor, !Z.shiftl_shiftl by lia. by rewrite !Z.lor_assoc.
    + apply tiny_crc32_fits; [by vm_compute|done].
Qed.

Section Receive.

Context {U : Type} (cl : ll_client U).

(** The part of the world the callbacks see. *)
Definition client_view (w : hdlc_ll_data_t * U) : hdlc_ll_data_t * U :=
  (set_rx (fresh_handle HDLC_CRC_OFF 0 0) (fst w), snd w).

(** [w'] is [w] after [es] happened: the callbacks ran, in order, on the client's
    part of the world. *)
Definition happened (es : list rx_event) (w w' : hdlc_ll_data_t * U) : Prop :=
  client_view w' = deliver cl (client_view w) es.

Lemma happened_only_rx h h' u : only_rx h h' -> happened [] (h, u) (h', u).
Proof. unfold only_rx. intros ->. done. Qed.

Lemma happened_trans es es' w w' w'' :
  happened es w w' -> happened es' w' w'' -> happened (es ++ es') w w''.
Proof. unfold happened, deliver. intros H ->. by rewrite foldl_app, <- H. Qed.

Lemma call_frame_read_natural `{!ReadNatural cl} h u p h' u' :
  call_frame_read cl (h, u) p = (h', u') ->
  only_rx h' (set_rx h h') /\ h' = set_rx h h' /\
  happened [Delivered p] (h, u) (h', u') /\
  crc_type h' = crc_type h /\ phys_mtu h' = phys_mtu h /\ rx_buf_size h' = rx_buf_size h.
Proof.
  intros E. pose proof (read_natural h h u p) as Hn. rewrite set_rx_self, E in Hn.
  injection Hn as Hn. split; [done|]. split; [done|].
  pose proof (read_config h u p) as Hc. rewrite E in Hc. split; [|done].
  unfold happened, client_view, deliver. cbn [fst snd foldl deliver_event].
  rewrite read_natural, E. done.
Qed.

(** Errors are negative, success is not. *)
Definition reports (e : Z) (es : list rx_event) : Prop :=
  e <= 0 /\ errors es = if e =? 0 then [] else [e].

Lemma reports_rejected e : e < 0 -> reports e [Rejected e].
Proof. intros He. split; [lia|]. cbn. by destruct (Z.eqb_spec e 0); [lia|]. Qed.

(** The next frame goes to the next slot of the receive buffer. *)
Definition next_frame_buf (h : hdlc_ll_data_t) : hdlc_ll_data_t :=
  let h := h <| rx_active_frame_buf ::= Z.add (phys_mtu h) |> in
  if rx_buf_size h <? rx_active_frame_buf h + phys_mtu h then h <| rx_active_frame_buf := 0 |> else h.

Lemma next_frame_buf_spec h :
  rx_inv h -> rx_state h = RX_READ_START ->
  rx_inv (next_frame_buf h) /\ only_rx h (next_frame_buf h) /\
  rx_state (next_frame_buf h) = RX_READ_START.
Proof.
  intros [] Hs. unfold next_frame_buf. cbn.
  destruct (Z.ltb_spec (rx_buf_size h) (phys_mtu h + rx_active_frame_buf h + phys_mtu h));
    cbn; (split_and!; [split; cbn; try done; lia|done|done]).
Qed.

Lemma rx_inv_callback h h' :
  rx_inv h -> h' = set_rx h h' ->
  crc_type h' = crc_type h -> phys_mtu h' = phys_mtu h -> rx_buf_size h' = rx_buf_size h ->
  rx_inv h'.
Proof. intros [] E H1 H2 H3. rewrite E. split; cbn; rewrite ?H1, ?H2, ?H3; done. Qed.

Lemma rx_inv_start h : rx_inv h -> rx_inv (h <| rx_state := RX_READ_START |>).
Proof. intros []. by split. Qed.

(** The second half of [hdlc_ll_read_end], for a non-empty frame. *)
Definition read_end_frame (w : hdlc_ll_data_t * U) : Z * (hdlc_ll_data_t * U) :=
  let '(h, u) := w in
  let len := rx_ptr h - rx_active_frame_buf h in
  let fcs_size := Z.quot (u8 (crc_type_val (crc_type h))) 8 in
  if phys_mtu h <? len then (TINY_ERR_DATA_TOO_LARGE, (h, u)) else
  if len <? fcs_size then (TINY_ERR_WRONG_CRC, (h, u)) else
  let '(calc_crc, read_crc) :=
    read_end_crcs (crc_type h) (rx_buf h) (rx_active_frame_buf h) (rx_ptr h) len in
  if negb (calc_crc =? read_crc) then (TINY_ERR_WRONG_CRC, (h, u)) else
  let '(h, u) := call_frame_read cl (h, u)
                   (slice (rx_buf h) (rx_active_frame_buf h) (len - fcs_size)) in
  (TINY_SUCCESS, (next_frame_buf h, u)).

Lemma read_end_frame_spec `{!ReadNatural cl} h u :
  rx_inv h -> rx_state h = RX_READ_START ->
  rx_active_frame_buf h < rx_ptr h <= rx_active_frame_buf h + phys_mtu h ->
  exists e h' u', read_end_frame (h, u) = (e, (h', u')) /\
    rx_inv h' /\ rx_state h' = RX_READ_START /\
    crc_type h' = crc_type h /\ phys_mtu h' = phys_mtu h /\
    let es := [check_frame (crc_type h) (rx_acc h)] in
    happened es (h, u) (h', u') /\ reports e es.
Proof.
  intros Hi Hs Hp. pose proof Hi as []. unfold read_end_frame.
  assert (Hlen : Z.of_nat (length (rx_acc h)) = rx_ptr h - rx_active_frame_buf h)
    by (apply slice_length; lia).
  assert (Z.quot (u8 (crc_type_val (crc_type h))) 8 = Z.of_nat (fcs_size (crc_type h))) as ->
    by by destruct (crc_type h).
  destruct (Z.ltb_spec (phys_mtu h) (rx_ptr h - rx_active_frame_buf h)); [lia|].
  unfold check_frame.
  destruct (Z.ltb_spec (rx_ptr h - rx_active_frame_buf h) (Z.of_nat (fcs_size (crc_type h))));
    destruct (Nat.ltb_spec (length (rx_acc h)) (fcs_size (crc_type h))); try lia.
  { do 3 eexists. split; [done|]. split_and!; try done. }
  pose proof (read_end_crcs_spec (crc_type h) (rx_buf h) (rx_active_frame_buf h)
                (rx_ptr h - rx_active_frame_buf h)) as Hcrc.
  replace (rx_active_frame_buf h + (rx_ptr h - rx_active_frame_buf h)) with (rx_ptr h) in Hcrc by lia.
  destruct (read_end_crcs _ _ _ _ _) as [calc_crc read_crc].
  rewrite Hcrc by (done || lia). fold (rx_acc h).
  destruct (bool_decide _); cbn [negb].
  - destruct (call_frame_read cl (h, u) _) as [h1 u1] eqn:Ec.
    apply call_frame_read_natural in Ec as (_ & E1 & Hh & Hc & Hm & Hz).
    assert (Hs1 : rx_state h1 = RX_READ_START) by by rewrite E1.
    destruct (next_frame_buf_spec h1) as (Hi2 & Ho2 & Hs2); [by eapply rx_inv_callback|done|].
    exists TINY_SUCCESS, (next_frame_buf h1), u1.
    split_and!; try done; try by rewrite Ho2.
    apply (happened_trans [_] [] _ (h1, u1)); [|by apply happened_only_rx].
    rewrite (slice_prefix _ _ (rx_ptr h - rx_active_frame_buf h)) in Hh by lia.
    fold (rx_acc h) in Hh.
    by replace (Z.to_nat (rx_ptr h - rx_active_frame_buf h - Z.of_nat (fcs_size (crc_type h))))
      with (length (rx_acc h) - fcs_size (crc_type h))%nat in Hh by lia.
  - do 3 eexists. split; [done|]. split_and!; try done.
Qed.

(** Acting on the closing flag: the abstract receiver reads the flag. *)
Lemma read_end_spec `{!ReadNatural cl} h u :
  rx_inv h -> rx_state h = RX_READ_END ->
  exists e h' u' es, hdlc_ll_read_end cl (h, u) = (e, (h', u')) /\
    rx_inv h' /\ rx_state h' <> RX_READ_END /\
    crc_type h' = crc_type h /\ phys_mtu h' = phys_mtu h /\
    receive_byte (crc_type h) (phys_mtu h) (rx_abs h) FLAG_SEQUENCE = (rx_abs h', es) /\
    happened es (h, u) (h', u') /\ reports e es.
Proof.
  intros Hi Hs. unfold hdlc_ll_read_end, rx_abs. rewrite Hs.
  assert (Hacc := rx_acc_length h Hi ltac:(by rewrite Hs)).
  destruct (Z.eqb_spec (rx_ptr h) (rx_active_frame_buf h)) as [E|E].
  { assert (Hnil : rx_acc h = []) by (apply length_zero_iff_nil; lia).
    exists 0, (h <| rx_escape := 0 |> <| rx_state := RX_READ_DATA |>), u, [].
    destruct Hi. split_and!; try done.
    - split; cbn; try done. intros _. apply inv_ptr0. by rewrite Hs.
    - cbn. rewrite Hnil. unfold rx_acc in *. cbn. by rewrite Hnil. }
  cbn [receive_byte]. rewrite Z.eqb_refl.
  destruct (read_end_frame_spec (h <| rx_state := RX_READ_START |>) u)
    as (e & h' & u' & Hrun & Hi' & Hs' & Hc' & Hm' & Hh & Hr).
  { by apply rx_inv_start. }
  { done. }
  { cbn. destruct Hi. specialize (inv_ptr0 ltac:(by rewrite Hs)). lia. }
  exists e, h', u', [check_frame (crc_type h) (rx_acc h)].
  split; [exact Hrun|]. rewrite Hs'. split_and!; try done.
  destruct (rx_acc h) as [|b acc]; [cbn in Hacc; lia|done].
Qed.

(** ** [hdlc_ll_run_rx] *)

(** A call consumed [n] bytes of [data]: what it did to the handle and the
    client is what the abstract receiver does on those bytes. *)
Definition refines (w : hdlc_ll_data_t * U) (data : list Z) (n : nat) (e : Z)
  (w' : hdlc_ll_data_t * U) : Prop :=
  let h := fst w in let h' := fst w' in
  (n <= length data)%nat /\ rx_inv h' /\ rx_state h' <> RX_READ_END /\
  crc_type h' = crc_type h /\ phys_mtu h' = phys_mtu h /\
  exists es, receive (crc_type h) (phys_mtu h) (rx_abs h) (rx_unread h ++ take n data) =
               (rx_abs h', es) /\
    happened es w w' /\ reports e es /\
    (n = length data \/ data = take n data ++ drop n data /\ 0 < n + length (rx_unread h))%nat.

Lemma read_start_spec t h b data :
  rx_inv h -> rx_state h = RX_READ_START ->
  exists h', hdlc_ll_read_start h (b :: data) = (1, h') /\
    rx_inv h' /\ only_rx h h' /\ rx_state h' <> RX_READ_END /\
    receive_byte t (phys_mtu h) (rx_abs h) b = (rx_abs h', []).
Proof.
  intros Hi Hs. unfold hdlc_ll_read_start, rx_abs. rewrite Hs. cbn [receive_byte].
  destruct (Z.eqb_spec b FLAG_SEQUENCE); cbn [negb]; eexists; (split; [reflexivity|]).
  - destruct Hi. cbn. split_and!; try done.
    + split; cbn; try done. intros _. lia.
    + unfold rx_acc, slice. cbn. by rewrite Z.sub_diag.
  - rewrite Hs. by split_and!.
Qed.

(** A step that consumes bytes and leaves the client alone, followed by the rest. *)
Lemma refines_step w1 w data n k e w' :
  only_rx (fst w) (fst w1) -> snd w1 = snd w ->
  (0 < n <= length data)%nat ->
  (exists pre, rx_unread (fst w) ++ take n data = pre ++ rx_unread (fst w1) /\
     receive (crc_type (fst w)) (phys_mtu (fst w)) (rx_abs (fst w)) pre = (rx_abs (fst w1), [])) ->
  refines w1 (drop n data) k e w' -> refines w data (n + k) e w'.
Proof.
  destruct w1 as [h1 u1], w as [h u]. cbn [fst snd]. intros Ho -> Hn (pre & Hpre & Hrec) Href.
  destruct Href as (Hk & Hi & Hs & Hc & Hm & es & Hr & Hh & He & Hend). cbn [fst] in *.
  rewrite length_drop in Hk.
  assert (Hc1 : crc_type h1 = crc_type h) by by rewrite Ho.
  assert (Hm1 : phys_mtu h1 = phys_mtu h) by by rewrite Ho.
  split_and!; cbn [fst]; [lia|done|done|congruence..|].
  exists es. split_and!; try done.
  - rewrite <- (take_take_drop data n k), app_assoc, Hpre, <- app_assoc, receive_app, Hrec.
    rewrite <- Hc1, <- Hm1, Hr. done.
  - apply (happened_trans [] es _ (h1, u)); [by apply happened_only_rx|done].
  - right. rewrite take_drop. split; [done|lia].
Qed.

Lemma run_rx_loop_spec `{!ReadNatural cl} fuel result h u data :
  rx_inv h -> bytes data -> (length data + 1 < fuel)%nat ->
  exists n e w', run_rx_loop cl fuel result (h, u) data = Some (result + Z.of_nat n, e, w') /\
    refines (h, u) data n e w'.
Proof.
  revert result h data. induction fuel as [|fuel IH]; intros result h data Hi Hd Hf; [lia|].
  cbn [run_rx_loop fst]. unfold rx_step. cbn [fst snd].
  destruct (rx_state h) eqn:Hs.
  - destruct data as [|b data].
    { exists 0%nat, TINY_SUCCESS, (h, u). rewrite Z.add_0_r. split; [done|].
      unfold refines, rx_unread. cbn. rewrite Hs. split_and!; try done.
      exists []. split_and!; try done. by left. }
    destruct (read_start_spec (crc_type h) h b data Hi Hs) as (h1 & Hrun & Hi1 & Ho1 & Hs1 & Hr1).
    rewrite Hrun. cbn [bool_decide decide negb orb Z.leb Z.compare]. cbn -[Z.add].
    apply bytes_cons in Hd as [Hb Hd].
    destruct (IH (result + 1) h1 data) as (n & e & w' & Hloop & Href); [done..|cbn in Hf; lia|].
    exists (1 + n)%nat, e, w'. change (drop (Z.to_nat 1) (b :: data)) with data. rewrite Hloop.
    split; [do 3 f_equal; lia|]. apply (refines_step (h1, u)); try done; [cbn; lia|].
    exists [b]. unfold rx_unread. cbn -[receive_byte]. rewrite Hs.
    rewrite bool_decide_eq_false_2 by done. rewrite bool_decide_eq_false_2 by done.
    split; [done|]. by rewrite Hr1.
  - destruct (decide (data = [])) as [->|Hne].
    { exists 0%nat, TINY_SUCCESS, (h, u). rewrite Z.add_0_r. split; [done|].
      unfold refines, rx_unread. cbn. rewrite Hs. split_and!; try done.
      exists []. split_and!; try done. by left. }
    destruct (read_data_spec (crc_type h) h data Hi Hs Hd)
      as (n & h1 & Hrun & Hn & Hn0 & Hi1 & Ho1 & Hend & pre & Hpre & Hrec).
    specialize (Hn0 Hne). rewrite Hrun. rewrite bool_decide_eq_false_2 by done. cbn [negb orb].
    destruct (Z.leb_spec (Z.of_nat n) 0); [lia|].
    destruct (IH (result + Z.of_nat n) h1 (drop (Z.to_nat (Z.of_nat n)) data))
      as (k & e & w' & Hloop & Href); [done|by apply bytes_drop|rewrite length_drop; lia|].
    rewrite Nat2Z.id in *. exists (n + k)%nat, e, w'. rewrite Hloop.
    split; [do 3 f_equal; lia|]. apply (refines_step (h1, u)); try done.
    exists pre. cbn [fst]. split; [|done].
    unfold rx_unread at 1. by rewrite Hs, bool_decide_eq_false_2.
  - rewrite orb_true_r.
    destruct (read_end_spec h u Hi Hs) as (e & h' & u' & es & Hrun & Hi' & Hs' & Hc' & Hm' & Hr & Hh & He).
    rewrite Hrun. assert ((e <=? 0) = true) as -> by (destruct He; lia).
    exists 0%nat, e, (h', u'). rewrite Z.add_0_r. split; [done|].
    unfold refines, rx_unread. cbn [fst]. rewrite Hs. cbn -[receive_byte].
    split_and!; try done; [lia|].
    exists es. rewrite bool_decide_eq_true_2 by done. cbn -[receive_byte]. rewrite Hr.
    rewrite take_0. cbn. rewrite app_nil_r. split_and!; try done. right. split; [done|lia].
Qed.

Lemma run_rx_spec `{!ReadNatural cl} h u data :
  rx_inv h -> rx_state h <> RX_READ_END -> bytes data ->
  exists n e w', hdlc_ll_run_rx cl (h, u) data = (Z.of_nat n, e, w') /\
    refines (h, u) data n e w' /\ (data <> [] -> 0 < n)%nat.
Proof.
  intros Hi Hs Hd. unfold hdlc_ll_run_rx.
  destruct (run_rx_loop_spec (run_rx_fuel data) 0 h u data) as (n & e & w' & Hrun & Href);
    [done..|unfold run_rx_fuel; lia|].
  exists n, e, w'. rewrite Hrun. split_and!; try done.
  intros Hne. destruct Href as (_ & _ & _ & _ & _ & es & _ & _ & _ & [->|[_ Hend]]).
  - destruct data; cbn; [done|lia].
  - revert Hend. unfold rx_unread. rewrite bool_decide_eq_false_2 by done. cbn. lia.
Qed.

End Receive.

(** ** Feeding a stream *)

(** The loop of [tiny_fd_on_rx_data] (the error codes of the calls, which the
    code logs, are collected): [hdlc_ll_run_rx] until all bytes are consumed.
    [None] means the fuel ran out. *)
Fixpoint on_rx_data_loop {U} (cl : ll_client U) (fuel : nat) (w : hdlc_ll_data_t * U)
  (data : list Z) : option (list Z * (hdlc_ll_data_t * U)) :=
  match data with
  | [] => Some ([], w)
  | _ :: _ =>
      match fuel with
      | O => None
      | S fuel =>
          let '(processed_bytes, error, w) := hdlc_ll_run_rx cl w data in
          match on_rx_data_loop cl fuel w (drop (Z.to_nat processed_bytes) data) with
          | Some (errs, w) => Some ((if error =? TINY_SUCCESS then errs else error :: errs), w)
          | None => None
          end
      end
  end.

Definition on_rx_data {U} (cl : ll_client U) (w : hdlc_ll_data_t * U) (data : list Z)
  : option (list Z * (hdlc_ll_data_t * U)) :=
  on_rx_data_loop cl (length data) w data.

(** A stream that arrives in chunks. *)
Fixpoint on_rx_chunks {U} (cl : ll_client U) (w : hdlc_ll_data_t * U) (chunks : list (list Z))
  : option (list Z * (hdlc_ll_data_t * U)) :=
  match chunks with
  | [] => Some ([], w)
  | data :: chunks =>
      match on_rx_data cl w data with
      | Some (errs, w) =>
          match on_rx_chunks cl w chunks with
          | Some (errs', w) => Some (errs ++ errs', w)
          | None => None
          end
      | None => None
      end
  end.

(** A handle between two calls. *)
Definition rx_ready (h : hdlc_ll_data_t) : Prop := rx_inv h /\ rx_state h <> RX_READ_END.

(** Consuming [data] is what the abstract receiver does on it. *)
Definition consumed {U} (cl : ll_client U) (w : hdlc_ll_data_t * U) (data : list Z)
  (errs : list Z) (w' : hdlc_ll_data_t * U) : Prop :=
  rx_ready (fst w') /\ crc_type (fst w') = crc_type (fst w) /\ phys_mtu (fst w') = phys_mtu (fst w) /\
  exists es,
    receive (crc_type (fst w)) (phys_mtu (fst w)) (rx_abs (fst w)) data = (rx_abs (fst w'), es) /\
    happened cl es w w' /\ errors es = errs.

Section Stream.

Context {U : Type} (cl : ll_client U).

Lemma errors_app es es' : errors (es ++ es') = errors es ++ errors es'.
Proof. apply omap_app. Qed.

Lemma consumed_nil w : rx_ready (fst w) -> consumed cl w [] [] w.
Proof. intros. split_and!; try done. by exists []. Qed.

Lemma consumed_app w d1 e1 w1 d2 e2 w2 :
  consumed cl w d1 e1 w1 -> consumed cl w1 d2 e2 w2 -> consumed cl w (d1 ++ d2) (e1 ++ e2) w2.
Proof.
  intros (_ & Hc1 & Hm1 & es1 & Hr1 & Hh1 & <-) (Hs2 & Hc2 & Hm2 & es2 & Hr2 & Hh2 & <-).
  split_and!; [done|congruence..|]. exists (es1 ++ es2).
  rewrite receive_app, Hr1, <- Hc1, <- Hm1, Hr2, errors_app. split_and!; try done.
  by eapply happened_trans.
Qed.

Lemma on_rx_data_loop_spec `{!ReadNatural cl} fuel w data :
  rx_ready (fst w) -> bytes data -> (length data <= fuel)%nat ->
  exists errs w', on_rx_data_loop cl fuel w data = Some (errs, w') /\ consumed cl w data errs w'.
Proof.
  revert w data. induction fuel as [|fuel IH]; intros w data Hs Hd Hf.
  { destruct data; [|cbn in Hf; lia]. exists [], w. split; [done|]. by apply consumed_nil. }
  destruct data as [|b data]; [exists [], w; split; [done|]; by apply consumed_nil|].
  destruct w as [h u], Hs as [Hi Hs]. cbn [on_rx_data_loop].
  destruct (run_rx_spec cl h u (b :: data) Hi Hs Hd) as (n & e & w1 & Hrun & Href & Hn).
  rewrite Hrun, Nat2Z.id. specialize (Hn ltac:(done)).
  destruct Href as (Hle & Hi1 & Hs1 & Hc1 & Hm1 & es & Hr & Hh & [_ He] & _).
  destruct (IH w1 (drop n (b :: data))) as (errs & w' & Hloop & Hcons); [done|by apply bytes_drop| |].
  { rewrite length_drop. cbn [length] in *. lia. }
  rewrite Hloop. eexists _, w'. split; [reflexivity|].
  rewrite <- (take_drop n (b :: data)).
  replace (if e =? TINY_SUCCESS then errs else e :: errs) with (errors es ++ errs)
    by (rewrite He; unfold TINY_SUCCESS; destruct (e =? 0); done).
  eapply consumed_app; [|done]. split_and!; try done. exists es.
  revert Hr. unfold rx_unread. cbn [fst]. rewrite bool_decide_eq_false_2 by done. done.
Qed.

Lemma on_rx_data_spec `{!ReadNatural cl} w data :
  rx_ready (fst w) -> bytes data ->
  exists errs w', on_rx_data cl w data = Some (errs, w') /\ consumed cl w data errs w'.
Proof. intros. by apply on_rx_data_loop_spec. Qed.

Lemma on_rx_chunks_spec `{!ReadNatural cl} w chunks :
  rx_ready (fst w) -> Forall bytes chunks ->
  exists errs w', on_rx_chunks cl w chunks = Some (errs, w') /\
    consumed cl w (concat chunks) errs w'.
Proof.
  intros Hs Hd. revert w Hs. induction Hd as [|data chunks Hd _ IH]; intros w Hs.
  { exists [], w. split; [done|]. by apply consumed_nil. }
  destruct (on_rx_data_spec w data Hs Hd) as (e1 & w1 & Hrun & Hc). cbn [on_rx_chunks concat].
  destruct (IH w1 ltac:(apply Hc)) as (e2 & w2 & Hrun2 & Hc2).
  rewrite Hrun, Hrun2. do 2 eexists. split; [done|]. by eapply consumed_app.
Qed.

(** The abstract receiver rejects only for a wrong FCS. *)
Lemma receive_errors t mtu s l s' es :
  receive t mtu s l = (s', es) -> Forall (eq TINY_ERR_WRONG_CRC) (errors es).
Proof.
  revert s s' es. induction l as [|b l IH]; intros s s' es; cbn [receive].
  { intros [= <- <-]. constructor. }
  destruct (receive_byte t mtu s b) as [s1 e1] eqn:E1.
  destruct (receive t mtu s1 l) as [s2 e2] eqn:E2. intros [= <- <-].
  rewrite errors_app. apply Forall_app. split; [|by eapply IH].
  revert E1. unfold receive_byte, check_frame.
  destruct s as [|[|]]; repeat case_match; intros [= <- <-]; by repeat constructor.
Qed.

End Stream.

#[export] Instance recording_natural : ReadNatural recording_client.
Proof. by split. Qed.

Lemma fresh_handle_ready t mtu size :
  t <> HDLC_CRC_OFF -> 0 <= mtu <= size -> rx_ready (fresh_handle t mtu size).
Proof.
  intros Ht Hm. split; [|done]. split; cbn; try done; try lia.
  - rewrite length_replicate. lia.
  - apply Forall_replicate. split; [lia|by vm_compute].
Qed.

(** ** Properties *)

(** C32: one call of [hdlc_ll_run_rx] returns: in every state between calls, for
    every input, its loop ends; it reports at most as many processed bytes as it
    was given, at least one when it was given any, and the only error it
    reports is [TINY_ERR_WRONG_CRC] (never [TINY_ERR_DATA_TOO_LARGE]). *)
Theorem hdlc_ll_run_rx_total {U : Type} (cl : ll_client U) (H : ReadNatural cl)
  (h : hdlc_ll_data_t) (u : U) (data : list Z)
  (Hready : rx_ready h) (Hdata : bytes data) :
  exists n e w', run_rx_loop cl (run_rx_fuel data) 0 (h, u) data = Some (n, e, w') /\
    0 <= n <= Z.of_nat (length data) /\ (data <> [] -> 0 < n) /\
    (e = TINY_SUCCESS \/ e = TINY_ERR_WRONG_CRC) /\ rx_ready (fst w').
Proof.
  destruct Hready as [Hi Hs].
  destruct (run_rx_loop_spec cl (run_rx_fuel data) 0 h u data) as (n & e & w' & Hrun & Href);
    [done..|unfold run_rx_fuel; lia|].
  destruct (run_rx_spec cl h u data Hi Hs Hdata) as (n' & e' & w2 & Hrun' & _ & Hn').
  unfold hdlc_ll_run_rx in Hrun'. rewrite Hrun in Hrun'. injection Hrun' as Hnn -> ->.
  assert (n = n') as <- by lia.
  destruct Href as (Hle & Hi' & Hs' & _ & _ & es & Hr & _ & [_ He] & _).
  exists (Z.of_nat n), e', w2. split_and!; try done; try lia.
  - intros Hne. specialize (Hn' Hne). lia.
  - apply receive_errors in Hr. rewrite He in Hr.
    destruct (Z.eqb_spec e' 0); [by left|]. right. by inversion Hr.
Qed.

(** A frame, an escaped byte and garbage, in three pieces. *)
Definition sample_stream : list (list Z) :=
  [[0x55; 0x7E; 1; 0x7D]; [0x5E; 2; 0x7D; 0x5D; 0x74]; []; [0xEB; 0x7E; 0x01; 0x7E; 0x33; 0x7E]].

Lemma hdlc_ll_run_rx_total_witness :
  exists n e w',
    run_rx_loop recording_client 17 0 (fresh_handle HDLC_CRC_16 6 8, sample_recorder)
      (concat sample_stream) = Some (n, e, w') /\
    0 <= n <= 15 /\ (concat sample_stream <> [] -> 0 < n) /\
    (e = TINY_SUCCESS \/ e = TINY_ERR_WRONG_CRC) /\ rx_ready (fst w').
Proof.
  apply (hdlc_ll_run_rx_total recording_client _ (fresh_handle HDLC_CRC_16 6 8) sample_recorder
           (concat sample_stream)).
  - by apply fresh_handle_ready.
  - by apply (bool_decide_eq_true_1 _); vm_compute.
Defined.

(** C14: memory safety of reception.  When the receive buffer holds at least one
    frame of [phys_mtu] bytes, no stream of bytes, however malformed, oversized or
    cut, makes the receiver write outside the buffer, and the invariant that
    ensures it is preserved. *)
Theorem hdlc_ll_rx_memory_safe {U : Type} (cl : ll_client U) (H : ReadNatural cl)
  (h : hdlc_ll_data_t) (u : U) (chunks : list (list Z))
  (Hready : rx_ready h) (Hdata : Forall bytes chunks) :
  exists errs h' u', on_rx_chunks cl (h, u) chunks = Some (errs, (h', u')) /\
    rx_overrun h' = false /\ rx_ready h'.
Proof.
  destruct (on_rx_chunks_spec cl (h, u) chunks Hready Hdata) as (errs & [h' u'] & Hrun & Hr & _).
  exists errs, h', u'. split_and!; [done|apply Hr|done].
Qed.

Lemma hdlc_ll_rx_memory_safe_witness :
  exists errs h' u',
    on_rx_chunks recording_client (fresh_handle HDLC_CRC_16 6 8, sample_recorder) sample_stream =
      Some (errs, (h', u')) /\
    rx_overrun h' = false /\ rx_ready h'.
Proof.
  apply (hdlc_ll_rx_memory_safe recording_client).
  - apply _.
  - by apply fresh_handle_ready.
  - by apply (bool_decide_eq_true_1 _); vm_compute.
Defined.

(** C9: the receiver implements the abstract receiver, whatever the chunks.  A
    stream fed to [hdlc_ll_run_rx] in any pieces is always consumed; the [on_frame_read]
    calls it makes, with their payloads and in order, and the errors it returns are
    those of the byte-at-a-time [receive] on the whole stream, and so is the state
    it ends in. *)
Theorem hdlc_ll_receives_stream {U : Type} (cl : ll_client U) (H : ReadNatural cl)
  (h : hdlc_ll_data_t) (u : U) (chunks : list (list Z))
  (Hready : rx_ready h) (Hdata : Forall bytes chunks) :
  exists errs h' u' es,
    on_rx_chunks cl (h, u) chunks = Some (errs, (h', u')) /\
    receive (crc_type h) (phys_mtu h) (rx_abs h) (concat chunks) = (rx_abs h', es) /\
    client_view (h', u') = deliver cl (client_view (h, u)) es /\
    errs = errors es.
Proof.
  destruct (on_rx_chunks_spec cl (h, u) chunks Hready Hdata)
    as (errs & [h' u'] & Hrun & _ & _ & _ & es & Hr & Hh & <-).
  by exists (errors es), h', u', es.
Qed.

Lemma hdlc_ll_receives_stream_witness :
  exists errs h' u',
    on_rx_chunks recording_client (fresh_handle HDLC_CRC_16 6 8, sample_recorder) sample_stream =
      Some (errs, (h', u')) /\
    rec_read u' = [[1; 0x7E; 2; 0x7D]] /\ errs = [TINY_ERR_WRONG_CRC].
Proof.
  destruct (hdlc_ll_receives_stream recording_client _ (fresh_handle HDLC_CRC_16 6 8)
              sample_recorder sample_stream) as (errs & h' & u' & es & Hrun & Hr & Hh & ->).
  - by apply fresh_handle_ready.
  - by apply (bool_decide_eq_true_1 _); vm_compute.
  - assert (Hes : snd (receive HDLC_CRC_16 6 (rx_abs (fresh_handle HDLC_CRC_16 6 8))
                         (concat sample_stream)) =
                  [Delivered [1; 0x7E; 2; 0x7D]; Rejected TINY_ERR_WRONG_CRC]) by by vm_compute.
    cbn [crc_type phys_mtu fresh_handle] in Hr. rewrite Hr in Hes. cbn [snd] in Hes. subst es.
    exists [TINY_ERR_WRONG_CRC], h', u'. split; [exact Hrun|split; [|reflexivity]].
    apply (f_equal (fun w => rec_read (snd w))) in Hh. exact Hh.
Defined.
