(* ===== verification/HdlcInit.v ===== *)
(** * Initialisation of a framing handle

    [hdlc_ll_init] on a buffer of the size [hdlc_ll_get_buf_size_ex] asks for
    yields, at any alignment, a handle that satisfies the invariants the
    transmitter and the receiver need; with [HDLC_CRC_OFF] it does not. *)

From S2P Require Import Prelude Crc HdlcLL HdlcSpec HdlcTx HdlcRx.

Section Align.

Context (k : Z) (Hk : 0 <= k).
#[local] Abbreviation A := (2 ^ k).

Lemma align_bits : k <= 8 * A.
Proof using Hk. pose proof (Z.pow_gt_lin_r 2 k). lia. Qed.

(** Masking with the negated alignment clears the low bits. *)
Lemma align_buffer_div x :
  0 <= x -> x + A - 1 < 2 ^ (8 * A) -> align_buffer A x = (x + A - 1) / A * A.
Proof using Hk.
  intros Hx Hw. pose proof align_bits as Hb.
  assert (HA : 0 < A) by (apply Z.pow_pos_nonneg; lia).
  unfold align_buffer, uptr. rewrite (Z.mod_small (x + A - 1)) by lia.
  assert ((x + A - 1) / A * A = Z.ldiff (x + A - 1) (Z.ones k)) as ->.
  { by rewrite Z.ldiff_ones_r, Z.shiftl_mul_pow2, Z.shiftr_div_pow2 by lia. }
  replace (A - 1) with (Z.ones k) by (rewrite Z.ones_equiv; lia).
  apply Z.bits_inj'. intros i Hi. rewrite Z.land_spec, Z.ldiff_spec.
  destruct (Z.lt_ge_cases i (8 * A)).
  - rewrite Z.mod_pow2_bits_low, Z.lnot_spec by lia. done.
  - rewrite Z.mod_pow2_bits_high, andb_false_r by lia.
    assert (Hf : fits (8 * A) (x + A - 1)) by (unfold fits; lia).
    apply fits_testbit in Hf as [_ Hf]; [|lia]. by rewrite Hf.
Qed.

Lemma align_buffer_bounds x :
  0 <= x -> x + A - 1 < 2 ^ (8 * A) -> x <= align_buffer A x <= x + A - 1.
Proof using Hk.
  intros Hx Hw. rewrite align_buffer_div by done.
  assert (HA : 0 < A) by (apply Z.pow_pos_nonneg; lia).
  pose proof (Z.mul_div_le (x + A - 1) A HA).
  pose proof (Z.mul_succ_div_gt (x + A - 1) A HA). nia.
Qed.

End Align.

(** A configuration whose buffer is real memory. *)
Record init_ok (align : Z) (init : hdlc_ll_init_t) : Prop := mk_init_ok {
  io_buf : 0 < hi_buf init;
  io_addr : hi_buf init + align - 1 < 2 ^ (8 * align);
  io_mem : hi_buf_size init = Z.of_nat (length (hi_buf_mem init));
  io_bytes : bytes (hi_buf_mem init);
  io_mtu : 0 <= hi_mtu init
}.

Lemma get_crc_field_size_nonneg t : 0 <= get_crc_field_size t.
Proof. by destruct t. Qed.

(** The handle on a buffer whose receive area, after alignment, holds [window] frames. *)
Lemma hdlc_ll_init_spec (align sizeof window : Z) (raw : hdlc_ll_data_t) (init : hdlc_ll_init_t) :
  let off := align_buffer align (hi_buf init) - hi_buf init in
  0 < hi_buf init -> hi_buf_size init = Z.of_nat (length (hi_buf_mem init)) ->
  bytes (hi_buf_mem init) -> 0 <= off -> 0 < sizeof -> 0 < window -> 0 < hi_mtu init ->
  rx_overrun raw = false -> hi_crc_type init <> HDLC_CRC_OFF ->
  (get_crc_field_size (hi_crc_type init) + hi_mtu init) * window + sizeof + off <= hi_buf_size init ->
  exists h, hdlc_ll_init align sizeof raw init = (TINY_SUCCESS, Some h) /\
    rx_ready h /\ rx_state h = RX_READ_START /\ tx_idle h /\ tx_escape h = 0 /\
    crc_type h = hi_crc_type init /\
    phys_mtu h = hi_mtu init + get_crc_field_size (hi_crc_type init) /\
    window * phys_mtu h <= rx_buf_size h.
Proof.
  intros off Hbuf Hmem Hbytes Hoff Hsizeof Hwindow Hmtu Hraw Hcrc Hsize.
  pose proof (get_crc_field_size_nonneg (hi_crc_type init)) as Hfs.
  unfold hdlc_ll_init. destruct (Z.eqb_spec (hi_buf init) 0); [lia|]. fold off.
  assert (Hwin : hi_mtu init + get_crc_field_size (hi_crc_type init) <=
                 (get_crc_field_size (hi_crc_type init) + hi_mtu init) * window) by nia.
  destruct (Z.ltb_spec (hi_buf_size init - off) sizeof); [lia|].
  eexists. split; [reflexivity|]. cbn -[get_crc_field_size Z.mul].
  rewrite bool_decide_eq_false_2 by done.
  assert (nz (hi_mtu init) = true) as -> by (unfold nz; lia).
  split_and!; try done; try lia. split; [|done]. split; cbn -[get_crc_field_size]; try done; try lia.
  - rewrite length_drop. lia.
  - by apply bytes_drop.
Qed.

(** ** Properties *)

(** Initialisation.  For any power-of-two alignment and any position of the
    buffer, a buffer of at least [hdlc_ll_get_buf_size_ex mtu crc window] bytes
    (CRC not off) is accepted; the handle is idle, hunting for a flag, has the
    requested FCS and MTU, its receive buffer holds [window] frames of the
    physical MTU, and the invariants of the transmitter and the receiver hold. *)
Theorem hdlc_ll_init_ready (k sizeof window : Z) (raw : hdlc_ll_data_t) (init : hdlc_ll_init_t)
  (Hk : 0 <= k) (Hsizeof : 0 < sizeof) (Hinit : init_ok (2 ^ k) init)
  (Hraw : rx_overrun raw = false) (Hcrc : hi_crc_type init <> HDLC_CRC_OFF)
  (Hwindow : 0 < window) (Hmtu : 0 < hi_mtu init)
  (Hsize : hdlc_ll_get_buf_size_ex (2 ^ k) sizeof (hi_mtu init) (hi_crc_type init) window
           <= hi_buf_size init) :
  exists h, hdlc_ll_init (2 ^ k) sizeof raw init = (TINY_SUCCESS, Some h) /\
    rx_ready h /\ rx_state h = RX_READ_START /\ tx_idle h /\ tx_escape h = 0 /\
    crc_type h = hi_crc_type init /\
    phys_mtu h = hi_mtu init + get_crc_field_size (hi_crc_type init) /\
    window * phys_mtu h <= rx_buf_size h.
Proof.
  destruct Hinit as [Hbuf Haddr Hmem Hbytes _].
  pose proof (align_buffer_bounds k Hk (hi_buf init) ltac:(lia) ltac:(lia)) as Hal.
  unfold hdlc_ll_get_buf_size_ex in Hsize. apply hdlc_ll_init_spec; try done; lia.
Qed.

(** A buffer of the advertised size at an odd address. *)
Definition sample_init (t : hdlc_crc_t) (mtu size : Z) : hdlc_ll_init_t := {|
  hi_buf := 0x20001; hi_buf_mem := replicate (Z.to_nat size) 0; hi_buf_size := size;
  hi_crc_type := t; hi_mtu := mtu |}.

Lemma hdlc_ll_init_ready_witness :
  exists h, hdlc_ll_init 8 104 (fresh_handle HDLC_CRC_OFF 0 0) (sample_init HDLC_CRC_16 16 147) =
              (TINY_SUCCESS, Some h) /\
    rx_ready h /\ rx_state h = RX_READ_START /\ tx_idle h /\ tx_escape h = 0 /\
    crc_type h = HDLC_CRC_16 /\ phys_mtu h = 18 /\ 2 * phys_mtu h <= rx_buf_size h.
Proof.
  apply (hdlc_ll_init_ready 3 104 2 (fresh_handle HDLC_CRC_OFF 0 0) (sample_init HDLC_CRC_16 16 147));
    try done.
  split; try done. by apply (bool_decide_eq_true_1 _); vm_compute.
Defined.

(** A client that does nothing. *)
Definition null_client : ll_client unit :=
  {| cl_mem _ _ := 0; cl_on_frame_read := None; cl_on_frame_send := None |}.

(** With [HDLC_CRC_OFF] the advertised buffer size is too small.  The handle
    keeps [HDLC_CRC_DEFAULT] instead, whose field counts as four bytes in the physical MTU
    but not in [hdlc_ll_get_buf_size_ex]; a buffer of exactly that size at an
    odd address is accepted, and receiving a long frame then writes behind its end. *)
Theorem hdlc_ll_init_crc_off_overrun :
  exists init h errs h' u',
    init_ok 8 init /\ hi_crc_type init = HDLC_CRC_OFF /\
    hi_buf_size init = hdlc_ll_get_buf_size_ex 8 104 (hi_mtu init) HDLC_CRC_OFF 1 /\
    hdlc_ll_init 8 104 (fresh_handle HDLC_CRC_OFF 0 0) init = (TINY_SUCCESS, Some h) /\
    on_rx_data null_client (h, tt) (FLAG_SEQUENCE :: replicate 20 1) = Some (errs, (h', u')) /\
    rx_overrun h' = true.
Proof.
  exists (sample_init HDLC_CRC_OFF 16 127). do 4 eexists.
  split; [split; try done; by apply (bool_decide_eq_true_1 _); vm_compute|].
  do 2 (split; [done|]). split; [vm_compute; reflexivity|]. split; [vm_compute; reflexivity|done].
Qed.
