(* ===== verification/HdlcLink.v ===== *)
(** * The framed link: transmitter and receiver together

    Consequences of the refinements of HdlcTx.v and HdlcRx.v: what one side
    queues the other delivers, byte for byte; the receiver recovers after any
    garbage; it delivers nothing that is not a well-formed frame; and it rejects
    frames hit on the wire by error bursts the FCS covers, as long as no flag or escape
    character appears or disappears - and not always when one does.  Also: [hdlc_ll_init] on a buffer of
    the advertised size yields a handle that is ready to receive. *)

From S2P Require Import Prelude Crc HdlcLL HdlcSpec HdlcTx HdlcRx.

(** ** Streams of frames *)

Lemma receive_frames t mtu payloads s :
  Forall (fun p => p <> [] /\ Z.of_nat (length p + fcs_size t) <= mtu) payloads ->
  payloads <> [] ->
  s = Hunting \/ (exists esc, s = Receiving [] esc) ->
  receive t mtu s (concat (wire_frame t <$> payloads)) = (Hunting, Delivered <$> payloads).
Proof.
  intros Hp Hne Hs. revert s Hs. induction Hp as [|p ps [Hp Hl] Hps IH]; intros s Hs; [done|].
  cbn [fmap list_fmap concat]. rewrite receive_app, receive_frame_from by done.
  destruct ps as [|p2 ps]; [done|]. rewrite IH by (done || by left). done.
Qed.

(** Bytes without a flag are skipped while hunting. *)
Lemma receive_hunting t mtu l :
  Forall (fun b => b <> FLAG_SEQUENCE) l -> receive t mtu Hunting l = (Hunting, []).
Proof.
  induction 1 as [|b l Hb _ IH]; [done|]. cbn. apply Z.eqb_neq in Hb as ->. by rewrite IH.
Qed.

(** One frame brings a receiver in any state to a frame boundary. *)
Lemma receive_resync t mtu s p :
  p <> [] -> Z.of_nat (length p + fcs_size t) <= mtu ->
  exists s' es, receive t mtu s (wire_frame t p) = (s', es) /\
    (s' = Hunting \/ s' = Receiving [] false).
Proof.
  intros Hp Hl. destruct s as [|[|b acc] esc].
  - rewrite receive_frame_from by (auto || lia). eauto.
  - rewrite receive_frame_from by (eauto || lia). eauto.
  - unfold wire_frame. cbn [receive receive_byte]. rewrite Z.eqb_refl.
    rewrite receive_app, receive_hunting by apply stuff_no_flag. cbn. eauto.
Qed.

(** ** Integrity *)

Lemma check_frame_delivered t acc p : check_frame t acc = Delivered p -> acc = frame_body t p.
Proof.
  unfold check_frame. destruct (Nat.ltb_spec (length acc) (fcs_size t)); [done|].
  destruct (bool_decide _) eqn:E; [|done]. intros [= <-]. apply bool_decide_eq_true in E.
  unfold frame_body. by rewrite <- E, take_drop.
Qed.

(** What the unstuffing of flag-free bytes collects, at most [mtu] of them. *)
Definition unstuff (t : hdlc_crc_t) (mtu : Z) (l : list Z) : list Z :=
  match fst (receive t mtu (Receiving [] false) l) with
  | Receiving acc _ => acc
  | Hunting => []
  end.

Lemma receive_flagless t mtu acc esc l :
  Forall (fun b => b <> FLAG_SEQUENCE) l ->
  exists acc' esc', receive t mtu (Receiving acc esc) l = (Receiving acc' esc', []) /\
    (Z.of_nat (length acc) <= mtu -> Z.of_nat (length acc') <= mtu).
Proof.
  intros Hl. revert acc esc. induction Hl as [|b l Hb _ IH]; intros acc esc; [cbn; eauto|].
  cbn [receive receive_byte]. apply Z.eqb_neq in Hb as ->.
  destruct (b =? TINY_ESCAPE_CHAR); [|destruct (Z.ltb_spec (Z.of_nat (length acc)) mtu)].
  - destruct (IH acc true) as (a & e & -> & Ha). eauto.
  - destruct (IH (acc ++ [if esc then Z.lxor b TINY_ESCAPE_BIT else b]) false)
      as (a & e & -> & Ha). exists a, e. split; [done|]. intros _. apply Ha.
    rewrite length_app. cbn. lia.
  - destruct (IH acc esc) as (a & e & -> & Ha). eauto.
Qed.

(** Split at the first flag. *)
Lemma first_flag l :
  Forall (fun b => b <> FLAG_SEQUENCE) l \/
  exists mid rest, l = mid ++ FLAG_SEQUENCE :: rest /\ Forall (fun b => b <> FLAG_SEQUENCE) mid.
Proof.
  induction l as [|b l IH]; [by left|].
  destruct (decide (b = FLAG_SEQUENCE)) as [->|Hb]; [right; by exists [], l|].
  destruct IH as [IH|(mid & rest & -> & IH)]; [left; by constructor|right].
  exists (b :: mid), rest. split; [done|by constructor].
Qed.

(** A well-formed frame with payload [p] occurs in [l]. *)
Definition frame_within (t : hdlc_crc_t) (mtu : Z) (p l : list Z) : Prop :=
  exists pre mid post,
    l = pre ++ FLAG_SEQUENCE :: mid ++ FLAG_SEQUENCE :: post /\
    Forall (fun b => b <> FLAG_SEQUENCE) mid /\
    unstuff t mtu mid = frame_body t p /\ Z.of_nat (length p + fcs_size t) <= mtu.

Lemma frame_within_app t mtu p k l : frame_within t mtu p l -> frame_within t mtu p (k ++ l).
Proof.
  intros (pre & mid & post & -> & H). exists (k ++ pre), mid, post. by rewrite <- app_assoc.
Qed.

Lemma receive_sound_from t mtu p n l s es :
  0 <= mtu -> (length l < n)%nat -> Delivered p ∈ es ->
  (receive t mtu Hunting l = (s, es) -> frame_within t mtu p l) /\
  (receive t mtu (Receiving [] false) l = (s, es) -> frame_within t mtu p (FLAG_SEQUENCE :: l)).
Proof.
  intros Hmtu. revert l s es. induction n as [|n IH]; intros l s es Hn Hin; [lia|].
  destruct (first_flag l) as [Hl|(mid & rest & -> & Hmid)].
  { rewrite receive_hunting by done.
    destruct (receive_flagless t mtu [] false l Hl) as (acc & esc & -> & _).
    split; intros [= <- <-]; by apply elem_of_nil in Hin. }
  rewrite length_app in Hn. cbn [length] in Hn.
  rewrite !receive_app, receive_hunting by done.
  destruct (receive_flagless t mtu [] false mid Hmid) as (acc & esc & Hacc & Hlen). rewrite Hacc.
  cbn [receive receive_byte]. rewrite Z.eqb_refl. split.
  - destruct (receive t mtu (Receiving [] false) rest) as [s1 e1] eqn:E1. intros [= <- <-].
    apply frame_within_app. eapply (IH rest); [lia|done|done].
  - change (FLAG_SEQUENCE :: mid ++ FLAG_SEQUENCE :: rest)
      with ((FLAG_SEQUENCE :: mid) ++ FLAG_SEQUENCE :: rest).
    destruct acc as [|b acc].
    + destruct (receive t mtu (Receiving [] false) rest) as [s1 e1] eqn:E1. intros [= <- <-].
      apply frame_within_app. eapply (IH rest); [lia|done|done].
    + destruct (receive t mtu Hunting rest) as [s1 e1] eqn:E1. intros [= <- <-].
      apply elem_of_cons in Hin as [Hin|Hin].
      * symmetry in Hin. apply check_frame_delivered in Hin as Hb.
        exists [], mid, rest. split_and!; try done; [unfold unstuff; by rewrite Hacc|].
        rewrite <- frame_body_length, <- Hb. apply Hlen. done.
      * change (FLAG_SEQUENCE :: rest) with ([FLAG_SEQUENCE] ++ rest).
        do 2 apply frame_within_app. eapply (IH rest); [lia|done|done].
Qed.

(** ** Error bursts *)

(** The register of the code of type [t] after a whole frame body. *)
Definition body_register (t : hdlc_crc_t) (l : list Z) : Z :=
  match t with
  | HDLC_CRC_8 => u8 (foldr Z.add 0 l)
  | HDLC_CRC_16 => lfsr_bytes poly_16 PPPINITFCS16 l
  | HDLC_CRC_32 => lfsr_bytes poly_32 PPPINITFCS32 l
  | _ => 0
  end.

(** Its value after a well-formed body. *)
Definition good_register (t : hdlc_crc_t) : Z :=
  match t with
  | HDLC_CRC_8 => 0xFF
  | HDLC_CRC_16 => PPPGOODFCS16
  | HDLC_CRC_32 => PPPGOODFCS32
  | _ => 0
  end.

Lemma chksum_loop_mod s data : u8 (chksum_loop s data) = u8 (s + foldr Z.add 0 data).
Proof.
  revert s. induction data as [|d data IH]; intros s; cbn; [by rewrite Z.add_0_r|].
  rewrite IH. unfold u8, u32. change (2 ^ 32) with (2 ^ 24 * 2 ^ 8).
  rewrite (Z.mul_comm (2 ^ 24)), Z.rem_mul_r by lia.
  rewrite <- Z.add_mod_idemp_l by lia.
  rewrite (Z.mul_comm (2 ^ 8)), Z.mod_add, Z.mod_mod by lia.
  rewrite Z.add_mod_idemp_l by lia. f_equal. lia.
Qed.

Lemma u8_tiny_chksum data :
  u8 (tiny_chksum INITCHECKSUM data) = u8 (0xFF - foldr Z.add 0 data).
Proof.
  assert (Hm : forall z, u8 (u16 z) = u8 z).
  { intros z. unfold u8, u16. change (2 ^ 16) with (2 ^ 8 * 2 ^ 8). rewrite Z.rem_mul_r by lia.
    rewrite (Z.mul_comm (2 ^ 8)), Z.mod_add, Z.mod_mod by lia. done. }
  unfold tiny_chksum. change 0xFFFF with (Z.ones 16). rewrite Z.land_ones, Hm by lia.
  fold (u16 (chksum_loop INITCHECKSUM data)).
  pose proof (chksum_loop_mod INITCHECKSUM data) as H. rewrite <- (Hm (chksum_loop _ _)) in H.
  unfold u8 in *. change (Z.ones 16) with (0xFF + 255 * 2 ^ 8).
  rewrite <- Zminus_mod_idemp_r, H, Zminus_mod_idemp_r.
  replace (0xFF + 255 * 2 ^ 8 - (INITCHECKSUM + foldr Z.add 0 data))
    with (0xFF - foldr Z.add 0 data + 255 * 2 ^ 8) by (unfold INITCHECKSUM; lia).
  by rewrite Z.mod_add.
Qed.

Lemma foldr_add_app l k : foldr Z.add 0 (l ++ k) = foldr Z.add 0 l + foldr Z.add 0 k.
Proof. induction l; cbn; lia. Qed.

Lemma body_register_good t p :
  t <> HDLC_CRC_DEFAULT -> t <> HDLC_CRC_OFF -> bytes p ->
  body_register t (frame_body t p) = good_register t.
Proof.
  intros Ht1 Ht2 Hp. unfold frame_body, fcs_field.
  destruct t; try done; cbn [body_register good_register fcs_size send_fcs].
  - rewrite foldr_add_app. cbn. rewrite u8_tiny_chksum, Z.add_0_r. unfold u8.
    rewrite Z.add_mod_idemp_r by lia. by rewrite Z.add_sub_assoc, Z.add_simpl_l.
  - rewrite tiny_crc16_lfsr by auto with tiny. rewrite lfsr_bytes_app, lfsr_residue; [done| |done].
    apply (lfsr_bytes_fits 16); auto with tiny; lia.
  - rewrite tiny_crc32_lfsr by auto with tiny. rewrite lfsr_bytes_app, lfsr_residue; [done| |done].
    apply (lfsr_bytes_fits 32); auto with tiny; lia.
Qed.

(** A burst no longer than the FCS changes the register. *)
Lemma body_register_burst t pre mid mid' post :
  bytes pre -> bytes mid -> bytes mid' -> bytes post -> length mid = length mid' ->
  (length mid <= fcs_size t)%nat -> mid <> mid' ->
  body_register t (pre ++ mid ++ post) <> body_register t (pre ++ mid' ++ post).
Proof.
  intros Hpre Hm Hm' Hpost Hl Hf Hne.
  assert (H0 : (0 < length mid)%nat) by (destruct mid, mid'; cbn in *; done || lia).
  destruct t; cbn [body_register fcs_size] in *;
    [lia| |apply (lfsr_burst 16); auto with tiny; lia
    |apply (lfsr_burst 32); auto with tiny; lia|lia].
  destruct mid as [|a [|]]; destruct mid' as [|b [|]]; cbn in Hl, Hf; try lia; [done|].
  apply bytes_cons in Hm as [Ha _], Hm' as [Hb _].
  intros E. apply Hne. f_equal. unfold u8 in E. rewrite !foldr_add_app in E. cbn in E.
  apply (f_equal (fun z => (z - (foldr Z.add 0 pre + foldr Z.add 0 post)) mod 2 ^ 8)) in E.
  rewrite !Zminus_mod_idemp_l in E.
  replace (foldr Z.add 0 pre + (a + 0 + foldr Z.add 0 post)
           - (foldr Z.add 0 pre + foldr Z.add 0 post)) with a in E by lia.
  replace (foldr Z.add 0 pre + (b + 0 + foldr Z.add 0 post)
           - (foldr Z.add 0 pre + foldr Z.add 0 post)) with b in E by lia.
  rewrite (Z.mod_small a), (Z.mod_small b) in E by assumption. exact E.
Qed.

Lemma check_frame_burst t p pre mid mid' post :
  t <> HDLC_CRC_OFF -> bytes p -> bytes mid' ->
  frame_body t p = pre ++ mid ++ post -> length mid = length mid' ->
  (length mid <= fcs_size t)%nat -> mid <> mid' ->
  check_frame t (pre ++ mid' ++ post) = Rejected TINY_ERR_WRONG_CRC.
Proof.
  intros Ht Hp Hm' Hbody Hl Hf Hne.
  assert (Ht2 : t <> HDLC_CRC_DEFAULT) by (intros ->; destruct mid, mid'; cbn in *; done || lia).
  assert (Hb : bytes (pre ++ mid ++ post)).
  { rewrite <- Hbody. apply bytes_app. split; [done|apply fcs_field_bytes]. }
  rewrite !bytes_app in Hb. destruct Hb as (? & ? & ?).
  assert (Hb' : bytes (pre ++ mid' ++ post)) by by rewrite !bytes_app.
  destruct (check_frame t (pre ++ mid' ++ post)) as [q|e] eqn:E.
  - apply check_frame_delivered in E. exfalso.
    apply (body_register_burst t pre mid mid' post); try done.
    rewrite <- Hbody, E, !body_register_good; try done.
    rewrite E in Hb'. apply bytes_app in Hb'. apply Hb'.
  - revert E. unfold check_frame. destruct (_ <? _)%nat; [|destruct (bool_decide _)];
      by intros [= <-].
Qed.

(** *** Damage on the wire *)

(** What flag-free bytes are read as, the first of them escaped or not. *)
Fixpoint unescape (esc : bool) (l : list Z) : list Z :=
  match l with
  | [] => []
  | b :: l =>
      if b =? TINY_ESCAPE_CHAR then unescape true l
      else (if esc then Z.lxor b TINY_ESCAPE_BIT else b) :: unescape false l
  end.

(** Whether the byte after them is escaped. *)
Fixpoint escaping (esc : bool) (l : list Z) : bool :=
  match l with [] => esc | b :: l => escaping (b =? TINY_ESCAPE_CHAR) l end.

(** A byte on the wire is damaged, but still a flag, an escape character or neither. *)
Definition same_kind (a b : Z) : Prop :=
  (a =? FLAG_SEQUENCE) = (b =? FLAG_SEQUENCE) /\ (a =? TINY_ESCAPE_CHAR) = (b =? TINY_ESCAPE_CHAR).

Lemma unescape_app esc l k : unescape esc (l ++ k) = unescape esc l ++ unescape (escaping esc l) k.
Proof.
  revert esc. induction l as [|b l IH]; intros esc; [done|]. cbn [app unescape escaping].
  rewrite !IH. by destruct (b =? TINY_ESCAPE_CHAR).
Qed.

Lemma unescape_stuff l : unescape false (stuff l) = l.
Proof.
  induction l as [|b l IH]; [done|]. rewrite stuff_cons. unfold stuff_byte. destruct (special b) eqn:Hs.
  - apply special_spec in Hs as [-> | ->]; cbn [app unescape]; (etrans; [|apply (f_equal (cons _) IH)]); done.
  - apply special_false in Hs as [_ Hs]. cbn [app unescape]. apply Z.eqb_neq in Hs as ->. by rewrite IH.
Qed.

Lemma unescape_length esc l : (length (unescape esc l) <= length l)%nat.
Proof.
  revert esc. induction l as [|b l IH]; intros esc; cbn; [lia|].
  destruct (_ =? _); cbn; [specialize (IH true)|specialize (IH false)]; lia.
Qed.

Lemma unescape_bytes esc l : bytes l -> bytes (unescape esc l).
Proof.
  revert esc. induction l as [|b l IH]; intros esc; [done|]. intros [Hb Hl]%bytes_cons. cbn [unescape].
  destruct (_ =? _); [auto|]. apply bytes_cons. split; [|auto]. destruct esc; [|done]. rewrite <- lxor_escape_bit by done. apply fits_u8.
Qed.

Lemma escaping_same_kind esc l l' : Forall2 same_kind l l' -> escaping esc l = escaping esc l'.
Proof. intros H. revert esc. induction H as [|a b l l' [_ Hk] _ IH]; intros esc; cbn; [done|]. by rewrite Hk. Qed.

(** Damage of that kind is damage to bytes of the body. *)
Lemma unescape_same_kind esc l l' :
  Forall2 same_kind l l' ->
  length (unescape esc l) = length (unescape esc l') /\ (unescape esc l = unescape esc l' -> l = l').
Proof.
  intros H. revert esc. induction H as [|a b l l' [_ Hk] _ IH]; intros esc; [done|]. cbn [unescape].
  rewrite <- Hk. destruct (Z.eqb_spec a TINY_ESCAPE_CHAR) as [->|Ha].
  - symmetry in Hk. apply Z.eqb_eq in Hk as ->. destruct (IH true) as [Hl He]. split; [done|].
    intros E. by rewrite He.
  - destruct (IH false) as [Hl He]. split; [cbn; by rewrite Hl|]. intros [= Eb E]. rewrite He by done. f_equal.
    destruct esc; [|done]. apply (f_equal (fun z => Z.lxor z TINY_ESCAPE_BIT)) in Eb.
    by rewrite !Z.lxor_assoc, Z.lxor_nilpotent, !Z.lxor_0_r in Eb.
Qed.

(** The receiver reads flag-free bytes like that while they fit. *)
Lemma receive_unescape t mtu acc esc l :
  Forall (fun b => b <> FLAG_SEQUENCE) l -> Z.of_nat (length acc + length (unescape esc l)) <= mtu ->
  receive t mtu (Receiving acc esc) l = (Receiving (acc ++ unescape esc l) (escaping esc l), []).
Proof.
  intros Hl. revert acc esc. induction Hl as [|b l Hb _ IH]; intros acc esc; cbn [unescape escaping receive receive_byte].
  { by rewrite app_nil_r. }
  apply Z.eqb_neq in Hb as ->. destruct (b =? TINY_ESCAPE_CHAR) eqn:He; intros Hlen.
  - by rewrite IH.
  - cbn [length] in Hlen. destruct (Z.ltb_spec (Z.of_nat (length acc)) mtu); [|lia].
    rewrite IH by (rewrite length_app; cbn [length]; lia). by rewrite <- app_assoc.
Qed.

(** A damaged body between two flags is rejected. *)
Lemma receive_burst t mtu p pre mid mid' post :
  t <> HDLC_CRC_OFF -> bytes p -> Z.of_nat (length p + fcs_size t) <= mtu ->
  stuff (frame_body t p) = pre ++ mid ++ post -> bytes mid' -> Forall2 same_kind mid mid' -> mid <> mid' ->
  (length mid <= fcs_size t)%nat ->
  receive t mtu Hunting (FLAG_SEQUENCE :: (pre ++ mid' ++ post) ++ [FLAG_SEQUENCE]) =
    (Hunting, [Rejected TINY_ERR_WRONG_CRC]).
Proof.
  intros Ht Hp Hmtu Hw Hm' Hk Hne Hf.
  pose proof (stuff_no_flag (frame_body t p)) as Hflag. rewrite Hw, !Forall_app in Hflag. destruct Hflag as (F1 & F2 & F3).
  assert (F2' : Forall (fun b => b <> FLAG_SEQUENCE) mid').
  { revert F2. clear -Hk. induction Hk as [|a b l l' [Hab _] _ IH]; [done|].
    intros [Ha Hl]%Forall_cons. constructor; [|auto]. by rewrite <- Z.eqb_neq, <- Hab, Z.eqb_neq. }
  pose proof (f_equal (unescape false) Hw) as Hb. rewrite unescape_stuff, !unescape_app in Hb.
  set (e1 := escaping false pre) in *. rewrite (escaping_same_kind e1 mid mid' Hk) in Hb.
  destruct (unescape_same_kind e1 mid mid' Hk) as [Hl Hinj]. pose proof (unescape_length e1 mid) as Hle.
  set (A := unescape false pre) in *. set (P := unescape _ post) in *.
  pose proof (f_equal length Hb) as Hlen. rewrite frame_body_length, !length_app in Hlen.
  assert (Hdam : unescape false (pre ++ mid' ++ post) = A ++ unescape e1 mid' ++ P) by (by rewrite !unescape_app).
  cbn [receive receive_byte]. rewrite Z.eqb_refl, receive_app.
  rewrite receive_unescape; [|by rewrite !Forall_app|rewrite Hdam, !length_app, <- Hl, <- Hlen; exact Hmtu]. rewrite Hdam. cbn [app receive receive_byte].
  rewrite Z.eqb_refl. pose proof (check_frame_burst t p A (unescape e1 mid) (unescape e1 mid') P Ht Hp
    (unescape_bytes _ _ Hm') Hb Hl ltac:(lia) ltac:(auto)) as Hc.
  destruct (A ++ unescape e1 mid' ++ P) as [|x l] eqn:E; [|by rewrite Hc].
  apply (f_equal length) in E. rewrite !length_app in E. cbn in E.
  pose proof (Forall2_length _ _ _ Hk). assert (0 < fcs_size t)%nat by (destruct mid, mid'; cbn in *; done || lia). lia.
Qed.

(** ** Sending a sequence of frames *)

(** Frame after frame: [hdlc_ll_put_frame], then [hdlc_ll_run_tx] calls with the
    given buffer sizes.  A frame is its address, its length and those sizes. *)
Fixpoint send_frames {U} (cl : ll_client U) (w : hdlc_ll_data_t * U) (frames : list (Z * Z * list Z))
  : list Z * (hdlc_ll_data_t * U) :=
  match frames with
  | [] => ([], w)
  | (data, len, lens) :: frames =>
      let '(_, h) := put_frame (fst w) data len in
      let '(out, w) := run_tx_calls cl (h, snd w) lens in
      let '(out', w) := send_frames cl w frames in
      (out ++ out', w)
  end.

(** The callback of the sender leaves the memory of the frames alone. *)
Class MemStable {U} (cl : ll_client U) (on_sent : hdlc_ll_data_t * U -> Z -> Z -> U) : Prop :=
  mem_stable : forall w p l, cl_mem cl (on_sent w p l) = cl_mem cl (snd w).

(** The payload of a frame in the sender's memory. *)
Definition payload {U} (cl : ll_client U) (u : U) (frame : Z * Z * list Z) : list Z :=
  let '(data, len, _) := frame in mem_range (cl_mem cl u) data (Z.to_nat len).

(** A frame that can be queued, with enough room to send all of it. *)
Definition sendable (t : hdlc_crc_t) (frame : Z * Z * list Z) : Prop :=
  let '(data, len, lens) := frame in
  data <> 0 /\ 0 < len /\ Forall (Z.le 0) lens /\
  2 * (len + Z.of_nat (fcs_size t)) + 2 <= room lens.

Lemma stuff_length l : (length (stuff l) <= 2 * length l)%nat.
Proof.
  induction l as [|b l IH]; [done|]. rewrite stuff_cons, length_app. unfold stuff_byte.
  destruct (special b); cbn [length]; lia.
Qed.

Lemma stuff_bytes l : bytes l -> bytes (stuff l).
Proof.
  induction 1 as [|b l Hb _ IH]; [apply bytes_nil|]. rewrite stuff_cons. apply bytes_app.
  split; [|done]. unfold stuff_byte. destruct (special b); repeat (apply bytes_cons; split);
    try done; try apply bytes_nil. apply fits_lxor; [lia|done|]. by vm_compute.
Qed.

Lemma wire_frame_length t p : Z.of_nat (length (wire_frame t p)) <= 2 * Z.of_nat (length p + fcs_size t) + 2.
Proof.
  unfold wire_frame. cbn [length]. rewrite length_app. cbn [length].
  pose proof (stuff_length (frame_body t p)) as H. rewrite frame_body_length in H. lia.
Qed.

Lemma wire_frame_bytes t p : bytes p -> bytes (wire_frame t p).
Proof.
  intros Hp. unfold wire_frame. apply bytes_cons. split; [by vm_compute|]. apply bytes_app.
  split; [|apply bytes_cons; split; [by vm_compute|apply bytes_nil]].
  apply stuff_bytes, bytes_app. split; [done|apply fcs_field_bytes].
Qed.

(** Frames with room are sent whole, one after the other. *)
Lemma send_frames_wire {U} (cl : ll_client U) on_sent `{!SendPassive cl on_sent, !MemStable cl on_sent}
  h u frames :
  tx_idle h -> tx_escape h = 0 -> crc_type h <> HDLC_CRC_OFF ->
  Forall (sendable (crc_type h)) frames ->
  exists h' u', send_frames cl (h, u) frames =
      (concat (wire_frame (crc_type h) <$> (payload cl u <$> frames)), (h', u')) /\
    tx_idle h' /\ cl_mem cl u' = cl_mem cl u.
Proof.
  intros Hi He Hc Hf. revert h u Hi He Hc Hf.
  induction frames as [|[[data len] lens] frames IH]; intros h u Hi He Hc Hf; [by exists h, u|].
  apply Forall_cons in Hf as [(Hd & Hl & Hlens & Hroom) Hf]. destruct Hi as [Hs Ho].
  cbn [send_frames fst snd]. unfold put_frame. rewrite Ho. cbn [nz Z.eqb negb].
  apply Z.eqb_neq in Hd as Hd0. rewrite Hd0.
  assert ((len =? 0) = false) as -> by lia. cbn [orb].
  set (h1 := h <| tx_origin_data := data |> <| tx_data := data |> <| tx_len := len |>).
  set (p := mem_range (cl_mem cl u) data (Z.to_nat len)).
  assert (Hp : tx_pending (cl_mem cl u) h1 = wire_frame (crc_type h) p).
  { unfold tx_pending. cbn. rewrite Hs, Hd0. done. }
  assert (Hlen : Z.of_nat (length (wire_frame (crc_type h) p)) <= room lens).
  { etransitivity; [apply wire_frame_length|]. unfold p. rewrite mem_range_length. lia. }
  destruct (run_tx_calls_outcome cl on_sent len u h1 lens) as (h2 & u2 & Hrun & Hc2 & Hcase);
    [| |done|].
  { unfold tx_inv. cbn. rewrite Hs. auto 10. }
  { by intros [_ ?]. }
  rewrite Hp in *. rewrite Hrun, take_ge by lia.
  destruct Hcase as [(_ & Hi2 & He2 & hs & Hu2)|(? & _)]; [|lia].
  assert (Hmem : cl_mem cl u2 = cl_mem cl u) by by rewrite Hu2, mem_stable.
  assert (Hc3 : crc_type h2 = crc_type h) by done.
  destruct (IH h2 u2) as (h' & u' & Hrest & Hi' & Hm'); [done|done|congruence|by rewrite Hc3|].
  exists h', u'. rewrite Hrest, Hc3. split_and!; [|done|congruence].
  cbn [fmap list_fmap concat]. do 4 f_equal. apply list_fmap_ext. intros _ f _.
  unfold payload. by rewrite Hmem.
Qed.

#[export] Instance recording_mem_stable : MemStable recording_client on_sent_rec.
Proof. done. Qed.

Lemma concat_bytes chunks : bytes (concat chunks) -> Forall bytes chunks.
Proof. induction chunks as [|c cs IH]; cbn; [constructor|]. intros [? ?]%bytes_app. auto. Qed.

Lemma frames_bytes t payloads : Forall bytes payloads -> bytes (concat (wire_frame t <$> payloads)).
Proof.
  induction 1 as [|p ps Hp _ IH]; [apply bytes_nil|]. cbn [fmap list_fmap concat].
  apply bytes_app. split; [|done].
  by apply wire_frame_bytes.
Qed.

Lemma deliver_fmap {U} (cl : ll_client U) w payloads :
  deliver cl w (Delivered <$> payloads) = foldl (call_frame_read cl) w payloads.
Proof. revert w. induction payloads as [|p ps IH]; intros w; [done|]. apply IH. Qed.

Lemma errors_delivered payloads : errors (Delivered <$> payloads) = [].
Proof. by induction payloads. Qed.

Lemma rx_abs_start h : rx_state h = RX_READ_START -> rx_abs h = Hunting.
Proof. unfold rx_abs. by intros ->. Qed.

(** ** Properties *)

(** C6: round trip.  Frames queued one after the other on an idle handle, sent
    through buffers of any sizes and received in pieces of any sizes by a
    handle with the same FCS and a sufficient MTU, reach the receiver's
    [on_frame_read] exactly once each, in order and byte for byte, with no error. *)
Theorem hdlc_ll_link_roundtrip {U V : Type} (cl1 : ll_client U) (cl2 : ll_client V)
  (on_sent : hdlc_ll_data_t * U -> Z -> Z -> U)
  (H1 : SendPassive cl1 on_sent) (H2 : MemStable cl1 on_sent) (H3 : ReadNatural cl2)
  (h1 h2 : hdlc_ll_data_t) (u : U) (v : V) (frames : list (Z * Z * list Z)) (chunks : list (list Z))
  (Htx : tx_idle h1 /\ tx_escape h1 = 0 /\ crc_type h1 <> HDLC_CRC_OFF)
  (Hf : Forall (sendable (crc_type h1)) frames)
  (Hb : Forall bytes (payload cl1 u <$> frames))
  (Hrx : rx_ready h2 /\ rx_state h2 = RX_READ_START /\ crc_type h2 = crc_type h1)
  (Hmtu : Forall (fun f => Z.of_nat (length (payload cl1 u f) + fcs_size (crc_type h1)) <= phys_mtu h2)
            frames)
  (Hchunks : concat chunks = fst (send_frames cl1 (h1, u) frames)) :
  exists h2' v', on_rx_chunks cl2 (h2, v) chunks = Some ([], (h2', v')) /\
    client_view (h2', v') =
      foldl (call_frame_read cl2) (client_view (h2, v)) (payload cl1 u <$> frames).
Proof.
  destruct Htx as (Hi & He & Hc), Hrx as (Hr & Hs & Hcc).
  destruct (send_frames_wire cl1 on_sent h1 u frames Hi He Hc Hf) as (h1' & u' & Hsend & _ & _).
  rewrite Hsend in Hchunks. cbn [fst] in Hchunks.
  destruct (on_rx_chunks_spec cl2 (h2, v) chunks Hr) as (errs & [h2' v'] & Hrun & _ & _ & _ & es & Hes & Hh & <-).
  { apply concat_bytes. rewrite Hchunks. by apply frames_bytes. }
  exists h2', v'. cbn [fst] in Hes. rewrite Hchunks, Hcc, (rx_abs_start _ Hs) in Hes.
  assert (es = Delivered <$> (payload cl1 u <$> frames)) as ->.
  { destruct (decide (frames = [])) as [->|Hne]; [by injection Hes as _ <-|].
    rewrite receive_frames in Hes; [by injection Hes as _ <-| |by destruct frames|by left].
    apply Forall_fmap, Forall_forall. intros f Hin.
    rewrite Forall_forall in Hmtu, Hf. split; [|by apply Hmtu].
    specialize (Hf f Hin). destruct f as [[d l] ls]. destruct Hf as (_ & Hl & _).
    unfold compose, payload. destruct (Z.to_nat l) eqn:?; [lia|done]. }
  rewrite Hrun, errors_delivered. split; [done|]. by rewrite <- deliver_fmap.
Qed.

Lemma hdlc_ll_link_roundtrip_witness :
  exists h2' v',
    on_rx_chunks recording_client (fresh_handle HDLC_CRC_16 6 8, sample_recorder)
      [[0x7E; 1]; [0x7D; 0x5E; 2; 0x7D; 0x5D; 0x74]; [0xEB; 0x7E; 0x7E; 2; 0x7D]; [0x5D; 0x95; 0x94; 0x7E]]
      = Some ([], (h2', v')) /\
    rec_read v' = [[1; 0x7E; 2; 0x7D]; [2; 0x7D]].
Proof.
  destruct (hdlc_ll_link_roundtrip recording_client recording_client on_sent_rec _ _ _
    (fresh_handle HDLC_CRC_16 6 8) (fresh_handle HDLC_CRC_16 6 8) sample_recorder sample_recorder
    [(1, 4, [3; 20]); (3, 2, [1; 1; 1; 9])]
    [[0x7E; 1]; [0x7D; 0x5E; 2; 0x7D; 0x5D; 0x74]; [0xEB; 0x7E; 0x7E; 2; 0x7D]; [0x5D; 0x95; 0x94; 0x7E]])
    as (h & v & Hrun & Hv).
  - by split_and!.
  - repeat constructor; by vm_compute.
  - by apply (bool_decide_eq_true_1 _); vm_compute.
  - split_and!; [by apply fresh_handle_ready|done|done].
  - repeat constructor; by vm_compute.
  - vm_compute. reflexivity.
  - exists h, v. split; [exact Hrun|].
    apply (f_equal (fun w => rec_read (snd w))) in Hv. exact Hv.
Defined.

(** C28: resynchronisation.  Whatever bytes a receiver has read before, of two
    frames that then arrive back to back the second one is delivered, as the last
    thing that happens, and the receiver is at a frame boundary. *)
Theorem hdlc_ll_resync {U : Type} (cl : ll_client U) (H : ReadNatural cl)
  (h : hdlc_ll_data_t) (u : U) (garbage : list Z) (p1 p2 : list Z) (chunks : list (list Z))
  (Hready : rx_ready h) (Hg : bytes garbage) (Hp : bytes p1 /\ bytes p2)
  (Hne : p1 <> [] /\ p2 <> [])
  (Hmtu : Z.of_nat (length p1 + fcs_size (crc_type h)) <= phys_mtu h /\
          Z.of_nat (length p2 + fcs_size (crc_type h)) <= phys_mtu h)
  (Hchunks : concat chunks =
     garbage ++ wire_frame (crc_type h) p1 ++ wire_frame (crc_type h) p2) :
  exists errs h' u' es,
    on_rx_chunks cl (h, u) chunks = Some (errs, (h', u')) /\
    client_view (h', u') = deliver cl (client_view (h, u)) (es ++ [Delivered p2]) /\
    rx_abs h' = Hunting.
Proof.
  destruct Hp as [Hp1 Hp2], Hne as [Hn1 Hn2], Hmtu as [Hm1 Hm2].
  destruct (on_rx_chunks_spec cl (h, u) chunks Hready)
    as (errs & [h' u'] & Hrun & _ & _ & _ & es & Hes & Hh & _).
  { apply concat_bytes. rewrite Hchunks, !bytes_app.
    split_and!; [done|by apply wire_frame_bytes..]. }
  cbn [fst] in Hes. rewrite Hchunks, receive_app in Hes.
  destruct (receive (crc_type h) (phys_mtu h) (rx_abs h) garbage) as [s0 e0] eqn:E0.
  rewrite receive_app in Hes.
  destruct (receive_resync (crc_type h) (phys_mtu h) s0 p1 Hn1 Hm1) as (s1 & e1 & Hr1 & Hs1).
  rewrite Hr1, receive_frame_from in Hes; [|done|done|destruct Hs1; eauto].
  injection Hes as Ha <-. exists errs, h', u', (e0 ++ e1). rewrite <- app_assoc. done.
Qed.

Lemma hdlc_ll_resync_witness :
  exists errs h' u' es,
    on_rx_chunks recording_client (fresh_handle HDLC_CRC_8 6 8, sample_recorder)
      [[0x7E; 0x11; 0x22; 0x33] ++ wire_frame HDLC_CRC_8 [7]; wire_frame HDLC_CRC_8 [8; 9]] =
      Some (errs, (h', u')) /\
    client_view (h', u') =
      deliver recording_client (client_view (fresh_handle HDLC_CRC_8 6 8, sample_recorder))
        (es ++ [Delivered [8; 9]]) /\
    rx_abs h' = Hunting.
Proof.
  apply (hdlc_ll_resync recording_client _ (fresh_handle HDLC_CRC_8 6 8) sample_recorder
           [0x7E; 0x11; 0x22; 0x33] [7] [8; 9]).
  - by apply fresh_handle_ready.
  - by apply (bool_decide_eq_true_1 _); vm_compute.
  - split; by apply (bool_decide_eq_true_1 _); vm_compute.
  - done.
  - split; by vm_compute.
  - by vm_compute.
Defined.

(** C23: nothing is made up.  Every payload the receiver hands to [on_frame_read]
    was on the wire as a frame: between two flags, flag-free, unstuffing to the
    payload followed by its own correct FCS, and no longer than the MTU. *)
Theorem hdlc_ll_delivers_only_frames {U : Type} (cl : ll_client U) (H : ReadNatural cl)
  (h : hdlc_ll_data_t) (u : U) (chunks : list (list Z))
  (Hready : rx_ready h) (Hstart : rx_state h = RX_READ_START) (Hdata : Forall bytes chunks) :
  exists errs h' u' es,
    on_rx_chunks cl (h, u) chunks = Some (errs, (h', u')) /\
    client_view (h', u') = deliver cl (client_view (h, u)) es /\
    forall p, Delivered p ∈ es -> frame_within (crc_type h) (phys_mtu h) p (concat chunks).
Proof.
  destruct (on_rx_chunks_spec cl (h, u) chunks Hready Hdata)
    as (errs & [h' u'] & Hrun & _ & _ & _ & es & Hes & Hh & _).
  cbn [fst] in Hes. rewrite rx_abs_start in Hes by done.
  exists errs, h', u', es. split_and!; [done..|]. intros p Hin.
  eapply (receive_sound_from _ _ p (S (length (concat chunks)))); [|lia|done|done].
  apply Hready.
Qed.

Lemma hdlc_ll_delivers_only_frames_witness :
  exists errs h' u' es,
    on_rx_chunks recording_client (fresh_handle HDLC_CRC_16 6 8, sample_recorder) sample_stream =
      Some (errs, (h', u')) /\
    client_view (h', u') =
      deliver recording_client (client_view (fresh_handle HDLC_CRC_16 6 8, sample_recorder)) es /\
    forall p, Delivered p ∈ es -> frame_within HDLC_CRC_16 6 p (concat sample_stream).
Proof.
  apply (hdlc_ll_delivers_only_frames recording_client _ (fresh_handle HDLC_CRC_16 6 8)).
  - by apply fresh_handle_ready.
  - done.
  - by apply (bool_decide_eq_true_1 _); vm_compute.
Defined.

(** C29: error detection.  Between the flags of a frame on the wire, an error burst hits some
    adjacent bytes, no more than the FCS has (1, 2 or 4), and changes any of their bits, except that no
    flag or escape character appears or disappears ([hdlc_ll_burst_makes_flag] shows why).  However the
    bytes arrive, a receiver that waits for a frame and has room for it calls
    nothing back, reports exactly one [TINY_ERR_WRONG_CRC], and is at a frame boundary. *)
Theorem hdlc_ll_rejects_bursts {U : Type} (cl : ll_client U) (H : ReadNatural cl)
  (h : hdlc_ll_data_t) (u : U) (p pre mid mid' post : list Z) (chunks : list (list Z))
  (Hready : rx_ready h) (Hstart : rx_state h = RX_READ_START)
  (Hp : bytes p) (Hmtu : Z.of_nat (length p + fcs_size (crc_type h)) <= phys_mtu h)
  (Hwire : wire_frame (crc_type h) p = FLAG_SEQUENCE :: (pre ++ mid ++ post) ++ [FLAG_SEQUENCE])
  (Hburst : bytes mid' /\ Forall2 same_kind mid mid' /\ mid <> mid' /\ (length mid <= fcs_size (crc_type h))%nat)
  (Hchunks : concat chunks = FLAG_SEQUENCE :: (pre ++ mid' ++ post) ++ [FLAG_SEQUENCE]) :
  exists h' u', on_rx_chunks cl (h, u) chunks = Some ([TINY_ERR_WRONG_CRC], (h', u')) /\
    client_view (h', u') = client_view (h, u) /\ rx_abs h' = Hunting.
Proof.
  destruct Hburst as (Hm' & Hk & Hne & Hf). unfold wire_frame in Hwire. injection Hwire as Hwire.
  apply app_inj_2 in Hwire as [Hwire _]; [|done].
  assert (Hb : bytes (pre ++ mid ++ post)).
  { rewrite <- Hwire. apply stuff_bytes, bytes_app. split; [done|apply fcs_field_bytes]. }
  rewrite !bytes_app in Hb. destruct Hb as (Hb1 & _ & Hb3).
  destruct (on_rx_chunks_spec cl (h, u) chunks Hready)
    as (errs & [h' u'] & Hrun & _ & _ & _ & es & Hes & Hh & <-).
  { apply concat_bytes. rewrite Hchunks. apply bytes_cons. split; [by vm_compute|].
    rewrite !bytes_app. split_and!; [done..|]. apply bytes_cons. split; [by vm_compute|apply bytes_nil]. }
  cbn [fst] in Hes. rewrite Hchunks, rx_abs_start in Hes by done.
  rewrite (receive_burst _ _ p pre mid mid' post) in Hes; try done; [|apply Hready]. injection Hes as Ha <-.
  exists h', u'. done.
Qed.

(** Of the payload [1; 2; 0x7E; 4] the escaped byte and the one before it are hit. *)
Lemma hdlc_ll_rejects_bursts_witness :
  exists h' u',
    on_rx_chunks recording_client (fresh_handle HDLC_CRC_16 6 8, sample_recorder)
      [[0x7E; 1; 2; 0x7D]; [0x41; 0xFF; 0x2D; 0x79; 0x7E]] =
      Some ([TINY_ERR_WRONG_CRC], (h', u')) /\
    client_view (h', u') = client_view (fresh_handle HDLC_CRC_16 6 8, sample_recorder) /\
    rx_abs h' = Hunting.
Proof.
  apply (hdlc_ll_rejects_bursts recording_client _ (fresh_handle HDLC_CRC_16 6 8) sample_recorder
           [1; 2; 0x7E; 4] [1; 2; 0x7D] [0x5E; 4] [0x41; 0xFF] (stuff (fcs_field HDLC_CRC_16 [1; 2; 0x7E; 4]))).
  - by apply fresh_handle_ready.
  - done.
  - by apply (bool_decide_eq_true_1 _); vm_compute.
  - by vm_compute.
  - by vm_compute.
  - split_and!; [by apply (bool_decide_eq_true_1 _); vm_compute| |done|by vm_compute].
    by repeat constructor.
  - vm_compute. reflexivity.
Defined.

(** Damage that makes a flag cuts the frame in two, and one byte is then enough to have a payload
    delivered that was never sent: here [1; 2; 3; 0x3B; 0x9D; 9; 9] is, its sixth byte is read as a
    flag, and what is before it ends with its own FCS. *)
Lemma hdlc_ll_burst_makes_flag :
  wire_frame HDLC_CRC_16 [1; 2; 3; 0x3B; 0x9D; 9; 9] = [0x7E; 1; 2; 3; 0x3B; 0x9D; 9; 9; 7; 0xB6; 0x7E] /\
  match on_rx_chunks recording_client (fresh_handle HDLC_CRC_16 16 16, sample_recorder)
          [[0x7E; 1; 2; 3; 0x3B; 0x9D; 0x7E; 9; 7; 0xB6; 0x7E]] with
  | Some (errs, (_, u)) => errs = [] /\ rec_read u = [[1; 2; 3]]
  | None => False
  end.
Proof. by vm_compute. Qed.
