(* ===== verification/FdTypes.v ===== *)
(** * The full-duplex protocol: data (src/proto/fd)

    The structures of tiny_fd_int.h, tiny_fd_frames_int.h,
    tiny_fd_frames_queue_int.h and tiny_fd_i_queue_control_int.h, the constants
    of tiny_fd_defines_int.h, and the platform services the protocol uses
    (events, the mutex, the millisecond clock).

    - A [tiny_fd_frame_info_t *] is the index of a slot in its queue; a pointer
      to a frame header (what the framing layer gets and gives back) is the
      address [fi_addr] of that slot's header.
    - [tiny_fd_peer_info_t *] is an index into [fd_peers].
    - The callbacks of the application are functions on the whole world: they
      may call the functions of the protocol that queue data.  They run with
      the mutex released.
    - [tiny_millis] reads an arbitrary clock, one value per call. *)

From S2P Require Import Prelude.

(** ** Constants *)

Definition TINY_FD_PRIMARY_ADDR : Z := 0.
Definition TINY_FD_MODE_ABM : Z := 0.
Definition TINY_FD_MODE_NRM : Z := 1.
Definition TINY_FD_MODE_ARM : Z := 2.

Definition TINY_FD_U_QUEUE_MAX_SIZE : Z := 4.

Definition FD_EVENT_TX_SENDING : Z := 0x01.
Definition FD_EVENT_TX_DATA_AVAILABLE : Z := 0x02.
Definition FD_EVENT_QUEUE_HAS_FREE_SLOTS : Z := 0x04.
Definition FD_EVENT_CAN_ACCEPT_I_FRAMES : Z := 0x08.
Definition FD_EVENT_HAS_MARKER : Z := 0x10.

Definition HDLC_I_FRAME_BITS : Z := 0x00.
Definition HDLC_I_FRAME_MASK : Z := 0x01.
Definition HDLC_S_FRAME_BITS : Z := 0x01.
Definition HDLC_S_FRAME_MASK : Z := 0x03.
Definition HDLC_S_FRAME_TYPE_REJ : Z := 0x08.
Definition HDLC_S_FRAME_TYPE_RR : Z := 0x00.
Definition HDLC_S_FRAME_TYPE_RNR : Z := 0x04.
Definition HDLC_S_FRAME_TYPE_SREJ : Z := 0x0C.
Definition HDLC_S_FRAME_TYPE_MASK : Z := 0x0C.
Definition HDLC_U_FRAME_BITS : Z := 0x03.
Definition HDLC_U_FRAME_MASK : Z := 0x03.
Definition HDLC_U_FRAME_TYPE_UA : Z := 0x60.
Definition HDLC_U_FRAME_TYPE_DM : Z := 0x0C.
Definition HDLC_U_FRAME_TYPE_FRMR : Z := 0x84.
Definition HDLC_U_FRAME_TYPE_RSET : Z := 0x8C.
Definition HDLC_U_FRAME_TYPE_SABM : Z := 0x2C.
Definition HDLC_U_FRAME_TYPE_SNRM : Z := 0x80.
Definition HDLC_U_FRAME_TYPE_DISC : Z := 0x40.
Definition HDLC_U_FRAME_TYPE_UI : Z := 0x00.
Definition HDLC_U_FRAME_TYPE_MASK : Z := 0xEC.
Definition HDLC_P_BIT : Z := 0x10.
Definition HDLC_F_BIT : Z := 0x10.
Definition HDLC_CR_BIT : Z := 0x02.
Definition HDLC_E_BIT : Z := 0x01.
Definition HDLC_PRIMARY_ADDR : Z := Z.shiftl TINY_FD_PRIMARY_ADDR 2.
Definition HDLC_INVALID_PEER_INDEX : Z := 0xFF.
Definition seq_bits_mask : Z := 0x07.

(** [tiny_fd_queue_type_t] *)
Definition TINY_FD_QUEUE_FREE : Z := 0x01.
Definition TINY_FD_QUEUE_U_FRAME : Z := 0x02.
Definition TINY_FD_QUEUE_S_FRAME : Z := 0x04.
Definition TINY_FD_QUEUE_I_FRAME : Z := 0x08.

Definition EVENT_BITS_ALL : Z := 0xFF.
Definition EVENT_BITS_CLEAR : Z := 1.
Definition EVENT_BITS_LEAVE : Z := 0.

(** ** Frames and queues *)

(** [tiny_frame_header_t] *)
Record tiny_frame_header_t : Type := mk_frame_header {
  fh_address : Z;
  fh_control : Z
}.

(** [tiny_fd_frame_info_t]; [fi_payload] is the whole payload area of the slot. *)
Record tiny_fd_frame_info_t : Type := mk_frame_info {
  fi_addr : Z;
  fi_type : Z;
  fi_len : Z;
  fi_address : Z;
  fi_control : Z;
  fi_payload : list Z
}.

#[export] Instance eta_frame_info : Eta tiny_fd_frame_info_t := fun f =>
  mk_frame_info (fi_addr f) (fi_type f) (fi_len f) (fi_address f) (fi_control f) (fi_payload f).

(** [tiny_fd_queue_t]: the slots the pointer table refers to, in its order. *)
Record tiny_fd_queue_t : Type := mk_queue {
  q_frames : list tiny_fd_frame_info_t;
  q_lookup_index : Z;
  q_mtu : Z
}.

#[export] Instance eta_queue : Eta tiny_fd_queue_t := fun q =>
  mk_queue (q_frames q) (q_lookup_index q) (q_mtu q).

(** [queue->size] *)
Definition q_size (q : tiny_fd_queue_t) : Z := Z.of_nat (length (q_frames q)).

(** ** Window control *)

(** [i_queue_control_t] with its [tx_state] and [rx_state] *)
Record i_queue_control_t : Type := mk_i_queue_control {
  last_ns : Z;
  confirm_ns : Z;
  next_ns : Z;
  next_nr : Z
}.

#[export] Instance eta_i_queue_control : Eta i_queue_control_t := fun c =>
  mk_i_queue_control (last_ns c) (confirm_ns c) (next_ns c) (next_nr c).

(** ** Peers *)

Inductive tiny_fd_state_t : Type :=
| TINY_FD_STATE_IDLE
| TINY_FD_STATE_DISCONNECTED
| TINY_FD_STATE_CONNECTING
| TINY_FD_STATE_CONNECTED
| TINY_FD_STATE_DISCONNECTING.

#[export] Instance tiny_fd_state_eq_dec : EqDecision tiny_fd_state_t.
Proof. solve_decision. Defined.

Record tiny_fd_peer_info_t : Type := mk_peer_info {
  pi_state : tiny_fd_state_t;
  pi_addr : Z;
  pi_sent_nr : Z;
  pi_sent_reject : Z;
  pi_srej_req_mask : Z;
  pi_i_queue_control : i_queue_control_t;
  pi_last_sent_i_ts : Z;
  pi_last_sent_frame_ts : Z;
  pi_last_received_frame_ts : Z;
  pi_ka_confirmed : Z;
  pi_retries : Z;
  pi_events : Z
}.

#[export] Instance eta_peer_info : Eta tiny_fd_peer_info_t := fun p =>
  mk_peer_info (pi_state p) (pi_addr p) (pi_sent_nr p) (pi_sent_reject p) (pi_srej_req_mask p)
    (pi_i_queue_control p) (pi_last_sent_i_ts p) (pi_last_sent_frame_ts p)
    (pi_last_received_frame_ts p) (pi_ka_confirmed p) (pi_retries p) (pi_events p).

(** What [memset] leaves in a peer. *)
Definition zero_peer : tiny_fd_peer_info_t :=
  mk_peer_info TINY_FD_STATE_IDLE 0 0 0 0 (mk_i_queue_control 0 0 0 0) 0 0 0 0 0 0.

(** ** The protocol *)

(** [tiny_fd_data_t] without the callbacks, the user data and the framing
    handle.  [fd_mutex] is the state of [frames.mutex]; [fd_mutex_misuse] records
    a lock of the locked mutex (a deadlock) or an unlock of the unlocked one. *)
Record tiny_fd_data_t : Type := mk_fd {
  fd_send_timeout : Z;
  fd_retry_timeout : Z;
  fd_ka_timeout : Z;
  fd_retries : Z;
  fd_i_queue : tiny_fd_queue_t;
  fd_s_queue : tiny_fd_queue_t;
  fd_mutex : bool;
  fd_mutex_misuse : bool;
  fd_peers_count : Z;
  fd_peers : list tiny_fd_peer_info_t;
  fd_addr : Z;
  fd_next_peer : Z;
  fd_last_marker_ts : Z;
  fd_mode : Z;
  fd_events : Z
}.

#[export] Instance eta_fd : Eta tiny_fd_data_t := fun h =>
  mk_fd (fd_send_timeout h) (fd_retry_timeout h) (fd_ka_timeout h) (fd_retries h) (fd_i_queue h)
    (fd_s_queue h) (fd_mutex h) (fd_mutex_misuse h) (fd_peers_count h) (fd_peers h) (fd_addr h)
    (fd_next_peer h) (fd_last_marker_ts h) (fd_mode h) (fd_events h).

(** A peer without an address, for an index out of range. *)
Definition no_peer : tiny_fd_peer_info_t := zero_peer <| pi_addr := HDLC_INVALID_PEER_INDEX |>.

(** [handle->peers[peer]] *)
Definition peer_at (h : tiny_fd_data_t) (peer : Z) : tiny_fd_peer_info_t :=
  nth (Z.to_nat peer) (fd_peers h) no_peer.

(** An assignment to fields of [handle->peers[peer]]. *)
Definition upd_peer (peer : Z) (f : tiny_fd_peer_info_t -> tiny_fd_peer_info_t)
  (h : tiny_fd_data_t) : tiny_fd_data_t :=
  h <| fd_peers ::= alter f (Z.to_nat peer) |>.

(** An assignment to [handle->peers[peer].i_queue_control]. *)
Definition upd_control (peer : Z) (f : i_queue_control_t -> i_queue_control_t) :=
  upd_peer peer (fun p => p <| pi_i_queue_control ::= f |>).

Definition control_at (h : tiny_fd_data_t) (peer : Z) : i_queue_control_t :=
  pi_i_queue_control (peer_at h peer).

(** ** The world of a station *)

(** The protocol, the number of clock readings so far, and the application. *)
Record fd_world (US : Type) : Type := mk_fd_world {
  handle : tiny_fd_data_t;
  clock : nat;
  user : US
}.
Arguments mk_fd_world {US}.
Arguments handle {US}.
Arguments clock {US}.
Arguments user {US}.

#[export] Instance eta_fd_world {US} : Eta (fd_world US) := fun w =>
  mk_fd_world (handle w) (clock w) (user w).

(** Frame directions, types and subtypes of the log callback. *)
Inductive tiny_fd_frame_direction_t : Type :=
| TINY_FD_FRAME_DIRECTION_IN
| TINY_FD_FRAME_DIRECTION_OUT.

Inductive tiny_fd_frame_type_t : Type :=
| TINY_FD_FRAME_TYPE_I
| TINY_FD_FRAME_TYPE_S
| TINY_FD_FRAME_TYPE_U.

(** The application's callbacks.  The second argument is the address of the
    peer station. *)
Record fd_callbacks (US : Type) : Type := mk_fd_callbacks {
  on_read_cb : option (fd_world US -> Z -> list Z -> fd_world US);
  on_send_cb : option (fd_world US -> Z -> list Z -> fd_world US);
  on_read_ui_cb : option (fd_world US -> Z -> list Z -> fd_world US);
  on_connect_event_cb : option (fd_world US -> Z -> bool -> fd_world US);
  log_frame_cb : option (fd_world US -> tiny_fd_frame_direction_t -> tiny_fd_frame_type_t ->
                         Z -> Z -> Z -> list Z -> fd_world US)
}.
Arguments on_read_cb {US}.
Arguments on_send_cb {US}.
Arguments on_read_ui_cb {US}.
Arguments on_connect_event_cb {US}.
Arguments log_frame_cb {US}.

(** ** Platform services *)

Definition tiny_mutex_lock (h : tiny_fd_data_t) : tiny_fd_data_t :=
  if fd_mutex h then h <| fd_mutex_misuse := true |> else h <| fd_mutex := true |>.

Definition tiny_mutex_unlock (h : tiny_fd_data_t) : tiny_fd_data_t :=
  if fd_mutex h then h <| fd_mutex := false |> else h <| fd_mutex_misuse := true |>.

(** Bits of an event group (8 bits). *)
Definition events_set (bits events : Z) : Z := Z.lor events bits.
Definition events_clear (bits events : Z) : Z := Z.land events (Z.lxor bits EVENT_BITS_ALL).

(** [tiny_events_set( &handle->events, bits )] and the like. *)
Definition fd_events_set (bits : Z) (h : tiny_fd_data_t) : tiny_fd_data_t :=
  h <| fd_events ::= events_set bits |>.
Definition fd_events_clear (bits : Z) (h : tiny_fd_data_t) : tiny_fd_data_t :=
  h <| fd_events ::= events_clear bits |>.
Definition peer_events_set (peer bits : Z) : tiny_fd_data_t -> tiny_fd_data_t :=
  upd_peer peer (fun p => p <| pi_events ::= events_set bits |>).
Definition peer_events_clear (peer bits : Z) : tiny_fd_data_t -> tiny_fd_data_t :=
  upd_peer peer (fun p => p <| pi_events ::= events_clear bits |>).

Section World.

Context {US : Type}.

(** The clock: the value of each call of [tiny_millis]. *)
Context (millis : nat -> Z).

Definition tiny_millis (w : fd_world US) : Z * fd_world US :=
  (u32 (millis (clock w)), w <| clock ::= S |>).

(** What the rest of the system does while a thread is blocked: it gets the
    timeout and the world. *)
Context (others : Z -> fd_world US -> fd_world US).

(** One look at the event group [get]/[put]: the bits when one of [bits] is set
    (they are then cleared if [clear]), otherwise 0. *)
Definition tiny_events_poll (get : tiny_fd_data_t -> Z) (put : Z -> tiny_fd_data_t -> tiny_fd_data_t)
  (bits clear : Z) (w : fd_world US) : Z * fd_world US :=
  let locked := get (handle w) in
  if nz (Z.land locked bits)
  then (locked, if nz clear then w <| handle ::= put (events_clear bits locked) |> else w)
  else (0, w).

(** [tiny_events_wait]: the bits when one of [bits] is set, otherwise 0 after
    [timeout].  A thread that has to wait lets the others run, then looks again. *)
Definition tiny_events_wait (get : tiny_fd_data_t -> Z) (put : Z -> tiny_fd_data_t -> tiny_fd_data_t)
  (bits clear timeout : Z) (w : fd_world US) : Z * fd_world US :=
  let '(locked, w1) := tiny_events_poll get put bits clear w in
  if nz locked then (locked, w1)
  else if timeout =? 0 then (0, w)
  else tiny_events_poll get put bits clear (others timeout w).

(** On [handle->events] and on [handle->peers[peer].events]. *)
Definition fd_events_wait : Z -> Z -> Z -> fd_world US -> Z * fd_world US :=
  tiny_events_wait fd_events (fun v h => h <| fd_events := v |>).

Definition peer_events_wait (peer : Z) : Z -> Z -> Z -> fd_world US -> Z * fd_world US :=
  tiny_events_wait (fun h => pi_events (peer_at h peer))
    (fun v => upd_peer peer (fun p => p <| pi_events := v |>)).

End World.
