(* ===== verification/FdQueue.v ===== *)
(** * The frame queues (src/proto/fd/tiny_fd_frames_queue.c)

    A queue is a table of slots, each free or holding one frame; a search starts
    at [q_lookup_index] and wraps around.  After the operations: what a search
    returns, that allocation and release touch exactly one slot, and the
    invariant of a queue. *)

From S2P Require Import Prelude FdTypes.

(** ** Operations *)

(** What the search compares with: an unused slot. *)
Definition null_slot : tiny_fd_frame_info_t := mk_frame_info 0 0 0 0 0 [].

Definition slot_at (q : tiny_fd_queue_t) (i : Z) : tiny_fd_frame_info_t :=
  nth (Z.to_nat i) (q_frames q) null_slot.

(** An assignment to fields of the slot a pointer refers to. *)
Definition upd_slot (i : nat) (f : tiny_fd_frame_info_t -> tiny_fd_frame_info_t)
  (q : tiny_fd_queue_t) : tiny_fd_queue_t := q <| q_frames ::= alter f i |>.

Definition tiny_fd_queue_reset (q : tiny_fd_queue_t) : tiny_fd_queue_t :=
  q <| q_frames ::= fmap (fun f => f <| fi_type := TINY_FD_QUEUE_FREE |>) |>
    <| q_lookup_index := 0 |>.

Section Init.

(** [sizeof(void * )], [sizeof(tiny_fd_frame_info_t)] and the offset of [header]
    in it are the compiler's; [raw] is what the memory holds before, by address
    of the slot. *)
Context (sizeof_ptr sizeof_frame_info offsetof_header : Z) (raw : Z -> tiny_fd_frame_info_t).

(** The table entries and slots from address [ptr] on. *)
Fixpoint queue_slots (n : nat) (ptr mtu : Z) : list tiny_fd_frame_info_t :=
  match n with
  | O => []
  | S n => (raw ptr) <| fi_addr := ptr + offsetof_header |>
           :: queue_slots n (ptr + (mtu + sizeof_frame_info - 2)) mtu
  end.

(** The result (bytes used or an error) and the queue. *)
Definition tiny_fd_queue_init (buffer max_size max_frames mtu : Z) : Z * tiny_fd_queue_t :=
  let frames := queue_slots (Z.to_nat max_frames) (buffer + sizeof_ptr * max_frames) mtu in
  let ptr := buffer + sizeof_ptr * max_frames
             + Z.of_nat (length frames) * (mtu + sizeof_frame_info - 2) in
  if buffer + max_size <? ptr then (TINY_ERR_INVALID_DATA, mk_queue frames 0 0) else
  (ptr - buffer, tiny_fd_queue_reset (mk_queue frames 0 mtu)).

End Init.

Definition same_address (a b : Z) : bool := Z.land a 0xFC =? Z.land b 0xFC.

Definition tiny_fd_queue_reset_for (q : tiny_fd_queue_t) (address : Z) : tiny_fd_queue_t :=
  q <| q_frames ::= fmap (fun f =>
         if same_address (fi_address f) address then f <| fi_type := TINY_FD_QUEUE_FREE |> else f) |>.

(** N(S) of the frame in a slot. *)
Definition slot_ns (f : tiny_fd_frame_info_t) : Z := Z.land (Z.shiftr (fi_control f) 1) 0x07.

(** The body of the search loop: whether it stops at this slot. *)
Definition slot_matches (type address arg : Z) (f : tiny_fd_frame_info_t) : bool :=
  if nz (Z.land (fi_type f) type) then
    if fi_type f =? TINY_FD_QUEUE_FREE then true
    else if same_address address (fi_address f) then
      if negb (fi_type f =? TINY_FD_QUEUE_I_FRAME) then true
      else slot_ns f =? arg
    else false
  else false.

Fixpoint get_next_loop (q : tiny_fd_queue_t) (type address arg : Z) (n : nat) (index : Z)
  : option nat :=
  match n with
  | O => None
  | S n =>
      if slot_matches type address arg (slot_at q index) then Some (Z.to_nat index)
      else
        let index := index + 1 in
        let index := if q_size q <=? index then index - q_size q else index in
        get_next_loop q type address arg n index
  end.

Definition tiny_fd_queue_get_next (q : tiny_fd_queue_t) (type address arg : Z) : option nat :=
  get_next_loop q type address arg (length (q_frames q)) (q_lookup_index q).

(** [memcpy( &ptr->payload[0], data, len )] *)
Definition copy_payload (data payload : list Z) : list Z := data ++ drop (length data) payload.

(** The pointer returned, and the queue. *)
Definition tiny_fd_queue_allocate (q : tiny_fd_queue_t) (type : Z) (data : list Z)
  : option nat * tiny_fd_queue_t :=
  let len := Z.of_nat (length data) in
  match (if len <=? q_mtu q then tiny_fd_queue_get_next q TINY_FD_QUEUE_FREE 0 0 else None) with
  | Some i =>
      (Some i, upd_slot i (fun f => f <| fi_payload ::= copy_payload data |>
                                      <| fi_len := len |> <| fi_type := type |>) q)
  | None => (None, q)
  end.

(** The index of the first slot whose header is at address [header]. *)
Fixpoint header_index (header : Z) (frames : list tiny_fd_frame_info_t) : option nat :=
  match frames with
  | [] => None
  | f :: frames => if fi_addr f =? header then Some O else S <$> header_index header frames
  end.

Definition tiny_fd_queue_free_by_header (q : tiny_fd_queue_t) (header : Z) : tiny_fd_queue_t :=
  match header_index header (q_frames q) with
  | Some i =>
      let lookup_index := Z.of_nat i + 1 in
      let lookup_index := if q_size q <=? lookup_index then lookup_index - q_size q
                          else lookup_index in
      (upd_slot i (fun f => f <| fi_type := TINY_FD_QUEUE_FREE |>) q)
        <| q_lookup_index := lookup_index |>
  | None => q
  end.

Definition tiny_fd_queue_free (q : tiny_fd_queue_t) (frame : nat) : tiny_fd_queue_t :=
  tiny_fd_queue_free_by_header q (fi_addr (slot_at q (Z.of_nat frame))).

Definition tiny_fd_queue_get_mtu (q : tiny_fd_queue_t) : Z := q_mtu q.

Definition tiny_fd_queue_has_free_slots (q : tiny_fd_queue_t) : bool :=
  bool_decide (is_Some (tiny_fd_queue_get_next q TINY_FD_QUEUE_FREE 0 0)).

(** The bytes of a queued frame: header and payload. *)
Definition frame_bytes (f : tiny_fd_frame_info_t) : list Z :=
  fi_address f :: fi_control f :: take (Z.to_nat (fi_len f)) (fi_payload f).

(** ** Invariant *)

(** A slot of a queue for frames of the given types. *)
Record slot_ok (types mtu : Z) (f : tiny_fd_frame_info_t) : Prop := mk_slot_ok {
  so_type : fi_type f = TINY_FD_QUEUE_FREE \/
            (fi_type f = TINY_FD_QUEUE_U_FRAME \/ fi_type f = TINY_FD_QUEUE_S_FRAME \/
             fi_type f = TINY_FD_QUEUE_I_FRAME) /\ Z.land (fi_type f) types <> 0;
  so_payload : Z.of_nat (length (fi_payload f)) = mtu;
  so_bytes : bytes (fi_payload f);
  so_len : 0 <= fi_len f <= mtu;
  so_address : fits 8 (fi_address f);
  so_control : fits 8 (fi_control f)
}.

(** A queue: the search start is in range, the slots are well-formed and at
    different places. *)
Record queue_ok (types : Z) (q : tiny_fd_queue_t) : Prop := mk_queue_ok {
  qo_lookup : 0 <= q_lookup_index q < q_size q;
  qo_slots : Forall (slot_ok types (q_mtu q)) (q_frames q);
  qo_addr : NoDup (fi_addr <$> q_frames q)
}.

(** ** The search *)

Section Search.

Context (q : tiny_fd_queue_t) (type address arg : Z).
#[local] Abbreviation matches := (slot_matches type address arg).

Lemma slot_at_lookup i f : q_frames q !! i = Some f -> slot_at q (Z.of_nat i) = f.
Proof. intros H. unfold slot_at. rewrite Nat2Z.id, nth_lookup, H. done. Qed.

Lemma slot_at_in i : 0 <= i < q_size q -> q_frames q !! Z.to_nat i = Some (slot_at q i).
Proof.
  unfold q_size, slot_at. intros Hi. rewrite nth_lookup.
  destruct (lookup_lt_is_Some_2 (q_frames q) (Z.to_nat i)) as [f Hf]; [lia|]. by rewrite Hf.
Qed.

(** The slot visited after [k] steps. *)
Definition visited (index : Z) (k : nat) : Z := (index + Z.of_nat k) mod q_size q.

Lemma visited_0 index : 0 <= index < q_size q -> visited index 0 = index.
Proof. intros. unfold visited. rewrite Z.add_0_r. by apply Z.mod_small. Qed.

Lemma visited_S index k :
  0 <= index < q_size q ->
  visited index (S k) =
  visited (let i := index + 1 in if q_size q <=? i then i - q_size q else i) k.
Proof.
  intros Hi. unfold visited. cbv zeta. destruct (Z.leb_spec (q_size q) (index + 1)).
  - replace (index + Z.of_nat (S k)) with ((index + 1 - q_size q + Z.of_nat k) + 1 * q_size q) by lia.
    rewrite Z.mod_add by lia. done.
  - f_equal. lia.
Qed.

(** The search returns the first match in cyclic order from the start. *)
Lemma get_next_loop_first n index :
  0 <= index < q_size q ->
  match get_next_loop q type address arg n index with
  | Some i => exists k, (k < n)%nat /\ i = Z.to_nat (visited index k) /\
      matches (slot_at q (visited index k)) = true /\
      forall j, (j < k)%nat -> matches (slot_at q (visited index j)) = false
  | None => forall k, (k < n)%nat -> matches (slot_at q (visited index k)) = false
  end.
Proof.
  revert index. induction n as [|n IH]; intros index Hi; cbn [get_next_loop]; [lia|].
  destruct (matches (slot_at q index)) eqn:Hm.
  { exists 0%nat. rewrite visited_0 by done. split_and!; try done; lia. }
  set (index' := if q_size q <=? index + 1 then index + 1 - q_size q else index + 1).
  assert (Hi' : 0 <= index' < q_size q) by (unfold index'; destruct (Z.leb_spec (q_size q) (index + 1)); lia).
  specialize (IH index' Hi'). destruct (get_next_loop q type address arg n index') as [i|].
  - destruct IH as (k & Hk & -> & Hmk & Hj). exists (S k). rewrite visited_S by done.
    split_and!; [lia|done|done|]. intros [|j] Hlt; [by rewrite visited_0|].
    rewrite visited_S by done. apply Hj. lia.
  - intros [|k] Hk; [by rewrite visited_0|]. rewrite visited_S by done. apply IH. lia.
Qed.

Context (Hq : 0 <= q_lookup_index q < q_size q).

Lemma get_next_Some i :
  tiny_fd_queue_get_next q type address arg = Some i ->
  exists f, q_frames q !! i = Some f /\ matches f = true.
Proof using Hq.
  unfold tiny_fd_queue_get_next. intros H.
  pose proof (get_next_loop_first (length (q_frames q)) _ Hq) as Hf. rewrite H in Hf.
  destruct Hf as (k & _ & -> & Hm & _). eexists. split; [|done].
  apply slot_at_in. apply Z.mod_pos_bound. lia.
Qed.

(** Every slot is visited. *)
Lemma visited_all i :
  0 <= i < q_size q ->
  exists k, (k < length (q_frames q))%nat /\ visited (q_lookup_index q) k = i.
Proof using Hq.
  intros Hi. exists (Z.to_nat ((i - q_lookup_index q) mod q_size q)).
  assert (0 <= (i - q_lookup_index q) mod q_size q < q_size q) by (apply Z.mod_pos_bound; lia).
  unfold visited. rewrite Z2Nat.id by lia.
  rewrite Z.add_mod_idemp_r by lia. split; [unfold q_size in *; lia|].
  replace (q_lookup_index q + (i - q_lookup_index q)) with i by lia. by apply Z.mod_small.
Qed.

Lemma get_next_None :
  tiny_fd_queue_get_next q type address arg = None <->
  Forall (fun f => matches f = false) (q_frames q).
Proof using Hq.
  unfold tiny_fd_queue_get_next.
  pose proof (get_next_loop_first (length (q_frames q)) _ Hq) as Hf. split.
  - intros H. rewrite H in Hf. apply Forall_lookup. intros i f Hi.
    assert (Hr : 0 <= Z.of_nat i < q_size q).
    { apply lookup_lt_Some in Hi. unfold q_size. lia. }
    destruct (visited_all (Z.of_nat i) Hr) as (k & Hk & Hv). specialize (Hf k Hk).
    rewrite Hv in Hf. by rewrite (slot_at_lookup _ _ Hi) in Hf.
  - intros Hall. destruct (get_next_loop _ _ _ _ _ _) as [i|]; [|done].
    destruct Hf as (k & Hk & -> & Hm & _). rewrite Forall_lookup in Hall.
    assert (0 <= visited (q_lookup_index q) k < q_size q) by (apply Z.mod_pos_bound; lia).
    specialize (Hall _ _ (slot_at_in _ H)). congruence.
Qed.

(** When one slot matches and no other does, it is found. *)
Lemma get_next_unique i f :
  q_frames q !! i = Some f -> matches f = true ->
  (forall j g, q_frames q !! j = Some g -> matches g = true -> j = i) ->
  tiny_fd_queue_get_next q type address arg = Some i.
Proof using Hq.
  intros Hi Hm Hu. destruct (tiny_fd_queue_get_next q type address arg) as [j|] eqn:E.
  - apply get_next_Some in E as (g & Hj & Hg). by rewrite (Hu j g).
  - apply get_next_None in E. rewrite Forall_lookup in E. specialize (E i f Hi). congruence.
Qed.

End Search.

(** ** What matches *)

Lemma slot_matches_free address arg f :
  slot_matches TINY_FD_QUEUE_FREE address arg f = true ->
  Z.land (fi_type f) 1 <> 0.
Proof.
  unfold slot_matches, nz. destruct (Z.eqb_spec (Z.land (fi_type f) TINY_FD_QUEUE_FREE) 0); done.
Qed.

(** The slot types of a well-formed queue. *)
Lemma slot_type_cases types mtu f :
  slot_ok types mtu f ->
  fi_type f = TINY_FD_QUEUE_FREE \/ fi_type f = TINY_FD_QUEUE_U_FRAME \/
  fi_type f = TINY_FD_QUEUE_S_FRAME \/ fi_type f = TINY_FD_QUEUE_I_FRAME.
Proof. intros [[H|[[H|[H|H]] _]] ]; auto. Qed.

(** A search for a free slot. *)
Lemma slot_matches_free_iff types mtu address arg f :
  slot_ok types mtu f ->
  slot_matches TINY_FD_QUEUE_FREE address arg f = true <-> fi_type f = TINY_FD_QUEUE_FREE.
Proof. intros Hf. unfold slot_matches. destruct (slot_type_cases _ _ _ Hf) as [H|[H|[H|H]]]; by rewrite H. Qed.

(** A search for the I-frame number [arg] of a station. *)
Lemma slot_matches_i_iff types mtu address arg f :
  slot_ok types mtu f ->
  slot_matches TINY_FD_QUEUE_I_FRAME address arg f = true <->
  fi_type f = TINY_FD_QUEUE_I_FRAME /\ same_address address (fi_address f) = true /\
  slot_ns f = arg.
Proof.
  intros Hf. unfold slot_matches.
  destruct (slot_type_cases _ _ _ Hf) as [H|[H|[H|H]]]; rewrite H; cbn -[slot_ns];
    [split; [done|by intros [? _]]..|].
  destruct (same_address address (fi_address f)); [|by split; [|intros (_ & ? & _)]].
  change (nz (Z.land TINY_FD_QUEUE_I_FRAME TINY_FD_QUEUE_I_FRAME)) with true. cbv iota.
  rewrite Z.eqb_eq. split; [intros ->; by split_and!|by intros (_ & _ & ?)].
Qed.

(** A search for a service frame of a station. *)
Lemma slot_matches_su_iff types mtu address arg f :
  slot_ok types mtu f ->
  slot_matches (Z.lor TINY_FD_QUEUE_S_FRAME TINY_FD_QUEUE_U_FRAME) address arg f = true <->
  (fi_type f = TINY_FD_QUEUE_S_FRAME \/ fi_type f = TINY_FD_QUEUE_U_FRAME) /\
  same_address address (fi_address f) = true.
Proof.
  intros Hf. unfold slot_matches.
  destruct (slot_type_cases _ _ _ Hf) as [H|[H|[H|H]]]; rewrite H; cbn;
    destruct (same_address address (fi_address f)); split; try done;
    try (by intros [_ ?]); try (by intros [[?|?] _]); auto.
Qed.

(** ** Preservation *)

Lemma upd_slot_compose i f g q : upd_slot i f (upd_slot i g q) = upd_slot i (f ∘ g) q.
Proof. unfold upd_slot. cbn. unfold fupd. cbn. by rewrite list_alter_alter_eq. Qed.

Lemma upd_slot_ok types q i f :
  queue_ok types q ->
  (forall s, q_frames q !! i = Some s -> slot_ok types (q_mtu q) s ->
     slot_ok types (q_mtu q) (f s) /\ fi_addr (f s) = fi_addr s) ->
  queue_ok types (upd_slot i f q).
Proof.
  intros [Hl Hs Ha] Hf. unfold upd_slot. split; cbn.
  - unfold q_size. cbn. by rewrite length_alter.
  - apply Forall_lookup. intros j g Hj. rewrite Forall_lookup in Hs.
    destruct (decide (i = j)) as [<-|Hne].
    + rewrite list_lookup_alter_eq in Hj.
      destruct (q_frames q !! i) as [s|] eqn:E; [|done]. cbn in Hj. injection Hj as <-.
      apply Hf; [done|]. by eapply Hs.
    + rewrite list_lookup_alter_ne in Hj by done. by eapply Hs.
  - enough (fi_addr <$> alter f i (q_frames q) = fi_addr <$> q_frames q) as -> by done.
    apply list_eq. intros j. rewrite !list_lookup_fmap.
    destruct (decide (i = j)) as [<-|Hne]; [|by rewrite list_lookup_alter_ne].
    rewrite list_lookup_alter_eq. destruct (q_frames q !! i) as [s|] eqn:E; [|done].
    cbn. rewrite Forall_lookup in Hs. f_equal. apply Hf; [done|by eapply Hs].
Qed.

Lemma slot_ok_free types mtu f :
  slot_ok types mtu f -> slot_ok types mtu (f <| fi_type := TINY_FD_QUEUE_FREE |>).
Proof. intros []. split; cbn; auto. Qed.

Lemma copy_payload_length data payload :
  (length data <= length payload)%nat -> length (copy_payload data payload) = length payload.
Proof. intros. unfold copy_payload. rewrite length_app, length_drop. lia. Qed.

Lemma copy_payload_bytes data payload :
  bytes data -> bytes payload -> bytes (copy_payload data payload).
Proof. intros. apply bytes_app. auto with tiny. Qed.

Lemma copy_payload_take data payload : take (length data) (copy_payload data payload) = data.
Proof. apply take_app_length. Qed.

(** What [memcpy] and the assignments make of the allocated slot. *)
Definition filled_slot (type : Z) (data : list Z) (f : tiny_fd_frame_info_t) : tiny_fd_frame_info_t :=
  f <| fi_payload ::= copy_payload data |> <| fi_len := Z.of_nat (length data) |>
    <| fi_type := type |>.

Lemma filled_slot_ok types mtu type data f :
  slot_ok types mtu f -> Z.of_nat (length data) <= mtu -> bytes data ->
  (type = TINY_FD_QUEUE_U_FRAME \/ type = TINY_FD_QUEUE_S_FRAME \/ type = TINY_FD_QUEUE_I_FRAME) ->
  Z.land type types <> 0 ->
  slot_ok types mtu (filled_slot type data f).
Proof.
  intros [] Hd Hb Ht Hty. split; cbn; auto; try lia.
  - rewrite copy_payload_length; lia.
  - by apply copy_payload_bytes.
Qed.

(** Allocation takes a free slot when there is one and the data fit. *)
Lemma allocate_spec types q type data :
  queue_ok types q ->
  match tiny_fd_queue_allocate q type data with
  | (Some i, q') =>
      Z.of_nat (length data) <= q_mtu q /\
      exists f, q_frames q !! i = Some f /\ fi_type f = TINY_FD_QUEUE_FREE /\
        q' = upd_slot i (filled_slot type data) q
  | (None, q') => q' = q /\
      (q_mtu q < Z.of_nat (length data) \/
       Forall (fun f => fi_type f <> TINY_FD_QUEUE_FREE) (q_frames q))
  end.
Proof.
  intros [Hl Hs Ha]. unfold tiny_fd_queue_allocate.
  destruct (Z.leb_spec (Z.of_nat (length data)) (q_mtu q)); [|by auto].
  destruct (tiny_fd_queue_get_next q TINY_FD_QUEUE_FREE 0 0) as [i|] eqn:E.
  - apply get_next_Some in E as (f & Hf & Hm); [|done]. split; [done|]. exists f.
    split_and!; [done| |done]. rewrite Forall_lookup in Hs.
    by eapply slot_matches_free_iff in Hm; [|by eapply Hs].
  - apply get_next_None in E; [|done]. split; [done|]. right.
    apply Forall_lookup. intros i f Hi. rewrite Forall_lookup in E, Hs.
    specialize (E i f Hi). intros Hf.
    apply (slot_matches_free_iff types (q_mtu q) 0 0) in Hf; [congruence|].
    by eapply Hs.
Qed.

Lemma upd_slot_filled_ok types q i type data :
  queue_ok types q -> Z.of_nat (length data) <= q_mtu q -> bytes data ->
  (type = TINY_FD_QUEUE_U_FRAME \/ type = TINY_FD_QUEUE_S_FRAME \/ type = TINY_FD_QUEUE_I_FRAME) ->
  Z.land type types <> 0 ->
  queue_ok types (upd_slot i (filled_slot type data) q).
Proof.
  intros Hq Hl Hb Ht Hty. apply upd_slot_ok; [done|]. intros s Hs Hok. split; [|done].
  by apply filled_slot_ok.
Qed.

(** A header address names its slot. *)
Lemma header_index_Some header frames i :
  header_index header frames = Some i -> exists f, frames !! i = Some f /\ fi_addr f = header.
Proof.
  revert i. induction frames as [|f frames IH]; intros i; cbn; [done|].
  destruct (Z.eqb_spec (fi_addr f) header); [intros [= <-]; by exists f|].
  destruct (header_index header frames) as [j|] eqn:E; [|done]. intros [= <-]. by apply IH.
Qed.

Lemma header_index_lookup frames i f :
  NoDup (fi_addr <$> frames) -> frames !! i = Some f -> header_index (fi_addr f) frames = Some i.
Proof.
  revert i. induction frames as [|g frames IH]; intros i Hd Hi; [done|].
  cbn in Hd. apply NoDup_cons in Hd as [Hg Hd]. cbn. destruct i as [|i]; cbn in Hi.
  - injection Hi as ->. by rewrite Z.eqb_refl.
  - destruct (Z.eqb_spec (fi_addr g) (fi_addr f)) as [E|E].
    + exfalso. apply Hg. rewrite E. apply list_elem_of_fmap_2. by eapply list_elem_of_lookup_2.
    + by rewrite (IH i).
Qed.

Lemma free_by_header_ok types q header :
  queue_ok types q -> queue_ok types (tiny_fd_queue_free_by_header q header).
Proof.
  intros Hq. unfold tiny_fd_queue_free_by_header.
  destruct (header_index header (q_frames q)) as [i|] eqn:E; [|done].
  apply header_index_Some in E as (f & Hf & _). apply lookup_lt_Some in Hf.
  assert (Hu : queue_ok types (upd_slot i (fun f => f <| fi_type := TINY_FD_QUEUE_FREE |>) q)).
  { apply upd_slot_ok; [done|]. intros s _ Hs. split; [by apply slot_ok_free|done]. }
  destruct Hu as [Hl Hs Ha]. split; [|done..]. cbn. unfold q_size in *. cbn in *.
  rewrite length_alter in *. destruct (Z.leb_spec (Z.of_nat (length (q_frames q))) (Z.of_nat i + 1)); lia.
Qed.

Lemma reset_for_ok types q address :
  queue_ok types q -> queue_ok types (tiny_fd_queue_reset_for q address).
Proof.
  intros [Hl Hs Ha]. unfold tiny_fd_queue_reset_for. split; cbn.
  - unfold q_size. cbn. by rewrite length_fmap.
  - apply Forall_fmap. eapply Forall_impl; [done|]. intros f Hf. unfold compose.
    destruct (same_address _ _); [by apply slot_ok_free|done].
  - rewrite <- list_fmap_compose.
    enough ((fi_addr ∘ fun f => if same_address (fi_address f) address
              then f <| fi_type := TINY_FD_QUEUE_FREE |> else f) <$> q_frames q
            = fi_addr <$> q_frames q) as -> by done.
    apply list_fmap_ext. intros _ f _. unfold compose. by destruct (same_address _ _).
Qed.

(** ** Initialisation *)

(** A slot of zeroed memory. *)
Definition zero_slot (mtu : Z) (ptr : Z) : tiny_fd_frame_info_t :=
  mk_frame_info 0 0 0 0 0 (replicate (Z.to_nat mtu) 0).

Section InitFacts.

Context (sizeof_ptr sizeof_frame_info offsetof_header : Z) (raw : Z -> tiny_fd_frame_info_t).

(** The distance between slots. *)
#[local] Abbreviation stride mtu := (mtu + sizeof_frame_info - 2).

Lemma queue_slots_length n ptr mtu :
  length (queue_slots sizeof_frame_info offsetof_header raw n ptr mtu) = n.
Proof. revert ptr. induction n as [|n IH]; intros ptr; cbn; [done|]. by rewrite IH. Qed.

Lemma queue_slots_lookup n ptr mtu i :
  (i < n)%nat ->
  queue_slots sizeof_frame_info offsetof_header raw n ptr mtu !! i =
  Some ((raw (ptr + Z.of_nat i * stride mtu))
          <| fi_addr := ptr + Z.of_nat i * stride mtu + offsetof_header |>).
Proof.
  revert ptr i. induction n as [|n IH]; intros ptr i Hi; [lia|]. cbn [queue_slots].
  destruct i as [|i]; cbn [lookup list_lookup]; [by rewrite Z.mul_0_l, Z.add_0_r|].
  rewrite IH by lia.
  replace (ptr + stride mtu + Z.of_nat i * stride mtu) with (ptr + Z.of_nat (S i) * stride mtu) by lia.
  done.
Qed.

Lemma queue_slots_addr n ptr mtu :
  0 < stride mtu ->
  NoDup (fi_addr <$> queue_slots sizeof_frame_info offsetof_header raw n ptr mtu).
Proof.
  intros Hs. apply NoDup_alt. intros i j a Hi Hj. rewrite list_lookup_fmap in Hi, Hj.
  destruct (queue_slots _ _ _ _ _ _ !! i) as [f|] eqn:Ei; [|done].
  destruct (queue_slots _ _ _ _ _ _ !! j) as [g|] eqn:Ej; [|done].
  assert (Hli := lookup_lt_Some _ _ _ Ei). assert (Hlj := lookup_lt_Some _ _ _ Ej).
  rewrite queue_slots_length in Hli, Hlj. rewrite queue_slots_lookup in Ei, Ej by done.
  injection Ei as <-. injection Ej as <-. cbn in Hi, Hj. injection Hi as <-. injection Hj as Hj. nia.
Qed.

End InitFacts.

(** The bytes of slot [f] that the framing layer may read: header and payload area. *)
Definition slot_range (mtu : Z) (f : tiny_fd_frame_info_t) (a : Z) : Prop :=
  fi_addr f <= a < fi_addr f + 2 + mtu.

(** What a successful [tiny_fd_queue_init] leaves. *)
Lemma queue_init_spec (sizeof_ptr sizeof_frame_info offsetof_header : Z)
  (types buffer max_size max_frames mtu used : Z) (q : tiny_fd_queue_t)
  (Hsizes : 0 <= sizeof_ptr /\ 0 <= offsetof_header /\ offsetof_header + 4 <= sizeof_frame_info)
  (Hargs : 0 < max_frames /\ 0 <= mtu)
  (Hinit : tiny_fd_queue_init sizeof_ptr sizeof_frame_info offsetof_header (zero_slot mtu)
             buffer max_size max_frames mtu = (used, q))
  (Hok : 0 <= used) :
  queue_ok types q /\ q_size q = max_frames /\ q_mtu q = mtu /\ used <= max_size /\
  Forall (fun f => fi_type f = TINY_FD_QUEUE_FREE) (q_frames q) /\
  (forall f a, f ∈ q_frames q -> slot_range mtu f a ->
     buffer + sizeof_ptr * max_frames <= a < buffer + used) /\
  (forall i j f g a, q_frames q !! i = Some f -> q_frames q !! j = Some g ->
     slot_range mtu f a -> slot_range mtu g a -> i = j).
Proof.
  destruct Hsizes as (Hp & Ho & Hfi), Hargs as (Hn & Hm). revert Hinit. unfold tiny_fd_queue_init.
  rewrite queue_slots_length, Z2Nat.id by lia.
  set (base := buffer + sizeof_ptr * max_frames). set (stride := mtu + sizeof_frame_info - 2).
  destruct (Z.ltb_spec (buffer + max_size) (base + max_frames * stride)); intros [= <- <-];
    [by unfold TINY_ERR_INVALID_DATA in Hok|].
  set (slots := queue_slots _ _ _ _ _ _).
  assert (Hslots : forall i f, q_frames (tiny_fd_queue_reset (mk_queue slots 0 mtu)) !! i = Some f ->
            (i < Z.to_nat max_frames)%nat /\
            f = (zero_slot mtu 0) <| fi_addr := base + Z.of_nat i * stride + offsetof_header |>
                  <| fi_type := TINY_FD_QUEUE_FREE |>).
  { intros i f. cbn. rewrite list_lookup_fmap. destruct (slots !! i) as [g|] eqn:Hg; [|done].
    assert (Hi := lookup_lt_Some _ _ _ Hg). unfold slots in Hg, Hi. rewrite queue_slots_length in Hi.
    rewrite queue_slots_lookup in Hg by done. injection Hg as <-. intros [= <-]. done. }
  split_and!.
  - split.
    + unfold q_size. cbn. rewrite length_fmap. unfold slots. rewrite queue_slots_length. lia.
    + apply Forall_lookup. intros i f Hf. apply Hslots in Hf as [_ ->].
      split; cbn; [by left| |by apply Forall_replicate|lia|done..].
      rewrite length_replicate. lia.
    + cbn. rewrite <- list_fmap_compose.
      change (fi_addr ∘ (fun f => f <| fi_type := TINY_FD_QUEUE_FREE |>)) with fi_addr.
      apply queue_slots_addr. lia.
  - unfold q_size. cbn. rewrite length_fmap. unfold slots. rewrite queue_slots_length. lia.
  - done.
  - lia.
  - apply Forall_lookup. intros i f Hf. by apply Hslots in Hf as [_ ->].
  - intros f a Hin Ha. apply list_elem_of_lookup in Hin as [i Hi]. apply Hslots in Hi as [Hi ->].
    unfold slot_range in Ha. cbn in Ha. nia.
  - intros i j f g a Hi Hj Ha Hb. apply Hslots in Hi as [Hi ->]. apply Hslots in Hj as [Hj ->].
    unfold slot_range in Ha, Hb. cbn in Ha, Hb.
    destruct (Z.lt_trichotomy (Z.of_nat i) (Z.of_nat j)) as [?|[?|?]]; [|lia|]; nia.
Qed.

(** ** Properties *)

(** C35: the search of the frame queue.  From a start inside the table,
    [tiny_fd_queue_get_next] visits every slot once, in cyclic order, and returns
    the first that matches; it returns [NULL] exactly when none does. *)
Theorem tiny_fd_queue_get_next_first (q : tiny_fd_queue_t) (type address arg : Z)
  (Hq : 0 <= q_lookup_index q < q_size q) :
  let matches i := slot_matches type address arg (slot_at q i) in
  match tiny_fd_queue_get_next q type address arg with
  | Some i => exists k, (k < length (q_frames q))%nat /\
      i = Z.to_nat (visited q (q_lookup_index q) k) /\
      matches (visited q (q_lookup_index q) k) = true /\
      forall j, (j < k)%nat -> matches (visited q (q_lookup_index q) j) = false
  | None => forall i, 0 <= i < q_size q -> matches i = false
  end.
Proof.
  cbv zeta. pose proof (get_next_loop_first q type address arg (length (q_frames q)) _ Hq) as H.
  fold (tiny_fd_queue_get_next q type address arg) in H.
  destruct (tiny_fd_queue_get_next q type address arg) as [i|]; [done|].
  intros i Hi. destruct (visited_all q Hq i Hi) as (k & Hk & <-). by apply H.
Qed.

(** Three slots, the search starting at the last. *)
Definition sample_queue : tiny_fd_queue_t :=
  mk_queue [mk_frame_info 100 TINY_FD_QUEUE_I_FRAME 1 5 0x02 [7; 0];
            mk_frame_info 120 TINY_FD_QUEUE_FREE 0 0 0 [0; 0];
            mk_frame_info 140 TINY_FD_QUEUE_I_FRAME 2 5 0x00 [8; 9]] 2 2.

Lemma tiny_fd_queue_get_next_first_witness :
  0 <= q_lookup_index sample_queue < q_size sample_queue /\
  exists k, (k < 3)%nat /\ 0%nat = Z.to_nat (visited sample_queue 2 k) /\
    slot_matches TINY_FD_QUEUE_I_FRAME 5 1 (slot_at sample_queue (visited sample_queue 2 k)) = true /\
    forall j, (j < k)%nat ->
      slot_matches TINY_FD_QUEUE_I_FRAME 5 1 (slot_at sample_queue (visited sample_queue 2 j)) = false.
Proof.
  split; [by vm_compute|].
  apply (tiny_fd_queue_get_next_first sample_queue TINY_FD_QUEUE_I_FRAME 5 1). by vm_compute.
Defined.

(** C36: the layout of a queue.  When [tiny_fd_queue_init] succeeds on zeroed memory,
    the queue is well-formed and empty, has the requested number of slots and
    MTU, and the header and payload of every slot lie inside the given buffer, behind
    the pointer table, and do not overlap those of another slot. *)
Theorem tiny_fd_queue_init_layout (sizeof_ptr sizeof_frame_info offsetof_header : Z)
  (types buffer max_size max_frames mtu used : Z) (q : tiny_fd_queue_t)
  (Hsizes : 0 <= sizeof_ptr /\ 0 <= offsetof_header /\ offsetof_header + 4 <= sizeof_frame_info)
  (Hargs : 0 < max_frames /\ 0 <= mtu)
  (Hinit : tiny_fd_queue_init sizeof_ptr sizeof_frame_info offsetof_header (zero_slot mtu)
             buffer max_size max_frames mtu = (used, q))
  (Hok : 0 <= used) :
  queue_ok types q /\ q_size q = max_frames /\ q_mtu q = mtu /\ used <= max_size /\
  Forall (fun f => fi_type f = TINY_FD_QUEUE_FREE) (q_frames q) /\
  (forall f a, f ∈ q_frames q -> slot_range mtu f a ->
     buffer + sizeof_ptr * max_frames <= a < buffer + used) /\
  (forall i j f g a, q_frames q !! i = Some f -> q_frames q !! j = Some g ->
     slot_range mtu f a -> slot_range mtu g a -> i = j).
Proof. by apply (queue_init_spec _ _ _ types _ _ _ _ _ _ Hsizes Hargs Hinit). Qed.

Lemma tiny_fd_queue_init_layout_witness :
  let q := snd (tiny_fd_queue_init 8 12 8 (zero_slot 16) 0x1000 200 4 16) in
  q_size q = 4 /\
  (forall f a, f ∈ q_frames q -> slot_range 16 f a -> 0x1000 + 8 * 4 <= a < 0x1000 + 136).
Proof.
  intros q.
  destruct (tiny_fd_queue_init_layout 8 12 8 TINY_FD_QUEUE_I_FRAME 0x1000 200 4 16 136 q) as (_ & H1 & _ & _ & _ & H2 & _);
    [lia|lia|by vm_compute|lia|].
  exact (conj H1 H2).
Defined.
