(* ===== verification/FdPeers.v ===== *)
(** * Peers and addresses (src/proto/fd/tiny_fd_peers.c, tiny_fd_peers_int.h)

    The address field of a frame names a peer: the operations that map one to
    the other, and the round-robin choice of the next peer to serve. *)

From S2P Require Import Prelude FdTypes.

(** ** Operations *)

(** [x & ~m] on a byte. *)
Definition clear_bits (m x : Z) : Z := Z.land x (Z.lxor m 0xFF).

Definition __is_primary_address (address : Z) : bool :=
  clear_bits HDLC_CR_BIT address =? Z.lor HDLC_PRIMARY_ADDR HDLC_E_BIT.

Definition __is_primary_station (h : tiny_fd_data_t) : bool := __is_primary_address (fd_addr h).

Definition __is_secondary_station (h : tiny_fd_data_t) : bool := negb (__is_primary_station h).

Definition __peer_to_address_field (h : tiny_fd_data_t) (peer : Z) : Z :=
  clear_bits HDLC_CR_BIT (pi_addr (peer_at h peer)).

(** [for ( peer = 0; peer < handle->peers_count; peer++ )] looking for [address]. *)
Fixpoint find_peer (h : tiny_fd_data_t) (address : Z) (n : nat) (peer : Z) : Z :=
  match n with
  | O => HDLC_INVALID_PEER_INDEX
  | S n => if pi_addr (peer_at h peer) =? address then peer else find_peer h address n (peer + 1)
  end.

Definition __address_field_to_peer (h : tiny_fd_data_t) (address : Z) : Z :=
  let address := clear_bits HDLC_CR_BIT address in
  if negb (nz (Z.land address HDLC_E_BIT)) then HDLC_INVALID_PEER_INDEX else
  if __is_secondary_station h || (fd_mode h =? TINY_FD_MODE_ABM)
  then if address =? fd_addr h then 0 else HDLC_INVALID_PEER_INDEX
  else find_peer h address (Z.to_nat (fd_peers_count h)) 0.

(** The loop of [__switch_to_next_peer]; [None] means the fuel ran out. *)
Fixpoint switch_loop (fuel : nat) (start_peer : Z) (h : tiny_fd_data_t) : option tiny_fd_data_t :=
  match fuel with
  | O => None
  | S fuel =>
      let next_peer := u8 (fd_next_peer h + 1) in
      let h := h <| fd_next_peer := if fd_peers_count h <=? next_peer then 0 else next_peer |> in
      if negb (pi_addr (peer_at h (fd_next_peer h)) =? HDLC_INVALID_PEER_INDEX) then Some h
      else if negb (start_peer =? fd_next_peer h) then switch_loop fuel start_peer h
      else Some h
  end.

Definition __switch_to_next_peer (h : tiny_fd_data_t) : bool * tiny_fd_data_t :=
  let start_peer := fd_next_peer h in
  match switch_loop (Z.to_nat (fd_peers_count h)) start_peer h with
  | Some h => (negb (start_peer =? fd_next_peer h), h)
  | None => (false, h)
  end.

(** ** Addresses *)

Lemma fits_clear_bits m x : fits 8 m -> fits 8 x -> fits 8 (clear_bits m x).
Proof.
  intros Hm Hx. apply fits_land_r; [lia|apply Hx|]. apply fits_lxor; [lia|done|by vm_compute].
Qed.

Lemma find_peer_spec h address n peer :
  0 <= peer ->
  let r := find_peer h address n peer in
  (r = HDLC_INVALID_PEER_INDEX /\
   forall i, peer <= i < peer + Z.of_nat n -> pi_addr (peer_at h i) <> address) \/
  (peer <= r < peer + Z.of_nat n /\ pi_addr (peer_at h r) = address /\
   forall i, peer <= i < r -> pi_addr (peer_at h i) <> address).
Proof.
  revert peer. induction n as [|n IH]; intros peer Hp; cbn [find_peer].
  { left. split; [done|]. lia. }
  destruct (Z.eqb_spec (pi_addr (peer_at h peer)) address) as [E|E].
  { right. split_and!; [lia|lia|done|]. lia. }
  destruct (IH (peer + 1)) as [[Hr Hi]|(Hr & Ha & Hi)]; [lia| |].
  - left. split; [done|]. intros i Hlt. destruct (decide (i = peer)) as [->|]; [done|]. apply Hi. lia.
  - right. split_and!; [lia|lia|done|]. intros i Hlt.
    destruct (decide (i = peer)) as [->|]; [done|]. apply Hi. lia.
Qed.

(** A valid result is the index of a peer. *)
Lemma address_field_to_peer_range h address :
  0 < fd_peers_count h ->
  __address_field_to_peer h address = HDLC_INVALID_PEER_INDEX \/
  0 <= __address_field_to_peer h address < fd_peers_count h.
Proof.
  intros Hc. unfold __address_field_to_peer.
  destruct (negb _); [by left|]. destruct (_ || _).
  - destruct (_ =? _); [right; lia|by left].
  - destruct (find_peer_spec h (clear_bits HDLC_CR_BIT address) (Z.to_nat (fd_peers_count h)) 0)
      as [[-> _]|(Hr & _)]; [lia|by left|right; lia].
Qed.

(** ** Round robin *)

(** The peer served [k] turns after [start]. *)
Definition turn (h : tiny_fd_data_t) (start : Z) (k : nat) : Z :=
  (start + Z.of_nat k) mod fd_peers_count h.

Definition registered (h : tiny_fd_data_t) (peer : Z) : Prop :=
  pi_addr (peer_at h peer) <> HDLC_INVALID_PEER_INDEX.

Lemma next_peer_step h p :
  0 < fd_peers_count h <= 255 -> 0 <= p < fd_peers_count h ->
  (if fd_peers_count h <=? u8 (p + 1) then 0 else u8 (p + 1)) = turn h p 1.
Proof.
  intros Hc Hp. unfold turn. rewrite u8_id by (unfold fits; change (2 ^ 8) with 256; lia).
  destruct (Z.leb_spec (fd_peers_count h) (p + 1)).
  - replace (p + Z.of_nat 1) with (fd_peers_count h) by lia. by rewrite Z.mod_same by lia.
  - rewrite Z.mod_small; lia.
Qed.

Lemma turn_turn h p j k :
  0 < fd_peers_count h -> turn h (turn h p j) k = turn h p (j + k).
Proof.
  intros Hc. unfold turn. rewrite Z.add_mod_idemp_l by lia. f_equal. lia.
Qed.

Lemma turn_range h p k : 0 < fd_peers_count h -> 0 <= turn h p k < fd_peers_count h.
Proof. intros. by apply Z.mod_pos_bound. Qed.

Lemma turn_full h p : 0 <= p < fd_peers_count h -> turn h p (Z.to_nat (fd_peers_count h)) = p.
Proof.
  intros Hp. unfold turn. rewrite Z2Nat.id by lia.
  rewrite <- (Z.mul_1_l (fd_peers_count h)) at 1. rewrite Z.mod_add by lia. by apply Z.mod_small.
Qed.

(** The loop stops at the first registered peer after the start, or at the start. *)
Lemma switch_loop_spec n start h j :
  0 < fd_peers_count h <= 255 -> 0 <= start < fd_peers_count h ->
  fd_next_peer h = turn h start j -> (j + n)%nat = Z.to_nat (fd_peers_count h) -> (0 < n)%nat ->
  exists k, (j < k <= j + n)%nat /\
    switch_loop n start h = Some (h <| fd_next_peer := turn h start k |>) /\
    (registered h (turn h start k) \/ k = Z.to_nat (fd_peers_count h)) /\
    forall i, (j < i < k)%nat -> ~ registered h (turn h start i).
Proof.
  intros Hc Hs. revert h j Hc Hs. induction n as [|n IH]; intros h j Hc Hs Hp Hn Hn0; [lia|].
  cbn [switch_loop]. cbn [fd_peers_count fd_next_peer]. 
  assert (Hstep : (if fd_peers_count h <=? u8 (fd_next_peer h + 1) then 0 else u8 (fd_next_peer h + 1))
                  = turn h start (S j)).
  { rewrite next_peer_step; [|done|rewrite Hp; apply turn_range; lia].
    rewrite Hp, turn_turn by lia. f_equal. lia. }
  rewrite Hstep. set (h1 := h <| fd_next_peer := turn h start (S j) |>).
  change (fd_next_peer h1) with (turn h start (S j)).
  change (peer_at h1 (turn h start (S j))) with (peer_at h (turn h start (S j))).
  destruct (Z.eqb_spec (pi_addr (peer_at h (turn h start (S j)))) HDLC_INVALID_PEER_INDEX) as [Hr|Hr];
    cbn [negb].
  - destruct (Z.eqb_spec start (turn h start (S j))) as [Ht|Ht]; cbn [negb].
    + exists (S j). split_and!; [lia|lia|done| |lia].
      right. destruct (decide (S j = Z.to_nat (fd_peers_count h))) as [|Hne]; [done|exfalso].
      unfold turn in Ht.
      assert (Hlt : Z.of_nat (S j) < fd_peers_count h) by lia.
      destruct (Z.lt_ge_cases (start + Z.of_nat (S j)) (fd_peers_count h)).
      * rewrite Z.mod_small in Ht by lia. lia.
      * replace (start + Z.of_nat (S j)) with
          (start + Z.of_nat (S j) - fd_peers_count h + 1 * fd_peers_count h) in Ht by lia.
        rewrite Z.mod_add, Z.mod_small in Ht by lia. lia.
    + destruct n as [|n].
      { exfalso. apply Ht. replace (S j) with (Z.to_nat (fd_peers_count h)) by lia.
        by rewrite turn_full. }
      destruct (IH h1 (S j)) as (k & Hk & Hrun & Hreg & Hskip); [done|done|done|cbn; lia|lia|].
      exists k. split_and!; [lia|lia|exact Hrun|exact Hreg|].
      intros i Hi. destruct (decide (i = S j)) as [->|]; [by intros Hx|]. apply Hskip. lia.
  - exists (S j). split_and!; [lia|lia|done|by left|lia].
Qed.

(** ** Properties *)

(** C37: fairness of the polling order.  [__switch_to_next_peer] terminates and
    moves to the next registered peer in cyclic order: the peer it reaches is
    registered, every peer between is not, and when no other peer is
    registered it stays; its result tells whether the peer changed. *)
Theorem switch_to_next_peer_round_robin (h : tiny_fd_data_t)
  (Hcount : 0 < fd_peers_count h <= 255) (Hnext : 0 <= fd_next_peer h < fd_peers_count h) :
  exists k h', (0 < k <= Z.to_nat (fd_peers_count h))%nat /\
    switch_loop (Z.to_nat (fd_peers_count h)) (fd_next_peer h) h = Some h' /\
    __switch_to_next_peer h = (negb (fd_next_peer h =? fd_next_peer h'), h') /\
    h' = h <| fd_next_peer := turn h (fd_next_peer h) k |> /\
    (registered h (fd_next_peer h') \/ fd_next_peer h' = fd_next_peer h) /\
    forall i, (0 < i < k)%nat -> ~ registered h (turn h (fd_next_peer h) i).
Proof.
  destruct (switch_loop_spec (Z.to_nat (fd_peers_count h)) (fd_next_peer h) h 0)
    as (k & Hk & Hrun & Hreg & Hskip); [done|done| |lia|lia|].
  { unfold turn. rewrite Z.add_0_r. by rewrite Z.mod_small. }
  exists k. eexists. split; [lia|]. split; [exact Hrun|]. split_and!; [|done| |done].
  - unfold __switch_to_next_peer. by rewrite Hrun.
  - cbn. destruct Hreg as [?| ->]; [by left|right; by apply turn_full].
Qed.

(** A primary with two registered peers of four. *)
Definition sample_peer (addr : Z) : tiny_fd_peer_info_t := zero_peer <| pi_addr := addr |>.

Definition empty_queue : tiny_fd_queue_t := mk_queue [] 0 0.

Definition sample_primary : tiny_fd_data_t :=
  mk_fd 1000 200 5000 2 empty_queue empty_queue false false 4
    (map sample_peer [5; 0xFF; 0xFF; 9]) 1 0 0 TINY_FD_MODE_NRM 0.

Lemma switch_to_next_peer_round_robin_witness :
  exists k h', (0 < k <= 4)%nat /\
    switch_loop 4 0 sample_primary = Some h' /\
    __switch_to_next_peer sample_primary = (negb (0 =? fd_next_peer h'), h') /\
    h' = sample_primary <| fd_next_peer := turn sample_primary 0 k |> /\
    (registered sample_primary (fd_next_peer h') \/ fd_next_peer h' = 0) /\
    forall i, (0 < i < k)%nat -> ~ registered sample_primary (turn sample_primary 0 i).
Proof. apply (switch_to_next_peer_round_robin sample_primary); by vm_compute. Defined.
