(* ===== verification/FdIQueue.v ===== *)
(** * The send window of a peer (src/proto/fd/tiny_fd_i_queue_control.c)

    Sequence numbers are counters modulo 8.  The operations as the code has
    them, and their meaning on unbounded counters: [window] relates a control
    block to the number of frames confirmed, sent and queued so far. *)

From S2P Require Import Prelude FdTypes FdQueue FdPeers.

(** ** Operations *)

(** [( x + 1 ) & seq_bits_mask] and [( x - 1 ) & seq_bits_mask] *)
Definition seq_succ (x : Z) : Z := Z.land (x + 1) seq_bits_mask.
Definition seq_pred (x : Z) : Z := Z.land (x - 1) seq_bits_mask.

Definition __i_queue_control_get_next_frame_to_confirm (c : i_queue_control_t) : Z := confirm_ns c.
Definition __i_queue_control_get_next_frame_to_send (c : i_queue_control_t) : Z := next_ns c.
Definition __i_queue_control_get_next_frame_to_receive (c : i_queue_control_t) : Z := next_nr c.

Definition __i_queue_control_move_to_next_ns (c : i_queue_control_t) : i_queue_control_t :=
  c <| next_ns := seq_succ (next_ns c) |>.

Definition __i_queue_control_move_to_previous_ns (c : i_queue_control_t) : i_queue_control_t :=
  c <| next_ns := seq_pred (next_ns c) |>.

Definition __i_queue_control_move_to_next_frame_to_receive (c : i_queue_control_t)
  : i_queue_control_t := c <| next_nr := seq_succ (next_nr c) |>.

Definition __i_queue_control_has_unconfirmed_frames (c : i_queue_control_t) : bool :=
  negb (confirm_ns c =? last_ns c).

Definition __all_frames_are_sent (c : i_queue_control_t) : bool := last_ns c =? next_ns c.

Definition __i_queue_control_tx_full (c : i_queue_control_t) : bool :=
  let can_accept := negb (seq_succ (last_ns c) =? confirm_ns c) in negb can_accept.

Definition __reset_i_queue_control (c : i_queue_control_t) : i_queue_control_t :=
  c <| confirm_ns := 0 |> <| last_ns := 0 |> <| next_ns := 0 |> <| next_nr := 0 |>.

(** [__i_queue_control_restransmit_frame]; [None] means the fuel ran out. *)
Fixpoint restransmit_loop (fuel : nat) (nr : Z) (c : i_queue_control_t) : option i_queue_control_t :=
  match fuel with
  | O => None
  | S fuel =>
      if negb (next_ns c =? nr) then
        if confirm_ns c =? next_ns c then Some c
        else restransmit_loop fuel nr (__i_queue_control_move_to_previous_ns c)
      else Some c
  end.

Definition __i_queue_control_restransmit_frame (c : i_queue_control_t) (nr : Z)
  : bool * i_queue_control_t :=
  match restransmit_loop 9 nr c with Some c => (false, c) | None => (false, c) end.

Section World.

Context {US : Type}.

(** The loop of [__i_queue_control_confirm_sent_frames] on the control block of
    [peer].  [cb] is the callback with its context; [None] means the fuel ran
    out. *)
Fixpoint confirm_loop (fuel : nat) (peer nr : Z) (cb : Z -> fd_world US -> bool * fd_world US)
  (w : fd_world US) : option (fd_world US) :=
  match fuel with
  | O => None
  | S fuel =>
      let c := control_at (handle w) peer in
      if negb (nr =? confirm_ns c) then
        if negb (__i_queue_control_has_unconfirmed_frames c) then Some w
        else
          let '(_, w) := cb (confirm_ns c) w in
          let w := w <| handle ::= upd_control peer
                          (fun c => c <| confirm_ns := seq_succ (confirm_ns c) |>) |> in
          confirm_loop fuel peer nr cb w
      else Some w
  end.

Definition __i_queue_control_confirm_sent_frames (peer nr : Z)
  (cb : Z -> fd_world US -> bool * fd_world US) (w : fd_world US) : bool * fd_world US :=
  match confirm_loop 9 peer nr cb w with
  | Some w => (negb (__i_queue_control_tx_full (control_at (handle w) peer)), w)
  | None => (false, w)
  end.

End World.

Definition __put_i_frame_to_tx_queue (h : tiny_fd_data_t) (peer : Z) (data : list Z)
  : bool * tiny_fd_data_t :=
  match tiny_fd_queue_allocate (fd_i_queue h) TINY_FD_QUEUE_I_FRAME data with
  | (Some slot, q) =>
      let q := upd_slot slot (fun f =>
                 f <| fi_address := __peer_to_address_field h peer |>
                   <| fi_control := u8 (Z.shiftl (last_ns (control_at h peer)) 1) |>) q in
      let h := h <| fd_i_queue := q |> in
      let h := upd_control peer (fun c => c <| last_ns := seq_succ (last_ns c) |>) h in
      (true, fd_events_set FD_EVENT_TX_DATA_AVAILABLE h)
  | (None, q) => (false, h <| fd_i_queue := q |>)
  end.

(** ** Unbounded counters *)

(** [c] is the control block after [s] frames were confirmed, [l] queued and [r]
    received, with frame number [n] the next to send; at most seven frames are
    unconfirmed.  [n] lies between [s] and [l] as long as no acknowledgement
    arrives for frames the sender has gone back over. *)
Record window (s n l r : Z) (c : i_queue_control_t) : Prop := mk_window {
  win_confirm : confirm_ns c = s mod 8;
  win_next : next_ns c = n mod 8;
  win_last : last_ns c = l mod 8;
  win_recv : next_nr c = r mod 8;
  win_size : s <= l <= s + 7
}.

Lemma land_seq x : Z.land x seq_bits_mask = x mod 8.
Proof. change seq_bits_mask with (Z.ones 3). by rewrite Z.land_ones. Qed.

Lemma seq_succ_mod x : seq_succ (x mod 8) = (x + 1) mod 8.
Proof. unfold seq_succ. by rewrite land_seq, Z.add_mod_idemp_l. Qed.

Lemma seq_pred_mod x : seq_pred (x mod 8) = (x - 1) mod 8.
Proof. unfold seq_pred. by rewrite land_seq, Zminus_mod_idemp_l. Qed.

Lemma seq_succ_range x : 0 <= seq_succ x < 8.
Proof. unfold seq_succ. rewrite land_seq. by apply Z.mod_pos_bound. Qed.

Lemma seq_pred_range x : 0 <= seq_pred x < 8.
Proof. unfold seq_pred. rewrite land_seq. by apply Z.mod_pos_bound. Qed.

(** Numbers less than eight apart are equal when they are equal modulo 8. *)
Lemma mod8_inj a b : a mod 8 = b mod 8 -> -8 < a - b < 8 -> a = b.
Proof.
  intros E H. assert (Hm : (a - b) mod 8 = 0) by (rewrite Zminus_mod, E, Z.sub_diag; done).
  apply Z.mod_divide in Hm as [k Hk]; lia.
Qed.

Lemma mod8_eqb a b : -8 < a - b < 8 -> (a mod 8 =? b mod 8) = (a =? b).
Proof.
  intros H. destruct (Z.eqb_spec a b) as [->|Hne]; [by rewrite Z.eqb_refl|].
  apply Z.eqb_neq. intros E. apply Hne. by apply mod8_inj.
Qed.

(** ** The operations on the counters *)

Lemma window_unconfirmed s n l r c :
  window s n l r c -> __i_queue_control_has_unconfirmed_frames c = (s <? l).
Proof.
  intros []. unfold __i_queue_control_has_unconfirmed_frames. rewrite win_confirm0, win_last0.
  rewrite mod8_eqb by lia. destruct (Z.eqb_spec s l), (Z.ltb_spec s l); done || lia.
Qed.

Lemma window_all_sent s n l r c :
  window s n l r c -> s <= n <= l -> __all_frames_are_sent c = (n =? l).
Proof.
  intros [] Hn. unfold __all_frames_are_sent. rewrite win_next0, win_last0, mod8_eqb by lia.
  apply Z.eqb_sym.
Qed.

Lemma window_tx_full s n l r c :
  window s n l r c -> __i_queue_control_tx_full c = (l =? s + 7).
Proof.
  intros []. unfold __i_queue_control_tx_full. rewrite negb_involutive, win_confirm0, win_last0.
  rewrite seq_succ_mod.
  replace (s mod 8) with ((s + 8) mod 8) by (rewrite <- (Z.mod_add s 1 8) by done; f_equal; lia).
  rewrite mod8_eqb by lia. destruct (Z.eqb_spec (l + 1) (s + 8)), (Z.eqb_spec l (s + 7)); done || lia.
Qed.

Lemma window_move_next s n l r c :
  window s n l r c -> window s (n + 1) l r (__i_queue_control_move_to_next_ns c).
Proof. intros []. split; cbn; try done. by rewrite win_next0, seq_succ_mod. Qed.

Lemma window_move_previous s n l r c :
  window s n l r c -> window s (n - 1) l r (__i_queue_control_move_to_previous_ns c).
Proof. intros []. split; cbn; try done. by rewrite win_next0, seq_pred_mod. Qed.

Lemma window_receive s n l r c :
  window s n l r c -> window s n l (r + 1) (__i_queue_control_move_to_next_frame_to_receive c).
Proof. intros []. split; cbn; try done. by rewrite win_recv0, seq_succ_mod. Qed.

Lemma window_confirm s n l r c :
  window s n l r c -> s < l -> window (s + 1) n l r (c <| confirm_ns := seq_succ (confirm_ns c) |>).
Proof. intros [] Hl. split; cbn; try done; [by rewrite win_confirm0, seq_succ_mod|lia]. Qed.

Lemma window_queue s n l r c :
  window s n l r c -> l < s + 7 -> window s n (l + 1) r (c <| last_ns := seq_succ (last_ns c) |>).
Proof. intros [] Hl. split; cbn; try done; [by rewrite win_last0, seq_succ_mod|lia]. Qed.

Lemma window_reset c : window 0 0 0 0 (__reset_i_queue_control c).
Proof. by split. Qed.

(** Going back: to the requested frame when it is in the window, otherwise to
    the first unconfirmed one. *)
Lemma restransmit_loop_spec fuel s n l r c a :
  window s n l r c -> s <= n <= l -> n - s < Z.of_nat fuel ->
  (s <= a <= n -> exists c', restransmit_loop fuel (a mod 8) c = Some c' /\ window s a l r c') /\
   ((forall i, s <= i <= n -> i mod 8 <> a mod 8) ->
   exists c', restransmit_loop fuel (a mod 8) c = Some c' /\ window s s l r c').
Proof.
  revert n c. induction fuel as [|fuel IH]; intros n c Hw Hn Hf; [lia|]. pose proof Hw as [].
  cbn [restransmit_loop]. rewrite win_next0, win_confirm0.
  rewrite (mod8_eqb s n) by lia.
  assert (Hback : s < n -> (s <= a <= n -> a <> n -> exists c',
            restransmit_loop fuel (a mod 8) (__i_queue_control_move_to_previous_ns c) = Some c' /\
   window s a l r c') /\
   ((forall i, s <= i <= n -> i mod 8 <> a mod 8) -> exists c',
            restransmit_loop fuel (a mod 8) (__i_queue_control_move_to_previous_ns c) = Some c' /\
   window s s l r c')).
  { intros Hlt. destruct (IH (n - 1) (__i_queue_control_move_to_previous_ns c)) as [H1 H2];
      [by apply window_move_previous|lia|lia|]. split.
    - intros Ha Hne. apply H1. lia.
    - intros Hi. apply H2. intros i Hr. apply Hi. lia. }
  split.
  - intros Ha. rewrite mod8_eqb by lia. destruct (Z.eqb_spec n a) as [->|Hne]; cbn [negb]; [eauto|].
    destruct (Z.eqb_spec s n); [lia|]. apply Hback; lia.
  - intros Hi. destruct (Z.eqb_spec (n mod 8) (a mod 8)) as [E|E]; [exfalso; apply (Hi n); [lia|done]|]. cbn [negb].
    destruct (Z.eqb_spec s n) as [->|]; [eauto|]. apply Hback; [lia|done].
Qed.

(** ** Confirmation *)

Section Confirm.

Context {US : Type} (peer : Z) (cb : Z -> fd_world US -> bool * fd_world US).

(** The callback does not touch the control block of the peer (it does
    not queue frames for it). *)
Class CallbackKeepsControl : Prop :=
  callback_keeps : forall nr w,
    (Z.to_nat peer < length (fd_peers (handle w)))%nat ->
    length (fd_peers (handle (snd (cb nr w)))) = length (fd_peers (handle w)) /\
   control_at (handle (snd (cb nr w))) peer = control_at (handle w) peer.

(** One confirmed frame. *)
Definition confirm_one (w : fd_world US) : fd_world US :=
  let '(_, w) := cb (confirm_ns (control_at (handle w) peer)) w in
  w <| handle ::= upd_control peer (fun c => c <| confirm_ns := seq_succ (confirm_ns c) |>) |>.

Lemma control_at_upd h f :
  (Z.to_nat peer < length (fd_peers h))%nat ->
  control_at (upd_control peer f h) peer = f (control_at h peer).
Proof using Type.
  intros Hp. unfold control_at, upd_control, upd_peer, peer_at. cbn.
  destruct (lookup_lt_is_Some_2 _ _ Hp) as [x Hx].
  rewrite !nth_lookup, list_lookup_alter_eq, Hx. done.
Qed.

Lemma peers_upd_length f h : length (fd_peers (upd_peer peer f h)) = length (fd_peers h).
Proof using Type. unfold upd_peer. cbn. by rewrite length_alter. Qed.

Lemma confirm_one_window `{!CallbackKeepsControl} w s n l r :
  (Z.to_nat peer < length (fd_peers (handle w)))%nat ->
  window s n l r (control_at (handle w) peer) -> s < l ->
  (Z.to_nat peer < length (fd_peers (handle (confirm_one w))))%nat /\
   window (s + 1) n l r (control_at (handle (confirm_one w)) peer).
Proof using Type.
  intros Hp Hw Hl. unfold confirm_one.
  destruct (callback_keeps (confirm_ns (control_at (handle w) peer)) w Hp) as [Hlen Hc].
  destruct (cb _ w) as [b w']. cbn [snd] in *. cbn. rewrite length_alter, Hlen. split; [done|].
  rewrite control_at_upd by (by rewrite Hlen). rewrite Hc. by apply window_confirm.
Qed.

Lemma confirm_loop_spec `{!CallbackKeepsControl} fuel nr w s n l r :
  (Z.to_nat peer < length (fd_peers (handle w)))%nat ->
  window s n l r (control_at (handle w) peer) -> l - s < Z.of_nat fuel -> 0 <= nr < 8 ->
  let a := s + (nr - s) mod 8 in
  let k := Z.to_nat ((if a <=? l then a else l) - s) in
  confirm_loop fuel peer nr cb w = Some (Nat.iter k confirm_one w) /\
   window (if a <=? l then a else l) n l r (control_at (handle (Nat.iter k confirm_one w)) peer).
Proof using Type.
  intros Hp Hw Hf Hnr a k.
  assert (Ha : s <= a < s + 8).
  { unfold a. pose proof (Z.mod_pos_bound (nr - s) 8). lia. }
  assert (Han : a mod 8 = nr).
  { unfold a. rewrite Z.add_mod_idemp_r by lia. replace (s + (nr - s)) with nr by lia.
    by apply Z.mod_small. }
  clearbody a. subst k. revert w s Hp Hw Hf Ha.
  induction fuel as [|fuel IH]; intros w s Hp Hw Hf Ha; [destruct Hw; lia|].
  pose proof Hw as []. cbn [confirm_loop]. rewrite (window_unconfirmed s n l r) by done.
  rewrite win_confirm0, <- Han, mod8_eqb by lia.
  destruct (Z.eqb_spec a s) as [->|Hne]; cbn [negb].
  { rewrite (proj2 (Z.leb_le s l)) by lia. rewrite Z.sub_diag. done. }
  destruct (Z.ltb_spec s l) as [Hl|Hl]; cbn [negb].
  - destruct (confirm_one_window w s n l r Hp Hw Hl) as [Hp1 Hw1].
    destruct (IH (confirm_one w) (s + 1) Hp1 Hw1) as [Hrun Hw2]; [lia|lia|].
    set (t := if a <=? l then a else l) in *.
    assert (s + 1 <= t) by (unfold t; destruct (Z.leb_spec a l); lia).
    replace (Z.to_nat (t - s)) with (S (Z.to_nat (t - (s + 1)))) by lia.
    rewrite Nat.iter_succ_r. split; [|done]. rewrite <- Hrun, Han. unfold confirm_one.
    rewrite win_confirm0. by destruct (cb (s mod 8) w).
  - assert (s = l) as -> by lia. rewrite (proj2 (Z.leb_gt a l)) by lia. rewrite Z.sub_diag. done.
Qed.

End Confirm.

(** ** Properties *)

(** C24: the modulo-8 window implements unbounded counters.  While at most seven
    frames are unconfirmed, the tests of the control block decide the
    corresponding comparisons of the counters, moving forward and receiving
    increment them, and a request to go back to a frame of the window reaches
    exactly it, while a request for any other number stops at the first
    unconfirmed frame. *)
Theorem i_queue_control_counters (s n l r : Z) (c : i_queue_control_t)
  (Hw : window s n l r c) (Hn : s <= n <= l) :
  __i_queue_control_has_unconfirmed_frames c = (s <? l) /\
  __all_frames_are_sent c = (n =? l) /\
  __i_queue_control_tx_full c = (l =? s + 7) /\
  window s (n + 1) l r (__i_queue_control_move_to_next_ns c) /\
  window s n l (r + 1) (__i_queue_control_move_to_next_frame_to_receive c) /\
  (forall a, s <= a <= n -> window s a l r (snd (__i_queue_control_restransmit_frame c (a mod 8)))) /\
  (forall a, (forall i, s <= i <= n -> i mod 8 <> a mod 8) ->
     window s s l r (snd (__i_queue_control_restransmit_frame c (a mod 8)))).
Proof.
  pose proof Hw as []. assert (Hf : n - s < Z.of_nat 9) by lia.
  split_and!; [by eapply window_unconfirmed|by eapply window_all_sent|by eapply window_tx_full|
    by apply window_move_next|by apply window_receive|..]; intros a Ha;
    destruct (restransmit_loop_spec 9 s n l r c a Hw Hn Hf) as [H1 H2];
    unfold __i_queue_control_restransmit_frame.
  - destruct (H1 Ha) as (c' & -> & Hc'). done.
  - destruct (H2 Ha) as (c' & -> & Hc'). done.
Qed.

(** Frames 6, 7, 8 unconfirmed, 8 not yet sent. *)
Definition sample_control : i_queue_control_t := mk_i_queue_control 1 6 0 3.

Lemma i_queue_control_counters_witness :
  __i_queue_control_has_unconfirmed_frames sample_control = true /\
  __all_frames_are_sent sample_control = false /\
  next_ns (snd (__i_queue_control_restransmit_frame sample_control (6 mod 8))) = 6.
Proof.
  assert (Hw : window 6 8 9 3 sample_control) by (split; cbn; done || lia).
  destruct (i_queue_control_counters 6 8 9 3 sample_control Hw) as (H1 & H2 & _ & _ & _ & H3 & _);
    [lia|].
  split_and!; [exact H1|exact H2|]. apply (win_next _ _ _ _ _ (H3 6 ltac:(lia))).
Defined.

(** Confirmation.  With a callback that leaves the control block alone, an
    N(R) in the window confirms exactly the frames before it, one callback each
    and in order; any other N(R) confirms every queued frame (the case
    the code marks as out of sync).  The loop ends within nine tests. *)
Theorem confirm_sent_frames_window {US : Type} (peer nr s n l r : Z)
  (cb : Z -> fd_world US -> bool * fd_world US) (w : fd_world US)
  (Hcb : CallbackKeepsControl peer cb)
  (Hpeer : (Z.to_nat peer < length (fd_peers (handle w)))%nat)
  (Hw : window s n l r (control_at (handle w) peer)) (Hnr : 0 <= nr < 8) :
  let confirmed := if (nr - s) mod 8 <=? l - s then s + (nr - s) mod 8 else l in
  let w' := Nat.iter (Z.to_nat (confirmed - s)) (confirm_one peer cb) w in
  __i_queue_control_confirm_sent_frames peer nr cb w = (negb (l =? confirmed + 7), w') /\
  window confirmed n l r (control_at (handle w') peer).
Proof.
  intros confirmed w'.
  destruct (confirm_loop_spec peer cb 9 nr w s n l r Hpeer Hw) as [Hrun Hw']; [destruct Hw; lia|done|].
  assert (Hc : (if s + (nr - s) mod 8 <=? l then s + (nr - s) mod 8 else l) = confirmed).
  { unfold confirmed. destruct (Z.leb_spec (s + (nr - s) mod 8) l), (Z.leb_spec ((nr - s) mod 8) (l - s));
      done || lia. }
  rewrite Hc in *. split; [|done]. unfold __i_queue_control_confirm_sent_frames. rewrite Hrun.
  fold w'. by rewrite (window_tx_full confirmed n l r).
Qed.

Definition sample_world : fd_world (list Z) :=
  mk_fd_world (upd_control 0 (fun _ => sample_control) sample_primary) 0 [].

(** A callback that records the numbers it gets. *)
Definition record_nr (nr : Z) (w : fd_world (list Z)) : bool * fd_world (list Z) :=
  (true, w <| user ::= fun l => l ++ [nr] |>).

Lemma confirm_sent_frames_window_witness :
  user (snd (__i_queue_control_confirm_sent_frames 0 0 record_nr sample_world)) = [6; 7] /\
  window 8 8 9 3 (control_at (handle (Nat.iter 2 (confirm_one 0 record_nr) sample_world)) 0).
Proof.
  destruct (confirm_sent_frames_window 0 0 6 8 9 3 record_nr sample_world) as [H1 H2].
  - intros nr w _. done.
  - apply Nat.ltb_lt. by vm_compute.
  - split; cbn; done || lia.
  - lia.
  - split; [|exact H2]. by rewrite H1.
Defined.
