(* ===== verification/FdLog.v ===== *)
(** * Frame logging (src/proto/fd/tiny_fd_proto_logger.c)

    How the protocol classifies a control byte for the log callback, and that
    the classification reads back what the frame constructors wrote. *)

From Stdlib Require Import String.
From S2P Require Import Prelude FdTypes.

(** ** Operations *)

Definition __get_frame_type (control : Z) : tiny_fd_frame_type_t :=
  if Z.land control HDLC_I_FRAME_MASK =? HDLC_I_FRAME_BITS then TINY_FD_FRAME_TYPE_I
  else if Z.land control HDLC_S_FRAME_MASK =? HDLC_S_FRAME_BITS then TINY_FD_FRAME_TYPE_S
  else TINY_FD_FRAME_TYPE_U.

(** [tiny_fd_frame_subtype_t] values are the masked bits. *)
Definition TINY_FD_FRAME_SUBTYPE_RR : Z := 0x00.

Definition __get_frame_subtype (control : Z) : Z :=
  match __get_frame_type control with
  | TINY_FD_FRAME_TYPE_I => TINY_FD_FRAME_SUBTYPE_RR
  | TINY_FD_FRAME_TYPE_S => Z.land control HDLC_S_FRAME_TYPE_MASK
  | TINY_FD_FRAME_TYPE_U => Z.land control HDLC_U_FRAME_TYPE_MASK
  end.

Definition __get_frame_sequence (control : Z) : Z :=
  match __get_frame_type control with
  | TINY_FD_FRAME_TYPE_I => Z.land (Z.shiftr control 1) 0x07
  | _ => 0
  end.

Definition __get_awaiting_sequence (control : Z) : Z :=
  match __get_frame_type control with
  | TINY_FD_FRAME_TYPE_I => Z.shiftr control 5
  | TINY_FD_FRAME_TYPE_S => Z.shiftr control 5
  | TINY_FD_FRAME_TYPE_U => 0
  end.

Definition __get_frame_type_str (control : Z) : string :=
  match __get_frame_type control with
  | TINY_FD_FRAME_TYPE_I => "I"
  | TINY_FD_FRAME_TYPE_S => "S"
  | TINY_FD_FRAME_TYPE_U => "U"
  end.

Definition __get_frame_subtype_str (control : Z) : string :=
  match __get_frame_type control with
  | TINY_FD_FRAME_TYPE_I => "    "
  | TINY_FD_FRAME_TYPE_S =>
      let t := Z.land control HDLC_S_FRAME_TYPE_MASK in
      if t =? HDLC_S_FRAME_TYPE_RR then "  RR"
      else if t =? HDLC_S_FRAME_TYPE_RNR then " RNR"
      else if t =? HDLC_S_FRAME_TYPE_REJ then " REJ"
      else if t =? HDLC_S_FRAME_TYPE_SREJ then "SREJ"
      else " UNK"
  | TINY_FD_FRAME_TYPE_U =>
      let t := Z.land control HDLC_U_FRAME_TYPE_MASK in
      if t =? HDLC_U_FRAME_TYPE_UA then "  UA"
      else if t =? HDLC_U_FRAME_TYPE_DM then "  DM"
      else if t =? HDLC_U_FRAME_TYPE_FRMR then "FRMR"
      else if t =? HDLC_U_FRAME_TYPE_RSET then "RSET"
      else if t =? HDLC_U_FRAME_TYPE_SABM then "SABM"
      else if t =? HDLC_U_FRAME_TYPE_SNRM then "SNRM"
      else if t =? HDLC_U_FRAME_TYPE_DISC then "DISC"
      else if t =? HDLC_U_FRAME_TYPE_UI then "  UI"
      else " UNK"
  end.

Section Log.

Context {US : Type} (cbs : fd_callbacks US).

(** [__tiny_fd_log_frame] with a non-null handle. *)
Definition __tiny_fd_log_frame (direction : tiny_fd_frame_direction_t) (data : list Z)
  (w : fd_world US) : fd_world US :=
  match data with
  | _ :: control :: _ =>
      match log_frame_cb cbs with
      | Some cb => cb w direction (__get_frame_type control) (__get_frame_subtype control)
                      (__get_frame_sequence control) (__get_awaiting_sequence control) data
      | None => w
      end
  | _ => w
  end.

End Log.
