(* ===== verification/FdService.v ===== *)
(** * Service frames (src/proto/fd/tiny_fd_service_queue.c)

    S- and U-frames wait in [fd_s_queue]; a frame to send is a reference to a slot
    of one of the two queues. *)

From S2P Require Import Prelude FdTypes FdQueue FdPeers.

(** A pointer to the header of a queued frame: the slot it is in. *)
Inductive frame_ref : Type := InIQueue (i : nat) | InSQueue (i : nat).

Definition ref_slot (h : tiny_fd_data_t) (r : frame_ref) : tiny_fd_frame_info_t :=
  match r with
  | InIQueue i => slot_at (fd_i_queue h) (Z.of_nat i)
  | InSQueue i => slot_at (fd_s_queue h) (Z.of_nat i)
  end.

(** An assignment through the pointer. *)
Definition upd_ref (r : frame_ref) (f : tiny_fd_frame_info_t -> tiny_fd_frame_info_t)
  (h : tiny_fd_data_t) : tiny_fd_data_t :=
  match r with
  | InIQueue i => h <| fd_i_queue ::= upd_slot i f |>
  | InSQueue i => h <| fd_s_queue ::= upd_slot i f |>
  end.

(** [len] of the frame with its header. *)
Definition ref_len (h : tiny_fd_data_t) (r : frame_ref) : Z := fi_len (ref_slot h r) + 2.

(** ** Operations *)

(** [data] is the whole frame: address, control and up to two more bytes. *)
Definition __put_u_s_frame_to_tx_queue (h : tiny_fd_data_t) (type : Z) (data : list Z)
  : option nat * tiny_fd_data_t :=
  match tiny_fd_queue_allocate (fd_s_queue h) type (drop 2 data) with
  | (Some slot, q) =>
      let q := upd_slot slot (fun f => f <| fi_address := nth 0 data 0 |>
                                         <| fi_control := nth 1 data 0 |>) q in
      (Some slot, fd_events_set FD_EVENT_TX_DATA_AVAILABLE (h <| fd_s_queue := q |>))
  | (None, q) => (None, h <| fd_s_queue := q |>)
  end.

(** The same, for callers that ignore the result. *)
Definition put_u_s (type : Z) (data : list Z) (h : tiny_fd_data_t) : tiny_fd_data_t :=
  snd (__put_u_s_frame_to_tx_queue h type data).

Definition tiny_fd_get_next_s_u_frame_to_send (h : tiny_fd_data_t) (peer address : Z)
  : option frame_ref * tiny_fd_data_t :=
  match tiny_fd_queue_get_next (fd_s_queue h)
          (Z.lor TINY_FD_QUEUE_S_FRAME TINY_FD_QUEUE_U_FRAME) address 0 with
  | Some i =>
      let control := fi_control (slot_at (fd_s_queue h) (Z.of_nat i)) in
      let h := if Z.land control HDLC_S_FRAME_MASK =? HDLC_S_FRAME_BITS
               then upd_peer peer (fun p => p <| pi_sent_nr := Z.shiftr control 5 |>) h else h in
      (Some (InSQueue i), h)
  | None => (None, h)
  end.
