(* ===== verification/FdTx.v ===== *)
(** * Acknowledged and repeated frames (src/proto/fd/tiny_fd_tx.c)

    Acknowledging sent frames frees their slots and reports them to the
    application; a reject or a timeout moves the window back. *)

From S2P Require Import Prelude FdTypes FdQueue FdPeers FdIQueue FdService.

(** [handle->...] operations on the world. *)
Definition on_handle {US} (f : tiny_fd_data_t -> tiny_fd_data_t) (w : fd_world US) : fd_world US :=
  w <| handle ::= f |>.

(** A callback of the application, with the mutex released around it. *)
Definition unlocked {US} (cb : fd_world US -> fd_world US) (w : fd_world US) : fd_world US :=
  on_handle tiny_mutex_lock (cb (on_handle tiny_mutex_unlock w)).

(** The address of the peer station the callbacks are given. *)
Definition app_address (h : tiny_fd_data_t) (peer : Z) : Z :=
  if __is_primary_station h then Z.shiftr (__peer_to_address_field h peer) 2
  else TINY_FD_PRIMARY_ADDR.

(** The user payload of a slot. *)
Definition slot_payload (f : tiny_fd_frame_info_t) : list Z :=
  take (Z.to_nat (fi_len f)) (fi_payload f).

Section Tx.

Context {US : Type} (cbs : fd_callbacks US).

Definition __on_frame_confirmed (peer nr : Z) (w : fd_world US) : bool * fd_world US :=
  let address := __peer_to_address_field (handle w) peer in
  match tiny_fd_queue_get_next (fd_i_queue (handle w)) TINY_FD_QUEUE_I_FRAME address nr with
  | Some slot =>
      let w :=
        match on_send_cb cbs with
        | Some cb =>
            unlocked (fun w => cb w (app_address (handle w) peer)
                                 (slot_payload (slot_at (fd_i_queue (handle w)) (Z.of_nat slot)))) w
        | None => w
        end in
      let w := on_handle (fun h => h <| fd_i_queue ::= fun q => tiny_fd_queue_free q slot |>) w in
      let w := if tiny_fd_queue_has_free_slots (fd_i_queue (handle w))
               then on_handle (fd_events_set FD_EVENT_QUEUE_HAS_FREE_SLOTS) w else w in
      (true, on_handle (upd_peer peer (fun p => p <| pi_retries := fd_retries (handle w) |>)) w)
  | None =>
      (false, on_handle (upd_peer peer (fun p => p <| pi_retries := fd_retries (handle w) |>)) w)
  end.

Definition __confirm_sent_frames (peer nr : Z) (w : fd_world US) : fd_world US :=
  let '(can_accept, w) := __i_queue_control_confirm_sent_frames peer nr (__on_frame_confirmed peer) w in
  if can_accept then on_handle (peer_events_set peer FD_EVENT_CAN_ACCEPT_I_FRAMES) w else w.

End Tx.

(** The loop of [__resend_all_unconfirmed_frames]; [None] means the fuel ran out. *)
Fixpoint resend_loop (fuel : nat) (peer control nr : Z) (h : tiny_fd_data_t)
  : option tiny_fd_data_t :=
  match fuel with
  | O => None
  | S fuel =>
      let c := control_at h peer in
      if negb (__i_queue_control_get_next_frame_to_send c =? nr) then
        if __i_queue_control_get_next_frame_to_confirm c =? __i_queue_control_get_next_frame_to_send c
        then
          Some (put_u_s TINY_FD_QUEUE_U_FRAME
                  [Z.lor (__peer_to_address_field h peer) HDLC_CR_BIT;
                   Z.lor HDLC_U_FRAME_TYPE_FRMR HDLC_U_FRAME_BITS;
                   control;
                   u8 (Z.lor (Z.shiftl (__i_queue_control_get_next_frame_to_receive c) 5)
                             (Z.shiftl (__i_queue_control_get_next_frame_to_send c) 1))] h)
        else resend_loop fuel peer control nr (upd_control peer __i_queue_control_move_to_previous_ns h)
      else Some h
  end.

Definition __resend_all_unconfirmed_frames (peer control nr : Z) (h : tiny_fd_data_t)
  : tiny_fd_data_t :=
  match resend_loop 9 peer control nr h with
  | Some h => fd_events_set FD_EVENT_TX_DATA_AVAILABLE h
  | None => h
  end.
