(* ===== verification/FdRx.v ===== *)
(** * Received frames (src/proto/fd/tiny_fd_on_rx_int.h and the state changes of tiny_fd.c)

    Connection and disconnection of a peer, and the handlers of I-, S- and
    U-frames.  [data] is the received frame: address, control, payload. *)

From S2P Require Import Prelude FdTypes FdQueue FdPeers FdIQueue FdLog FdService FdTx.

(** The first two bytes of a frame. *)
Definition frame_address (data : list Z) : Z := nth 0 data 0.
Definition frame_control (data : list Z) : Z := nth 1 data 0.

(** A control byte made of a frame type and N(R) in the upper three bits. *)
Definition s_control (type nr : Z) : Z :=
  u8 (Z.lor (Z.lor HDLC_S_FRAME_BITS type) (Z.shiftl nr 5)).

Section Rx.

Context {US : Type} (millis : nat -> Z) (cbs : fd_callbacks US).

(** ** Connection state (tiny_fd.c) *)

(** The fields both switches reset. *)
Definition reset_link (state : tiny_fd_state_t) (p : tiny_fd_peer_info_t) : tiny_fd_peer_info_t :=
  p <| pi_state := state |> <| pi_i_queue_control ::= __reset_i_queue_control |>
    <| pi_sent_nr := 0 |> <| pi_sent_reject := 0 |> <| pi_srej_req_mask := 0 |>.

Definition flush_peer (peer : Z) (h : tiny_fd_data_t) : tiny_fd_data_t :=
  h <| fd_i_queue ::= fun q => tiny_fd_queue_reset_for q (__peer_to_address_field h peer) |>.

Definition __switch_to_connected_state (peer : Z) (w : fd_world US) : fd_world US :=
  if bool_decide (pi_state (peer_at (handle w) peer) = TINY_FD_STATE_CONNECTED) then w else
  let w := on_handle (upd_peer peer (reset_link TINY_FD_STATE_CONNECTED)) w in
  let w := on_handle (flush_peer peer) w in
  let '(now, w) := tiny_millis millis w in
  let w := on_handle (upd_peer peer (fun p => p <| pi_last_received_frame_ts := now |>)) w in
  let '(now, w) := tiny_millis millis w in
  let w := on_handle (upd_peer peer (fun p => p <| pi_last_sent_frame_ts := now |>)) w in
  let w := on_handle (peer_events_set peer FD_EVENT_CAN_ACCEPT_I_FRAMES) w in
  let w := on_handle (fun h => fd_events_set
             (Z.lor FD_EVENT_TX_DATA_AVAILABLE
                (if tiny_fd_queue_has_free_slots (fd_i_queue h)
                 then FD_EVENT_QUEUE_HAS_FREE_SLOTS else 0)) h) w in
  match on_connect_event_cb cbs with
  | Some cb => unlocked (fun w => cb w (app_address (handle w) peer) true) w
  | None => w
  end.

Definition __switch_to_disconnected_state (peer : Z) (w : fd_world US) : fd_world US :=
  if bool_decide (pi_state (peer_at (handle w) peer) = TINY_FD_STATE_DISCONNECTED) then w else
  let w := on_handle (upd_peer peer (reset_link TINY_FD_STATE_DISCONNECTED)) w in
  let w := on_handle (flush_peer peer) w in
  let w := on_handle (peer_events_clear peer FD_EVENT_CAN_ACCEPT_I_FRAMES) w in
  match on_connect_event_cb cbs with
  | Some cb => unlocked (fun w => cb w (app_address (handle w) peer) false) w
  | None => w
  end.

(** ** I-frames *)

Definition __check_received_frame (peer ns : Z) (h : tiny_fd_data_t) : Z * tiny_fd_data_t :=
  let expected := __i_queue_control_get_next_frame_to_receive (control_at h peer) in
  if ns =? expected then
    let h := upd_control peer __i_queue_control_move_to_next_frame_to_receive h in
    (TINY_SUCCESS, upd_peer peer (fun p => p <| pi_sent_reject := 0 |>) h)
  else if negb (nz (pi_sent_reject (peer_at h peer))) then
    let frame := [Z.lor (__peer_to_address_field h peer) HDLC_CR_BIT;
                  s_control HDLC_S_FRAME_TYPE_REJ expected] in
    let h := upd_peer peer (fun p => p <| pi_sent_reject := 1 |>) h in
    (TINY_ERR_FAILED, put_u_s TINY_FD_QUEUE_S_FRAME frame h)
  else (TINY_ERR_FAILED, h).

(** The RR that confirms received frames when there is nothing to send. *)
Definition confirm_with_rr (peer : Z) (h : tiny_fd_data_t) : tiny_fd_data_t :=
  let c := control_at h peer in
  if __all_frames_are_sent c &&
     negb (pi_sent_nr (peer_at h peer) =? __i_queue_control_get_next_frame_to_receive c)
  then put_u_s TINY_FD_QUEUE_S_FRAME
         [__peer_to_address_field h peer;
          s_control HDLC_S_FRAME_TYPE_RR (__i_queue_control_get_next_frame_to_receive c)] h
  else h.

Definition __on_i_frame_read (peer : Z) (data : list Z) (w : fd_world US) : Z * fd_world US :=
  let control := frame_control data in
  let nr := Z.shiftr control 5 in
  let ns := Z.land (Z.shiftr control 1) 0x07 in
  let '(result, h) := __check_received_frame peer ns (handle w) in
  let w := w <| handle := h |> in
  let w := __confirm_sent_frames cbs peer nr w in
  if result =? TINY_SUCCESS then
    let w :=
      match on_read_cb cbs with
      | Some cb => unlocked (fun w => cb w (app_address (handle w) peer) (drop 2 data)) w
      | None => w
      end in
    (result, on_handle (confirm_with_rr peer) w)
  else (result, w).

(** ** S-frames *)

Definition __on_s_frame_read (peer : Z) (data : list Z) (w : fd_world US) : Z * fd_world US :=
  let address := frame_address data in
  let control := frame_control data in
  let nr := Z.shiftr control 5 in
  let type := Z.land control HDLC_S_FRAME_TYPE_MASK in
  let w :=
    if type =? HDLC_S_FRAME_TYPE_REJ then
      let w := __confirm_sent_frames cbs peer nr w in
      on_handle (__resend_all_unconfirmed_frames peer control nr) w
    else if type =? HDLC_S_FRAME_TYPE_RR then
      let w := __confirm_sent_frames cbs peer nr w in
      if nz (Z.land address HDLC_CR_BIT) then
        let c := control_at (handle w) peer in
        if __all_frames_are_sent c then
          on_handle (fun h => put_u_s TINY_FD_QUEUE_S_FRAME
            [__peer_to_address_field h peer;
             s_control (Z.lor HDLC_S_FRAME_TYPE_RR (Z.land control HDLC_P_BIT))
               (__i_queue_control_get_next_frame_to_receive c)] h) w
        else w
      else w
    else if type =? HDLC_S_FRAME_TYPE_RNR then __confirm_sent_frames cbs peer nr w
    else if type =? HDLC_S_FRAME_TYPE_SREJ then
      let w := __confirm_sent_frames cbs peer nr w in
      let w := on_handle (upd_peer peer (fun p =>
                 p <| pi_srej_req_mask ::= fun m => u8 (Z.lor m (Z.shiftl 1 nr)) |>)) w in
      on_handle (fd_events_set FD_EVENT_TX_DATA_AVAILABLE) w
    else w in
  (TINY_ERR_FAILED, w).

(** ** U-frames *)

(** [HDLC_U_FRAME_TYPE_SNRM] or [HDLC_U_FRAME_TYPE_SABM], by mode. *)
Definition connect_type (h : tiny_fd_data_t) : Z :=
  if fd_mode h =? TINY_FD_MODE_NRM then HDLC_U_FRAME_TYPE_SNRM else HDLC_U_FRAME_TYPE_SABM.

(** Queue a U-frame of the given type; [cr] is [HDLC_CR_BIT] for a command. *)
Definition put_u (peer cr type : Z) (h : tiny_fd_data_t) : tiny_fd_data_t :=
  put_u_s TINY_FD_QUEUE_U_FRAME
    [Z.lor (__peer_to_address_field h peer) cr; Z.lor type HDLC_U_FRAME_BITS] h.

Definition __on_u_frame_read (peer : Z) (data : list Z) (w : fd_world US) : Z * fd_world US :=
  let type := Z.land (frame_control data) HDLC_U_FRAME_TYPE_MASK in
  let state (w : fd_world US) := pi_state (peer_at (handle w) peer) in
  let w :=
    if bool_decide (state w = TINY_FD_STATE_DISCONNECTED) &&
       negb (type =? HDLC_U_FRAME_TYPE_SABM) && negb (type =? HDLC_U_FRAME_TYPE_SNRM) &&
       negb (type =? HDLC_U_FRAME_TYPE_UI)
    then
      if nz (Z.land (frame_address data) HDLC_CR_BIT)
      then on_handle (put_u peer 0 HDLC_U_FRAME_TYPE_DM) w else w
    else if (type =? HDLC_U_FRAME_TYPE_SABM) || (type =? HDLC_U_FRAME_TYPE_SNRM) then
      let w := on_handle (put_u peer 0 HDLC_U_FRAME_TYPE_UA) w in
      let w := if negb (bool_decide (state w = TINY_FD_STATE_DISCONNECTED)) &&
                  negb (bool_decide (state w = TINY_FD_STATE_CONNECTING))
               then __switch_to_disconnected_state peer w else w in
      __switch_to_connected_state peer w
    else if type =? HDLC_U_FRAME_TYPE_DISC then
      let w := on_handle (put_u peer 0 HDLC_U_FRAME_TYPE_UA) w in
      __switch_to_disconnected_state peer w
    else if type =? HDLC_U_FRAME_TYPE_RSET then
      let w := on_handle (upd_peer peer (fun p =>
                 p <| pi_i_queue_control ::= __reset_i_queue_control |> <| pi_sent_nr := 0 |>
                   <| pi_sent_reject := 0 |> <| pi_srej_req_mask := 0 |>)) w in
      on_handle (put_u peer 0 HDLC_U_FRAME_TYPE_UA) w
    else if type =? HDLC_U_FRAME_TYPE_FRMR then
      let w := if negb (bool_decide (state w = TINY_FD_STATE_DISCONNECTED))
               then __switch_to_disconnected_state peer w else w in
      let w := on_handle (fun h => put_u peer HDLC_CR_BIT (connect_type h) h) w in
      on_handle (upd_peer peer (fun p => p <| pi_state := TINY_FD_STATE_CONNECTING |>)) w
    else if type =? HDLC_U_FRAME_TYPE_UA then
      if bool_decide (state w = TINY_FD_STATE_CONNECTING) then __switch_to_connected_state peer w
      else if bool_decide (state w = TINY_FD_STATE_DISCONNECTING)
           then __switch_to_disconnected_state peer w
           else w
    else if type =? HDLC_U_FRAME_TYPE_DM then
      if negb (bool_decide (state w = TINY_FD_STATE_DISCONNECTED))
      then __switch_to_disconnected_state peer w else w
    else if type =? HDLC_U_FRAME_TYPE_UI then
      match on_read_ui_cb cbs with
      | Some cb =>
          if 2 <? Z.of_nat (length data)
          then unlocked (fun w => cb w (app_address (handle w) peer) (drop 2 data)) w
          else w
      | None => w
      end
    else w in
  (TINY_ERR_FAILED, w).

(** ** Dispatch (tiny_fd.c) *)

Definition on_frame_read (data : list Z) (w : fd_world US) : fd_world US :=
  if Z.of_nat (length data) <? 2 then w else
  let w := __tiny_fd_log_frame cbs TINY_FD_FRAME_DIRECTION_IN data w in
  let peer := __address_field_to_peer (handle w) (frame_address data) in
  if peer =? HDLC_INVALID_PEER_INDEX then w else
  let w := on_handle tiny_mutex_lock w in
  let '(now, w) := tiny_millis millis w in
  let w := on_handle (upd_peer peer (fun p =>
             p <| pi_last_received_frame_ts := now |> <| pi_ka_confirmed := 1 |>)) w in
  let control := frame_control data in
  let state := pi_state (peer_at (handle w) peer) in
  let w :=
    if Z.land control HDLC_U_FRAME_MASK =? HDLC_U_FRAME_MASK then
      snd (__on_u_frame_read peer data w)
    else if negb (bool_decide (state = TINY_FD_STATE_CONNECTED)) &&
            negb (bool_decide (state = TINY_FD_STATE_DISCONNECTING)) then
      on_handle (put_u peer 0 HDLC_U_FRAME_TYPE_DM) w
    else if Z.land control HDLC_I_FRAME_MASK =? HDLC_I_FRAME_BITS then
      snd (__on_i_frame_read peer data w)
    else if Z.land control HDLC_S_FRAME_MASK =? HDLC_S_FRAME_BITS then
      snd (__on_s_frame_read peer data w)
    else w in
  let w :=
    if fd_mode (handle w) =? TINY_FD_MODE_NRM then
      if nz (Z.land control (Z.lor HDLC_P_BIT HDLC_F_BIT))
      then on_handle (fd_events_set FD_EVENT_HAS_MARKER) w else w
    else w in
  on_handle tiny_mutex_unlock w.

(** [on_frame_send] of tiny_fd.c: [header] is the address of the sent frame, [data]
    the two bytes there. *)
Definition on_frame_send (header : Z) (data : list Z) (w : fd_world US) : fd_world US :=
  let peer := __address_field_to_peer (handle w) (frame_address data) in
  let control := frame_control data in
  if peer =? HDLC_INVALID_PEER_INDEX then w else
  let w := on_handle tiny_mutex_lock w in
  let w :=
    if Z.land control HDLC_I_FRAME_MASK =? HDLC_I_FRAME_BITS then w
    else if Z.land control HDLC_S_FRAME_MASK =? HDLC_S_FRAME_BITS then
      on_handle (fun h => h <| fd_s_queue ::= fun q => tiny_fd_queue_free_by_header q header |>) w
    else if Z.land control HDLC_U_FRAME_MASK =? HDLC_U_FRAME_BITS then
      on_handle (fun h => h <| fd_s_queue ::= fun q => tiny_fd_queue_free_by_header q header |>) w
    else w in
  let '(flags_to_clear, w) :=
    if fd_mode (handle w) =? TINY_FD_MODE_NRM then
      if __is_primary_station (handle w) && nz (Z.land control HDLC_P_BIT) then
        (Z.lor FD_EVENT_TX_SENDING FD_EVENT_HAS_MARKER,
         on_handle (fun h => snd (__switch_to_next_peer h)) w)
      else if negb (__is_primary_station (handle w)) && nz (Z.land control HDLC_F_BIT) then
        (Z.lor FD_EVENT_TX_SENDING FD_EVENT_HAS_MARKER, w)
      else (FD_EVENT_TX_SENDING, w)
    else (FD_EVENT_TX_SENDING, w) in
  let w := on_handle (fd_events_clear flags_to_clear) w in
  on_handle tiny_mutex_unlock w.

End Rx.
