(* ===== verification/Fd.v ===== *)
(** * The full-duplex protocol: operations (src/proto/fd/tiny_fd.c)

    A station is the pair of its framing handle and its [fd_world]; [fd_client]
    connects the two, so that [hdlc_ll_run_rx] and [hdlc_ll_run_tx] call
    [on_frame_read] and [on_frame_send] and read the queued frames from the slots.
    Functions that do not run the link act on the [fd_world] alone. *)

From S2P Require Import Prelude Crc HdlcLL HdlcRx FdTypes FdQueue FdPeers FdIQueue FdLog.
From S2P Require Import FdService FdTx FdRx.

(** ** The memory of the queues *)

(** The byte at address [a] of a slot. *)
Definition slot_byte (f : tiny_fd_frame_info_t) (a : Z) : Z :=
  if a =? fi_addr f then fi_address f
  else if a =? fi_addr f + 1 then fi_control f
  else nth (Z.to_nat (a - fi_addr f - 2)) (fi_payload f) 0.

Definition slot_contains (a : Z) (f : tiny_fd_frame_info_t) : bool :=
  (fi_addr f <=? a) && (a <? fi_addr f + 2 + Z.of_nat (length (fi_payload f))).

Definition fd_mem (h : tiny_fd_data_t) (a : Z) : Z :=
  match List.find (slot_contains a) (q_frames (fd_i_queue h) ++ q_frames (fd_s_queue h)) with
  | Some f => slot_byte f a
  | None => 0
  end.

Section Station.

Context {US : Type} (millis : nat -> Z) (others : Z -> fd_world US -> fd_world US).
Context (cbs : fd_callbacks US).

Definition fd_client : ll_client (fd_world US) := {|
  cl_mem w a := fd_mem (handle w) a;
  cl_on_frame_read := Some (fun lw data => (fst lw, on_frame_read millis cbs data (snd lw)));
  cl_on_frame_send := Some (fun lw ptr _ =>
    let mem := fd_mem (handle (snd lw)) in
    (fst lw, on_frame_send ptr [mem ptr; mem (ptr + 1)] (snd lw)))
|}.

(** [tiny_millis() - ts] as a [uint32_t]. *)
Definition time_since (ts : Z) (w : fd_world US) : Z * fd_world US :=
  let '(now, w) := tiny_millis millis w in (u32 (now - ts), w).

Definition __time_passed_since_last_frame_received (peer : Z) (w : fd_world US) :=
  time_since (pi_last_received_frame_ts (peer_at (handle w) peer)) w.
Definition __time_passed_since_last_frame_sent (peer : Z) (w : fd_world US) :=
  time_since (pi_last_sent_frame_ts (peer_at (handle w) peer)) w.
Definition __time_passed_since_last_marker_seen (w : fd_world US) :=
  time_since (fd_last_marker_ts (handle w)) w.

(** ** Receiving *)

Definition tiny_fd_on_rx_data (lw : hdlc_ll_data_t * fd_world US) (data : list Z)
  : Z * (hdlc_ll_data_t * fd_world US) :=
  match on_rx_data fd_client lw data with
  | Some (_, lw) => (TINY_SUCCESS, lw)
  | None => (TINY_SUCCESS, lw)
  end.

(** [read_func] gets the size of the buffer and returns its result with the
    bytes it stored. *)
Definition tiny_fd_run_rx (read_func : fd_world US -> Z -> Z * list Z * fd_world US)
  (lw : hdlc_ll_data_t * fd_world US) : Z * (hdlc_ll_data_t * fd_world US) :=
  let '(len, buf, w) := read_func (snd lw) 4 in
  if len <=? 0 then (len, (fst lw, w))
  else tiny_fd_on_rx_data (fst lw, w) (take (Z.to_nat len) buf).

(** ** Choosing the next frame *)

(** The bookkeeping common to first transmissions and selective ones: stamp
    N(R) into the header. *)
Definition stamp_nr (peer : Z) (i : nat) (h : tiny_fd_data_t) : tiny_fd_data_t :=
  let nr := __i_queue_control_get_next_frame_to_receive (control_at h peer) in
  upd_ref (InIQueue i)
    (fun f => f <| fi_control := u8 (Z.lor (Z.land (fi_control f) 0x0F) (Z.shiftl nr 5)) |>) h.

(** Remember the N(R) and the time of the I-frame. *)
Definition mark_i_sent (peer : Z) (w : fd_world US) : fd_world US :=
  let w := on_handle (fun h => upd_peer peer (fun p =>
             p <| pi_sent_nr := __i_queue_control_get_next_frame_to_receive (control_at h peer) |>) h) w in
  let '(now, w) := tiny_millis millis w in
  on_handle (upd_peer peer (fun p => p <| pi_last_sent_i_ts := now |>)) w.

(** [for ( i = 0; i < 8; i++ ) if ( mask & ( 1 << i ) )] *)
Fixpoint first_requested (mask : Z) (n : nat) (i : Z) : option Z :=
  match n with
  | O => None
  | S n => if nz (Z.land mask (Z.shiftl 1 i)) then Some i else first_requested mask n (i + 1)
  end.

Definition tiny_fd_get_next_i_frame (peer address : Z) (w : fd_world US)
  : option frame_ref * fd_world US :=
  let p := peer_at (handle w) peer in
  if bool_decide (pi_state p = TINY_FD_STATE_DISCONNECTED) ||
     bool_decide (pi_state p = TINY_FD_STATE_CONNECTING) then (None, w)
  else if negb (pi_srej_req_mask p =? 0) then
    match first_requested (pi_srej_req_mask p) 8 0 with
    | Some i =>
        let ptr := tiny_fd_queue_get_next (fd_i_queue (handle w)) TINY_FD_QUEUE_I_FRAME address i in
        let w := on_handle (upd_peer peer (fun p =>
                   p <| pi_srej_req_mask ::= clear_bits (Z.shiftl 1 i) |>)) w in
        match ptr with
        | Some slot =>
            (Some (InIQueue slot), mark_i_sent peer (on_handle (stamp_nr peer slot) w))
        | None => (None, w)
        end
    | None => (None, w)
    end
  else
    match tiny_fd_queue_get_next (fd_i_queue (handle w)) TINY_FD_QUEUE_I_FRAME address
            (__i_queue_control_get_next_frame_to_send (control_at (handle w) peer)) with
    | Some slot =>
        let w := on_handle (stamp_nr peer slot) w in
        let w := on_handle (upd_control peer __i_queue_control_move_to_next_ns) w in
        (Some (InIQueue slot), mark_i_sent peer w)
    | None => (None, w)
    end.

(** What a station in NRM sends when it has nothing to send. *)
Definition put_marker_frame (peer address : Z) (h : tiny_fd_data_t) : tiny_fd_data_t :=
  let state := pi_state (peer_at h peer) in
  if __is_primary_station h &&
     (bool_decide (state = TINY_FD_STATE_DISCONNECTED) ||
      bool_decide (state = TINY_FD_STATE_CONNECTING))
  then put_u_s TINY_FD_QUEUE_S_FRAME
         [Z.lor address HDLC_CR_BIT; Z.lor HDLC_U_FRAME_TYPE_SNRM HDLC_U_FRAME_BITS] h
  else put_u_s TINY_FD_QUEUE_S_FRAME
         [address; s_control HDLC_S_FRAME_TYPE_RR
                     (__i_queue_control_get_next_frame_to_receive (control_at h peer))] h.

(** Whether the frame gets the P/F bit. *)
Definition needs_pf (h : tiny_fd_data_t) (peer control : Z) : bool :=
  if fd_mode h =? TINY_FD_MODE_NRM then
    if Z.land control HDLC_I_FRAME_MASK =? HDLC_I_FRAME_BITS
    then __all_frames_are_sent (control_at h peer) else true
  else Z.land control HDLC_U_FRAME_MASK =? HDLC_U_FRAME_BITS.

Definition tiny_fd_get_next_frame_to_send (peer : Z) (w : fd_world US)
  : option frame_ref * fd_world US :=
  let w := on_handle tiny_mutex_lock w in
  let address := __peer_to_address_field (handle w) peer in
  let '(data, h) := tiny_fd_get_next_s_u_frame_to_send (handle w) peer address in
  let w := w <| handle := h |> in
  let '(data, w) :=
    match data with
    | Some r => (Some r, w)
    | None => tiny_fd_get_next_i_frame peer address w
    end in
  let '(data, w) :=
    match data with
    | Some r => (Some r, w)
    | None =>
        if fd_mode (handle w) =? TINY_FD_MODE_NRM then
          let '(data, h) := tiny_fd_get_next_s_u_frame_to_send
                              (put_marker_frame peer address (handle w)) peer address in
          (data, w <| handle := h |>)
        else (None, w)
    end in
  match data with
  | Some r =>
      let w := if needs_pf (handle w) peer (fi_control (ref_slot (handle w) r))
               then on_handle (upd_ref r (fun f => f <| fi_control ::= Z.lor HDLC_P_BIT |>)) w
               else w in
      let '(now, w) := tiny_millis millis w in
      let w := on_handle (fun h => h <| fd_last_marker_ts := now |>) w in
      let '(now, w) := tiny_millis millis w in
      let w := on_handle (upd_peer peer (fun p => p <| pi_last_sent_frame_ts := now |>)) w in
      let w := __tiny_fd_log_frame cbs TINY_FD_FRAME_DIRECTION_OUT
                 (frame_bytes (ref_slot (handle w) r)) w in
      (Some r, on_handle tiny_mutex_unlock w)
  | None => (None, on_handle tiny_mutex_unlock w)
  end.

(** ** Timeouts *)

Definition tiny_fd_connected_check_idle_timeout (peer : Z) (w : fd_world US) : fd_world US :=
  let w := on_handle tiny_mutex_lock w in
  let '(time_passed, w) := time_since (pi_last_sent_i_ts (peer_at (handle w) peer)) w in
  let c := control_at (handle w) peer in
  let w :=
    if __i_queue_control_has_unconfirmed_frames c && __all_frames_are_sent c &&
       (fd_retry_timeout (handle w) <=? time_passed)
    then
      if 0 <? pi_retries (peer_at (handle w) peer) then
        let w := on_handle (upd_peer peer (fun p => p <| pi_retries ::= Z.pred |>)) w in
        on_handle (__resend_all_unconfirmed_frames peer 0
                     (__i_queue_control_get_next_frame_to_confirm c)) w
      else __switch_to_disconnected_state cbs peer w
    else
      let '(received, w) := __time_passed_since_last_frame_received peer w in
      if fd_ka_timeout (handle w) * 2 <=? received then
        if negb (nz (pi_ka_confirmed (peer_at (handle w) peer)))
        then __switch_to_disconnected_state cbs peer w else w
      else
        let '(sent, w) := __time_passed_since_last_frame_sent peer w in
        if fd_ka_timeout (handle w) <=? sent then
          let frame := [__peer_to_address_field (handle w) peer;
                        s_control (Z.lor HDLC_S_FRAME_TYPE_RR HDLC_P_BIT)
                          (__i_queue_control_get_next_frame_to_receive (control_at (handle w) peer))] in
          let w := on_handle (upd_peer peer (fun p => p <| pi_ka_confirmed := 0 |>)) w in
          let w := on_handle (put_u_s TINY_FD_QUEUE_S_FRAME frame) w in
          let '(now, w) := tiny_millis millis w in
          on_handle (upd_peer peer (fun p => p <| pi_last_sent_frame_ts := now |>)) w
        else w in
  on_handle tiny_mutex_unlock w.

Definition tiny_fd_disconnected_check_idle_timeout (peer : Z) (w : fd_world US) : fd_world US :=
  let w := on_handle tiny_mutex_lock w in
  let '(received, w) := __time_passed_since_last_frame_received peer w in
  let w :=
    if fd_retry_timeout (handle w) <=? received then
      if __is_primary_station (handle w) then
        let w := on_handle (fun h => put_u peer HDLC_CR_BIT (connect_type h) h) w in
        let w := on_handle (upd_peer peer (fun p => p <| pi_state := TINY_FD_STATE_CONNECTING |>)) w in
        let '(now, w) := tiny_millis millis w in
        on_handle (upd_peer peer (fun p => p <| pi_last_received_frame_ts := now |>)) w
      else w
    else w in
  on_handle tiny_mutex_unlock w.

(** [tiny_fd_connected_check_idle_timeout] or the other one, by state. *)
Definition check_idle_timeout (peer : Z) (w : fd_world US) : fd_world US :=
  let state := pi_state (peer_at (handle w) peer) in
  if bool_decide (state = TINY_FD_STATE_CONNECTED) || bool_decide (state = TINY_FD_STATE_DISCONNECTING)
  then tiny_fd_connected_check_idle_timeout peer w
  else tiny_fd_disconnected_check_idle_timeout peer w.

End Station.
