(* ===== verification/FdApi.v ===== *)
(** * The full-duplex protocol: the functions the application calls (src/proto/fd/tiny_fd.c)

    Producing data for the channel, queueing packets, status, disconnection and
    peer registration. *)

From S2P Require Import Prelude Crc HdlcLL HdlcSpec FdTypes FdQueue FdPeers FdIQueue FdLog.
From S2P Require Import FdService FdTx FdRx Fd.

Section Station.

Context {US : Type} (millis : nat -> Z) (others : Z -> fd_world US -> fd_world US).
Context (cbs : fd_callbacks US).

(** ** Transmission *)

#[local] Abbreviation station := (hdlc_ll_data_t * fd_world US)%type.

(** The local variables of [tiny_fd_get_tx_data] and the bytes written so far. *)
Record tx_locals : Type := mk_tx_locals {
  l_result : Z;
  l_repeat : bool;
  l_wait_point_passed : bool;
  l_out : list Z
}.

#[export] Instance eta_tx_locals : Eta tx_locals := fun l =>
  mk_tx_locals (l_result l) (l_repeat l) (l_wait_point_passed l) (l_out l).

(** What one pass of the loop body does: leave, go on, or reach the bottom of the
    loop with [generated_data] bytes. *)
Inductive pass : Type := Break (result : Z) | Continue | Generated (n : Z) (bytes : list Z).

(** The branch of the loop body that is taken when no frame is being sent, up to
    the point where it waits for something to send. *)
Definition get_tx_data_idle (peer timeout : Z) (l : tx_locals) (lw : station)
  : pass * tx_locals * station :=
  let '(hdlc, w) := lw in
  if pi_addr (peer_at (handle w) peer) =? HDLC_INVALID_PEER_INDEX
  then (Break TINY_ERR_UNKNOWN_PEER, l, lw) else
  let w := check_idle_timeout millis cbs peer w in
  if l_wait_point_passed l then (Break (l_result l), l, (hdlc, w)) else
  let l := l <| l_wait_point_passed := true |> in
  let leave (w : fd_world US) := (Break (l_result l), l, (hdlc, w)) in
  let bottom (w : fd_world US) := (Generated 0 [], l, (hdlc, w)) in
  let balanced (w : fd_world US) :=
    (fd_mode (handle w) =? TINY_FD_MODE_ABM) || __is_secondary_station (handle w) in
  let '(marker, w) := fd_events_wait others FD_EVENT_HAS_MARKER EVENT_BITS_LEAVE timeout w in
  if nz marker then
    let '(available, w) := fd_events_wait others FD_EVENT_TX_DATA_AVAILABLE EVENT_BITS_CLEAR timeout w in
    if nz available || (fd_mode (handle w) =? TINY_FD_MODE_NRM) then
      match tiny_fd_get_next_frame_to_send millis cbs peer w with
      | (Some frame, w) =>
          let w := on_handle (fd_events_set FD_EVENT_TX_DATA_AVAILABLE) w in
          let w := on_handle (fd_events_set FD_EVENT_TX_SENDING) w in
          let '(_, hdlc) := put_frame hdlc (fi_addr (ref_slot (handle w) frame))
                              (ref_len (handle w) frame) in
          (Continue, l, (hdlc, w))
      | (None, w) => if balanced w then leave w else bottom w
      end
    else if balanced w then leave w else bottom w
  else if __is_primary_station (handle w) then
    let '(passed, w) := __time_passed_since_last_marker_seen millis w in
    if fd_retry_timeout (handle w) <=? passed
    then bottom (on_handle (fd_events_set FD_EVENT_HAS_MARKER) w)
    else leave w
  else bottom w.

(** One pass of the loop body, [len] being the size of the buffer. *)
Definition get_tx_data_pass (peer len timeout : Z) (l : tx_locals) (lw : station)
  : pass * tx_locals * station :=
  let '(sending, w) := fd_events_wait others FD_EVENT_TX_SENDING EVENT_BITS_LEAVE 0 (snd lw) in
  let lw := (fst lw, w) in
  if nz sending then
    let '(generated_data, lw) := hdlc_ll_run_tx (fd_client millis cbs) lw (len - l_result l) in
    (Generated generated_data (tx_out_buffer (fst lw)), l, lw)
  else get_tx_data_idle peer timeout l lw.

(** The loop: the result, the bytes written and the station; [None] means the
    fuel ran out. *)
Fixpoint get_tx_data_loop (fuel : nat) (peer len timeout : Z) (l : tx_locals) (lw : station)
  : option (Z * list Z * station) :=
  match fuel with
  | O => None
  | S fuel =>
      if l_result l <? len then
        match get_tx_data_pass peer len timeout l lw with
        | (Break result, l, lw) => Some (result, l_out l, lw)
        | (Continue, l, lw) => get_tx_data_loop fuel peer len timeout l lw
        | (Generated n out, l, lw) =>
            let l := if 0 <=? l_result l then l <| l_result ::= Z.add n |> else l in
            let l := l <| l_out ::= fun o => o ++ out |> in
            if n =? 0 then
              if negb (l_repeat l) then Some (l_result l, l_out l, lw)
              else get_tx_data_loop fuel peer len timeout (l <| l_repeat := false |>) lw
            else get_tx_data_loop fuel peer len timeout (l <| l_repeat := true |>) lw
        end
      else Some (l_result l, l_out l, lw)
  end.

Definition get_tx_data_fuel (len : Z) : nat := 2 * Z.to_nat len + 4.

(** The result, the bytes written to [data], and the station. *)
Definition tiny_fd_get_tx_data (lw : station) (len timeout : Z) : Z * list Z * station :=
  let peer := fd_next_peer (handle (snd lw)) in
  match get_tx_data_loop (get_tx_data_fuel len) peer len timeout (mk_tx_locals 0 true false []) lw with
  | Some r => r
  | None => (0, [], lw)
  end.

(** The loop of [tiny_fd_run_tx] over the bytes still to write; the fuel bounds
    the calls of [write_func], which may accept no byte at all. *)
Fixpoint write_loop (write_func : fd_world US -> list Z -> Z * fd_world US) (fuel : nat)
  (buf : list Z) (lw : station) : option (Z * station) :=
  match buf with
  | [] => Some (TINY_SUCCESS, lw)
  | _ :: _ =>
      match fuel with
      | O => None
      | S fuel =>
          let '(result, w) := write_func (snd lw) buf in
          if result <? 0 then Some (result, (fst lw, w))
          else write_loop write_func fuel (drop (Z.to_nat result) buf) (fst lw, w)
      end
  end.

Definition tiny_fd_run_tx (write_func : fd_world US -> list Z -> Z * fd_world US) (fuel : nat)
  (lw : station) : option (Z * station) :=
  let '(len, buf, lw) := tiny_fd_get_tx_data lw 4 1 in
  if len <=? 0 then Some (len, lw) else write_loop write_func fuel buf lw.

(** ** Sending packets *)

(** The peer a packet for [address] goes to. *)
Definition destination (h : tiny_fd_data_t) (address : Z) : Z :=
  let address := if __is_secondary_station h && (address =? TINY_FD_PRIMARY_ADDR)
                 then fd_addr h else address in
  __address_field_to_peer h (u8 (Z.lor (Z.shiftl address 2) HDLC_E_BIT)).

Definition tiny_fd_send_packet_to (address : Z) (data : list Z) (timeout : Z) (w : fd_world US)
  : Z * fd_world US :=
  let peer := destination (handle w) address in
  if peer =? HDLC_INVALID_PEER_INDEX then (TINY_ERR_UNKNOWN_PEER, w) else
  let '(start_ms, w) := tiny_millis millis w in
  if tiny_fd_queue_get_mtu (fd_i_queue (handle w)) <? Z.of_nat (length data)
  then (TINY_ERR_DATA_TOO_LARGE, w) else
  let '(can_accept, w) :=
    peer_events_wait others peer FD_EVENT_CAN_ACCEPT_I_FRAMES EVENT_BITS_CLEAR timeout w in
  if nz can_accept then
    let '(delta_ms, w) := time_since millis start_ms w in
    let '(free, w) :=
      fd_events_wait others FD_EVENT_QUEUE_HAS_FREE_SLOTS EVENT_BITS_CLEAR
        (if delta_ms <? timeout then timeout - delta_ms else 0) w in
    if nz free then
      let w := on_handle tiny_mutex_lock w in
      let '(put, h) := __put_i_frame_to_tx_queue (handle w) peer data in
      let w := w <| handle := h |> in
      let '(result, w) :=
        if (put : bool) then
          (TINY_SUCCESS,
           if tiny_fd_queue_has_free_slots (fd_i_queue (handle w))
           then on_handle (fd_events_set FD_EVENT_QUEUE_HAS_FREE_SLOTS) w else w)
        else (TINY_ERR_TIMEOUT, w) in
      let w := if negb (__i_queue_control_tx_full (control_at (handle w) peer))
               then on_handle (peer_events_set peer FD_EVENT_CAN_ACCEPT_I_FRAMES) w else w in
      (result, on_handle tiny_mutex_unlock w)
    else (TINY_ERR_TIMEOUT, on_handle (peer_events_set peer FD_EVENT_CAN_ACCEPT_I_FRAMES) w)
  else (TINY_ERR_TIMEOUT, w).

Definition tiny_fd_send_packet (data : list Z) (timeout : Z) (w : fd_world US) : Z * fd_world US :=
  tiny_fd_send_packet_to TINY_FD_PRIMARY_ADDR data timeout w.

(** [data] is [None] for a [NULL] pointer. *)
Definition tiny_fd_send_ui_packet_to (address : Z) (data : option (list Z)) (len : Z)
  (w : fd_world US) : Z * fd_world US :=
  if bool_decide (data = None) && (0 <? len) then (TINY_ERR_INVALID_DATA, w) else
  if tiny_fd_queue_get_mtu (fd_s_queue (handle w)) <? len then (TINY_ERR_DATA_TOO_LARGE, w) else
  let peer := destination (handle w) address in
  if peer =? HDLC_INVALID_PEER_INDEX then (TINY_ERR_UNKNOWN_PEER, w) else
  let w := on_handle tiny_mutex_lock w in
  match tiny_fd_queue_allocate (fd_s_queue (handle w)) TINY_FD_QUEUE_U_FRAME (default [] data) with
  | (None, q) =>
      (TINY_ERR_FAILED, on_handle tiny_mutex_unlock (on_handle (fun h => h <| fd_s_queue := q |>) w))
  | (Some slot, q) =>
      let q := upd_slot slot (fun f =>
                 f <| fi_address := __peer_to_address_field (handle w) peer |>
                   <| fi_control := Z.lor HDLC_U_FRAME_TYPE_UI HDLC_U_FRAME_BITS |>) q in
      let w := on_handle (fun h => h <| fd_s_queue := q |>) w in
      let w := on_handle (fd_events_set FD_EVENT_TX_DATA_AVAILABLE) w in
      (TINY_SUCCESS, on_handle tiny_mutex_unlock w)
  end.

Definition tiny_fd_send_ui_packet (data : option (list Z)) (len : Z) (w : fd_world US)
  : Z * fd_world US := tiny_fd_send_ui_packet_to TINY_FD_PRIMARY_ADDR data len w.

Definition tiny_fd_get_mtu (w : fd_world US) : Z := tiny_fd_queue_get_mtu (fd_i_queue (handle w)).

Definition tiny_fd_set_ka_timeout (keep_alive : Z) (w : fd_world US) : fd_world US :=
  on_handle (fun h => h <| fd_ka_timeout := u16 keep_alive |>) w.

(** The loop of [tiny_fd_send_to] over the bytes left; [None] means the fuel ran
    out (with an MTU of zero it never ends). *)
Fixpoint send_to_loop (fuel : nat) (address : Z) (rest : list Z) (timeout : Z) (w : fd_world US)
  : option (list Z * fd_world US) :=
  match rest with
  | [] => Some ([], w)
  | _ :: _ =>
      match fuel with
      | O => None
      | S fuel =>
          let size := Z.min (Z.of_nat (length rest)) (tiny_fd_get_mtu w) in
          let '(result, w) :=
            tiny_fd_send_packet_to address (take (Z.to_nat size) rest) timeout w in
          if negb (result =? TINY_SUCCESS) then Some (rest, w)
          else send_to_loop fuel address (drop (Z.to_nat size) rest) timeout w
      end
  end.

Definition tiny_fd_send_to (address : Z) (data : list Z) (timeout : Z) (w : fd_world US)
  : Z * fd_world US :=
  match send_to_loop (length data) address data timeout w with
  | Some (rest, w) => (Z.of_nat (length data) - Z.of_nat (length rest), w)
  | None => (0, w)
  end.

Definition tiny_fd_send (data : list Z) (timeout : Z) (w : fd_world US) : Z * fd_world US :=
  tiny_fd_send_to (Z.shiftr HDLC_PRIMARY_ADDR 2) data timeout w.

(** ** Status, disconnection, registration *)

(** [None] is a [NULL] handle. *)
Definition tiny_fd_get_status (w : option (fd_world US)) : Z * option (fd_world US) :=
  match w with
  | None => (TINY_ERR_INVALID_DATA, None)
  | Some w =>
      let w := on_handle tiny_mutex_lock w in
      let state := pi_state (peer_at (handle w) 0) in
      let result := if bool_decide (state = TINY_FD_STATE_CONNECTED) ||
                       bool_decide (state = TINY_FD_STATE_DISCONNECTING)
                    then TINY_SUCCESS else TINY_ERR_FAILED in
      (result, Some (on_handle tiny_mutex_unlock w))
  end.

Definition tiny_fd_disconnect (w : option (fd_world US)) : Z * option (fd_world US) :=
  match w with
  | None => (TINY_ERR_INVALID_DATA, None)
  | Some w =>
      let w := on_handle tiny_mutex_lock w in
      let h := handle w in
      let '(slot, h) := __put_u_s_frame_to_tx_queue h TINY_FD_QUEUE_U_FRAME
        [Z.lor (__peer_to_address_field h 0) HDLC_CR_BIT;
         Z.lor HDLC_U_FRAME_TYPE_DISC HDLC_U_FRAME_BITS] in
      let w := w <| handle := h |> in
      let '(result, w) :=
        match slot with
        | None => (TINY_ERR_FAILED, w)
        | Some _ =>
            (TINY_SUCCESS,
             on_handle (upd_peer 0 (fun p => p <| pi_state := TINY_FD_STATE_DISCONNECTING |>)) w)
        end in
      (result, Some (on_handle tiny_mutex_unlock w))
  end.

Definition tiny_fd_register_peer (address : Z) (w : fd_world US) : Z * fd_world US :=
  if 63 <? address then (TINY_ERR_FAILED, w) else
  let address := u8 (Z.lor (Z.shiftl address 2) HDLC_E_BIT) in
  if address =? Z.lor HDLC_PRIMARY_ADDR HDLC_E_BIT then (TINY_ERR_FAILED, w) else
  let w := on_handle tiny_mutex_lock w in
  if negb (__address_field_to_peer (handle w) address =? HDLC_INVALID_PEER_INDEX)
  then (TINY_ERR_FAILED, on_handle tiny_mutex_unlock w) else
  let peer := find_peer (handle w) HDLC_INVALID_PEER_INDEX (Z.to_nat (fd_peers_count (handle w))) 0 in
  if peer =? HDLC_INVALID_PEER_INDEX
  then (TINY_ERR_FAILED, on_handle tiny_mutex_unlock w)
  else
    let w := on_handle (upd_peer peer (fun p => p <| pi_addr := address |>)) w in
    let '(now, w) := tiny_millis millis w in
    let w := on_handle (fun h => upd_peer peer (fun p =>
               p <| pi_last_received_frame_ts := u32 (now - fd_retry_timeout h) |>) h) w in
    (TINY_SUCCESS, on_handle tiny_mutex_unlock w).

Definition tiny_fd_close (lw : station) : station :=
  snd (hdlc_ll_close (fd_client millis cbs) lw).

End Station.
