(* ===== verification/FdInv.v ===== *)
(** * The invariant of a station

    [fd_wf c locked h]: the queues, the window counters, the peers and the mutex of a
    station are well-formed, and its fixed data (slots, MTU, number of peers,
    address, mode) are those of [c].  Every operation on the handle preserves
    it, whatever the frames and arguments. *)

From S2P Require Import Prelude FdTypes FdQueue FdPeers FdIQueue FdLog FdService FdTx FdRx.

(** ** Definitions *)

(** What does not change after initialisation. *)
Record fd_config : Type := mk_fd_config {
  c_i_addrs : list Z;
  c_s_addrs : list Z;
  c_mtu : Z;
  c_peers : Z;
  c_addr : Z;
  c_mode : Z
}.

(** A queue with its fixed layout whose frames all have bit 0 of the control byte equal to [bit0]
    (I-frames have it clear, S- and U-frames set) and bit 0 of the address set. *)
Record queue_wf (types : Z) (bit0 : bool) (mtu : Z) (addrs : list Z) (q : tiny_fd_queue_t) : Prop :=
  mk_queue_wf {
    qw_ok : queue_ok types q;
    qw_mtu : q_mtu q = mtu;
    qw_addrs : fi_addr <$> q_frames q = addrs;
    qw_bit0 : Forall (fun f => fi_type f <> TINY_FD_QUEUE_FREE ->
                Z.testbit (fi_control f) 0 = bit0 /\ Z.testbit (fi_address f) 0 = true) (q_frames q)
  }.

Record control_ok (c : i_queue_control_t) : Prop := mk_control_ok {
  co_last : fits 3 (last_ns c);
  co_confirm : fits 3 (confirm_ns c);
  co_next : fits 3 (next_ns c);
  co_nr : fits 3 (next_nr c)
}.

Record peer_ok (p : tiny_fd_peer_info_t) : Prop := mk_peer_ok {
  po_addr : fits 8 (pi_addr p);
  po_ext : Z.testbit (pi_addr p) 0 = true;
  po_sent_nr : fits 3 (pi_sent_nr p);
  po_srej : fits 8 (pi_srej_req_mask p);
  po_control : control_ok (pi_i_queue_control p);
  po_retries : fits 8 (pi_retries p)
}.

#[local] Abbreviation S_U := (Z.lor TINY_FD_QUEUE_S_FRAME TINY_FD_QUEUE_U_FRAME).

Record fd_wf (c : fd_config) (locked : bool) (h : tiny_fd_data_t) : Prop := mk_fd_wf {
  wf_i : queue_wf TINY_FD_QUEUE_I_FRAME false (c_mtu c) (c_i_addrs c) (fd_i_queue h);
  wf_s : queue_wf S_U true 2 (c_s_addrs c) (fd_s_queue h);
  wf_peers : Forall peer_ok (fd_peers h);
  wf_length : Z.of_nat (length (fd_peers h)) = c_peers c;
  wf_count : fd_peers_count h = c_peers c;
  wf_next : 0 <= fd_next_peer h < c_peers c;
  wf_addr : fd_addr h = c_addr c;
  wf_mode : fd_mode h = c_mode c;
  wf_retries : fits 8 (fd_retries h);
  wf_mutex : fd_mutex h = locked;
  wf_misuse : fd_mutex_misuse h = false
}.

(** The obligations on the environment: callbacks and other threads keep the invariant. *)
Class CallbacksOk {US} (c : fd_config) (cbs : fd_callbacks US) : Prop := mk_callbacks_ok {
  ok_read : forall cb w a d, on_read_cb cbs = Some cb ->
    fd_wf c false (handle w) -> fd_wf c false (handle (cb w a d));
  ok_send : forall cb w a d, on_send_cb cbs = Some cb ->
    fd_wf c false (handle w) -> fd_wf c false (handle (cb w a d));
  ok_read_ui : forall cb w a d, on_read_ui_cb cbs = Some cb ->
    fd_wf c false (handle w) -> fd_wf c false (handle (cb w a d));
  ok_connect : forall cb w a s, on_connect_event_cb cbs = Some cb ->
    fd_wf c false (handle w) -> fd_wf c false (handle (cb w a s));
  ok_log : forall cb w dir t st ns nr d b, log_frame_cb cbs = Some cb ->
    fd_wf c b (handle w) -> fd_wf c b (handle (cb w dir t st ns nr d))
}.

Class OthersOk {US} (c : fd_config) (others : Z -> fd_world US -> fd_world US) : Prop :=
  ok_others : forall t w, fd_wf c false (handle w) -> fd_wf c false (handle (others t w)).

(** ** Bits *)

Lemma u8_testbit0 x : Z.testbit (u8 x) 0 = Z.testbit x 0.
Proof. by apply Z.mod_pow2_bits_low. Qed.

Lemma s_control_bit0 type nr : Z.testbit (s_control type nr) 0 = true.
Proof.
  unfold s_control. rewrite u8_testbit0, !Z.lor_spec. reflexivity.
Qed.

Lemma fits_s_control type nr : fits 8 (s_control type nr).
Proof. apply fits_u8. Qed.

Lemma fits3_8 x : fits 3 x -> fits 8 x.
Proof. by apply fits_mono. Qed.

Lemma fits_seq_succ x : fits 3 (seq_succ x).
Proof. apply seq_succ_range. Qed.

Lemma fits_seq_pred x : fits 3 (seq_pred x).
Proof. apply seq_pred_range. Qed.

Lemma fits_nr x : fits 8 x -> fits 3 (Z.shiftr x 5).
Proof. by apply (fits_shiftr 5 3). Qed.

Lemma bytes_pair x y : fits 8 x -> fits 8 y -> bytes [x; y].
Proof. intros Hx Hy. apply bytes_cons. split; [done|]. apply bytes_cons. by split; [|apply bytes_nil]. Qed.

#[export] Hint Resolve fits_s_control fits_seq_succ fits_seq_pred fits_nr s_control_bit0 : tiny.

(** ** Queues *)

Section Queue.

Context (types : Z) (bit0 : bool) (mtu : Z) (addrs : list Z).
#[local] Abbreviation qwf := (queue_wf types bit0 mtu addrs).

(** A slot of such a queue. *)
Definition slot_wf (f : tiny_fd_frame_info_t) : Prop :=
  slot_ok types mtu f /\
  (fi_type f <> TINY_FD_QUEUE_FREE ->
     Z.testbit (fi_control f) 0 = bit0 /\ Z.testbit (fi_address f) 0 = true).

Lemma queue_wf_slot q i f : qwf q -> q_frames q !! i = Some f -> slot_wf f.
Proof using Type.
  intros [[_ Hs _] Hm _ Hb] Hi. rewrite Hm, Forall_lookup in Hs. rewrite Forall_lookup in Hb.
  split; [by eapply Hs|by eapply Hb].
Qed.

Lemma queue_wf_upd q i f :
  qwf q -> (forall s, q_frames q !! i = Some s -> slot_wf s -> slot_wf (f s) /\ fi_addr (f s) = fi_addr s) ->
  qwf (upd_slot i f q).
Proof using Type.
  intros Hq Hf. pose proof (queue_wf_slot q) as Hslot. pose proof Hq as [Hok Hm Ha Hb].
  assert (Hu : queue_ok types (upd_slot i f q)).
  { apply upd_slot_ok; [done|]. intros s Hs _. rewrite Hm.
    destruct (Hf s Hs) as [[? _] ?]; [by eapply Hslot|done]. }
  split; [done|done| |]; cbn.
  - rewrite <- Ha. apply list_eq. intros j. rewrite !list_lookup_fmap.
    destruct (decide (i = j)) as [<-|Hne]; [|by rewrite list_lookup_alter_ne].
    rewrite list_lookup_alter_eq. destruct (q_frames q !! i) as [s|] eqn:E; [|done]. cbn. f_equal.
    apply Hf; [done|by eapply Hslot].
  - apply Forall_lookup. intros j g Hj. destruct (decide (i = j)) as [<-|Hne].
    + rewrite list_lookup_alter_eq in Hj. destruct (q_frames q !! i) as [s|] eqn:E; [|done].
      cbn in Hj. injection Hj as <-. apply Hf; [done|by eapply Hslot].
    + rewrite list_lookup_alter_ne in Hj by done. rewrite Forall_lookup in Hb. by eapply Hb.
Qed.

Lemma queue_wf_free_by_header q header : qwf q -> qwf (tiny_fd_queue_free_by_header q header).
Proof using Type.
  intros Hq. pose proof Hq as [Hok Hm Ha Hb].
  pose proof (free_by_header_ok types q header Hok) as Hf. revert Hf.
  unfold tiny_fd_queue_free_by_header. destruct (header_index header (q_frames q)) as [i|]; [|done].
  intros Hf. destruct (queue_wf_upd q i (fun f => f <| fi_type := TINY_FD_QUEUE_FREE |>) Hq)
    as [_ Hm' Ha' Hb'].
  { intros s _ [Hs _]. split; [|done]. split; [by apply slot_ok_free|done]. }
  by split.
Qed.

Lemma queue_wf_reset_for q address : qwf q -> qwf (tiny_fd_queue_reset_for q address).
Proof using Type.
  intros [Hok Hm Ha Hb]. split; [by apply reset_for_ok|done|..]; cbn.
  - rewrite <- Ha, <- list_fmap_compose. apply list_fmap_ext. intros _ f _. unfold compose.
    by destruct (same_address _ _).
  - apply Forall_fmap. eapply Forall_impl; [done|]. intros f Hf. unfold compose.
    by destruct (same_address _ _).
Qed.

(** Allocation followed by the assignment of a header. *)
Lemma queue_wf_put q type data address control :
  qwf q -> bytes data -> fits 8 address -> Z.testbit address 0 = true ->
  fits 8 control -> Z.testbit control 0 = bit0 ->
  (type = TINY_FD_QUEUE_U_FRAME \/ type = TINY_FD_QUEUE_S_FRAME \/ type = TINY_FD_QUEUE_I_FRAME) ->
  Z.land type types <> 0 ->
  match tiny_fd_queue_allocate q type data with
  | (Some i, q') =>
      qwf (upd_slot i (fun f => f <| fi_address := address |> <| fi_control := control |>) q')
  | (None, q') => q' = q
  end.
Proof using Type.
  intros Hq Hd Ha He Hc Hb Ht Hty. pose proof (allocate_spec types q type data (qw_ok _ _ _ _ _ Hq)) as Hal.
  destruct (tiny_fd_queue_allocate q type data) as [[i|] q']; [|by destruct Hal].
  destruct Hal as (Hlen & f & Hf & _ & ->). rewrite (qw_mtu _ _ _ _ _ Hq) in Hlen.
  rewrite upd_slot_compose.
  apply (queue_wf_upd q i
    ((fun f => f <| fi_address := address |> <| fi_control := control |>) ∘ filled_slot type data) Hq).
  intros s _ [Hs _]. split; [|done].
  pose proof (filled_slot_ok types mtu type data s Hs Hlen Hd Ht Hty) as [].
  by split; [split|].
Qed.

End Queue.

(** ** Operations on the handle *)

Section Handle.

Context (c : fd_config).

Lemma fd_wf_events c' b v h : fd_wf c' b h -> fd_wf c' b (h <| fd_events := v |>).
Proof using Type. by intros []. Qed.

Lemma fd_wf_events_set b bits h : fd_wf c b h -> fd_wf c b (fd_events_set bits h).
Proof using Type. by intros []. Qed.

Lemma fd_wf_events_clear b bits h : fd_wf c b h -> fd_wf c b (fd_events_clear bits h).
Proof using Type. by intros []. Qed.

Lemma fd_wf_lock h : fd_wf c false h -> fd_wf c true (tiny_mutex_lock h).
Proof using Type. intros []. unfold tiny_mutex_lock. rewrite wf_mutex0. by split. Qed.

Lemma fd_wf_unlock h : fd_wf c true h -> fd_wf c false (tiny_mutex_unlock h).
Proof using Type. intros []. unfold tiny_mutex_unlock. rewrite wf_mutex0. by split. Qed.

Lemma fd_wf_marker_ts b v h : fd_wf c b h -> fd_wf c b (h <| fd_last_marker_ts := v |>).
Proof using Type. by intros []. Qed.

Lemma fd_wf_ka_timeout b v h : fd_wf c b h -> fd_wf c b (h <| fd_ka_timeout := v |>).
Proof using Type. by intros []. Qed.

Lemma fd_wf_i_queue b f h :
  fd_wf c b h ->
  (forall q, queue_wf TINY_FD_QUEUE_I_FRAME false (c_mtu c) (c_i_addrs c) q ->
             queue_wf TINY_FD_QUEUE_I_FRAME false (c_mtu c) (c_i_addrs c) (f q)) ->
  fd_wf c b (h <| fd_i_queue ::= f |>).
Proof using Type. intros [] Hf. split; try done. by apply Hf. Qed.

Lemma fd_wf_s_queue b f h :
  fd_wf c b h ->
  (forall q, queue_wf S_U true 2 (c_s_addrs c) q -> queue_wf S_U true 2 (c_s_addrs c) (f q)) ->
  fd_wf c b (h <| fd_s_queue ::= f |>).
Proof using Type. intros [] Hf. split; try done. by apply Hf. Qed.

Lemma fd_wf_upd_peer_at b peer f h :
  fd_wf c b h -> (peer_ok (peer_at h peer) -> peer_ok (f (peer_at h peer))) ->
  fd_wf c b (upd_peer peer f h).
Proof using Type.
  intros [] Hf. split; try done; cbn.
  - apply Forall_lookup. intros i p Hp. rewrite Forall_lookup in wf_peers0.
    destruct (decide (Z.to_nat peer = i)) as [<-|Hne].
    + rewrite list_lookup_alter_eq in Hp. destruct (fd_peers h !! _) as [p'|] eqn:E; [|done].
      cbn in Hp. injection Hp as <-. unfold peer_at in Hf. rewrite nth_lookup, E in Hf. eauto.
    + rewrite list_lookup_alter_ne in Hp by done. eauto.
  - by rewrite length_alter.
Qed.

Lemma fd_wf_upd_peer b peer f h :
  fd_wf c b h -> (forall p, peer_ok p -> peer_ok (f p)) -> fd_wf c b (upd_peer peer f h).
Proof using Type. intros Hh Hf. apply fd_wf_upd_peer_at; auto. Qed.

Lemma fd_wf_upd_control b peer f h :
  fd_wf c b h -> (forall p, control_ok p -> control_ok (f p)) -> fd_wf c b (upd_control peer f h).
Proof using Type. intros Hh Hf. apply fd_wf_upd_peer; [done|]. intros p []. split; cbn; auto. Qed.

Lemma peer_events_set_wf b peer bits h : fd_wf c b h -> fd_wf c b (peer_events_set peer bits h).
Proof using Type. intros Hh. apply fd_wf_upd_peer; [done|]. by intros p []. Qed.

Lemma peer_events_clear_wf b peer bits h : fd_wf c b h -> fd_wf c b (peer_events_clear peer bits h).
Proof using Type. intros Hh. apply fd_wf_upd_peer; [done|]. by intros p []. Qed.

Lemma peer_at_ok b peer h : fd_wf c b h -> peer_ok (peer_at h peer).
Proof using Type.
  intros []. unfold peer_at. rewrite nth_lookup. destruct (fd_peers h !! _) as [p|] eqn:E; cbn.
  - rewrite Forall_lookup in wf_peers0. eauto.
  - by vm_compute.
Qed.

Lemma control_at_ok b peer h : fd_wf c b h -> control_ok (control_at h peer).
Proof using Type. intros Hh. eapply po_control, peer_at_ok, Hh. Qed.

Lemma fits_peer_address b peer h : fd_wf c b h -> fits 8 (__peer_to_address_field h peer).
Proof using Type.
  intros Hh. apply fits_clear_bits; [by vm_compute|]. eapply po_addr, peer_at_ok, Hh.
Qed.

Lemma ext_peer_address b peer h cr :
  fd_wf c b h -> Z.testbit (Z.lor (__peer_to_address_field h peer) cr) 0 = true.
Proof using Type.
  intros Hh. unfold __peer_to_address_field, clear_bits.
  by rewrite Z.lor_spec, Z.land_spec, (po_ext _ (peer_at_ok _ peer _ Hh)).
Qed.

Lemma ext_own_address b peer h : fd_wf c b h -> Z.testbit (__peer_to_address_field h peer) 0 = true.
Proof using Type. intros Hh. rewrite <- (Z.lor_0_r (__peer_to_address_field h peer)). by eapply ext_peer_address. Qed.

Lemma fits_nr_field b peer h :
  fd_wf c b h -> fits 3 (__i_queue_control_get_next_frame_to_receive (control_at h peer)).
Proof using Type. intros Hh. eapply co_nr, control_at_ok, Hh. Qed.

(** Queueing a service frame. *)
Lemma put_u_s_wf b type data h :
  fd_wf c b h -> bytes data -> Z.testbit (nth 0 data 0) 0 = true -> Z.testbit (nth 1 data 0) 0 = true ->
  (type = TINY_FD_QUEUE_U_FRAME \/ type = TINY_FD_QUEUE_S_FRAME) ->
  fd_wf c b (put_u_s type data h).
Proof using Type.
  intros Hh Hd He Hb Ht. unfold put_u_s, __put_u_s_frame_to_tx_queue.
  pose proof (queue_wf_put S_U true 2 (c_s_addrs c) (fd_s_queue h) type (drop 2 data)
    (nth 0 data 0) (nth 1 data 0) (wf_s _ _ _ Hh)) as Hq.
  destruct (tiny_fd_queue_allocate _ type (drop 2 data)) as [[i|] q]; cbn [snd].
  - apply fd_wf_events_set. destruct Hh. split; try done. apply Hq; [by apply bytes_drop|..]; try done.
    + destruct data as [|x data]; [by vm_compute|]. by apply bytes_cons in Hd as [? _].
    + destruct data as [|x [|y data]]; [by vm_compute..|].
      by apply bytes_cons in Hd as [_ [? _]%bytes_cons].
    + destruct Ht as [->| ->]; auto.
    + by destruct Ht as [->| ->].
  - rewrite Hq; try done; [by destruct Hh|by apply bytes_drop|..].
    + destruct data as [|x data]; [by vm_compute|]. by apply bytes_cons in Hd as [? _].
    + destruct data as [|x [|y data]]; [by vm_compute..|].
      by apply bytes_cons in Hd as [_ [? _]%bytes_cons].
    + destruct Ht as [->| ->]; auto.
    + by destruct Ht as [->| ->].
Qed.

Lemma put_u_wf b peer cr type h :
  fd_wf c b h -> fits 8 cr -> fits 8 type -> fd_wf c b (put_u peer cr type h).
Proof using Type.
  intros Hh Hcr Ht. apply put_u_s_wf; [done| |by eapply ext_peer_address| |by left].
  - apply bytes_pair; (apply fits_lor; [done| |]); [by eapply fits_peer_address|done..|by vm_compute].
  - change (Z.testbit (Z.lor type HDLC_U_FRAME_BITS) 0 = true).
    rewrite Z.lor_spec. by rewrite orb_true_r.
Qed.

Lemma fits_connect_type h : fits 8 (connect_type h).
Proof using Type. unfold connect_type. by destruct (_ =? _). Qed.

Lemma fd_wf_handle_queue b q h :
  fd_wf c b h -> queue_wf TINY_FD_QUEUE_I_FRAME false (c_mtu c) (c_i_addrs c) q ->
  fd_wf c b (h <| fd_i_queue := q |>).
Proof using Type. intros Hh Hq. by apply fd_wf_i_queue. Qed.

Lemma control_ok_reset k : control_ok k -> control_ok (__reset_i_queue_control k).
Proof using Type. intros []. by split. Qed.

(** Queueing an I-frame. *)
Lemma put_i_frame_wf b h peer data :
  fd_wf c b h -> bytes data -> fd_wf c b (snd (__put_i_frame_to_tx_queue h peer data)).
Proof using Type.
  intros Hh Hd. unfold __put_i_frame_to_tx_queue.
  pose proof (queue_wf_put TINY_FD_QUEUE_I_FRAME false (c_mtu c) (c_i_addrs c) (fd_i_queue h)
    TINY_FD_QUEUE_I_FRAME data (__peer_to_address_field h peer)
    (u8 (Z.shiftl (last_ns (control_at h peer)) 1)) (wf_i _ _ _ Hh) Hd) as Hq.
  destruct (tiny_fd_queue_allocate _ _ data) as [[i|] q]; cbn [snd].
  - apply fd_wf_events_set, fd_wf_upd_control; [|intros k []; split; cbn; auto with tiny].
    apply fd_wf_handle_queue; [done|]. apply Hq; [by eapply fits_peer_address|by eapply ext_own_address|apply fits_u8|
      by rewrite u8_testbit0, Z.shiftl_spec_low|auto|done].
  - rewrite Hq; [by destruct Hh|by eapply fits_peer_address|by eapply ext_own_address|apply fits_u8|
      by rewrite u8_testbit0, Z.shiftl_spec_low|auto|done].
Qed.

(** A slot that a search of a well-formed queue finds. *)
Lemma s_queue_slot_control b h i :
  fd_wf c b h -> fits 8 (fi_control (slot_at (fd_s_queue h) i)).
Proof using Type.
  intros Hh. unfold slot_at. rewrite nth_lookup.
  destruct (q_frames (fd_s_queue h) !! Z.to_nat i) as [f|] eqn:E; [|by vm_compute]. cbn.
  destruct (queue_wf_slot _ _ _ _ _ _ _ (wf_s _ _ _ Hh) E) as [[] _]. done.
Qed.

Lemma get_next_s_u_wf b h peer address :
  fd_wf c b h -> fd_wf c b (snd (tiny_fd_get_next_s_u_frame_to_send h peer address)).
Proof using Type.
  intros Hh. unfold tiny_fd_get_next_s_u_frame_to_send.
  destruct (tiny_fd_queue_get_next _ _ _ _) as [i|]; [|done]. cbn [snd].
  destruct (_ =? _); [|done]. apply fd_wf_upd_peer; [done|]. intros p [].
  split; try done. cbn. by eapply fits_nr, s_queue_slot_control.
Qed.

Lemma resend_loop_wf b fuel peer control nr h h' :
  fd_wf c b h -> fits 8 control -> resend_loop fuel peer control nr h = Some h' -> fd_wf c b h'.
Proof using Type.
  intros Hh Hc. revert h Hh. induction fuel as [|fuel IH]; intros h Hh; [done|]. cbn [resend_loop].
  destruct (negb _); [|intros [= <-]; done]. destruct (_ =? _).
  - intros [= <-]. apply put_u_s_wf; [done| |by eapply ext_peer_address|done|by left].
    apply bytes_cons; split; [apply fits_lor; [done|by eapply fits_peer_address|done]|].
    apply bytes_cons; split; [done|]. apply bytes_pair; [done|apply fits_u8].
  - apply IH, fd_wf_upd_control; [done|]. intros k []. split; cbn; auto with tiny.
Qed.

Lemma resend_all_wf b peer control nr h :
  fd_wf c b h -> fits 8 control -> fd_wf c b (__resend_all_unconfirmed_frames peer control nr h).
Proof using Type.
  intros Hh Hc. unfold __resend_all_unconfirmed_frames.
  destruct (resend_loop 9 peer control nr h) as [h'|] eqn:E; [|done].
  by eapply fd_wf_events_set, resend_loop_wf.
Qed.

Lemma check_received_frame_wf b peer ns h :
  fd_wf c b h -> fd_wf c b (snd (__check_received_frame peer ns h)).
Proof using Type.
  intros Hh. unfold __check_received_frame. destruct (ns =? _); cbn [snd].
  - apply fd_wf_upd_peer; [|by intros p []]. apply fd_wf_upd_control; [done|].
    intros k []. split; cbn; auto with tiny.
  - destruct (negb _); cbn [snd]; [|done].
    apply put_u_s_wf; [by apply fd_wf_upd_peer; [|intros p []]| |by eapply ext_peer_address
      |by cbn [nth]; apply s_control_bit0|by right].
    apply bytes_pair; [|apply fits_s_control]. apply fits_lor; [done|by eapply fits_peer_address|done].
Qed.

(** Queueing an S-frame with the number of the next expected frame. *)
Lemma put_s_wf b address type nr h :
  fd_wf c b h -> fits 8 address -> Z.testbit address 0 = true ->
  fd_wf c b (put_u_s TINY_FD_QUEUE_S_FRAME [address; s_control type nr] h).
Proof using Type.
  intros Hh Ha He. apply put_u_s_wf; [done| |done|by cbn [nth]; apply s_control_bit0|by right].
  apply bytes_pair; [done|apply fits_s_control].
Qed.

Lemma confirm_with_rr_wf b peer h : fd_wf c b h -> fd_wf c b (confirm_with_rr peer h).
Proof using Type.
  intros Hh. unfold confirm_with_rr. destruct (_ && _); [|done].
  apply put_s_wf; [done|by eapply fits_peer_address|by eapply ext_own_address].
Qed.

Lemma flush_peer_wf b peer h : fd_wf c b h -> fd_wf c b (flush_peer peer h).
Proof using Type. intros Hh. apply fd_wf_i_queue; [done|]. intros q. apply queue_wf_reset_for. Qed.

Lemma reset_link_ok state p : peer_ok p -> peer_ok (reset_link state p).
Proof using Type. intros []. by split. Qed.

Lemma switch_to_next_peer_wf b h :
  1 <= c_peers c <= 255 -> fd_wf c b h -> fd_wf c b (snd (__switch_to_next_peer h)).
Proof using Type.
  intros Hc Hh. pose proof Hh as [].
  destruct (switch_loop_spec (Z.to_nat (fd_peers_count h)) (fd_next_peer h) h 0)
    as (k & Hk & Hrun & _); [lia|lia| |lia|lia|].
  { unfold turn. by rewrite Z.add_0_r, Z.mod_small by lia. }
  unfold __switch_to_next_peer. rewrite Hrun. cbn [snd]. split; try done. cbn.
  rewrite <- wf_count0. apply turn_range. lia.
Qed.

Lemma free_by_header_wf b header h :
  fd_wf c b h -> fd_wf c b (h <| fd_s_queue ::= fun q => tiny_fd_queue_free_by_header q header |>).
Proof using Type. intros Hh. apply fd_wf_s_queue; [done|]. intros q. apply queue_wf_free_by_header. Qed.

Lemma free_i_wf b slot h :
  fd_wf c b h -> fd_wf c b (h <| fd_i_queue ::= fun q => tiny_fd_queue_free q slot |>).
Proof using Type. intros Hh. apply fd_wf_i_queue; [done|]. intros q. apply queue_wf_free_by_header. Qed.

End Handle.

#[export] Hint Resolve fd_wf_events_set fd_wf_events_clear fd_wf_lock fd_wf_unlock fd_wf_marker_ts
  fd_wf_ka_timeout peer_events_set_wf peer_events_clear_wf put_u_wf put_s_wf confirm_with_rr_wf
  flush_peer_wf resend_all_wf get_next_s_u_wf check_received_frame_wf free_by_header_wf free_i_wf
  fits_connect_type : tiny.
