(* ===== verification/FdSafe.v ===== *)
(** * The invariant holds in every run

    The operations on the world of a station: with callbacks and other threads
    that keep the invariant [fd_wf], every handler and every function of the
    API keeps it, takes the mutex only when it is free and releases it. *)

From S2P Require Import Prelude Crc HdlcLL HdlcSpec HdlcTx HdlcRx FdTypes FdQueue FdPeers.
From S2P Require Import FdIQueue FdLog FdService FdTx FdRx Fd FdApi FdInv.

Section Safe.

Context {US : Type} (millis : nat -> Z) (others : Z -> fd_world US -> fd_world US).
Context (cbs : fd_callbacks US) (c : fd_config) (Hpeers : 1 <= c_peers c <= 255).
Context `{Hcbs : !CallbacksOk c cbs, Hothers : !OthersOk c others}.

#[local] Abbreviation wf b w := (fd_wf c b (handle (w : fd_world US))).

(** ** Acknowledgements *)

Lemma unlocked_wf (cb : fd_world US -> fd_world US) w :
  (forall w, wf false w -> wf false (cb w)) -> wf true w -> wf true (unlocked cb w).
Proof using Type. intros Hcb Hw. apply fd_wf_lock, Hcb, fd_wf_unlock, Hw. Qed.

Lemma upd_peer_retries_wf b peer w :
  wf b w -> wf b (on_handle (upd_peer peer (fun p => p <| pi_retries := fd_retries (handle w) |>)) w).
Proof using Type.
  intros Hw. apply fd_wf_upd_peer; [done|]. intros p []. split; try done. by destruct Hw.
Qed.

Lemma on_frame_confirmed_wf peer nr w :
  wf true w -> wf true (snd (__on_frame_confirmed cbs peer nr w)).
Proof using Hcbs.
  intros Hw. unfold __on_frame_confirmed.
  destruct (tiny_fd_queue_get_next _ _ _ nr) as [slot|]; [|by apply upd_peer_retries_wf].
  cbv zeta. cbn [snd]. apply upd_peer_retries_wf.
  set (w1 := match on_send_cb cbs with Some _ => _ | None => _ end).
  assert (Hw1 : wf true w1).
  { unfold w1. destruct (on_send_cb cbs) as [cb|] eqn:E; [|done]. apply unlocked_wf; [|done].
    intros. by eapply ok_send. }
  destruct (tiny_fd_queue_has_free_slots _); [apply fd_wf_events_set|]; by apply free_i_wf.
Qed.

Lemma confirm_loop_wf (cb : Z -> fd_world US -> bool * fd_world US) fuel peer nr w w' :
  (forall nr w, wf true w -> wf true (snd (cb nr w))) ->
  wf true w -> confirm_loop fuel peer nr cb w = Some w' -> wf true w'.
Proof using Type.
  intros Hcb. revert w. induction fuel as [|fuel IH]; intros w Hw; [done|]. cbn [confirm_loop].
  destruct (negb _); [|by intros [= <-]]. destruct (negb _); [by intros [= <-]|].
  destruct (cb _ w) as [b w1] eqn:E. apply IH.
  apply fd_wf_upd_control; [by rewrite <- (eq_refl : snd (b, w1) = w1), <- E; apply Hcb|].
  intros k []. split; cbn; auto with tiny.
Qed.

Lemma confirm_sent_frames_wf peer nr w :
  wf true w -> wf true (__confirm_sent_frames cbs peer nr w).
Proof using Hcbs.
  intros Hw. unfold __confirm_sent_frames, __i_queue_control_confirm_sent_frames.
  destruct (confirm_loop 9 peer nr _ w) as [w'|] eqn:E; [|done].
  assert (wf true w').
  { eapply confirm_loop_wf; [|done|exact E]. intros. by apply on_frame_confirmed_wf. }
  destruct (negb _); [|done]. by apply peer_events_set_wf.
Qed.

(** ** Connection state *)

Lemma upd_peer_simple b peer f w :
  wf b w -> (forall p, peer_ok p -> peer_ok (f p)) -> wf b (on_handle (upd_peer peer f) w).
Proof using Type. intros Hw Hf. by apply fd_wf_upd_peer. Qed.

Lemma switch_to_connected_wf peer w :
  wf true w -> wf true (__switch_to_connected_state millis cbs peer w).
Proof using Hcbs.
  intros Hw. unfold __switch_to_connected_state. destruct (bool_decide _); [done|].
  cbv zeta. cbn [tiny_millis].
  set (w1 := on_handle _ (on_handle (peer_events_set _ _) _)).
  assert (Hw1 : wf true w1).
  { apply fd_wf_events_set, peer_events_set_wf, upd_peer_simple; [|by intros p []].
    apply (upd_peer_simple true peer); [|by intros p []]. cbn. apply flush_peer_wf.
    apply fd_wf_upd_peer; [done|]. intros p. apply reset_link_ok. }
  destruct (on_connect_event_cb cbs) as [cb|] eqn:E; [|done].
  apply unlocked_wf; [|done]. intros. by eapply ok_connect.
Qed.

Lemma switch_to_disconnected_wf peer w :
  wf true w -> wf true (__switch_to_disconnected_state cbs peer w).
Proof using Hcbs.
  intros Hw. unfold __switch_to_disconnected_state. destruct (bool_decide _); [done|]. cbv zeta.
  set (w1 := on_handle (peer_events_clear _ _) _).
  assert (Hw1 : wf true w1).
  { apply peer_events_clear_wf, flush_peer_wf, fd_wf_upd_peer; [done|]. intros p. apply reset_link_ok. }
  destruct (on_connect_event_cb cbs) as [cb|] eqn:E; [|done].
  apply unlocked_wf; [|done]. intros. by eapply ok_connect.
Qed.

(** ** Received frames *)

Lemma on_i_frame_read_wf peer data w :
  wf true w -> wf true (snd (__on_i_frame_read cbs peer data w)).
Proof using Hcbs.
  intros Hw. unfold __on_i_frame_read.
  destruct (__check_received_frame peer _ (handle w)) as [r h] eqn:E.
  assert (Hh : fd_wf c true h).
  { rewrite <- (eq_refl : snd (r, h) = h), <- E. by apply check_received_frame_wf. }
  pose proof (confirm_sent_frames_wf peer (Z.shiftr (frame_control data) 5) (w <| handle := h |>) Hh)
    as Hc. cbv zeta. destruct (_ =? _); [|done]. cbn [snd]. apply confirm_with_rr_wf.
  destruct (on_read_cb cbs) as [cb|] eqn:Ecb; [|done]. apply unlocked_wf; [|done].
  intros. by eapply ok_read.
Qed.

Lemma on_s_frame_read_wf peer data w :
  wf true w -> bytes data -> wf true (snd (__on_s_frame_read cbs peer data w)).
Proof using Hcbs.
  intros Hw Hd. unfold __on_s_frame_read. cbv zeta. cbn [snd].
  pose proof (confirm_sent_frames_wf peer (Z.shiftr (frame_control data) 5) w Hw) as Hc.
  assert (Hctl : fits 8 (frame_control data)).
  { unfold frame_control. rewrite nth_lookup. destruct (data !! 1%nat) as [x|] eqn:E; [|by vm_compute].
    unfold bytes in Hd. rewrite Forall_lookup in Hd. by eapply Hd. }
  repeat case_match; try done; try by apply resend_all_wf.
  - apply put_s_wf; [done|by eapply fits_peer_address|by eapply ext_own_address].
  - apply fd_wf_events_set, fd_wf_upd_peer; [done|]. intros p []. split; try done. apply fits_u8.
Qed.

Lemma on_u_frame_read_wf peer data w :
  wf true w -> wf true (snd (__on_u_frame_read millis cbs peer data w)).
Proof using Hcbs.
  intros Hw. unfold __on_u_frame_read. cbv zeta. cbn [snd].
  assert (Hu : forall cr type w, fits 8 cr -> fits 8 type -> wf true w ->
            wf true (on_handle (put_u peer cr type) w)) by (intros; by apply put_u_wf).
  repeat lazymatch goal with |- context [if ?x then _ else _] => destruct x end;
    try done; try (by apply Hu); try by apply switch_to_connected_wf, Hu.
  - by apply switch_to_connected_wf, switch_to_disconnected_wf, Hu.
  - by apply switch_to_disconnected_wf, Hu.
  - apply Hu; [done..|]. apply fd_wf_upd_peer; [done|]. intros p []. by split.
  - apply upd_peer_simple; [|by intros p []]. apply put_u_wf; [|done|apply fits_connect_type].
    by apply switch_to_disconnected_wf.
  - apply upd_peer_simple; [|by intros p []]. by apply put_u_wf; [|done|apply fits_connect_type].
  - by apply switch_to_connected_wf.
  - by apply switch_to_disconnected_wf.
  - by apply switch_to_disconnected_wf.
  - destruct (on_read_ui_cb cbs) as [cb|] eqn:E; [|done]. apply unlocked_wf; [|done]. intros. by eapply ok_read_ui.
Qed.

Lemma log_frame_wf b dir data w :
  wf b w -> wf b (__tiny_fd_log_frame cbs dir data w).
Proof using Hcbs.
  intros Hw. unfold __tiny_fd_log_frame. destruct data as [|a [|k data]]; [done..|].
  destruct (log_frame_cb cbs) as [cb|] eqn:E; [|done]. by eapply ok_log.
Qed.

Lemma on_frame_read_wf data w :
  wf false w -> bytes data -> wf false (on_frame_read millis cbs data w).
Proof using Hcbs.
  intros Hw Hd. unfold on_frame_read. destruct (_ <? 2); [done|]. cbv zeta.
  pose proof (log_frame_wf false TINY_FD_FRAME_DIRECTION_IN data w Hw) as Hl.
  set (wl := __tiny_fd_log_frame _ _ _ _) in *. destruct (_ =? HDLC_INVALID_PEER_INDEX); [done|].
  set (peer := __address_field_to_peer _ _). cbn [tiny_millis].
  set (w1 := on_handle (upd_peer peer _) _).
  assert (Hw1 : wf true w1) by (apply fd_wf_upd_peer; [by apply fd_wf_lock|by intros p []]).
  set (w2 := if Z.land _ HDLC_U_FRAME_MASK =? HDLC_U_FRAME_MASK then _ else _).
  assert (Hw2 : wf true w2).
  { unfold w2. repeat lazymatch goal with |- context [if ?x then _ else _] => destruct x end; try done.
    - by apply on_u_frame_read_wf.
    - by apply put_u_wf.
    - by apply on_i_frame_read_wf.
    - by apply on_s_frame_read_wf. }
  repeat lazymatch goal with |- context [if ?x then _ else _] => destruct x end;
    apply fd_wf_unlock; [by apply fd_wf_events_set|done..].
Qed.

Lemma on_frame_send_wf header data w :
  wf false w -> wf false (on_frame_send header data w).
Proof using Hpeers.
  intros Hw. unfold on_frame_send. destruct (_ =? HDLC_INVALID_PEER_INDEX); [done|]. cbv zeta.
  set (w1 := if Z.land _ HDLC_I_FRAME_MASK =? _ then _ else _).
  assert (Hw1 : wf true w1).
  { unfold w1. pose proof (fd_wf_lock c _ Hw) as Hl.
    repeat lazymatch goal with |- context [if ?x then _ else _] => destruct x end;
      [done|by apply free_by_header_wf..|done]. }
  repeat lazymatch goal with |- context [if ?x then _ else _] => destruct x end;
    apply fd_wf_unlock, fd_wf_events_clear; try done. by apply switch_to_next_peer_wf.
Qed.

(** ** Frames to send *)

Lemma stamp_nr_wf b peer i h : fd_wf c b h -> fd_wf c b (stamp_nr peer i h).
Proof using Type.
  intros Hh. unfold stamp_nr. cbn. apply fd_wf_i_queue; [done|]. intros q Hq.
  apply queue_wf_upd; [done|]. intros s _ [[] Hb]. split; [|done]. split; [split|]; try done.
  - apply fits_u8.
  - cbn -[u8 Z.lor Z.land Z.shiftl Z.testbit]. intros Hf. destruct (Hb Hf) as [Hb0 He]. split; [|done].
    rewrite u8_testbit0, Z.lor_spec, Z.land_spec, Hb0. by rewrite Z.shiftl_spec_low.
Qed.

Lemma mark_i_sent_wf b peer w : wf b w -> wf b (mark_i_sent millis peer w).
Proof using Type.
  intros Hw. unfold mark_i_sent. cbn [tiny_millis].
  apply fd_wf_upd_peer; [|by intros p []]. apply fd_wf_upd_peer; [done|].
  intros p []. split; try done. by eapply fits_nr_field.
Qed.

Lemma get_next_i_frame_wf b peer address w :
  wf b w -> wf b (snd (tiny_fd_get_next_i_frame millis peer address w)).
Proof using Type.
  intros Hw. unfold tiny_fd_get_next_i_frame. cbv zeta. destruct (_ || _); [done|].
  destruct (negb _).
  - destruct (first_requested _ 8 0) as [i|]; [|done].
    assert (Hw1 : wf b (on_handle (upd_peer peer (fun p =>
              p <| pi_srej_req_mask ::= clear_bits (Z.shiftl 1 i) |>)) w)).
    { apply fd_wf_upd_peer; [done|]. intros p []. split; try done. cbn.
      apply fits_land_l; [done..|]. apply Z.lxor_nonneg. by rewrite Z.shiftl_nonneg. }
    destruct (tiny_fd_queue_get_next _ _ _ _); [|done]. by apply mark_i_sent_wf, stamp_nr_wf.
  - destruct (tiny_fd_queue_get_next _ _ _ _); [|done]. apply mark_i_sent_wf, fd_wf_upd_control.
    + by apply stamp_nr_wf.
    + intros k []. split; cbn; auto with tiny.
Qed.

Lemma put_marker_frame_wf b peer address h :
  fd_wf c b h -> fits 8 address -> Z.testbit address 0 = true -> fd_wf c b (put_marker_frame peer address h).
Proof using Type.
  intros Hh Ha He. unfold put_marker_frame. cbv zeta.
  destruct (_ && _); (apply put_u_s_wf; [done| | | |by right]).
  - apply bytes_pair; [|by vm_compute]. by apply fits_lor.
  - cbn [nth]. by rewrite Z.lor_spec, He.
  - done.
  - apply bytes_pair; [done|apply fits_s_control].
  - done.
  - apply s_control_bit0.
Qed.

Lemma upd_ref_pf_wf b r h :
  fd_wf c b h -> fd_wf c b (upd_ref r (fun f => f <| fi_control ::= Z.lor HDLC_P_BIT |>) h).
Proof using Type.
  intros Hh. destruct r as [i|i]; cbn [upd_ref]; [apply fd_wf_i_queue|apply fd_wf_s_queue];
    try done; intros q Hq; (apply queue_wf_upd; [done|]); intros s _ [[] Hb]; (split; [|done]);
    (split; [split; try done; by apply fits_lor|]);
    cbn -[Z.lor Z.testbit]; intros Hf; destruct (Hb Hf) as [Hb0 He]; (split; [|done]);
    rewrite Z.lor_spec, Hb0; done.
Qed.

Lemma get_next_frame_to_send_wf peer w :
  wf false w -> wf false (snd (tiny_fd_get_next_frame_to_send millis cbs peer w)).
Proof using Hcbs.
  intros Hw. unfold tiny_fd_get_next_frame_to_send. cbv zeta.
  set (w0 := on_handle tiny_mutex_lock w). assert (Hw0 : wf true w0) by by apply fd_wf_lock.
  pose proof (fits_peer_address c true peer (handle w0) Hw0) as Ha.
  pose proof (ext_own_address c true peer (handle w0) Hw0) as He.
  set (address := __peer_to_address_field _ _) in *.
  pose proof (get_next_s_u_wf c true (handle w0) peer address Hw0) as Hw1.
  destruct (tiny_fd_get_next_s_u_frame_to_send _ _ _) as [d1 h1]. cbn [snd] in Hw1.
  set (w1 := w0 <| handle := h1 |>).
  set (p2 := match d1 with Some r => (Some r, w1) | None => _ end).
  assert (Hw2 : wf true (snd p2)).
  { unfold p2. destruct d1; [done|]. by apply get_next_i_frame_wf. }
  destruct p2 as [d2 w2]. cbn [snd] in Hw2.
  set (p3 := match d2 with Some r => (Some r, w2) | None => _ end).
  assert (Hw3 : wf true (snd p3)).
  { unfold p3. destruct d2; [done|]. destruct (_ =? _); [|done].
    pose proof (get_next_s_u_wf c true (put_marker_frame peer address (handle w2)) peer address
      (put_marker_frame_wf _ _ _ _ Hw2 Ha He)).
    by destruct (tiny_fd_get_next_s_u_frame_to_send _ _ _). }
  destruct p3 as [d3 w3]. cbn [snd] in Hw3.
  destruct d3 as [r|]; [|by apply fd_wf_unlock]. cbn [tiny_millis snd].
  apply fd_wf_unlock, log_frame_wf, fd_wf_upd_peer; [|by intros p []]. apply fd_wf_marker_ts.
  destruct (needs_pf _ _ _); [|done]. by apply upd_ref_pf_wf.
Qed.

(** ** Timeouts *)

Lemma connected_check_wf peer w :
  wf false w -> wf false (tiny_fd_connected_check_idle_timeout millis cbs peer w).
Proof using Hcbs.
  intros Hw. unfold tiny_fd_connected_check_idle_timeout. cbv zeta.
  set (w0 := on_handle tiny_mutex_lock w). assert (Hw0 : wf true w0) by by apply fd_wf_lock.
  cbn [time_since tiny_millis]. set (w1 := w0 <| clock ::= S |>).
  assert (Hw1 : wf true w1) by done. clearbody w1.
  apply fd_wf_unlock. destruct (_ && _).
  - destruct (Z.ltb_spec 0 (pi_retries (peer_at (handle w1) peer))); [|by apply switch_to_disconnected_wf].
    apply resend_all_wf; [|done]. cbn. apply fd_wf_upd_peer_at; [done|]. intros [].
    split; try done. cbn. unfold fits in *. lia.
  - unfold __time_passed_since_last_frame_received. cbn [time_since tiny_millis].
    destruct (_ <=? _).
    + destruct (negb _); [by apply switch_to_disconnected_wf|done].
    + unfold __time_passed_since_last_frame_sent. cbn [time_since tiny_millis].
      destruct (_ <=? _); [|done].
      apply fd_wf_upd_peer; [|by intros p []]. cbn.
      apply put_s_wf; [by apply fd_wf_upd_peer; [|intros p []]|by eapply fits_peer_address|by eapply ext_own_address].
Qed.

Lemma disconnected_check_wf peer w :
  wf false w -> wf false (tiny_fd_disconnected_check_idle_timeout millis peer w).
Proof using Type.
  intros Hw. unfold tiny_fd_disconnected_check_idle_timeout. cbv zeta.
  set (w0 := on_handle tiny_mutex_lock w). assert (Hw0 : wf true w0) by by apply fd_wf_lock.
  unfold __time_passed_since_last_frame_received. cbn [time_since tiny_millis].
  apply fd_wf_unlock. destruct (_ <=? _); [|done]. destruct (__is_primary_station _); [|done].
  apply fd_wf_upd_peer; [|by intros p []]. cbn. apply fd_wf_upd_peer; [|by intros p []].
  by apply put_u_wf; [|done|apply fits_connect_type].
Qed.

Lemma check_idle_timeout_wf peer w : wf false w -> wf false (check_idle_timeout millis cbs peer w).
Proof using Hcbs.
  intros Hw. unfold check_idle_timeout. cbv zeta.
  destruct (_ || _); [by apply connected_check_wf|by apply disconnected_check_wf].
Qed.

(** ** Waiting *)

Lemma events_wait_wf get put bits clear timeout w :
  (forall v h, fd_wf c false h -> fd_wf c false (put v h)) -> wf false w ->
  wf false (snd (tiny_events_wait others get put bits clear timeout w)).
Proof using Hothers.
  intros Hput Hw. unfold tiny_events_wait.
  assert (Hpoll : forall w, wf false w -> wf false (snd (tiny_events_poll get put bits clear w))).
  { intros w1 Hw1. unfold tiny_events_poll. destruct (nz (Z.land _ _)); [|done]. cbn [snd].
    destruct (nz clear); [by apply Hput|done]. }
  pose proof (Hpoll w Hw) as Hp. destruct (tiny_events_poll _ _ _ _ w) as [locked w1]. cbn [snd] in Hp.
  destruct (nz locked); [done|]. destruct (timeout =? 0); [done|]. by apply Hpoll, ok_others.
Qed.

Lemma fd_events_wait_wf bits clear timeout w :
  wf false w -> wf false (snd (fd_events_wait others bits clear timeout w)).
Proof using Hothers. apply events_wait_wf. intros v h. apply fd_wf_events. Qed.

Lemma peer_events_wait_wf peer bits clear timeout w :
  wf false w -> wf false (snd (peer_events_wait others peer bits clear timeout w)).
Proof using Hothers.
  apply events_wait_wf. intros v h Hh. apply fd_wf_upd_peer; [done|]. by intros p [].
Qed.

(** ** The functions the application calls *)

Lemma send_packet_to_wf address data timeout w :
  wf false w -> bytes data ->
  wf false (snd (tiny_fd_send_packet_to millis others address data timeout w)).
Proof using Hothers.
  intros Hw Hd. unfold tiny_fd_send_packet_to. cbv zeta. destruct (_ =? _); [done|].
  cbn [tiny_millis]. set (w0 := w <| clock ::= S |>). assert (Hw0 : wf false w0) by done.
  destruct (_ <? _); [done|].
  pose proof (peer_events_wait_wf (destination (handle w) address) FD_EVENT_CAN_ACCEPT_I_FRAMES
                EVENT_BITS_CLEAR timeout w0 Hw0) as Hw1.
  destruct (peer_events_wait _ _ _ _ _ _) as [can w1]. cbn [snd] in Hw1.
  destruct (nz can); [|done]. cbn [time_since tiny_millis].
  set (w2 := w1 <| clock ::= S |>). assert (Hw2 : wf false w2) by done.
  match goal with |- context [fd_events_wait others _ _ ?t w2] =>
    pose proof (fd_events_wait_wf FD_EVENT_QUEUE_HAS_FREE_SLOTS EVENT_BITS_CLEAR t w2 Hw2) as Hw3 end.
  destruct (fd_events_wait _ _ _ _ w2) as [free w3]. cbn [snd] in Hw3.
  destruct (nz free); [|by apply peer_events_set_wf].
  pose proof (put_i_frame_wf c true (handle (on_handle tiny_mutex_lock w3))
                (destination (handle w) address) data (fd_wf_lock _ _ Hw3) Hd) as Hput.
  destruct (__put_i_frame_to_tx_queue _ _ data) as [put h]. cbn [snd] in Hput.
  destruct put; [destruct (tiny_fd_queue_has_free_slots _)|]; destruct (negb _); cbn [snd];
    apply fd_wf_unlock; try apply peer_events_set_wf; try apply fd_wf_events_set; done.
Qed.

Lemma send_ui_packet_to_wf address data len w :
  wf false w -> bytes (default [] data) ->
  wf false (snd (tiny_fd_send_ui_packet_to address data len w)).
Proof using Type.
  intros Hw Hd. unfold tiny_fd_send_ui_packet_to. cbv zeta.
  destruct (_ && _); [done|]. destruct (_ <? _); [done|]. destruct (_ =? _); [done|].
  set (w0 := on_handle tiny_mutex_lock w). assert (Hw0 : wf true w0) by by apply fd_wf_lock.
  pose proof (queue_wf_put _ _ _ _ (fd_s_queue (handle w0)) TINY_FD_QUEUE_U_FRAME (default [] data)
    (__peer_to_address_field (handle w0) (destination (handle w) address))
    (Z.lor HDLC_U_FRAME_TYPE_UI HDLC_U_FRAME_BITS) (wf_s _ _ _ Hw0) Hd
    (fits_peer_address _ _ _ _ Hw0) (ext_own_address _ _ _ _ Hw0)) as Hq.
  destruct (tiny_fd_queue_allocate _ _ _) as [[i|] q]; cbn [snd]; apply fd_wf_unlock.
  - apply fd_wf_events_set. destruct Hw0. split; try done. apply Hq; by auto.
  - rewrite Hq; [by destruct Hw0|by auto..].
Qed.

Lemma get_status_wf w :
  wf false w -> option_Forall (fun w => wf false w) (snd (tiny_fd_get_status (Some w))).
Proof using Type. intros Hw. cbn. constructor. by apply fd_wf_unlock, fd_wf_lock. Qed.

Lemma disconnect_wf w :
  wf false w -> option_Forall (fun w => wf false w) (snd (tiny_fd_disconnect (Some w))).
Proof using Type.
  intros Hw. cbn [tiny_fd_disconnect].
  set (w0 := on_handle tiny_mutex_lock w). assert (Hw0 : wf true w0) by by apply fd_wf_lock. cbv zeta.
  assert (Hput : fd_wf c true (put_u 0 HDLC_CR_BIT HDLC_U_FRAME_TYPE_DISC (handle w0))).
  { by apply put_u_wf. }
  revert Hput. unfold put_u, put_u_s.
  destruct (__put_u_s_frame_to_tx_queue _ _ _) as [[slot|] h]; cbn [snd]; intros Hput; constructor;
    apply fd_wf_unlock; [|done]. by apply fd_wf_upd_peer; [|intros p []].
Qed.

Lemma register_peer_wf address w : wf false w -> wf false (snd (tiny_fd_register_peer millis address w)).
Proof using Type.
  intros Hw. unfold tiny_fd_register_peer. cbv zeta. destruct (_ <? _); [done|].
  destruct (_ =? _); [done|].
  set (w0 := on_handle tiny_mutex_lock w). assert (Hw0 : wf true w0) by by apply fd_wf_lock.
  destruct (negb _); [by apply fd_wf_unlock|]. destruct (_ =? _); [by apply fd_wf_unlock|].
  cbn [tiny_millis snd]. apply fd_wf_unlock. cbn. apply fd_wf_upd_peer; [|by intros p []].
  apply fd_wf_upd_peer; [done|]. intros p []. split; try done; [apply fits_u8|].
  change (Z.testbit (u8 (Z.lor (Z.shiftl address 2) HDLC_E_BIT)) 0 = true).
  rewrite u8_testbit0, Z.lor_spec. by rewrite orb_true_r.
Qed.

Lemma set_ka_timeout_wf b t w : wf b w -> wf b (tiny_fd_set_ka_timeout t w).
Proof using Type. apply fd_wf_ka_timeout. Qed.

Lemma send_to_loop_wf fuel address rest timeout w r :
  wf false w -> bytes rest -> send_to_loop millis others fuel address rest timeout w = Some r ->
  wf false (snd r).
Proof using Hothers.
  revert rest w. induction fuel as [|fuel IH]; intros rest w Hw Hr.
  { destruct rest; [|done]. by intros [= <-]. }
  cbn [send_to_loop]. destruct rest as [|x rest]; [by intros [= <-]|]. cbv zeta.
  match goal with |- context [tiny_fd_send_packet_to _ _ _ ?d _ _] =>
    pose proof (send_packet_to_wf address d timeout w Hw ltac:(by apply bytes_take)) as Hw1 end.
  destruct (tiny_fd_send_packet_to _ _ _ _ _ _) as [result w1]. cbn [snd] in Hw1.
  destruct (negb _); [by intros [= <-]|]. apply IH; [done|]. by apply bytes_drop.
Qed.

Lemma send_to_wf address data timeout w :
  wf false w -> bytes data -> wf false (snd (tiny_fd_send_to millis others address data timeout w)).
Proof using Hothers.
  intros Hw Hd. unfold tiny_fd_send_to.
  destruct (send_to_loop _ _ _ _ _ _ _) as [[rest w']|] eqn:E; [|done].
  by apply (send_to_loop_wf _ _ _ _ _ _ Hw Hd E).
Qed.

End Safe.
