(* ===== verification/FdStation.v ===== *)
(** * A station on its link

    The full-duplex protocol together with its framing handle: whatever bytes
    arrive and whenever the application polls for bytes to send, the receiver
    stays inside its buffer, the invariant of the protocol holds, and the
    loops end. *)

From stdpp Require Import relations.
From S2P Require Import Prelude Crc HdlcLL HdlcSpec HdlcTx HdlcRx HdlcLink FdTypes FdQueue.
From S2P Require Import FdPeers FdIQueue FdLog FdService FdTx FdRx Fd FdApi FdInv FdSafe.

(** ** The transmitter leaves the receive half alone *)

(** The part of a handle that reception depends on. *)
Definition rx_view (h : hdlc_ll_data_t) : hdlc_ll_data_t :=
  h <| tx_state := TX_SEND_START |> <| tx_out_buffer := [] |> <| tx_out_buffer_len := 0 |>
    <| tx_origin_data := 0 |> <| tx_data := 0 |> <| tx_len := 0 |> <| tx_crc := 0 |>
    <| tx_escape := 0 |>.

Lemma rx_ready_view h h' : rx_view h = rx_view h' -> rx_ready h -> rx_ready h'.
Proof.
  intros Hv. assert (Hr : forall k, rx_ready k <-> rx_ready (rx_view k)).
  { intros k. split; intros [[] ?]; by split; [split|]. }
  rewrite Hr, Hv, <- Hr. done.
Qed.

(** The output window: [L] bytes in all. *)
Definition tx_window (L : Z) (h : hdlc_ll_data_t) : Prop :=
  0 <= tx_out_buffer_len h /\ Z.of_nat (length (tx_out_buffer h)) + tx_out_buffer_len h = L.

Lemma send_tx_internal_frame L h data :
  tx_window L h ->
  tx_window L (snd (hdlc_ll_send_tx_internal h data)) /\
  rx_view (snd (hdlc_ll_send_tx_internal h data)) = rx_view h.
Proof.
  intros [H0 HL]. destruct (hdlc_ll_send_tx_internal h data) as [r h'] eqn:E.
  apply send_tx_internal_spec in E as [Hr ->]; [|done]. cbn [snd]. split; [|done].
  split; cbn; [lia|]. rewrite length_app, length_take. lia.
Qed.

Section Frame.

Context {U : Type} (cl : ll_client U) (on_sent : hdlc_ll_data_t * U -> Z -> Z -> U).
Context `{!SendPassive cl on_sent} (P : U -> Prop).
Context (HP : forall w p l, P (snd w) -> P (on_sent w p l)).

(** What every state function keeps. *)
Definition keeps (L : Z) (h0 : hdlc_ll_data_t) (w : hdlc_ll_data_t * U) : Prop :=
  tx_window L (fst w) /\ rx_view (fst w) = rx_view h0 /\ P (snd w).

Lemma tx_step_keeps L h0 w : keeps L h0 w -> keeps L h0 (snd (tx_step cl w)).
Proof using HP SendPassive0.
  destruct w as [h u]. intros (Hw & Hv & Hu). cbn [fst snd] in *. unfold tx_step. cbn [fst].
  assert (Hs : forall data k, tx_window L k -> rx_view k = rx_view h0 ->
            tx_window L (snd (hdlc_ll_send_tx_internal k data)) /\
            rx_view (snd (hdlc_ll_send_tx_internal k data)) = rx_view h0).
  { intros data k Hk <-. by apply send_tx_internal_frame. }
  destruct (tx_state h).
  - unfold hdlc_ll_send_start. destruct (_ =? 0); [done|].
    match goal with |- context [hdlc_ll_send_tx_internal ?k ?d] => specialize (Hs d k Hw Hv) end.
    destruct (hdlc_ll_send_tx_internal _ _) as [r h1]. cbn [snd] in *. destruct Hs as [H1 H2].
    destruct (r =? 1); by split_and!.
  - unfold hdlc_ll_send_data. destruct (nz (plain_run _ _ _)).
    + match goal with |- context [hdlc_ll_send_tx_internal ?k ?d] => specialize (Hs d k Hw Hv) end.
      destruct (hdlc_ll_send_tx_internal _ _) as [r h1]. cbn [snd] in *. destruct Hs as [H1 H2].
      destruct (0 <? r); cbn [snd]; [|destruct (_ =? 0); by split_and!].
      lazymatch goal with |- context [if ?b then _ else _] => destruct b end; by split_and!.
    + match goal with |- context [hdlc_ll_send_tx_internal ?k ?d] => specialize (Hs d k Hw Hv) end.
      destruct (hdlc_ll_send_tx_internal _ _) as [r h1]. cbn [snd] in *. destruct Hs as [H1 H2].
      destruct (0 <? r); [destruct (negb _)|]; cbn [snd];
        lazymatch goal with |- context [if ?b then _ else _] => destruct b end; by split_and!.
  - unfold hdlc_ll_send_crc. destruct (_ =? u8 _); [done|]. destruct (_ && _).
    + match goal with |- context [hdlc_ll_send_tx_internal ?k ?d] => specialize (Hs d k Hw Hv) end.
      destruct (hdlc_ll_send_tx_internal _ _) as [r h1]. cbn [snd] in *. destruct Hs as [H1 H2].
      destruct (r =? 1); by split_and!.
    + match goal with |- context [hdlc_ll_send_tx_internal ?k ?d] => specialize (Hs d k Hw Hv) end.
      destruct (hdlc_ll_send_tx_internal _ _) as [r h1]. cbn [snd] in *. destruct Hs as [H1 H2].
      destruct (r =? 1); [destruct (negb _)|]; by split_and!.
  - unfold hdlc_ll_send_end. specialize (Hs [FLAG_SEQUENCE] h Hw Hv).
    destruct (hdlc_ll_send_tx_internal _ _) as [r h1]. cbn [snd] in *. destruct Hs as [H1 H2].
    destruct (r =? 1); [|by split_and!]. cbn [snd]. rewrite send_passive.
    split_and!; try done. by apply HP.
Qed.

Lemma run_tx_loop_keeps L h0 fuel repeated w w' :
  keeps L h0 w -> run_tx_loop cl fuel repeated w = Some w' -> keeps L h0 w'.
Proof using HP SendPassive0.
  revert repeated w. induction fuel as [|fuel IH]; intros repeated w Hw; [done|]. cbn [run_tx_loop].
  destruct (_ =? 0); [by intros [= <-]|].
  pose proof (tx_step_keeps L h0 w Hw) as Hk. destruct (tx_step cl w) as [r w1]. cbn [snd] in Hk.
  destruct (r <? 0); [by intros [= <-]|]. destruct (r =? 0); [|by apply IH].
  destruct repeated; [by intros [= <-]|by apply IH].
Qed.

(** [hdlc_ll_run_tx] in any state of the transmitter. *)
Lemma run_tx_keeps w len :
  P (snd w) -> 0 <= len ->
  exists r w', hdlc_ll_run_tx cl w len = (r, w') /\ 0 <= r <= len /\
    Z.of_nat (length (tx_out_buffer (fst w'))) = r /\ rx_view (fst w') = rx_view (fst w) /\ P (snd w').
Proof using HP SendPassive0.
  intros Hu Hl. destruct w as [h u]. unfold hdlc_ll_run_tx.
  change (h <| tx_out_buffer := [] |> <| tx_out_buffer_len := len |>) with (with_window h len).
  destruct (run_tx_loop_total cl (run_tx_fuel len) false (with_window h len, u)) as [w' Hrun];
    [done|by apply tx_measure_window|].
  rewrite Hrun. apply (run_tx_loop_keeps len h) in Hrun as ([H0 HL] & Hv & Hu'); [|split_and!; try done].
  do 2 eexists. split; [reflexivity|]. split_and!; try done; lia.
Qed.

End Frame.

(** ** Payloads are bytes *)

Definition receiver_bytes (s : receiver) : Prop :=
  match s with Hunting => True | Receiving acc _ => bytes acc end.

Definition event_bytes (e : rx_event) : Prop :=
  match e with Delivered p => bytes p | Rejected _ => True end.

Lemma check_frame_bytes t acc : bytes acc -> event_bytes (check_frame t acc).
Proof.
  intros Ha. destruct (check_frame t acc) as [p|e] eqn:E; [|done].
  apply check_frame_delivered in E as ->. unfold frame_body in Ha. by apply bytes_app in Ha as [? _].
Qed.

Lemma receive_byte_bytes t mtu s b :
  receiver_bytes s -> fits 8 b ->
  receiver_bytes (fst (receive_byte t mtu s b)) /\ Forall event_bytes (snd (receive_byte t mtu s b)).
Proof.
  intros Hs Hb. assert (He : fits 8 (Z.lxor b TINY_ESCAPE_BIT)) by by apply fits_lxor.
  assert (Hsnoc : forall acc x, bytes acc -> fits 8 x -> bytes (acc ++ [x])).
  { intros acc x Ha Hx. apply bytes_app. split; [done|]. apply bytes_cons. by split; [|apply bytes_nil]. }
  unfold receive_byte. destruct s as [|acc esc]; cbn in Hs.
  - destruct (_ =? _); split; try constructor.
  - destruct (_ =? _).
    + destruct acc as [|a acc]; [by split; constructor|]. split; [done|].
      constructor; [|constructor]. by apply check_frame_bytes.
    + destruct (_ =? _); [by split; [|constructor]|].
      destruct (_ <? _); [|by split; [|constructor]].
      split; [|constructor]. destruct esc; by apply Hsnoc.
Qed.

Lemma receive_bytes t mtu s data :
  receiver_bytes s -> bytes data ->
  Forall event_bytes (snd (receive t mtu s data)).
Proof.
  revert s. induction data as [|b data IH]; intros s Hs Hd; [constructor|].
  apply bytes_cons in Hd as [Hb Hd]. cbn [receive].
  destruct (receive_byte_bytes t mtu s b Hs Hb) as [H1 H2].
  destruct (receive_byte t mtu s b) as [s1 e1]. cbn [fst snd] in *. specialize (IH s1 H1 Hd).
  destruct (receive t mtu s1 data) as [s2 e2]. cbn [snd] in *. by apply Forall_app.
Qed.

Lemma rx_abs_bytes h : rx_inv h -> receiver_bytes (rx_abs h).
Proof. intros Hi. unfold rx_abs. destruct (rx_state h); [done|by apply rx_acc_bytes..]. Qed.

(** ** The station *)

Section Station.

Context {US : Type} (millis : nat -> Z) (others : Z -> fd_world US -> fd_world US).
Context (cbs : fd_callbacks US) (c : fd_config) (Hpeers : 1 <= c_peers c <= 255).
Context `{Hcbs : !CallbacksOk c cbs, Hothers : !OthersOk c others}.

#[local] Abbreviation station := (hdlc_ll_data_t * fd_world US)%type.

(** What the framing layer's callback does to the protocol. *)
Definition fd_on_sent (lw : station) (ptr len : Z) : fd_world US :=
  let mem := fd_mem (handle (snd lw)) in on_frame_send ptr [mem ptr; mem (ptr + 1)] (snd lw).

#[export] Instance fd_client_send : SendPassive (fd_client millis cbs) fd_on_sent.
Proof using Type. done. Qed.

#[export] Instance fd_client_read : ReadNatural (fd_client millis cbs).
Proof using Type. by split. Qed.

Record station_wf (lw : station) : Prop := mk_station_wf {
  sw_rx : rx_ready (fst lw);
  sw_fd : fd_wf c false (handle (snd lw))
}.

Lemma deliver_wf es lw :
  fd_wf c false (handle (snd lw)) -> Forall event_bytes es ->
  fd_wf c false (handle (snd (deliver (fd_client millis cbs) lw es))).
Proof using Hcbs.
  intros Hw He. revert lw Hw. induction He as [|e es He Hes IH]; intros lw Hw; [done|].
  apply IH. destruct e as [p|e]; cbn; [|done]. by apply on_frame_read_wf.
Qed.

Lemma on_rx_data_wf lw data :
  station_wf lw -> bytes data ->
  exists errs lw', on_rx_data (fd_client millis cbs) lw data = Some (errs, lw') /\ station_wf lw'.
Proof using Hcbs.
  intros [Hr Hw] Hd.
  destruct (on_rx_data_spec (fd_client millis cbs) lw data Hr Hd) as (errs & lw' & Hrun & Hc).
  exists errs, lw'. split; [done|]. destruct Hc as (Hr' & _ & _ & es & Hrec & Hh & _).
  split; [done|]. assert (Hes : Forall event_bytes es).
  { replace es with (snd (receive (crc_type (fst lw)) (phys_mtu (fst lw)) (rx_abs (fst lw)) data))
      by by rewrite Hrec. apply receive_bytes; [by apply rx_abs_bytes, Hr|done]. }
  unfold happened in Hh. apply (f_equal snd) in Hh. cbn [client_view snd] in Hh. rewrite Hh.
  by apply deliver_wf.
Qed.

Lemma put_frame_view h data len : rx_view (snd (put_frame h data len)) = rx_view h.
Proof using Type. unfold put_frame. destruct (nz _); [done|]. by destruct (_ || _). Qed.

(** Bytes to send: what a pass of the loop does. *)
Lemma get_tx_data_idle_spec peer timeout l lw r l' lw' :
  station_wf lw ->
  get_tx_data_idle millis others cbs peer timeout l lw = (r, l', lw') ->
  station_wf lw' /\ l_result l' = l_result l /\ l_repeat l' = l_repeat l /\ l_out l' = l_out l /\
  match r with
  | Break v => v = TINY_ERR_UNKNOWN_PEER \/ v = l_result l
  | Continue => l_wait_point_passed l = false /\ l_wait_point_passed l' = true
  | Generated n b => n = 0 /\ b = [] /\ l_wait_point_passed l = false /\ l_wait_point_passed l' = true
  end.
Proof using Hcbs Hothers.
  destruct lw as [hdlc w]. intros [Hr Hw]. cbn [fst snd] in *. unfold get_tx_data_idle.
  destruct (_ =? HDLC_INVALID_PEER_INDEX); [intros [= <- <- <-]; split_and!; auto; by split|].
  pose proof (check_idle_timeout_wf millis cbs c peer w Hw) as Hw0.
  set (w0 := check_idle_timeout millis cbs peer w) in *.
  destruct (l_wait_point_passed l) eqn:Hwait; [intros [= <- <- <-]; split_and!; auto; by split|].
  cbv zeta.
  pose proof (fd_events_wait_wf others c FD_EVENT_HAS_MARKER EVENT_BITS_LEAVE timeout w0 Hw0) as Hw1.
  destruct (fd_events_wait others FD_EVENT_HAS_MARKER _ _ w0) as [marker w1]. cbn [snd] in Hw1.
  destruct (nz marker).
  - pose proof (fd_events_wait_wf others c FD_EVENT_TX_DATA_AVAILABLE EVENT_BITS_CLEAR timeout w1 Hw1)
      as Hw2.
    destruct (fd_events_wait others FD_EVENT_TX_DATA_AVAILABLE _ _ w1) as [available w2].
    cbn [snd] in Hw2. destruct (_ || _).
    + pose proof (get_next_frame_to_send_wf millis cbs c peer w2 Hw2) as Hw3.
      destruct (tiny_fd_get_next_frame_to_send _ _ _ w2) as [[frame|] w3]; cbn [snd] in Hw3.
      * match goal with |- context [put_frame hdlc ?a ?n] =>
          pose proof (put_frame_view hdlc a n) as Hv; destruct (put_frame hdlc a n) as [e hdlc1] end.
        cbn [snd] in Hv. intros [= <- <- <-]. split_and!; auto. split; cbn [fst snd].
        -- by eapply rx_ready_view.
        -- by do 2 apply fd_wf_events_set.
      * destruct (_ || _); intros [= <- <- <-]; split_and!; auto; by split.
    + destruct (_ || _); intros [= <- <- <-]; split_and!; auto; by split.
  - destruct (__is_primary_station (handle w1)).
    + unfold __time_passed_since_last_marker_seen. cbn [time_since tiny_millis].
      destruct (_ <=? _); intros [= <- <- <-]; split_and!; auto; (split; [done|]).
      * by apply fd_wf_events_set.
      * done.
    + intros [= <- <- <-]; split_and!; auto; by split.
Qed.

Lemma get_tx_data_pass_spec peer len timeout l lw r l' lw' :
  station_wf lw -> l_result l <= len ->
  get_tx_data_pass millis others cbs peer len timeout l lw = (r, l', lw') ->
  station_wf lw' /\ l_result l' = l_result l /\ l_repeat l' = l_repeat l /\ l_out l' = l_out l /\
  match r with
  | Break v => v = TINY_ERR_UNKNOWN_PEER \/ v = l_result l
  | Continue => l_wait_point_passed l = false /\ l_wait_point_passed l' = true
  | Generated n b => 0 <= n <= len - l_result l /\ Z.of_nat (length b) = n /\
      (l_wait_point_passed l' = l_wait_point_passed l \/ l_wait_point_passed l' = true)
  end.
Proof using Hcbs Hothers Hpeers.
  destruct lw as [hdlc w]. intros [Hr Hw] Hl. cbn [fst snd] in *. unfold get_tx_data_pass. cbn [snd fst].
  pose proof (fd_events_wait_wf others c FD_EVENT_TX_SENDING EVENT_BITS_LEAVE 0 w Hw) as Hw1.
  destruct (fd_events_wait others FD_EVENT_TX_SENDING _ _ w) as [sending w1]. cbn [snd] in Hw1.
  destruct (nz sending).
  - destruct (run_tx_keeps (fd_client millis cbs) fd_on_sent (fun w => fd_wf c false (handle w)))
      with (w := (hdlc, w1)) (len := len - l_result l) as (n & [hdlc2 w2] & Hrun & Hn & Hlen & Hv & Hw2).
    { intros lw p k Hk. by apply on_frame_send_wf. }
    { done. }
    { lia. }
    rewrite Hrun. intros [= <- <- <-]. cbn [fst snd] in *. split_and!; auto; [|lia..].
    split; [|done]. by eapply rx_ready_view.
  - intros E. apply get_tx_data_idle_spec in E as (H1 & H2 & H3 & H4 & H5); [|by split].
    split_and!; auto. destruct r as [v| |n b]; auto. destruct H5 as (-> & -> & _ & ->).
    split_and!; auto; cbn; lia.
Qed.

(** The measure of the loop: bytes missing, then the two flags. *)
Definition tx_locals_measure (len : Z) (l : tx_locals) : nat :=
  2 * Z.to_nat (len - l_result l) + (if l_repeat l then 1 else 0)
  + (if l_wait_point_passed l then 0 else 1).

Lemma get_tx_data_loop_spec fuel peer len timeout l lw :
  station_wf lw -> 0 <= l_result l <= len -> Z.of_nat (length (l_out l)) = l_result l ->
  (tx_locals_measure len l < fuel)%nat ->
  exists result out lw',
    get_tx_data_loop millis others cbs fuel peer len timeout l lw = Some (result, out, lw') /\
    station_wf lw' /\
    (result = TINY_ERR_UNKNOWN_PEER \/ 0 <= result <= len /\ Z.of_nat (length out) = result).
Proof using Hcbs Hothers Hpeers.
  revert l lw. induction fuel as [|fuel IH]; intros l lw Hw Hl Ho Hm; [lia|].
  cbn [get_tx_data_loop]. destruct (Z.ltb_spec (l_result l) len) as [Hlt|]; [|by eauto 10].
  destruct (get_tx_data_pass millis others cbs peer len timeout l lw) as [[r l'] lw'] eqn:E.
  apply get_tx_data_pass_spec in E as (Hw' & Hres & Hrep & Hout & Hr); [|done|lia].
  destruct r as [v| |n b].
  - exists v, (l_out l'), lw'. split; [done|]. split; [done|].
    destruct Hr as [->| ->]; [by left|right]. rewrite Hout. lia.
  - destruct Hr as [H1 H2]. apply IH; [done|lia|congruence|].
    revert Hm. unfold tx_locals_measure. rewrite Hres, Hrep, H1, H2. lia.
  - destruct Hr as (Hn & Hb & Hp). cbv zeta. rewrite (proj2 (Z.leb_le 0 (l_result l'))) by lia.
    set (l1 := (l' <| l_result ::= Z.add n |>) <| l_out ::= fun o => o ++ b |>).
    assert (Hr1 : l_result l1 = l_result l + n) by (unfold l1; cbn; lia).
    assert (Ho1 : Z.of_nat (length (l_out l1)) = l_result l1).
    { rewrite Hr1. unfold l1. cbn. rewrite length_app, Hout. lia. }
    assert (Hwait : ((if l_wait_point_passed l1 then 0 else 1) <=
                     (if l_wait_point_passed l then 0 else 1))%nat).
    { change (l_wait_point_passed l1) with (l_wait_point_passed l').
      destruct Hp as [->| ->]; destruct (l_wait_point_passed l); lia. }
    assert (Hrep1 : l_repeat l1 = l_repeat l) by done.
    revert Hm. unfold tx_locals_measure. intros Hm. destruct (Z.eqb_spec n 0) as [->|Hn0].
    + destruct (l_repeat l1) eqn:Hrl; cbn [negb].
      * apply IH; [done|cbn; lia|done|]. unfold tx_locals_measure.
        change (l_result (l1 <| l_repeat := false |>)) with (l_result l1).
        change (l_wait_point_passed (l1 <| l_repeat := false |>)) with (l_wait_point_passed l1).
        change (l_repeat (l1 <| l_repeat := false |>)) with false. cbv iota.
        rewrite Hr1, Z.add_0_r. rewrite <- Hrep1 in Hm. cbv iota in Hm. lia.
      * exists (l_result l1), (l_out l1), lw'. split; [done|]. split; [done|]. right. lia.
    + apply IH; [done|cbn; lia|done|]. unfold tx_locals_measure.
      change (l_result (l1 <| l_repeat := true |>)) with (l_result l1).
      change (l_wait_point_passed (l1 <| l_repeat := true |>)) with (l_wait_point_passed l1).
      change (l_repeat (l1 <| l_repeat := true |>)) with true. cbv iota. rewrite Hr1.
      destruct (l_repeat l); lia.
Qed.

Lemma get_tx_data_spec lw len timeout :
  station_wf lw ->
  exists result out lw',
    get_tx_data_loop millis others cbs (get_tx_data_fuel len) (fd_next_peer (handle (snd lw))) len
      timeout (mk_tx_locals 0 true false []) lw = Some (result, out, lw') /\
    tiny_fd_get_tx_data millis others cbs lw len timeout = (result, out, lw') /\
    station_wf lw' /\
    (result = TINY_ERR_UNKNOWN_PEER \/
     0 <= result <= Z.max 0 len /\ Z.of_nat (length out) = result).
Proof using Hcbs Hothers Hpeers.
  intros Hw. unfold tiny_fd_get_tx_data. destruct (Z.le_gt_cases 0 len) as [Hl|Hl].
  - destruct (get_tx_data_loop_spec (get_tx_data_fuel len) (fd_next_peer (handle (snd lw))) len
      timeout (mk_tx_locals 0 true false []) lw) as (result & out & lw' & Hrun & Hw' & Hr);
      [done|cbn; lia|done| |].
    { unfold tx_locals_measure, get_tx_data_fuel. cbn -[Z.to_nat Nat.mul]. rewrite Z.sub_0_r. lia. }
    exists result, out, lw'. rewrite Hrun. split_and!; try done. by rewrite Z.max_r.
  - exists 0, [], lw. destruct len as [|p|p]; [lia..|]. split_and!; try done. right. cbn. lia.
Qed.

(** ** Runs *)

(** One call into the library, by the application or the channel driver. *)
Inductive station_step : station -> station -> Prop :=
| StepRx lw data : bytes data ->
    station_step lw (snd (tiny_fd_on_rx_data millis cbs lw data))
| StepTx lw len timeout :
    station_step lw (snd (tiny_fd_get_tx_data millis others cbs lw len timeout))
| StepSend hdlc w address data timeout : bytes data ->
    station_step (hdlc, w) (hdlc, snd (tiny_fd_send_packet_to millis others address data timeout w))
| StepSendTo hdlc w address data timeout : bytes data ->
    station_step (hdlc, w) (hdlc, snd (tiny_fd_send_to millis others address data timeout w))
| StepSendUi hdlc w address data len : bytes (default [] data) ->
    station_step (hdlc, w) (hdlc, snd (tiny_fd_send_ui_packet_to address data len w))
| StepStatus hdlc w w' r : tiny_fd_get_status (Some w) = (r, Some w') ->
    station_step (hdlc, w) (hdlc, w')
| StepDisconnect hdlc w w' r : tiny_fd_disconnect (Some w) = (r, Some w') ->
    station_step (hdlc, w) (hdlc, w')
| StepRegister hdlc w address :
    station_step (hdlc, w) (hdlc, snd (tiny_fd_register_peer millis address w))
| StepKeepAlive hdlc w timeout :
    station_step (hdlc, w) (hdlc, tiny_fd_set_ka_timeout timeout w)
| StepClose lw :
    station_step lw (tiny_fd_close millis cbs lw).

Lemma station_step_wf lw lw' : station_step lw lw' -> station_wf lw -> station_wf lw'.
Proof using Hcbs Hothers Hpeers.
  intros Hs Hw. destruct Hs as [lw data Hd|lw len timeout|hdlc w a d t Hd|hdlc w a d t Hd|hdlc w a d n Hd
    |hdlc w w' r E|hdlc w w' r E|hdlc w a|hdlc w t|lw].
  - unfold tiny_fd_on_rx_data. by destruct (on_rx_data_wf lw data Hw Hd) as (e & lw' & -> & ?).
  - by destruct (get_tx_data_spec lw len timeout Hw) as (r & o & lw' & _ & -> & ? & _).
  - destruct Hw as [Hr Hf]. split; [done|]. by apply send_packet_to_wf.
  - destruct Hw as [Hr Hf]. split; [done|]. by apply send_to_wf.
  - destruct Hw as [Hr Hf]. split; [done|]. by apply send_ui_packet_to_wf.
  - destruct Hw as [Hr Hf]. split; [done|]. pose proof (get_status_wf c w Hf) as H.
    rewrite E in H. by inversion H.
  - destruct Hw as [Hr Hf]. split; [done|]. pose proof (disconnect_wf c w Hf) as H.
    rewrite E in H. by inversion H.
  - destruct Hw as [Hr Hf]. split; [done|]. by apply register_peer_wf.
  - destruct Hw as [Hr Hf]. split; [done|]. by apply set_ka_timeout_wf.
  - destruct lw as [hdlc w], Hw as [Hr Hf]. unfold tiny_fd_close, hdlc_ll_close.
    destruct (nz _); [|by split]. cbn [snd]. split; [done|]. by apply on_frame_send_wf.
Qed.

Lemma station_run_wf lw lw' : rtc station_step lw lw' -> station_wf lw -> station_wf lw'.
Proof using Hcbs Hothers Hpeers. induction 1; eauto using station_step_wf. Qed.

End Station.
