(* ===== verification/FdInit.v ===== *)
(** * The full-duplex protocol: initialisation (src/proto/fd/tiny_fd.c)

    [tiny_fd_init] divides the caller's buffer into the protocol data, the framing
    handle, the two frame queues and the peers.  The sizes of the structures are
    the compiler's ([layout]). *)

From stdpp Require Import relations.
From S2P Require Import Prelude Crc HdlcLL HdlcSpec HdlcTx HdlcRx HdlcInit FdTypes FdQueue.
From S2P Require Import FdPeers FdIQueue FdService FdTx FdRx Fd FdApi FdInv FdSafe FdStation.

(** The sizes of the structures, which the compiler chooses. *)
Record layout : Type := mk_layout {
  sizeof_ptr : Z;
  sizeof_frame_info : Z;
  offsetof_header : Z;
  sizeof_fd_data : Z;
  sizeof_peer_info : Z;
  sizeof_hdlc_ll : Z
}.

(** [tiny_fd_init_t] without the callbacks; [it_has_read_cb] tells whether
    [on_read_cb] is set. *)
Record tiny_fd_init_t : Type := mk_fd_init {
  it_has_read_cb : bool;
  it_buffer : Z;
  it_buffer_size : Z;
  it_send_timeout : Z;
  it_retry_timeout : Z;
  it_retries : Z;
  it_crc_type : hdlc_crc_t;
  it_window_frames : Z;
  it_mtu : Z;
  it_addr : Z;
  it_peers_count : Z;
  it_mode : Z
}.

#[export] Instance eta_fd_init : Eta tiny_fd_init_t := fun i =>
  mk_fd_init (it_has_read_cb i) (it_buffer i) (it_buffer_size i) (it_send_timeout i)
    (it_retry_timeout i) (it_retries i) (it_crc_type i) (it_window_frames i) (it_mtu i) (it_addr i)
    (it_peers_count i) (it_mode i).

Section Init.

Context (p : layout).

Definition i_frame_size (mtu : Z) : Z := sizeof_ptr p + sizeof_frame_info p + mtu - 2.
Definition u_s_frame_size : Z := sizeof_ptr p + sizeof_frame_info p.

Definition tiny_fd_buffer_size_by_mtu_ex (peers_count mtu tx_window : Z) (crc_type : hdlc_crc_t)
  (rx_window : Z) : Z :=
  let peers_count := if peers_count =? 0 then 1 else peers_count in
  let header_size := sizeof_fd_data p + sizeof_ptr p - 1 + peers_count * sizeof_peer_info p in
  let hdlc_level_rx_size :=
    hdlc_ll_get_buf_size_ex (sizeof_ptr p) (sizeof_hdlc_ll p) (mtu + 2) crc_type rx_window in
  header_size + hdlc_level_rx_size + i_frame_size mtu * tx_window
  + u_s_frame_size * TINY_FD_U_QUEUE_MAX_SIZE.

Definition tiny_fd_buffer_size_by_mtu (mtu window : Z) : Z :=
  tiny_fd_buffer_size_by_mtu_ex 0 mtu window HDLC_CRC_16 1.

(** [FD_MIN_BUF_SIZE] and [FD_BUF_SIZE_EX] of tiny_fd_int.h ([tiny_i_frame_info_t],
    which the second one names, is taken to be [tiny_fd_frame_info_t]). *)
Definition FD_MIN_BUF_SIZE (mtu window : Z) : Z :=
  sizeof_fd_data p + sizeof_ptr p - 1
  + HDLC_MIN_BUF_SIZE (sizeof_ptr p) (sizeof_hdlc_ll p) (mtu + 2) HDLC_CRC_16
  + 1 * sizeof_peer_info p + i_frame_size mtu * window + u_s_frame_size * TINY_FD_U_QUEUE_MAX_SIZE.

Definition FD_BUF_SIZE_EX (mtu tx_window : Z) (crc : hdlc_crc_t) (rx_window : Z) : Z :=
  sizeof_fd_data p + sizeof_ptr p - 1
  + HDLC_BUF_SIZE_EX (sizeof_ptr p) (sizeof_hdlc_ll p) (mtu + 2) crc rx_window
  + 1 * sizeof_peer_info p + i_frame_size mtu * tx_window + u_s_frame_size * TINY_FD_U_QUEUE_MAX_SIZE.

(** The result and [*init], whose [mtu] the function may choose. *)
Definition __tiny_fd_init_validate (init : tiny_fd_init_t) (peers_count : Z)
  : Z * tiny_fd_init_t :=
  let size mtu := tiny_fd_buffer_size_by_mtu_ex peers_count mtu (it_window_frames init)
                    (it_crc_type init) 1 in
  if negb (it_has_read_cb init) || (it_buffer init =? 0) || (it_buffer_size init =? 0)
  then (TINY_ERR_INVALID_DATA, init) else
  let automatic := it_mtu init =? 0 in
  let init := if automatic
    then init <| it_mtu := Z.quot (it_buffer_size init - size 0) (it_window_frames init + 1) |>
    else init in
  if automatic && (it_mtu init <? 2) then (TINY_ERR_OUT_OF_MEMORY, init) else
  if it_buffer_size init <? size (it_mtu init) then (TINY_ERR_OUT_OF_MEMORY, init) else
  if it_window_frames init <? 2 then (TINY_ERR_INVALID_DATA, init) else
  if seq_bits_mask <? it_window_frames init then (TINY_ERR_INVALID_DATA, init) else
  if (it_retry_timeout init =? 0) && (it_send_timeout init =? 0)
  then (TINY_ERR_INVALID_DATA, init) else (TINY_SUCCESS, init).

(** What [memset] leaves in the framing handle. *)
Definition zero_hdlc : hdlc_ll_data_t := fresh_handle HDLC_CRC_DEFAULT 0 0.

(** A peer after the loop of [tiny_fd_init]. *)
Definition init_peer (addr retries : Z) : tiny_fd_peer_info_t :=
  zero_peer <| pi_retries := retries |> <| pi_addr := addr |>
            <| pi_state := TINY_FD_STATE_DISCONNECTED |>.

(** The bytes left for the framing handle, before they are rounded down. *)
Definition hdlc_ll_space (init : tiny_fd_init_t) (peers_count ptr : Z) : Z :=
  it_buffer init + it_buffer_size init - ptr - 4
  - it_window_frames init * i_frame_size (it_mtu init)
  - TINY_FD_U_QUEUE_MAX_SIZE * u_s_frame_size - peers_count * sizeof_peer_info p.

(** The result; with [TINY_SUCCESS] also the framing handle and the protocol data. *)
Definition tiny_fd_init (init : tiny_fd_init_t) : Z * option (hdlc_ll_data_t * tiny_fd_data_t) :=
  let align := align_buffer (sizeof_ptr p) in
  let peers_count := if it_peers_count init =? 0 then 1 else it_peers_count init in
  let '(result, init) := __tiny_fd_init_validate init peers_count in
  if negb (result =? TINY_SUCCESS) then (result, None) else
  let buffer_end := it_buffer init + it_buffer_size init in
  let hdlc_ll_ptr := align (it_buffer init) + sizeof_fd_data p in
  let hdlc_ll_size := Z.land (hdlc_ll_space init peers_count hdlc_ll_ptr)
                             (Z.lnot (sizeof_ptr p - 1)) in
  let ptr := align (hdlc_ll_ptr + hdlc_ll_size) in
  let '(queue_size, i_queue) :=
    tiny_fd_queue_init (sizeof_ptr p) (sizeof_frame_info p) (offsetof_header p)
      (zero_slot (it_mtu init)) ptr (buffer_end - ptr) (it_window_frames init) (it_mtu init) in
  if queue_size <? 0 then (queue_size, None) else
  let ptr := align (ptr + queue_size) in
  let '(queue_size, s_queue) :=
    tiny_fd_queue_init (sizeof_ptr p) (sizeof_frame_info p) (offsetof_header p)
      (zero_slot 2) ptr (buffer_end - ptr) TINY_FD_U_QUEUE_MAX_SIZE 2 in
  if queue_size <? 0 then (queue_size, None) else
  let ptr := align (ptr + queue_size) + sizeof_peer_info p * peers_count in
  if buffer_end <? ptr then (TINY_ERR_OUT_OF_MEMORY, None) else
  let '(result, hdlc) :=
    hdlc_ll_init (sizeof_ptr p) (sizeof_hdlc_ll p) zero_hdlc
      (mk_hdlc_ll_init hdlc_ll_ptr (replicate (Z.to_nat hdlc_ll_size) 0) hdlc_ll_size
         (it_crc_type init) (it_mtu init + 2)) in
  if negb (result =? TINY_SUCCESS) then (result, None) else
  let addr := u8 (Z.lor (if nz (it_addr init) then Z.shiftl (it_addr init) 2 else HDLC_PRIMARY_ADDR)
                        HDLC_E_BIT) in
  let protocol :=
    {| fd_send_timeout := it_send_timeout init;
       fd_retry_timeout := if nz (it_retry_timeout init) then it_retry_timeout init
                           else Z.quot (it_send_timeout init) (it_retries init + 1);
       fd_ka_timeout := 5000; fd_retries := it_retries init;
       fd_i_queue := i_queue; fd_s_queue := s_queue; fd_mutex := false; fd_mutex_misuse := false;
       fd_peers_count := peers_count; fd_peers := []; fd_addr := addr; fd_next_peer := 0;
       fd_last_marker_ts := 0; fd_mode := it_mode init; fd_events := 0 |} in
  let peer_addr := if __is_secondary_station protocol || (fd_mode protocol =? TINY_FD_MODE_ABM)
                   then addr else HDLC_INVALID_PEER_INDEX in
  let protocol := protocol
    <| fd_peers := replicate (Z.to_nat peers_count) (init_peer peer_addr (it_retries init)) |> in
  let protocol := fd_events_set
    (Z.lor FD_EVENT_QUEUE_HAS_FREE_SLOTS
           (if __is_primary_station protocol then FD_EVENT_HAS_MARKER else 0)) protocol in
  match hdlc with
  | Some hdlc => (TINY_SUCCESS, Some (hdlc, protocol))
  | None => (result, None)
  end.

End Init.

(** ** Facts *)

(** The sizes a 64-bit compiler gives: multiples of the alignment, the header inside
    its structure. *)
Record layout64 (p : layout) : Prop := mk_layout64 {
  ly_ptr : sizeof_ptr p = 8;
  ly_header : 0 <= offsetof_header p /\ offsetof_header p + 4 <= sizeof_frame_info p;
  ly_fd : 0 < sizeof_fd_data p /\ sizeof_fd_data p mod 8 = 0;
  ly_peer : 0 < sizeof_peer_info p;
  ly_hdlc : 0 < sizeof_hdlc_ll p
}.

(** Arguments of their C types, with an aligned buffer that lies in the address space. *)
Record init_args (i : tiny_fd_init_t) : Prop := mk_init_args {
  ia_buffer : 0 < it_buffer i /\ it_buffer i mod 8 = 0 /\ it_buffer i + it_buffer_size i + 16 < 2 ^ 64;
  ia_size : 0 <= it_buffer_size i;
  ia_crc : it_crc_type i <> HDLC_CRC_OFF;
  ia_mtu : 0 <= it_mtu i;
  ia_window : 0 <= it_window_frames i;
  ia_retries : fits 8 (it_retries i);
  ia_peers : fits 8 (it_peers_count i)
}.

Lemma align8_id x : 0 <= x -> x + 8 - 1 < 2 ^ 64 -> x mod 8 = 0 -> align_buffer 8 x = x.
Proof.
  intros Hx Hw Hm. pose proof (align_buffer_div 3 ltac:(lia) x Hx Hw) as Ha.
  change (2 ^ 3) with 8 in Ha. rewrite Ha. pose proof (Z.div_mod x 8 ltac:(lia)). replace (x + 8 - 1) with (7 + x / 8 * 8).
  - rewrite Z.div_add by done. change (7 / 8) with 0. lia.
  - lia.
Qed.

Lemma land_align x : Z.land x (Z.lnot (8 - 1)) = x / 8 * 8.
Proof.
  change (Z.lnot (8 - 1)) with (Z.lnot (Z.ones 3)). rewrite <- Z.ldiff_land, Z.ldiff_ones_r by done.
  rewrite Z.shiftl_mul_pow2, Z.shiftr_div_pow2 by done. done.
Qed.

(** The checks of [__tiny_fd_init_validate] that a successful call has passed. *)
Lemma init_validate_success p init peers init' :
  init_args init -> __tiny_fd_init_validate p init peers = (TINY_SUCCESS, init') ->
  (exists mtu, init' = init <| it_mtu := mtu |> /\ 0 < mtu /\ (it_mtu init <> 0 -> mtu = it_mtu init)) /\
  2 <= it_window_frames init <= 7 /\
  (it_retry_timeout init <> 0 \/ it_send_timeout init <> 0) /\
  0 < it_buffer_size init /\ it_has_read_cb init = true /\
  tiny_fd_buffer_size_by_mtu_ex p peers (it_mtu init') (it_window_frames init) (it_crc_type init) 1
    <= it_buffer_size init.
Proof.
  intros [? ? ? ? ? ? ?]. unfold __tiny_fd_init_validate.
  destruct (it_has_read_cb init) eqn:Hcb; [|done]. cbn [negb orb].
  destruct (Z.eqb_spec (it_buffer init) 0); [done|]. cbn [orb].
  destruct (Z.eqb_spec (it_buffer_size init) 0); [done|].
  set (auto := it_mtu init =? 0).
  set (init1 := if auto then _ else init).
  assert (Hi : exists mtu, init1 = init <| it_mtu := mtu |> /\
            (it_mtu init <> 0 -> mtu = it_mtu init) /\ (auto = false -> mtu = it_mtu init)).
  { unfold init1, auto. destruct (Z.eqb_spec (it_mtu init) 0); [by eexists|].
    exists (it_mtu init). split; [by destruct init|done]. }
  destruct Hi as (mtu & Hi1 & Hm1 & Hm2).
  destruct (auto && (it_mtu init1 <? 2)) eqn:Ha; [done|].
  destruct (Z.ltb_spec (it_buffer_size init1)
    (tiny_fd_buffer_size_by_mtu_ex p peers (it_mtu init1) (it_window_frames init) (it_crc_type init) 1));
    [done|].
  rewrite Hi1 in *. cbn [it_window_frames it_retry_timeout it_send_timeout it_buffer_size it_mtu fupd] in *.
  cbn in *.
  destruct (Z.ltb_spec (it_window_frames init) 2); [done|].
  destruct (Z.ltb_spec seq_bits_mask (it_window_frames init)) as [|Hw]; [done|].
  change seq_bits_mask with 7 in Hw.
  destruct ((it_retry_timeout init =? 0) && (it_send_timeout init =? 0)) eqn:Ht; [done|].
  intros [= <-]. split_and!; try done; try lia.
  exists mtu. split; [done|]. split; [|done].
  unfold auto in *. destruct (Z.eqb_spec (it_mtu init) 0) as [E|E].
  - cbn [andb] in Ha. apply Z.ltb_ge in Ha. lia.
  - rewrite Hm1 by done. lia.
Qed.

(** The slots of a queue, as the invariant wants them. *)
Lemma queue_wf_init p types bit0 buffer max_size max_frames mtu used q :
  layout64 p -> 0 < max_frames -> 0 <= mtu ->
  tiny_fd_queue_init 8 (sizeof_frame_info p) (offsetof_header p) (zero_slot mtu)
    buffer max_size max_frames mtu = (used, q) ->
  0 <= used ->
  queue_wf types bit0 mtu (fi_addr <$> q_frames q) q /\ q_size q = max_frames /\ used <= max_size /\
  Forall (fun f => fi_type f = TINY_FD_QUEUE_FREE) (q_frames q) /\
  (forall f a, f ∈ q_frames q -> slot_range mtu f a -> buffer <= a < buffer + used) /\
  (forall i j f g a, q_frames q !! i = Some f -> q_frames q !! j = Some g ->
     slot_range mtu f a -> slot_range mtu g a -> i = j).
Proof.
  intros [_ [Hh1 Hh2] _ _ _] Hn Hm Hinit Hu.
  destruct (queue_init_spec 8 (sizeof_frame_info p) (offsetof_header p) types buffer
    max_size max_frames mtu used q) as (Hok & Hsize & Hmtu & Hused & Hfree & Hin & Hdis); try done; try lia.
  split_and!; try done.
  - split; try done. eapply Forall_impl; [exact Hfree|]. by intros f ->.
  - intros f a Hf Ha. specialize (Hin f a Hf Ha). lia.
Qed.

(** The space for the framing handle: with an aligned buffer the rounding and
    the four reserved bytes stay within the allowance for misalignment. *)
Lemma hdlc_ll_space_enough p init peers :
  layout64 p -> init_args init ->
  tiny_fd_buffer_size_by_mtu_ex p peers (it_mtu init) (it_window_frames init) (it_crc_type init) 1
    <= it_buffer_size init ->
  0 < peers ->
  let space := hdlc_ll_space p init peers (it_buffer init + sizeof_fd_data p) in
  get_crc_field_size (it_crc_type init) + (it_mtu init + 2) + sizeof_hdlc_ll p <= space / 8 * 8 <= space.
Proof.
  intros [Hptr _ _ _ _] [] Hsize Hp space. revert Hsize.
  unfold tiny_fd_buffer_size_by_mtu_ex, hdlc_ll_get_buf_size_ex. rewrite Hptr.
  destruct (Z.eqb_spec peers 0); [lia|]. intros Hsize.
  assert (get_crc_field_size (it_crc_type init) + (it_mtu init + 2) + sizeof_hdlc_ll p + 10 <= space).
  { unfold space, hdlc_ll_space. lia. }
  pose proof (Z.mul_div_le space 8 ltac:(lia)). pose proof (Z.mul_succ_div_gt space 8 ltac:(lia)). lia.
Qed.

Lemma fd_address_fits a : fits 8 (u8 (Z.lor a HDLC_E_BIT)).
Proof. apply fits_u8. Qed.

Lemma init_peer_ok addr retries :
  fits 8 addr -> Z.testbit addr 0 = true -> fits 8 retries -> peer_ok (init_peer addr retries).
Proof. intros. by split. Qed.

(** The configuration of an initialised station. *)
Definition config_of (mtu : Z) (h : tiny_fd_data_t) : fd_config :=
  mk_fd_config (fi_addr <$> q_frames (fd_i_queue h)) (fi_addr <$> q_frames (fd_s_queue h)) mtu
    (fd_peers_count h) (fd_addr h) (fd_mode h).

(** A station that [tiny_fd_init] has set up from [init], with MTU [mtu]. *)
Record initialised (init : tiny_fd_init_t) (mtu : Z) (hdlc : hdlc_ll_data_t) (h : tiny_fd_data_t)
  : Prop := mk_initialised {
  in_wf : forall (US : Type) (clock : nat) (user : US),
    station_wf (config_of mtu h) (hdlc, mk_fd_world h clock user);
  in_idle : tx_idle hdlc;
  in_crc : crc_type hdlc = it_crc_type init;
  in_phys_mtu : phys_mtu hdlc = mtu + 2 + get_crc_field_size (it_crc_type init);
  in_mtu : 0 < mtu /\ (it_mtu init <> 0 -> mtu = it_mtu init);
  in_peers : fd_peers_count h = if it_peers_count init =? 0 then 1 else it_peers_count init;
  in_window : q_size (fd_i_queue h) = it_window_frames init /\ 2 <= it_window_frames init <= 7;
  in_timeout : it_retry_timeout init <> 0 \/ it_send_timeout init <> 0;
  in_free : Forall (fun f => fi_type f = TINY_FD_QUEUE_FREE)
              (q_frames (fd_i_queue h) ++ q_frames (fd_s_queue h));
  in_inside : forall f a,
    (f ∈ q_frames (fd_i_queue h) /\ slot_range mtu f a) \/
    (f ∈ q_frames (fd_s_queue h) /\ slot_range 2 f a) ->
    it_buffer init <= a < it_buffer init + it_buffer_size init;
  in_i_before_s : forall f g a b, f ∈ q_frames (fd_i_queue h) -> g ∈ q_frames (fd_s_queue h) ->
    slot_range mtu f a -> slot_range 2 g b -> a < b;
  in_i_apart : forall i j f g a, q_frames (fd_i_queue h) !! i = Some f -> q_frames (fd_i_queue h) !! j = Some g ->
    slot_range mtu f a -> slot_range mtu g a -> i = j;
  in_s_apart : forall i j f g a, q_frames (fd_s_queue h) !! i = Some f -> q_frames (fd_s_queue h) !! j = Some g ->
    slot_range 2 f a -> slot_range 2 g a -> i = j;
  in_mode : fd_mode h = it_mode init;
  in_addr : fd_addr h = u8 (Z.lor (if nz (it_addr init) then Z.shiftl (it_addr init) 2 else HDLC_PRIMARY_ADDR)
                                  HDLC_E_BIT);
  in_peer_addr : Forall (fun pi => pi_addr pi = if __is_secondary_station h || (fd_mode h =? TINY_FD_MODE_ABM)
                                                then fd_addr h else HDLC_INVALID_PEER_INDEX) (fd_peers h);
  in_silent : Forall (fun pi => pi_last_received_frame_ts pi = 0) (fd_peers h);
  in_state : Forall (fun pi => pi_state pi = TINY_FD_STATE_DISCONNECTED) (fd_peers h);
  in_marker : nz (Z.land (fd_events h) FD_EVENT_HAS_MARKER) = __is_primary_station h
}.

Lemma fd_init_spec (p : layout) (init : tiny_fd_init_t) (hdlc : hdlc_ll_data_t) (h : tiny_fd_data_t) :
  layout64 p -> init_args init -> tiny_fd_init p init = (TINY_SUCCESS, Some (hdlc, h)) ->
  exists mtu, initialised init mtu hdlc h.
Proof.
  intros Hp Hi. unfold tiny_fd_init. rewrite (ly_ptr p Hp).
  set (peers := if it_peers_count init =? 0 then 1 else it_peers_count init).
  assert (Hpe : 1 <= peers <= 255).
  { destruct Hi as [_ _ _ _ _ _ Hq]. unfold fits in Hq. change (2 ^ 8) with 256 in Hq. unfold peers.
    destruct (Z.eqb_spec (it_peers_count init) 0); lia. }
  destruct (__tiny_fd_init_validate p init peers) as [result init'] eqn:Hv.
  destruct (Z.eqb_spec result TINY_SUCCESS) as [->|]; cbn [negb]; [|by intros [= ? ?]].
  apply init_validate_success in Hv as ((mtu & -> & Hmtu & Hm) & Hwin & Htime & Hbs & Hcb & Hsize);
    [|done].
  set (init' := init <| it_mtu := mtu |>) in *.
  assert (Hi' : init_args init') by (destruct Hi; split; cbn; try done; lia).
  change (tiny_fd_buffer_size_by_mtu_ex p peers (it_mtu init') (it_window_frames init')
            (it_crc_type init') 1 <= it_buffer_size init') in Hsize.
  pose proof (hdlc_ll_space_enough p init' peers Hp Hi' Hsize ltac:(lia)) as Hspace. cbv zeta in Hspace.
  pose proof (ia_buffer _ Hi') as (Hb1 & Hb2 & Hb3). pose proof (ly_fd p Hp) as [Hfd1 Hfd2].
  pose proof (ia_size _ Hi') as Hsz. rewrite (align8_id (it_buffer init')) by lia.
  set (hp := it_buffer init' + sizeof_fd_data p) in *.
  set (space := hdlc_ll_space p init' peers hp) in *. rewrite land_align.
  set (hsize := space / 8 * 8) in *.
  pose proof (get_crc_field_size_nonneg (it_crc_type init')) as Hcrc.
  pose proof (ly_hdlc p Hp) as Hsh.
  assert (Hhp : hp mod 8 = 0).
  { unfold hp. rewrite Z.add_mod, Hb2, Hfd2 by lia. done. }
  assert (Hend : hp + space <= it_buffer init' + it_buffer_size init').
  { unfold space, hdlc_ll_space, i_frame_size, u_s_frame_size. rewrite (ly_ptr p Hp).
    pose proof (ly_header p Hp). pose proof (ly_peer p Hp). pose proof (ia_window _ Hi').
    change TINY_FD_U_QUEUE_MAX_SIZE with 4.
    assert (0 <= it_window_frames init' * (8 + sizeof_frame_info p + it_mtu init' - 2)).
    { apply Z.mul_nonneg_nonneg; cbn; lia. }
    assert (0 <= peers * sizeof_peer_info p) by (apply Z.mul_nonneg_nonneg; lia). lia. }
  assert (Hmtu' : it_mtu init' = mtu) by done. assert (0 < hp) by (unfold hp; lia).
  rewrite (align8_id (hp + hsize)); [|lia|lia|].
  2:{ unfold hsize. rewrite Z.add_mod, Hhp, Z.mod_mul by lia. done. }
  set (q0 := hp + hsize) in *.
  destruct (tiny_fd_queue_init _ _ _ (zero_slot (it_mtu init')) q0 _ _ _) as [used1 iq] eqn:E1.
  destruct (Z.ltb_spec used1 0); [by intros [= ? ?]|].
  apply (queue_wf_init p TINY_FD_QUEUE_I_FRAME false) in E1 as (Hiq & Hiqs & Hu1 & Hif & Hii & Hid);
    [|done|cbn; lia|cbn; lia|lia].
  pose proof (align_buffer_bounds 3 ltac:(lia) (q0 + used1) ltac:(lia)) as Hal1.
  change (2 ^ 3) with 8 in Hal1. specialize (Hal1 ltac:(change (2 ^ (8 * 8)) with (2 ^ 64); lia)).
  set (s0 := align_buffer 8 (q0 + used1)) in *.
  destruct (tiny_fd_queue_init _ _ _ (zero_slot 2) s0 _ _ _) as [used2 sq] eqn:E2.
  destruct (Z.ltb_spec used2 0); [by intros [= ? ?]|].
  apply (queue_wf_init p (Z.lor TINY_FD_QUEUE_S_FRAME TINY_FD_QUEUE_U_FRAME) true) in E2
    as (Hsq & Hsqs & Hu2 & Hsf & Hsi & Hsd); [|done|done|done|lia].
  destruct (Z.ltb_spec (it_buffer init' + it_buffer_size init')
    (align_buffer 8 (s0 + used2) + sizeof_peer_info p * peers)); [by intros [= ? ?]|].
  destruct (hdlc_ll_init_spec 8 (sizeof_hdlc_ll p) 1 zero_hdlc
    (mk_hdlc_ll_init hp (replicate (Z.to_nat hsize) 0) hsize (it_crc_type init') (it_mtu init' + 2)))
    as (hdlc' & Hrun & Hready & _ & Hidle & _ & Hct & Hpm & _); cbn [hi_buf hi_buf_mem hi_buf_size
      hi_mtu hi_crc_type]; try done; try (cbn; lia).
  { rewrite length_replicate. lia. }
  { by apply Forall_replicate. }
  { rewrite align8_id; lia. }
  { by apply ia_crc in Hi'. }
  { rewrite align8_id; lia. }
  rewrite Hrun. cbn [negb Z.eqb TINY_SUCCESS].
  intros [= <- <-]. exists mtu.
  set (addr := u8 (Z.lor _ HDLC_E_BIT)). cbn [fst snd handle].
  match goal with |- context [replicate _ (init_peer ?a _)] => set (peer_addr := a) end.
  assert (Hpa : fits 8 peer_addr).
  { unfold peer_addr. destruct (_ || _); [apply fits_u8|done]. }
  assert (Hpe0 : Z.testbit peer_addr 0 = true).
  { unfold peer_addr. destruct (_ || _); [|done]. unfold addr. rewrite u8_testbit0, Z.lor_spec. by rewrite orb_true_r. }
  assert (Hpeers : forall P, P (init_peer peer_addr (it_retries init)) ->
            Forall P (replicate (Z.to_nat peers) (init_peer peer_addr (it_retries init)))).
  { intros P HP. by apply Forall_replicate. }
  split; try done; try (by apply Hpeers).
  - intros US clock user. split; [done|]. split; try done; cbn [fd_peers fd_peers_count fd_next_peer].
    + by apply Hpeers, init_peer_ok; [| |apply ia_retries in Hi].
    + cbn. rewrite length_replicate. lia.
    + cbn. lia.
    + by apply ia_retries in Hi.
  - by apply Forall_app.
  - intros f a [[Hf Ha]|[Hf Ha]]; [specialize (Hii f a Hf Ha)|specialize (Hsi f a Hf Ha)]; cbn in *; lia.
  - intros f g a b Hf Hg Ha Hb. specialize (Hii f a Hf Ha). specialize (Hsi g b Hg Hb). lia.
  - cbn. by destruct (__is_primary_station _).
Qed.

(** ** Properties *)

(** C34: initialisation with 64-bit pointers ([layout64]).  When [tiny_fd_init] accepts a buffer aligned to
    eight bytes and a CRC type other than OFF, the station satisfies the invariant of
    [tiny_fd_station_safe]: the receive buffer holds a frame of the MTU, the transmitter is idle; the
    window is between 2 and 7 and a timeout is set; every slot of both queues is free
    and lies inside the caller's buffer, the slots for packets before those for service
    frames, none overlapping another; every peer is disconnected and has its address; and exactly
    a primary station starts with the marker.  With CRC type OFF a successful initialisation does not
    establish it: [tiny_fd_init_overrun]. *)
Theorem tiny_fd_init_ready (p : layout) (init : tiny_fd_init_t)
  (hdlc : hdlc_ll_data_t) (h : tiny_fd_data_t)
  (Hp : layout64 p) (Hi : init_args init)
  (Hinit : tiny_fd_init p init = (TINY_SUCCESS, Some (hdlc, h))) :
  exists mtu, initialised init mtu hdlc h.
Proof. by apply (fd_init_spec p). Qed.

Definition layout_64 : layout := mk_layout 8 12 8 208 56 104.

(** An ABM station: window 4, MTU 32, FCS-16, in 1024 bytes. *)
Definition sample_fd_init : tiny_fd_init_t := {|
  it_has_read_cb := true; it_buffer := 0x1000; it_buffer_size := 1024; it_send_timeout := 1000;
  it_retry_timeout := 200; it_retries := 2; it_crc_type := HDLC_CRC_16; it_window_frames := 4;
  it_mtu := 32; it_addr := 0; it_peers_count := 0; it_mode := TINY_FD_MODE_ABM |}.

(** The station it makes. *)
Definition sample_station : hdlc_ll_data_t * tiny_fd_data_t :=
  match tiny_fd_init layout_64 sample_fd_init with
  | (_, Some s) => s
  | (_, None) => (zero_hdlc, sample_primary)
  end.

Lemma sample_station_init :
  tiny_fd_init layout_64 sample_fd_init = (TINY_SUCCESS, Some (fst sample_station, snd sample_station)).
Proof. vm_compute. reflexivity. Qed.

Lemma layout_64_ok : layout64 layout_64.
Proof. by split. Qed.

Lemma sample_fd_init_ok : init_args sample_fd_init.
Proof. by split. Qed.

Lemma tiny_fd_init_ready_witness :
  exists mtu, initialised sample_fd_init mtu (fst sample_station) (snd sample_station).
Proof.
  exact (tiny_fd_init_ready layout_64 sample_fd_init (fst sample_station) (snd sample_station)
           layout_64_ok sample_fd_init_ok sample_station_init).
Defined.

Lemma sample_station_wf {US} clock (user : US) :
  station_wf (config_of 32 (snd sample_station))
    (fst sample_station, mk_fd_world (snd sample_station) clock user).
Proof.
  destruct (fd_init_spec layout_64 sample_fd_init (fst sample_station) (snd sample_station)
              layout_64_ok sample_fd_init_ok sample_station_init) as (mtu & H).
  assert (mtu = 32) as <- by (by apply (in_mtu _ _ _ _ H)). apply (in_wf _ _ _ _ H).
Qed.

(** No callbacks and no other threads. *)
Definition no_callbacks {US} : fd_callbacks US := mk_fd_callbacks US None None None None None.

#[export] Instance no_callbacks_ok {US} c : CallbacksOk c (@no_callbacks US).
Proof. by split. Qed.

Definition idle_others {US} (timeout : Z) (w : fd_world US) : fd_world US := w.

#[export] Instance idle_others_ok {US} c : OthersOk c (@idle_others US).
Proof. by intros t w. Qed.

(** The space [tiny_fd_init] leaves to the framing handle is too small for some
    advertised buffers.  With 32-bit pointers, a word-aligned buffer of exactly
    [FD_MIN_BUF_SIZE(5, 2)] bytes is accepted, but after the four bytes
    the code takes off and the rounding the receive buffer is a byte shorter
    than the physical MTU, and a frame of the MTU is written past its end. *)
Theorem tiny_fd_init_overrun :
  let layout_32 := mk_layout 4 12 8 128 44 60 in
  let init := sample_fd_init <| it_mtu := 5 |> <| it_window_frames := 2 |>
                <| it_buffer_size := FD_MIN_BUF_SIZE layout_32 5 2 |> in
  exists hdlc h,
    tiny_fd_init layout_32 init = (TINY_SUCCESS, Some (hdlc, h)) /\
    rx_buf_size hdlc = phys_mtu hdlc - 1 /\
    rx_overrun (fst (snd (tiny_fd_on_rx_data (fun _ => 0) no_callbacks
                            (hdlc, mk_fd_world h 0 tt) [0x7E; 1; 0; 1; 2; 3; 4; 5; 6; 7]))) = true.
Proof. do 2 eexists. split; [vm_compute; reflexivity|]. by vm_compute. Qed.

(** An aligned buffer of the advertised size can be refused.  With 64-bit
    pointers, [tiny_fd_buffer_size_by_mtu(3, 2)] bytes at an aligned address pass
    the validation of the parameters, but the paddings between the parts exceed the space
    reserved for them and the result is [TINY_ERR_OUT_OF_MEMORY]. *)
Theorem tiny_fd_init_refuses_advertised :
  let init := sample_fd_init <| it_mtu := 3 |> <| it_window_frames := 2 |>
                <| it_buffer_size := tiny_fd_buffer_size_by_mtu layout_64 3 2 |> in
  fst (__tiny_fd_init_validate layout_64 init 1) = TINY_SUCCESS /\
  tiny_fd_init layout_64 init = (TINY_ERR_OUT_OF_MEMORY, None).
Proof. by vm_compute. Qed.
