(* ===== verification/FdRun.v ===== *)
(** * Runs of a station (src/proto/fd/tiny_fd.c)

    The safety of every sequence of calls, and the termination of the polling loop. *)

From stdpp Require Import relations.
From S2P Require Import Prelude Crc HdlcLL HdlcSpec HdlcRx FdTypes FdQueue FdPeers FdTx FdRx.
From S2P Require Import Fd FdApi FdInv FdSafe FdStation FdInit.

(** ** Properties *)

(** C12: safety of a running station.  Start from any state that satisfies the
    invariant (as [tiny_fd_init] establishes it), with callbacks and
    threads that preserve it, and call the library in any order: received bytes,
    polls for bytes to send, packets, unnumbered packets, registration, status,
    disconnection, close.  Then the receiver never writes outside its buffer; every
    queue slot, window counter and peer stays well-formed; the mutex is
    never taken while it is held, never released while it is free, and free after
    every call. *)
Theorem tiny_fd_station_safe {US : Type} (millis : nat -> Z)
  (others : Z -> fd_world US -> fd_world US) (cbs : fd_callbacks US) (c : fd_config)
  (lw lw' : hdlc_ll_data_t * fd_world US)
  (Hpeers : 1 <= c_peers c <= 255) (Hcbs : CallbacksOk c cbs) (Hothers : OthersOk c others)
  (Hw : station_wf c lw) (Hrun : rtc (station_step millis others cbs) lw lw') :
  station_wf c lw' /\ rx_overrun (fst lw') = false /\
  fd_mutex (handle (snd lw')) = false /\ fd_mutex_misuse (handle (snd lw')) = false.
Proof.
  assert (Hw' : station_wf c lw') by (by eapply station_run_wf).
  split; [done|]. destruct Hw' as [[[] _] []]. done.
Qed.

(** C33: polling for bytes to send ends.  For every size of the buffer the loop of
    [tiny_fd_get_tx_data] ends (the fuel of two passes per byte and four more
    suffices), keeps the invariant, and its result is the number of bytes
    written, at most the size, or [TINY_ERR_UNKNOWN_PEER]. *)
Theorem tiny_fd_get_tx_data_total {US : Type} (millis : nat -> Z)
  (others : Z -> fd_world US -> fd_world US) (cbs : fd_callbacks US) (c : fd_config)
  (lw : hdlc_ll_data_t * fd_world US) (len timeout : Z)
  (Hpeers : 1 <= c_peers c <= 255) (Hcbs : CallbacksOk c cbs) (Hothers : OthersOk c others)
  (Hw : station_wf c lw) :
  exists result out lw',
    get_tx_data_loop millis others cbs (get_tx_data_fuel len) (fd_next_peer (handle (snd lw))) len
      timeout (mk_tx_locals 0 true false []) lw = Some (result, out, lw') /\
    tiny_fd_get_tx_data millis others cbs lw len timeout = (result, out, lw') /\
    station_wf c lw' /\
    (result = TINY_ERR_UNKNOWN_PEER \/
     0 <= result <= Z.max 0 len /\ Z.of_nat (length out) = result).
Proof. by apply get_tx_data_spec. Qed.

(** A clock that stands still. *)
Definition stopped_clock (n : nat) : Z := 1000.

#[local] Abbreviation sample_conf := (config_of 32 (snd sample_station)).

(** Registering the only peer again fails; then a byte arrives and bytes are polled. *)
Lemma tiny_fd_station_safe_witness :
  let w0 := mk_fd_world (snd sample_station) 0 tt in
  let w1 := snd (tiny_fd_register_peer stopped_clock 9 w0) in
  let lw2 := snd (tiny_fd_get_tx_data stopped_clock idle_others no_callbacks (fst sample_station, w1) 16 0) in
  station_wf sample_conf lw2 /\ rx_overrun (fst lw2) = false /\
  fd_mutex (handle (snd lw2)) = false /\ fd_mutex_misuse (handle (snd lw2)) = false.
Proof.
  intros w0 w1 lw2.
  apply (tiny_fd_station_safe stopped_clock idle_others no_callbacks sample_conf
           (fst sample_station, w0) lw2).
  - by vm_compute.
  - apply no_callbacks_ok.
  - apply idle_others_ok.
  - apply sample_station_wf.
  - eapply rtc_l; [apply StepRegister|]. eapply rtc_l; [apply StepTx|]. apply rtc_refl.
Defined.

Lemma tiny_fd_get_tx_data_total_witness :
  exists result out lw',
    tiny_fd_get_tx_data stopped_clock idle_others no_callbacks
      (fst sample_station, mk_fd_world (snd sample_station) 0 tt) 16 0 = (result, out, lw') /\
    station_wf sample_conf lw'.
Proof.
  destruct (tiny_fd_get_tx_data_total stopped_clock idle_others no_callbacks sample_conf
              (fst sample_station, mk_fd_world (snd sample_station) 0 tt) 16 0)
    as (result & out & lw' & _ & H1 & H2 & _).
  - by vm_compute.
  - apply no_callbacks_ok.
  - apply idle_others_ok.
  - apply sample_station_wf.
  - exists result, out, lw'. exact (conj H1 H2).
Defined.
