(* ===== verification/FdFifo.v ===== *)
(** * The service queue as a first-in first-out queue

    When all frames of a queue go to one station, its slots form a ring: the
    frames wait in the order they were queued from [q_lookup_index] on, the free
    slots follow, and sending takes the first. *)

From S2P Require Import Prelude FdTypes FdQueue FdInv.

(** The slots in the order of the search. *)
Definition rotation (q : tiny_fd_queue_t) : list tiny_fd_frame_info_t :=
  drop (Z.to_nat (q_lookup_index q)) (q_frames q) ++ take (Z.to_nat (q_lookup_index q)) (q_frames q).

Definition is_free (f : tiny_fd_frame_info_t) : Prop := fi_type f = TINY_FD_QUEUE_FREE.

(** [busy] are the waiting frames, oldest first. *)
Definition fifo (q : tiny_fd_queue_t) (busy : list tiny_fd_frame_info_t) : Prop :=
  Forall (fun f => ~ is_free f) busy /\
  exists free, rotation q = busy ++ free /\ Forall is_free free.

Lemma rotation_length q : length (rotation q) = length (q_frames q).
Proof. unfold rotation. rewrite length_app, length_drop, length_take. lia. Qed.

Lemma fifo_length q busy : fifo q busy -> Z.of_nat (length busy) <= q_size q.
Proof.
  intros (_ & free & Hr & _). apply (f_equal length) in Hr. rewrite rotation_length, length_app in Hr.
  unfold q_size. lia.
Qed.

(** The index in the table of the [k]-th slot of the ring. *)
Definition ring_index (q : tiny_fd_queue_t) (k : nat) : nat :=
  Z.to_nat (visited q (q_lookup_index q) k).

Section Ring.

Context (types : Z) (q : tiny_fd_queue_t) (Hq : queue_ok types q).
#[local] Abbreviation lookup := (Z.to_nat (q_lookup_index q)).

Lemma ring_index_eq k :
  (k < length (q_frames q))%nat ->
  ring_index q k = (if lookup + k <? length (q_frames q) then lookup + k
                    else lookup + k - length (q_frames q))%nat.
Proof using Hq.
  intros Hk. destruct Hq as [[Hl0 Hl1] _ _]. unfold ring_index, visited. unfold q_size in *.
  destruct (Nat.ltb_spec (lookup + k) (length (q_frames q))).
  - rewrite Z.mod_small by lia. lia.
  - replace (q_lookup_index q + Z.of_nat k) with
      (q_lookup_index q + Z.of_nat k - Z.of_nat (length (q_frames q)) + 1 * Z.of_nat (length (q_frames q)))
      by lia.
    rewrite Z.mod_add by lia. rewrite Z.mod_small by lia. lia.
Qed.

Lemma ring_index_lt k : (k < length (q_frames q))%nat -> (ring_index q k < length (q_frames q))%nat.
Proof using Hq.
  intros Hk. rewrite ring_index_eq by done. destruct Hq as [[Hl0 Hl1] _ _]. unfold q_size in *.
  destruct (Nat.ltb_spec (lookup + k) (length (q_frames q))); lia.
Qed.

Lemma rotation_lookup k :
  (k < length (q_frames q))%nat -> rotation q !! k = q_frames q !! ring_index q k.
Proof using Hq.
  intros Hk. rewrite ring_index_eq by done. destruct Hq as [[Hl0 Hl1] _ _]. unfold q_size in *.
  unfold rotation. destruct (Nat.ltb_spec (lookup + k) (length (q_frames q))).
  - rewrite lookup_app_l by (rewrite length_drop; lia). by rewrite lookup_drop.
  - rewrite lookup_app_r by (rewrite length_drop; lia). rewrite length_drop, lookup_take_lt by lia.
    f_equal. lia.
Qed.

Lemma ring_index_inj j k :
  (j < length (q_frames q))%nat -> (k < length (q_frames q))%nat ->
  ring_index q j = ring_index q k -> j = k.
Proof using Hq.
  intros Hj Hk. rewrite !ring_index_eq by done. destruct Hq as [[Hl0 Hl1] _ _]. unfold q_size in *.
  destruct (Nat.ltb_spec (lookup + j) (length (q_frames q))),
    (Nat.ltb_spec (lookup + k) (length (q_frames q))); lia.
Qed.

(** A change of one slot, seen in the ring. *)
Lemma rotation_upd k f :
  (k < length (q_frames q))%nat ->
  rotation (upd_slot (ring_index q k) f q) = alter f k (rotation q).
Proof using Hq.
  intros Hk. apply list_eq. intros j.
  assert (Hlen : length (q_frames (upd_slot (ring_index q k) f q)) = length (q_frames q)).
  { unfold upd_slot. cbn. by rewrite length_alter. }
  destruct (Nat.lt_ge_cases j (length (q_frames q))) as [Hj|Hj].
  - assert (Hsame : rotation (upd_slot (ring_index q k) f q) !! j =
                    alter f (ring_index q k) (q_frames q) !! ring_index q j).
    { unfold rotation. cbn. rewrite (ring_index_eq j) by done. destruct Hq as [[Hl0 Hl1] _ _].
      unfold q_size in *. destruct (Nat.ltb_spec (lookup + j) (length (q_frames q))).
      - rewrite lookup_app_l by (rewrite length_drop, length_alter; lia). by rewrite lookup_drop.
      - rewrite lookup_app_r by (rewrite length_drop, length_alter; lia).
        rewrite length_drop, length_alter, lookup_take_lt by lia. f_equal. lia. }
    rewrite Hsame. destruct (decide (k = j)) as [<-|Hne].
    + rewrite !list_lookup_alter_eq, rotation_lookup by done. done.
    + rewrite !list_lookup_alter_ne, rotation_lookup; [done|done|done|].
      intros E. by apply ring_index_inj in E.
  - rewrite !lookup_ge_None_2; [done|..]; rewrite ?length_alter, rotation_length, ?Hlen; lia.
Qed.

(** The search finds the first match of the ring. *)
Lemma get_next_ring type address arg pre f post :
  rotation q = pre ++ f :: post ->
  Forall (fun g => slot_matches type address arg g = false) pre ->
  slot_matches type address arg f = true ->
  tiny_fd_queue_get_next q type address arg = Some (ring_index q (length pre)).
Proof using Hq.
  intros Hr Hpre Hf. pose proof (qo_lookup _ _ Hq) as Hl.
  assert (Hlen : (length pre < length (q_frames q))%nat).
  { rewrite <- rotation_length, Hr, length_app. cbn. lia. }
  assert (Hat : forall k, (k < length (q_frames q))%nat ->
            rotation q !! k = Some (slot_at q (visited q (q_lookup_index q) k))).
  { intros k Hk. rewrite rotation_lookup by done. unfold ring_index. apply slot_at_in.
    apply Z.mod_pos_bound. lia. }
  pose proof (get_next_loop_first q type address arg (length (q_frames q)) _ Hl) as Hg.
  unfold tiny_fd_queue_get_next.
  assert (Hnot : forall k, (k < length pre)%nat ->
            slot_matches type address arg (slot_at q (visited q (q_lookup_index q) k)) = false).
  { intros k Hk. rewrite Forall_lookup in Hpre. apply (Hpre k).
    rewrite <- Hat by lia. rewrite Hr. by rewrite lookup_app_l. }
  assert (Hyes : slot_matches type address arg (slot_at q (visited q (q_lookup_index q) (length pre))) = true).
  { rewrite <- Hf. f_equal. enough (Some (slot_at q (visited q (q_lookup_index q) (length pre))) = Some f)
      as E by by injection E.
    rewrite <- Hat by lia. rewrite Hr, lookup_app_r, Nat.sub_diag by lia. done. }
  destruct (get_next_loop _ _ _ _ _ _) as [i|].
  - destruct Hg as (k & Hk & -> & Hmk & Hbefore). unfold ring_index. do 2 f_equal.
    destruct (Nat.lt_trichotomy k (length pre)) as [Hlt|[->|Hlt]]; [|done|].
    + specialize (Hnot k Hlt). congruence.
    + specialize (Hbefore _ Hlt). congruence.
  - specialize (Hg _ Hlen). congruence.
Qed.

Lemma get_next_ring_none type address arg :
  Forall (fun g => slot_matches type address arg g = false) (rotation q) ->
  tiny_fd_queue_get_next q type address arg = None.
Proof using Hq.
  intros Hr. apply get_next_None; [apply Hq|]. unfold rotation in Hr. apply Forall_app in Hr as [H1 H2].
  rewrite <- (take_drop lookup (q_frames q)). by apply Forall_app.
Qed.

End Ring.

(** ** Operations *)

Section Fifo.

Context (types : Z) (q : tiny_fd_queue_t) (Hq : queue_ok types q).

Lemma ring_slot f : f ∈ rotation q -> slot_ok types (q_mtu q) f.
Proof using Hq.
  intros Hf. destruct Hq as [_ Hs _]. rewrite Forall_forall in Hs. apply Hs. unfold rotation in Hf.
  rewrite <- (take_drop (Z.to_nat (q_lookup_index q)) (q_frames q)).
  apply elem_of_app. apply elem_of_app in Hf as [Hf|Hf]; auto.
Qed.

(** Queueing a frame: it becomes the last one, or the queue is full. *)
Lemma fifo_allocate busy type data address control :
  fifo q busy -> Z.of_nat (length data) <= q_mtu q -> type <> TINY_FD_QUEUE_FREE ->
  let header := fun f => f <| fi_address := address |> <| fi_control := control |> in
  match tiny_fd_queue_allocate q type data with
  | (Some i, q') => exists f,
      slot_ok types (q_mtu q) f /\ fifo (upd_slot i header q') (busy ++ [header (filled_slot type data f)])
  | (None, q') => q' = q /\ Z.of_nat (length busy) = q_size q
  end.
Proof using Hq.
  intros (Hb & free & Hr & Hf) Hlen Hty header. unfold tiny_fd_queue_allocate.
  rewrite (proj2 (Z.leb_le _ _) Hlen).
  assert (Hin : forall g, g ∈ rotation q -> slot_ok types (q_mtu q) g) by apply ring_slot.
  assert (Hnb : Forall (fun g => slot_matches TINY_FD_QUEUE_FREE 0 0 g = false) busy).
  { apply Forall_forall. intros g Hg. rewrite Forall_forall in Hb. specialize (Hb g Hg).
    destruct (slot_matches TINY_FD_QUEUE_FREE 0 0 g) eqn:E; [|done].
    apply (slot_matches_free_iff types (q_mtu q)) in E; [done|]. apply Hin. rewrite Hr.
    apply elem_of_app. by left. }
  destruct free as [|f free].
  - rewrite (get_next_ring_none types); [|done|by rewrite Hr, app_nil_r]. split; [done|].
    apply (f_equal length) in Hr. rewrite rotation_length, length_app in Hr. cbn in Hr. unfold q_size. lia.
  - assert (Hfok : slot_ok types (q_mtu q) f).
    { apply Hin. rewrite Hr. apply elem_of_app. right. apply list_elem_of_here. }
    apply Forall_cons in Hf as [Hff Hf].
    rewrite (get_next_ring types q Hq _ _ _ busy f free Hr Hnb); [|by eapply slot_matches_free_iff].
    exists f. split; [done|].
    change (fun f0 : tiny_fd_frame_info_t =>
      (f0 <| fi_payload ::= copy_payload data |> <| fi_len := Z.of_nat (length data) |>
         <| fi_type := type |>)) with (filled_slot type data).
    rewrite upd_slot_compose. split.
    + apply Forall_app. split; [done|]. by constructor; [|constructor].
    + exists free. split; [|done].
      assert (Hk : (length busy < length (q_frames q))%nat).
      { rewrite <- rotation_length, Hr, length_app. cbn. lia. }
      rewrite (rotation_upd types) by done. rewrite Hr, <- app_assoc. cbn [app].
      rewrite alter_app_r_alt by lia. by rewrite Nat.sub_diag.
Qed.

(** The next frame to send to the station: the oldest. *)
Lemma fifo_next busy address :
  fifo q busy -> Forall (fun f => same_address address (fi_address f) = true) busy ->
  types = Z.lor TINY_FD_QUEUE_S_FRAME TINY_FD_QUEUE_U_FRAME ->
  tiny_fd_queue_get_next q types address 0 =
    match busy with [] => None | _ :: _ => Some (Z.to_nat (q_lookup_index q)) end /\
  match busy with [] => True | f :: _ => q_frames q !! Z.to_nat (q_lookup_index q) = Some f end.
Proof using Hq.
  intros (Hb & free & Hr & Hf) Ha Hty. pose proof (qo_lookup _ _ Hq) as Hl.
  assert (Hin : forall g, g ∈ rotation q -> slot_ok types (q_mtu q) g) by apply ring_slot.
  destruct busy as [|f busy].
  - split; [|done]. apply (get_next_ring_none types); [done|]. rewrite Hr. cbn.
    apply Forall_forall. intros g Hg. rewrite Forall_forall in Hf.
    destruct (slot_matches types address 0 g) eqn:E; [|done].
    rewrite Hty in E. apply (slot_matches_su_iff types (q_mtu q)) in E as [[E|E] _];
      [rewrite (Hf g Hg) in E; done..|]. apply Hin. by rewrite Hr.
  - assert (Hi : ring_index q 0 = Z.to_nat (q_lookup_index q)).
    { rewrite (ring_index_eq types) by (try done; unfold q_size in Hl; lia).
      rewrite Nat.add_0_r. destruct (Nat.ltb_spec (Z.to_nat (q_lookup_index q)) (length (q_frames q)));
        [done|]. unfold q_size in Hl. lia. }
    apply Forall_cons in Ha as [Haf _]. apply Forall_cons in Hb as [Hbf _].
    assert (Hfok : slot_ok types (q_mtu q) f).
    { apply Hin. rewrite Hr. apply list_elem_of_here. }
    split.
    + rewrite <- Hi. apply (get_next_ring types q Hq _ _ _ [] f (busy ++ free) Hr); [constructor|].
      rewrite Hty. apply (slot_matches_su_iff types (q_mtu q)); [done|]. split; [|done].
      destruct (so_type _ _ _ Hfok) as [?|[[E|[E|E]] Hland]]; [done|auto|auto|].
      exfalso. apply Hland. by rewrite E, Hty.
    + rewrite <- Hi, <- (rotation_lookup types); [by rewrite Hr|done|].
      rewrite <- rotation_length, Hr. cbn. lia.
Qed.

(** Sending it frees its slot and moves on. *)
Lemma fifo_free f busy :
  fifo q (f :: busy) -> fifo (tiny_fd_queue_free_by_header q (fi_addr f)) busy.
Proof using Hq.
  intros (Hb & free & Hr & Hf). apply Forall_cons in Hb as [_ Hb]. split; [done|].
  pose proof (qo_lookup _ _ Hq) as Hl. unfold q_size in Hl.
  set (l := Z.to_nat (q_lookup_index q)). assert (Hll : (l < length (q_frames q))%nat) by lia.
  destruct (lookup_lt_is_Some_2 _ _ Hll) as [g Hg].
  assert (Hdrop : drop l (q_frames q) = g :: drop (S l) (q_frames q)) by by apply drop_S.
  unfold rotation in Hr. fold l in Hr. rewrite Hdrop in Hr. cbn in Hr. injection Hr as -> Hr.
  unfold tiny_fd_queue_free_by_header.
  rewrite (header_index_lookup _ l f) by (try done; apply Hq).
  set (freed := f <| fi_type := TINY_FD_QUEUE_FREE |>).
  exists (free ++ [freed]). split; [|apply Forall_app; by split; [|constructor; [|constructor]]].
  rewrite app_assoc. rewrite <- Hr. unfold rotation, upd_slot, q_size. cbn.
  assert (Halter : alter (fun f => f <| fi_type := TINY_FD_QUEUE_FREE |>) l (q_frames q) =
            take l (q_frames q) ++ freed :: drop (S l) (q_frames q)).
  { rewrite <- (take_drop_middle (q_frames q) l f Hg) at 1.
    rewrite alter_app_r_alt by (rewrite length_take; lia).
    replace (l - length (take l (q_frames q)))%nat with 0%nat by (rewrite length_take; lia). done. }
  rewrite Halter.
  destruct (Z.leb_spec (Z.of_nat (length (q_frames q))) (Z.of_nat l + 1)).
  - assert (length (q_frames q) = S l) as Hlast by lia.
    replace (Z.of_nat l + 1 - Z.of_nat (length (q_frames q))) with 0 by lia.
    rewrite (drop_ge (q_frames q) (S l)) by lia. cbn. by rewrite app_nil_r.
  - replace (Z.to_nat (Z.of_nat l + 1)) with (S l) by lia.
    rewrite cons_middle, app_assoc.
    assert (Hlp : length (take l (q_frames q) ++ [freed]) = S l) by (rewrite length_app, length_take; cbn; lia).
    rewrite drop_app_length', take_app_length' by done.
    by rewrite app_assoc.
Qed.

End Fifo.
