(* ===== verification/FdSlots.v ===== *)
(** * The frames of the window

    [slots_ok a packets s q]: for the station with address field [a], the queue
    [q] holds exactly the packets from number [s] on, each once, in a slot that
    carries its number modulo 8. *)

From S2P Require Import Prelude FdTypes FdQueue FdPeers FdIQueue FdService FdTx FdInv.

(** An I-frame for the station with address field [a]. *)
Definition i_slot (a : Z) (f : tiny_fd_frame_info_t) : Prop :=
  fi_type f = TINY_FD_QUEUE_I_FRAME /\ same_address a (fi_address f) = true.

(** The slot carries packet number [k] for the address [a]. *)
Definition carries (a : Z) (packets : list (list Z)) (k : Z) (f : tiny_fd_frame_info_t) : Prop :=
  slot_ns f = k mod 8 /\ fi_address f = a /\ packets !! Z.to_nat k = Some (slot_payload f).

Record slots_ok (a : Z) (packets : list (list Z)) (s : Z) (q : tiny_fd_queue_t) : Prop := mk_slots_ok {
  sl_sound : forall i f, q_frames q !! i = Some f -> i_slot a f ->
    exists k, s <= k < Z.of_nat (length packets) /\ carries a packets k f;
  sl_unique : forall i j f g, q_frames q !! i = Some f -> q_frames q !! j = Some g ->
    i_slot a f -> i_slot a g -> slot_ns f = slot_ns g -> i = j;
  sl_complete : forall k, s <= k < Z.of_nat (length packets) ->
    exists i f, q_frames q !! i = Some f /\ i_slot a f /\ carries a packets k f
}.

Section Slots.

Context (a : Z) (packets : list (list Z)) (s : Z) (q : tiny_fd_queue_t).
Context (Hq : queue_ok TINY_FD_QUEUE_I_FRAME q).
Context (Hs : 0 <= s) (Hl : s <= Z.of_nat (length packets) <= s + 7).

Lemma i_slot_matches n i f :
  q_frames q !! i = Some f ->
  slot_matches TINY_FD_QUEUE_I_FRAME a n f = true <-> i_slot a f /\ slot_ns f = n.
Proof using Hq Hl.
  intros Hi. destruct Hq as [_ Hsl _]. rewrite Forall_lookup in Hsl.
  rewrite (slot_matches_i_iff TINY_FD_QUEUE_I_FRAME (q_mtu q)) by (by eapply Hsl).
  unfold i_slot. tauto.
Qed.

(** Searching for a number of the window finds its packet. *)
Lemma slots_find k :
  slots_ok a packets s q -> s <= k < Z.of_nat (length packets) ->
  exists i f, tiny_fd_queue_get_next q TINY_FD_QUEUE_I_FRAME a (k mod 8) = Some i /\
    q_frames q !! i = Some f /\ i_slot a f /\ carries a packets k f.
Proof using Hq Hl.
  intros Hok Hk. destruct (sl_complete _ _ _ _ Hok k Hk) as (i & f & Hi & Hf & Hc).
  exists i, f. split; [|done]. apply (get_next_unique q _ _ _ (qo_lookup _ _ Hq) i f); [done| |].
  - apply (i_slot_matches _ i); [done|]. split; [done|]. apply Hc.
  - intros j g Hj Hm. apply (i_slot_matches _ j) in Hm as [Hg Hn]; [|done].
    eapply (sl_unique _ _ _ _ Hok); try done. rewrite Hn. symmetry. apply Hc.
Qed.

(** Whatever number it searches for, what it finds is a packet of the window. *)
Lemma slots_found n i :
  slots_ok a packets s q -> tiny_fd_queue_get_next q TINY_FD_QUEUE_I_FRAME a n = Some i ->
  exists k f, q_frames q !! i = Some f /\ i_slot a f /\ s <= k < Z.of_nat (length packets) /\
    carries a packets k f /\ k mod 8 = n.
Proof using Hq Hl.
  intros Hok Hg. apply get_next_Some in Hg as (f & Hi & Hm); [|apply Hq].
  apply (i_slot_matches _ i) in Hm as [Hf Hn]; [|done].
  destruct (sl_sound _ _ _ _ Hok i f Hi Hf) as (k & Hk & Hc). exists k, f. split_and!; try done; try lia.
  rewrite <- Hn. symmetry. apply Hc.
Qed.

(** A change that keeps type, address, number and payload of the slot. *)
Lemma slots_upd i g :
  (forall f, q_frames q !! i = Some f ->
     fi_type (g f) = fi_type f /\ fi_address (g f) = fi_address f /\ slot_ns (g f) = slot_ns f /\
     slot_payload (g f) = slot_payload f) ->
  slots_ok a packets s q -> slots_ok a packets s (upd_slot i g q).
Proof using Hl.
  intros Hg Hok.
  assert (Hback : forall j f', q_frames (upd_slot i g q) !! j = Some f' ->
            exists f, q_frames q !! j = Some f /\ fi_type f' = fi_type f /\
              fi_address f' = fi_address f /\ slot_ns f' = slot_ns f /\ slot_payload f' = slot_payload f).
  { intros j f' Hj. unfold upd_slot in Hj. cbn in Hj. destruct (decide (i = j)) as [<-|Hne].
    - rewrite list_lookup_alter_eq in Hj. destruct (q_frames q !! i) as [f|] eqn:E; [|done].
      injection Hj as <-. exists f. split; [done|]. by apply Hg.
    - rewrite list_lookup_alter_ne in Hj by done. by exists f'. }
  assert (Hi : forall f f', fi_type f' = fi_type f -> fi_address f' = fi_address f ->
            i_slot a f' <-> i_slot a f).
  { intros f f' H1 H2. unfold i_slot. by rewrite H1, H2. }
  assert (Hc : forall k f f', fi_address f' = fi_address f -> slot_ns f' = slot_ns f ->
            slot_payload f' = slot_payload f -> carries a packets k f' <-> carries a packets k f).
  { intros k f f' H1 H2 H3. unfold carries. by rewrite H1, H2, H3. }
  split.
  - intros j f' Hj Hf'. apply Hback in Hj as (f & Hj & H1 & H2 & H3 & H4).
    apply (Hi f) in Hf'; [|done..]. destruct (sl_sound _ _ _ _ Hok j f Hj Hf') as (k & Hk & Hck).
    exists k. split; [done|]. by apply (Hc k f).
  - intros j1 j2 f1' f2' Hj1 Hj2 H1' H2' Hn.
    apply Hback in Hj1 as (f1 & Hj1 & ? & ? & E1 & _). apply Hback in Hj2 as (f2 & Hj2 & ? & ? & E2 & _).
    apply (Hi f1) in H1'; [|done..]. apply (Hi f2) in H2'; [|done..].
    eapply (sl_unique _ _ _ _ Hok); try done. congruence.
  - intros k Hk. destruct (sl_complete _ _ _ _ Hok k Hk) as (j & f & Hj & Hf & Hck).
    destruct (decide (i = j)) as [<-|Hne].
    + destruct (Hg f Hj) as (H1 & H2 & H3 & H4). exists i, (g f). split_and!.
      * unfold upd_slot. cbn. by rewrite list_lookup_alter_eq, Hj.
      * by apply (Hi f).
      * by apply (Hc k f).
    + exists j, f. split; [|done]. unfold upd_slot. cbn. by rewrite list_lookup_alter_ne.
Qed.

(** Freeing the slot of the first packet of the window. *)
Lemma slots_free i f :
  slots_ok a packets s q -> q_frames q !! i = Some f -> i_slot a f -> carries a packets s f ->
  slots_ok a packets (s + 1) (tiny_fd_queue_free q i).
Proof using Hq Hs Hl.
  intros Hok Hi Hf Hc. unfold tiny_fd_queue_free.
  rewrite (slot_at_lookup _ _ _ Hi). unfold tiny_fd_queue_free_by_header.
  rewrite (header_index_lookup _ i f) by (try done; apply Hq).
  set (q' := (upd_slot i _ q) <| q_lookup_index := _ |>).
  assert (Hfr : forall j g, q_frames q' !! j = Some g -> i_slot a g ->
            j <> i /\ q_frames q !! j = Some g).
  { intros j g Hj Hg. unfold q', upd_slot in Hj. cbn in Hj. destruct (decide (i = j)) as [<-|Hne].
    - rewrite list_lookup_alter_eq, Hi in Hj. injection Hj as <-. by destruct Hg.
    - by rewrite list_lookup_alter_ne in Hj. }
  split.
  - intros j g Hj Hg. destruct (Hfr j g Hj Hg) as [Hne Hj'].
    destruct (sl_sound _ _ _ _ Hok j g Hj' Hg) as (k & Hk & Hck). exists k. split; [|done].
    destruct (decide (k = s)) as [->|]; [|lia]. exfalso. apply Hne.
    eapply (sl_unique _ _ _ _ Hok); try done. destruct Hc as [-> _], Hck as [-> _]. done.
  - intros j1 j2 g1 g2 Hj1 Hj2 H1 H2. destruct (Hfr _ _ Hj1 H1), (Hfr _ _ Hj2 H2).
    by eapply (sl_unique _ _ _ _ Hok).
  - intros k Hk. destruct (sl_complete _ _ _ _ Hok k) as (j & g & Hj & Hg & Hck); [lia|].
    exists j, g. split; [|done]. unfold q', upd_slot. cbn. rewrite list_lookup_alter_ne; [done|].
    intros ->. rewrite Hi in Hj. injection Hj as ->. destruct Hc as [E1 _], Hck as [E2 _].
    rewrite E1 in E2. apply mod8_inj in E2; lia.
Qed.

(** Queueing one more packet in a free slot. *)
Lemma slots_put i f data g :
  slots_ok a packets s q -> Z.of_nat (length packets) < s + 7 ->
  q_frames q !! i = Some f -> fi_type f = TINY_FD_QUEUE_FREE ->
  i_slot a (g f) -> fi_address (g f) = a -> slot_ns (g f) = Z.of_nat (length packets) mod 8 -> slot_payload (g f) = data ->
  slots_ok a (packets ++ [data]) s (upd_slot i g q).
Proof using Hs Hl.
  intros Hok Hroom Hi Hfree Hg Haddr Hns Hpay.
  assert (Hold : forall k f, s <= k < Z.of_nat (length packets) ->
            carries a packets k f -> carries a (packets ++ [data]) k f).
  { intros k h Hk (H1 & H2 & H3). split; [done|]. split; [done|]. rewrite lookup_app_l by lia. done. }
  assert (Hnew : carries a (packets ++ [data]) (Z.of_nat (length packets)) (g f)).
  { split; [done|]. split; [done|]. rewrite Nat2Z.id, lookup_app_r, Nat.sub_diag by lia. by rewrite Hpay. }
  assert (Hcase : forall j h, q_frames (upd_slot i g q) !! j = Some h -> i_slot a h ->
            (j = i /\ h = g f) \/ (j <> i /\ q_frames q !! j = Some h)).
  { intros j h Hj Hh. unfold upd_slot in Hj. cbn in Hj. destruct (decide (i = j)) as [<-|Hne].
    - rewrite list_lookup_alter_eq, Hi in Hj. injection Hj as <-. by left.
    - rewrite list_lookup_alter_ne in Hj by done. right. by split. }
  assert (Hdiff : forall j h, q_frames q !! j = Some h -> i_slot a h -> slot_ns h <> slot_ns (g f)).
  { intros j h Hj Hh E. destruct (sl_sound _ _ _ _ Hok j h Hj Hh) as (k & Hk & [Ek _]).
    rewrite Ek, Hns in E. apply mod8_inj in E; lia. }
  split; rewrite ?length_app; cbn [length].
  - intros j h Hj Hh. destruct (Hcase j h Hj Hh) as [[-> ->]|[Hne Hj']].
    + exists (Z.of_nat (length packets)). split; [lia|done].
    + destruct (sl_sound _ _ _ _ Hok j h Hj' Hh) as (k & Hk & Hck). exists k. split; [lia|auto].
  - intros j1 j2 h1 h2 Hj1 Hj2 H1 H2 E.
    destruct (Hcase _ _ Hj1 H1) as [[-> ->]|[? Hk1]], (Hcase _ _ Hj2 H2) as [[-> ->]|[? Hk2]]; try done.
    + by destruct (Hdiff _ _ Hk2 H2).
    + by destruct (Hdiff _ _ Hk1 H1).
    + by eapply (sl_unique _ _ _ _ Hok).
  - intros k Hk. destruct (decide (k = Z.of_nat (length packets))) as [->|Hne].
    + exists i, (g f). split_and!; try done. unfold upd_slot. cbn. by rewrite list_lookup_alter_eq, Hi.
    + destruct (sl_complete _ _ _ _ Hok k) as (j & h & Hj & Hh & Hck); [lia|].
      exists j, h. split_and!; try done; [|apply Hold; [lia|done]].
      unfold upd_slot. cbn. rewrite list_lookup_alter_ne; [done|].
      intros ->. rewrite Hi in Hj. injection Hj as ->. destruct Hh as [Hty _]. by rewrite Hfree in Hty.
Qed.

End Slots.
