(* ===== verification/FdFlow.v ===== *)
(** * The sliding window, abstractly

    One direction of a connection as an abstract machine on unbounded numbers:
    the sender has confirmed [fl_s] and queued [fl_l] packets, the receiver has
    accepted [fl_r]; [fl_data] are the numbers of the frames in flight and
    [fl_acks] the acknowledgements in flight or waiting to be sent, oldest first.
    Frames keep their order and any of them may be lost.  On the wire a number
    is only known modulo 8; the invariant shows that this loses nothing. *)

From Stdlib Require Import Sorted.
From S2P Require Import Prelude FdTypes FdIQueue.

Record flow : Type := mk_flow {
  fl_s : Z;
  fl_l : Z;
  fl_r : Z;
  fl_data : list Z;
  fl_acks : list Z
}.

#[export] Instance eta_flow : Eta flow := fun f =>
  mk_flow (fl_s f) (fl_l f) (fl_r f) (fl_data f) (fl_acks f).

Inductive flow_step : flow -> flow -> Prop :=
| FlowQueue f : fl_l f < fl_s f + 7 -> flow_step f (f <| fl_l ::= Z.succ |>)
| FlowSend f k : fl_s f <= k < fl_l f -> flow_step f (f <| fl_data ::= fun d => d ++ [k] |>)
| FlowAck f : flow_step f (f <| fl_acks ::= fun a => a ++ [fl_r f] |>)
| FlowLoseData f d d' : fl_data f = d ++ d' -> forall k, flow_step (f <| fl_data := d ++ k :: d' |>) f
| FlowLoseAck f a a' : fl_acks f = a ++ a' -> forall k, flow_step (f <| fl_acks := a ++ k :: a' |>) f
| FlowAccept f k d : fl_data f = k :: d -> k mod 8 = fl_r f mod 8 ->
    flow_step f (f <| fl_data := d |> <| fl_r ::= Z.succ |>)
| FlowReject f k d : fl_data f = k :: d -> k mod 8 <> fl_r f mod 8 ->
    flow_step f (f <| fl_data := d |>)
| FlowConfirm f a l : fl_acks f = a :: l -> flow_step f (f <| fl_acks := l |> <| fl_s := a |>).

(** ** Invariant *)

Record flow_ok (f : flow) : Prop := mk_flow_ok {
  fo_window : 0 <= fl_s f <= fl_r f /\ fl_r f <= fl_l f <= fl_s f + 7;
  fo_data : Forall (fun k => 0 <= k < fl_l f /\ k <= fl_r f + 6 /\ fl_r f <= k + 7) (fl_data f);
  fo_order : StronglySorted (fun j k => j <= k + 6) (fl_data f);
  fo_acks : Forall (fun a => fl_s f <= a <= fl_r f) (fl_acks f);
  fo_monotone : StronglySorted Z.le (fl_acks f)
}.

Lemma sorted_snoc {A} (R : A -> A -> Prop) l x :
  StronglySorted R l -> Forall (fun y => R y x) l -> StronglySorted R (l ++ [x]).
Proof.
  induction 1 as [|y l Hs IH Hy]; intros Hx; cbn; [by repeat constructor|].
  apply Forall_cons in Hx as [Hyx Hx]. constructor; [auto|]. apply Forall_app. auto.
Qed.

Lemma sorted_remove {A} (R : A -> A -> Prop) l k l' :
  StronglySorted R (l ++ k :: l') -> StronglySorted R (l ++ l').
Proof.
  induction l as [|y l IH]; cbn; intros Hs; apply StronglySorted_inv in Hs as [Hs Hy]; [done|].
  constructor; [auto|]. apply Forall_app in Hy as [H1 H2]. apply Forall_cons in H2 as [_ H2].
  by apply Forall_app.
Qed.

Lemma Forall_remove {A} (P : A -> Prop) l k l' : Forall P (l ++ k :: l') -> Forall P (l ++ l').
Proof. rewrite !Forall_app, Forall_cons. tauto. Qed.

(** The number on the wire decides. *)
Lemma flow_exact f k d :
  flow_ok f -> fl_data f = k :: d -> k mod 8 = fl_r f mod 8 -> k = fl_r f.
Proof.
  intros [] Hd Hk. rewrite Hd in fo_data0. apply Forall_cons in fo_data0 as [H _].
  apply mod8_inj; [done|]. lia.
Qed.

Lemma flow_step_ok f f' : flow_ok f -> flow_step f f' -> flow_ok f'.
Proof.
  intros Hok Hs. destruct Hs as [f Hl|f k Hk|f|f d d' Hd k|f a a' Ha k|f k d Hd Hk|f k d Hd Hk|f a l Ha].
  - destruct Hok. split; cbn; try done; [lia|]. eapply Forall_impl; [done|]. cbn. lia.
  - destruct Hok. split; cbn; try done.
    + apply Forall_app. split; [done|]. constructor; [|constructor]. lia.
    + apply sorted_snoc; [done|]. eapply Forall_impl; [done|]. cbn. lia.
  - destruct Hok. split; cbn; try done.
    + apply Forall_app. split; [done|]. constructor; [|constructor]. lia.
    + apply sorted_snoc; [done|]. eapply Forall_impl; [done|]. cbn. lia.
  - destruct Hok. cbn in *. split; try done; rewrite Hd;
      [by eapply Forall_remove|by eapply sorted_remove].
  - destruct Hok. cbn in *. split; try done; rewrite Ha;
      [by eapply Forall_remove|by eapply sorted_remove].
  - pose proof (flow_exact f k d Hok Hd Hk) as ->. destruct Hok. rewrite Hd in *.
    apply Forall_cons in fo_data0 as [Hkd fo_data0].
    apply StronglySorted_inv in fo_order0 as [Hso Hko]. split; cbn; try done; try lia.
    + rewrite Forall_forall in *. intros j Hj. specialize (fo_data0 j Hj). specialize (Hko j Hj). lia.
    + eapply Forall_impl; [done|]. cbn. lia.
  - destruct Hok. rewrite Hd in *. apply Forall_cons in fo_data0 as [_ ?].
    apply StronglySorted_inv in fo_order0 as [? _]. by split.
  - destruct Hok. rewrite Ha in *. apply Forall_cons in fo_acks0 as [Hb fo_acks0].
    apply StronglySorted_inv in fo_monotone0 as [Hsm Hm]. split; cbn; try done; try lia.
    rewrite Forall_forall in *. intros x Hx. specialize (Hm x Hx). specialize (fo_acks0 x Hx). lia.
Qed.

(** An acknowledgement on the wire, too, stands for one number only. *)
Lemma flow_ack_exact f a l :
  flow_ok f -> fl_acks f = a :: l -> (a mod 8 - fl_s f) mod 8 = a - fl_s f.
Proof.
  intros [] Ha. rewrite Ha in fo_acks0. apply Forall_cons in fo_acks0 as [Hb _].
  rewrite Zminus_mod_idemp_l. apply Z.mod_small. lia.
Qed.
