(* ===== verification/FdConn.v ===== *)
(** * A connected station

    [up c b h packets s r acks]: the handle of a connected station in balanced
    mode that has queued [packets], of which [s] are confirmed, has accepted [r]
    packets of the other side, and has acknowledgements with the numbers [acks]
    waiting in its service queue.  Each function of the protocol, on such a
    station, does what a step of the abstract window does. *)

From S2P Require Import Prelude FdTypes FdQueue FdPeers FdIQueue FdLog FdService FdTx FdRx Fd FdApi.
From S2P Require Import FdInv FdSafe FdFifo FdSlots.

(** ** The application *)

(** It records the packets it receives and those reported as sent. *)
Record app : Type := mk_app {
  received : list (list Z);
  confirmed : list (list Z)
}.

#[export] Instance eta_app : Eta app := fun a => mk_app (received a) (confirmed a).

Definition app_receive (d : list Z) (u : app) : app := u <| received ::= fun l => l ++ [d] |>.
Definition app_confirm (d : list Z) (u : app) : app := u <| confirmed ::= fun l => l ++ [d] |>.

Definition app_callbacks : fd_callbacks app :=
  mk_fd_callbacks app (Some (fun w _ d => w <| user ::= app_receive d |>))
    (Some (fun w _ d => w <| user ::= app_confirm d |>)) None None None.

#[export] Instance app_callbacks_ok c : CallbacksOk c app_callbacks.
Proof. split; cbn; intros; simplify_eq; done. Qed.

(** ** The relation *)

(** A station in balanced mode with its only peer. *)
Record balanced (c : fd_config) : Prop := mk_balanced {
  ba_mode : c_mode c = TINY_FD_MODE_ABM;
  ba_peers : c_peers c = 1;
  ba_addr : clear_bits HDLC_CR_BIT (c_addr c) = c_addr c;
  ba_ext : nz (Z.land (c_addr c) HDLC_E_BIT) = true;
  ba_byte : fits 8 (c_addr c)
}.

(** A control byte of an S-frame RR or REJ with the number [a]. *)
Definition ack_control (a control : Z) : Prop :=
  Z.land control HDLC_S_FRAME_MASK = HDLC_S_FRAME_BITS /\ Z.shiftr control 5 = a mod 8 /\
  (Z.land control HDLC_S_FRAME_TYPE_MASK = HDLC_S_FRAME_TYPE_RR \/
   Z.land control HDLC_S_FRAME_TYPE_MASK = HDLC_S_FRAME_TYPE_REJ).

(** A slot of the service queue with an acknowledgement: the address of its
    header and its number. *)
Definition ack_slot (c : fd_config) (a : Z * Z) (f : tiny_fd_frame_info_t) : Prop :=
  fi_type f = TINY_FD_QUEUE_S_FRAME /\ fi_len f = 0 /\ fi_addr f = fst a /\
  clear_bits HDLC_CR_BIT (fi_address f) = c_addr c /\ ack_control (snd a) (fi_control f).

Record up (c : fd_config) (b : bool) (h : tiny_fd_data_t) (packets : list (list Z)) (s r : Z)
  (acks : list (Z * Z)) : Prop := mk_up {
  up_wf : fd_wf c b h;
  up_state : pi_state (peer_at h 0) = TINY_FD_STATE_CONNECTED;
  up_addr : pi_addr (peer_at h 0) = c_addr c;
  up_srej : pi_srej_req_mask (peer_at h 0) = 0;
  up_window : exists n, window s n (Z.of_nat (length packets)) r (control_at h 0);
  up_start : 0 <= s;
  up_slots : slots_ok (c_addr c) packets s (fd_i_queue h);
  up_fifo : exists busy, fifo (fd_s_queue h) busy /\ Forall2 (ack_slot c) acks busy;
  up_accept : nz (Z.land (pi_events (peer_at h 0)) FD_EVENT_CAN_ACCEPT_I_FRAMES) = true ->
              Z.of_nat (length packets) < s + 7
}.

Section Conn.

Context (c : fd_config) (Hc : balanced c).

(** Bit 0 of the station's address field. *)
Lemma ext_address address : clear_bits HDLC_CR_BIT address = c_addr c -> Z.testbit address 0 = true.
Proof using Hc.
  intros Ha. pose proof (ba_ext c Hc) as He. rewrite <- Ha in He. revert He. unfold clear_bits.
  rewrite <- Z.land_assoc. change (Z.land (Z.lxor HDLC_CR_BIT 0xFF) HDLC_E_BIT) with (Z.ones 1).
  rewrite Z.land_ones by done. change (2 ^ 1) with 2. rewrite <- Z.bit0_mod. by destruct (Z.testbit address 0).
Qed.

Lemma up_peers b h packets s r acks : up c b h packets s r acks -> (0 < length (fd_peers h))%nat.
Proof using Hc. intros []. destruct up_wf0, Hc. lia. Qed.

Lemma peer_at_upd f h :
  (0 < length (fd_peers h))%nat -> peer_at (upd_peer 0 f h) 0 = f (peer_at h 0).
Proof using Type.
  intros Hp. unfold peer_at, upd_peer. cbn. by destruct (fd_peers h) as [|p l]; [cbn in Hp; lia|].
Qed.

(** The address field of the peer. *)
Lemma up_address b h packets s r acks :
  up c b h packets s r acks -> __peer_to_address_field h 0 = c_addr c.
Proof using Hc. intros []. unfold __peer_to_address_field. rewrite up_addr0. apply Hc. Qed.

Lemma up_bounds b h packets s r acks :
  up c b h packets s r acks -> s <= Z.of_nat (length packets) <= s + 7.
Proof using Type. intros []. by destruct up_window0 as (n & []). Qed.

(** *** Changes that matter to nothing here *)

(** Assignments to the times and counters of the peer. *)
Lemma up_upd_peer b h packets s r acks f :
  up c b h packets s r acks ->
  (forall p, pi_state (f p) = pi_state p /\ pi_addr (f p) = pi_addr p /\
     pi_srej_req_mask (f p) = pi_srej_req_mask p /\
     pi_i_queue_control (f p) = pi_i_queue_control p) ->
  (nz (Z.land (pi_events (f (peer_at h 0))) FD_EVENT_CAN_ACCEPT_I_FRAMES) = true ->
     Z.of_nat (length packets) < s + 7) ->
  (peer_ok (peer_at h 0) -> peer_ok (f (peer_at h 0))) ->
  up c b (upd_peer 0 f h) packets s r acks.
Proof using Hc.
  intros Hu Hf He Hok. pose proof (up_peers _ _ _ _ _ _ Hu) as Hp. destruct Hu.
  destruct (Hf (peer_at h 0)) as (H1 & H2 & H3 & H4).
  split; rewrite ?peer_at_upd by done; try done; try congruence.
  - by apply fd_wf_upd_peer_at.
  - unfold control_at. rewrite peer_at_upd by done. by rewrite H4.
Qed.

Lemma up_handle b h h' packets s r acks :
  up c b h packets s r acks -> fd_wf c b h' -> fd_peers h' = fd_peers h ->
  fd_i_queue h' = fd_i_queue h -> fd_s_queue h' = fd_s_queue h -> up c b h' packets s r acks.
Proof using Type.
  intros [] Hwf Hp Hi Hs.
  assert (peer_at h' 0 = peer_at h 0) as E by (unfold peer_at; by rewrite Hp).
  split; unfold control_at; rewrite ?E, ?Hi, ?Hs; done.
Qed.

Lemma up_events_set b h packets s r acks bits :
  up c b h packets s r acks -> up c b (fd_events_set bits h) packets s r acks.
Proof using Type. intros Hu. eapply up_handle; try done. by apply fd_wf_events_set; destruct Hu. Qed.

Lemma up_events_clear b h packets s r acks bits :
  up c b h packets s r acks -> up c b (fd_events_clear bits h) packets s r acks.
Proof using Type. intros Hu. eapply up_handle; try done. by apply fd_wf_events_clear; destruct Hu. Qed.

Lemma up_lock h packets s r acks :
  up c false h packets s r acks -> up c true (tiny_mutex_lock h) packets s r acks.
Proof using Type.
  intros Hu. destruct Hu. pose proof (fd_wf_lock c h up_wf0) as Hl.
  revert Hl. unfold tiny_mutex_lock. rewrite (wf_mutex _ _ _ up_wf0). intros Hl. by split.
Qed.

Lemma up_unlock h packets s r acks :
  up c true h packets s r acks -> up c false (tiny_mutex_unlock h) packets s r acks.
Proof using Type.
  intros Hu. destruct Hu. pose proof (fd_wf_unlock c h up_wf0) as Hl.
  revert Hl. unfold tiny_mutex_unlock. rewrite (wf_mutex _ _ _ up_wf0). intros Hl. by split.
Qed.

(** A callback that only changes the application's data. *)
Lemma unlocked_user (cb : fd_world app -> fd_world app) (g : app -> app) (w : fd_world app) :
  fd_wf c true (handle w) ->
  (forall w', fd_i_queue (handle w') = fd_i_queue (handle w) -> cb w' = w' <| user ::= g |>) ->
  unlocked cb w = w <| user ::= g |>.
Proof using Type.
  intros Hw Hcb. pose proof (wf_mutex _ _ _ Hw) as Hm. unfold unlocked, on_handle. rewrite Hcb.
  - destruct w as [h n u]. cbn in Hm. cbn. unfold fupd. cbn. f_equal.
    unfold tiny_mutex_unlock, tiny_mutex_lock. rewrite Hm. cbn. destruct h. cbn in *. by subst.
  - cbn. unfold tiny_mutex_unlock. by destruct (fd_mutex (handle w)).
Qed.

(** *** Queueing an acknowledgement *)

Lemma s_control_ack type p r :
  type = HDLC_S_FRAME_TYPE_RR \/ type = HDLC_S_FRAME_TYPE_REJ -> p = 0 \/ p = HDLC_P_BIT ->
  ack_control r (s_control (Z.lor type p) (r mod 8)).
Proof using Type.
  intros Ht Hp. pose proof (Z.mod_pos_bound r 8 ltac:(lia)) as Hr. unfold ack_control.
  set (n := r mod 8) in *. clearbody n.
  assert (n = 0 \/ n = 1 \/ n = 2 \/ n = 3 \/ n = 4 \/ n = 5 \/ n = 6 \/ n = 7) as Hn by lia.
  destruct Ht as [->| ->], Hp as [->| ->], Hn as [->|[->|[->|[->|[->|[->|[->| ->]]]]]]];
    vm_compute; auto.
Qed.

Lemma up_put_ack b h packets s r acks address type p :
  up c b h packets s r acks ->
  type = HDLC_S_FRAME_TYPE_RR \/ type = HDLC_S_FRAME_TYPE_REJ -> p = 0 \/ p = HDLC_P_BIT ->
  address = c_addr c \/ address = Z.lor (c_addr c) HDLC_CR_BIT ->
  let h' := put_u_s TINY_FD_QUEUE_S_FRAME [address; s_control (Z.lor type p) (r mod 8)] h in
  (exists header, up c b h' packets s r (acks ++ [(header, r)])) \/ up c b h' packets s r acks.
Proof using Hc.
  intros Hu Ht Hp Ha h'. pose proof (s_control_ack type p r Ht Hp) as Hack.
  assert (Haddr : clear_bits HDLC_CR_BIT address = c_addr c /\ fits 8 address).
  { destruct Ha as [->| ->]; [split; apply Hc|]. split; [|by apply fits_lor; [|apply Hc|]].
    rewrite <- (ba_addr c Hc) at 2. unfold clear_bits. change (Z.lxor HDLC_CR_BIT 0xFF) with 0xFD.
    rewrite Z.land_lor_distr_l. change (Z.land HDLC_CR_BIT 0xFD) with 0. by rewrite Z.lor_0_r. }
  assert (Hwf : fd_wf c b h') by (apply put_s_wf; [by destruct Hu|apply Haddr|apply ext_address, Haddr]).
  destruct Hu. destruct up_fifo0 as (busy & Hfifo & Hbusy).
  pose proof (wf_s _ _ _ up_wf0) as [Hok Hmtu _ _].
  unfold h', put_u_s, __put_u_s_frame_to_tx_queue in *. cbn [nth drop] in *.
  pose proof (fifo_allocate _ _ Hok busy TINY_FD_QUEUE_S_FRAME [] address
    (s_control (Z.lor type p) (r mod 8)) Hfifo) as Hal.
  cbv zeta in Hal. rewrite Hmtu in Hal. specialize (Hal ltac:(cbn; lia) ltac:(done)).
  destruct (tiny_fd_queue_allocate (fd_s_queue h) TINY_FD_QUEUE_S_FRAME []) as [[i|] q'].
  - destruct Hal as (f & _ & Hf'). left. exists (fi_addr f). split; try done. eexists. split; [exact Hf'|].
    apply Forall2_app; [done|]. constructor; [|constructor]. by repeat split; try apply Haddr; apply Hack.
  - destruct Hal as [-> _]. right. split; try done. by exists busy.
Qed.

(** *** Acknowledged packets *)

#[local] Abbreviation confirm := (confirm_one 0 (__on_frame_confirmed app_callbacks 0)).

#[export] Instance confirmed_keeps_control :
  CallbackKeepsControl 0 (__on_frame_confirmed app_callbacks 0).
Proof using Type.
  intros nr w Hp. unfold __on_frame_confirmed.
  assert (Hpeers : forall h, fd_peers (tiny_mutex_lock h) = fd_peers h /\
                             fd_peers (tiny_mutex_unlock h) = fd_peers h).
  { intros h. unfold tiny_mutex_lock, tiny_mutex_unlock. by destruct (fd_mutex h). }
  assert (Hkeep : forall h, fd_peers h = fd_peers (handle w) ->
            length (fd_peers (upd_peer 0 (fun p => p <| pi_retries := fd_retries h |>) h)) =
              length (fd_peers (handle w)) /\
            control_at (upd_peer 0 (fun p => p <| pi_retries := fd_retries h |>) h) 0 =
              control_at (handle w) 0).
  { intros h Hh. split; [cbn; by rewrite length_alter, Hh|].
    unfold control_at. rewrite peer_at_upd by (rewrite Hh; lia). unfold peer_at. by rewrite Hh. }
  destruct (tiny_fd_queue_get_next _ _ _ nr) as [i|]; cbn [snd on_send_cb app_callbacks].
  - set (w1 := unlocked _ w).
    assert (Hw1 : fd_peers (handle w1) = fd_peers (handle w)).
    { unfold w1, unlocked, on_handle. cbn. by rewrite (proj1 (Hpeers _)), (proj2 (Hpeers _)). }
    destruct (tiny_fd_queue_has_free_slots _); apply Hkeep; exact Hw1.
  - by apply Hkeep.
Qed.

Lemma confirm_up w packets s r acks :
  up c true (handle w) packets s r acks -> s < Z.of_nat (length packets) ->
  exists d, packets !! Z.to_nat s = Some d /\
    user (confirm w) = app_confirm d (user w) /\
    up c true (handle (confirm w)) packets (s + 1) r acks.
Proof using Hc.
  intros Hu Hs. pose proof (up_peers _ _ _ _ _ _ Hu) as Hp. pose proof (up_bounds _ _ _ _ _ _ Hu) as Hb.
  pose proof (up_address _ _ _ _ _ _ Hu) as Ha.
  pose proof (up_slots _ _ _ _ _ _ _ Hu) as Hsl. pose proof (up_start _ _ _ _ _ _ _ Hu) as H0.
  pose proof (up_wf _ _ _ _ _ _ _ Hu) as Hwf. pose proof (qw_ok _ _ _ _ _ (wf_i _ _ _ Hwf)) as Hq.
  destruct (slots_find (c_addr c) packets s _ Hq Hb s Hsl ltac:(lia)) as (i & f & Hget & Hi & Hf & Hcar).
  pose proof (slots_free (c_addr c) packets s _ Hq H0 Hb i f Hsl Hi Hf Hcar) as Hfree.
  exists (slot_payload f). split; [apply Hcar|].
  assert (Hcn : confirm_ns (control_at (handle w) 0) = s mod 8).
  { destruct (up_window _ _ _ _ _ _ _ Hu) as (n & []). done. }
  pose proof (on_frame_confirmed_wf app_callbacks c 0 (s mod 8) w Hwf) as Hwf1.
  unfold confirm_one. rewrite Hcn. revert Hwf1. unfold __on_frame_confirmed.
  rewrite Ha, Hget. cbn [on_send_cb app_callbacks].
  rewrite (unlocked_user _ (app_confirm (slot_payload f)) w Hwf)
    by (intros w' ->; by rewrite (slot_at_lookup _ _ _ Hi)).
  set (w1 := w <| user ::= app_confirm (slot_payload f) |>).
  set (w2 := on_handle (fun h => h <| fd_i_queue ::= fun q => tiny_fd_queue_free q i |>) w1).
  set (w3 := if tiny_fd_queue_has_free_slots (fd_i_queue (handle w2)) then _ else w2).
  assert (Hw3 : user w3 = app_confirm (slot_payload f) (user w) /\
            fd_peers (handle w3) = fd_peers (handle w) /\
            fd_i_queue (handle w3) = tiny_fd_queue_free (fd_i_queue (handle w)) i /\
            fd_s_queue (handle w3) = fd_s_queue (handle w)).
  { unfold w3. by destruct (tiny_fd_queue_has_free_slots _). }
  destruct Hw3 as (Hu3 & Hp3 & Hi3 & Hs3). cbn [snd]. intros Hwf1. split; [exact Hu3|].
  set (h4 := handle (on_handle (upd_peer 0 _) w3)) in *.
  assert (Hp4 : (0 < length (fd_peers h4))%nat).
  { unfold h4. cbn. rewrite length_alter, Hp3. lia. }
  assert (Hat4 : peer_at h4 0 = (peer_at (handle w) 0) <| pi_retries := fd_retries (handle w3) |>).
  { unfold h4, on_handle. change (handle (w3 <| handle ::= ?f |>)) with (f (handle w3)).
    rewrite peer_at_upd by (rewrite Hp3; lia). unfold peer_at. by rewrite Hp3. }
  change (handle ((on_handle _ w3) <| handle ::= ?f |>)) with (f h4).
  assert (Hat : peer_at (upd_control 0 (fun k => k <| confirm_ns := seq_succ (confirm_ns k) |>) h4) 0 =
            (peer_at h4 0) <| pi_i_queue_control ::= fun k => k <| confirm_ns := seq_succ (confirm_ns k) |> |>).
  { unfold upd_control. by rewrite peer_at_upd. }
  destruct Hu. split; unfold control_at; rewrite ?Hat, ?Hat4; cbn; try done.
  - apply fd_wf_upd_control; [done|]. intros k []. split; cbn; auto with tiny.
  - destruct up_window0 as (n & Hwin). exists n. apply window_confirm; [exact Hwin|lia].
  - lia.
  - by rewrite Hi3.
  - by rewrite Hs3.
  - intros He. specialize (up_accept0 He). lia.
Qed.

Lemma confirm_iter_up k w packets s r acks :
  up c true (handle w) packets s r acks -> s + Z.of_nat k <= Z.of_nat (length packets) ->
  user (Nat.iter k confirm w) =
    (user w) <| confirmed ::= fun l => l ++ take k (drop (Z.to_nat s) packets) |> /\
  up c true (handle (Nat.iter k confirm w)) packets (s + Z.of_nat k) r acks.
Proof using Hc.
  revert w s. induction k as [|k IH]; intros w s Hu Hk.
  { cbn. rewrite Z.add_0_r, take_0. unfold fupd. cbn. rewrite app_nil_r. by destruct (user w). }
  rewrite Nat.iter_succ_r.
  destruct (confirm_up w packets s r acks Hu ltac:(lia)) as (d & Hd & Hus & Hu').
  pose proof (up_start _ _ _ _ _ _ _ Hu) as H0.
  destruct (IH (confirm w) (s + 1) Hu' ltac:(lia)) as [IH1 IH2]. split.
  - rewrite IH1, Hus. unfold app_confirm, fupd. cbn. rewrite <- app_assoc. do 2 f_equal.
    rewrite (drop_S packets d (Z.to_nat s) Hd). cbn. f_equal. f_equal. f_equal. lia.
  - by replace (s + Z.of_nat (S k)) with (s + 1 + Z.of_nat k) by lia.
Qed.

(** An acknowledgement of the packets before number [a]. *)
Lemma confirm_sent_up w packets s r acks a :
  up c true (handle w) packets s r acks -> s <= a <= Z.of_nat (length packets) -> a <= s + 7 ->
  let w' := __confirm_sent_frames app_callbacks 0 (a mod 8) w in
  up c true (handle w') packets a r acks /\
  user w' = (user w) <| confirmed ::= fun l => l ++ take (Z.to_nat (a - s)) (drop (Z.to_nat s) packets) |>.
Proof using Hc.
  intros Hu Ha Ha7 w'. destruct (up_window _ _ _ _ _ _ _ Hu) as (n & Hw).
  pose proof (up_peers _ _ _ _ _ _ Hu) as Hp.
  destruct (confirm_loop_spec 0 (__on_frame_confirmed app_callbacks 0) 9 (a mod 8) w s n
              (Z.of_nat (length packets)) r)
    as [Hrun Hw']; [cbn; lia|exact Hw|destruct Hw; lia|by apply Z.mod_pos_bound|].
  assert (Hmod : s + (a mod 8 - s) mod 8 = a).
  { rewrite Zminus_mod_idemp_l. rewrite Z.mod_small by lia. lia. }
  rewrite Hmod, (proj2 (Z.leb_le _ _)) in Hrun, Hw' by lia.
  destruct (confirm_iter_up (Z.to_nat (a - s)) w packets s r acks Hu ltac:(lia)) as [Hus Hu'].
  rewrite Z2Nat.id in Hu' by lia. replace (s + (a - s)) with a in Hu' by lia.
  unfold w', __confirm_sent_frames, __i_queue_control_confirm_sent_frames. rewrite Hrun.
  set (w1 := Nat.iter _ confirm w) in *. rewrite (window_tx_full a n _ r _ Hw').
  destruct (Z.eqb_spec (Z.of_nat (length packets)) (a + 7)) as [E|E]; cbn [negb]; [done|].
  split; [|done]. unfold on_handle. cbn. apply up_upd_peer; [done|done| |by intros []].
  intros _. destruct Hw'. lia.
Qed.

End Conn.
