(* ===== verification/FdMoves.v ===== *)
(** * Queueing and receiving on a connected station

    Queueing a packet and receiving an I-frame or an acknowledgement: each
    changes the numbers of [up] as steps of the abstract window do. *)

From S2P Require Import Prelude Crc HdlcLL HdlcSpec HdlcRx FdTypes FdQueue FdPeers FdIQueue FdLog.
From S2P Require Import FdService FdTx FdRx Fd FdApi FdInv FdSafe FdFifo FdSlots FdConn.

Section Moves.

Context (c : fd_config) (Hc : balanced c).
Context (millis : nat -> Z) (others : Z -> fd_world app -> fd_world app).

#[local] Abbreviation cbs := app_callbacks.

(** ** Queueing a packet *)

Lemma nz_land x y : nz (Z.land x y) = true -> nz x = true.
Proof using Type.
  unfold nz. destruct (Z.eqb_spec x 0) as [->|]; [|done]. by rewrite Z.land_0_l.
Qed.

Lemma wait_now {US} (oth : Z -> fd_world US -> fd_world US) get put bits clear w :
  tiny_events_wait oth get put bits clear 0 w = tiny_events_poll get put bits clear w.
Proof using Type.
  unfold tiny_events_wait. destruct (tiny_events_poll get put bits clear w) as [v w1] eqn:E.
  destruct (nz v) eqn:Ev; [done|]. revert E. unfold tiny_events_poll.
  destruct (nz (Z.land (get (handle w)) bits)) eqn:Eb; [|done]. intros [= <- _].
  by rewrite (nz_land _ _ Eb) in Ev.
Qed.

Lemma accept_cleared v :
  nz (Z.land (events_clear FD_EVENT_CAN_ACCEPT_I_FRAMES v) FD_EVENT_CAN_ACCEPT_I_FRAMES) = false.
Proof using Type.
  unfold events_clear. rewrite <- Z.land_assoc.
  change (Z.land (Z.lxor FD_EVENT_CAN_ACCEPT_I_FRAMES EVENT_BITS_ALL) FD_EVENT_CAN_ACCEPT_I_FRAMES) with 0.
  by rewrite Z.land_0_r.
Qed.

(** Putting the packet in the queue, the event having been consumed. *)
Lemma put_i_up h packets s r acks data :
  up c true h packets s r acks -> Z.of_nat (length packets) < s + 7 -> bytes data ->
  nz (Z.land (pi_events (peer_at h 0)) FD_EVENT_CAN_ACCEPT_I_FRAMES) = false ->
  let '(put, h') := __put_i_frame_to_tx_queue h 0 data in
  up c true h' (if put : bool then packets ++ [data] else packets) s r acks.
Proof using Hc.
  intros Hu Hl Hd He. pose proof (put_i_frame_wf c true h 0 data (up_wf _ _ _ _ _ _ _ Hu) Hd) as Hwf.
  pose proof (up_peers c Hc _ _ _ _ _ _ Hu) as Hp.
  pose proof (up_address c Hc _ _ _ _ _ _ Hu) as Haddr.
  pose proof (up_bounds _ _ _ _ _ _ _ Hu) as Hb. pose proof (up_start _ _ _ _ _ _ _ Hu) as H0.
  pose proof (wf_i _ _ _ (up_wf _ _ _ _ _ _ _ Hu)) as Hqw. pose proof (qw_ok _ _ _ _ _ Hqw) as Hq.
  revert Hwf. unfold __put_i_frame_to_tx_queue.
  pose proof (allocate_spec TINY_FD_QUEUE_I_FRAME (fd_i_queue h) TINY_FD_QUEUE_I_FRAME data Hq) as Hal.
  destruct (tiny_fd_queue_allocate _ _ data) as [[i|] q]; cbn [snd].
  - destruct Hal as (Hlen & f & Hf & Hfree & ->). rewrite upd_slot_compose. intros Hwf.
    set (g := _ ∘ _) in *. set (h1 := h <| fd_i_queue := _ |>) in *.
    assert (Hat : peer_at (fd_events_set FD_EVENT_TX_DATA_AVAILABLE
              (upd_control 0 (fun k => k <| last_ns := seq_succ (last_ns k) |>) h1)) 0 =
              (peer_at h 0) <| pi_i_queue_control ::= fun k => k <| last_ns := seq_succ (last_ns k) |> |>).
    { change (peer_at (fd_events_set _ ?x) 0) with (peer_at x 0). unfold upd_control.
      rewrite peer_at_upd by done. done. }
    destruct (up_window _ _ _ _ _ _ _ Hu) as (n & Hw).
    destruct Hu. split; unfold control_at; rewrite ?Hat; cbn; try done.
    + exists n. rewrite length_app, Nat2Z.inj_add. cbn. by apply window_queue.
    + apply (slots_put (c_addr c) packets s (fd_i_queue h) H0 Hb i f data g); try done.
      * unfold g, i_slot. cbn. rewrite Haddr. split; [done|].
        unfold same_address. apply Z.eqb_refl.
      * unfold g, slot_ns. cbn. rewrite (win_last _ _ _ _ _ Hw).
        set (k := Z.of_nat (length packets) mod 8).
        assert (0 <= k < 8) as Hk by by apply Z.mod_pos_bound. clearbody k.
        assert (k = 0 \/ k = 1 \/ k = 2 \/ k = 3 \/ k = 4 \/ k = 5 \/ k = 6 \/ k = 7) as Hk8 by lia.
        by destruct Hk8 as [->|[->|[->|[->|[->|[->|[->| ->]]]]]]].
      * unfold g, slot_payload. cbn. rewrite Nat2Z.id. apply copy_payload_take.
    + rewrite He. done.
  - destruct Hal as [-> _]. intros Hwf. by eapply up_handle.
Qed.

Lemma send_up w packets s r acks address data res w' :
  up c false (handle w) packets s r acks -> bytes data ->
  tiny_fd_send_packet_to millis others address data 0 w = (res, w') ->
  user w' = user w /\
  (res = TINY_SUCCESS /\ Z.of_nat (length packets) < s + 7 /\
     up c false (handle w') (packets ++ [data]) s r acks \/
   res <> TINY_SUCCESS /\ up c false (handle w') packets s r acks).
Proof using Hc.
  intros Hu Hd. unfold tiny_fd_send_packet_to. cbv zeta. cbn [tiny_millis].
  destruct (Z.eqb_spec (destination (handle w) address) HDLC_INVALID_PEER_INDEX) as [|Hdest].
  { intros [= <- <-]. split; [done|]. by right. }
  assert (destination (handle w) address = 0) as ->.
  { revert Hdest. unfold destination, __address_field_to_peer.
    rewrite (wf_mode _ _ _ (up_wf _ _ _ _ _ _ _ Hu)), (ba_mode c Hc), orb_true_r.
    by repeat case_match. }
  destruct (_ <? _).
  { intros [= <- <-]. split; [done|]. by right. }
  unfold peer_events_wait, fd_events_wait. rewrite wait_now.
  set (w0 := w <| clock ::= S |>). unfold tiny_events_poll at 1.
  change (handle w0) with (handle w).
  destruct (nz (Z.land (pi_events (peer_at (handle w) 0)) FD_EVENT_CAN_ACCEPT_I_FRAMES)) eqn:Hacc;
    [|intros [= <- <-]; split; [done|by right]].
  rewrite (nz_land _ _ Hacc).
  change (nz EVENT_BITS_CLEAR) with true. cbv iota.
  set (w1 := w0 <| handle ::= _ |>).
  pose proof (up_accept _ _ _ _ _ _ _ Hu Hacc) as Hroom.
  pose proof (up_peers c Hc _ _ _ _ _ _ Hu) as Hp.
  assert (Hu1 : up c false (handle w1) packets s r acks).
  { unfold w1, w0. cbn. apply (up_upd_peer c Hc); [done|done| |by intros []]. done. }
  assert (He1 : nz (Z.land (pi_events (peer_at (handle w1) 0)) FD_EVENT_CAN_ACCEPT_I_FRAMES) = false).
  { unfold w1, w0. change (handle (?x <| handle ::= ?f |>)) with (f (handle x)).
    rewrite peer_at_upd by done. apply accept_cleared. }
  assert (Hus1 : user w1 = user w) by done.
  clearbody w1. clear w0. unfold time_since. cbn [tiny_millis].
  set (w2 := w1 <| clock ::= S |>).
  match goal with |- context [if (u32 ?x <? 0) then ?y else 0] =>
    assert (Hnow : (if (u32 x <? 0) then y else 0) = 0) by
      (pose proof (fits_u32 x) as Hx; unfold fits in Hx; by rewrite (proj2 (Z.ltb_ge _ _)) by lia)
  end.
  rewrite Hnow, wait_now. unfold tiny_events_poll.
  change (handle w2) with (handle w1). change (fd_events (handle w2)) with (fd_events (handle w1)).
  destruct (nz (Z.land (fd_events (handle w1)) FD_EVENT_QUEUE_HAS_FREE_SLOTS)) eqn:Hfree.
  - rewrite (nz_land _ _ Hfree).
    change (nz EVENT_BITS_CLEAR) with true. cbv iota.
    set (wl := on_handle tiny_mutex_lock _).
    assert (Hul : user wl = user w) by (rewrite <- Hus1; done).
    assert (Hu2 : up c true (handle wl) packets s r acks).
    { unfold wl, on_handle. cbn [handle]. apply (up_lock c).
      eapply up_handle; [exact Hu1|by apply fd_wf_events; destruct Hu1|done..]. }
    assert (He2 : nz (Z.land (pi_events (peer_at (handle wl) 0)) FD_EVENT_CAN_ACCEPT_I_FRAMES) = false).
    { rewrite <- He1. unfold wl, on_handle. cbn. unfold tiny_mutex_lock. by destruct (fd_mutex _). }
    clearbody wl. pose proof (put_i_up (handle wl) packets s r acks data Hu2 Hroom Hd He2) as Hput.
    destruct (__put_i_frame_to_tx_queue (handle wl) 0 data) as [put h2].
    set (w3 := wl <| handle := h2 |>).
    assert (Hus3 : user w3 = user w) by exact Hul.
    assert (Hu3 : up c true (handle w3) (if put then packets ++ [data] else packets) s r acks) by done.
    clearbody w3.
    set (p := if put then (TINY_SUCCESS, _) else _).
    assert (Hp4 : fst p = (if put then TINY_SUCCESS else TINY_ERR_TIMEOUT) /\ user (snd p) = user w /\
              up c true (handle (snd p)) (if put then packets ++ [data] else packets) s r acks).
    { unfold p. destruct put; [|done]. destruct (tiny_fd_queue_has_free_slots _); [|done].
      split; [done|]. split; [done|]. by apply up_events_set. }
    destruct p as [res4 w4]. cbn [fst snd] in Hp4. destruct Hp4 as (-> & Hus4 & Hu4).
    set (w5 := if negb _ then _ else w4).
    assert (Hw5 : user w5 = user w /\
              up c true (handle w5) (if put then packets ++ [data] else packets) s r acks).
    { unfold w5. destruct (up_window _ _ _ _ _ _ _ Hu4) as (n & Hw).
      rewrite (window_tx_full _ _ _ _ _ Hw).
      destruct (Z.eqb_spec (Z.of_nat (length (if put then packets ++ [data] else packets))) (s + 7));
        cbn [negb]; [done|]. split; [done|]. unfold on_handle. cbn [handle].
      apply (up_upd_peer c Hc); [done|done| |by intros []]. intros _. destruct Hw. lia. }
    destruct Hw5 as [Hus5 Hu5]. intros [= <- <-]. split; [done|].
    pose proof (up_unlock c _ _ _ _ _ Hu5). destruct put; [left|right]; done.
  - change (nz 0) with false. cbv iota. intros [= <- <-]. split; [done|]. right. split; [done|].
    unfold on_handle. cbn [handle]. apply (up_upd_peer c Hc); [done|done| |by intros []]. done.
Qed.

(** ** Received frames *)

(** An I-frame with number [k], acknowledging the packets before [a]. *)
Definition i_frame (k a : Z) (payload frame : list Z) : Prop :=
  exists address control, frame = address :: control :: payload /\
    clear_bits HDLC_CR_BIT address = c_addr c /\
    Z.land control HDLC_I_FRAME_MASK = HDLC_I_FRAME_BITS /\
    Z.land (Z.shiftr control 1) 0x07 = k mod 8 /\ Z.shiftr control 5 = a mod 8.

(** An RR or REJ acknowledging the packets before [a]. *)
Definition s_frame (a : Z) (frame : list Z) : Prop :=
  exists address control, frame = [address; control] /\
    clear_bits HDLC_CR_BIT address = c_addr c /\ ack_control a control.

(** The acknowledgements [acks] and possibly one more, with number [r]. *)
Definition one_more (r : Z) (acks acks' : list (Z * Z)) : Prop :=
  acks' = acks \/ exists header, acks' = acks ++ [(header, r)].

Lemma put_ack_up b h packets s r acks address type p :
  up c b h packets s r acks ->
  type = HDLC_S_FRAME_TYPE_RR \/ type = HDLC_S_FRAME_TYPE_REJ -> p = 0 \/ p = HDLC_P_BIT ->
  address = c_addr c \/ address = Z.lor (c_addr c) HDLC_CR_BIT ->
  exists acks', one_more r acks acks' /\
    up c b (put_u_s TINY_FD_QUEUE_S_FRAME [address; s_control (Z.lor type p) (r mod 8)] h)
      packets s r acks'.
Proof using Hc.
  intros Hu Ht Hp Ha.
  destruct (up_put_ack c Hc b h packets s r acks address type p Hu Ht Hp Ha) as [(hd & H)|H].
  - exists (acks ++ [(hd, r)]). split; [right; by exists hd|done].
  - exists acks. split; [by left|done].
Qed.

Lemma check_received_up h packets s r acks k :
  up c true h packets s r acks ->
  let '(res, h') := __check_received_frame 0 (k mod 8) h in
  if k mod 8 =? r mod 8 then res = TINY_SUCCESS /\ up c true h' packets s (r + 1) acks
  else res = TINY_ERR_FAILED /\ exists acks', one_more r acks acks' /\ up c true h' packets s r acks'.
Proof using Hc.
  intros Hu. unfold __check_received_frame, __i_queue_control_get_next_frame_to_receive.
  destruct (up_window _ _ _ _ _ _ _ Hu) as (n & Hw). rewrite (win_recv _ _ _ _ _ Hw).
  pose proof (up_peers c Hc _ _ _ _ _ _ Hu) as Hp.
  destruct (k mod 8 =? r mod 8).
  - split; [done|]. apply (up_upd_peer c Hc); [|done| |by intros []].
    + pose proof Hu as Hu0. destruct Hu.
      assert (Hat : peer_at (upd_control 0 __i_queue_control_move_to_next_frame_to_receive h) 0 =
        (peer_at h 0) <| pi_i_queue_control ::= __i_queue_control_move_to_next_frame_to_receive |>).
      { unfold upd_control. by rewrite peer_at_upd. }
      split; unfold control_at; rewrite ?Hat; try done.
      * apply fd_wf_upd_control; [done|]. intros q []. split; cbn; auto with tiny.
      * exists n. by apply window_receive.
    + unfold upd_control. rewrite peer_at_upd by done. by apply Hu.
  - destruct (negb _); [|split; [done|]; exists acks; split; [by left|done]]. split; [done|].
    rewrite (up_address c Hc _ _ _ _ _ _ Hu).
    change (s_control HDLC_S_FRAME_TYPE_REJ ?x) with (s_control (Z.lor HDLC_S_FRAME_TYPE_REJ 0) x).
    apply put_ack_up; auto. apply (up_upd_peer c Hc); [done|done| |by intros []]. by apply Hu.
Qed.

Lemma confirm_with_rr_up h packets s r acks :
  up c true h packets s r acks ->
  exists acks', one_more r acks acks' /\ up c true (confirm_with_rr 0 h) packets s r acks'.
Proof using Hc.
  intros Hu. unfold confirm_with_rr, __i_queue_control_get_next_frame_to_receive.
  destruct (up_window _ _ _ _ _ _ _ Hu) as (n & Hw). rewrite (win_recv _ _ _ _ _ Hw).
  destruct (_ && _); [|exists acks; split; [by left|done]].
  rewrite (up_address c Hc _ _ _ _ _ _ Hu).
  change (s_control HDLC_S_FRAME_TYPE_RR ?x) with (s_control (Z.lor HDLC_S_FRAME_TYPE_RR 0) x).
  apply put_ack_up; auto.
Qed.

(** What the application is told: packets acknowledged, packets received. *)
Definition told (acked : list (list Z)) (got : option (list Z)) (u : app) : app :=
  let u := u <| confirmed ::= fun l => l ++ acked |> in
  match got with Some d => app_receive d u | None => u end.

(** The packets from number [s] to before [a]. *)
Definition between (s a : Z) (packets : list (list Z)) : list (list Z) :=
  take (Z.to_nat (a - s)) (drop (Z.to_nat s) packets).

Lemma i_frame_read_up w packets s r acks k a payload frame :
  up c true (handle w) packets s r acks -> i_frame k a payload frame ->
  s <= a <= Z.of_nat (length packets) -> a <= s + 7 ->
  let w' := snd (__on_i_frame_read cbs 0 frame w) in
  let accepted := k mod 8 =? r mod 8 in
  let r' := if accepted then r + 1 else r in
  user w' = told (between s a packets) (if accepted then Some payload else None) (user w) /\
  exists acks', one_more r' acks acks' /\ up c true (handle w') packets a r' acks'.
Proof using Hc.
  intros Hu (address & control & -> & Haddr & _ & Hns & Hnr) Ha Ha7. cbv zeta.
  unfold __on_i_frame_read, frame_control. cbn [nth]. rewrite Hns, Hnr.
  pose proof (check_received_up (handle w) packets s r acks k Hu) as Hchk.
  destruct (__check_received_frame 0 (k mod 8) (handle w)) as [res h].
  destruct (k mod 8 =? r mod 8).
  - destruct Hchk as [-> Hu1].
    set (w1 := w <| handle := h |>).
    destruct (confirm_sent_up c Hc w1 packets s (r + 1) acks a Hu1 Ha Ha7) as [Hu2 Hus2].
    set (w2 := __confirm_sent_frames cbs 0 (a mod 8) w1) in *.
    change (TINY_SUCCESS =? TINY_SUCCESS) with true. cbv iota. cbn [on_read_cb cbs snd].
    rewrite (unlocked_user c _ (app_receive payload) w2 (up_wf _ _ _ _ _ _ _ Hu2)) by done.
    destruct (confirm_with_rr_up (handle w2) packets a (r + 1) acks Hu2) as (acks' & Hm & Hu3).
    split; [|by exists acks']. cbn. by rewrite Hus2.
  - destruct Hchk as [-> (acks' & Hm & Hu1)].
    set (w1 := w <| handle := h |>).
    destruct (confirm_sent_up c Hc w1 packets s r acks' a Hu1 Ha Ha7) as [Hu2 Hus2].
    set (w2 := __confirm_sent_frames cbs 0 (a mod 8) w1) in *.
    change (TINY_ERR_FAILED =? TINY_SUCCESS) with false. cbv iota. cbn [snd].
    split; [by rewrite Hus2|]. by exists acks'.
Qed.

(** Going back to the first unconfirmed frame. *)
Lemma resend_loop_up fuel h packets s r acks control n :
  up c true h packets s r acks -> window s n (Z.of_nat (length packets)) r (control_at h 0) ->
  (n - s) mod 8 < Z.of_nat fuel ->
  exists h', resend_loop fuel 0 control (s mod 8) h = Some h' /\ up c true h' packets s r acks.
Proof using Hc.
  revert h n. induction fuel as [|fuel IH]; intros h n Hu Hw Hf.
  { pose proof (Z.mod_pos_bound (n - s) 8). lia. }
  cbn [resend_loop]. unfold __i_queue_control_get_next_frame_to_send, __i_queue_control_get_next_frame_to_confirm.
  rewrite (win_next _ _ _ _ _ Hw), (win_confirm _ _ _ _ _ Hw).
  destruct (Z.eqb_spec (n mod 8) (s mod 8)) as [E|E]; cbn [negb]; [by eauto|].
  rewrite (proj2 (Z.eqb_neq (s mod 8) (n mod 8))) by congruence.
  pose proof (up_peers c Hc _ _ _ _ _ _ Hu) as Hp.
  apply (IH _ (n - 1)).
  - assert (Hat : peer_at (upd_control 0 __i_queue_control_move_to_previous_ns h) 0 =
      (peer_at h 0) <| pi_i_queue_control ::= __i_queue_control_move_to_previous_ns |>).
    { unfold upd_control. by rewrite peer_at_upd. }
    destruct Hu. split; unfold control_at; rewrite ?Hat; try done.
    + apply fd_wf_upd_control; [done|]. intros q []. split; cbn; auto with tiny.
    + exists (n - 1). by apply window_move_previous.
  - rewrite control_at_upd by done. by apply window_move_previous.
  - assert (Hne : (n - s) mod 8 <> 0).
    { intros E0. apply E. apply Z.mod_divide in E0 as [q Hq]; [|done].
      replace n with (s + q * 8) by lia. by rewrite Z.mod_add. }
    replace (n - 1 - s) with (n - s - 1) by lia.
    rewrite <- (Zminus_mod_idemp_l (n - s) 1 8).
    pose proof (Z.mod_pos_bound (n - s) 8 ltac:(lia)). rewrite Z.mod_small by lia. lia.
Qed.

Lemma resend_up h packets s r acks control :
  up c true h packets s r acks ->
  up c true (__resend_all_unconfirmed_frames 0 control (s mod 8) h) packets s r acks.
Proof using Hc.
  intros Hu. destruct (up_window _ _ _ _ _ _ _ Hu) as (n & Hw).
  destruct (resend_loop_up 9 h packets s r acks control n Hu Hw) as (h' & Hrun & Hu').
  { pose proof (Z.mod_pos_bound (n - s) 8). lia. }
  unfold __resend_all_unconfirmed_frames. rewrite Hrun. by apply up_events_set.
Qed.

Lemma s_frame_read_up w packets s r acks a frame :
  up c true (handle w) packets s r acks -> s_frame a frame ->
  s <= a <= Z.of_nat (length packets) -> a <= s + 7 ->
  let w' := snd (__on_s_frame_read cbs 0 frame w) in
  user w' = told (between s a packets) None (user w) /\
  exists acks', one_more r acks acks' /\ up c true (handle w') packets a r acks'.
Proof using Hc.
  intros Hu (address & control & -> & Haddr & Hmask & Hnr & Hty) Ha Ha7. cbv zeta.
  unfold __on_s_frame_read, frame_control, frame_address. cbn [nth snd]. rewrite Hnr.
  destruct (confirm_sent_up c Hc w packets s r acks a Hu Ha Ha7) as [Hu1 Hus1].
  set (w1 := __confirm_sent_frames cbs 0 (a mod 8) w) in *.
  destruct Hty as [->| ->].
  - change (HDLC_S_FRAME_TYPE_RR =? HDLC_S_FRAME_TYPE_REJ) with false.
    change (HDLC_S_FRAME_TYPE_RR =? HDLC_S_FRAME_TYPE_RR) with true. cbv iota.
    destruct (nz (Z.land address HDLC_CR_BIT)); [|split; [done|]; exists acks; split; [by left|done]].
    destruct (__all_frames_are_sent _); [|split; [done|]; exists acks; split; [by left|done]].
    split; [done|]. change (handle (on_handle ?f w1)) with (f (handle w1)). cbv beta.
    destruct (up_window _ _ _ _ _ _ _ Hu1) as (n & Hw).
    unfold __i_queue_control_get_next_frame_to_receive. rewrite (win_recv _ _ _ _ _ Hw).
    rewrite (up_address c Hc _ _ _ _ _ _ Hu1). apply put_ack_up; auto.
    destruct (Z.testbit control 4) eqn:Eb; [right|left]; apply Z.bits_inj; intros i;
      change HDLC_P_BIT with (2 ^ 4); rewrite Z.land_spec, ?Z.bits_0, ?(Z.pow2_bits_eqb 4 i) by lia;
      (destruct (Z.eqb_spec 4 i) as [<-|]; rewrite ?Eb, ?andb_true_r, ?andb_false_r; done).
  - change (HDLC_S_FRAME_TYPE_REJ =? HDLC_S_FRAME_TYPE_REJ) with true. cbv iota.
    split; [done|]. exists acks. split; [by left|]. unfold on_handle. cbn [handle]. by apply resend_up.
Qed.

(** ** Dispatch *)

Lemma address_up b h packets s r acks address :
  up c b h packets s r acks -> clear_bits HDLC_CR_BIT address = c_addr c ->
  __address_field_to_peer h address = 0.
Proof using Hc.
  intros Hu Ha. unfold __address_field_to_peer. rewrite Ha, (ba_ext c Hc). cbn [negb].
  rewrite (wf_mode _ _ _ (up_wf _ _ _ _ _ _ _ Hu)), (ba_mode c Hc).
  change (TINY_FD_MODE_ABM =? TINY_FD_MODE_ABM) with true. rewrite orb_true_r. cbv iota.
  by rewrite (wf_addr _ _ _ (up_wf _ _ _ _ _ _ _ Hu)), Z.eqb_refl.
Qed.

(** The low two bits tell I-, S- and U-frames apart. *)
Lemma i_control_kind control :
  Z.land control HDLC_I_FRAME_MASK = HDLC_I_FRAME_BITS ->
  (Z.land control HDLC_U_FRAME_MASK =? HDLC_U_FRAME_BITS) = false /\
  (Z.land control HDLC_S_FRAME_MASK =? HDLC_S_FRAME_BITS) = false.
Proof using Type.
  intros H. assert (Hb : forall m, Z.land control m = m -> Z.land HDLC_I_FRAME_MASK m = 0).
  { intros m Hm. rewrite <- Hm. rewrite Z.land_assoc, (Z.land_comm HDLC_I_FRAME_MASK), H. done. }
  assert (Hs : Z.land (Z.land control HDLC_S_FRAME_MASK) HDLC_I_FRAME_MASK = 0).
  { rewrite <- Z.land_assoc. exact H. }
  split; apply Z.eqb_neq; intros E.
  - by apply Hb in E.
  - by rewrite E in Hs.
Qed.

Lemma s_control_kind control :
  Z.land control HDLC_S_FRAME_MASK = HDLC_S_FRAME_BITS ->
  (Z.land control HDLC_U_FRAME_MASK =? HDLC_U_FRAME_BITS) = false /\
  (Z.land control HDLC_I_FRAME_MASK =? HDLC_I_FRAME_BITS) = false.
Proof using Type.
  intros H. split.
  - change HDLC_U_FRAME_MASK with HDLC_S_FRAME_MASK. by rewrite H.
  - assert (Hs : Z.land (Z.land control HDLC_S_FRAME_MASK) HDLC_I_FRAME_MASK = 1) by by rewrite H.
    rewrite <- Z.land_assoc in Hs. change (Z.land HDLC_S_FRAME_MASK HDLC_I_FRAME_MASK) with HDLC_I_FRAME_MASK in Hs.
    by rewrite Hs.
Qed.

(** A frame as [i_frame] or [s_frame]. *)
Definition data_frame (content : option (Z * list Z)) (a : Z) (frame : list Z) : Prop :=
  match content with
  | Some (k, payload) => i_frame k a payload frame
  | None => s_frame a frame
  end.

(** The payload the station accepts from it. *)
Definition accepted (r : Z) (content : option (Z * list Z)) : option (list Z) :=
  match content with
  | Some (k, payload) => if k mod 8 =? r mod 8 then Some payload else None
  | None => None
  end.

Definition next_r (r : Z) (got : option (list Z)) : Z :=
  match got with Some _ => r + 1 | None => r end.

(** Any frame, once the peer is known and the mutex taken. *)
Lemma connected_frame_up w packets s r acks content a frame :
  up c true (handle w) packets s r acks -> data_frame content a frame ->
  s <= a <= Z.of_nat (length packets) -> a <= s + 7 ->
  let control := frame_control frame in
  let w' :=
    if Z.land control HDLC_U_FRAME_MASK =? HDLC_U_FRAME_MASK then
      snd (__on_u_frame_read millis cbs 0 frame w)
    else if negb (bool_decide (pi_state (peer_at (handle w) 0) = TINY_FD_STATE_CONNECTED)) &&
            negb (bool_decide (pi_state (peer_at (handle w) 0) = TINY_FD_STATE_DISCONNECTING)) then
      on_handle (put_u 0 0 HDLC_U_FRAME_TYPE_DM) w
    else if Z.land control HDLC_I_FRAME_MASK =? HDLC_I_FRAME_BITS then
      snd (__on_i_frame_read cbs 0 frame w)
    else if Z.land control HDLC_S_FRAME_MASK =? HDLC_S_FRAME_BITS then
      snd (__on_s_frame_read cbs 0 frame w)
    else w in
  let got := accepted r content in
  user w' = told (between s a packets) got (user w) /\
  exists acks', one_more (next_r r got) acks acks' /\
    up c true (handle w') packets a (next_r r got) acks'.
Proof using Hc.
  intros Hu Hf Ha Ha7. cbv zeta. rewrite (up_state _ _ _ _ _ _ _ Hu). cbn [bool_decide negb andb].
  rewrite (bool_decide_true (TINY_FD_STATE_CONNECTED = TINY_FD_STATE_CONNECTED)) by done. cbn [negb andb].
  destruct content as [[k payload]|]; cbn [data_frame] in Hf.
  - pose proof Hf as (address & control & -> & _ & Hm & _).
    change (frame_control (address :: control :: payload)) with control.
    destruct (i_control_kind control Hm) as [Hku _]. change HDLC_U_FRAME_BITS with HDLC_U_FRAME_MASK in Hku.
    rewrite Hku, Hm. change (HDLC_I_FRAME_BITS =? HDLC_I_FRAME_BITS) with true. cbv iota.
    pose proof (i_frame_read_up w packets s r acks k a payload _ Hu Hf Ha Ha7) as H. cbv zeta in H.
    cbn [accepted]. revert H. by destruct (k mod 8 =? r mod 8).
  - pose proof Hf as (address & control & -> & _ & Hm & _).
    change (frame_control [address; control]) with control.
    destruct (s_control_kind control Hm) as [Hku Hki]. change HDLC_U_FRAME_BITS with HDLC_U_FRAME_MASK in Hku.
    rewrite Hku, Hki, Hm. change (HDLC_S_FRAME_BITS =? HDLC_S_FRAME_BITS) with true. cbv iota.
    apply (s_frame_read_up w packets s r acks a _ Hu Hf Ha Ha7).
Qed.

Lemma frame_address_ok content a frame :
  data_frame content a frame ->
  2 <= Z.of_nat (length frame) /\ clear_bits HDLC_CR_BIT (frame_address frame) = c_addr c.
Proof using Type.
  destruct content as [[k payload]|]; intros (address & control & -> & Ha & _); (split; [cbn; lia|exact Ha]).
Qed.

Lemma frame_read_up w packets s r acks content a frame :
  up c false (handle w) packets s r acks -> data_frame content a frame ->
  s <= a <= Z.of_nat (length packets) -> a <= s + 7 ->
  let w' := on_frame_read millis cbs frame w in
  let got := accepted r content in
  user w' = told (between s a packets) got (user w) /\
  exists acks', one_more (next_r r got) acks acks' /\
    up c false (handle w') packets a (next_r r got) acks'.
Proof using Hc.
  intros Hu Hf Ha Ha7. cbv zeta. destruct (frame_address_ok _ _ _ Hf) as [Hlen Haddr].
  unfold on_frame_read. rewrite (proj2 (Z.ltb_ge _ _)) by lia.
  assert (Hlog : __tiny_fd_log_frame cbs TINY_FD_FRAME_DIRECTION_IN frame w = w).
  { unfold __tiny_fd_log_frame. by destruct frame as [|? [|? ?]]. }
  rewrite Hlog, (address_up _ _ _ _ _ _ _ Hu Haddr).
  change (0 =? HDLC_INVALID_PEER_INDEX) with false. cbv iota. cbn [tiny_millis].
  set (w1 := on_handle (upd_peer 0 _) _).
  assert (Hu1 : up c true (handle w1) packets s r acks).
  { unfold w1. change (handle (on_handle ?f ?x)) with (f (handle x)).
    apply up_lock in Hu. apply (up_upd_peer c Hc); [done|done|by apply Hu|by intros []]. }
  assert (Hus1 : user w1 = user w) by done. clearbody w1.
  destruct (connected_frame_up w1 packets s r acks content a frame Hu1 Hf Ha Ha7)
    as (Hus & acks' & Hm & Hu2).
  set (w2 := if Z.land _ _ =? HDLC_U_FRAME_MASK then _ else _) in *. clearbody w2.
  rewrite (wf_mode _ _ _ (up_wf _ _ _ _ _ _ _ Hu2)), (ba_mode c Hc).
  change (TINY_FD_MODE_ABM =? TINY_FD_MODE_NRM) with false. cbv iota.
  change (user (on_handle tiny_mutex_unlock w2)) with (user w2). split; [by rewrite Hus, Hus1|].
  exists acks'. split; [done|]. by apply up_unlock.
Qed.

End Moves.
