(* ===== verification/FdXmit.v ===== *)
(** * Sending on a connected station

    Choosing the next frame, completing its transmission, and the timers. *)

From S2P Require Import Prelude Crc HdlcLL HdlcSpec HdlcRx FdTypes FdQueue FdPeers FdIQueue FdLog.
From S2P Require Import FdService FdTx FdRx Fd FdApi FdInv FdSafe FdFifo FdSlots FdConn FdMoves.

(** ** Control bytes *)

(** The bytes below 2^n. *)
Lemma forall_byte (P : Z -> bool) x :
  forallb P (seqZ 0 256) = true -> fits 8 x -> P x = true.
Proof.
  intros H Hx. rewrite forallb_forall in H. apply H. apply list_elem_of_In, elem_of_seqZ.
  unfold fits in Hx. lia.
Qed.

Definition stamp_ok (control nr : Z) : bool :=
  let v := u8 (Z.lor (Z.land control 0x0F) (Z.shiftl nr 5)) in
  (Z.land v HDLC_I_FRAME_MASK =? Z.land control HDLC_I_FRAME_MASK) &&
  (Z.land (Z.shiftr v 1) 0x07 =? Z.land (Z.shiftr control 1) 0x07) && (Z.shiftr v 5 =? nr).

(** Stamping N(R) into a control byte keeps its kind and N(S). *)
Lemma stamp_spec control nr :
  fits 8 control -> 0 <= nr < 8 ->
  let v := u8 (Z.lor (Z.land control 0x0F) (Z.shiftl nr 5)) in
  Z.land v HDLC_I_FRAME_MASK = Z.land control HDLC_I_FRAME_MASK /\
  Z.land (Z.shiftr v 1) 0x07 = Z.land (Z.shiftr control 1) 0x07 /\ Z.shiftr v 5 = nr.
Proof.
  intros Hc Hn v. assert (H : stamp_ok control nr = true).
  { assert (nr = 0 \/ nr = 1 \/ nr = 2 \/ nr = 3 \/ nr = 4 \/ nr = 5 \/ nr = 6 \/ nr = 7) as Hn8 by lia.
    destruct Hn8 as [->|[->|[->|[->|[->|[->|[->| ->]]]]]]];
      by apply (forall_byte (fun x => stamp_ok x _)); [vm_compute|]. }
  unfold stamp_ok in H. fold v in H. apply andb_true_iff in H as [[H1 H2]%andb_true_iff H3].
  by apply Z.eqb_eq in H1, H2, H3.
Qed.

Lemma same_address_up c b h packets s r acks address :
  up c b h packets s r acks -> clear_bits HDLC_CR_BIT address = c_addr c ->
  same_address (c_addr c) address = true.
Proof.
  intros _ <-. unfold same_address, clear_bits. rewrite <- Z.land_assoc. apply Z.eqb_refl.
Qed.

Section Xmit.

Context (c : fd_config) (Hc : balanced c) (millis : nat -> Z).

#[local] Abbreviation cbs := app_callbacks.

(** ** The next frame *)

(** An acknowledgement waits: it comes first. *)
Lemma next_ack_up h packets s r hd a acks :
  up c true h packets s r ((hd, a) :: acks) ->
  exists i f, tiny_fd_get_next_s_u_frame_to_send h 0 (c_addr c) =
      (Some (InSQueue i), upd_peer 0 (fun p => p <| pi_sent_nr := a mod 8 |>) h) /\
    slot_at (fd_s_queue h) (Z.of_nat i) = f /\ fi_addr f = hd /\ s_frame c a (frame_bytes f).
Proof using Hc.
  intros Hu. destruct (up_fifo _ _ _ _ _ _ _ Hu) as (busy & Hf & Hb).
  pose proof (wf_s _ _ _ (up_wf _ _ _ _ _ _ _ Hu)) as [Hok _ _ _].
  assert (Hsame : Forall (fun f => same_address (c_addr c) (fi_address f) = true) busy).
  { eapply Forall2_Forall_r; [exact Hb|]. apply Forall_forall.
    intros x _ f (_ & _ & _ & Ha & _). by eapply same_address_up. }
  destruct (fifo_next _ _ Hok busy (c_addr c) Hf Hsame eq_refl) as [Hg Hs].
  inversion Hb as [|x f l busy' Hx Hb']; subst. destruct Hx as (Hty & Hlen & Haddr & Hfa & Hack).
  exists (Z.to_nat (q_lookup_index (fd_s_queue h))), f.
  unfold tiny_fd_get_next_s_u_frame_to_send. rewrite Hg, (slot_at_lookup _ _ _ Hs).
  pose proof Hack as (Hm & Hnr & _). rewrite Hm, Hnr. split; [done|]. split; [done|].
  split; [done|]. exists (fi_address f), (fi_control f). unfold frame_bytes. by rewrite Hlen.
Qed.

(** No acknowledgement waits: there is no service frame. *)
Lemma next_no_ack h packets s r :
  up c true h packets s r [] -> tiny_fd_get_next_s_u_frame_to_send h 0 (c_addr c) = (None, h).
Proof using Hc.
  intros Hu. destruct (up_fifo _ _ _ _ _ _ _ Hu) as (busy & Hf & Hb). inversion Hb; subst.
  pose proof (wf_s _ _ _ (up_wf _ _ _ _ _ _ _ Hu)) as [Hok _ _ _].
  destruct (fifo_next _ _ Hok [] (c_addr c) Hf (List.Forall_nil _) eq_refl) as [Hg _].
  unfold tiny_fd_get_next_s_u_frame_to_send. by rewrite Hg.
Qed.

(** Its parts: the stamp, the move of the window, the bookkeeping. *)
Lemma stamp_up b h packets s r acks i :
  up c b h packets s r acks -> up c b (stamp_nr 0 i h) packets s r acks.
Proof using Type.
  intros Hu. pose proof (stamp_nr_wf c b 0 i h (up_wf _ _ _ _ _ _ _ Hu)) as Hwf.
  pose proof (up_bounds _ _ _ _ _ _ _ Hu) as Hb. destruct (up_window _ _ _ _ _ _ _ Hu) as (n & Hw).
  pose proof (qw_ok _ _ _ _ _ (wf_i _ _ _ (up_wf _ _ _ _ _ _ _ Hu))) as Hq.
  assert (Hslots : slots_ok (c_addr c) packets s (fd_i_queue (stamp_nr 0 i h))).
  { unfold stamp_nr, __i_queue_control_get_next_frame_to_receive. rewrite (win_recv _ _ _ _ _ Hw). cbn.
    apply slots_upd; [done| |by apply Hu]. intros f Hi. cbn.
    pose proof (Z.mod_pos_bound r 8 ltac:(lia)) as Hr.
    assert (Hf : slot_ok TINY_FD_QUEUE_I_FRAME (q_mtu (fd_i_queue h)) f).
    { eapply Forall_lookup_1; [exact (qo_slots _ _ Hq)|exact Hi]. }
    destruct (stamp_spec (fi_control f) (r mod 8) (so_control _ _ _ Hf) Hr) as (_ & Hv & _). done. }
  destruct Hu. by split.
Qed.

Lemma move_next_up b h packets s r acks :
  up c b h packets s r acks ->
  up c b (upd_control 0 __i_queue_control_move_to_next_ns h) packets s r acks.
Proof using Hc.
  intros Hu. pose proof (up_peers c Hc _ _ _ _ _ _ Hu) as Hp.
  assert (Hat : peer_at (upd_control 0 __i_queue_control_move_to_next_ns h) 0 =
            (peer_at h 0) <| pi_i_queue_control ::= __i_queue_control_move_to_next_ns |>).
  { unfold upd_control. by rewrite peer_at_upd. }
  destruct Hu. destruct up_window as (n1 & Hw1). split; unfold control_at; rewrite ?Hat; try done.
  - apply fd_wf_upd_control; [done|]. intros q []. split; cbn; auto with tiny.
  - exists (n1 + 1). by apply window_move_next.
Qed.

Lemma mark_i_sent_up (w : fd_world app) b packets s r acks :
  up c b (handle w) packets s r acks ->
  up c b (handle (mark_i_sent millis 0 w)) packets s r acks.
Proof using Hc.
  intros Hu. unfold mark_i_sent. cbn [tiny_millis].
  change (handle (on_handle ?f ?x)) with (f (handle x)).
  change (handle (?x <| clock ::= S |>)) with (handle x).
  change (handle (on_handle ?f ?x)) with (f (handle x)).
  assert (Hu1 : up c b (upd_peer 0 (fun p => p <| pi_sent_nr :=
      __i_queue_control_get_next_frame_to_receive (control_at (handle w) 0) |>) (handle w)) packets s r acks).
  { apply (up_upd_peer c Hc); [done|done|by apply Hu|]. intros []. split; try done. cbn.
    apply (fits_nr_field c b 0). by apply Hu. }
  apply (up_upd_peer c Hc); [done|done|by apply Hu1|by intros []].
Qed.

(** A packet of the window, with the number of the next expected one. *)
Lemma next_i_up (w : fd_world app) packets s r acks :
  up c true (handle w) packets s r acks ->
  let '(res, w') := tiny_fd_get_next_i_frame millis 0 (c_addr c) w in
  user w' = user w /\ up c true (handle w') packets s r acks /\
  match res with
  | None => True
  | Some ref => exists i k payload f, ref = InIQueue i /\ slot_at (fd_i_queue (handle w')) (Z.of_nat i) = f /\
      s <= k < Z.of_nat (length packets) /\ packets !! Z.to_nat k = Some payload /\
      i_frame c k r payload (frame_bytes f) /\ fi_addr f ∈ c_i_addrs c
  end.
Proof using Hc.
  intros Hu. unfold tiny_fd_get_next_i_frame. cbv zeta.
  rewrite (up_state _ _ _ _ _ _ _ Hu), (up_srej _ _ _ _ _ _ _ Hu).
  change (negb (0 =? 0)) with false. cbn [bool_decide orb].
  rewrite !bool_decide_false by done. cbn [orb]. cbv iota.
  destruct (up_window _ _ _ _ _ _ _ Hu) as (n & Hw).
  pose proof (up_peers c Hc _ _ _ _ _ _ Hu) as Hp. pose proof (up_bounds _ _ _ _ _ _ _ Hu) as Hb.
  pose proof (wf_i _ _ _ (up_wf _ _ _ _ _ _ _ Hu)) as Hqw. pose proof (qw_ok _ _ _ _ _ Hqw) as Hq.
  pose proof (up_slots _ _ _ _ _ _ _ Hu) as Hsl. pose proof (up_start _ _ _ _ _ _ _ Hu) as H0.
  destruct (tiny_fd_queue_get_next _ _ _ _) as [i|] eqn:Hg; [|done].
  destruct (slots_found (c_addr c) packets s _ Hq Hb _ i Hsl Hg) as (k & f & Hi & Hf & Hk & Hcar & _).
  pose proof (queue_wf_slot _ _ _ _ _ _ _ Hqw Hi) as [Hfok Hbit].
  pose proof (Z.mod_pos_bound r 8 ltac:(lia)) as Hr.
  set (f1 := f <| fi_control := u8 (Z.lor (Z.land (fi_control f) 0x0F) (Z.shiftl (r mod 8) 5)) |>).
  set (w1 := on_handle _ (on_handle _ w)).
  assert (Hu1 : up c true (handle w1) packets s r acks) by (by apply move_next_up, stamp_up).
  split; [done|]. split; [by apply mark_i_sent_up|].
  exists i, k, (slot_payload f), f1. split; [done|]. split.
  { apply slot_at_lookup. change (fd_i_queue (handle (mark_i_sent millis 0 w1))) with (fd_i_queue (handle w1)).
    change (fd_i_queue (handle w1)) with (fd_i_queue (stamp_nr 0 i (handle w))).
    unfold stamp_nr, __i_queue_control_get_next_frame_to_receive.
    rewrite (win_recv _ _ _ _ _ Hw). unfold upd_slot. cbn -[u8 Z.lor Z.land Z.shiftl]. by rewrite list_lookup_alter_eq, Hi. }
  destruct (stamp_spec (fi_control f) (r mod 8) (so_control _ _ _ Hfok) Hr) as (Hv1 & Hv2 & Hv3).
  split; [done|]. split; [apply Hcar|]. split.
  - exists (fi_address f), (u8 (Z.lor (Z.land (fi_control f) 0x0F) (Z.shiftl (r mod 8) 5))).
    split; [done|]. split; [|split; [|split]].
    + destruct Hcar as (_ & -> & _). apply Hc.
    + rewrite Hv1. apply Z.bits_inj. intros j. rewrite Z.land_spec, Z.bits_0.
      change HDLC_I_FRAME_MASK with (2 ^ 0). rewrite Z.pow2_bits_eqb by done.
      destruct (Z.eqb_spec 0 j) as [<-|]; [|by rewrite andb_false_r]. rewrite (proj1 (Hbit ltac:(destruct Hf as [-> _]; done))). done.
    + rewrite Hv2. apply Hcar.
    + exact Hv3.
  - rewrite <- (qw_addrs _ _ _ _ _ Hqw). apply list_elem_of_fmap. exists f. split; [done|]. by eapply list_elem_of_lookup_2.
Qed.

(** The bookkeeping once a frame is chosen. *)
Lemma chosen_up (w : fd_world app) packets s r acks ref :
  up c true (handle w) packets s r acks ->
  (Z.land (fi_control (ref_slot (handle w) ref)) HDLC_U_FRAME_MASK =? HDLC_U_FRAME_BITS) = false ->
  let w1 := if needs_pf (handle w) 0 (fi_control (ref_slot (handle w) ref))
            then on_handle (upd_ref ref (fun f => f <| fi_control ::= Z.lor HDLC_P_BIT |>)) w else w in
  let '(now, w2) := tiny_millis millis w1 in
  let w2 := on_handle (fun h => h <| fd_last_marker_ts := now |>) w2 in
  let '(now, w3) := tiny_millis millis w2 in
  let w3 := on_handle (upd_peer 0 (fun p => p <| pi_last_sent_frame_ts := now |>)) w3 in
  let w4 := on_handle tiny_mutex_unlock (__tiny_fd_log_frame cbs TINY_FD_FRAME_DIRECTION_OUT
              (frame_bytes (ref_slot (handle w3) ref)) w3) in
  user w4 = user w /\ up c false (handle w4) packets s r acks /\
  ref_slot (handle w4) ref = ref_slot (handle w) ref.
Proof using Hc.
  intros Hu Hk. cbv zeta. unfold needs_pf.
  rewrite (wf_mode _ _ _ (up_wf _ _ _ _ _ _ _ Hu)), (ba_mode c Hc).
  change (TINY_FD_MODE_ABM =? TINY_FD_MODE_NRM) with false. cbv iota. rewrite Hk. cbn [tiny_millis].
  set (w3 := on_handle (upd_peer 0 _) _).
  assert (Hlog : __tiny_fd_log_frame cbs TINY_FD_FRAME_DIRECTION_OUT
                   (frame_bytes (ref_slot (handle w3) ref)) w3 = w3) by done.
  rewrite Hlog. split; [done|].
  assert (Hu3 : up c true (handle w3) packets s r acks).
  { unfold w3. change (handle (on_handle ?f ?x)) with (f (handle x)).
    apply (up_upd_peer c Hc); [|done| |by intros []].
    - apply (up_handle c _ _ _ _ _ _ _ Hu); try done. apply fd_wf_marker_ts. by apply Hu.
    - by apply Hu. }
  split; [by apply up_unlock|]. change (handle (on_handle ?f w3)) with (f (handle w3)).
  unfold tiny_mutex_unlock. by destruct (fd_mutex _), ref.
Qed.

Lemma next_frame_up (w : fd_world app) packets s r acks :
  up c false (handle w) packets s r acks ->
  let '(res, w') := tiny_fd_get_next_frame_to_send millis cbs 0 w in
  user w' = user w /\ up c false (handle w') packets s r acks /\
  match res with
  | None => True
  | Some ref =>
      let slot := ref_slot (handle w') ref in
      match acks with
      | (hd, a) :: _ => fi_addr slot = hd /\ s_frame c a (frame_bytes slot)
      | [] => exists k payload, s <= k < Z.of_nat (length packets) /\
          packets !! Z.to_nat k = Some payload /\ i_frame c k r payload (frame_bytes slot) /\
          fi_addr slot ∈ c_i_addrs c
      end
  end.
Proof using Hc.
  intros Hu. unfold tiny_fd_get_next_frame_to_send. set (w0 := on_handle tiny_mutex_lock w).
  assert (Hu0 : up c true (handle w0) packets s r acks) by by apply up_lock.
  assert (Hus0 : user w0 = user w) by done. clearbody w0.
  rewrite (up_address c Hc _ _ _ _ _ _ Hu0). destruct acks as [|[hd a] acks].
  - rewrite (next_no_ack _ _ _ _ Hu0). cbv beta iota zeta.
    set (w1 := w0 <| handle := handle w0 |>). pose proof (next_i_up w1 packets s r [] Hu0) as Hi.
    destruct (tiny_fd_get_next_i_frame millis 0 (c_addr c) w1) as [[ref|] w2].
    + destruct Hi as (Hus2 & Hu2 & i & k & payload & f & -> & Hslot & Hk & Hpay & Hf & Ha).
      assert (Hkind : (Z.land (fi_control (ref_slot (handle w2) (InIQueue i))) HDLC_U_FRAME_MASK
                       =? HDLC_U_FRAME_BITS) = false).
      { cbn [ref_slot]. rewrite Hslot. destruct Hf as (address & control & Hb & _ & Hm & _).
        injection Hb as _ -> _. by apply i_control_kind. }
      pose proof (chosen_up w2 packets s r [] (InIQueue i) Hu2 Hkind) as H. revert H.
      cbv zeta. destruct (tiny_millis millis _) as [now w3]. destruct (tiny_millis millis _) as [now' w4].
      intros (Hus & Hu4 & Href). split; [by rewrite Hus, Hus2|]. split; [done|]. rewrite Href.
      cbn [ref_slot]. rewrite Hslot. by exists k, payload.
    + destruct Hi as (Hus2 & Hu2 & _).
      rewrite (wf_mode _ _ _ (up_wf _ _ _ _ _ _ _ Hu2)), (ba_mode c Hc).
      change (TINY_FD_MODE_ABM =? TINY_FD_MODE_NRM) with false. cbv beta iota zeta.
      split; [by transitivity (user w1)|]. split; [by apply up_unlock|done].
  - destruct (next_ack_up _ _ _ _ _ _ _ Hu0) as (i & f & -> & Hslot & Ha & Hf). cbv beta iota zeta.
    set (w1 := w0 <| handle := _ |>).
    assert (Hu1 : up c true (handle w1) packets s r ((hd, a) :: acks)).
    { apply (up_upd_peer c Hc); [done|done|by apply Hu0|]. intros []. split; try done.
      by apply Z.mod_pos_bound. }
    assert (Hkind : (Z.land (fi_control (ref_slot (handle w1) (InSQueue i))) HDLC_U_FRAME_MASK
                     =? HDLC_U_FRAME_BITS) = false).
    { change (ref_slot (handle w1) (InSQueue i)) with (slot_at (fd_s_queue (handle w0)) (Z.of_nat i)).
      rewrite Hslot. destruct Hf as (address & control & Hb & _ & Hm & _).
      injection Hb as _ -> _. by apply s_control_kind. }
    pose proof (chosen_up w1 packets s r _ (InSQueue i) Hu1 Hkind) as H. revert H.
    cbv zeta. destruct (tiny_millis millis _) as [now w3]. destruct (tiny_millis millis _) as [now' w4].
    intros (Hus & Hu4 & Href). split; [by rewrite Hus|]. split; [done|]. rewrite Href.
    change (ref_slot (handle w1) (InSQueue i)) with (slot_at (fd_s_queue (handle w0)) (Z.of_nat i)).
    by rewrite Hslot.
Qed.

(** ** Completion *)

Lemma mode_abm b h packets s r acks :
  up c b h packets s r acks -> (fd_mode h =? TINY_FD_MODE_NRM) = false.
Proof using Hc. intros Hu. by rewrite (wf_mode _ _ _ (up_wf _ _ _ _ _ _ _ Hu)), (ba_mode c Hc). Qed.

Lemma s_queue_up b h packets s r acks acks' q :
  up c b h packets s r acks -> fd_wf c b (h <| fd_s_queue := q |>) ->
  (exists busy, fifo q busy /\ Forall2 (ack_slot c) acks' busy) ->
  up c b (h <| fd_s_queue := q |>) packets s r acks'.
Proof using Type. intros [] Hwf Hq. by split. Qed.

(** The acknowledgement that was sent leaves the queue. *)
Lemma sent_ack_up (w : fd_world app) packets s r hd a acks address control :
  up c false (handle w) packets s r ((hd, a) :: acks) ->
  clear_bits HDLC_CR_BIT address = c_addr c -> ack_control a control ->
  let w' := on_frame_send hd [address; control] w in
  user w' = user w /\ up c false (handle w') packets s r acks.
Proof using Hc.
  intros Hu Ha (Hm & _). cbv zeta. unfold on_frame_send.
  change (frame_address [address; control]) with address.
  change (frame_control [address; control]) with control.
  rewrite (address_up c Hc _ _ _ _ _ _ _ Hu Ha). change (0 =? HDLC_INVALID_PEER_INDEX) with false.
  cbv iota. destruct (s_control_kind control Hm) as [_ ->]. rewrite Hm.
  change (HDLC_S_FRAME_BITS =? HDLC_S_FRAME_BITS) with true. cbv iota.
  set (w0 := on_handle tiny_mutex_lock w).
  assert (Hu0 : up c true (handle w0) packets s r ((hd, a) :: acks)) by by apply up_lock.
  set (w1 := on_handle _ w0).
  assert (Hu1 : up c true (handle w1) packets s r acks).
  { unfold w1. change (handle (on_handle ?f w0)) with (f (handle w0)). cbv beta.
    pose proof (free_by_header_wf c true hd (handle w0) (up_wf _ _ _ _ _ _ _ Hu0)) as Hwf.
    change ((handle w0) <| fd_s_queue ::= fun q => tiny_fd_queue_free_by_header q hd |>) with
      ((handle w0) <| fd_s_queue := tiny_fd_queue_free_by_header (fd_s_queue (handle w0)) hd |>) in *.
    apply (s_queue_up _ _ _ _ _ _ _ _ Hu0); [done|].
    destruct (up_fifo _ _ _ _ _ _ _ Hu0) as (busy & Hf & Hb).
    inversion Hb as [|x f l busy' Hx Hb']; subst. exists busy'. split; [|done].
    destruct Hx as (_ & _ & Hh & _). cbn in Hh. rewrite <- Hh.
    apply (fifo_free _ _ (qw_ok _ _ _ _ _ (wf_s _ _ _ (up_wf _ _ _ _ _ _ _ Hu0)))). exact Hf. }
  rewrite (mode_abm _ _ _ _ _ _ Hu1). split; [done|]. by apply up_unlock, up_events_clear.
Qed.

(** Nothing else does: what is sent from the other queue frees nothing here. *)
Lemma sent_i_up (w : fd_world app) packets s r acks header data :
  up c false (handle w) packets s r acks -> header ∉ c_s_addrs c ->
  let w' := on_frame_send header data w in
  user w' = user w /\ up c false (handle w') packets s r acks.
Proof using Hc.
  intros Hu Hh. cbv zeta. unfold on_frame_send. destruct (_ =? HDLC_INVALID_PEER_INDEX); [done|].
  set (w0 := on_handle tiny_mutex_lock w).
  assert (Hu0 : up c true (handle w0) packets s r acks) by by apply up_lock.
  set (w1 := if Z.land _ HDLC_I_FRAME_MASK =? _ then _ else _).
  assert (Hfree : handle w1 = handle w0 \/
            handle w1 = (handle w0) <| fd_s_queue ::= fun q => tiny_fd_queue_free_by_header q header |>).
  { unfold w1. repeat lazymatch goal with |- context [if ?x then _ else _] => destruct x end; auto. }
  assert (Hsame : tiny_fd_queue_free_by_header (fd_s_queue (handle w0)) header = fd_s_queue (handle w0)).
  { unfold tiny_fd_queue_free_by_header. destruct (header_index _ _) as [i|] eqn:E; [|done].
    apply header_index_Some in E as (f & Hf & <-). exfalso. apply Hh.
    rewrite <- (qw_addrs _ _ _ _ _ (wf_s _ _ _ (up_wf _ _ _ _ _ _ _ Hu0))).
    apply list_elem_of_fmap. exists f. split; [done|]. by eapply list_elem_of_lookup_2. }
  assert (Hu1 : up c true (handle w1) packets s r acks /\ user w1 = user w).
  { split.
    - destruct Hfree as [->| ->]; [done|].
      change ((handle w0) <| fd_s_queue ::= fun q => tiny_fd_queue_free_by_header q header |>) with
        ((handle w0) <| fd_s_queue := tiny_fd_queue_free_by_header (fd_s_queue (handle w0)) header |>).
      rewrite Hsame. eapply up_handle; [exact Hu0| |done..]. by destruct (up_wf _ _ _ _ _ _ _ Hu0).
    - unfold w1. by repeat lazymatch goal with |- context [if ?x then _ else _] => destruct x end. }
  destruct Hu1 as [Hu1 Hus1]. clearbody w1. rewrite (mode_abm _ _ _ _ _ _ Hu1). split; [done|].
  by apply up_unlock, up_events_clear.
Qed.

(** ** Timers *)

Lemma disconnected_state (w : fd_world app) :
  (0 < length (fd_peers (handle w)))%nat ->
  pi_state (peer_at (handle (__switch_to_disconnected_state cbs 0 w)) 0) = TINY_FD_STATE_DISCONNECTED.
Proof using Type.
  intros Hp. unfold __switch_to_disconnected_state.
  destruct (bool_decide _) eqn:E; [by apply bool_decide_eq_true in E|]. cbn [on_connect_event_cb cbs].
  change (handle (on_handle ?f ?x)) with (f (handle x)).
  change (handle (on_handle ?f ?x)) with (f (handle x)).
  change (handle (on_handle ?f ?x)) with (f (handle x)).
  unfold peer_events_clear. rewrite peer_at_upd by (cbn; by rewrite length_alter).
  change (peer_at (flush_peer 0 ?h) 0) with (peer_at h 0). by rewrite peer_at_upd.
Qed.

(** The timer for unconfirmed frames: go back, or give up. *)
Lemma retry_up (w : fd_world app) packets s r acks :
  up c true (handle w) packets s r acks ->
  let w' :=
    if 0 <? pi_retries (peer_at (handle w) 0) then
      let w1 := on_handle (upd_peer 0 (fun p => p <| pi_retries ::= Z.pred |>)) w in
      on_handle (__resend_all_unconfirmed_frames 0 0
                   (__i_queue_control_get_next_frame_to_confirm (control_at (handle w) 0))) w1
    else __switch_to_disconnected_state cbs 0 w in
  pi_state (peer_at (handle w') 0) = TINY_FD_STATE_CONNECTED ->
  user w' = user w /\ up c true (handle w') packets s r acks.
Proof using Hc.
  intros Hu. cbv zeta. pose proof (up_peers c Hc _ _ _ _ _ _ Hu) as Hp.
  destruct (Z.ltb_spec 0 (pi_retries (peer_at (handle w) 0))) as [Hr|].
  - intros _. split; [done|]. destruct (up_window _ _ _ _ _ _ _ Hu) as (n & Hw).
    unfold __i_queue_control_get_next_frame_to_confirm. rewrite (win_confirm _ _ _ _ _ Hw).
    change (handle (on_handle ?f ?x)) with (f (handle x)). apply (resend_up c Hc).
    change (handle (on_handle ?f ?x)) with (f (handle x)).
    apply (up_upd_peer c Hc); [done|done|by apply Hu|]. intros []. split; try done. cbn.
    unfold fits in *. lia.
  - by rewrite disconnected_state.
Qed.

(** The keep-alive timers: give up, poll the peer, or nothing. *)
Lemma keep_alive_up (w : fd_world app) packets s r acks :
  up c true (handle w) packets s r acks ->
  let w' :=
    let '(received, w) := __time_passed_since_last_frame_received millis 0 w in
    if fd_ka_timeout (handle w) * 2 <=? received then
      if negb (nz (pi_ka_confirmed (peer_at (handle w) 0)))
      then __switch_to_disconnected_state cbs 0 w else w
    else
      let '(sent, w) := __time_passed_since_last_frame_sent millis 0 w in
      if fd_ka_timeout (handle w) <=? sent then
        let frame := [__peer_to_address_field (handle w) 0;
                      s_control (Z.lor HDLC_S_FRAME_TYPE_RR HDLC_P_BIT)
                        (__i_queue_control_get_next_frame_to_receive (control_at (handle w) 0))] in
        let w := on_handle (upd_peer 0 (fun p => p <| pi_ka_confirmed := 0 |>)) w in
        let w := on_handle (put_u_s TINY_FD_QUEUE_S_FRAME frame) w in
        let '(now, w) := tiny_millis millis w in
        on_handle (upd_peer 0 (fun p => p <| pi_last_sent_frame_ts := now |>)) w
      else w in
  pi_state (peer_at (handle w') 0) = TINY_FD_STATE_CONNECTED ->
  user w' = user w /\ exists acks', one_more r acks acks' /\ up c true (handle w') packets s r acks'.
Proof using Hc.
  intros Hu. cbv zeta. unfold __time_passed_since_last_frame_received. cbn [time_since tiny_millis].
  set (w1 := w <| clock ::= S |>). assert (Hu1 : up c true (handle w1) packets s r acks) by done.
  pose proof (up_peers c Hc _ _ _ _ _ _ Hu1) as Hp. destruct (_ <=? _).
  { destruct (negb _); [by rewrite disconnected_state|]. intros _. split; [done|].
    exists acks. split; [by left|done]. }
  unfold __time_passed_since_last_frame_sent. cbn [time_since tiny_millis].
  set (w2 := w1 <| clock ::= S |>). assert (Hu2 : up c true (handle w2) packets s r acks) by done.
  destruct (_ <=? _); intros _; (split; [done|]); [|exists acks; split; [by left|done]].
  destruct (up_window _ _ _ _ _ _ _ Hu2) as (n & Hw).
  unfold __i_queue_control_get_next_frame_to_receive. rewrite (win_recv _ _ _ _ _ Hw).
  rewrite (up_address c Hc _ _ _ _ _ _ Hu2).
  assert (Hu3 : up c true (upd_peer 0 (fun p => p <| pi_ka_confirmed := 0 |>) (handle w2)) packets s r acks).
  { apply (up_upd_peer c Hc); [done|done|by apply Hu2|by intros []]. }
  destruct (put_ack_up c Hc _ _ _ _ _ _ (c_addr c) HDLC_S_FRAME_TYPE_RR HDLC_P_BIT Hu3)
    as (acks' & Hm & Hu4); [by left|by right|by left|].
  exists acks'. split; [done|]. apply (up_upd_peer c Hc); [exact Hu4|done|by apply Hu4|by intros []].
Qed.

(** While the timers leave the peer connected, they go back over the window or queue
    an acknowledgement. *)
Lemma timer_up (w : fd_world app) packets s r acks :
  up c false (handle w) packets s r acks ->
  let w' := check_idle_timeout millis cbs 0 w in
  pi_state (peer_at (handle w') 0) = TINY_FD_STATE_CONNECTED ->
  user w' = user w /\ exists acks', one_more r acks acks' /\ up c false (handle w') packets s r acks'.
Proof using Hc.
  intros Hu. cbv zeta. unfold check_idle_timeout. rewrite (up_state _ _ _ _ _ _ _ Hu).
  rewrite (bool_decide_true (TINY_FD_STATE_CONNECTED = TINY_FD_STATE_CONNECTED)) by done. cbn [orb].
  unfold tiny_fd_connected_check_idle_timeout. cbn [time_since tiny_millis].
  set (w0 := on_handle tiny_mutex_lock w).
  assert (Hu0 : up c true (handle w0) packets s r acks) by by apply up_lock.
  set (w1 := w0 <| clock ::= S |>). assert (Hu1 : up c true (handle w1) packets s r acks) by done.
  set (w' := if _ && _ then _ else _).
  assert (Hgoal : pi_state (peer_at (handle w') 0) = TINY_FD_STATE_CONNECTED ->
    user w' = user w1 /\ exists acks', one_more r acks acks' /\ up c true (handle w') packets s r acks').
  { unfold w'. destruct (_ && _).
    - intros Hst. destruct (retry_up w1 packets s r acks Hu1 Hst) as [Hus Hu'].
      split; [exact Hus|]. exists acks. split; [by left|exact Hu'].
    - exact (keep_alive_up w1 packets s r acks Hu1). }
  clearbody w'. intros Hst. destruct Hgoal as (Hus & acks' & Hm & Hu').
  { rewrite <- Hst. unfold on_handle. cbn. unfold tiny_mutex_unlock. by destruct (fd_mutex _). }
  split; [exact Hus|]. exists acks'. split; [done|]. by apply up_unlock.
Qed.

End Xmit.
