(* ===== verification/FdE2E.v ===== *)
(** * Reliable delivery between two stations

    Two connected stations in balanced mode and two channels that keep the order
    of frames and may lose any of them.  The steps are the functions of the
    protocol, one call at a time: the transmission of a frame begins with the
    choice of the frame and ends with [on_frame_send], and anything but
    another transmission or a timer check may happen between. *)

From stdpp Require Import relations.
From S2P Require Import Prelude Crc HdlcLL HdlcSpec HdlcRx FdTypes FdQueue FdPeers FdIQueue FdLog.
From S2P Require Import FdService FdTx FdRx Fd FdApi FdInv FdSafe FdFifo FdSlots FdFlow FdConn.
From S2P Require Import FdMoves FdXmit.

(** ** The system *)

(** A station with the packets it has accepted for sending and the header address
    of the frame it is transmitting. *)
Record side : Type := mk_side {
  sd_world : fd_world app;
  sd_sent : list (list Z);
  sd_tx : option Z
}.

#[export] Instance eta_side : Eta side := fun x => mk_side (sd_world x) (sd_sent x) (sd_tx x).

Section Side.

Context (millis : nat -> Z) (others : Z -> fd_world app -> fd_world app).

(** A step of a station with its incoming and outgoing channel. *)
Inductive side_step : side -> list (list Z) -> list (list Z) ->
  side -> list (list Z) -> list (list Z) -> Prop :=
| SideSend x inp out address data res w : bytes data ->
    tiny_fd_send_packet_to millis others address data 0 (sd_world x) = (res, w) ->
    side_step x inp out
      (mk_side w (if res =? TINY_SUCCESS then sd_sent x ++ [data] else sd_sent x) (sd_tx x)) inp out
| SideStart x inp out w ref : sd_tx x = None ->
    tiny_fd_get_next_frame_to_send millis app_callbacks 0 (sd_world x) = (Some ref, w) ->
    let slot := ref_slot (handle w) ref in
    side_step x inp out (mk_side w (sd_sent x) (Some (fi_addr slot))) inp (out ++ [frame_bytes slot])
| SideIdle x inp out w : sd_tx x = None ->
    tiny_fd_get_next_frame_to_send millis app_callbacks 0 (sd_world x) = (None, w) ->
    side_step x inp out (mk_side w (sd_sent x) None) inp out
| SideEnd x inp out header : sd_tx x = Some header ->
    let mem := fd_mem (handle (sd_world x)) in
    side_step x inp out
      (mk_side (on_frame_send header [mem header; mem (header + 1)] (sd_world x)) (sd_sent x) None) inp out
| SideRead x frame inp out :
    side_step x (frame :: inp) out
      (mk_side (on_frame_read millis app_callbacks frame (sd_world x)) (sd_sent x) (sd_tx x)) inp out
| SideLose x inp1 frame inp2 out :
    side_step x (inp1 ++ frame :: inp2) out x (inp1 ++ inp2) out
| SideTimer x inp out w : sd_tx x = None ->
    check_idle_timeout millis app_callbacks 0 (sd_world x) = w ->
    pi_state (peer_at (handle w) 0) = TINY_FD_STATE_CONNECTED ->
    side_step x inp out (mk_side w (sd_sent x) None) inp out.

End Side.

(** Two stations, [sys_ab] the frames from the first to the second. *)
Record system : Type := mk_system {
  sys_a : side;
  sys_b : side;
  sys_ab : list (list Z);
  sys_ba : list (list Z)
}.

Section System.

Context (millis_a millis_b : nat -> Z) (others_a others_b : Z -> fd_world app -> fd_world app).

Inductive system_step : system -> system -> Prop :=
| StepA a b ab ba a' ab' ba' :
    side_step millis_a others_a a ba ab a' ba' ab' ->
    system_step (mk_system a b ab ba) (mk_system a' b ab' ba')
| StepB a b ab ba b' ab' ba' :
    side_step millis_b others_b b ab ba b' ab' ba' ->
    system_step (mk_system a b ab ba) (mk_system a b' ab' ba').

End System.

(** A connection where nothing has been sent yet. *)
Definition fresh (c : fd_config) (x : side) : Prop :=
  up c false (handle (sd_world x)) [] 0 0 [] /\ sd_sent x = [] /\ sd_tx x = None /\
  user (sd_world x) = mk_app [] [].

Definition established (ca cb : fd_config) (y : system) : Prop :=
  fresh ca (sys_a y) /\ fresh cb (sys_b y) /\ sys_ab y = [] /\ sys_ba y = [].

(** The slots of the service queue overlap no other slot. *)
Record separate (c : fd_config) : Prop := mk_separate {
  sep_s : forall i j a b, c_s_addrs c !! i = Some a -> c_s_addrs c !! j = Some b -> i <> j ->
    a + 4 <= b \/ b + 4 <= a;
  sep_i : forall a b, a ∈ c_i_addrs c -> b ∈ c_s_addrs c -> a + 2 + c_mtu c <= b \/ b + 4 <= a
}.

(** ** The memory the framing layer reads *)

Lemma find_only {A} (P : A -> bool) l j x :
  l !! j = Some x -> P x = true ->
  (forall i y, l !! i = Some y -> P y = true -> i = j) -> List.find P l = Some x.
Proof.
  revert j. induction l as [|z l IH]; intros j Hj Hx Hu; [done|]. cbn.
  destruct (P z) eqn:Hz.
  - specialize (Hu 0%nat z eq_refl Hz). subst j. by injection Hj as ->.
  - destruct j as [|j]; [injection Hj as ->; congruence|]. apply (IH j); [done|done|].
    intros i y Hi Hy. specialize (Hu (S i) y Hi Hy). congruence.
Qed.

Lemma mem_s_slot c b h j f :
  fd_wf c b h -> separate c -> q_frames (fd_s_queue h) !! j = Some f ->
  fd_mem h (fi_addr f) = fi_address f /\ fd_mem h (fi_addr f + 1) = fi_control f.
Proof.
  intros Hw [Hss Hsi] Hj. destruct (wf_i _ _ _ Hw) as [[_ Hi _] Himtu Hia _].
  destruct (wf_s _ _ _ Hw) as [[_ Hs _] Hsmtu Hsa _]. rewrite Himtu in Hi. rewrite Hsmtu in Hs.
  rewrite Forall_lookup in Hi, Hs.
  assert (Hfind : forall x, fi_addr f <= x < fi_addr f + 4 ->
            List.find (slot_contains x) (q_frames (fd_i_queue h) ++ q_frames (fd_s_queue h)) = Some f).
  { intros x Hx. apply (find_only _ _ (length (q_frames (fd_i_queue h)) + j)).
    - rewrite lookup_app_r by lia. by rewrite Nat.add_comm, Nat.add_sub.
    - unfold slot_contains. rewrite (so_payload _ _ _ (Hs j f Hj)).
      apply andb_true_iff. split; [apply Z.leb_le|apply Z.ltb_lt]; lia.
    - intros i g Hg Hin. unfold slot_contains in Hin. apply andb_true_iff in Hin as [H1 H2].
      apply Z.leb_le in H1. apply Z.ltb_lt in H2. apply lookup_app_Some in Hg as [Hg|[Hle Hg]].
      + exfalso. rewrite (so_payload _ _ _ (Hi i g Hg)) in H2.
        destruct (Hsi (fi_addr g) (fi_addr f)); [| |lia..].
        * rewrite <- Hia. apply list_elem_of_fmap. exists g. split; [done|]. by eapply list_elem_of_lookup_2.
        * rewrite <- Hsa. apply list_elem_of_fmap. exists f. split; [done|]. by eapply list_elem_of_lookup_2.
      + rewrite (so_payload _ _ _ (Hs _ g Hg)) in H2.
        destruct (decide ((i - length (q_frames (fd_i_queue h)))%nat = j)) as [|Hne]; [lia|].
        destruct (Hss (i - length (q_frames (fd_i_queue h)))%nat j (fi_addr g) (fi_addr f));
          [| |exact Hne|lia..]; rewrite <- Hsa, list_lookup_fmap; [by rewrite Hg|by rewrite Hj]. }
  unfold fd_mem. rewrite !Hfind by lia. unfold slot_byte. rewrite Z.eqb_refl. split; [done|].
  rewrite (proj2 (Z.eqb_neq _ _)) by lia. by rewrite Z.eqb_refl.
Qed.

(** The slots of packets are none of the service queue. *)
Lemma i_header_apart c (Hsep : separate c) b h header :
  fd_wf c b h -> header ∈ c_i_addrs c -> header ∉ c_s_addrs c.
Proof.
  intros Hw Ha Hs. pose proof (wf_i _ _ _ Hw) as [[Hq1 Hq2 _] Hm _ _].
  destruct (q_frames (fd_i_queue h)) as [|f l] eqn:E; [unfold q_size in Hq1; rewrite E in Hq1; cbn in Hq1; lia|].
  apply Forall_cons in Hq2 as [Hq2 _]. pose proof (so_len _ _ _ Hq2).
  destruct (sep_i _ Hsep _ _ Ha Hs); lia.
Qed.

(** The end of the transmission of an acknowledgement. *)
Lemma end_ack c (Hc : balanced c) (Hsep : separate c) (w : fd_world app) packets s r hd a acks :
  up c false (handle w) packets s r ((hd, a) :: acks) ->
  let mem := fd_mem (handle w) in
  let w' := on_frame_send hd [mem hd; mem (hd + 1)] w in
  user w' = user w /\ up c false (handle w') packets s r acks.
Proof.
  intros Hu. cbv zeta. destruct (up_fifo _ _ _ _ _ _ _ Hu) as (busy & (_ & free & Hrot & _) & Hbusy).
  inversion Hbusy as [|x f l busy' Hx Hb']; subst. destruct Hx as (_ & _ & Hfa & Hadr & Hack).
  assert (Hin : exists j, q_frames (fd_s_queue (handle w)) !! j = Some f).
  { apply list_elem_of_lookup.
    rewrite <- (take_drop (Z.to_nat (q_lookup_index (fd_s_queue (handle w)))) (q_frames (fd_s_queue (handle w)))).
    apply elem_of_app. assert (f ∈ rotation (fd_s_queue (handle w))) as Hr.
    { rewrite Hrot. apply list_elem_of_here. }
    unfold rotation in Hr. apply elem_of_app in Hr. tauto. }
  destruct Hin as (j & Hj). cbn in Hfa.
  destruct (mem_s_slot c _ _ _ _ (up_wf _ _ _ _ _ _ _ Hu) Hsep Hj) as [Hm1 Hm2].
  rewrite Hfa in Hm1, Hm2. rewrite Hm1, Hm2. by apply (sent_ack_up c Hc _ _ _ _ _ a).
Qed.

(** ** Invariant *)

(** A frame in a channel, as the number of the packet it carries, if any, and the
    number of its acknowledgement. *)
Definition in_flight (c : fd_config) (packets : list (list Z)) (x : option Z * Z) (frame : list Z)
  : Prop :=
  match fst x with
  | Some k => exists payload, 0 <= k /\ packets !! Z.to_nat k = Some payload /\
                i_frame c k (snd x) payload frame
  | None => s_frame c (snd x) frame
  end.

(** The acknowledgements that still have to be sent: those in the queue, less the
    one whose transmission has begun. *)
Definition tx_rel (c : fd_config) (tx : option Z) (acks : list (Z * Z)) (pending : list Z) : Prop :=
  match tx with
  | None => pending = (acks.*2)
  | Some header =>
      (exists a l, acks = (header, a) :: l /\ pending = (l.*2)) \/
      ((header ∉ c_s_addrs c) /\ pending = (acks.*2))
  end.

(** A station that has [s] of its packets confirmed and has accepted [r]. *)
Definition side_ok (c : fd_config) (x : side) (s r : Z) (pending : list Z) : Prop :=
  exists acks, up c false (handle (sd_world x)) (sd_sent x) s r acks /\ tx_rel c (sd_tx x) acks pending.

(** One direction: from [x] to [y]. *)
Record direction (c : fd_config) (x y : side) (f : flow) (wire : list (option Z * Z))
  (chan : list (list Z)) : Prop := mk_direction {
  dir_ok : flow_ok f;
  dir_l : fl_l f = Z.of_nat (length (sd_sent x));
  dir_wire : Forall2 (in_flight c (sd_sent x)) wire chan;
  dir_data : fl_data f = omap fst wire;
  dir_confirmed : confirmed (user (sd_world x)) = take (Z.to_nat (fl_s f)) (sd_sent x);
  dir_received : received (user (sd_world y)) = take (Z.to_nat (fl_r f)) (sd_sent x)
}.

Record connection (ca cb : fd_config) (a b : side) (ab ba : list (list Z)) (fab fba : flow)
  (wab wba : list (option Z * Z)) (pa pb : list Z) : Prop := mk_connection {
  cn_ab : direction ca a b fab wab ab;
  cn_ba : direction cb b a fba wba ba;
  cn_a : side_ok ca a (fl_s fab) (fl_r fba) pa;
  cn_b : side_ok cb b (fl_s fba) (fl_r fab) pb;
  cn_acks_ab : fl_acks fab = (wba.*2) ++ pb;
  cn_acks_ba : fl_acks fba = (wab.*2) ++ pa
}.

Definition connected ca cb a b ab ba : Prop :=
  exists fab fba wab wba pa pb, connection ca cb a b ab ba fab fba wab wba pa pb.

Lemma connected_sym ca cb a b ab ba : connected ca cb a b ab ba -> connected cb ca b a ba ab.
Proof. intros (fab & fba & wab & wba & pa & pb & []). by exists fba, fab, wba, wab, pb, pa. Qed.

(** *** Shared facts *)

Lemma in_flight_more c packets d x frame :
  in_flight c packets x frame -> in_flight c (packets ++ [d]) x frame.
Proof.
  unfold in_flight. destruct (fst x) as [k|]; [|done]. intros (payload & Hk & Hp & Hf).
  exists payload. split; [done|]. split; [by apply lookup_app_l_Some|done].
Qed.

Lemma in_flight_frame ca cb packets x frame :
  c_addr ca = c_addr cb -> in_flight ca packets x frame ->
  exists payload, data_frame cb ((fun k => (k, payload)) <$> fst x) (snd x) frame /\
    forall k, fst x = Some k -> 0 <= k /\ packets !! Z.to_nat k = Some payload.
Proof.
  intros E. unfold in_flight, data_frame, i_frame, s_frame. rewrite E.
  destruct (fst x) as [k|]; cbn.
  - intros (payload & Hk & Hp & Hf). exists payload. split; [done|]. by intros ? [= <-].
  - intros Hf. by exists [].
Qed.

(** One acknowledgement more in the queue, whatever is being transmitted. *)
Lemma one_more_pending c tx acks acks' pending r :
  tx_rel c tx acks pending -> one_more r acks acks' ->
  exists pending', tx_rel c tx acks' pending' /\ (pending' = pending \/ pending' = pending ++ [r]).
Proof.
  intros Ht [->|(hd & ->)]; [exists pending; auto|]. exists (pending ++ [r]). split; [|by right].
  unfold tx_rel in *. destruct tx as [header|].
  - destruct Ht as [(a & acks1 & -> & ->)|[Hh ->]]; [left|right].
    + exists a, (acks1 ++ [(hd, r)]). split; [done|]. by rewrite fmap_app.
    + split; [done|]. by rewrite fmap_app.
  - subst. by rewrite fmap_app.
Qed.

Lemma flow_more_acks f acks pending pending' :
  flow_ok f -> fl_acks f = acks ++ pending ->
  pending' = pending \/ pending' = pending ++ [fl_r f] ->
  flow_ok (f <| fl_acks := acks ++ pending' |>).
Proof.
  intros Hok Ha [->| ->].
  - rewrite <- Ha. by destruct f.
  - rewrite app_assoc, <- Ha. apply (flow_step_ok _ _ Hok). apply FlowAck.
Qed.

Lemma take_between s a (packets : list (list Z)) :
  0 <= s <= a -> take (Z.to_nat s) packets ++ between s a packets = take (Z.to_nat a) packets.
Proof.
  intros H. unfold between. rewrite take_take_drop. f_equal. lia.
Qed.

(** *** The steps of one station *)

Section Steps.

Context (ca cb : fd_config) (Hca : balanced ca) (Hsep : separate ca) (Haddr : c_addr ca = c_addr cb).
Context (millis : nat -> Z).

Lemma send_connected others a b ab ba address data res w :
  connected ca cb a b ab ba -> bytes data ->
  tiny_fd_send_packet_to millis others address data 0 (sd_world a) = (res, w) ->
  connected ca cb (mk_side w (if res =? TINY_SUCCESS then sd_sent a ++ [data] else sd_sent a) (sd_tx a))
    b ab ba.
Proof using Hca.
  intros (fab & fba & wab & wba & pa & pb & [[] [] (acks & Hu & Ht) Hb E1 E2]) Hd Hsend.
  destruct (send_up ca Hca millis others _ _ _ _ _ _ _ _ _ Hu Hd Hsend)
    as (Hus & [(-> & Hroom & Hu')|(Hres & Hu')]).
  - change (TINY_SUCCESS =? TINY_SUCCESS) with true. cbv iota.
    exists (fab <| fl_l ::= Z.succ |>), fba, wab, wba, pa, pb.
    destruct (fo_window _ dir_ok0) as [? ?].
    assert (forall n, n <= fl_l fab -> take (Z.to_nat n) (sd_sent a ++ [data]) = take (Z.to_nat n) (sd_sent a)) as Htk.
    { intros n Hn. apply take_app_le. lia. }
    split; try done; [split|split; try done|]; cbn.
    + apply (flow_step_ok _ _ dir_ok0), FlowQueue. lia.
    + rewrite dir_l0, length_app. cbn. lia.
    + eapply Forall2_impl; [done|]. intros. by apply in_flight_more.
    + done.
    + by rewrite Hus, Htk by lia.
    + by rewrite Htk by lia.
    + by rewrite Hus.
    + by exists acks.
  - rewrite (proj2 (Z.eqb_neq res TINY_SUCCESS)) by done.
    exists fab, fba, wab, wba, pa, pb. split; try done; [split|split|]; cbn; try done; [by rewrite Hus..|].
    by exists acks.
Qed.

Lemma start_connected a b ab ba res w :
  connected ca cb a b ab ba -> sd_tx a = None ->
  tiny_fd_get_next_frame_to_send millis app_callbacks 0 (sd_world a) = (res, w) ->
  match res with
  | Some ref =>
      let slot := ref_slot (handle w) ref in
      connected ca cb (mk_side w (sd_sent a) (Some (fi_addr slot))) b (ab ++ [frame_bytes slot]) ba
  | None => connected ca cb (mk_side w (sd_sent a) None) b ab ba
  end.
Proof using Hca Hsep.
  intros (fab & fba & wab & wba & pa & pb & [[] [] (acks & Hu & Ht) Hb E1 E2]) Htx Hnext.
  rewrite Htx in Ht. cbn in Ht.
  pose proof (next_frame_up ca Hca millis _ _ _ _ _ Hu) as H. rewrite Hnext in H.
  destruct H as (Hus & Hu' & H). destruct res as [ref|].
  - cbv zeta in *. set (slot := ref_slot (handle w) ref) in *. destruct acks as [|[hd n] acks].
    + destruct H as (k & payload & Hk & Hpay & Hf & Hin). cbn in Ht. subst pa. rewrite app_nil_r in E2.
      exists (fab <| fl_data ::= fun d => d ++ [k] |>), (fba <| fl_acks ::= fun l => l ++ [fl_r fba] |>),
        (wab ++ [(Some k, fl_r fba)]), wba, [], pb.
      split; [split|split| | | |]; cbn; try done.
      * apply (flow_step_ok _ _ dir_ok0), FlowSend. lia.
      * apply Forall2_app; [done|]. constructor; [|constructor]. cbn. exists payload. split; [|done].
        destruct (fo_window _ dir_ok0). lia.
      * rewrite omap_app, dir_data0. done.
      * by rewrite Hus.
      * apply (flow_step_ok _ _ dir_ok1), FlowAck.
      * by rewrite Hus.
      * exists []. split; [done|]. right. split; [|done]. intros Hs.
        by apply (i_header_apart ca Hsep _ _ _ (up_wf _ _ _ _ _ _ _ Hu') Hin).
      * by rewrite fmap_app, E2, app_nil_r.
    + destruct H as (Hh & Hf). cbn in Ht. subst pa.
      exists fab, fba, (wab ++ [(None, n)]), wba, (acks.*2), pb.
      split; [split|split| | | |]; cbn; try done.
      * apply Forall2_app; [done|]. by constructor; [|constructor].
      * by rewrite omap_app, dir_data0, app_nil_r.
      * by rewrite Hus.
      * by rewrite Hus.
      * exists ((hd, n) :: acks). split; [done|]. left. exists n, acks. by rewrite Hh.
      * rewrite E2, fmap_app, <- app_assoc. done.
  - exists fab, fba, wab, wba, pa, pb. split; [split|split| | | |]; cbn; try done; [by rewrite Hus..|].
    by exists acks.
Qed.

Lemma end_connected a b ab ba header :
  connected ca cb a b ab ba -> sd_tx a = Some header ->
  let mem := fd_mem (handle (sd_world a)) in
  connected ca cb
    (mk_side (on_frame_send header [mem header; mem (header + 1)] (sd_world a)) (sd_sent a) None) b ab ba.
Proof using Hca Hsep.
  intros (fab & fba & wab & wba & pa & pb & [[] [] (acks & Hu & Ht) Hb E1 E2]) Htx mem.
  rewrite Htx in Ht. cbn in Ht. set (w' := on_frame_send _ _ _).
  assert (Hend : user w' = user (sd_world a) /\ exists acks',
            up ca false (handle w') (sd_sent a) (fl_s fab) (fl_r fba) acks' /\ pa = (acks'.*2)).
  { destruct Ht as [(n & acks' & -> & ->)|[Hh ->]].
    - destruct (end_ack ca Hca Hsep _ _ _ _ _ _ _ Hu) as [Hus Hu']. split; [exact Hus|]. by exists acks'.
    - destruct (sent_i_up ca Hca _ _ _ _ _ header [mem header; mem (header + 1)] Hu Hh) as [Hus Hu'].
      split; [exact Hus|]. by exists acks. }
  destruct Hend as (Hus & acks' & Hu' & Hp). clearbody w'.
  exists fab, fba, wab, wba, pa, pb. split; [split|split| | | |]; cbn; try done; [by rewrite Hus..|].
  by exists acks'.
Qed.

Lemma timer_connected a b ab ba w :
  connected ca cb a b ab ba -> sd_tx a = None ->
  check_idle_timeout millis app_callbacks 0 (sd_world a) = w ->
  pi_state (peer_at (handle w) 0) = TINY_FD_STATE_CONNECTED ->
  connected ca cb (mk_side w (sd_sent a) None) b ab ba.
Proof using Hca.
  intros (fab & fba & wab & wba & pa & pb & [[] [] (acks & Hu & Ht) Hb E1 E2]) Htx <- Hst.
  destruct (timer_up ca Hca millis _ _ _ _ _ Hu Hst) as (Hus & acks' & Hm & Hu').
  destruct (one_more_pending _ _ _ _ _ _ Ht Hm) as (pa' & Ht' & Hp).
  exists fab, (fba <| fl_acks := (wab.*2) ++ pa' |>), wab, wba, pa', pb.
  split; [split|split| | | |]; cbn; try done.
  - by rewrite Hus.
  - by eapply flow_more_acks.
  - by rewrite Hus.
  - exists acks'. by rewrite Htx in Ht'.
Qed.

Lemma lose_connected a b ab ba1 frame ba2 :
  connected ca cb a b ab (ba1 ++ frame :: ba2) -> connected ca cb a b ab (ba1 ++ ba2).
Proof using Type.
  intros (fab & fba & wab & wba & pa & pb & [[] [] Ha Hb E1 E2]).
  apply Forall2_app_inv_r in dir_wire1 as (w1 & w2' & Hw1 & Hw2 & ->).
  apply Forall2_cons_inv_r in Hw2 as (x & w2 & Hx & Hw2 & ->).
  rewrite fmap_app, <- app_assoc in E1. cbn in E1. rewrite omap_app in dir_data1. cbn in dir_data1.
  set (fab' := fab <| fl_acks := (w1.*2) ++ (w2.*2) ++ pb |>).
  assert (Hfab : flow_ok fab').
  { apply (flow_step_ok fab); [done|]. unfold fab'.
    rewrite <- (eq_refl : fl_acks fab' = (w1.*2) ++ (w2.*2) ++ pb).
    replace fab with (fab' <| fl_acks := (w1.*2) ++ snd x :: ((w2.*2) ++ pb) |>) at 1.
    - by apply FlowLoseAck.
    - unfold fab'. destruct fab. cbn in *. by rewrite E1. }
  set (fba' := fba <| fl_data := omap fst w1 ++ omap fst w2 |>).
  assert (Hfba : flow_ok fba').
  { destruct (fst x) as [k|] eqn:Ek.
    - apply (flow_step_ok fba); [done|].
      replace fba with (fba' <| fl_data := omap fst w1 ++ k :: omap fst w2 |>) at 1.
      + by apply FlowLoseData.
      + unfold fba'. destruct fba. cbn in *. by rewrite dir_data1.
    - unfold fba'. rewrite <- dir_data1. by destruct fba. }
  exists fab', fba', wab, (w1 ++ w2), pa, pb. split; [split|split| | | |]; cbn; try done.
  - by apply Forall2_app.
  - by rewrite omap_app.
  - by rewrite fmap_app, <- app_assoc.
Qed.

(** What the frame at the head of the channel does to its direction. *)
Lemma flow_read f (x : option Z * Z) wire payload :
  flow_ok f -> fl_data f = omap fst (x :: wire) ->
  let content := (fun k => (k, payload)) <$> fst x in
  let got := accepted (fl_r f) content in
  flow_ok (f <| fl_data := omap fst wire |> <| fl_r := next_r (fl_r f) got |>) /\
  (got = None \/ got = Some payload /\ fst x = Some (fl_r f)).
Proof using Type.
  intros Hok Hd. cbv zeta. cbn in Hd. destruct (fst x) as [k|]; cbn [fmap option_fmap option_map accepted].
  - destruct (Z.eqb_spec (k mod 8) (fl_r f mod 8)) as [E|E]; cbn [next_r].
    + pose proof (flow_exact f k _ Hok Hd E) as Hk. split; [|right; by rewrite Hk].
      apply (flow_step_ok _ _ Hok). pose proof (FlowAccept f k _ Hd E) as H. by destruct f.
    + split; [|by left]. apply (flow_step_ok _ _ Hok). pose proof (FlowReject f k _ Hd E) as H.
      by destruct f.
  - split; [|by left]. cbn [next_r]. rewrite <- Hd. by destruct f.
Qed.

Lemma read_connected a b ab ba frame :
  connected ca cb a b ab (frame :: ba) ->
  connected ca cb
    (mk_side (on_frame_read millis app_callbacks frame (sd_world a)) (sd_sent a) (sd_tx a)) b ab ba.
Proof using Hca Haddr.
  intros (fab & fba & wab & wba & pa & pb & [[] [] (acks & Hu & Ht) Hb E1 E2]).
  apply Forall2_cons_inv_r in dir_wire1 as (x & wba' & Hx & Hwire & ->).
  change (fl_acks fab = snd x :: ((wba'.*2) ++ pb)) in E1.
  destruct (in_flight_frame cb ca _ _ _ (eq_sym Haddr) Hx) as (payload & Hframe & Hpay).
  destruct (flow_read fba x wba' payload dir_ok1 dir_data1) as [Hfba Hgot].
  pose proof (fo_acks _ dir_ok0) as Hacks. rewrite E1 in Hacks. apply Forall_cons in Hacks as [Hack _].
  destruct (fo_window _ dir_ok0) as [Hw1 Hw2].
  destruct (frame_read_up ca Hca millis _ _ _ _ _ _ _ _ Hu Hframe ltac:(lia) ltac:(lia))
    as (Hus & acks' & Hm & Hu').
  set (got := accepted (fl_r fba) _) in *. set (r := next_r (fl_r fba) got) in *.
  set (w' := on_frame_read _ _ _ _) in *. clearbody w'.
  destruct (one_more_pending _ _ _ _ _ _ Ht Hm) as (pa' & Ht' & Hp).
  set (fba' := fba <| fl_data := omap fst wba' |> <| fl_r := r |>) in *.
  assert (Hfab : flow_ok (fab <| fl_acks := (wba'.*2) ++ pb |> <| fl_s := snd x |>)).
  { apply (flow_step_ok _ _ dir_ok0). by apply FlowConfirm. }
  pose proof (flow_more_acks fba' (wab.*2) pa pa' Hfba E2 Hp) as Hfba'.
  exists (fab <| fl_acks := (wba'.*2) ++ pb |> <| fl_s := snd x |>),
    (fba' <| fl_acks := (wab.*2) ++ pa' |>), wab, wba', pa', pb.
  assert (Hconf : confirmed (user w') = take (Z.to_nat (snd x)) (sd_sent a)).
  { rewrite <- (take_between (fl_s fab)) by lia. rewrite <- dir_confirmed0, Hus.
    unfold told. by destruct got. }
  assert (Hrecv : received (user w') = take (Z.to_nat r) (sd_sent b)).
  { rewrite Hus. unfold r, told. destruct Hgot as [->|[-> Ek]]; cbn [next_r].
    - exact dir_received1.
    - destruct (Hpay _ Ek) as [H0 Hp0].
      replace (Z.to_nat (fl_r fba + 1)) with (S (Z.to_nat (fl_r fba))) by lia.
      rewrite (take_S_r _ _ _ Hp0), <- dir_received1. done. }
  split; [split|split| | | |]; try done. by exists acks'.
Qed.

Lemma side_step_connected others a b ab ba a' ab' ba' :
  side_step millis others a ba ab a' ba' ab' -> connected ca cb a b ab ba -> connected ca cb a' b ab' ba'.
Proof using Hca Hsep Haddr.
  intros Hs Hc. inversion Hs; subst.
  - by eapply send_connected.
  - pose proof (start_connected _ _ _ _ _ _ Hc H H0) as Hn. exact Hn.
  - pose proof (start_connected _ _ _ _ _ _ Hc H H0) as Hn. exact Hn.
  - by apply end_connected.
  - by apply read_connected.
  - by eapply lose_connected.
  - by apply (timer_connected a b ab' ba' _ Hc).
Qed.

End Steps.

(** ** Runs *)

Section Runs.

Context (ca cb : fd_config) (Hca : balanced ca) (Hcb : balanced cb).
Context (Hsepa : separate ca) (Hsepb : separate cb) (Haddr : c_addr ca = c_addr cb).
Context (millis_a millis_b : nat -> Z) (others_a others_b : Z -> fd_world app -> fd_world app).

Definition system_ok (y : system) : Prop :=
  connected ca cb (sys_a y) (sys_b y) (sys_ab y) (sys_ba y).

Lemma system_step_ok y y' :
  system_step millis_a millis_b others_a others_b y y' -> system_ok y -> system_ok y'.
Proof using Hca Hcb Hsepa Hsepb Haddr.
  intros [a b ab ba a' ab' ba' Hs|a b ab ba b' ab' ba' Hs] Hc.
  - by eapply (side_step_connected ca cb Hca Hsepa Haddr).
  - apply connected_sym. apply connected_sym in Hc.
    by eapply (side_step_connected cb ca Hcb Hsepb (eq_sym Haddr)).
Qed.

Lemma established_ok y : established ca cb y -> system_ok y.
Proof using Type.
  intros ((Hua & Hsa & Hta & Husa) & (Hub & Hsb & Htb & Husb) & Hab & Hba).
  exists (mk_flow 0 0 0 [] []), (mk_flow 0 0 0 [] []), [], [], [], [].
  assert (Hok : flow_ok (mk_flow 0 0 0 [] [])) by (split; cbn; try lia; constructor).
  split; [split|split| | | |]; cbn; try done; rewrite ?Hab, ?Hba, ?Hsa, ?Hsb, ?Husa, ?Husb; try done.
  - exists []. by rewrite Hsa, Hta.
  - exists []. by rewrite Hsb, Htb.
Qed.

Lemma system_run_ok y y' :
  rtc (system_step millis_a millis_b others_a others_b) y y' -> system_ok y -> system_ok y'.
Proof using Hca Hcb Hsepa Hsepb Haddr. induction 1; eauto using system_step_ok. Qed.

(** What the invariant says about the packets of one direction. *)
Definition delivered (x y : side) : Prop :=
  received (user (sd_world y)) `prefix_of` sd_sent x /\
  confirmed (user (sd_world x)) `prefix_of` received (user (sd_world y)) /\
  (length (sd_sent x) <= length (confirmed (user (sd_world x))) + 7)%nat.

Lemma direction_delivered c x y f wire chan : direction c x y f wire chan -> delivered x y.
Proof using Type.
  intros []. destruct (fo_window _ dir_ok0) as [H1 H2]. unfold delivered.
  rewrite dir_confirmed0, dir_received0. split; [by apply prefix_take|]. split.
  - exists (take (Z.to_nat (fl_r f) - Z.to_nat (fl_s f)) (drop (Z.to_nat (fl_s f)) (sd_sent x))).
    rewrite take_take_drop. f_equal. lia.
  - rewrite length_take. lia.
Qed.

End Runs.
