(* ===== verification/FdDelivery.v ===== *)
(** * Reliable delivery: the theorem and a run

    The delivery guarantee of a connection, and a simulator of the two-station
    system that executes a script of calls, losses and timer checks; with it, the
    guarantee is applied to a connection set up by the SABM/UA exchange of two
    stations made by [tiny_fd_init]. *)

From stdpp Require Import relations.
From S2P Require Import Prelude Crc HdlcLL HdlcSpec HdlcRx FdTypes FdQueue FdPeers FdIQueue FdLog.
From S2P Require Import FdService FdTx FdRx Fd FdApi FdInv FdSafe FdStation FdInit FdFifo FdSlots.
From S2P Require Import FdRun FdFlow FdConn FdMoves FdXmit FdE2E.

(** ** A simulator *)

(** What happens next at a station, with its incoming channel.  A command that is
    not possible does nothing. *)
Inductive command : Type :=
| CmdSend (address : Z) (data : list Z)
| CmdStart
| CmdEnd
| CmdRead
| CmdLose
| CmdTimer.

Section Simulator.

Context (millis : nat -> Z) (others : Z -> fd_world app -> fd_world app).

#[local] Abbreviation frames := (list (list Z)).

Definition execute (cmd : command) (x : side) (inp out : frames) : side * frames * frames :=
  let same := (x, inp, out) in
  match cmd with
  | CmdSend address data =>
      if forallb (fun b => (0 <=? b) && (b <? 256)) data then
        let '(res, w) := tiny_fd_send_packet_to millis others address data 0 (sd_world x) in
        (mk_side w (if res =? TINY_SUCCESS then sd_sent x ++ [data] else sd_sent x) (sd_tx x), inp, out)
      else same
  | CmdStart =>
      if bool_decide (sd_tx x = None) then
        match tiny_fd_get_next_frame_to_send millis app_callbacks 0 (sd_world x) with
        | (Some ref, w) =>
            (mk_side w (sd_sent x) (Some (fi_addr (ref_slot (handle w) ref))), inp,
             out ++ [frame_bytes (ref_slot (handle w) ref)])
        | (None, w) => (mk_side w (sd_sent x) None, inp, out)
        end
      else same
  | CmdEnd =>
      match sd_tx x with
      | Some header =>
          let mem := fd_mem (handle (sd_world x)) in
          (mk_side (on_frame_send header [mem header; mem (header + 1)] (sd_world x)) (sd_sent x) None,
           inp, out)
      | None => same
      end
  | CmdRead =>
      match inp with
      | frame :: inp =>
          (mk_side (on_frame_read millis app_callbacks frame (sd_world x)) (sd_sent x) (sd_tx x), inp, out)
      | [] => same
      end
  | CmdLose => (x, tail inp, out)
  | CmdTimer =>
      let w := check_idle_timeout millis app_callbacks 0 (sd_world x) in
      if bool_decide (sd_tx x = None) && bool_decide (pi_state (peer_at (handle w) 0) = TINY_FD_STATE_CONNECTED)
      then (mk_side w (sd_sent x) None, inp, out) else same
  end.

Lemma execute_step cmd x inp out :
  execute cmd x inp out = (x, inp, out) \/
  let '(x', inp', out') := execute cmd x inp out in side_step millis others x inp out x' inp' out'.
Proof using Type.
  destruct cmd as [address data| | | | |]; cbn [execute].
  - destruct (forallb _ data) eqn:Hb; [|by left]. right.
    destruct (tiny_fd_send_packet_to _ _ _ _ _ _) as [res w] eqn:E. apply (SideSend _ _ _ _ _ address data); [|exact E].
    apply Forall_forall. intros b Hin. rewrite forallb_forall in Hb.
    apply list_elem_of_In, Hb, andb_true_iff in Hin as [H1 H2].
    apply Z.leb_le in H1. apply Z.ltb_lt in H2. done.
  - destruct (bool_decide _) eqn:Ht; [|by left]. apply bool_decide_eq_true in Ht. right.
    destruct (tiny_fd_get_next_frame_to_send _ _ _ _) as [[ref|] w] eqn:E; by constructor.
  - destruct (sd_tx x) eqn:Ht; [|by left]. right. by constructor.
  - destruct inp as [|frame inp]; [by left|]. right. constructor.
  - destruct inp as [|frame inp]; [by left|]. right. apply (SideLose _ _ _ []).
  - destruct (bool_decide (sd_tx x = None)) eqn:Ht; [|by left].
    destruct (bool_decide (pi_state _ = _)) eqn:Hs; [|by left]. cbn [andb].
    apply bool_decide_eq_true in Ht, Hs. right. by econstructor.
Qed.

End Simulator.

Section Script.

Context (millis_a millis_b : nat -> Z) (others_a others_b : Z -> fd_world app -> fd_world app).

(** [true]: the first station. *)
Definition perform (y : system) (who_cmd : bool * command) : system :=
  let '(who, cmd) := who_cmd in
  if who : bool then
    let '(a, ba, ab) := execute millis_a others_a cmd (sys_a y) (sys_ba y) (sys_ab y) in
    mk_system a (sys_b y) ab ba
  else
    let '(b, ab, ba) := execute millis_b others_b cmd (sys_b y) (sys_ab y) (sys_ba y) in
    mk_system (sys_a y) b ab ba.

Definition perform_all (script : list (bool * command)) (y : system) : system :=
  fold_left perform script y.

Lemma perform_steps y m :
  rtc (system_step millis_a millis_b others_a others_b) y (perform y m).
Proof using Type.
  destruct y as [a b ab ba], m as [[] cmd]; cbn [perform sys_a sys_b sys_ab sys_ba].
  - destruct (execute_step millis_a others_a cmd a ba ab) as [->|H]; [done|].
    destruct (execute _ _ _ _ _ _) as [[a' ba'] ab']. apply rtc_once. by constructor.
  - destruct (execute_step millis_b others_b cmd b ab ba) as [->|H]; [done|].
    destruct (execute _ _ _ _ _ _) as [[b' ab'] ba']. apply rtc_once. by constructor.
Qed.

Lemma perform_all_steps script y :
  rtc (system_step millis_a millis_b others_a others_b) y (perform_all script y).
Proof using Type.
  revert y. induction script as [|m script IH]; intros y; [done|]. cbn.
  etransitivity; [apply perform_steps|apply IH].
Qed.

End Script.

(** ** Fresh connections *)

Lemma all_free_slots a q : Forall is_free (q_frames q) -> slots_ok a [] 0 q.
Proof.
  intros Hf. rewrite Forall_lookup in Hf.
  assert (Hno : forall i f, q_frames q !! i = Some f -> ~ i_slot a f).
  { intros i f Hi [Ht _]. specialize (Hf i f Hi). unfold is_free in Hf. by rewrite Hf in Ht. }
  split.
  - intros i f Hi Hs. by destruct (Hno i f Hi Hs).
  - intros i j f g Hi _ Hs. by destruct (Hno i f Hi Hs).
  - intros k Hk. cbn in Hk. lia.
Qed.

Lemma all_free_fifo q : Forall is_free (q_frames q) -> fifo q [].
Proof.
  intros Hf. split; [constructor|]. exists (rotation q). split; [done|]. unfold rotation.
  apply Forall_app. split; [by apply Forall_drop|by apply Forall_take].
Qed.

(** A connected station with empty queues and a reset window. *)
Definition is_fresh (c : fd_config) (h : tiny_fd_data_t) : bool :=
  bool_decide (pi_state (peer_at h 0) = TINY_FD_STATE_CONNECTED) &&
  (pi_addr (peer_at h 0) =? c_addr c) && (pi_srej_req_mask (peer_at h 0) =? 0) &&
  (confirm_ns (control_at h 0) =? 0) && (next_ns (control_at h 0) =? 0) &&
  (last_ns (control_at h 0) =? 0) && (next_nr (control_at h 0) =? 0) &&
  forallb (fun f => fi_type f =? TINY_FD_QUEUE_FREE)
    (q_frames (fd_i_queue h) ++ q_frames (fd_s_queue h)).

Lemma fresh_up c h : fd_wf c false h -> is_fresh c h = true -> up c false h [] 0 0 [].
Proof.
  intros Hw. unfold is_fresh. rewrite forallb_app, !andb_true_iff, !Z.eqb_eq, bool_decide_eq_true.
  intros (((((((Hs & Ha) & Hm) & H1) & H2) & H3) & H4) & Hi & Hq).
  assert (Hfree : forall l, forallb (fun f => fi_type f =? TINY_FD_QUEUE_FREE) l = true -> Forall is_free l).
  { intros l Hl. apply Forall_forall. intros f Hf. rewrite forallb_forall in Hl.
    by apply Z.eqb_eq, Hl, list_elem_of_In. }
  split; try done.
  - exists 0. by split.
  - by apply all_free_slots, Hfree.
  - exists []. split; [by apply all_free_fifo, Hfree|constructor].
Qed.

(** ** Connection establishment *)

Section Handshake.

Context (millis : nat -> Z).

(** A whole transmission: the frame and the station after it. *)
Definition transmit (w : fd_world app) : list Z * fd_world app :=
  match tiny_fd_get_next_frame_to_send millis app_callbacks 0 w with
  | (Some ref, w) =>
      let slot := ref_slot (handle w) ref in
      let mem := fd_mem (handle w) in
      (frame_bytes slot, on_frame_send (fi_addr slot) [mem (fi_addr slot); mem (fi_addr slot + 1)] w)
  | (None, w) => ([], w)
  end.

Lemma transmit_wf c w :
  1 <= c_peers c <= 255 -> fd_wf c false (handle w) -> fd_wf c false (handle (snd (transmit w))).
Proof using Type.
  intros Hc Hw. pose proof (get_next_frame_to_send_wf millis app_callbacks c 0 w Hw) as H.
  unfold transmit. destruct (tiny_fd_get_next_frame_to_send _ _ _ w) as [[ref|] w1]; [|done].
  by apply on_frame_send_wf.
Qed.

(** The first station asks for a connection, the second accepts it. *)
Definition handshake (a b : fd_world app) : fd_world app * fd_world app :=
  let '(sabm, a) := transmit (check_idle_timeout millis app_callbacks 0 a) in
  let b := on_frame_read millis app_callbacks sabm b in
  let '(ua, b) := transmit b in
  (on_frame_read millis app_callbacks ua a, b).

End Handshake.

(** Two stations made by [tiny_fd_init], connected. *)
Definition initial_world : fd_world app := mk_fd_world (snd sample_station) 0 (mk_app [] []).

Definition sample_pair : fd_world app * fd_world app :=
  handshake stopped_clock initial_world initial_world.

Definition sample_system : system :=
  mk_system (mk_side (fst sample_pair) [] None) (mk_side (snd sample_pair) [] None) [] [].

Definition sample_conf : fd_config := config_of 32 (snd sample_station).

Lemma initial_world_wf : fd_wf sample_conf false (handle initial_world).
Proof. apply (sample_station_wf 0 (mk_app [] [])). Qed.

Lemma sample_pair_wf :
  fd_wf sample_conf false (handle (fst sample_pair)) /\ fd_wf sample_conf false (handle (snd sample_pair)).
Proof.
  assert (Hpeers : 1 <= c_peers sample_conf <= 255) by by vm_compute.
  unfold sample_pair, handshake.
  pose proof (transmit_wf stopped_clock sample_conf _ Hpeers
    (check_idle_timeout_wf stopped_clock app_callbacks sample_conf 0 initial_world initial_world_wf)) as Ha.
  destruct (transmit stopped_clock (check_idle_timeout _ _ _ _)) as [sabm a] eqn:Ea. cbn [snd] in Ha.
  assert (Hsabm : sabm = [3; 63]).
  { change sabm with (fst (sabm, a)). rewrite <- Ea. by vm_compute. }
  assert (Hb1 : fd_wf sample_conf false (handle (on_frame_read stopped_clock app_callbacks sabm initial_world))).
  { apply on_frame_read_wf; [apply _|apply initial_world_wf|]. subst sabm. by repeat constructor. }
  pose proof (transmit_wf stopped_clock sample_conf _ Hpeers Hb1) as Hb.
  destruct (transmit stopped_clock (on_frame_read _ _ sabm _)) as [ua b] eqn:Eb. cbn [snd] in Hb.
  assert (Hua : ua = [1; 115]).
  { change ua with (fst (ua, b)). rewrite <- Eb. subst sabm. by vm_compute. }
  cbn [fst snd]. split; [|done]. apply on_frame_read_wf; [apply _|done|]. subst ua. by repeat constructor.
Qed.

Lemma sample_pair_fresh :
  is_fresh sample_conf (handle (fst sample_pair)) = true /\
  is_fresh sample_conf (handle (snd sample_pair)) = true /\
  user (fst sample_pair) = mk_app [] [] /\ user (snd sample_pair) = mk_app [] [].
Proof. vm_compute. auto. Qed.

Lemma sample_system_established : established sample_conf sample_conf sample_system.
Proof.
  destruct sample_pair_wf as [Ha Hb]. destruct sample_pair_fresh as (Fa & Fb & Ua & Ub).
  exact (conj (conj (fresh_up _ _ Ha Fa) (conj eq_refl (conj eq_refl Ua)))
        (conj (conj (fresh_up _ _ Hb Fb) (conj eq_refl (conj eq_refl Ub))) (conj eq_refl eq_refl))).
Qed.

Lemma sample_conf_balanced : balanced sample_conf.
Proof. by split. Qed.

Lemma sample_conf_separate : separate sample_conf.
Proof.
  assert (Hs : c_s_addrs sample_conf = [5016; 5028; 5040; 5052]) by by vm_compute.
  assert (Hi : c_i_addrs sample_conf = [4816; 4858; 4900; 4942]) by by vm_compute.
  assert (Hm : c_mtu sample_conf = 32) by by vm_compute.
  revert Hs Hi Hm. generalize sample_conf as c. intros c Hs Hi Hm. split; rewrite Hs.
  - intros [|[|[|[|i]]]] [|[|[|[|j]]]] a b Ha Hb Hne; cbn in Ha, Hb; simplify_eq; lia.
  - rewrite Hi, Hm. set_unfold. lia.
Qed.

(** ** Properties *)

(** C1: reliable delivery.  Two connected stations in balanced mode exchange packets over
    channels that keep the order of frames and may lose any of them; the
    applications queue packets, the stations send, receive and run their timers in any
    order, and neither gives the connection up.  Then at any moment, in
    both directions, what the receiver's application got is a prefix of what the
    sender accepted (no loss, no duplicate, no reordering); what the sender's
    application was told to be delivered is a prefix of what the receiver got; and
    at most seven accepted packets are unconfirmed. *)
Theorem tiny_fd_reliable_delivery (millis_a millis_b : nat -> Z)
  (others_a others_b : Z -> fd_world app -> fd_world app) (ca cb : fd_config) (y y' : system)
  (Hca : balanced ca) (Hcb : balanced cb) (Hsepa : separate ca) (Hsepb : separate cb)
  (Haddr : c_addr ca = c_addr cb) (Hy : established ca cb y)
  (Hrun : rtc (system_step millis_a millis_b others_a others_b) y y') :
  delivered (sys_a y') (sys_b y') /\ delivered (sys_b y') (sys_a y').
Proof.
  pose proof (established_ok ca cb y Hy) as Hok.
  apply (system_run_ok ca cb Hca Hcb Hsepa Hsepb Haddr _ _ _ _ _ _ Hrun) in Hok.
  destruct Hok as (fab & fba & wab & wba & pa & pb & []).
  split; by eapply direction_delivered.
Qed.

(** The first station sends two packets; the first frame is lost, the second
    rejected; both are sent again and acknowledged. *)
Definition lossy_script : list (bool * command) :=
  [(true, CmdSend 0 [1; 2; 3]); (true, CmdSend 0 [4]); (true, CmdStart); (true, CmdEnd);
   (true, CmdStart); (false, CmdLose); (true, CmdEnd); (false, CmdRead);
   (false, CmdStart); (false, CmdEnd); (true, CmdRead);
   (true, CmdStart); (true, CmdEnd); (true, CmdStart); (true, CmdEnd); (false, CmdRead); (false, CmdRead);
   (false, CmdStart); (false, CmdEnd); (false, CmdStart); (false, CmdEnd); (true, CmdRead); (true, CmdRead)].

Definition after_lossy_script : system :=
  perform_all stopped_clock stopped_clock idle_others idle_others lossy_script sample_system.

Lemma tiny_fd_reliable_delivery_witness :
  delivered (sys_a after_lossy_script) (sys_b after_lossy_script) /\
  received (user (sd_world (sys_b after_lossy_script))) = [[1; 2; 3]; [4]] /\
  confirmed (user (sd_world (sys_a after_lossy_script))) = [[1; 2; 3]; [4]].
Proof.
  destruct (tiny_fd_reliable_delivery stopped_clock stopped_clock idle_others idle_others
              sample_conf sample_conf sample_system after_lossy_script sample_conf_balanced
              sample_conf_balanced sample_conf_separate sample_conf_separate eq_refl
              sample_system_established
              (perform_all_steps stopped_clock stopped_clock idle_others idle_others lossy_script sample_system))
    as [H _].
  split; [exact H|]. by vm_compute.
Defined.
