(* ===== verification/FdProgress.v ===== *)
(** * Packets do arrive

    Two connected stations with nothing under way exchange packets one after the other, in
    either direction, over a channel that loses nothing: each packet is accepted, sent,
    received, acknowledged and reported.  [ready] says what such a station looks
    like; each operation of the exchange is followed through [numbers] and [flags], the parts of
    the handle [up] (FdConn.v) leaves open. *)

From S2P Require Import Prelude Crc HdlcLL HdlcSpec HdlcRx FdTypes FdQueue FdPeers FdIQueue FdLog.
From S2P Require Import FdService FdTx FdRx Fd FdApi FdInv FdSafe FdStation FdInit FdFifo FdSlots.
From S2P Require Import FdRun FdFlow FdConn FdMoves FdXmit FdE2E FdDelivery.

(** ** Observations *)

(** The next frame to send and the number last acknowledged. *)
Definition numbers (h : tiny_fd_data_t) : Z * Z := (next_ns (control_at h 0), pi_sent_nr (peer_at h 0)).

(** The two events the sender waits for. *)
Definition flags (h : tiny_fd_data_t) : bool * bool :=
  (nz (Z.land (pi_events (peer_at h 0)) FD_EVENT_CAN_ACCEPT_I_FRAMES),
   nz (Z.land (fd_events h) FD_EVENT_QUEUE_HAS_FREE_SLOTS)).

(** A packet can be queued at once. *)
Definition has_room (h : tiny_fd_data_t) : Prop :=
  flags h = (true, true) /\ tiny_fd_queue_has_free_slots (fd_i_queue h) = true.

(** A change of the handle that an observation does not see. *)
Class Unseen {A} (o : tiny_fd_data_t -> A) (f : tiny_fd_data_t -> tiny_fd_data_t) : Prop :=
  unseen h : o (f h) = o h.

Lemma peer_at_any f h :
  peer_at (upd_peer 0 f h) 0 = f (peer_at h 0) \/ peer_at (upd_peer 0 f h) 0 = peer_at h 0.
Proof.
  unfold peer_at, upd_peer. change (fd_peers (h <| fd_peers ::= ?g |>)) with (g (fd_peers h)).
  destruct (fd_peers h) as [|p l]; [by right|by left].
Qed.

Lemma numbers_upd_peer f h :
  (forall p, next_ns (pi_i_queue_control (f p)) = next_ns (pi_i_queue_control p) /\ pi_sent_nr (f p) = pi_sent_nr p) ->
  numbers (upd_peer 0 f h) = numbers h.
Proof.
  intros Hf. unfold numbers, control_at. destruct (peer_at_any f h) as [->| ->]; [|done].
  by destruct (Hf (peer_at h 0)) as [-> ->].
Qed.

Lemma flags_upd_peer f h :
  (forall p, nz (Z.land (pi_events (f p)) FD_EVENT_CAN_ACCEPT_I_FRAMES) =
             nz (Z.land (pi_events p) FD_EVENT_CAN_ACCEPT_I_FRAMES)) ->
  flags (upd_peer 0 f h) = flags h.
Proof.
  intros Hf. unfold flags. change (fd_events (upd_peer 0 f h)) with (fd_events h). f_equal.
  destruct (peer_at_any f h) as [->| ->]; [|done]. apply Hf.
Qed.

(** Setting and clearing bits of an event group. *)
Lemma nz_events_set bits bit v :
  Z.land bits bit = 0 -> nz (Z.land (events_set bits v) bit) = nz (Z.land v bit).
Proof. unfold nz, events_set. intros H. by rewrite Z.land_lor_distr_l, H, Z.lor_0_r. Qed.

Lemma nz_events_set_same bit v : bit <> 0 -> nz (Z.land (events_set bit v) bit) = true.
Proof.
  unfold nz, events_set. intros Hb. rewrite Z.land_lor_distr_l, Z.land_diag.
  apply negb_true_iff, Z.eqb_neq. intros E. by apply Z.lor_eq_0_iff in E as [_ E].
Qed.

Lemma nz_events_clear bits bit v :
  Z.land (Z.lxor bits EVENT_BITS_ALL) bit = bit -> nz (Z.land (events_clear bits v) bit) = nz (Z.land v bit).
Proof. unfold events_clear. intros H. by rewrite <- Z.land_assoc, H. Qed.

Lemma flags_events_set bits h :
  Z.land bits FD_EVENT_QUEUE_HAS_FREE_SLOTS = 0 -> flags (fd_events_set bits h) = flags h.
Proof.
  intros Hb. unfold flags. change (fd_events (fd_events_set bits h)) with (events_set bits (fd_events h)).
  by rewrite nz_events_set.
Qed.

Lemma flags_events_clear bits h :
  Z.land (Z.lxor bits EVENT_BITS_ALL) FD_EVENT_QUEUE_HAS_FREE_SLOTS = FD_EVENT_QUEUE_HAS_FREE_SLOTS ->
  flags (fd_events_clear bits h) = flags h.
Proof.
  intros Hb. unfold flags. change (fd_events (fd_events_clear bits h)) with (events_clear bits (fd_events h)).
  by rewrite nz_events_clear.
Qed.

#[export] Instance unseen_mutex_lock {A} (o : tiny_fd_data_t -> A) :
  Unseen o (fun h => h <| fd_mutex := true |>) -> Unseen o (fun h => h <| fd_mutex_misuse := true |>) ->
  Unseen o tiny_mutex_lock.
Proof. intros H1 H2 h. unfold tiny_mutex_lock. destruct (fd_mutex h); [apply H2|apply H1]. Qed.

#[export] Instance unseen_mutex_unlock {A} (o : tiny_fd_data_t -> A) :
  Unseen o (fun h => h <| fd_mutex := false |>) -> Unseen o (fun h => h <| fd_mutex_misuse := true |>) ->
  Unseen o tiny_mutex_unlock.
Proof. intros H1 H2 h. unfold tiny_mutex_unlock. destruct (fd_mutex h); [apply H1|apply H2]. Qed.

#[export] Instance unseen_put_u_s {A} (o : tiny_fd_data_t -> A) type data :
  (forall q, Unseen o (fun h => h <| fd_s_queue := q |>)) ->
  Unseen o (fd_events_set FD_EVENT_TX_DATA_AVAILABLE) -> Unseen o (put_u_s type data).
Proof.
  intros H1 H2 h. unfold put_u_s, __put_u_s_frame_to_tx_queue.
  destruct (tiny_fd_queue_allocate _ _ _) as [[slot|] q]; cbn [snd]; [rewrite (H2 (h <| fd_s_queue := _ |>))|]; apply H1.
Qed.

#[export] Hint Extern 2 (Unseen _ _) =>
  let h := fresh "h" in
  intros h; first [exact eq_refl | apply numbers_upd_peer; done | apply flags_upd_peer; done
    | apply flags_events_set; done | apply flags_events_clear; done] : typeclass_instances.

Lemma obs_on {US A} (o : tiny_fd_data_t -> A) f (w : fd_world US) :
  Unseen o f -> o (handle (on_handle f w)) = o (handle w).
Proof. intros Hf. apply Hf. Qed.

Lemma has_free_slots_iff types q :
  queue_ok types q ->
  tiny_fd_queue_has_free_slots q = true <->
  exists i f, q_frames q !! i = Some f /\ fi_type f = TINY_FD_QUEUE_FREE.
Proof.
  intros [Hl Hs Ha]. rewrite Forall_lookup in Hs. unfold tiny_fd_queue_has_free_slots.
  rewrite bool_decide_eq_true. split.
  - intros [i Hi]. apply get_next_Some in Hi as (f & Hf & Hm); [|done]. exists i, f. split; [done|].
    by eapply slot_matches_free_iff in Hm; [|by eapply Hs].
  - intros (i & f & Hf & Hfree). destruct (tiny_fd_queue_get_next _ _ _ _) eqn:E; [done|].
    apply get_next_None in E; [|done]. rewrite Forall_lookup in E. specialize (E i f Hf).
    apply (slot_matches_free_iff types (q_mtu q) 0 0) in Hfree; [congruence|]. by eapply Hs.
Qed.

(** A freed slot is free. *)
Lemma free_makes_room types q i f :
  queue_ok types q -> q_frames q !! i = Some f ->
  tiny_fd_queue_has_free_slots (tiny_fd_queue_free q i) = true.
Proof.
  intros Hq Hi. pose proof (free_by_header_ok types q (fi_addr f) Hq) as Hq'.
  assert (tiny_fd_queue_free q i = tiny_fd_queue_free_by_header q (fi_addr f)) as ->.
  { unfold tiny_fd_queue_free. by rewrite (slot_at_lookup _ _ _ Hi). }
  apply (has_free_slots_iff _ _ Hq'). exists i, (f <| fi_type := TINY_FD_QUEUE_FREE |>). split; [|done].
  unfold tiny_fd_queue_free_by_header. rewrite (header_index_lookup _ i f) by (try done; apply Hq).
  unfold upd_slot. cbn. by rewrite list_lookup_alter_eq, Hi.
Qed.

Section Progress.

Context (c : fd_config) (Hc : balanced c).
Context (millis : nat -> Z) (others : Z -> fd_world app -> fd_world app).

#[local] Abbreviation cbs := app_callbacks.

(** ** Queueing *)

(** A packet for the peer that fits is queued at once. *)
Lemma send_now w packets s r acks address data :
  up c false (handle w) packets s r acks -> bytes data ->
  destination (handle w) address = 0 -> Z.of_nat (length data) <= c_mtu c ->
  flags (handle w) = (true, true) -> tiny_fd_queue_has_free_slots (fd_i_queue (handle w)) = true ->
  exists w', tiny_fd_send_packet_to millis others address data 0 w = (TINY_SUCCESS, w') /\
    numbers (handle w') = numbers (handle w).
Proof using Hc.
  intros Hu Hd Hdest Hlen [= Hacc Hfree] Hroom. pose proof (up_peers c Hc _ _ _ _ _ _ Hu) as Hp.
  pose proof (wf_i _ _ _ (up_wf _ _ _ _ _ _ _ Hu)) as Hqw. pose proof (qw_ok _ _ _ _ _ Hqw) as Hq.
  unfold tiny_fd_send_packet_to. cbv zeta. rewrite Hdest. change (0 =? HDLC_INVALID_PEER_INDEX) with false.
  cbv iota. cbn [tiny_millis]. set (w0 := w <| clock ::= S |>).
  unfold tiny_fd_queue_get_mtu. change (handle w0) with (handle w). rewrite (qw_mtu _ _ _ _ _ Hqw).
  rewrite (proj2 (Z.ltb_ge _ _)) by done. unfold peer_events_wait, fd_events_wait. rewrite wait_now.
  unfold tiny_events_poll at 1. change (handle w0) with (handle w). rewrite Hacc.
  rewrite (nz_land _ _ Hacc). change (nz EVENT_BITS_CLEAR) with true. cbv iota.
  unfold time_since. cbn [tiny_millis]. set (w1 := w0 <| handle ::= _ |>).
  assert (Hnow : forall x, (if u32 x <? 0 then 0 - u32 x else 0) = 0).
  { intros x. pose proof (fits_u32 x) as Hx. unfold fits in Hx. by rewrite (proj2 (Z.ltb_ge _ _)) by lia. }
  rewrite Hnow, wait_now. unfold tiny_events_poll. set (w2 := w1 <| clock ::= S |>).
  change (fd_events (handle w2)) with (fd_events (handle w)). rewrite Hfree, (nz_land _ _ Hfree).
  change (nz EVENT_BITS_CLEAR) with true. cbv iota. set (w3 := on_handle tiny_mutex_lock _).
  assert (Hi3 : fd_i_queue (handle w3) = fd_i_queue (handle w)).
  { unfold w3, on_handle. cbn. unfold tiny_mutex_lock. by destruct (fd_mutex _). }
  assert (Hn3 : numbers (handle w3) = numbers (handle w)).
  { unfold w3. rewrite obs_on by apply _. apply (numbers_upd_peer (fun p => p <| pi_events := _ |>) (handle w)). done. }
  clearbody w3. unfold __put_i_frame_to_tx_queue. rewrite Hi3.
  pose proof (allocate_spec TINY_FD_QUEUE_I_FRAME (fd_i_queue (handle w)) TINY_FD_QUEUE_I_FRAME data Hq) as Hal.
  destruct (tiny_fd_queue_allocate _ _ data) as [[i|] q].
  - eexists. split; [reflexivity|]. rewrite obs_on by apply _. rewrite <- Hn3.
    set (h4 := fd_events_set _ _). set (w4 := if tiny_fd_queue_has_free_slots _ then _ else _).
    assert (Hn4 : numbers (handle w4) = numbers (handle w3)).
    { assert (numbers h4 = numbers (handle w3)) as <-.
      { unfold h4, upd_control. rewrite unseen. rewrite numbers_upd_peer; done. }
      unfold w4. case_match; [|done]. by rewrite obs_on by apply _. }
    rewrite <- Hn4. destruct (negb _); [|done]. by rewrite obs_on by apply _.
  - destruct Hal as (_ & [Hbig|Hfull]); [rewrite (qw_mtu _ _ _ _ _ Hqw) in Hbig; lia|]. exfalso.
    apply (has_free_slots_iff _ _ Hq) in Hroom as (i & f & Hf & Hfr). rewrite Forall_lookup in Hfull.
    by apply (Hfull i f Hf).
Qed.

(** ** Sending *)

Lemma next_i_now (w : fd_world app) packets s r acks :
  up c true (handle w) packets s r acks -> s < Z.of_nat (length packets) -> fst (numbers (handle w)) = s mod 8 ->
  exists ref w', tiny_fd_get_next_i_frame millis 0 (c_addr c) w = (Some ref, w') /\
    numbers (handle w') = ((s + 1) mod 8, r mod 8).
Proof using Hc.
  intros Hu Hs Hn. cbn in Hn. pose proof (up_peers c Hc _ _ _ _ _ _ Hu) as Hp.
  pose proof (qw_ok _ _ _ _ _ (wf_i _ _ _ (up_wf _ _ _ _ _ _ _ Hu))) as Hq.
  destruct (up_window _ _ _ _ _ _ _ Hu) as (n & Hw). pose proof (win_size _ _ _ _ _ Hw) as Hl.
  destruct (slots_find (c_addr c) packets s (fd_i_queue (handle w)) Hq ltac:(lia) s (up_slots _ _ _ _ _ _ _ Hu) ltac:(lia))
    as (i & f & Hget & _).
  unfold tiny_fd_get_next_i_frame. cbv zeta. rewrite (up_state _ _ _ _ _ _ _ Hu), (up_srej _ _ _ _ _ _ _ Hu).
  change (negb (0 =? 0)) with false. rewrite !bool_decide_false by done. cbn [orb]. cbv iota.
  unfold __i_queue_control_get_next_frame_to_send. rewrite Hn, Hget.
  set (w1 := on_handle (stamp_nr 0 i) w). set (w2 := on_handle _ w1). eexists _, _. split; [reflexivity|].
  assert (Hc2 : control_at (handle w2) 0 = __i_queue_control_move_to_next_ns (control_at (handle w) 0)).
  { unfold w2, control_at, upd_control. change (handle (on_handle ?f ?x)) with (f (handle x)). by rewrite peer_at_upd. }
  assert (Hp2 : (0 < length (fd_peers (handle w2)))%nat).
  { unfold w2. change (handle (on_handle ?f ?x)) with (f (handle x)). cbn. by rewrite length_alter. }
  clearbody w2. unfold mark_i_sent. cbn [tiny_millis]. rewrite obs_on by apply _.
  unfold numbers, control_at. change (handle (?x <| clock ::= S |>)) with (handle x).
  change (handle (on_handle ?f ?x)) with (f (handle x)). cbv beta. rewrite !peer_at_upd by done. cbn.
  change (pi_i_queue_control (peer_at ?h 0)) with (control_at h 0). rewrite Hc2. cbn.
  by rewrite Hn, (win_recv _ _ _ _ _ Hw), seq_succ_mod.
Qed.

#[export] Instance unseen_upd_ref {A} (o : tiny_fd_data_t -> A) ref f :
  (forall q, Unseen o (fun h => h <| fd_i_queue := q |>)) -> (forall q, Unseen o (fun h => h <| fd_s_queue := q |>)) ->
  Unseen o (upd_ref ref f).
Proof using Type. intros H1 H2 h. destruct ref; cbn [upd_ref]; [apply (H1 (upd_slot i f (fd_i_queue h)))|apply (H2 (upd_slot i f (fd_s_queue h)))]. Qed.

(** What follows the choice of a frame is seen by none of the observations. *)
Lemma chosen_unseen {A} (o : tiny_fd_data_t -> A) (w : fd_world app) ref :
  Unseen o (upd_ref ref (fun f => f <| fi_control ::= Z.lor HDLC_P_BIT |>)) ->
  (forall now, Unseen o (fun h => h <| fd_last_marker_ts := now |>)) ->
  (forall now, Unseen o (upd_peer 0 (fun p => p <| pi_last_sent_frame_ts := now |>))) -> Unseen o tiny_mutex_unlock ->
  let w1 := if needs_pf (handle w) 0 (fi_control (ref_slot (handle w) ref))
            then on_handle (upd_ref ref (fun f => f <| fi_control ::= Z.lor HDLC_P_BIT |>)) w else w in
  let '(now, w2) := tiny_millis millis w1 in
  let w2 := on_handle (fun h => h <| fd_last_marker_ts := now |>) w2 in
  let '(now, w3) := tiny_millis millis w2 in
  let w3 := on_handle (upd_peer 0 (fun p => p <| pi_last_sent_frame_ts := now |>)) w3 in
  let w4 := on_handle tiny_mutex_unlock (__tiny_fd_log_frame cbs TINY_FD_FRAME_DIRECTION_OUT
              (frame_bytes (ref_slot (handle w3) ref)) w3) in
  o (handle w4) = o (handle w).
Proof using Type.
  intros H1 H2 H3 H4. cbv zeta. cbn [tiny_millis]. set (w3 := on_handle (upd_peer 0 _) _).
  assert (__tiny_fd_log_frame cbs TINY_FD_FRAME_DIRECTION_OUT (frame_bytes (ref_slot (handle w3) ref)) w3 = w3) as -> by done.
  rewrite obs_on by done. unfold w3. rewrite obs_on by done.
  change (handle (?x <| clock ::= S |>)) with (handle x). rewrite obs_on by done.
  change (handle (?x <| clock ::= S |>)) with (handle x). case_match; [by rewrite obs_on|done].
Qed.

(** With a packet that was not sent, it is sent; *)
Lemma next_frame_now (w : fd_world app) packets s r :
  up c false (handle w) packets s r [] -> s < Z.of_nat (length packets) -> fst (numbers (handle w)) = s mod 8 ->
  exists ref w', tiny_fd_get_next_frame_to_send millis cbs 0 w = (Some ref, w') /\
    numbers (handle w') = ((s + 1) mod 8, r mod 8).
Proof using Hc.
  intros Hu Hs Hn. unfold tiny_fd_get_next_frame_to_send. set (w0 := on_handle tiny_mutex_lock w).
  assert (Hu0 : up c true (handle w0) packets s r []) by by apply up_lock.
  assert (Hn0 : fst (numbers (handle w0)) = s mod 8) by (unfold w0; by rewrite obs_on by apply _).
  clearbody w0. rewrite (up_address c Hc _ _ _ _ _ _ Hu0), (next_no_ack c Hc _ _ _ _ Hu0). cbv beta iota zeta.
  set (w1 := w0 <| handle := handle w0 |>).
  destruct (next_i_now w1 packets s r [] Hu0 Hs Hn0) as (ref & w2 & E & Hn2). rewrite E.
  pose proof (chosen_unseen numbers w2 ref _ _ _ _) as H. revert H. cbv zeta.
  destruct (tiny_millis millis _) as [now w3]. destruct (tiny_millis millis _) as [now' w4].
  intros H. eexists _, _. split; [reflexivity|]. by rewrite H.
Qed.

Lemma frame_send_unseen {A} (o : tiny_fd_data_t -> A) (w : fd_world app) header data :
  fd_mode (handle w) = TINY_FD_MODE_ABM -> Unseen o tiny_mutex_lock -> Unseen o tiny_mutex_unlock ->
  (forall q, Unseen o (fun h => h <| fd_s_queue := q |>)) -> Unseen o (fd_events_clear FD_EVENT_TX_SENDING) ->
  o (handle (on_frame_send header data w)) = o (handle w).
Proof using Type.
  intros Hm Hl Hu Hs Hev. unfold on_frame_send. destruct (_ =? HDLC_INVALID_PEER_INDEX); [done|].
  set (w0 := on_handle tiny_mutex_lock w).
  assert (H0 : fd_mode (handle w0) = TINY_FD_MODE_ABM /\ o (handle w0) = o (handle w)).
  { split; [|unfold w0; by rewrite obs_on]. unfold w0, on_handle. cbn. unfold tiny_mutex_lock. by destruct (fd_mutex _). }
  destruct H0 as [Hm0 Hn0]. clearbody w0.
  set (w1 := if Z.land _ HDLC_I_FRAME_MASK =? _ then _ else _).
  assert (H1 : fd_mode (handle w1) = TINY_FD_MODE_ABM /\ o (handle w1) = o (handle w0)).
  { unfold w1. repeat case_match; try done; split; try done; apply (Hs _ (handle w0)). }
  destruct H1 as [Hm1 Hn1]. clearbody w1. rewrite Hm1. change (TINY_FD_MODE_ABM =? TINY_FD_MODE_NRM) with false.
  cbv iota. rewrite !obs_on by done. by rewrite Hn1, Hn0.
Qed.

(** the whole transmission of the only packet under way. *)
Lemma transmit_packet (w : fd_world app) packets s r payload :
  separate c -> up c false (handle w) packets s r [] -> packets !! Z.to_nat s = Some payload ->
  Z.of_nat (length packets) = s + 1 -> fst (numbers (handle w)) = s mod 8 ->
  let '(frame, w') := transmit millis w in
  user w' = user w /\ up c false (handle w') packets s r [] /\ i_frame c s r payload frame /\
  numbers (handle w') = ((s + 1) mod 8, r mod 8).
Proof using Hc.
  intros Hsep Hu Hpay Hlen Hn. unfold transmit.
  destruct (next_frame_now w packets s r Hu ltac:(lia) Hn) as (ref & w1 & E & Hn1).
  pose proof (next_frame_up c Hc millis w packets s r [] Hu) as H. rewrite E in H. rewrite E.
  destruct H as (Hus & Hu1 & k & payload' & Hk & Hpay' & Hf & Ha). cbv zeta.
  assert (k = s) as -> by lia. rewrite Hpay in Hpay'. injection Hpay' as <-.
  pose proof (i_header_apart c Hsep _ _ _ (up_wf _ _ _ _ _ _ _ Hu1) Ha) as Hh.
  destruct (sent_i_up c Hc w1 packets s r [] (fi_addr (ref_slot (handle w1) ref))
              [fd_mem (handle w1) (fi_addr (ref_slot (handle w1) ref));
               fd_mem (handle w1) (fi_addr (ref_slot (handle w1) ref) + 1)] Hu1 Hh) as [Hus2 Hu2].
  split; [by rewrite Hus2|]. split; [done|]. split; [done|].
  rewrite frame_send_unseen by (try apply _; rewrite (wf_mode _ _ _ (up_wf _ _ _ _ _ _ _ Hu1)); apply Hc). done.
Qed.

(** ** Acknowledging *)

(** The frame that is next in the service queue. *)
Definition next_service (h : tiny_fd_data_t) : list Z :=
  frame_bytes (slot_at (fd_s_queue h) (q_lookup_index (fd_s_queue h))).

Definition rr_frame (r : Z) : list Z := [c_addr c; s_control HDLC_S_FRAME_TYPE_RR (r mod 8)].

(** An acknowledgement put into an empty service queue. *)
Lemma put_rr_now b h packets s r :
  up c b h packets s r [] ->
  exists hd, let h' := put_u_s TINY_FD_QUEUE_S_FRAME (rr_frame r) h in
    up c b h' packets s r [(hd, r)] /\ next_service h' = rr_frame r.
Proof using Hc.
  intros Hu. cbv zeta. pose proof (s_control_ack HDLC_S_FRAME_TYPE_RR 0 r (or_introl eq_refl) (or_introl eq_refl)) as Hack.
  change (Z.lor HDLC_S_FRAME_TYPE_RR 0) with HDLC_S_FRAME_TYPE_RR in Hack.
  assert (Hwf : fd_wf c b (put_u_s TINY_FD_QUEUE_S_FRAME (rr_frame r) h)) by (apply put_s_wf; [apply Hu|apply Hc|apply (ext_address c Hc), Hc]).
  pose proof (wf_s _ _ _ (up_wf _ _ _ _ _ _ _ Hu)) as [Hok Hmtu _ _].
  destruct (up_fifo _ _ _ _ _ _ _ Hu) as (busy & Hfifo & Hbusy). inversion Hbusy; subst busy. clear Hbusy.
  pose proof (fifo_allocate _ _ Hok [] TINY_FD_QUEUE_S_FRAME [] (c_addr c)
    (s_control HDLC_S_FRAME_TYPE_RR (r mod 8)) Hfifo ltac:(cbn; lia) ltac:(done)) as Hal. cbv zeta in Hal.
  revert Hwf. unfold rr_frame, put_u_s, __put_u_s_frame_to_tx_queue. cbn [nth drop].
  destruct (tiny_fd_queue_allocate (fd_s_queue h) TINY_FD_QUEUE_S_FRAME []) as [[i|] q']; cbn [snd].
  - intros Hwf. destruct Hal as (f & Hf & Hfifo'). lazymatch type of Hfifo' with fifo _ ([] ++ [?x]) => set (slot := x) in Hfifo' end. change ([] ++ [slot]) with [slot] in Hfifo'.
    set (q := upd_slot i _ q') in *. exists (fi_addr f). destruct Hu.
    split; [split; try done; exists [slot]; split; [exact Hfifo'|]|].
    + constructor; [|constructor]. by repeat split; try apply Hc; apply Hack.
    + unfold next_service. change (fd_s_queue (fd_events_set _ ?x)) with (fd_s_queue x). cbn [fd_s_queue].
      pose proof (wf_s _ _ _ Hwf) as [Hok' _ _ _].
      destruct (fifo_next _ q Hok' [slot] (c_addr c) Hfifo') as [_ Hs]; [|done|].
      { constructor; [|constructor]. unfold same_address. cbn. by rewrite Z.eqb_refl. }
      replace (fd_s_queue _) with q by done.
      rewrite <- (Z2Nat.id (q_lookup_index q)) by apply Hok'. by rewrite (slot_at_lookup _ _ _ Hs).
  - intros _. destruct Hal as [_ Hfull]. cbn in Hfull. destruct Hok as [Hl _ _]. lia.
Qed.

(** ** Receiving the packet *)

Lemma room_unseen f h :
  Unseen flags f -> (forall x, fd_i_queue (f x) = fd_i_queue x) -> has_room h -> has_room (f h).
Proof using Type. intros Hf Hi [H1 H2]. split; [by rewrite Hf|by rewrite Hi]. Qed.

Lemma room_can_accept h : has_room h -> (0 < length (fd_peers h))%nat ->
  has_room (peer_events_set 0 FD_EVENT_CAN_ACCEPT_I_FRAMES h).
Proof using Type.
  intros [[= H1 H2] H3] Hp. split; [|done]. unfold flags, peer_events_set.
  rewrite peer_at_upd by done. cbn [pi_events]. f_equal; [|done].
  change (pi_events (?p <| pi_events ::= ?g |>)) with (g (pi_events p)). by rewrite nz_events_set_same.
Qed.

(** An acknowledgement of nothing new. *)
Lemma confirm_none_new (w : fd_world app) packets s r acks :
  up c true (handle w) packets s r acks -> s = Z.of_nat (length packets) ->
  __confirm_sent_frames cbs 0 (s mod 8) w = on_handle (peer_events_set 0 FD_EVENT_CAN_ACCEPT_I_FRAMES) w.
Proof using Type.
  intros Hu Hs. destruct (up_window _ _ _ _ _ _ _ Hu) as (n & Hw).
  unfold __confirm_sent_frames, __i_queue_control_confirm_sent_frames. cbn [confirm_loop].
  rewrite (win_confirm _ _ _ _ _ Hw), Z.eqb_refl. cbn [negb]. rewrite (window_tx_full _ _ _ _ _ Hw).
  by rewrite (proj2 (Z.eqb_neq _ _)) by lia.
Qed.

Lemma can_accept_up b h packets s r acks :
  up c b h packets s r acks -> Z.of_nat (length packets) < s + 7 ->
  up c b (peer_events_set 0 FD_EVENT_CAN_ACCEPT_I_FRAMES h) packets s r acks.
Proof using Hc. intros Hu Hl. by apply (up_upd_peer c Hc); [done|done| |intros []]. Qed.

(** A new packet is acknowledged at once when there is nothing to send. *)
Lemma confirm_with_rr_now b h packets s r :
  up c b h packets s (r + 1) [] -> s = Z.of_nat (length packets) -> numbers h = (s mod 8, r mod 8) ->
  exists hd, let h' := confirm_with_rr 0 h in
    up c b h' packets s (r + 1) [(hd, r + 1)] /\ next_service h' = rr_frame (r + 1) /\
    numbers h' = (s mod 8, r mod 8) /\ (has_room h -> has_room h').
Proof using Hc.
  intros Hu Hs Hn. destruct (up_window _ _ _ _ _ _ _ Hu) as (n & Hw). pose proof Hn as Hn'.
  injection Hn as Hns Hnr. unfold confirm_with_rr, __all_frames_are_sent, __i_queue_control_get_next_frame_to_receive.
  rewrite (win_last _ _ _ _ _ Hw), (win_recv _ _ _ _ _ Hw), Hns, Hnr, <- Hs, Z.eqb_refl.
  assert (r mod 8 <> (r + 1) mod 8) as Hne.
  { pose proof (Z.mod_pos_bound r 8 ltac:(lia)). rewrite <- Z.add_mod_idemp_l by lia.
    destruct (decide (r mod 8 = 7)) as [->|]; [done|]. rewrite (Z.mod_small (_ + 1)) by lia. lia. }
  rewrite (proj2 (Z.eqb_neq _ _)) by done. cbn [negb andb]. rewrite (up_address c Hc _ _ _ _ _ _ Hu).
  destruct (put_rr_now b h packets s (r + 1) Hu) as (hd & Hu' & Hsv). exists hd. split; [exact Hu'|].
  split; [exact Hsv|]. split; [|apply room_unseen; [apply _|]].
  - rewrite <- Hn'. apply (unseen (o := numbers)).
  - intros x. unfold put_u_s, __put_u_s_frame_to_tx_queue. by destruct (tiny_fd_queue_allocate _ _ _) as [[]].
Qed.

(** A frame of the peer is dispatched on its kind, under the mutex. *)
Lemma read_dispatch (w : fd_world app) packets s r acks content a frame :
  up c false (handle w) packets s r acks -> data_frame c content a frame ->
  exists w1, user w1 = user w /\ up c true (handle w1) packets s r acks /\
    numbers (handle w1) = numbers (handle w) /\ (has_room (handle w) -> has_room (handle w1)) /\
    fd_i_queue (handle w1) = fd_i_queue (handle w) /\
    let w2 := match content with
              | Some _ => snd (__on_i_frame_read cbs 0 frame w1)
              | None => snd (__on_s_frame_read cbs 0 frame w1)
              end in
    fd_mode (handle w2) = TINY_FD_MODE_ABM ->
    on_frame_read millis cbs frame w = on_handle tiny_mutex_unlock w2.
Proof using Hc.
  intros Hu Hf. destruct (frame_address_ok c _ _ _ Hf) as [Hlen Haddr].
  unfold on_frame_read. rewrite (proj2 (Z.ltb_ge _ _)) by lia.
  assert (__tiny_fd_log_frame cbs TINY_FD_FRAME_DIRECTION_IN frame w = w) as ->.
  { unfold __tiny_fd_log_frame. by destruct frame as [|? [|? ?]]. }
  rewrite (address_up c Hc _ _ _ _ _ _ _ Hu Haddr). change (0 =? HDLC_INVALID_PEER_INDEX) with false.
  cbv iota. cbn [tiny_millis]. set (w0 := on_handle tiny_mutex_lock w). set (w1 := on_handle (upd_peer 0 _) _).
  assert (Hi0 : fd_i_queue (handle w0) = fd_i_queue (handle w)).
  { unfold w0, on_handle. cbn. unfold tiny_mutex_lock. by destruct (fd_mutex _). }
  assert (Hu1 : up c true (handle w1) packets s r acks).
  { unfold w1. change (handle (on_handle ?f ?x)) with (f (handle x)).
    apply up_lock in Hu. apply (up_upd_peer c Hc); [done|done|by apply Hu|by intros []]. }
  exists w1. split; [done|]. split; [done|]. split; [|split; [|split]].
  - unfold w1. rewrite obs_on by apply _. change (handle (?x <| clock ::= S |>)) with (handle x). unfold w0.
    by rewrite obs_on by apply _.
  - intros [H1 H2]. split; [|by rewrite <- Hi0 in H2]. rewrite <- H1.
    unfold w1. rewrite obs_on by apply _. change (handle (?x <| clock ::= S |>)) with (handle x). unfold w0.
    by rewrite obs_on by apply _.
  - exact Hi0.
  - cbv zeta. rewrite (up_state _ _ _ _ _ _ _ Hu1).
    rewrite (bool_decide_true (TINY_FD_STATE_CONNECTED = TINY_FD_STATE_CONNECTED)) by done. cbn [negb andb].
    destruct content as [[k payload]|]; destruct Hf as (address & control & -> & _ & Hm & _);
      change (frame_control (address :: control :: _)) with control.
    + destruct (i_control_kind control Hm) as [Hku _]. change HDLC_U_FRAME_BITS with HDLC_U_FRAME_MASK in Hku.
      rewrite Hku, Hm. change (HDLC_I_FRAME_BITS =? HDLC_I_FRAME_BITS) with true. cbv iota. by intros ->.
    + destruct (s_control_kind control Hm) as [Hku Hki]. change HDLC_U_FRAME_BITS with HDLC_U_FRAME_MASK in Hku.
      rewrite Hku, Hki, Hm. change (HDLC_S_FRAME_BITS =? HDLC_S_FRAME_BITS) with true. cbv iota. by intros ->.
Qed.

(** The expected packet, acknowledging nothing new, is passed to the application and its
    acknowledgement waits. *)
Lemma i_frame_read_now (w : fd_world app) packets s r payload frame :
  up c true (handle w) packets s r [] -> s = Z.of_nat (length packets) ->
  numbers (handle w) = (s mod 8, r mod 8) -> has_room (handle w) -> i_frame c r s payload frame ->
  exists hd, let w' := snd (__on_i_frame_read cbs 0 frame w) in
    user w' = app_receive payload (user w) /\ up c true (handle w') packets s (r + 1) [(hd, r + 1)] /\
    next_service (handle w') = rr_frame (r + 1) /\ numbers (handle w') = (s mod 8, r mod 8) /\
    has_room (handle w').
Proof using Hc.
  intros Hu Hs Hn [Hfl Hfr] (address & control & -> & _ & _ & Hns & Hnr).
  unfold __on_i_frame_read, frame_control. cbn [nth drop]. rewrite Hns, Hnr.
  pose proof (check_received_up c Hc (handle w) packets s r [] r Hu) as Hchk.
  revert Hchk. unfold __check_received_frame, __i_queue_control_get_next_frame_to_receive.
  destruct (up_window _ _ _ _ _ _ _ Hu) as (n & Hw). rewrite (win_recv _ _ _ _ _ Hw), !Z.eqb_refl.
  set (h2 := upd_peer 0 _ _). intros [_ Hu2]. set (w2 := w <| handle := h2 |>).
  assert (Hn2 : numbers h2 = (s mod 8, r mod 8)).
  { rewrite <- Hn. unfold h2, upd_control. by rewrite !numbers_upd_peer by done. }
  assert (Hr2 : has_room h2).
  { split; [rewrite <- Hfl; unfold h2, upd_control; by rewrite !flags_upd_peer by done|exact Hfr]. }
  rewrite (confirm_none_new w2 packets s (r + 1) [] Hu2 Hs). set (w3 := on_handle _ w2).
  change (TINY_SUCCESS =? TINY_SUCCESS) with true. cbv iota. cbn [on_read_cb cbs snd].
  assert (Hu3 : up c true (handle w3) packets s (r + 1) []) by (apply can_accept_up; [exact Hu2|lia]).
  assert (Hn3 : numbers (handle w3) = (s mod 8, r mod 8)) by (unfold w3; by rewrite obs_on by apply _).
  assert (Hr3 : has_room (handle w3)) by (apply room_can_accept; [exact Hr2|exact (up_peers c Hc _ _ _ _ _ _ Hu2)]).
  rewrite (unlocked_user c _ (app_receive payload) w3 (up_wf _ _ _ _ _ _ _ Hu3)) by done.
  destruct (confirm_with_rr_now true (handle w3) packets s r Hu3 Hs Hn3) as (hd & Hu4 & Hsv & Hn4 & Hr4).
  exists hd. split; [done|]. split; [exact Hu4|]. split; [exact Hsv|]. split; [exact Hn4|exact (Hr4 Hr3)].
Qed.

(** What [numbers], [has_room] and [next_service] say survives the release of the mutex. *)
Lemma unlock_same {A} (o : tiny_fd_data_t -> A) (w : fd_world app) :
  Unseen o tiny_mutex_unlock -> o (handle (on_handle tiny_mutex_unlock w)) = o (handle w).
Proof using Type. apply obs_on. Qed.

Lemma unlock_room (w : fd_world app) : has_room (handle w) -> has_room (handle (on_handle tiny_mutex_unlock w)).
Proof using Type.
  change (handle (on_handle ?f ?x)) with (f (handle x)). apply room_unseen; [apply _|].
  intros x. unfold tiny_mutex_unlock. by destruct (fd_mutex x).
Qed.

(** The whole reading of the only packet under way. *)
Lemma read_packet (w : fd_world app) packets s r payload frame :
  up c false (handle w) packets s r [] -> s = Z.of_nat (length packets) ->
  numbers (handle w) = (s mod 8, r mod 8) -> has_room (handle w) -> i_frame c r s payload frame ->
  exists hd, let w' := on_frame_read millis cbs frame w in
    user w' = app_receive payload (user w) /\ up c false (handle w') packets s (r + 1) [(hd, r + 1)] /\
    next_service (handle w') = rr_frame (r + 1) /\ numbers (handle w') = (s mod 8, r mod 8) /\
    has_room (handle w').
Proof using Hc.
  intros Hu Hs Hn Hroom Hf.
  destruct (read_dispatch w packets s r [] (Some (r, payload)) s frame Hu Hf) as (w1 & Hus1 & Hu1 & Hn1 & Hr1 & _ & Hd).
  rewrite Hn in Hn1. destruct (i_frame_read_now w1 packets s r payload frame Hu1 Hs Hn1 (Hr1 Hroom) Hf)
    as (hd & Hus2 & Hu2 & Hsv & Hn2 & Hr2).
  cbv zeta in *. exists hd. rewrite Hd by (rewrite (wf_mode _ _ _ (up_wf _ _ _ _ _ _ _ Hu2)); apply Hc).
  split; [by rewrite <- Hus1|]. split; [by apply up_unlock|]. split; [|split].
  - by rewrite unlock_same by apply _.
  - by rewrite unlock_same by apply _.
  - by apply unlock_room.
Qed.

(** ** Sending the acknowledgement *)

(** The frame that is chosen is the one that waits. *)
Lemma next_service_now h packets s r hd a acks :
  up c true h packets s r ((hd, a) :: acks) ->
  exists i, tiny_fd_get_next_s_u_frame_to_send h 0 (c_addr c) =
      (Some (InSQueue i), upd_peer 0 (fun p => p <| pi_sent_nr := a mod 8 |>) h) /\
    let slot := slot_at (fd_s_queue h) (Z.of_nat i) in
    frame_bytes slot = next_service h /\ fi_addr slot = hd /\
    (Z.land (fi_control slot) HDLC_U_FRAME_MASK =? HDLC_U_FRAME_BITS) = false.
Proof using Hc.
  intros Hu. destruct (up_fifo _ _ _ _ _ _ _ Hu) as (busy & Hf & Hb).
  pose proof (wf_s _ _ _ (up_wf _ _ _ _ _ _ _ Hu)) as [Hok _ _ _].
  assert (Hsame : Forall (fun f => same_address (c_addr c) (fi_address f) = true) busy).
  { eapply Forall2_Forall_r; [exact Hb|]. apply Forall_forall.
    intros x _ f (_ & _ & _ & Ha & _). by eapply same_address_up. }
  destruct (fifo_next _ _ Hok busy (c_addr c) Hf Hsame eq_refl) as [Hg Hs].
  inversion Hb as [|x f l busy' Hx Hb']; subst. destruct Hx as (_ & _ & Had & _ & Hm & Hnr & _).
  exists (Z.to_nat (q_lookup_index (fd_s_queue h))). unfold tiny_fd_get_next_s_u_frame_to_send, next_service.
  rewrite Hg, (slot_at_lookup _ _ _ Hs), Hm, Hnr. split; [done|]. cbv zeta. split; [|split].
  - by rewrite <- (slot_at_lookup _ _ _ Hs), Z2Nat.id by apply Hok.
  - exact Had.
  - by apply s_control_kind.
Qed.

Lemma room_same h h' :
  flags h' = flags h -> fd_i_queue h' = fd_i_queue h -> has_room h -> has_room h'.
Proof using Type. intros Hf Hi [H1 H2]. split; [by rewrite Hf|by rewrite Hi]. Qed.

(** The choice of the acknowledgement; *)
Lemma next_frame_ack (w : fd_world app) packets s r hd a :
  up c false (handle w) packets s r [(hd, a)] -> fst (numbers (handle w)) = s mod 8 -> has_room (handle w) ->
  exists ref w', tiny_fd_get_next_frame_to_send millis cbs 0 w = (Some ref, w') /\
    user w' = user w /\ up c false (handle w') packets s r [(hd, a)] /\
    frame_bytes (ref_slot (handle w') ref) = next_service (handle w) /\ fi_addr (ref_slot (handle w') ref) = hd /\
    numbers (handle w') = (s mod 8, a mod 8) /\ has_room (handle w').
Proof using Hc.
  intros Hu Hn Hroom. unfold tiny_fd_get_next_frame_to_send. set (w0 := on_handle tiny_mutex_lock w).
  assert (Hu0 : up c true (handle w0) packets s r [(hd, a)]) by by apply up_lock.
  assert (Hn0 : fst (numbers (handle w0)) = s mod 8) by (unfold w0; by rewrite obs_on by apply _).
  assert (Hs0 : next_service (handle w0) = next_service (handle w)) by (unfold w0; by rewrite obs_on by apply _).
  assert (Hr0 : has_room (handle w0)) by (apply (room_same (handle w)); [apply obs_on, _|apply obs_on, _|done]).
  assert (Hus0 : user w0 = user w) by done. clearbody w0. rewrite (up_address c Hc _ _ _ _ _ _ Hu0).
  destruct (next_service_now _ _ _ _ _ _ _ Hu0) as (i & -> & Hb & Ha & Hkind). cbv beta iota zeta.
  set (w1 := w0 <| handle := _ |>).
  assert (Hu1 : up c true (handle w1) packets s r [(hd, a)]).
  { apply (up_upd_peer c Hc); [done|done|by apply Hu0|]. intros []. split; try done. by apply Z.mod_pos_bound. }
  assert (Hn1 : numbers (handle w1) = (s mod 8, a mod 8)).
  { rewrite <- Hn0. change (handle w1) with (upd_peer 0 (fun p => p <| pi_sent_nr := a mod 8 |>) (handle w0)).
    unfold numbers, control_at. by rewrite peer_at_upd by exact (up_peers c Hc _ _ _ _ _ _ Hu0). }
  assert (Hr1 : has_room (handle w1)) by (apply (room_same (handle w0)); [by apply flags_upd_peer|done|done]).
  pose proof (chosen_up c Hc millis w1 packets s r _ (InSQueue i) Hu1 Hkind) as H.
  pose proof (chosen_unseen numbers w1 (InSQueue i) _ _ _ _) as Hcn.
  pose proof (chosen_unseen flags w1 (InSQueue i) _ _ _ _) as Hcf.
  pose proof (chosen_unseen fd_i_queue w1 (InSQueue i) _ _ _ _) as Hci.
  revert H Hcn Hcf Hci. cbv zeta. destruct (tiny_millis millis _) as [now w3]. destruct (tiny_millis millis _) as [now' w4].
  intros (Hus & Hu4 & Href) Hcn Hcf Hci. eexists _, _. split; [reflexivity|].
  split; [by rewrite Hus, <- Hus0|]. split; [exact Hu4|]. rewrite Href.
  change (ref_slot (handle w1) (InSQueue i)) with (slot_at (fd_s_queue (handle w0)) (Z.of_nat i)).
  split; [by rewrite Hb|]. split; [exact Ha|]. split; [by rewrite Hcn|]. by apply (room_same (handle w1)).
Qed.

(** the whole transmission: the packet it answers counts as acknowledged. *)
Lemma transmit_ack (w : fd_world app) packets s r hd a :
  separate c -> up c false (handle w) packets s r [(hd, a)] -> fst (numbers (handle w)) = s mod 8 ->
  has_room (handle w) ->
  let '(frame, w') := transmit millis w in
  user w' = user w /\ up c false (handle w') packets s r [] /\ frame = next_service (handle w) /\
  numbers (handle w') = (s mod 8, a mod 8) /\ has_room (handle w').
Proof using Hc.
  intros Hsep Hu Hn Hroom. unfold transmit.
  destruct (next_frame_ack w packets s r hd a Hu Hn Hroom) as (ref & w1 & -> & Hus & Hu1 & Hb & Hh & Hn1 & Hr1).
  cbv zeta. rewrite Hh. destruct (end_ack c Hc Hsep w1 packets s r hd a [] Hu1) as [Hus2 Hu2].
  assert (Hm : fd_mode (handle w1) = TINY_FD_MODE_ABM) by (rewrite (wf_mode _ _ _ (up_wf _ _ _ _ _ _ _ Hu1)); apply Hc).
  split; [by rewrite Hus2|]. split; [exact Hu2|]. split; [exact Hb|]. split.
  - by rewrite frame_send_unseen by (done || apply _).
  - apply (room_same (handle w1)); [by rewrite frame_send_unseen by (done || apply _)..|done].
Qed.

(** ** Reading the acknowledgement *)

#[local] Abbreviation confirm := (confirm_one 0 (__on_frame_confirmed cbs 0)).

(** Confirming a packet makes room in the queue. *)
Lemma confirm_room (w : fd_world app) packets s r acks :
  up c true (handle w) packets s r acks -> s < Z.of_nat (length packets) ->
  numbers (handle (confirm w)) = numbers (handle w) /\
  nz (Z.land (fd_events (handle (confirm w))) FD_EVENT_QUEUE_HAS_FREE_SLOTS) = true /\
  tiny_fd_queue_has_free_slots (fd_i_queue (handle (confirm w))) = true.
Proof using Hc.
  intros Hu Hs.
  pose proof (up_wf _ _ _ _ _ _ _ Hu) as Hwf. pose proof (qw_ok _ _ _ _ _ (wf_i _ _ _ Hwf)) as Hq.
  pose proof (up_bounds _ _ _ _ _ _ _ Hu) as Hb. pose proof (up_start _ _ _ _ _ _ _ Hu) as H0.
  destruct (slots_find (c_addr c) packets s _ Hq Hb s (up_slots _ _ _ _ _ _ _ Hu) ltac:(lia)) as (i & f & Hget & Hi & _).
  destruct (up_window _ _ _ _ _ _ _ Hu) as (n & Hw). unfold confirm_one, __on_frame_confirmed.
  rewrite (win_confirm _ _ _ _ _ Hw), (up_address c Hc _ _ _ _ _ _ Hu), Hget. cbn [on_send_cb app_callbacks].
  rewrite (unlocked_user c _ (app_confirm (slot_payload f)) w Hwf) by (intros w' ->; by rewrite (slot_at_lookup _ _ _ Hi)).
  set (w1 := w <| user ::= app_confirm (slot_payload f) |>).
  set (w2 := on_handle (fun h => h <| fd_i_queue ::= fun q => tiny_fd_queue_free q i |>) w1).
  set (w3 := if tiny_fd_queue_has_free_slots (fd_i_queue (handle w2)) then _ else w2). cbn [snd].
  set (w4 := on_handle (upd_peer 0 _) w3).
  change (handle (w4 <| handle ::= ?g |>)) with (g (handle w4)). cbv beta.
  change (fd_i_queue (upd_control 0 ?g (handle w4))) with (fd_i_queue (handle w3)).
  change (fd_events (upd_control 0 ?g (handle w4))) with (fd_events (handle w3)).
  assert (Hi3 : fd_i_queue (handle w3) = fd_i_queue (handle w2)) by (unfold w3; by case_match).
  assert (Hfree : tiny_fd_queue_has_free_slots (fd_i_queue (handle w2)) = true) by exact (free_makes_room _ _ _ _ Hq Hi).
  assert (w3 = on_handle (fd_events_set FD_EVENT_QUEUE_HAS_FREE_SLOTS) w2) as -> by (unfold w3; by rewrite Hfree).
  split; [|split; [by apply nz_events_set_same|done]].
  unfold upd_control. rewrite numbers_upd_peer by done. unfold w4. rewrite obs_on by apply _.
  by rewrite obs_on by apply _.
Qed.

Lemma confirm_last (w : fd_world app) packets s r acks :
  up c true (handle w) packets s r acks -> Z.of_nat (length packets) = s + 1 ->
  let w' := __confirm_sent_frames cbs 0 ((s + 1) mod 8) w in
  numbers (handle w') = numbers (handle w) /\ has_room (handle w').
Proof using Hc.
  intros Hu Hl. cbv zeta. destruct (up_window _ _ _ _ _ _ _ Hu) as (n & Hw).
  destruct (confirm_room w packets s r acks Hu ltac:(lia)) as (Hn & Hev & Hfree).
  destruct (confirm_up c Hc w packets s r acks Hu ltac:(lia)) as (d & _ & _ & Hu').
  destruct (confirm_loop_spec 0 (__on_frame_confirmed app_callbacks 0) 9 ((s + 1) mod 8) w s n
              (Z.of_nat (length packets)) r)
    as [Hrun _]; [exact (up_peers c Hc _ _ _ _ _ _ Hu)|exact Hw|lia|by apply Z.mod_pos_bound|].
  assert (Hmod : ((s + 1) mod 8 - s) mod 8 = 1).
  { rewrite Zminus_mod_idemp_l. by replace (s + 1 - s) with 1 by lia. }
  rewrite Hmod, (proj2 (Z.leb_le _ _)) in Hrun by lia.
  unfold __confirm_sent_frames, __i_queue_control_confirm_sent_frames. rewrite Hrun.
  replace (Z.to_nat (s + 1 - s)) with 1%nat by lia. change (Nat.iter 1 confirm w) with (confirm w). destruct (up_window _ _ _ _ _ _ _ Hu') as (n' & Hw2).
  rewrite (window_tx_full _ _ _ _ _ Hw2), (proj2 (Z.eqb_neq _ _)) by lia. cbn [negb].
  split; [by rewrite obs_on by apply _|].
  split; [|done]. unfold flags, peer_events_set. change (handle (on_handle ?f ?x)) with (f (handle x)).
  rewrite peer_at_upd by exact (up_peers c Hc _ _ _ _ _ _ Hu').
  change (pi_events (?p <| pi_events ::= ?g |>)) with (g (pi_events p)). rewrite nz_events_set_same by done.
  by f_equal.
Qed.

Lemma rr_control n :
  0 <= n < 8 ->
  (Z.land (s_control HDLC_S_FRAME_TYPE_RR n) HDLC_S_FRAME_TYPE_MASK =? HDLC_S_FRAME_TYPE_REJ) = false /\
  (Z.land (s_control HDLC_S_FRAME_TYPE_RR n) HDLC_S_FRAME_TYPE_MASK =? HDLC_S_FRAME_TYPE_RR) = true /\
  Z.shiftr (s_control HDLC_S_FRAME_TYPE_RR n) 5 = n.
Proof using Type.
  intros H. assert (n = 0 \/ n = 1 \/ n = 2 \/ n = 3 \/ n = 4 \/ n = 5 \/ n = 6 \/ n = 7) as Hn by lia.
  by destruct Hn as [->|[->|[->|[->|[->|[->|[->| ->]]]]]]].
Qed.

Lemma rr_frame_ok a : s_frame c a (rr_frame a).
Proof using Hc.
  exists (c_addr c), (s_control HDLC_S_FRAME_TYPE_RR (a mod 8)). split; [done|]. split; [apply Hc|].
  change HDLC_S_FRAME_TYPE_RR with (Z.lor HDLC_S_FRAME_TYPE_RR 0). apply s_control_ack; by left.
Qed.

(** An acknowledgement without the command bit is not answered. *)
Lemma no_command : nz (Z.land (c_addr c) HDLC_CR_BIT) = false.
Proof using Hc.
  rewrite <- (ba_addr c Hc). unfold clear_bits. rewrite <- Z.land_assoc.
  change (Z.land (Z.lxor HDLC_CR_BIT 0xFF) HDLC_CR_BIT) with 0. by rewrite Z.land_0_r.
Qed.

(** The acknowledgement of the only packet under way: the packet is reported, there is room. *)
Lemma read_ack (w : fd_world app) packets s r :
  up c false (handle w) packets s r [] -> Z.of_nat (length packets) = s + 1 ->
  let w' := on_frame_read millis cbs (rr_frame (s + 1)) w in
  user w' = told (between s (s + 1) packets) None (user w) /\ up c false (handle w') packets (s + 1) r [] /\
  numbers (handle w') = numbers (handle w) /\ has_room (handle w').
Proof using Hc.
  intros Hu Hl. pose proof (rr_frame_ok (s + 1)) as Hf.
  destruct (read_dispatch w packets s r [] None (s + 1) _ Hu Hf) as (w1 & Hus1 & Hu1 & Hn1 & _ & _ & Hd).
  destruct (confirm_sent_up c Hc w1 packets s r [] (s + 1) Hu1 ltac:(lia) ltac:(lia)) as [Hu2 Hus2].
  destruct (confirm_last w1 packets s r [] Hu1 Hl) as [Hn2 Hr2].
  assert (Hs : snd (__on_s_frame_read cbs 0 (rr_frame (s + 1)) w1) = __confirm_sent_frames cbs 0 ((s + 1) mod 8) w1).
  { unfold __on_s_frame_read, rr_frame, frame_address, frame_control. cbn [nth].
    destruct (rr_control ((s + 1) mod 8) ltac:(by apply Z.mod_pos_bound)) as (-> & -> & ->). by rewrite no_command. }
  cbv zeta in *. rewrite Hs in Hd. set (w2 := __confirm_sent_frames _ _ _ _) in *.
  rewrite Hd by (rewrite (wf_mode _ _ _ (up_wf _ _ _ _ _ _ _ Hu2)); apply Hc).
  split; [change (user (on_handle tiny_mutex_unlock w2)) with (user w2); by rewrite Hus2, Hus1|].
  split; [by apply up_unlock|]. split; [by rewrite unlock_same, Hn2 by apply _|by apply unlock_room].
Qed.

End Progress.

(** ** Exchanges *)

(** The peer an address stands for depends on the configuration alone. *)
Lemma destination_fixed c b b' h h' address :
  balanced c -> fd_wf c b h -> fd_wf c b' h' -> destination h' address = destination h address.
Proof.
  intros Hc Hw Hw'. unfold destination, __address_field_to_peer, __is_secondary_station, __is_primary_station.
  rewrite (wf_addr _ _ _ Hw), (wf_addr _ _ _ Hw'), (wf_mode _ _ _ Hw), (wf_mode _ _ _ Hw'), (ba_mode c Hc).
  change (TINY_FD_MODE_ABM =? TINY_FD_MODE_ABM) with true. by rewrite !orb_true_r.
Qed.

(** A connected station that has sent [sent], all of it confirmed, has received [got], has
    nothing to send or to acknowledge and can take a packet. *)
Record ready (c : fd_config) (w : fd_world app) (sent got : list (list Z)) : Prop := mk_ready {
  rd_up : up c false (handle w) sent (Z.of_nat (length sent)) (Z.of_nat (length got)) [];
  rd_numbers : numbers (handle w) = (Z.of_nat (length sent) mod 8, Z.of_nat (length got) mod 8);
  rd_room : has_room (handle w);
  rd_user : user w = mk_app got sent
}.

(** One packet from the first station to the second: the application's call, the transmission of
    the frame and of the acknowledgement, each received by the other side. *)
Definition exchange (millis_a millis_b : nat -> Z) (others : Z -> fd_world app -> fd_world app)
  (address : Z) (data : list Z) (a b : fd_world app) : Z * (fd_world app * fd_world app) :=
  let '(res, a) := tiny_fd_send_packet_to millis_a others address data 0 a in
  let '(frame, a) := transmit millis_a a in
  let b := on_frame_read millis_b app_callbacks frame b in
  let '(ack, b) := transmit millis_b b in
  (res, (on_frame_read millis_a app_callbacks ack a, b)).

Lemma exchange_ready ca cb millis_a millis_b others address data a b pa pb :
  balanced ca -> balanced cb -> separate ca -> separate cb -> c_addr ca = c_addr cb ->
  ready ca a pa pb -> ready cb b pb pa -> destination (handle a) address = 0 ->
  bytes data -> Z.of_nat (length data) <= c_mtu ca ->
  let '(res, (a', b')) := exchange millis_a millis_b others address data a b in
  res = TINY_SUCCESS /\ ready ca a' (pa ++ [data]) pb /\ ready cb b' pb (pa ++ [data]).
Proof.
  intros Hca Hcb Hsa Hsb Haddr [Hua Hna [Hfa Hra] Hsera] [Hub Hnb Hrb Hserb] Hdest Hd Hlen.
  set (s := Z.of_nat (length pa)) in *. set (r := Z.of_nat (length pb)) in *.
  assert (Hl : Z.of_nat (length (pa ++ [data])) = s + 1) by (rewrite length_app; cbn; lia).
  unfold exchange.
  destruct (send_now ca Hca millis_a others a pa s r [] address data Hua Hd Hdest Hlen Hfa Hra) as (a1 & E & Hn1).
  destruct (send_up ca Hca millis_a others _ _ _ _ _ _ _ _ _ Hua Hd E) as (Hus1 & [(_ & _ & Hu1)|[Hno _]]); [|done].
  rewrite E. rewrite Hna in Hn1.
  pose proof (transmit_packet ca Hca millis_a a1 (pa ++ [data]) s r data Hsa Hu1) as H2.
  rewrite Hn1 in H2. specialize (H2 ltac:(unfold s; rewrite Nat2Z.id; by rewrite list_lookup_middle) Hl eq_refl).
  destruct (transmit millis_a a1) as [frame a2]. destruct H2 as (Hus2 & Hu2 & Hf & Hn2).
  assert (Hf' : i_frame cb s r data frame) by (revert Hf; unfold i_frame; by rewrite Haddr).
  destruct (read_packet cb Hcb millis_b b pb r s data frame Hub eq_refl Hnb Hrb Hf')
    as (hd & Hus3 & Hu3 & Hsv & Hn3 & Hr3).
  set (b1 := on_frame_read millis_b app_callbacks frame b) in *.
  pose proof (transmit_ack cb Hcb millis_b b1 pb r (s + 1) hd (s + 1) Hsb Hu3) as H4.
  rewrite Hn3 in H4. specialize (H4 eq_refl Hr3).
  destruct (transmit millis_b b1) as [ack b2]. destruct H4 as (Hus4 & Hu4 & -> & Hn4 & Hr4).
  assert (next_service (handle b1) = rr_frame ca (s + 1)) as -> by (rewrite Hsv; unfold rr_frame; by rewrite Haddr).
  destruct (read_ack ca Hca millis_a a2 (pa ++ [data]) s r Hu2 Hl) as (Hus5 & Hu5 & Hn5 & Hr5).
  split; [done|]. split; split; rewrite ?Hl; try done.
  - by rewrite Hn5, Hn2.
  - rewrite Hus5, Hus2, Hus1, Hsera. unfold told, between, fupd. cbn. f_equal.
    replace (Z.to_nat (s + 1 - s)) with 1%nat by lia. unfold s. by rewrite Nat2Z.id, drop_app_length.
  - by rewrite Hus4, Hus3, Hserb.
Qed.

Section Exchanges.

Context (millis_a millis_b : nat -> Z) (others_a others_b : Z -> fd_world app -> fd_world app).

(** Packets one after the other, [true] from the first station; with the results of the calls. *)
Fixpoint exchanges (packets : list (bool * Z * list Z)) (a b : fd_world app)
  : list Z * (fd_world app * fd_world app) :=
  match packets with
  | [] => ([], (a, b))
  | (true, address, data) :: packets =>
      let '(res, (a, b)) := exchange millis_a millis_b others_a address data a b in
      let '(results, last) := exchanges packets a b in (res :: results, last)
  | (false, address, data) :: packets =>
      let '(res, (b, a)) := exchange millis_b millis_a others_b address data b a in
      let '(results, last) := exchanges packets a b in (res :: results, last)
  end.

(** The payloads of one direction. *)
Definition payloads (first : bool) (packets : list (bool * Z * list Z)) : list (list Z) :=
  (filter (fun p => p.1.1 = first) packets).*2.

(** Packets the stations can take: bytes, no longer than the sender's mtu, to the other station. *)
Definition sendable (ca cb : fd_config) (a b : fd_world app) (p : bool * Z * list Z) : Prop :=
  let '(first, address, data) := p in
  bytes data /\ Z.of_nat (length data) <= c_mtu (if first : bool then ca else cb) /\
  destination (handle (if first then a else b)) address = 0.

Lemma payloads_cons first address data packets :
  payloads true ((first, address, data) :: packets) =
    (if first : bool then [data] else []) ++ payloads true packets /\
  payloads false ((first, address, data) :: packets) =
    (if first then [] else [data]) ++ payloads false packets.
Proof using Type. destruct first; split; reflexivity. Qed.

Lemma exchanges_ready ca cb packets a b pa pb :
  balanced ca -> balanced cb -> separate ca -> separate cb -> c_addr ca = c_addr cb ->
  ready ca a pa pb -> ready cb b pb pa -> Forall (sendable ca cb a b) packets ->
  let '(results, (a', b')) := exchanges packets a b in
  results = replicate (length packets) TINY_SUCCESS /\
  ready ca a' (pa ++ payloads true packets) (pb ++ payloads false packets) /\
  ready cb b' (pb ++ payloads false packets) (pa ++ payloads true packets).
Proof using Type.
  intros Hca Hcb Hsa Hsb Haddr. revert a b pa pb.
  induction packets as [|[[first address] data] packets IH]; intros a b pa pb Ha Hb Hp.
  { cbn. unfold payloads. cbn. by rewrite !app_nil_r. }
  apply Forall_cons in Hp as [(Hd & Hl & Hdest) Hp]. destruct (payloads_cons first address data packets) as [-> ->].
  assert (Hmore : forall a1 b1 pa1 pb1, ready ca a1 pa1 pb1 -> ready cb b1 pb1 pa1 -> Forall (sendable ca cb a1 b1) packets).
  { intros a1 b1 pa1 pb1 Ha1 Hb1. eapply Forall_impl; [exact Hp|]. intros [[f ad] d] (H1 & H2 & H3).
    split; [done|]. split; [done|]. rewrite <- H3. destruct f.
    - exact (destination_fixed ca _ _ _ _ ad Hca (up_wf _ _ _ _ _ _ _ (rd_up _ _ _ _ Ha)) (up_wf _ _ _ _ _ _ _ (rd_up _ _ _ _ Ha1))).
    - exact (destination_fixed cb _ _ _ _ ad Hcb (up_wf _ _ _ _ _ _ _ (rd_up _ _ _ _ Hb)) (up_wf _ _ _ _ _ _ _ (rd_up _ _ _ _ Hb1))). }
  cbn [exchanges]. destruct first.
  - pose proof (exchange_ready ca cb millis_a millis_b others_a address data a b pa pb Hca Hcb Hsa Hsb Haddr Ha Hb Hdest Hd Hl) as H.
    destruct (exchange millis_a millis_b others_a address data a b) as [res [a1 b1]]. destruct H as (-> & Ha1 & Hb1).
    specialize (IH a1 b1 _ _ Ha1 Hb1 (Hmore _ _ _ _ Ha1 Hb1)). destruct (exchanges packets a1 b1) as [results [a2 b2]].
    destruct IH as (-> & Ha2 & Hb2). rewrite <- app_assoc in Ha2, Hb2. done.
  - pose proof (exchange_ready cb ca millis_b millis_a others_b address data b a pb pa Hcb Hca Hsb Hsa (eq_sym Haddr) Hb Ha Hdest Hd Hl) as H.
    destruct (exchange millis_b millis_a others_b address data b a) as [res [b1 a1]]. destruct H as (-> & Hb1 & Ha1).
    specialize (IH a1 b1 _ _ Ha1 Hb1 (Hmore _ _ _ _ Ha1 Hb1)). destruct (exchanges packets a1 b1) as [results [a2 b2]].
    destruct IH as (-> & Ha2 & Hb2). rewrite <- app_assoc in Ha2, Hb2. done.
Qed.

End Exchanges.

(** ** Property *)

(** C4: packets arrive.  Two connected stations in balanced mode with nothing under way
    exchange any list of packets, in either direction, one after the other, over a channel that
    loses nothing: every call that queues a packet of at most the sender's mtu succeeds at
    once, the packet is transmitted, passed to the other application, acknowledged and
    reported to the sender, in order, whatever the clocks; afterwards both stations are ready
    for more. *)
Theorem tiny_fd_packets_arrive (millis_a millis_b : nat -> Z)
  (others_a others_b : Z -> fd_world app -> fd_world app) (ca cb : fd_config) (a b : fd_world app)
  (pa pb : list (list Z)) (packets : list (bool * Z * list Z))
  (Hca : balanced ca) (Hcb : balanced cb) (Hsepa : separate ca) (Hsepb : separate cb)
  (Haddr : c_addr ca = c_addr cb) (Ha : ready ca a pa pb) (Hb : ready cb b pb pa)
  (Hp : Forall (sendable ca cb a b) packets) :
  let '(results, (a', b')) := exchanges millis_a millis_b others_a others_b packets a b in
  let sent_a := pa ++ payloads true packets in
  let sent_b := pb ++ payloads false packets in
  results = replicate (length packets) TINY_SUCCESS /\
  received (user b') = sent_a /\ confirmed (user a') = sent_a /\
  received (user a') = sent_b /\ confirmed (user b') = sent_b /\
  ready ca a' sent_a sent_b /\ ready cb b' sent_b sent_a.
Proof.
  pose proof (exchanges_ready millis_a millis_b others_a others_b ca cb packets a b pa pb
                Hca Hcb Hsepa Hsepb Haddr Ha Hb Hp) as H.
  destruct (exchanges _ _ _ _ packets a b) as [results [a' b']]. destruct H as (-> & Ha' & Hb').
  cbv zeta. split; [done|]. by rewrite (rd_user _ _ _ _ Ha'), (rd_user _ _ _ _ Hb').
Qed.

Lemma sample_pair_ready :
  ready sample_conf (fst sample_pair) [] [] /\ ready sample_conf (snd sample_pair) [] [].
Proof.
  destruct sample_pair_wf as [Ha Hb]. destruct sample_pair_fresh as (Fa & Fb & Ua & Ub).
  split; split; [by apply fresh_up|by vm_compute|by split; vm_compute|done..|
                 by apply fresh_up|by vm_compute|by split; vm_compute|done].
Qed.

(** Ten packets one way (the numbers wrap around) and an empty one back. *)
Definition sample_packets : list (bool * Z * list Z) :=
  replicate 9 (true, 0, [1; 2]) ++ [(false, 0, []); (true, 0, [255])].

Lemma sample_packets_sendable :
  Forall (sendable sample_conf sample_conf (fst sample_pair) (snd sample_pair)) sample_packets.
Proof.
  assert (Hm : c_mtu sample_conf = 32) by by vm_compute.
  assert (Ha : destination (handle (fst sample_pair)) 0 = 0) by by vm_compute.
  assert (Hb : destination (handle (snd sample_pair)) 0 = 0) by by vm_compute.
  revert Hm Ha Hb. generalize sample_conf (fst sample_pair) (snd sample_pair). intros c a b Hm Ha Hb.
  unfold sample_packets. simpl. repeat (apply Forall_cons; split); [..|done];
    (split; [by repeat constructor|split; [rewrite Hm; simpl; lia|done]]).
Qed.

Lemma tiny_fd_packets_arrive_witness :
  let '(results, (a, b)) :=
    exchanges stopped_clock stopped_clock idle_others idle_others sample_packets (fst sample_pair) (snd sample_pair) in
  results = replicate 11 TINY_SUCCESS /\ received (user b) = replicate 9 [1; 2] ++ [[255]] /\
  confirmed (user a) = replicate 9 [1; 2] ++ [[255]] /\ received (user a) = [[]].
Proof.
  pose proof (tiny_fd_packets_arrive stopped_clock stopped_clock idle_others idle_others sample_conf sample_conf
                (fst sample_pair) (snd sample_pair) [] [] sample_packets sample_conf_balanced sample_conf_balanced
                sample_conf_separate sample_conf_separate eq_refl (proj1 sample_pair_ready) (proj2 sample_pair_ready)
                sample_packets_sendable) as H.
  destruct (exchanges _ _ _ _ sample_packets _ _) as [results [a b]].
  destruct H as (-> & H1 & H2 & H3 & _). split; [reflexivity|]. split; [exact H1|]. split; [exact H2|exact H3].
Defined.
