(* ===== verification/FdConnect.v ===== *)
(** * A session: connection, packets, disconnection

    A station in balanced mode whose service queue is empty or holds one U-frame; what the peer
    entry and the queue of packets hold is [link_of].  Each step of the exchange of SABM and UA,
    of DISC and UA, is followed on it; between the two the station is [ready] (FdProgress.v). *)

From S2P Require Import Prelude Crc HdlcLL HdlcSpec HdlcRx FdTypes FdQueue FdPeers FdIQueue FdLog.
From S2P Require Import FdService FdTx FdRx Fd FdApi FdInv FdSafe FdStation FdInit FdFifo FdSlots.
From S2P Require Import FdRun FdFlow FdConn FdMoves FdXmit FdE2E FdDelivery FdProgress.

(** ** Stations *)

(** The link of the only peer: its state, address, window, last number sent in an acknowledgement,
    requested retransmissions, the events of the sender, and the packets. *)
Record link : Type := mk_link {
  lk_state : tiny_fd_state_t;
  lk_addr : Z;
  lk_control : i_queue_control_t;
  lk_sent_nr : Z;
  lk_srej : Z;
  lk_flags : bool * bool;
  lk_i_queue : tiny_fd_queue_t
}.

Definition link_of (h : tiny_fd_data_t) : link :=
  let p := peer_at h 0 in
  mk_link (pi_state p) (pi_addr p) (pi_i_queue_control p) (pi_sent_nr p) (pi_srej_req_mask p)
    (flags h) (fd_i_queue h).

(** The queue holds no packet for the address [a] and has room. *)
Definition vacant (a : Z) (q : tiny_fd_queue_t) : Prop :=
  Forall (fun f => ~ i_slot a f) (q_frames q) /\ tiny_fd_queue_has_free_slots q = true.

(** Nothing to send, the peer in state [st]; *)
Definition apart (c : fd_config) (st : tiny_fd_state_t) (l : link) : Prop :=
  lk_state l = st /\ lk_addr l = c_addr c /\ vacant (c_addr c) (lk_i_queue l).

(** a new connection. *)
Definition joined (c : fd_config) (l : link) : Prop :=
  apart c TINY_FD_STATE_CONNECTED l /\
  lk_control l = mk_i_queue_control 0 0 0 0 /\ lk_sent_nr l = 0 /\ lk_srej l = 0 /\
  lk_flags l = (true, true).

(** [busy] are the frames in the service queue. *)
Definition quiet (c : fd_config) (b : bool) (h : tiny_fd_data_t) (busy : list tiny_fd_frame_info_t) : Prop :=
  fd_wf c b h /\ fifo (fd_s_queue h) busy.

(** A disconnected station with nothing to send. *)
Definition offline (c : fd_config) (w : fd_world app) : Prop :=
  quiet c false (handle w) [] /\ apart c TINY_FD_STATE_DISCONNECTED (link_of (handle w)).

(** A connected one that has not sent or received anything yet. *)
Definition online (c : fd_config) (w : fd_world app) : Prop :=
  quiet c false (handle w) [] /\ joined c (link_of (handle w)).

(** *** Observations *)

Lemma link_of_upd_peer f h :
  (forall p, pi_state (f p) = pi_state p /\ pi_addr (f p) = pi_addr p /\
     pi_i_queue_control (f p) = pi_i_queue_control p /\ pi_sent_nr (f p) = pi_sent_nr p /\
     pi_srej_req_mask (f p) = pi_srej_req_mask p /\ pi_events (f p) = pi_events p) ->
  link_of (upd_peer 0 f h) = link_of h.
Proof.
  intros Hf. unfold link_of. rewrite flags_upd_peer by (intros p; by destruct (Hf p) as (_ & _ & _ & _ & _ & ->)).
  destruct (Hf (peer_at h 0)) as (H1 & H2 & H3 & H4 & H5 & _).
  destruct (peer_at_any f h) as [->| ->]; [|done]. by rewrite H1, H2, H3, H4, H5.
Qed.

Lemma link_of_events_set bits h :
  Z.land bits FD_EVENT_QUEUE_HAS_FREE_SLOTS = 0 -> link_of (fd_events_set bits h) = link_of h.
Proof. intros Hb. unfold link_of. by rewrite flags_events_set. Qed.

Lemma link_of_events_clear bits h :
  Z.land (Z.lxor bits EVENT_BITS_ALL) FD_EVENT_QUEUE_HAS_FREE_SLOTS = FD_EVENT_QUEUE_HAS_FREE_SLOTS ->
  link_of (fd_events_clear bits h) = link_of h.
Proof. intros Hb. unfold link_of. by rewrite flags_events_clear. Qed.

#[local] Hint Extern 2 (Unseen link_of _) =>
  let h := fresh "h" in
  intros h; first [apply link_of_upd_peer; done | apply link_of_events_set; done | apply link_of_events_clear; done]
  : typeclass_instances.

(** The packets that a connection starts and ends with. *)
Lemma vacant_slots a q : vacant a q -> slots_ok a [] 0 q.
Proof.
  intros [Hf _]. rewrite Forall_lookup in Hf. split.
  - intros i f Hi Hs. by destruct (Hf i f Hi).
  - intros i j f g Hi _ Hs. by destruct (Hf i f Hi).
  - intros k Hk. cbn in Hk. lia.
Qed.

Lemma slots_vacant a packets q :
  slots_ok a packets (Z.of_nat (length packets)) q -> tiny_fd_queue_has_free_slots q = true -> vacant a q.
Proof.
  intros [Hs _ _] Hr. split; [|done]. apply Forall_lookup. intros i f Hi Hf.
  destruct (Hs i f Hi Hf) as (k & Hk & _). lia.
Qed.

(** Discarding the packets for an address keeps a queue vacant. *)
Lemma vacant_reset_for a b types q : queue_ok types q -> vacant a q -> vacant a (tiny_fd_queue_reset_for q b).
Proof.
  intros Hq [Hf Hr]. pose proof (reset_for_ok types q b Hq) as Hq'. split.
  - cbn. apply Forall_fmap. eapply Forall_impl; [exact Hf|]. intros f Hno. unfold compose.
    destruct (same_address _ _); [|done]. by intros [Ht _].
  - apply (has_free_slots_iff types _ Hq) in Hr as (i & f & Hi & Hfr). apply (has_free_slots_iff types _ Hq').
    exists i. cbn. rewrite list_lookup_fmap, Hi. cbn. eexists. split; [reflexivity|]. by destruct (same_address _ _).
Qed.

(** ** U-frames *)

Definition u_frame (c : fd_config) (cr type : Z) : list Z :=
  [Z.lor (c_addr c) cr; Z.lor HDLC_P_BIT (Z.lor type HDLC_U_FRAME_BITS)].

(** The slot of one that waits. *)
Definition u_slot (c : fd_config) (cr type : Z) (f : tiny_fd_frame_info_t) : Prop :=
  fi_type f = TINY_FD_QUEUE_U_FRAME /\ fi_len f = 0 /\
  fi_address f = Z.lor (c_addr c) cr /\ fi_control f = Z.lor type HDLC_U_FRAME_BITS.

(** The frames of a session: commands [SABM] and [DISC], response [UA]. *)
Definition session_frame (cr type : Z) : Prop :=
  (cr = HDLC_CR_BIT /\ (type = HDLC_U_FRAME_TYPE_SABM \/ type = HDLC_U_FRAME_TYPE_DISC)) \/
  (cr = 0 /\ type = HDLC_U_FRAME_TYPE_UA).

Section Connect.

Context (c : fd_config) (Hc : balanced c) (millis : nat -> Z).

#[local] Abbreviation cbs := app_callbacks.

Lemma cr_address cr : cr = 0 \/ cr = HDLC_CR_BIT ->
  clear_bits HDLC_CR_BIT (Z.lor (c_addr c) cr) = c_addr c /\ fits 8 (Z.lor (c_addr c) cr).
Proof using Hc.
  intros [->| ->]; [rewrite Z.lor_0_r; split; apply Hc|]. split; [|by apply fits_lor; [|apply Hc|]].
  rewrite <- (ba_addr c Hc) at 2. unfold clear_bits. change (Z.lxor HDLC_CR_BIT 0xFF) with 0xFD.
  rewrite Z.land_lor_distr_l. change (Z.land HDLC_CR_BIT 0xFD) with 0. by rewrite Z.lor_0_r.
Qed.

Lemma same_address_cr address : clear_bits HDLC_CR_BIT address = c_addr c -> same_address (c_addr c) address = true.
Proof using Type. intros <-. unfold same_address, clear_bits. rewrite <- Z.land_assoc. apply Z.eqb_refl. Qed.

(** The fields of such a frame. *)
Lemma session_control cr type :
  session_frame cr type ->
  (cr = 0 \/ cr = HDLC_CR_BIT) /\ fits 8 cr /\ fits 8 type /\
  let control := Z.lor HDLC_P_BIT (Z.lor type HDLC_U_FRAME_BITS) in
  (Z.land (Z.lor type HDLC_U_FRAME_BITS) HDLC_S_FRAME_MASK =? HDLC_S_FRAME_BITS) = false /\
  (Z.land (Z.lor type HDLC_U_FRAME_BITS) HDLC_U_FRAME_MASK =? HDLC_U_FRAME_BITS) = true /\
  (Z.land control HDLC_I_FRAME_MASK =? HDLC_I_FRAME_BITS) = false /\
  (Z.land control HDLC_S_FRAME_MASK =? HDLC_S_FRAME_BITS) = false /\
  (Z.land control HDLC_U_FRAME_MASK =? HDLC_U_FRAME_BITS) = true /\
  Z.land control HDLC_U_FRAME_TYPE_MASK = type /\ fits 8 control.
Proof using Type.
  intros [[-> [->| ->]]|[-> ->]]; (split; [auto|]); cbv zeta; split_and!; by vm_compute.
Qed.

(** The peer of every frame on the link. *)
Lemma peer_zero b h address :
  fd_wf c b h -> clear_bits HDLC_CR_BIT address = c_addr c -> __address_field_to_peer h address = 0.
Proof using Hc.
  intros Hw Ha. unfold __address_field_to_peer. rewrite Ha, (ba_ext c Hc). cbn [negb].
  rewrite (wf_mode _ _ _ Hw), (ba_mode c Hc). change (TINY_FD_MODE_ABM =? TINY_FD_MODE_ABM) with true.
  by rewrite orb_true_r, (wf_addr _ _ _ Hw), Z.eqb_refl.
Qed.

Lemma peer_field h : lk_addr (link_of h) = c_addr c -> __peer_to_address_field h 0 = c_addr c.
Proof using Hc. cbn. intros Ha. unfold __peer_to_address_field. rewrite Ha. apply Hc. Qed.

Lemma one_peer b h : fd_wf c b h -> (0 < length (fd_peers h))%nat.
Proof using Hc. intros []. destruct Hc. lia. Qed.

(** *** Queueing *)

(** A U-frame put into the empty service queue. *)
Lemma put_u_now b h cr type :
  quiet c b h [] -> lk_addr (link_of h) = c_addr c -> session_frame cr type ->
  exists f, u_slot c cr type f /\ quiet c b (put_u 0 cr type h) [f] /\ link_of (put_u 0 cr type h) = link_of h.
Proof using Hc.
  intros [Hw Hf] Ha Hs. destruct (session_control _ _ Hs) as (_ & Hcr & Hty & _).
  pose proof (put_u_wf c b 0 cr type h Hw Hcr Hty) as Hw'.
  pose proof (wf_s _ _ _ Hw) as [Hok Hmtu _ _].
  pose proof (fifo_allocate _ _ Hok [] TINY_FD_QUEUE_U_FRAME [] (Z.lor (c_addr c) cr)
    (Z.lor type HDLC_U_FRAME_BITS) Hf ltac:(cbn; lia) ltac:(done)) as Hal. cbv zeta in Hal.
  unfold quiet. revert Hw'. unfold put_u, put_u_s, __put_u_s_frame_to_tx_queue. cbn [nth drop].
  rewrite (peer_field h Ha).
  destruct (tiny_fd_queue_allocate (fd_s_queue h) TINY_FD_QUEUE_U_FRAME []) as [[i|] q']; cbn [snd].
  - intros Hw'. destruct Hal as (f & _ & Hf'). eexists. split; [|split; [split; [exact Hw'|exact Hf']|]]; [done|].
    by rewrite link_of_events_set.
  - destruct Hal as [_ Hfull]. destruct Hok as [Hl _ _]. cbn in Hfull. lia.
Qed.

(** It is accepted. *)
Lemma put_u_accepted b h data :
  quiet c b h [] -> Z.of_nat (length data) <= 4 ->
  exists i, __put_u_s_frame_to_tx_queue h TINY_FD_QUEUE_U_FRAME data = (Some i, put_u_s TINY_FD_QUEUE_U_FRAME data h).
Proof using Type.
  intros [Hw Hf] Hd. pose proof (wf_s _ _ _ Hw) as [Hok Hmtu _ _].
  pose proof (fifo_allocate _ _ Hok [] TINY_FD_QUEUE_U_FRAME (drop 2 data) 0 0 Hf
    ltac:(rewrite length_drop; lia) ltac:(done)) as Hal. cbv zeta in Hal.
  unfold put_u_s, __put_u_s_frame_to_tx_queue. destruct (tiny_fd_queue_allocate _ _ _) as [[i|] q'].
  - by exists i.
  - destruct Hal as [_ Hfull]. destruct Hok as [Hl _ _]. cbn in Hfull. lia.
Qed.

(** *** Transmission *)

(** The completion of the transmission frees the slot. *)
Lemma sent_u (w : fd_world app) f busy address control :
  quiet c false (handle w) (f :: busy) -> clear_bits HDLC_CR_BIT address = c_addr c ->
  (Z.land control HDLC_I_FRAME_MASK =? HDLC_I_FRAME_BITS) = false ->
  (Z.land control HDLC_S_FRAME_MASK =? HDLC_S_FRAME_BITS) = false ->
  (Z.land control HDLC_U_FRAME_MASK =? HDLC_U_FRAME_BITS) = true ->
  let w' := on_frame_send (fi_addr f) [address; control] w in
  user w' = user w /\ quiet c false (handle w') busy /\ link_of (handle w') = link_of (handle w).
Proof using Hc.
  intros [Hw Hf] Ha Hi Hs Hu. cbv zeta.
  assert (Hm : fd_mode (handle w) = TINY_FD_MODE_ABM) by (rewrite (wf_mode _ _ _ Hw); apply Hc).
  assert (Hpeers : 1 <= c_peers c <= 255) by (rewrite (ba_peers c Hc); lia).
  pose proof (on_frame_send_wf c Hpeers (fi_addr f) [address; control] w Hw) as Hw'.
  split; [|split; [split; [exact Hw'|]|by rewrite frame_send_unseen by (done || apply _)]].
  all: unfold on_frame_send; change (frame_address [address; control]) with address;
    change (frame_control [address; control]) with control; rewrite (peer_zero _ _ _ Hw Ha), Hi, Hs, Hu;
    change (0 =? HDLC_INVALID_PEER_INDEX) with false; cbv iota; set (w0 := on_handle tiny_mutex_lock w);
    set (w1 := on_handle (fun h => h <| fd_s_queue ::= _ |>) w0).
  all: assert (Hm1 : fd_mode (handle w1) = TINY_FD_MODE_ABM)
    by (rewrite <- Hm; unfold w1, w0, on_handle; cbn; unfold tiny_mutex_lock; by destruct (fd_mutex _)).
  all: rewrite Hm1; change (TINY_FD_MODE_ABM =? TINY_FD_MODE_NRM) with false; cbv iota.
  1: done.
  rewrite (obs_on fd_s_queue tiny_mutex_unlock) by apply _. rewrite (obs_on fd_s_queue (fd_events_clear _)) by apply _.
  change (fd_s_queue (handle w1)) with (tiny_fd_queue_free_by_header (fd_s_queue (handle w0)) (fi_addr f)).
  assert (fd_s_queue (handle w0) = fd_s_queue (handle w)) as -> by (unfold w0; by rewrite (obs_on fd_s_queue) by apply _).
  apply (fifo_free _ _ (qw_ok _ _ _ _ _ (wf_s _ _ _ Hw))), Hf.
Qed.

(** The choice of the waiting frame sets its P bit. *)
Lemma choose_u (w : fd_world app) f cr type :
  quiet c false (handle w) [f] -> lk_addr (link_of (handle w)) = c_addr c -> u_slot c cr type f ->
  session_frame cr type ->
  exists i f' w', tiny_fd_get_next_frame_to_send millis cbs 0 w = (Some (InSQueue i), w') /\
    user w' = user w /\ quiet c false (handle w') [f'] /\ link_of (handle w') = link_of (handle w) /\
    q_frames (fd_s_queue (handle w')) !! i = Some f' /\ frame_bytes f' = u_frame c cr type.
Proof using Hc.
  intros [Hw Hf] Ha (Ht & Hl & Hfa & Hfc) Hs. destruct (session_control _ _ Hs) as (Hcr & _ & _ & Hks & Hku & _).
  pose proof (get_next_frame_to_send_wf millis cbs c 0 w Hw) as Hw'. revert Hw'.
  pose proof (wf_s _ _ _ Hw) as [Hok _ _ _]. pose proof (qo_lookup _ _ Hok) as Hlk.
  set (i := Z.to_nat (q_lookup_index (fd_s_queue (handle w)))).
  assert (Hsame : Forall (fun g => same_address (c_addr c) (fi_address g) = true) [f]).
  { constructor; [|constructor]. rewrite Hfa. apply same_address_cr, cr_address, Hcr. }
  destruct (fifo_next _ _ Hok [f] (c_addr c) Hf Hsame eq_refl) as [Hget Hat]. fold i in Hget, Hat.
  unfold tiny_fd_get_next_frame_to_send. set (w0 := on_handle tiny_mutex_lock w).
  assert (Hs0 : fd_s_queue (handle w0) = fd_s_queue (handle w)) by (unfold w0; by rewrite (obs_on fd_s_queue) by apply _).
  assert (Hk0 : link_of (handle w0) = link_of (handle w)) by (unfold w0; by rewrite (obs_on link_of) by apply _).
  assert (Hm0 : fd_mode (handle w0) = TINY_FD_MODE_ABM).
  { unfold w0. rewrite (obs_on fd_mode) by apply _. rewrite (wf_mode _ _ _ Hw). apply Hc. }
  rewrite peer_field by (by rewrite Hk0). unfold tiny_fd_get_next_s_u_frame_to_send.
  rewrite Hs0, Hget, (slot_at_lookup _ _ _ Hat), Hfc, Hks. cbv beta iota zeta.
  assert (Hu0 : user w0 = user w) by done. clearbody w0. set (w1 := w0 <| handle := handle w0 |>).
  change (handle w1) with (handle w0). cbn [ref_slot]. rewrite Hs0, (slot_at_lookup _ _ _ Hat), Hfc.
  unfold needs_pf. rewrite Hm0. change (TINY_FD_MODE_ABM =? TINY_FD_MODE_NRM) with false. cbv iota. rewrite Hku.
  cbn [tiny_millis]. set (w2 := on_handle (upd_ref _ _) w1). set (w3 := on_handle (upd_peer 0 _) _).
  assert (__tiny_fd_log_frame cbs TINY_FD_FRAME_DIRECTION_OUT (frame_bytes (slot_at (fd_s_queue (handle w3)) (Z.of_nat i))) w3 = w3) as -> by done.
  set (w4 := on_handle tiny_mutex_unlock w3). cbn [snd]. intros Hw'.
  set (f' := f <| fi_control ::= Z.lor HDLC_P_BIT |>).
  assert (Hs4 : fd_s_queue (handle w4) = upd_slot i (fun g => g <| fi_control ::= Z.lor HDLC_P_BIT |>) (fd_s_queue (handle w))).
  { unfold w4. rewrite (obs_on fd_s_queue) by apply _. rewrite <- Hs0. done. }
  exists i, f', w4. split; [done|]. split; [exact Hu0|]. split; [split; [exact Hw'|]|split; [|split]].
  - rewrite Hs4. destruct Hf as (Hb & free & Hr & Hfree). apply Forall_cons in Hb as [Hbf _].
    split; [by constructor|]. exists free. split; [|done].
    assert (i = ring_index (fd_s_queue (handle w)) 0) as ->.
    { unfold ring_index. by rewrite visited_0. }
    rewrite (rotation_upd _ _ Hok) by (unfold q_size in Hlk; lia). by rewrite Hr.
  - unfold w4. rewrite (obs_on link_of) by apply _. unfold w3. rewrite (obs_on link_of) by apply _.
    rewrite <- Hk0. exact (obs_on link_of (upd_ref (InSQueue i) _) w1 _).
  - rewrite Hs4. unfold upd_slot. cbn. by rewrite list_lookup_alter_eq, Hat.
  - unfold frame_bytes, u_frame, f'. cbn -[take]. by rewrite Hl, Hfa, Hfc.
Qed.

(** The whole transmission. *)
Lemma transmit_u (w : fd_world app) f cr type :
  separate c -> quiet c false (handle w) [f] -> lk_addr (link_of (handle w)) = c_addr c ->
  u_slot c cr type f -> session_frame cr type ->
  let '(frame, w') := transmit millis w in
  frame = u_frame c cr type /\ user w' = user w /\ quiet c false (handle w') [] /\
  link_of (handle w') = link_of (handle w).
Proof using Hc.
  intros Hsep Hq Ha Hf Hs. destruct (session_control _ _ Hs) as (Hcr & _ & _ & _ & _ & Hi & Hks & Hu & _ & _).
  destruct (choose_u w f cr type Hq Ha Hf Hs) as (i & f' & w1 & E & Hus & Hq1 & Hk1 & Hat & Hb).
  unfold transmit. rewrite E. cbn [ref_slot]. rewrite (slot_at_lookup _ _ _ Hat).
  destruct (mem_s_slot c _ _ _ _ (proj1 Hq1) Hsep Hat) as [-> ->].
  unfold frame_bytes, u_frame in Hb. injection Hb as Hfa Hfc Hp.
  rewrite Hfa, Hfc. destruct (sent_u w1 f' [] (Z.lor (c_addr c) cr) _ Hq1 (proj1 (cr_address cr Hcr)) Hi Hks Hu)
    as (Hus2 & Hq2 & Hk2).
  split; [unfold frame_bytes, u_frame; by rewrite Hfa, Hfc, Hp|]. split; [by rewrite Hus2|]. split; [done|]. by rewrite Hk2.
Qed.

(** *** Changes of state *)

(** The mutex of a station is held, the peer is in state [st]. *)
Definition held (st : tiny_fd_state_t) (busy : list tiny_fd_frame_info_t) (w : fd_world app) : Prop :=
  quiet c true (handle w) busy /\ apart c st (link_of (handle w)).

Lemma nz_events_set_in bits bit v : bit <> 0 -> Z.land bits bit = bit -> nz (Z.land (events_set bits v) bit) = true.
Proof using Type.
  unfold nz, events_set. intros Hb Hin. rewrite Z.land_lor_distr_l, Hin.
  apply negb_true_iff, Z.eqb_neq. intros E. by apply Z.lor_eq_0_iff in E as [_ E].
Qed.

Lemma switch_connected (w : fd_world app) st busy :
  held st busy w -> st <> TINY_FD_STATE_CONNECTED ->
  let w' := __switch_to_connected_state millis cbs 0 w in
  user w' = user w /\ quiet c true (handle w') busy /\ joined c (link_of (handle w')).
Proof using Hc.
  intros [[Hw Hf] (Hst & Ha & Hv)] Hne. cbv zeta. pose proof (switch_to_connected_wf millis cbs c 0 w Hw) as Hw'.
  pose proof (one_peer _ _ Hw) as Hp. pose proof (qw_ok _ _ _ _ _ (wf_i _ _ _ Hw)) as Hok.
  revert Hw'. unfold __switch_to_connected_state. rewrite bool_decide_false by (cbn in Hst; congruence).
  cbn [tiny_millis on_connect_event_cb cbs]. set (w1 := on_handle (flush_peer 0) _). intros Hw'.
  assert (Hvac : vacant (c_addr c) (fd_i_queue (handle w1))) by (eapply vacant_reset_for; [exact Hok|exact Hv]).
  split; [done|]. split; [split; [exact Hw'|exact Hf]|]. clear Hw'.
  assert (Hp1 : (0 < length (fd_peers (handle w1)))%nat) by (cbn; by rewrite length_alter).
  assert (Hat : peer_at (handle w1) 0 = reset_link TINY_FD_STATE_CONNECTED (peer_at (handle w) 0)).
  { change (peer_at (handle w1) 0) with (peer_at (upd_peer 0 (reset_link TINY_FD_STATE_CONNECTED) (handle w)) 0).
    by rewrite peer_at_upd. }
  set (h' := handle _).
  assert (Hat' : exists ts ts', peer_at h' 0 =
    ((peer_at (handle w1) 0) <| pi_last_received_frame_ts := ts |> <| pi_last_sent_frame_ts := ts' |>
       <| pi_events ::= events_set FD_EVENT_CAN_ACCEPT_I_FRAMES |>)).
  { eexists _, _. unfold h'. change (handle (on_handle ?f ?x)) with (f (handle x)). cbv beta.
    change (peer_at (fd_events_set _ ?x) 0) with (peer_at x 0). unfold peer_events_set.
    repeat first [progress change (handle (on_handle ?f ?x)) with (f (handle x))
                 |progress change (handle (?x <| clock ::= S |>)) with (handle x)].
    rewrite !peer_at_upd; [reflexivity|..]; cbn; rewrite ?length_alter; done. }
  assert (Hi' : fd_i_queue h' = fd_i_queue (handle w1)) by done.
  assert (He' : exists v, fd_events h' = events_set (Z.lor FD_EVENT_TX_DATA_AVAILABLE FD_EVENT_QUEUE_HAS_FREE_SLOTS) v).
  { exists (fd_events (handle w1)). unfold h'. change (handle (on_handle ?f ?x)) with (f (handle x)). cbv beta.
    change (fd_i_queue _) with (fd_i_queue (handle w1)). by rewrite (proj2 Hvac). }
  clearbody h'. destruct Hat' as (ts & ts' & Hat'), He' as [v He'].
  unfold joined, apart, link_of, flags. cbn. rewrite Hat', Hi', He', Hat. cbn. split; [split; [done|by split]|].
  split; [done|]. split; [done|]. split; [done|]. f_equal; [by apply nz_events_set_same|by apply nz_events_set_in].
Qed.

Lemma switch_disconnected (w : fd_world app) st busy :
  held st busy w ->
  let w' := __switch_to_disconnected_state cbs 0 w in
  user w' = user w /\ held TINY_FD_STATE_DISCONNECTED busy w'.
Proof using Hc.
  intros [[Hw Hf] (Hst & Ha & Hv)]. cbv zeta. pose proof (switch_to_disconnected_wf cbs c 0 w Hw) as Hw'.
  pose proof (one_peer _ _ Hw) as Hp. pose proof (qw_ok _ _ _ _ _ (wf_i _ _ _ Hw)) as Hok.
  pose proof (disconnected_state w Hp) as Hst'.
  revert Hw' Hst'. unfold __switch_to_disconnected_state. destruct (bool_decide _); [by intros Hw' Hst'|].
  cbn [on_connect_event_cb cbs]. set (w1 := on_handle (flush_peer 0) _). intros Hw' Hst'.
  assert (Hvac : vacant (c_addr c) (fd_i_queue (handle w1))) by (eapply vacant_reset_for; [exact Hok|exact Hv]).
  split; [done|]. split; [split; [exact Hw'|exact Hf]|]. split; [exact Hst'|]. split; [|exact Hvac].
  cbn [link_of lk_addr]. change (handle (on_handle ?f ?x)) with (f (handle x)). unfold peer_events_clear.
  rewrite peer_at_upd by (cbn; by rewrite length_alter).
  change (peer_at (handle w1) 0) with (peer_at (upd_peer 0 (reset_link TINY_FD_STATE_DISCONNECTED) (handle w)) 0).
  rewrite peer_at_upd by done. exact Ha.
Qed.

(** *** Reception *)

(** A U-frame is handled under the mutex. *)
Lemma read_u (w : fd_world app) st busy cr type :
  quiet c false (handle w) busy -> apart c st (link_of (handle w)) -> session_frame cr type ->
  exists w1, user w1 = user w /\ held st busy w1 /\ link_of (handle w1) = link_of (handle w) /\
    on_frame_read millis cbs (u_frame c cr type) w =
      on_handle tiny_mutex_unlock (snd (__on_u_frame_read millis cbs 0 (u_frame c cr type) w1)).
Proof using Hc.
  intros [Hw Hf] Ha Hs. destruct (session_control _ _ Hs) as (Hcr & _ & _ & _ & _ & Hi & Hks & Hu & _ & _).
  unfold on_frame_read. change (Z.of_nat (length (u_frame c cr type)) <? 2) with false. cbv iota.
  assert (__tiny_fd_log_frame cbs TINY_FD_FRAME_DIRECTION_IN (u_frame c cr type) w = w) as -> by done.
  change (frame_address (u_frame c cr type)) with (Z.lor (c_addr c) cr).
  rewrite (peer_zero _ _ _ Hw (proj1 (cr_address cr Hcr))). change (0 =? HDLC_INVALID_PEER_INDEX) with false.
  cbv iota. cbn [tiny_millis]. set (w0 := on_handle tiny_mutex_lock w). set (w1 := on_handle (upd_peer 0 _) _).
  assert (Hw1 : fd_wf c true (handle w1)) by (apply fd_wf_upd_peer; [by apply fd_wf_lock|by intros p []]).
  assert (Hk1 : link_of (handle w1) = link_of (handle w)).
  { unfold w1. rewrite (obs_on link_of) by apply _. change (handle (?x <| clock ::= S |>)) with (handle x).
    unfold w0. by rewrite (obs_on link_of) by apply _. }
  assert (Hs1 : fd_s_queue (handle w1) = fd_s_queue (handle w)).
  { change (fd_s_queue (handle w1)) with (fd_s_queue (handle w0)). unfold w0. by rewrite (obs_on fd_s_queue) by apply _. }
  exists w1. split; [done|]. split; [split; [split; [exact Hw1|by rewrite Hs1]|by rewrite Hk1]|]. split; [exact Hk1|].
  change (frame_control (u_frame c cr type)) with (Z.lor HDLC_P_BIT (Z.lor type HDLC_U_FRAME_BITS)).
  change HDLC_U_FRAME_BITS with HDLC_U_FRAME_MASK in Hu at 2. rewrite Hu.
  pose proof (on_u_frame_read_wf millis cbs c 0 (u_frame c cr type) w1 Hw1) as Hw2.
  by rewrite (wf_mode _ _ _ Hw2), (ba_mode c Hc).
Qed.

Lemma unlock_quiet (w : fd_world app) busy :
  quiet c true (handle w) busy ->
  quiet c false (handle (on_handle tiny_mutex_unlock w)) busy /\
  link_of (handle (on_handle tiny_mutex_unlock w)) = link_of (handle w).
Proof using Type.
  intros [Hw Hf]. split; [|by rewrite (obs_on link_of) by apply _]. split; [by apply fd_wf_unlock|].
  by rewrite (obs_on fd_s_queue) by apply _.
Qed.

(** The answer to a command. *)
Lemma answer_ua (w : fd_world app) st :
  held st [] w ->
  exists f, u_slot c 0 HDLC_U_FRAME_TYPE_UA f /\ held st [f] (on_handle (put_u 0 0 HDLC_U_FRAME_TYPE_UA) w).
Proof using Hc.
  intros [Hq Ha].
  destruct (put_u_now true (handle w) 0 HDLC_U_FRAME_TYPE_UA Hq (proj1 (proj2 Ha)) (or_intror (conj eq_refl eq_refl)))
    as (f & Hslot & Hq2 & Hk2).
  exists f. split; [exact Hslot|]. split; [exact Hq2|].
  change (apart c st (link_of (put_u 0 0 HDLC_U_FRAME_TYPE_UA (handle w)))). by rewrite Hk2.
Qed.

(** A request for a connection is answered and makes one. *)
Lemma read_sabm (w : fd_world app) st :
  quiet c false (handle w) [] -> apart c st (link_of (handle w)) ->
  st = TINY_FD_STATE_DISCONNECTED \/ st = TINY_FD_STATE_CONNECTING ->
  let w' := on_frame_read millis cbs (u_frame c HDLC_CR_BIT HDLC_U_FRAME_TYPE_SABM) w in
  user w' = user w /\ joined c (link_of (handle w')) /\
  exists f, u_slot c 0 HDLC_U_FRAME_TYPE_UA f /\ quiet c false (handle w') [f].
Proof using Hc.
  intros Hq Ha Hst. cbv zeta.
  destruct (read_u w st [] HDLC_CR_BIT HDLC_U_FRAME_TYPE_SABM Hq Ha) as (w1 & Hus & Hh1 & _ & ->); [by left; auto|].
  destruct (answer_ua w1 st Hh1) as (f & Hslot & Hh2). set (w2 := on_handle _ w1) in *.
  assert (snd (__on_u_frame_read millis cbs 0 (u_frame c HDLC_CR_BIT HDLC_U_FRAME_TYPE_SABM) w1) =
    __switch_to_connected_state millis cbs 0 w2) as ->.
  { unfold __on_u_frame_read. cbn [snd].
    change (Z.land (frame_control _) HDLC_U_FRAME_TYPE_MASK) with HDLC_U_FRAME_TYPE_SABM.
    change (HDLC_U_FRAME_TYPE_SABM =? HDLC_U_FRAME_TYPE_SABM) with true. cbn [negb andb orb].
    rewrite andb_false_r. cbn [andb]. fold w2.
    assert (pi_state (peer_at (handle w2) 0) = st) as -> by apply Hh2. by destruct Hst as [->| ->]. }
  destruct (switch_connected w2 st [f] Hh2) as (Hus3 & Hq3 & Hj3); [by destruct Hst as [->| ->]|].
  destruct (unlock_quiet _ _ Hq3) as [Hq4 Hk4]. rewrite Hk4. split; [|split; [exact Hj3|by exists f]].
  rewrite <- Hus. exact Hus3.
Qed.

(** The answer makes the connection the station has asked for; *)
Lemma read_ua (w : fd_world app) :
  quiet c false (handle w) [] -> apart c TINY_FD_STATE_CONNECTING (link_of (handle w)) ->
  let w' := on_frame_read millis cbs (u_frame c 0 HDLC_U_FRAME_TYPE_UA) w in
  user w' = user w /\ online c w'.
Proof using Hc.
  intros Hq Ha. cbv zeta.
  destruct (read_u w _ [] 0 HDLC_U_FRAME_TYPE_UA Hq Ha) as (w1 & Hus & Hh1 & _ & ->); [by right|].
  assert (Hst : pi_state (peer_at (handle w1) 0) = TINY_FD_STATE_CONNECTING) by apply Hh1.
  assert (snd (__on_u_frame_read millis cbs 0 (u_frame c 0 HDLC_U_FRAME_TYPE_UA) w1) =
    __switch_to_connected_state millis cbs 0 w1) as ->.
  { unfold __on_u_frame_read. cbn [snd].
    change (Z.land (frame_control _) HDLC_U_FRAME_TYPE_MASK) with HDLC_U_FRAME_TYPE_UA. by rewrite !Hst. }
  destruct (switch_connected w1 _ [] Hh1) as (Hus3 & Hq3 & Hj3); [done|].
  destruct (unlock_quiet _ _ Hq3) as [Hq4 Hk4]. split; [by rewrite <- Hus, <- Hus3|].
  split; [exact Hq4|]. by rewrite Hk4.
Qed.

(** a second one changes nothing; *)
Lemma read_ua_again (w : fd_world app) :
  online c w ->
  let w' := on_frame_read millis cbs (u_frame c 0 HDLC_U_FRAME_TYPE_UA) w in
  user w' = user w /\ online c w'.
Proof using Hc.
  intros [Hq Hj]. cbv zeta.
  destruct (read_u w _ [] 0 HDLC_U_FRAME_TYPE_UA Hq (proj1 Hj)) as (w1 & Hus & Hh1 & Hk1 & ->); [by right|].
  assert (Hst : pi_state (peer_at (handle w1) 0) = TINY_FD_STATE_CONNECTED) by apply Hh1.
  assert (snd (__on_u_frame_read millis cbs 0 (u_frame c 0 HDLC_U_FRAME_TYPE_UA) w1) = w1) as ->.
  { unfold __on_u_frame_read. cbn [snd].
    change (Z.land (frame_control _) HDLC_U_FRAME_TYPE_MASK) with HDLC_U_FRAME_TYPE_UA. by rewrite !Hst. }
  destruct (unlock_quiet _ _ (proj1 Hh1)) as [Hq4 Hk4]. split; [exact Hus|]. split; [exact Hq4|]. by rewrite Hk4, Hk1.
Qed.

(** it ends the connection the station is leaving. *)
Lemma read_ua_leaving (w : fd_world app) :
  quiet c false (handle w) [] -> apart c TINY_FD_STATE_DISCONNECTING (link_of (handle w)) ->
  let w' := on_frame_read millis cbs (u_frame c 0 HDLC_U_FRAME_TYPE_UA) w in
  user w' = user w /\ offline c w'.
Proof using Hc.
  intros Hq Ha. cbv zeta.
  destruct (read_u w _ [] 0 HDLC_U_FRAME_TYPE_UA Hq Ha) as (w1 & Hus & Hh1 & _ & ->); [by right|].
  assert (Hst : pi_state (peer_at (handle w1) 0) = TINY_FD_STATE_DISCONNECTING) by apply Hh1.
  assert (snd (__on_u_frame_read millis cbs 0 (u_frame c 0 HDLC_U_FRAME_TYPE_UA) w1) =
    __switch_to_disconnected_state cbs 0 w1) as ->.
  { unfold __on_u_frame_read. cbn [snd].
    change (Z.land (frame_control _) HDLC_U_FRAME_TYPE_MASK) with HDLC_U_FRAME_TYPE_UA. by rewrite !Hst. }
  destruct (switch_disconnected w1 _ [] Hh1) as (Hus3 & Hq3 & Ha3).
  destruct (unlock_quiet _ _ Hq3) as [Hq4 Hk4]. split; [by rewrite <- Hus, <- Hus3|].
  split; [exact Hq4|]. by rewrite Hk4.
Qed.

(** A request to end the connection is answered and ends it. *)
Lemma read_disc (w : fd_world app) :
  quiet c false (handle w) [] -> apart c TINY_FD_STATE_CONNECTED (link_of (handle w)) ->
  let w' := on_frame_read millis cbs (u_frame c HDLC_CR_BIT HDLC_U_FRAME_TYPE_DISC) w in
  user w' = user w /\ apart c TINY_FD_STATE_DISCONNECTED (link_of (handle w')) /\
  exists f, u_slot c 0 HDLC_U_FRAME_TYPE_UA f /\ quiet c false (handle w') [f].
Proof using Hc.
  intros Hq Ha. cbv zeta.
  destruct (read_u w _ [] HDLC_CR_BIT HDLC_U_FRAME_TYPE_DISC Hq Ha) as (w1 & Hus & Hh1 & _ & ->); [by left; auto|].
  destruct (answer_ua w1 _ Hh1) as (f & Hslot & Hh2). set (w2 := on_handle _ w1) in *.
  assert (Hst : pi_state (peer_at (handle w1) 0) = TINY_FD_STATE_CONNECTED) by apply Hh1.
  assert (snd (__on_u_frame_read millis cbs 0 (u_frame c HDLC_CR_BIT HDLC_U_FRAME_TYPE_DISC) w1) =
    __switch_to_disconnected_state cbs 0 w2) as ->.
  { unfold __on_u_frame_read. cbn [snd].
    change (Z.land (frame_control _) HDLC_U_FRAME_TYPE_MASK) with HDLC_U_FRAME_TYPE_DISC. by rewrite Hst. }
  destruct (switch_disconnected w2 _ [f] Hh2) as (Hus3 & Hq3 & Ha3).
  destruct (unlock_quiet _ _ Hq3) as [Hq4 Hk4]. rewrite Hk4. split; [|split; [exact Ha3|by exists f]].
  rewrite <- Hus. exact Hus3.
Qed.

(** *** Requests *)

(** The retry timeout of the primary station has passed since the last frame of the peer. *)
Definition timed_out (w : fd_world app) : Prop :=
  fd_retry_timeout (handle w) <=
    u32 (u32 (millis (clock w)) - pi_last_received_frame_ts (peer_at (handle w) 0)).

(** Then it asks for a connection. *)
Lemma timer_sabm (w : fd_world app) :
  offline c w -> __is_primary_address (c_addr c) = true -> timed_out w ->
  let w' := check_idle_timeout millis cbs 0 w in
  user w' = user w /\ apart c TINY_FD_STATE_CONNECTING (link_of (handle w')) /\
  exists f, u_slot c HDLC_CR_BIT HDLC_U_FRAME_TYPE_SABM f /\ quiet c false (handle w') [f].
Proof using Hc.
  intros [[Hw Hf] Ha] Hpr Ht. cbv zeta. pose proof (check_idle_timeout_wf millis cbs c 0 w Hw) as Hw'. revert Hw'.
  pose proof (proj1 Ha) as Hst. cbn in Hst. unfold check_idle_timeout. rewrite Hst.
  rewrite !bool_decide_false by done. cbn [orb]. unfold tiny_fd_disconnected_check_idle_timeout.
  set (w0 := on_handle tiny_mutex_lock w).
  assert (Hw0 : fd_wf c true (handle w0)) by by apply fd_wf_lock.
  assert (Hk0 : link_of (handle w0) = link_of (handle w)) by (unfold w0; by rewrite (obs_on link_of) by apply _).
  assert (Hs0 : fd_s_queue (handle w0) = fd_s_queue (handle w)) by (unfold w0; by rewrite (obs_on fd_s_queue) by apply _).
  assert (Hp0 : peer_at (handle w0) 0 = peer_at (handle w) 0)
    by (unfold w0; by rewrite (obs_on (fun h => peer_at h 0)) by apply _).
  assert (Hr0 : fd_retry_timeout (handle w0) = fd_retry_timeout (handle w))
    by (unfold w0; by rewrite (obs_on fd_retry_timeout) by apply _).
  assert (Hu0 : user w0 = user w) by done. assert (Hc0 : clock w0 = clock w) by done. clearbody w0.
  unfold __time_passed_since_last_frame_received. cbn [time_since tiny_millis].
  set (w1 := w0 <| clock ::= S |>). change (handle w1) with (handle w0).
  rewrite Hr0, Hc0, Hp0. rewrite (proj2 (Z.leb_le _ _) Ht). unfold __is_primary_station. rewrite (wf_addr _ _ _ Hw0), Hpr.
  set (w2 := on_handle (fun h => put_u 0 HDLC_CR_BIT (connect_type h) h) w1). intros Hw'.
  assert (Hct : connect_type (handle w0) = HDLC_U_FRAME_TYPE_SABM).
  { unfold connect_type. by rewrite (wf_mode _ _ _ Hw0), (ba_mode c Hc). }
  assert (Hq0 : quiet c true (handle w0) []) by (split; [exact Hw0|by rewrite Hs0]).
  destruct (put_u_now true (handle w0) HDLC_CR_BIT HDLC_U_FRAME_TYPE_SABM Hq0) as (f & Hslot & [Hw2 Hf2] & Hk2);
    [rewrite Hk0; apply Ha|by left; auto|].
  assert (Hh2 : handle w2 = put_u 0 HDLC_CR_BIT HDLC_U_FRAME_TYPE_SABM (handle w0)).
  { unfold w2. change (handle (on_handle ?g w1)) with (g (handle w0)). cbv beta. by rewrite Hct. }
  split; [exact Hu0|]. split; [|exists f; split; [exact Hslot|split; [exact Hw'|]]].
  - rewrite (obs_on link_of) by apply _. rewrite (obs_on link_of) by apply _.
    change (handle (?x <| clock ::= S |>)) with (handle x). change (handle (on_handle ?g w2)) with (g (handle w2)).
    rewrite Hh2. destruct Ha as (_ & Haddr & Hvac). rewrite <- Hk0, <- Hk2 in Haddr, Hvac.
    split; [|split; [|exact Hvac]]; cbn [link_of lk_state lk_addr]; rewrite peer_at_upd by (by apply (one_peer true)); [done|exact Haddr].
  - rewrite (obs_on fd_s_queue) by apply _. change (fd_s_queue _) with (fd_s_queue (handle w2)). by rewrite Hh2.
Qed.

(** The application ends the connection. *)
Lemma disconnect_now (w : fd_world app) st :
  quiet c false (handle w) [] -> apart c st (link_of (handle w)) ->
  exists w' f, tiny_fd_disconnect (Some w) = (TINY_SUCCESS, Some w') /\ user w' = user w /\
    u_slot c HDLC_CR_BIT HDLC_U_FRAME_TYPE_DISC f /\ quiet c false (handle w') [f] /\
    apart c TINY_FD_STATE_DISCONNECTING (link_of (handle w')).
Proof using Hc.
  intros [Hw Hf] Ha. unfold tiny_fd_disconnect. set (w0 := on_handle tiny_mutex_lock w).
  assert (Hw0 : fd_wf c true (handle w0)) by by apply fd_wf_lock.
  assert (Hk0 : link_of (handle w0) = link_of (handle w)) by (unfold w0; by rewrite (obs_on link_of) by apply _).
  assert (Hq0 : quiet c true (handle w0) []).
  { split; [exact Hw0|]. unfold w0. by rewrite (obs_on fd_s_queue) by apply _. }
  assert (Hu0 : user w0 = user w) by done. clearbody w0. rewrite <- Hk0 in Ha.
  destruct (put_u_now true (handle w0) HDLC_CR_BIT HDLC_U_FRAME_TYPE_DISC Hq0 (proj1 (proj2 Ha)))
    as (f & Hslot & Hq1 & Hk1); [by left; auto|].
  destruct (put_u_accepted true (handle w0) [Z.lor (__peer_to_address_field (handle w0) 0) HDLC_CR_BIT;
    Z.lor HDLC_U_FRAME_TYPE_DISC HDLC_U_FRAME_BITS] Hq0 ltac:(cbn; lia)) as [i ->].
  fold (put_u 0 HDLC_CR_BIT HDLC_U_FRAME_TYPE_DISC (handle w0)).
  set (h := put_u _ _ _ _) in *. destruct Hq1 as [Hw1 Hf1]. set (w2 := on_handle (upd_peer 0 _) _).
  assert (Hq2 : quiet c true (handle w2) [f]) by (split; [apply fd_wf_upd_peer; [exact Hw1|by intros p []]|exact Hf1]).
  destruct (unlock_quiet w2 [f] Hq2) as [Hq3 Hk3]. eexists _, f. split; [reflexivity|].
  split; [exact Hu0|]. split; [exact Hslot|]. split; [exact Hq3|]. rewrite Hk3.
  destruct Ha as (_ & Haddr & Hvac). rewrite <- Hk1 in Haddr, Hvac.
  change (handle w2) with (upd_peer 0 (fun p => p <| pi_state := TINY_FD_STATE_DISCONNECTING |>) h).
  split; [|split; [|exact Hvac]]; cbn [link_of lk_state lk_addr]; rewrite peer_at_upd by (by apply (one_peer true)); [done|exact Haddr].
Qed.

End Connect.
