(* ===== verification/FdSession.v ===== *)
(** * Whole sessions

    From two stations made by [tiny_fd_init]: the retry timeout of one of them (or of both) runs
    out, it asks for a connection, packets are exchanged, one station disconnects. *)

From S2P Require Import Prelude Crc HdlcLL HdlcSpec HdlcRx FdTypes FdQueue FdPeers FdIQueue FdLog.
From S2P Require Import FdService FdTx FdRx Fd FdApi FdInv FdSafe FdStation FdInit FdFifo FdSlots.
From S2P Require Import FdRun FdFlow FdConn FdMoves FdXmit FdE2E FdDelivery FdProgress FdConnect.

(** ** Between two stations *)

Section Sessions.

Context (millis_a millis_b : nat -> Z) (others_a others_b : Z -> fd_world app -> fd_world app).

#[local] Abbreviation cbs := app_callbacks.

(** The timer of the first station asks for a connection, the second one accepts. *)
Definition establish (a b : fd_world app) : fd_world app * fd_world app :=
  let '(sabm, a) := transmit millis_a (check_idle_timeout millis_a cbs 0 a) in
  let b := on_frame_read millis_b cbs sabm b in
  let '(ua, b) := transmit millis_b b in
  (on_frame_read millis_a cbs ua a, b).

(** Both timers ask at the same time: the requests cross, and so do the answers. *)
Definition establish_crossed (a b : fd_world app) : fd_world app * fd_world app :=
  let '(sabm_a, a) := transmit millis_a (check_idle_timeout millis_a cbs 0 a) in
  let '(sabm_b, b) := transmit millis_b (check_idle_timeout millis_b cbs 0 b) in
  let '(ua_a, a) := transmit millis_a (on_frame_read millis_a cbs sabm_b a) in
  let '(ua_b, b) := transmit millis_b (on_frame_read millis_b cbs sabm_a b) in
  (on_frame_read millis_a cbs ua_b a, on_frame_read millis_b cbs ua_a b).

(** The first station leaves. *)
Definition leave (a b : fd_world app) : Z * (fd_world app * fd_world app) :=
  match tiny_fd_disconnect (Some a) with
  | (res, Some a) =>
      let '(disc, a) := transmit millis_a a in
      let '(ua, b) := transmit millis_b (on_frame_read millis_b cbs disc b) in
      (res, (on_frame_read millis_a cbs ua a, b))
  | (res, None) => (res, (a, b))
  end.

(** A session: the results of the calls, and the stations after it. *)
Definition session (crossed : bool) (packets : list (bool * Z * list Z)) (a b : fd_world app)
  : list Z * (fd_world app * fd_world app) :=
  let '(a, b) := if crossed then establish_crossed a b else establish a b in
  let '(results, (a, b)) := exchanges millis_a millis_b others_a others_b packets a b in
  let '(res, (a, b)) := leave a b in (results ++ [res], (a, b)).

Section Pair.

Context (ca cb : fd_config) (Hca : balanced ca) (Hcb : balanced cb).
Context (Hsa : separate ca) (Hsb : separate cb) (Haddr : c_addr ca = c_addr cb).
Context (Hprimary : __is_primary_address (c_addr ca) = true).

Lemma u_frame_same cr type : u_frame ca cr type = u_frame cb cr type.
Proof using Haddr. unfold u_frame. by rewrite Haddr. Qed.

Lemma establish_online a b :
  offline ca a -> offline cb b -> timed_out millis_a a ->
  let '(a', b') := establish a b in
  user a' = user a /\ user b' = user b /\ online ca a' /\ online cb b'.
Proof using Hca Hcb Hsa Hsb Haddr Hprimary.
  intros Ha [Hqb Hb] Ht. unfold establish.
  destruct (timer_sabm ca Hca millis_a a Ha Hprimary Ht) as (Hus1 & Ha1 & f & Hf & Hq1).
  pose proof (transmit_u ca Hca millis_a _ f _ _ Hsa Hq1 (proj1 (proj2 Ha1)) Hf ltac:(left; auto)) as H2.
  destruct (transmit millis_a _) as [sabm a2]. destruct H2 as (-> & Hus2 & Hq2 & Hk2).
  rewrite u_frame_same.
  destruct (read_sabm cb Hcb millis_b b _ Hqb Hb ltac:(auto)) as (Hus3 & Hj3 & g & Hg & Hq3).
  pose proof (transmit_u cb Hcb millis_b _ g _ _ Hsb Hq3 (proj1 (proj2 (proj1 Hj3))) Hg ltac:(right; auto)) as H4.
  destruct (transmit millis_b _) as [ua b4]. destruct H4 as (-> & Hus4 & Hq4 & Hk4). rewrite <- u_frame_same.
  destruct (read_ua ca Hca millis_a a2 Hq2) as [Hus5 Ho5]; [by rewrite Hk2|].
  split; [by rewrite Hus5, Hus2|]. split; [by rewrite Hus4|]. split; [exact Ho5|]. split; [exact Hq4|by rewrite Hk4].
Qed.

Lemma establish_crossed_online a b :
  offline ca a -> offline cb b -> timed_out millis_a a -> timed_out millis_b b ->
  let '(a', b') := establish_crossed a b in
  user a' = user a /\ user b' = user b /\ online ca a' /\ online cb b'.
Proof using Hca Hcb Hsa Hsb Haddr Hprimary.
  intros Ha Hb Hta Htb. unfold establish_crossed. pose proof Hprimary as Hprimary'. rewrite Haddr in Hprimary'.
  destruct (timer_sabm ca Hca millis_a a Ha Hprimary Hta) as (Husa1 & Ha1 & fa & Hfa & Hqa1).
  destruct (timer_sabm cb Hcb millis_b b Hb Hprimary' Htb) as (Husb1 & Hb1 & fb & Hfb & Hqb1).
  pose proof (transmit_u ca Hca millis_a _ fa _ _ Hsa Hqa1 (proj1 (proj2 Ha1)) Hfa ltac:(left; auto)) as Ha2.
  pose proof (transmit_u cb Hcb millis_b _ fb _ _ Hsb Hqb1 (proj1 (proj2 Hb1)) Hfb ltac:(left; auto)) as Hb2.
  destruct (transmit millis_a (check_idle_timeout _ _ _ _)) as [sabm_a a2]. destruct Ha2 as (-> & Husa2 & Hqa2 & Hka2).
  destruct (transmit millis_b (check_idle_timeout _ _ _ _)) as [sabm_b b2]. destruct Hb2 as (-> & Husb2 & Hqb2 & Hkb2).
  rewrite <- Hka2 in Ha1. rewrite <- Hkb2 in Hb1.
  rewrite <- !u_frame_same. pose proof (read_sabm cb Hcb millis_b b2 _ Hqb2 Hb1 ltac:(auto)) as Hb3.
  rewrite <- u_frame_same in Hb3. destruct Hb3 as (Husb3 & Hjb3 & gb & Hgb & Hqb3).
  destruct (read_sabm ca Hca millis_a a2 _ Hqa2 Ha1 ltac:(auto)) as (Husa3 & Hja3 & ga & Hga & Hqa3).
  pose proof (transmit_u ca Hca millis_a _ ga _ _ Hsa Hqa3 (proj1 (proj2 (proj1 Hja3))) Hga ltac:(right; auto)) as Ha4.
  pose proof (transmit_u cb Hcb millis_b _ gb _ _ Hsb Hqb3 (proj1 (proj2 (proj1 Hjb3))) Hgb ltac:(right; auto)) as Hb4.
  destruct (transmit millis_a _) as [ua_a a4]. destruct Ha4 as (-> & Husa4 & Hqa4 & Hka4).
  destruct (transmit millis_b _) as [ua_b b4]. destruct Hb4 as (-> & Husb4 & Hqb4 & Hkb4).
  rewrite <- !u_frame_same.
  destruct (read_ua_again ca Hca millis_a a4) as [Husa5 Ho]; [split; [exact Hqa4|by rewrite Hka4]|].
  pose proof (read_ua_again cb Hcb millis_b b4) as Hb5. rewrite <- u_frame_same in Hb5.
  destruct Hb5 as [Husb5 Ho']; [split; [exact Hqb4|by rewrite Hkb4]|].
  split; [congruence|]. split; [congruence|]. by split.
Qed.

Lemma leave_offline a b :
  quiet ca false (handle a) [] -> apart ca TINY_FD_STATE_CONNECTED (link_of (handle a)) ->
  quiet cb false (handle b) [] -> apart cb TINY_FD_STATE_CONNECTED (link_of (handle b)) ->
  let '(res, (a', b')) := leave a b in
  res = TINY_SUCCESS /\ user a' = user a /\ user b' = user b /\ offline ca a' /\ offline cb b'.
Proof using Hca Hcb Hsa Hsb Haddr.
  intros Hqa Ha Hqb Hb. unfold leave.
  destruct (disconnect_now ca Hca a _ Hqa Ha) as (a1 & f & -> & Hus1 & Hf & Hq1 & Ha1).
  pose proof (transmit_u ca Hca millis_a _ f _ _ Hsa Hq1 (proj1 (proj2 Ha1)) Hf ltac:(left; auto)) as H2.
  destruct (transmit millis_a _) as [disc a2]. destruct H2 as (-> & Hus2 & Hq2 & Hk2). rewrite u_frame_same.
  destruct (read_disc cb Hcb millis_b b Hqb Hb) as (Hus3 & Hb3 & g & Hg & Hq3).
  pose proof (transmit_u cb Hcb millis_b _ g _ _ Hsb Hq3 (proj1 (proj2 Hb3)) Hg ltac:(right; auto)) as H4.
  destruct (transmit millis_b _) as [ua b4]. destruct H4 as (-> & Hus4 & Hq4 & Hk4). rewrite <- u_frame_same.
  destruct (read_ua_leaving ca Hca millis_a a2 Hq2) as [Hus5 Ho5]; [by rewrite Hk2|].
  split; [done|]. split; [congruence|]. split; [congruence|]. split; [exact Ho5|]. split; [exact Hq4|by rewrite Hk4].
Qed.

End Pair.

End Sessions.

(** A new connection is ready for packets; *)
Lemma online_ready c w : online c w -> user w = mk_app [] [] -> ready c w [] [].
Proof.
  intros [[Hw Hf] ((Hst & Ha & Hv) & Hcon & Hnr & Hsr & Hfl)] Hu. cbn in Hst, Ha, Hv, Hcon, Hnr, Hsr, Hfl.
  split.
  - split; try done.
    + exists 0. unfold control_at. rewrite Hcon. by split.
    + by apply vacant_slots.
    + by exists [].
  - unfold numbers, control_at. by rewrite Hcon, Hnr.
  - split; [exact Hfl|apply Hv].
  - exact Hu.
Qed.

(** a ready one can be left. *)
Lemma ready_apart c w sent got :
  ready c w sent got -> quiet c false (handle w) [] /\ apart c TINY_FD_STATE_CONNECTED (link_of (handle w)).
Proof.
  intros [Hu _ [_ Hr] _]. destruct (up_fifo _ _ _ _ _ _ _ Hu) as (busy & Hf & Hb). inversion Hb; subst busy.
  split; [by split; [apply Hu|]|]. split; [apply Hu|]. split; [apply Hu|]. eapply slots_vacant; [apply Hu|done].
Qed.

Section Runs.

Context (millis_a millis_b : nat -> Z) (others_a others_b : Z -> fd_world app -> fd_world app).
Context (ca cb : fd_config) (Hca : balanced ca) (Hcb : balanced cb).
Context (Hsa : separate ca) (Hsb : separate cb) (Haddr : c_addr ca = c_addr cb).
Context (Hprimary : __is_primary_address (c_addr ca) = true).

(** Either way two disconnected stations connect. *)
Lemma connect_online crossed a b :
  offline ca a -> offline cb b -> timed_out millis_a a -> (crossed = true -> timed_out millis_b b) ->
  let '(a', b') := if crossed then establish_crossed millis_a millis_b a b else establish millis_a millis_b a b in
  user a' = user a /\ user b' = user b /\ online ca a' /\ online cb b'.
Proof using Hca Hcb Hsa Hsb Haddr Hprimary.
  intros Ha Hb Hta Htb. destruct crossed; [apply establish_crossed_online|apply establish_online]; auto.
Qed.

Lemma sendable_later packets a b a' b' :
  Forall (sendable ca cb a b) packets -> fd_wf ca false (handle a) -> fd_wf cb false (handle b) ->
  fd_wf ca false (handle a') -> fd_wf cb false (handle b') -> Forall (sendable ca cb a' b') packets.
Proof using Hca Hcb.
  intros Hp Ha Hb Ha' Hb'. eapply Forall_impl; [exact Hp|]. intros [[first address] data] (Hd & Hl & Hdest).
  split; [exact Hd|]. split; [exact Hl|]. rewrite <- Hdest.
  destruct first; eapply destination_fixed; [exact Hca|done|done|exact Hcb|done|done].
Qed.

(** The whole session of two disconnected stations. *)
Lemma session_runs crossed packets a b :
  offline ca a -> offline cb b -> timed_out millis_a a -> (crossed = true -> timed_out millis_b b) ->
  user a = mk_app [] [] -> user b = mk_app [] [] -> Forall (sendable ca cb a b) packets ->
  let '(results, (a', b')) := session millis_a millis_b others_a others_b crossed packets a b in
  results = replicate (length packets + 1) TINY_SUCCESS /\
  user a' = mk_app (payloads false packets) (payloads true packets) /\
  user b' = mk_app (payloads true packets) (payloads false packets) /\
  offline ca a' /\ offline cb b'.
Proof using Hca Hcb Hsa Hsb Haddr Hprimary.
  intros Ha Hb Hta Htb Hua Hub Hp. unfold session.
  pose proof (connect_online crossed a b Ha Hb Hta Htb) as H1.
  destruct (if crossed then _ else _) as [a1 b1]. destruct H1 as (Hua1 & Hub1 & Ha1 & Hb1).
  rewrite Hua in Hua1. rewrite Hub in Hub1.
  pose proof (sendable_later packets a b a1 b1 Hp (proj1 (proj1 Ha)) (proj1 (proj1 Hb))
    (proj1 (proj1 Ha1)) (proj1 (proj1 Hb1))) as Hp1.
  pose proof (exchanges_ready millis_a millis_b others_a others_b ca cb packets a1 b1 [] [] Hca Hcb Hsa Hsb Haddr
    (online_ready _ _ Ha1 Hua1) (online_ready _ _ Hb1 Hub1) Hp1) as H2.
  destruct (exchanges _ _ _ _ packets a1 b1) as [results [a2 b2]]. destruct H2 as (-> & Ha2 & Hb2).
  destruct (ready_apart _ _ _ _ Ha2) as [Hqa2 Haa2], (ready_apart _ _ _ _ Hb2) as [Hqb2 Hab2].
  pose proof (leave_offline millis_a millis_b ca cb Hca Hcb Hsa Hsb Haddr a2 b2 Hqa2 Haa2 Hqb2 Hab2) as H3.
  destruct (leave millis_a millis_b a2 b2) as [res [a3 b3]]. destruct H3 as (-> & Hua3 & Hub3 & Ha3 & Hb3).
  split; [by rewrite replicate_add|]. rewrite Hua3, Hub3, (rd_user _ _ _ _ Ha2), (rd_user _ _ _ _ Hb2). by split.
Qed.

End Runs.

(** ** From initialisation *)

(** The arguments of a primary station in balanced mode. *)
Record primary_abm (init : tiny_fd_init_t) : Prop := mk_primary_abm {
  pb_mode : it_mode init = TINY_FD_MODE_ABM;
  pb_addr : it_addr init = 0;
  pb_peers : it_peers_count init <= 1
}.

(** The station, with an application that has not received anything. *)
Definition started (h : tiny_fd_data_t) : fd_world app := mk_fd_world h 0 (mk_app [] []).

Section Initialised.

Context (init : tiny_fd_init_t) (mtu : Z) (hdlc : hdlc_ll_data_t) (h : tiny_fd_data_t).
Context (Hi : initialised init mtu hdlc h) (Ha : init_args init) (Hpb : primary_abm init).

Lemma started_wf : fd_wf (config_of mtu h) false h.
Proof using Hi. by destruct (in_wf _ _ _ _ Hi app 0%nat (mk_app [] [])). Qed.

Lemma started_mtu : tiny_fd_get_mtu (started h) = mtu.
Proof using Hi. exact (qw_mtu _ _ _ _ _ (wf_i _ _ _ started_wf)). Qed.

Lemma started_addr : fd_addr h = 1.
Proof using Hi Hpb. rewrite (in_addr _ _ _ _ Hi), (pb_addr _ Hpb). reflexivity. Qed.

Lemma started_balanced : balanced (config_of mtu h).
Proof using All.
  split; cbn; rewrite ?started_addr; try done.
  - rewrite (in_mode _ _ _ _ Hi). apply Hpb.
  - rewrite (in_peers _ _ _ _ Hi). pose proof (pb_peers _ Hpb). pose proof (proj1 (ia_peers _ Ha)).
    destruct (Z.eqb_spec (it_peers_count init) 0); lia.
Qed.

Lemma started_separate : separate (config_of mtu h).
Proof using Hi.
  pose proof (proj1 (in_mtu _ _ _ _ Hi)) as Hm. split; cbn.
  - intros i j x y Hx Hy Hne. rewrite list_lookup_fmap in Hx, Hy.
    apply fmap_Some in Hx as (f & Hf & ->), Hy as (g & Hg & ->).
    pose proof (fun a => in_s_apart _ _ _ _ Hi i j f g a Hf Hg) as H. unfold slot_range in H.
    destruct (Z.le_gt_cases (fi_addr f + 4) (fi_addr g)); [by left|].
    destruct (Z.le_gt_cases (fi_addr g + 4) (fi_addr f)); [by right|].
    exfalso. apply Hne, (H (Z.max (fi_addr f) (fi_addr g))); lia.
  - intros x y Hx Hy. apply list_elem_of_fmap in Hx as (f & -> & Hf), Hy as (g & -> & Hg). left.
    pose proof (in_i_before_s _ _ _ _ Hi f g (fi_addr f + 2 + mtu - 1) (fi_addr g) Hf Hg) as H.
    unfold slot_range in H. lia.
Qed.

Lemma started_offline : offline (config_of mtu h) (started h).
Proof using All.
  pose proof started_wf as Hw. pose proof (in_free _ _ _ _ Hi) as Hfree. apply Forall_app in Hfree as [Hfi Hfs].
  pose proof (one_peer _ started_balanced _ _ Hw) as Hp. pose proof (in_state _ _ _ _ Hi) as Hst.
  pose proof (in_peer_addr _ _ _ _ Hi) as Hpa. rewrite (in_mode _ _ _ _ Hi), (pb_mode _ Hpb) in Hpa.
  change (TINY_FD_MODE_ABM =? TINY_FD_MODE_ABM) with true in Hpa. rewrite orb_true_r in Hpa.
  split; [split; [exact Hw|by apply all_free_fifo]|]. unfold apart. cbn. unfold peer_at.
  destruct (fd_peers h) as [|p l]; [cbn in Hp; lia|]. apply Forall_cons in Hst as [Hst _], Hpa as [Hpa _].
  split; [exact Hst|]. split; [exact Hpa|]. split.
  - eapply Forall_impl; [exact Hfi|]. intros f Hf [Ht _]. by rewrite Hf in Ht.
  - pose proof (qw_ok _ _ _ _ _ (wf_i _ _ _ Hw)) as Hok. apply (has_free_slots_iff _ _ Hok).
    pose proof (qo_lookup _ _ Hok) as Hl. pose proof (slot_at_in _ _ Hl) as Hs. eexists _, _. split; [exact Hs|].
    rewrite Forall_lookup in Hfi. by apply (Hfi _ _ Hs).
Qed.

(** No frame was received: the first reading of the clock decides. *)
Lemma started_timed_out millis : fd_retry_timeout h <= u32 (millis 0%nat) -> timed_out millis (started h).
Proof using All.
  intros Ht. unfold timed_out. cbn [handle clock started].
  pose proof (in_silent _ _ _ _ Hi) as Hs. pose proof (one_peer _ started_balanced _ _ started_wf) as Hp.
  unfold peer_at. destruct (fd_peers h) as [|p l]; [cbn in Hp; lia|]. apply Forall_cons in Hs as [Hs _].
  change (nth (Z.to_nat 0) (p :: l) no_peer) with p. rewrite Hs, Z.sub_0_r, (u32_id (u32 _)) by apply fits_u32. exact Ht.
Qed.

End Initialised.

(** A packet for the peer that fits the sender's frames. *)
Definition fits_frame (ha hb : tiny_fd_data_t) (p : bool * Z * list Z) : Prop :=
  let '(first, address, data) := p in
  address = TINY_FD_PRIMARY_ADDR /\ bytes data /\
  Z.of_nat (length data) <= tiny_fd_get_mtu (started (if first : bool then ha else hb)).

Lemma primary_destination h : fd_addr h = 1 -> fd_mode h = TINY_FD_MODE_ABM -> destination h TINY_FD_PRIMARY_ADDR = 0.
Proof.
  intros Ha Hm. unfold destination, __address_field_to_peer, __is_secondary_station, __is_primary_station.
  by rewrite Ha, Hm.
Qed.

Lemma started_sendable ia ib ma mb hdlc_a hdlc_b ha hb
  (Ha : initialised ia ma hdlc_a ha) (Hb : initialised ib mb hdlc_b hb) (Hpa : primary_abm ia) (Hpb : primary_abm ib)
  packets :
  Forall (fits_frame ha hb) packets ->
  Forall (sendable (config_of ma ha) (config_of mb hb) (started ha) (started hb)) packets.
Proof.
  intros Hp. eapply Forall_impl; [exact Hp|]. intros [[first address] data] (-> & Hd & Hl).
  split; [exact Hd|].
  destruct first; [rewrite (started_mtu _ _ _ _ Ha) in Hl|rewrite (started_mtu _ _ _ _ Hb) in Hl];
    (split; [exact Hl|]); apply primary_destination.
  - exact (started_addr _ _ _ _ Ha Hpa).
  - rewrite <- (pb_mode _ Hpa). exact (in_mode _ _ _ _ Ha).
  - exact (started_addr _ _ _ _ Hb Hpb).
  - rewrite <- (pb_mode _ Hpb). exact (in_mode _ _ _ _ Hb).
Qed.

(** ** Property *)

(** C2: a whole session.  Two primary stations in balanced mode are initialised (with 64-bit pointers, on
    buffers aligned to eight bytes, with a CRC type other than OFF); the retry timeout
    of the first has passed at its first look at the clock, or that of both, so that their
    requests cross.  Over a channel that loses nothing the stations connect with the SABM/UA
    exchange; every packet of at most the sender's mtu, in either direction, is accepted at
    once, passed to the other application in order and reported to the sender; then the DISC/UA
    exchange leaves both disconnected with nothing to send: every call succeeds. *)
Theorem tiny_fd_session (millis_a millis_b : nat -> Z) (others_a others_b : Z -> fd_world app -> fd_world app)
  (la lb : layout) (ia ib : tiny_fd_init_t) (hdlc_a hdlc_b : hdlc_ll_data_t) (ha hb : tiny_fd_data_t)
  (crossed : bool) (packets : list (bool * Z * list Z))
  (Hla : layout64 la) (Hlb : layout64 lb) (Hia : init_args ia) (Hib : init_args ib)
  (Hpa : primary_abm ia) (Hpb : primary_abm ib)
  (Ha : tiny_fd_init la ia = (TINY_SUCCESS, Some (hdlc_a, ha)))
  (Hb : tiny_fd_init lb ib = (TINY_SUCCESS, Some (hdlc_b, hb)))
  (Hta : fd_retry_timeout ha <= u32 (millis_a 0%nat))
  (Htb : crossed = true -> fd_retry_timeout hb <= u32 (millis_b 0%nat))
  (Hp : Forall (fits_frame ha hb) packets) :
  let '(results, (a, b)) :=
    session millis_a millis_b others_a others_b crossed packets (started ha) (started hb) in
  results = replicate (length packets + 1) TINY_SUCCESS /\
  received (user b) = payloads true packets /\ confirmed (user a) = payloads true packets /\
  received (user a) = payloads false packets /\ confirmed (user b) = payloads false packets /\
  exists mtu_a mtu_b, offline (config_of mtu_a ha) a /\ offline (config_of mtu_b hb) b.
Proof.
  destruct (fd_init_spec la ia hdlc_a ha Hla Hia Ha) as (ma & Hina).
  destruct (fd_init_spec lb ib hdlc_b hb Hlb Hib Hb) as (mb & Hinb).
  pose proof (started_addr _ _ _ _ Hina Hpa) as Hada. pose proof (started_addr _ _ _ _ Hinb Hpb) as Hadb.
  pose proof (session_runs millis_a millis_b others_a others_b (config_of ma ha) (config_of mb hb)
    (started_balanced _ _ _ _ Hina Hia Hpa) (started_balanced _ _ _ _ Hinb Hib Hpb)
    (started_separate _ _ _ _ Hina) (started_separate _ _ _ _ Hinb)
    ltac:(cbn; by rewrite Hada, Hadb) ltac:(cbn; by rewrite Hada) crossed packets (started ha) (started hb)
    (started_offline _ _ _ _ Hina Hia Hpa) (started_offline _ _ _ _ Hinb Hib Hpb)
    (started_timed_out _ _ _ _ Hina Hia Hpa millis_a Hta)
    (fun E => started_timed_out _ _ _ _ Hinb Hib Hpb millis_b (Htb E)) eq_refl eq_refl
    (started_sendable _ _ _ _ _ _ _ _ Hina Hinb Hpa Hpb packets Hp)) as H.
  destruct (session _ _ _ _ crossed packets _ _) as [results [a b]]. destruct H as (-> & -> & -> & Hoa & Hob).
  split; [done|]. do 4 (split; [done|]). by exists ma, mb.
Qed.

Lemma sample_fd_init_primary : primary_abm sample_fd_init.
Proof. by split. Qed.

(** Requests that cross, nine packets one way, an empty one back, and the end. *)
Lemma tiny_fd_session_witness :
  let '(results, (a, b)) :=
    session (fun _ => 1000) (fun _ => 4294967295) idle_others idle_others true sample_packets
      (started (snd sample_station)) (started (snd sample_station)) in
  results = replicate 12 TINY_SUCCESS /\ received (user b) = replicate 9 [1; 2] ++ [[255]] /\
  confirmed (user a) = replicate 9 [1; 2] ++ [[255]] /\ received (user a) = [[]].
Proof.
  assert (Hm : tiny_fd_get_mtu (started (snd sample_station)) = 32) by by vm_compute.
  assert (Ht : fd_retry_timeout (snd sample_station) = 200) by by vm_compute.
  assert (Hp : Forall (fits_frame (snd sample_station) (snd sample_station)) sample_packets).
  { revert Hm. generalize (snd sample_station). intros h Hm. unfold sample_packets. simpl.
    repeat (apply Forall_cons; split); [..|done]; (split; [done|]); (split; [by repeat constructor|]);
      rewrite Hm; simpl; lia. }
  pose proof (tiny_fd_session (fun _ => 1000) (fun _ => 4294967295) idle_others idle_others layout_64 layout_64
    sample_fd_init sample_fd_init (fst sample_station) (fst sample_station) (snd sample_station) (snd sample_station)
    true sample_packets layout_64_ok layout_64_ok sample_fd_init_ok sample_fd_init_ok sample_fd_init_primary
    sample_fd_init_primary sample_station_init sample_station_init ltac:(rewrite Ht; by vm_compute)
    ltac:(intros _; rewrite Ht; by vm_compute) Hp) as H.
  destruct (session _ _ _ _ true sample_packets _ _) as [results [a b]].
  destruct H as (-> & H1 & H2 & H3 & _). split; [reflexivity|]. split; [exact H1|]. split; [exact H2|exact H3].
Defined.
