(* ===== verification/FdWire.v ===== *)
(** * Frames between two stations as bytes

    What ties the frames of FdE2E.v to the bytes of the framing layer: the memory a frame is
    sent from keeps its contents while frames are received, the receive loop hands
    the frames of the stream to the protocol in order, and a stream that lost frames is
    a sublist of what was sent. *)

From stdpp Require Import relations.
From S2P Require Import Prelude Crc HdlcLL HdlcSpec HdlcTx HdlcRx HdlcLink FdTypes FdQueue FdPeers.
From S2P Require Import FdIQueue FdLog FdService FdTx FdRx Fd FdApi FdInv FdSafe FdStation FdFifo.
From S2P Require Import FdSlots FdFlow FdConn FdMoves FdXmit FdE2E.

(** ** Sublists *)

(** The shortest part of [m] that contains [x]: what follows [x] in any sublist of an
    extension of [m] is a sublist of the rest. *)
Lemma sublist_head {A} `{EqDecision A} (x : A) m :
  [x] `sublist_of` m ->
  exists m1 m2, m = m1 ++ x :: m2 /\
    forall l c, x :: l `sublist_of` m ++ c -> l `sublist_of` m2 ++ c.
Proof.
  induction m as [|y m IH]; intros Hx; [by apply sublist_nil_r in Hx|].
  destruct (decide (y = x)) as [->|Hne].
  - exists [], m. split; [done|]. intros l c Hl. by apply (sublist_app_inv_l [x]).
  - assert (Hinv : forall l k, x :: l `sublist_of` y :: k -> x :: l `sublist_of` k).
    { intros l k Hl. apply sublist_cons_r in Hl as [Hl|(l' & Hl & _)]; [done|congruence]. }
    destruct (IH (Hinv _ _ Hx)) as (m1 & m2 & -> & Hr). exists (y :: m1), m2. split; [done|].
    intros l c Hl. by apply Hr, Hinv.
Qed.

(** ** Slots that keep their contents *)

(** All but the type and the length. *)
Definition same_bytes (f f' : tiny_fd_frame_info_t) : Prop :=
  fi_addr f' = fi_addr f /\ fi_address f' = fi_address f /\ fi_control f' = fi_control f /\
  fi_payload f' = fi_payload f.

Definition occupied (f : tiny_fd_frame_info_t) : Prop :=
  nz (Z.land (fi_type f) TINY_FD_QUEUE_FREE) = false.

(** A frame has been handed to the framing layer. *)
Definition sending (h : tiny_fd_data_t) : Prop := nz (Z.land (fd_events h) FD_EVENT_TX_SENDING) = true.

(** The frames stay in memory: those of the data queue, whatever their type becomes, and
    those of the service queue, which stay queued; and a transmission is not forgotten. *)
Record kept (h h' : tiny_fd_data_t) : Prop := mk_kept {
  kept_i : forall i f, q_frames (fd_i_queue h) !! i = Some f ->
    exists f', q_frames (fd_i_queue h') !! i = Some f' /\ same_bytes f f';
  kept_s : forall i f, q_frames (fd_s_queue h) !! i = Some f -> occupied f ->
    exists f', q_frames (fd_s_queue h') !! i = Some f' /\ same_bytes f f' /\ occupied f';
  kept_sending : sending h -> sending h'
}.

Lemma same_bytes_refl f : same_bytes f f.
Proof. done. Qed.

Lemma same_bytes_trans f g k : same_bytes f g -> same_bytes g k -> same_bytes f k.
Proof. unfold same_bytes. intuition congruence. Qed.

#[export] Instance kept_preorder : PreOrder kept.
Proof.
  split.
  - intros h. split; eauto using same_bytes_refl.
  - intros h1 h2 h3 [I1 S1 E1] [I2 S2 E2']. split; [..|auto].
    + intros i f Hf. destruct (I1 i f Hf) as (f2 & Hf2 & E2). destruct (I2 i f2 Hf2) as (f3 & ? & ?).
      exists f3. eauto using same_bytes_trans.
    + intros i f Hf Ho. destruct (S1 i f Hf Ho) as (f2 & Hf2 & E2 & O2).
      destruct (S2 i f2 Hf2 O2) as (f3 & ? & ? & ?). exists f3. eauto using same_bytes_trans.
Qed.

Lemma kept_queues h h' :
  fd_i_queue h' = fd_i_queue h -> fd_s_queue h' = fd_s_queue h -> fd_events h' = fd_events h -> kept h h'.
Proof. intros Ei Es Ev. split; unfold sending; rewrite ?Ei, ?Es, ?Ev; eauto using same_bytes_refl. Qed.

Lemma land_lor_nz x y m : nz (Z.land x m) = true -> nz (Z.land (Z.lor x y) m) = true.
Proof.
  unfold nz. rewrite Z.land_lor_distr_l, !negb_true_iff, !Z.eqb_neq.
  intros Hx [H _]%Z.lor_eq_0_iff. by apply Hx.
Qed.

Lemma kept_events_set bits h : kept h (fd_events_set bits h).
Proof. split; unfold sending; cbn; [eauto using same_bytes_refl..|]. apply land_lor_nz. Qed.

(** A change of the types of some slots of the data queue. *)
Lemma kept_i_queue g h :
  (forall q i f, q_frames q !! i = Some f -> exists f', q_frames (g q) !! i = Some f' /\ same_bytes f f') ->
  kept h (h <| fd_i_queue ::= g |>).
Proof. intros Hg. split; cbn; eauto using same_bytes_refl. Qed.

Lemma free_by_header_bytes header q i f :
  q_frames q !! i = Some f ->
  exists f', q_frames (tiny_fd_queue_free_by_header q header) !! i = Some f' /\ same_bytes f f'.
Proof.
  intros Hf. unfold tiny_fd_queue_free_by_header. destruct (header_index _ _) as [j|]; [|by exists f].
  cbn. destruct (decide (j = i)) as [->|Hne].
  - rewrite list_lookup_alter_eq, Hf. by eexists.
  - rewrite list_lookup_alter_ne by done. by exists f.
Qed.

Lemma kept_flush peer h : kept h (flush_peer peer h).
Proof.
  apply (kept_i_queue (fun q => tiny_fd_queue_reset_for q (__peer_to_address_field h peer))).
  intros q i f Hf. cbn. rewrite list_lookup_fmap, Hf. cbn. eexists. split; [done|].
  by destruct (same_address _ _).
Qed.

Lemma kept_free slot h : kept h (h <| fd_i_queue ::= fun q => tiny_fd_queue_free q slot |>).
Proof. apply kept_i_queue. intros q i f. apply free_by_header_bytes. Qed.

(** The search for a free slot finds one, if anything. *)
Lemma get_next_loop_matches q type address arg n index i f :
  get_next_loop q type address arg n index = Some i -> q_frames q !! i = Some f ->
  slot_matches type address arg f = true.
Proof.
  revert index. induction n as [|n IH]; intros index; cbn [get_next_loop]; [done|].
  destruct (slot_matches type address arg (slot_at q index)) eqn:E; [|apply IH].
  intros [= <-] Hf. unfold slot_at in E. by rewrite (nth_lookup_Some _ _ _ _ Hf) in E.
Qed.

Lemma allocate_other q type data i q' j f :
  tiny_fd_queue_allocate q type data = (Some i, q') -> q_frames q !! j = Some f -> occupied f ->
  j <> i.
Proof.
  unfold tiny_fd_queue_allocate. destruct (_ <=? _); [|done].
  destruct (tiny_fd_queue_get_next q _ 0 0) as [k|] eqn:E; [|done]. intros [= -> _] Hf Ho ->.
  pose proof (get_next_loop_matches _ _ _ _ _ _ _ _ E Hf) as Hm. revert Hm. unfold slot_matches.
  unfold occupied in Ho. by rewrite Ho.
Qed.

Lemma allocate_frames q type data i q' j :
  tiny_fd_queue_allocate q type data = (Some i, q') -> j <> i -> q_frames q' !! j = q_frames q !! j.
Proof.
  unfold tiny_fd_queue_allocate. destruct (_ <=? _); [|done].
  destruct (tiny_fd_queue_get_next q _ 0 0) as [k|]; [|done]. intros [= -> <-] Hne. cbn.
  by rewrite list_lookup_alter_ne.
Qed.

Lemma kept_put_u_s type data h : kept h (put_u_s type data h).
Proof.
  unfold put_u_s, __put_u_s_frame_to_tx_queue.
  destruct (tiny_fd_queue_allocate _ type (drop 2 data)) as [[i|] q'] eqn:E; cbn [snd].
  - split; cbn; [eauto using same_bytes_refl| |apply land_lor_nz]. intros j f Hf Ho.
    pose proof (allocate_other _ _ _ _ _ _ _ E Hf Ho) as Hne. exists f.
    rewrite list_lookup_alter_ne by (intros ->; by apply Hne).
    split; [|by split]. rewrite <- Hf. by eapply allocate_frames.
  - unfold tiny_fd_queue_allocate in E. apply kept_queues; [done| |done]. revert E. cbn.
    destruct (_ <=? _); [destruct (tiny_fd_queue_get_next _ _ _ _)|]; by intros [= <-].
Qed.

(** ** Reception keeps them *)

Class Keeps (f : tiny_fd_data_t -> tiny_fd_data_t) : Prop := keeps h : kept h (f h).

#[export] Hint Extern 2 (Keeps _) =>
  let h := fresh "h" in
  intros h; first
    [ by apply kept_queues | apply kept_events_set | apply kept_put_u_s | apply kept_flush | apply kept_free
    | unfold tiny_mutex_lock, tiny_mutex_unlock; destruct (fd_mutex h); by apply kept_queues ]
  : typeclass_instances.

Section Reception.

Context (millis : nat -> Z).

#[local] Abbreviation cbs := app_callbacks.
#[local] Abbreviation kept_world w w' := (kept (handle w) (handle w')).

Lemma keeps_on f (w0 w : fd_world app) : Keeps f -> kept_world w0 w -> kept_world w0 (on_handle f w).
Proof using Type. intros Hf Hw. by etrans; [|apply Hf]. Qed.

Lemma keeps_unlocked cb (w0 w : fd_world app) :
  (forall w, handle (cb w) = handle w) ->
  kept_world w0 w -> kept_world w0 (unlocked cb w).
Proof using Type.
  intros Hcb Hw. unfold unlocked. apply keeps_on; [apply _|].
  rewrite Hcb. by apply keeps_on; [apply _|].
Qed.

(** One change of the world at a time. *)
Ltac keep :=
  cbv beta zeta;
  lazymatch goal with
  | |- kept_world ?w ?w => reflexivity
  | |- kept_world _ (on_handle _ _) => apply keeps_on; [apply _|keep]
  | |- kept_world _ (unlocked _ _) => apply keeps_unlocked; [done|keep]
  | |- kept_world _ (if ?b then _ else _) => destruct b; keep
  | |- kept_world ?w0 (?w <| clock ::= S |>) => change (kept_world w0 w); keep
  | |- _ => idtac
  end.

Lemma frame_confirmed_kept peer nr (w : fd_world app) :
  kept_world w (snd (__on_frame_confirmed cbs peer nr w)).
Proof using Type.
  unfold __on_frame_confirmed. destruct (tiny_fd_queue_get_next _ _ _ nr); cbn [snd on_send_cb cbs]; by keep.
Qed.

Lemma confirm_loop_kept fuel peer nr cb (w w' : fd_world app) :
  (forall nr w, kept_world w (snd (cb nr w))) ->
  confirm_loop fuel peer nr cb w = Some w' -> kept_world w w'.
Proof using Type.
  intros Hcb. revert w. induction fuel as [|fuel IH]; intros w; [done|]. cbn [confirm_loop].
  destruct (negb _); [|by intros [= <-]]. destruct (negb _); [by intros [= <-]|].
  pose proof (Hcb (confirm_ns (control_at (handle w) peer)) w) as Hk.
  destruct (cb _ w) as [b w1]. cbn [snd] in Hk. intros Hl. etrans; [exact Hk|].
  apply IH in Hl. etrans; [|exact Hl]. by apply kept_queues.
Qed.

Lemma confirm_sent_kept peer nr (w : fd_world app) : kept_world w (__confirm_sent_frames cbs peer nr w).
Proof using Type.
  unfold __confirm_sent_frames, __i_queue_control_confirm_sent_frames.
  destruct (confirm_loop 9 peer nr _ w) as [w'|] eqn:E; [|done].
  apply confirm_loop_kept in E; [|intros; apply frame_confirmed_kept].
  destruct (negb _); [|done]. by apply keeps_on; [apply _|].
Qed.

Lemma check_received_kept peer ns h : kept h (snd (__check_received_frame peer ns h)).
Proof using Type.
  unfold __check_received_frame. destruct (ns =? _); [by apply kept_queues|].
  destruct (negb _); [|done]. cbv zeta. cbn [snd]. etrans; [|apply kept_put_u_s]. by apply kept_queues.
Qed.

#[export] Instance confirm_with_rr_keeps peer : Keeps (confirm_with_rr peer).
Proof using Type. intros h. unfold confirm_with_rr. cbv zeta. destruct (_ && _); [apply kept_put_u_s|done]. Qed.

Lemma resend_loop_kept fuel peer control nr h h' : resend_loop fuel peer control nr h = Some h' -> kept h h'.
Proof using Type.
  revert h. induction fuel as [|fuel IH]; intros h; [done|]. cbn [resend_loop].
  destruct (negb _); [|by intros [= <-]]. destruct (_ =? _); [intros [= <-]; apply kept_put_u_s|].
  intros Hl. apply IH in Hl. etrans; [|exact Hl]. by apply kept_queues.
Qed.

#[export] Instance resend_keeps peer control nr : Keeps (__resend_all_unconfirmed_frames peer control nr).
Proof using Type.
  intros h. unfold __resend_all_unconfirmed_frames.
  destruct (resend_loop 9 peer control nr h) as [h'|] eqn:E; [|done].
  apply resend_loop_kept in E. etrans; [exact E|]. apply kept_events_set.
Qed.

Lemma switch_connected_kept peer (w0 w : fd_world app) :
  kept_world w0 w -> kept_world w0 (__switch_to_connected_state millis cbs peer w).
Proof using Type.
  intros Hw. unfold __switch_to_connected_state, tiny_millis. cbn [on_connect_event_cb cbs]. by keep.
Qed.

Lemma switch_disconnected_kept peer (w0 w : fd_world app) :
  kept_world w0 w -> kept_world w0 (__switch_to_disconnected_state cbs peer w).
Proof using Type.
  intros Hw. unfold __switch_to_disconnected_state. cbn [on_connect_event_cb cbs]. by keep.
Qed.

Lemma i_frame_kept peer data (w : fd_world app) : kept_world w (snd (__on_i_frame_read cbs peer data w)).
Proof using Type.
  unfold __on_i_frame_read. cbn [on_read_cb cbs].
  pose proof (check_received_kept peer (Z.land (Z.shiftr (frame_control data) 1) 7) (handle w)) as Hk.
  destruct (__check_received_frame peer _ (handle w)) as [r h]. cbn [snd] in Hk.
  pose proof (confirm_sent_kept peer (Z.shiftr (frame_control data) 5) (w <| handle := h |>)) as Hc.
  assert (Hw : kept_world w (__confirm_sent_frames cbs peer (Z.shiftr (frame_control data) 5) (w <| handle := h |>)))
    by by etrans.
  destruct (r =? TINY_SUCCESS); cbn [snd]; by keep.
Qed.

Lemma s_frame_kept peer data (w : fd_world app) : kept_world w (snd (__on_s_frame_read cbs peer data w)).
Proof using Type.
  unfold __on_s_frame_read. cbv zeta. cbn [snd].
  pose proof (confirm_sent_kept peer (Z.shiftr (frame_control data) 5) w) as Hc. by keep.
Qed.

Lemma u_frame_kept peer data (w : fd_world app) :
  kept_world w (snd (__on_u_frame_read millis cbs peer data w)).
Proof using Type.
  unfold __on_u_frame_read. cbv zeta. cbn [snd on_read_ui_cb cbs].
  repeat first [ progress keep | apply switch_connected_kept | apply switch_disconnected_kept ]; try done.
Qed.

(** Receiving a frame. *)
Lemma frame_read_kept data (w : fd_world app) : kept_world w (on_frame_read millis cbs data w).
Proof using Type.
  unfold on_frame_read, tiny_millis. destruct (_ <? 2); [done|].
  assert (Hlog : __tiny_fd_log_frame cbs TINY_FD_FRAME_DIRECTION_IN data w = w).
  { unfold __tiny_fd_log_frame. by destruct data as [|? [|? ?]]. }
  rewrite Hlog. cbv beta iota zeta. destruct (_ =? HDLC_INVALID_PEER_INDEX); [done|].
  set (w1 := on_handle (upd_peer _ _) _). assert (Hw1 : kept_world w w1) by by unfold w1; keep.
  clearbody w1. set (peer := __address_field_to_peer _ _). clearbody peer.
  pose proof (u_frame_kept peer data w1). pose proof (i_frame_kept peer data w1).
  pose proof (s_frame_kept peer data w1). keep; try done; by etrans.
Qed.

End Reception.

(** ** The memory of the slots *)

(** Where each slot begins and ends: the data queue, then the service queue. *)
Definition slot_spans (c : fd_config) : list (Z * Z) :=
  ((fun a => (a, a + 2 + c_mtu c)) <$> c_i_addrs c) ++ ((fun a => (a, a + 4)) <$> c_s_addrs c).

(** No slot is at [NULL], and no two overlap. *)
Record apart (c : fd_config) : Prop := mk_apart {
  ap_null : Forall (fun s => 0 < fst s) (slot_spans c);
  ap_spans : forall i j s t, slot_spans c !! i = Some s -> slot_spans c !! j = Some t -> i <> j ->
    snd s <= fst t \/ snd t <= fst s
}.

(** The slot a reference names. *)
Definition ref_lookup (h : tiny_fd_data_t) (r : frame_ref) : option tiny_fd_frame_info_t :=
  match r with
  | InIQueue i => q_frames (fd_i_queue h) !! i
  | InSQueue i => q_frames (fd_s_queue h) !! i
  end.

Lemma ref_lookup_slot h r f : ref_lookup h r = Some f -> ref_slot h r = f.
Proof. destruct r; cbn; apply slot_at_lookup. Qed.

Section Memory.

Context (c : fd_config) (Hap : apart c).

Definition all_frames (h : tiny_fd_data_t) : list tiny_fd_frame_info_t :=
  q_frames (fd_i_queue h) ++ q_frames (fd_s_queue h).

Definition ref_index (h : tiny_fd_data_t) (r : frame_ref) : nat :=
  match r with InIQueue i => i | InSQueue i => length (q_frames (fd_i_queue h)) + i end.

Lemma ref_all_frames h r f : ref_lookup h r = Some f -> all_frames h !! ref_index h r = Some f.
Proof using Type.
  unfold all_frames. destruct r as [i|i]; cbn; intros Hf; [by apply lookup_app_l_Some|].
  rewrite lookup_app_r by lia. by rewrite Nat.add_comm, Nat.add_sub.
Qed.

(** The span of a slot is as long as its memory. *)
Lemma frame_span b h j f :
  fd_wf c b h -> all_frames h !! j = Some f ->
  slot_spans c !! j = Some (fi_addr f, fi_addr f + 2 + Z.of_nat (length (fi_payload f))).
Proof using Type.
  intros Hw Hj. destruct (wf_i _ _ _ Hw) as [[_ Hi _] Himtu Hia _].
  destruct (wf_s _ _ _ Hw) as [[_ Hs _] Hsmtu Hsa _]. rewrite Himtu in Hi. rewrite Hsmtu in Hs.
  rewrite Forall_lookup in Hi, Hs. unfold slot_spans, all_frames in *. rewrite <- Hia, <- Hsa.
  apply lookup_app_Some in Hj as [Hj|[Hle Hj]].
  - rewrite lookup_app_l by (rewrite !length_fmap; by eapply lookup_lt_Some).
    rewrite !list_lookup_fmap, Hj. cbn. by rewrite (so_payload _ _ _ (Hi _ _ Hj)).
  - rewrite lookup_app_r by (by rewrite !length_fmap). rewrite !length_fmap, !list_lookup_fmap, Hj. cbn.
    by rewrite (so_payload _ _ _ (Hs _ _ Hj)), <- Z.add_assoc.
Qed.

(** What the framing layer reads inside a slot. *)
Lemma mem_slot b h r f x :
  fd_wf c b h -> ref_lookup h r = Some f ->
  fi_addr f <= x < fi_addr f + 2 + Z.of_nat (length (fi_payload f)) -> fd_mem h x = slot_byte f x.
Proof using Hap.
  intros Hw Hr Hx. apply ref_all_frames in Hr. unfold fd_mem. fold (all_frames h).
  rewrite (find_only (slot_contains x) (all_frames h) (ref_index h r) f Hr); [done| |].
  - unfold slot_contains. apply andb_true_iff. split; [apply Z.leb_le|apply Z.ltb_lt]; lia.
  - intros i g Hg Hin. unfold slot_contains in Hin. apply andb_true_iff in Hin as [H1 H2].
    apply Z.leb_le in H1. apply Z.ltb_lt in H2. destruct (decide (i = ref_index h r)) as [|Hne]; [done|].
    destruct (ap_spans _ Hap _ _ _ _ (frame_span _ _ _ _ Hw Hg) (frame_span _ _ _ _ Hw Hr) Hne);
      cbn in *; lia.
Qed.

Lemma slot_byte_same f f' x : same_bytes f f' -> slot_byte f' x = slot_byte f x.
Proof using Type. intros (Ea & E1 & E2 & E3). unfold slot_byte. by rewrite Ea, E1, E2, E3. Qed.

(** The frame in a slot, as the framing layer reads it. *)
Lemma mem_frame b h r f :
  fd_wf c b h -> ref_lookup h r = Some f -> 0 <= fi_len f <= Z.of_nat (length (fi_payload f)) ->
  mem_range (fd_mem h) (fi_addr f) (Z.to_nat (fi_len f + 2)) = frame_bytes f.
Proof using Hap.
  intros Hw Hr Hl. assert (Hlen : length (frame_bytes f) = Z.to_nat (fi_len f + 2)).
  { unfold frame_bytes. cbn. rewrite length_take. lia. }
  rewrite <- Hlen. apply mem_range_nth. intros i x Hi. pose proof (lookup_lt_Some _ _ _ Hi) as Hlt.
  rewrite (mem_slot b h r f _ Hw Hr) by lia. unfold slot_byte, frame_bytes in *.
  destruct i as [|[|i]]; cbn in Hi.
  - injection Hi as <-. by rewrite Z.add_0_r, Z.eqb_refl.
  - injection Hi as <-. rewrite (proj2 (Z.eqb_neq _ _)) by lia. by rewrite Z.eqb_refl.
  - rewrite !(proj2 (Z.eqb_neq _ _)) by lia. apply lookup_take_Some in Hi as [Hi _].
    replace (Z.to_nat _) with i by lia. by apply nth_lookup_Some.
Qed.

(** A slot kept from [h] to [h'] reads the same. *)
Lemma mem_kept b b' h h' r f x :
  fd_wf c b h -> fd_wf c b' h' -> kept h h' -> ref_lookup h r = Some f ->
  (match r with InSQueue _ => occupied f | InIQueue _ => True end) ->
  fi_addr f <= x < fi_addr f + 2 + Z.of_nat (length (fi_payload f)) -> fd_mem h' x = fd_mem h x.
Proof using Hap.
  intros Hw Hw' [Hi Hs] Hr Ho Hx.
  assert (exists f', ref_lookup h' r = Some f' /\ same_bytes f f') as (f' & Hr' & Hsame).
  { destruct r as [i|i]; [by apply Hi|]. destruct (Hs i f Hr Ho) as (f' & ? & ? & _). by exists f'. }
  rewrite (mem_slot b h r f x Hw Hr Hx), (mem_slot b' h' r f' x Hw' Hr'); [by apply slot_byte_same|].
  destruct Hsame as (-> & _ & _ & ->). done.
Qed.

End Memory.

Lemma apart_separate c : 0 <= c_mtu c -> apart c -> separate c.
Proof.
  intros Hm [_ Hs].
  assert (Hspan : forall j a, c_s_addrs c !! j = Some a ->
            slot_spans c !! (length (c_i_addrs c) + j)%nat = Some (a, a + 4)).
  { intros j a Hj. unfold slot_spans. rewrite lookup_app_r by (rewrite length_fmap; lia).
    rewrite length_fmap, list_lookup_fmap. replace (_ + j - _)%nat with j by lia. by rewrite Hj. }
  split.
  - intros i j a b Ha Hb Hne. apply (Hs _ _ _ _ (Hspan i a Ha) (Hspan j b Hb)). lia.
  - intros a b Ha Hb. apply list_elem_of_lookup in Ha as [i Hi], Hb as [j Hj].
    assert (Hia : slot_spans c !! i = Some (a, a + 2 + c_mtu c)).
    { unfold slot_spans. rewrite lookup_app_l by (rewrite length_fmap; by eapply lookup_lt_Some).
      by rewrite list_lookup_fmap, Hi. }
    apply lookup_lt_Some in Hi. apply (Hs _ _ _ _ Hia (Hspan j b Hj)). lia.
Qed.

(** ** The chosen frame is in its slot *)

Definition ref_occupied (r : frame_ref) (f : tiny_fd_frame_info_t) : Prop :=
  match r with InIQueue _ => True | InSQueue _ => occupied f end.

Definition ref_present (h : tiny_fd_data_t) (r : frame_ref) : Prop :=
  exists f, ref_lookup h r = Some f /\ ref_occupied r f.

Lemma present_upd_ref h r r' g :
  (forall f, fi_type (g f) = fi_type f) -> ref_present h r -> ref_present (upd_ref r' g h) r.
Proof.
  intros Hg (f & Hf & Ho). unfold ref_present.
  assert (Ho' : ref_occupied r (g f)).
  { destruct r; [done|]. cbn in *. unfold occupied in *. by rewrite Hg. }
  destruct r as [i|i], r' as [j|j]; cbn in *; try by exists f.
  all: destruct (decide (j = i)) as [->|Hne]; [rewrite list_lookup_alter_eq, Hf; by exists (g f)|].
  all: rewrite list_lookup_alter_ne by done; by exists f.
Qed.

Section Choice.

Context (millis : nat -> Z) (c : fd_config) (Hc : balanced c).

Lemma next_s_u_present b h peer address r h' :
  fd_wf c b h -> tiny_fd_get_next_s_u_frame_to_send h peer address = (Some r, h') -> ref_present h' r.
Proof using Type.
  intros Hw. pose proof (qw_ok _ _ _ _ _ (wf_s _ _ _ Hw)) as Hq. unfold tiny_fd_get_next_s_u_frame_to_send.
  destruct (tiny_fd_queue_get_next _ _ _ _) as [i|] eqn:E; [|done]. intros [= <- <-].
  apply get_next_Some in E as (f & Hf & Hm); [|apply Hq].
  assert (Hok : slot_ok (Z.lor TINY_FD_QUEUE_S_FRAME TINY_FD_QUEUE_U_FRAME) (q_mtu (fd_s_queue h)) f).
  { eapply Forall_lookup_1; [exact (qo_slots _ _ Hq)|exact Hf]. }
  apply (slot_matches_su_iff _ _ _ _ _ Hok) in Hm as [Ht _]. exists f. split.
  - by destruct (_ =? HDLC_S_FRAME_BITS).
  - cbn. unfold occupied. by destruct Ht as [-> | ->].
Qed.

Lemma present_same h h' r :
  fd_i_queue h' = fd_i_queue h -> fd_s_queue h' = fd_s_queue h -> ref_present h r -> ref_present h' r.
Proof using Type. intros Ei Es (f & Hf & Ho). exists f. split; [|done]. destruct r; cbn in *; by rewrite ?Ei, ?Es. Qed.

Lemma next_i_present b (w : fd_world app) peer address r w' :
  fd_wf c b (handle w) -> tiny_fd_get_next_i_frame millis peer address w = (Some r, w') ->
  ref_present (handle w') r.
Proof using Type.
  intros Hw. pose proof (qo_lookup _ _ (qw_ok _ _ _ _ _ (wf_i _ _ _ Hw))) as Hq.
  assert (Hsome : forall ns i, tiny_fd_queue_get_next (fd_i_queue (handle w)) TINY_FD_QUEUE_I_FRAME address ns = Some i ->
            ref_present (handle w) (InIQueue i)).
  { intros ns i E. apply get_next_Some in E as (f & Hf & _); [|exact Hq]. by exists f. }
  unfold tiny_fd_get_next_i_frame. cbv zeta. destruct (_ || _); [done|]. destruct (negb _).
  - destruct (first_requested _ _ _) as [ns|]; [|done].
    destruct (tiny_fd_queue_get_next _ _ _ ns) as [i|] eqn:E; [|done]. intros [= <- <-].
    set (w1 := on_handle (upd_peer peer _) w).
    apply (present_same (stamp_nr peer i (handle w1))); [done..|].
    apply present_upd_ref; [done|]. apply (present_same (handle w)); [done..|]. by eapply Hsome.
  - destruct (tiny_fd_queue_get_next _ _ _ _) as [i|] eqn:E; [|done]. intros [= <- <-].
    apply (present_same (stamp_nr peer i (handle w))); [done..|].
    apply present_upd_ref; [done|]. by eapply Hsome.
Qed.

Lemma next_frame_present (w : fd_world app) r w' :
  fd_wf c false (handle w) -> tiny_fd_get_next_frame_to_send millis app_callbacks 0 w = (Some r, w') ->
  ref_present (handle w') r.
Proof using Hc.
  intros Hw. apply fd_wf_lock in Hw. unfold tiny_fd_get_next_frame_to_send.
  change (tiny_mutex_lock (handle w)) with (handle (on_handle tiny_mutex_lock w)) in Hw.
  revert Hw. generalize (on_handle tiny_mutex_lock w). clear w. intros w Hw. cbv zeta.
  set (address := __peer_to_address_field (handle w) 0). clearbody address.
  pose proof (next_s_u_present true (handle w) 0 address) as Hs.
  pose proof (get_next_s_u_wf c true (handle w) 0 address Hw) as Hsw.
  destruct (tiny_fd_get_next_s_u_frame_to_send _ 0 address) as [data h]. cbn [snd] in Hsw.
  set (w1 := w <| handle := h |>).
  assert (Hchoice : forall d w2, match data with
            | Some r => (Some r, w1)
            | None => tiny_fd_get_next_i_frame millis 0 address w1 end = (d, w2) ->
            fd_wf c true (handle w2) /\ (forall r, d = Some r -> ref_present (handle w2) r)).
  { intros d w2. destruct data as [r1|].
    - intros [= <- <-]. split; [done|]. intros r2 [= <-]. by eapply Hs.
    - intros E. split.
      + pose proof (get_next_i_frame_wf millis c true 0 address w1 Hsw) as H. by rewrite E in H.
      + intros r2 ->. by eapply (next_i_present true w1). }
  destruct (match data with Some _ => _ | None => _ end) as [d w2].
  destruct (Hchoice d w2 eq_refl) as [Hw2 Hp]. destruct d as [r2|].
  - set (w3 := if needs_pf _ _ _ then _ else w2). cbn [tiny_millis].
    assert (Hp3 : ref_present (handle w3) r2).
    { unfold w3. destruct (needs_pf _ _ _); [apply present_upd_ref; [done|]|]; by apply Hp. }
    set (w4 := __tiny_fd_log_frame _ _ _ _). intros [= <- <-].
    apply (present_same (handle w3)); [..|exact Hp3].
    all: change (handle (on_handle tiny_mutex_unlock w4)) with (tiny_mutex_unlock (handle w4)).
    all: unfold tiny_mutex_unlock; by destruct (fd_mutex _).
  - rewrite (wf_mode _ _ _ Hw2), (ba_mode c Hc). done.
Qed.

End Choice.

(** ** The receive loop *)

Abbreviation payloads := HdlcSpec.delivered.

(** The transmit half of a handle is the same. *)
Definition same_tx (h h' : hdlc_ll_data_t) : Prop :=
  set_rx (fresh_handle HDLC_CRC_OFF 0 0) h' = set_rx (fresh_handle HDLC_CRC_OFF 0 0) h.

Lemma same_tx_fields h h' : same_tx h h' ->
  tx_state h' = tx_state h /\ tx_origin_data h' = tx_origin_data h /\ tx_data h' = tx_data h /\
  tx_len h' = tx_len h /\ tx_crc h' = tx_crc h /\ tx_escape h' = tx_escape h /\
  crc_type h' = crc_type h /\ phys_mtu h' = phys_mtu h.
Proof.
  intros E. pose proof (f_equal (fun k => (tx_state k, tx_origin_data k, tx_data k, tx_len k, tx_crc k,
    tx_escape k, crc_type k, phys_mtu k)) E) as H. cbn in H. by simplify_eq.
Qed.

Section Receive.

Context {US : Type} (millis : nat -> Z) (cbs : fd_callbacks US).

Lemma deliver_frames es (lw : hdlc_ll_data_t * fd_world US) :
  deliver (fd_client millis cbs) lw es =
    (fst lw, foldl (fun w frame => on_frame_read millis cbs frame w) (snd lw) (payloads es)).
Proof using Type.
  revert lw. induction es as [|e es IH]; intros lw; [by destruct lw|].
  change (deliver (fd_client millis cbs) lw (e :: es)) with
    (deliver (fd_client millis cbs) (deliver_event (fd_client millis cbs) lw e) es).
  rewrite IH. by destruct e.
Qed.

(** [tiny_fd_on_rx_data] hands the frames of the stream to [on_frame_read], in order. *)
Lemma on_rx_data_frames (h : hdlc_ll_data_t) (w : fd_world US) (data : list Z) :
  rx_ready h -> bytes data ->
  exists h' es,
    tiny_fd_on_rx_data millis cbs (h, w) data =
      (TINY_SUCCESS, (h', foldl (fun w frame => on_frame_read millis cbs frame w) w (payloads es))) /\
    receive (crc_type h) (phys_mtu h) (rx_abs h) data = (rx_abs h', es) /\ rx_ready h' /\ same_tx h h'.
Proof using Type.
  intros Hr Hd.
  destruct (on_rx_data_spec (fd_client millis cbs) (h, w) data Hr Hd)
    as (errs & [h' w'] & Hrun & Hr' & _ & _ & es & Hes & Hh & _).
  unfold happened, client_view in Hh. rewrite deliver_frames in Hh. cbn [fst snd] in *.
  pose proof (f_equal fst Hh) as Hh1. pose proof (f_equal snd Hh) as Hw. cbn [fst snd] in Hh1, Hw.
  exists h', es. unfold tiny_fd_on_rx_data. rewrite Hrun, Hw. done.
Qed.

End Receive.

(** ** The bytes still to send *)

(** The bytes of the frame in transit that are still read from memory. *)
Definition unsent (mem : Z -> Z) (h : hdlc_ll_data_t) : list Z :=
  match tx_state h with
  | TX_SEND_START | TX_SEND_DATA =>
      if tx_origin_data h =? 0 then [] else mem_range mem (tx_data h) (Z.to_nat (tx_len h))
  | _ => []
  end.

Lemma mem_range_head mem a n b l : mem_range mem a n = b :: l -> mem a = b.
Proof. destruct n; [done|]. by intros [= <- _]. Qed.

(** They are all the framing layer needs of the memory. *)
Lemma unsent_pending mem mem' total h :
  tx_inv mem total h -> unsent mem' h = unsent mem h ->
  tx_inv mem' total h /\ tx_pending mem' h = tx_pending mem h.
Proof.
  intros (Hc & He & Hst) Hu. unfold tx_inv, tx_pending, unsent in *.
  destruct (tx_state h); try by split.
  - destruct (Z.eqb_spec (tx_origin_data h) 0); [done|]. by rewrite Hu.
  - destruct Hst as (Ho & Hl & Hsum & Hsp). rewrite (proj2 (Z.eqb_neq _ _) Ho) in Hu.
    split; [|by rewrite Hu]. split; [done|]. split; [done|]. split; [done|]. split; [done|]. split; [done|].
    intros H1. destruct (mem_range mem (tx_data h) (Z.to_nat (tx_len h))) as [|b l] eqn:E.
    { apply (f_equal length) in E. rewrite mem_range_length in E. cbn in E. lia. }
    rewrite (mem_range_head _ _ _ _ _ Hu), <- (mem_range_head _ _ _ _ _ E). by apply Hsp.
Qed.

Lemma same_tx_pending mem total h h' :
  same_tx h h' -> tx_inv mem total h -> tx_inv mem total h' /\ tx_pending mem h' = tx_pending mem h.
Proof.
  intros (E1 & E2 & E3 & E4 & E5 & E6 & E7 & _)%same_tx_fields Hi.
  unfold tx_inv, tx_pending in *. rewrite E1, E2, E3, E4, E5, E6, E7. done.
Qed.

Lemma same_tx_idle h h' : same_tx h h' -> tx_idle h' <-> tx_idle h.
Proof. intros (E1 & E2 & _)%same_tx_fields. unfold tx_idle. by rewrite E1, E2. Qed.
