(* ===== verification/FdBytes.v ===== *)
(** * Two stations over a byte channel

    The whole protocol: the application's calls, [tiny_fd_get_tx_data] with buffers of any size and
    [tiny_fd_on_rx_data] with pieces of any size, on channels of bytes that may be damaged in any
    way that makes the receiver find no frame that was not sent.  Every step of this system
    is a sequence of steps of the frame-level system of FdE2E.v, or an event or clock change
    that matters to none. *)

From stdpp Require Import relations.
From S2P Require Import Prelude Crc HdlcLL HdlcSpec HdlcTx HdlcRx HdlcLink FdTypes FdQueue FdPeers.
From S2P Require Import FdIQueue FdLog FdService FdTx FdRx Fd FdApi FdInv FdSafe FdStation FdFifo.
From S2P Require Import FdSlots FdFlow FdConn FdMoves FdXmit FdE2E FdWire.

(** ** The system *)

(** A station: its framing handle, its world, and the packets it has accepted for
    sending. *)
Record endpoint : Type := mk_endpoint {
  ep_hdlc : hdlc_ll_data_t;
  ep_world : fd_world app;
  ep_sent : list (list Z)
}.

#[export] Instance eta_endpoint : Eta endpoint := fun e =>
  mk_endpoint (ep_hdlc e) (ep_world e) (ep_sent e).

(** The frames a receiver in state [s] finds in a stream. *)
Definition found (h : hdlc_ll_data_t) (s : receiver) (l : list Z) : list (list Z) :=
  payloads (snd (receive (crc_type h) (phys_mtu h) s l)).

(** Damage that the receiver detects: whatever follows, it finds no frame in the damaged
    stream that it would not have found, in the same order, in the original one. *)
Definition harmless (h : hdlc_ll_data_t) (l l' : list Z) : Prop :=
  forall k, found h (rx_abs h) (l' ++ k) `sublist_of` found h (rx_abs h) (l ++ k).

Section Endpoint.

Context (millis : nat -> Z) (others : Z -> fd_world app -> fd_world app).

(** A call at a station with its incoming and outgoing channel.  A packet may be queued
    unless its slot is still being transmitted from, and a poll must not end the connection. *)
Inductive endpoint_step : endpoint -> list Z -> list Z -> endpoint -> list Z -> list Z -> Prop :=
| EpSend e inp out address data res w : bytes data ->
    tiny_fd_send_packet_to millis others address data 0 (ep_world e) = (res, w) ->
    unsent (fd_mem (handle w)) (ep_hdlc e) = unsent (fd_mem (handle (ep_world e))) (ep_hdlc e) ->
    endpoint_step e inp out
      (mk_endpoint (ep_hdlc e) w (if res =? TINY_SUCCESS then ep_sent e ++ [data] else ep_sent e)) inp out
| EpPoll e inp out len res sent h w :
    tiny_fd_get_tx_data millis others app_callbacks (ep_hdlc e, ep_world e) len 0 = (res, sent, (h, w)) ->
    pi_state (peer_at (handle w) 0) = TINY_FD_STATE_CONNECTED ->
    endpoint_step e inp out (mk_endpoint h w (ep_sent e)) inp (out ++ sent)
| EpRead e piece inp out res h w :
    tiny_fd_on_rx_data millis app_callbacks (ep_hdlc e, ep_world e) piece = (res, (h, w)) ->
    endpoint_step e (piece ++ inp) out (mk_endpoint h w (ep_sent e)) inp out
| EpDamage e inp inp' out : bytes inp' -> harmless (ep_hdlc e) inp inp' ->
    endpoint_step e inp out e inp' out.

End Endpoint.

(** Two stations, [by_ab] the bytes from the first to the second. *)
Record byte_system : Type := mk_byte_system {
  by_a : endpoint;
  by_b : endpoint;
  by_ab : list Z;
  by_ba : list Z
}.

Section System.

Context (millis_a millis_b : nat -> Z) (others_a others_b : Z -> fd_world app -> fd_world app).

Inductive byte_step : byte_system -> byte_system -> Prop :=
| ByteA a b ab ba a' ab' ba' :
    endpoint_step millis_a others_a a ba ab a' ba' ab' ->
    byte_step (mk_byte_system a b ab ba) (mk_byte_system a' b ab' ba')
| ByteB a b ab ba b' ab' ba' :
    endpoint_step millis_b others_b b ab ba b' ab' ba' ->
    byte_step (mk_byte_system a b ab ba) (mk_byte_system a b' ab' ba').

End System.

(** ** Invariant *)

(** The frame-level view of a station. *)
Definition side_of (e : endpoint) : side :=
  mk_side (ep_world e) (ep_sent e)
    (if decide (tx_idle (ep_hdlc e)) then None else Some (tx_origin_data (ep_hdlc e))).

(** The bytes of the frame in transit that are still to be produced. *)
Definition pending (e : endpoint) : list Z := tx_pending (fd_mem (handle (ep_world e))) (ep_hdlc e).

(** The channel and the rest of the frame in transit contain the frames [frames]; after
    them the receiver is at a frame boundary. *)
Record carried (x y : endpoint) (chan : list Z) (frames : list (list Z)) : Prop := mk_carried {
  ca_bytes : bytes (chan ++ pending x);
  ca_found : forall k,
    found (ep_hdlc y) (rx_abs (ep_hdlc y)) (chan ++ pending x ++ k) `sublist_of`
      frames ++ found (ep_hdlc y) Hunting k
}.

(** The frame in transit, of [total] bytes, is in a slot. *)
Definition in_slot (h : tiny_fd_data_t) (hdlc : hdlc_ll_data_t) (total : Z) : Prop :=
  exists r f, ref_lookup h r = Some f /\ ref_occupied r f /\ tx_origin_data hdlc = fi_addr f /\
    0 < total <= 2 + Z.of_nat (length (fi_payload f)).

Record endpoint_ok (c : fd_config) (h : hdlc_ll_data_t) (w : fd_world app) : Prop := mk_endpoint_ok {
  eo_rx : rx_ready h;
  eo_idle : tx_idle h -> tx_escape h = 0;
  eo_tx : exists total, tx_inv (fd_mem (handle w)) total h /\
            (~ tx_idle h -> in_slot (handle w) h total);
  eo_sending : ~ tx_idle h -> sending (handle w)
}.

(** Every frame of the station fits the receiver of the other. *)
Definition fits_link (c : fd_config) (h : hdlc_ll_data_t) : Prop :=
  Z.max 2 (c_mtu c) + 2 + Z.of_nat (fcs_size (crc_type h)) <= phys_mtu h.

Record byte_connection (ca cb : fd_config) (a b : endpoint) (ab ba : list Z)
  (fab fba : list (list Z)) : Prop := mk_byte_connection {
  bc_frames : connected ca cb (side_of a) (side_of b) fab fba;
  bc_a : endpoint_ok ca (ep_hdlc a) (ep_world a);
  bc_b : endpoint_ok cb (ep_hdlc b) (ep_world b);
  bc_ab : carried a b ab fab;
  bc_ba : carried b a ba fba;
  bc_crc : crc_type (ep_hdlc a) = crc_type (ep_hdlc b);
  bc_fits_a : fits_link ca (ep_hdlc b);
  bc_fits_b : fits_link cb (ep_hdlc a)
}.

Definition byte_connected ca cb a b ab ba : Prop :=
  exists fab fba, byte_connection ca cb a b ab ba fab fba.

Lemma byte_connected_sym ca cb a b ab ba :
  byte_connected ca cb a b ab ba -> byte_connected cb ca b a ba ab.
Proof.
  intros (fab & fba & []). exists fba, fab. split; try done. by apply connected_sym.
Qed.

(** *** Shared facts *)

Lemma found_app h s l k :
  found h s (l ++ k) =
  let '(s', es) := receive (crc_type h) (phys_mtu h) s l in payloads es ++ found h s' k.
Proof.
  unfold found. rewrite receive_app. destruct (receive _ _ s l) as [s1 e1].
  destruct (receive _ _ s1 k) as [s2 e2]. cbn [snd]. apply delivered_app.
Qed.

Lemma found_nil h s : found h s [] = [].
Proof. done. Qed.

Lemma found_config h h' s l :
  crc_type h' = crc_type h -> phys_mtu h' = phys_mtu h -> found h' s l = found h s l.
Proof. unfold found. by intros -> ->. Qed.

(** The next frame. *)
Lemma found_frame h p k :
  p <> [] -> Z.of_nat (length p + fcs_size (crc_type h)) <= phys_mtu h ->
  found h Hunting (wire_frame (crc_type h) p ++ k) = p :: found h Hunting k.
Proof. intros Hp Hl. rewrite found_app, receive_frame_from; auto. Qed.

Lemma connected_wf ca cb a b ab ba :
  connected ca cb a b ab ba -> fd_wf ca false (handle (sd_world a)).
Proof. intros (? & ? & ? & ? & ? & ? & [_ _ (acks & Hu & _) _ _ _]). apply Hu. Qed.

(** Events and the clock do not matter. *)
Lemma connected_world ca cb w w' sent tx b ab ba :
  connected ca cb (mk_side w sent tx) b ab ba -> fd_wf ca false (handle w') ->
  fd_peers (handle w') = fd_peers (handle w) -> fd_i_queue (handle w') = fd_i_queue (handle w) ->
  fd_s_queue (handle w') = fd_s_queue (handle w) -> user w' = user w ->
  connected ca cb (mk_side w' sent tx) b ab ba.
Proof.
  intros (fab & fba & wab & wba & pa & pb & [[] [] (acks & Hu & Ht) Hb E1 E2]) Hwf Hp Hi Hs Hus.
  exists fab, fba, wab, wba, pa, pb. split; try done; [split|split|]; cbn in *; try done; [by rewrite Hus..|].
  exists acks. split; [|done]. by eapply up_handle.
Qed.

Lemma wf_mtu c b h : fd_wf c b h -> 0 <= c_mtu c.
Proof.
  intros Hw. destruct (wf_i _ _ _ Hw) as [[Hl Hs _] Hm _ _].
  destruct (q_frames (fd_i_queue h)) as [|f l] eqn:E; [unfold q_size in Hl; rewrite E in Hl; cbn in Hl; lia|].
  apply Forall_cons in Hs as [Hs _]. pose proof (so_len _ _ _ Hs). lia.
Qed.

Lemma rx_view_config h h' : rx_view h' = rx_view h ->
  crc_type h' = crc_type h /\ phys_mtu h' = phys_mtu h /\ rx_abs h' = rx_abs h.
Proof.
  intros Hv. split; [exact (f_equal crc_type Hv)|]. split; [exact (f_equal phys_mtu Hv)|].
  exact (f_equal rx_abs Hv).
Qed.

Lemma side_idle e : tx_idle (ep_hdlc e) -> side_of e = mk_side (ep_world e) (ep_sent e) None.
Proof. intros Hi. unfold side_of. by destruct (decide _). Qed.

Lemma side_busy e : ~ tx_idle (ep_hdlc e) ->
  side_of e = mk_side (ep_world e) (ep_sent e) (Some (tx_origin_data (ep_hdlc e))).
Proof. intros Hi. unfold side_of. by destruct (decide _). Qed.

(** What a slot holds is a frame that can be sent. *)
Lemma slot_frame_ok c b h r f :
  apart c -> fd_wf c b h -> ref_lookup h r = Some f ->
  0 < fi_addr f /\ 0 <= fi_len f <= Z.of_nat (length (fi_payload f)) /\
  Z.of_nat (length (fi_payload f)) <= Z.max 2 (c_mtu c) /\ bytes (frame_bytes f).
Proof.
  intros Hap Hw Hf. split.
  { pose proof (frame_span c b h _ f Hw (ref_all_frames _ _ _ Hf)) as Hsp.
    pose proof (ap_null _ Hap) as Hn. rewrite Forall_lookup in Hn. apply (Hn _ _ Hsp). }
  destruct (wf_i _ _ _ Hw) as [[_ Hqi _] Hmi _ _], (wf_s _ _ _ Hw) as [[_ Hqs _] Hms _ _].
  rewrite Forall_lookup in Hqi, Hqs. rewrite Hmi in Hqi. rewrite Hms in Hqs.
  assert (exists types mtu, slot_ok types mtu f /\ mtu <= Z.max 2 (c_mtu c)) as (ty & mtu & [] & Hm).
  { destruct r as [i|i]; cbn in Hf; do 2 eexists; (split; [by eauto|lia]). }
  split; [lia|]. split; [lia|]. unfold frame_bytes. apply bytes_cons. split; [done|].
  apply bytes_cons. split; [done|]. by apply bytes_take.
Qed.

(** The station sends; its receiver is untouched. *)
Lemma sender_moves ca cb a a' b ab ab' ba fab fab' fba :
  byte_connection ca cb a b ab ba fab fba ->
  connected ca cb (side_of a') (side_of b) fab' fba ->
  endpoint_ok ca (ep_hdlc a') (ep_world a') -> carried a' b ab' fab' ->
  rx_view (ep_hdlc a') = rx_view (ep_hdlc a) ->
  byte_connection ca cb a' b ab' ba fab' fba.
Proof.
  intros [] Hc Hok Hcar Hv. destruct (rx_view_config _ _ Hv) as (Ec & Em & Ea).
  split; try done; [split|by rewrite Ec|].
  - apply bc_ba0.
  - intros k. rewrite !(found_config _ _ _ _ Ec Em), Ea. apply bc_ba0.
  - unfold fits_link in *. by rewrite Ec, Em.
Qed.

(** An idle transmitter with nothing pending. *)
Lemma idle_ok c h w :
  rx_ready h -> tx_idle h -> tx_escape h = 0 -> endpoint_ok c h w.
Proof.
  intros Hr Hi He. split; try done. exists 0. split; [|by intros []].
  apply tx_inv_idle; [apply Hr|done|done].
Qed.

(** ** A lost connection stays lost *)

Definition down (h : tiny_fd_data_t) : Prop := pi_state (peer_at h 0) <> TINY_FD_STATE_CONNECTED.

Class KeepsDown (f : tiny_fd_data_t -> tiny_fd_data_t) : Prop := keeps_down h : down h -> down (f h).

Lemma down_upd_peer k f h :
  (forall p, pi_state p <> TINY_FD_STATE_CONNECTED -> pi_state (f p) <> TINY_FD_STATE_CONNECTED) ->
  down h -> down (upd_peer k f h).
Proof.
  intros Hf. unfold down, peer_at, upd_peer. cbn. change (Z.to_nat 0) with 0%nat.
  destruct (fd_peers h) as [|p l]; [by destruct (Z.to_nat k)|]. destruct (Z.to_nat k); cbn; auto.
Qed.

#[export] Hint Extern 2 (KeepsDown _) =>
  let h := fresh "h" in let Hd := fresh "Hd" in
  intros h Hd; first
    [ exact Hd | apply down_upd_peer; [done|exact Hd]
    | unfold tiny_mutex_lock, tiny_mutex_unlock; by destruct (fd_mutex h) ] : typeclass_instances.

Section Down.

Context (millis : nat -> Z).
#[local] Abbreviation cbs := app_callbacks.
#[local] Abbreviation lost w := (down (handle w)).

Lemma lost_on f (w : fd_world app) : KeepsDown f -> lost w -> lost (on_handle f w).
Proof using Type. intros Hf. apply Hf. Qed.

#[export] Instance put_u_s_down type data : KeepsDown (put_u_s type data).
Proof using Type.
  intros h Hd. unfold put_u_s, __put_u_s_frame_to_tx_queue.
  by destruct (tiny_fd_queue_allocate _ _ _) as [[i|] q].
Qed.

#[export] Instance put_u_down peer cr (type : tiny_fd_data_t -> Z) :
  KeepsDown (fun h => put_u peer cr (type h) h).
Proof using Type. intros h Hd. unfold put_u. by apply put_u_s_down. Qed.

#[export] Instance stamp_nr_down peer i : KeepsDown (stamp_nr peer i).
Proof using Type. intros h Hd. exact Hd. Qed.

#[export] Instance upd_ref_down r g : KeepsDown (upd_ref r g).
Proof using Type. intros h Hd. by destruct r. Qed.

#[export] Instance resend_down peer control nr : KeepsDown (__resend_all_unconfirmed_frames peer control nr).
Proof using Type.
  intros h Hd. unfold __resend_all_unconfirmed_frames.
  assert (Hl : forall fuel h h', down h -> resend_loop fuel peer control nr h = Some h' -> down h').
  { clear. induction fuel as [|fuel IH]; intros h h' Hd; [done|]. cbn [resend_loop].
    destruct (negb _); [|by intros [= <-]]. destruct (_ =? _); [intros [= <-]; by apply put_u_s_down|].
    apply IH. by apply down_upd_peer. }
  destruct (resend_loop 9 peer control nr h) as [h'|] eqn:E; [|done]. by apply (Hl _ _ _ Hd E).
Qed.

(** One change of the world at a time. *)
Ltac stay_lost :=
  cbv beta zeta;
  lazymatch goal with
  | |- lost (on_handle _ _) => apply lost_on; [apply _|stay_lost]
  | |- lost (snd (if ?b then _ else _)) => destruct b; stay_lost
  | |- lost (if ?b then _ else _) => destruct b; stay_lost
  | |- lost (?w <| clock ::= S |>) => change (lost w); stay_lost
  | |- lost (unlocked _ _) => unfold unlocked; stay_lost
  | |- _ => try assumption
  end.

Lemma disconnected_down peer (w : fd_world app) : lost w -> lost (__switch_to_disconnected_state cbs peer w).
Proof using Type.
  intros Hd. unfold __switch_to_disconnected_state. cbn [on_connect_event_cb cbs].
  destruct (bool_decide _); [done|]. apply lost_on; [apply _|]. by stay_lost.
Qed.

Lemma idle_timeout_down peer (w : fd_world app) : lost w -> lost (check_idle_timeout millis cbs peer w).
Proof using Type.
  intros Hd. unfold check_idle_timeout, tiny_fd_connected_check_idle_timeout,
    tiny_fd_disconnected_check_idle_timeout, __time_passed_since_last_frame_received,
    __time_passed_since_last_frame_sent, time_since, tiny_millis.
  stay_lost; try apply disconnected_down; by stay_lost.
Qed.

Lemma next_i_down peer address (w : fd_world app) :
  lost w -> lost (snd (tiny_fd_get_next_i_frame millis peer address w)).
Proof using Type.
  intros Hd. unfold tiny_fd_get_next_i_frame, mark_i_sent, tiny_millis. cbv zeta.
  destruct (_ || _); [done|]. destruct (negb _).
  - destruct (first_requested _ _ _); [|done]. destruct (tiny_fd_queue_get_next _ _ _ _); cbn [snd]; by stay_lost.
  - destruct (tiny_fd_queue_get_next _ _ _ _); cbn [snd]; by stay_lost.
Qed.

Lemma next_s_u_down h peer address : down h -> down (snd (tiny_fd_get_next_s_u_frame_to_send h peer address)).
Proof using Type.
  intros Hd. unfold tiny_fd_get_next_s_u_frame_to_send. destruct (tiny_fd_queue_get_next _ _ _ _); [|done].
  cbn [snd]. destruct (_ =? _); [|done]. by apply down_upd_peer.
Qed.

Lemma next_frame_down peer (w : fd_world app) :
  lost w -> lost (snd (tiny_fd_get_next_frame_to_send millis cbs peer w)).
Proof using Type.
  intros Hd. unfold tiny_fd_get_next_frame_to_send. cbv zeta.
  assert (Hd0 : lost (on_handle tiny_mutex_lock w)) by by stay_lost.
  revert Hd0. generalize (on_handle tiny_mutex_lock w). clear. intros w Hd.
  set (address := __peer_to_address_field _ _). clearbody address.
  pose proof (next_s_u_down (handle w) peer address Hd) as H1.
  destruct (tiny_fd_get_next_s_u_frame_to_send (handle w) peer address) as [d h]. cbn [snd] in H1.
  set (w1 := w <| handle := h |>). assert (Hd1 : lost w1) by exact H1. clearbody w1.
  set (choice := match d with Some _ => _ | None => _ end).
  assert (Hd2 : lost (snd choice)) by (unfold choice; destruct d; [done|by apply next_i_down]).
  clearbody choice. destruct choice as [d2 w2]. cbn [snd] in Hd2.
  set (choice := match d2 with Some _ => _ | None => _ end).
  assert (Hd3 : lost (snd choice)).
  { unfold choice. destruct d2; [done|]. destruct (_ =? _); [|done].
    assert (Hp : down (put_marker_frame peer address (handle w2))).
    { unfold put_marker_frame. destruct (_ && _); by apply put_u_s_down. }
    pose proof (next_s_u_down _ peer address Hp) as H.
    by destruct (tiny_fd_get_next_s_u_frame_to_send _ peer address). }
  clearbody choice. destruct choice as [d3 w3]. cbn [snd] in Hd3.
  assert (Hlog : forall dir data (w : fd_world app), __tiny_fd_log_frame cbs dir data w = w).
  { intros dir data w0. unfold __tiny_fd_log_frame. by destruct data as [|? [|? ?]]. }
  destruct d3 as [r|]; unfold tiny_millis; cbv beta iota zeta; cbn [snd]; rewrite ?Hlog; by stay_lost.
Qed.

Lemma frame_send_down header data (w : fd_world app) : lost w -> lost (on_frame_send header data w).
Proof using Type.
  intros Hd. unfold on_frame_send. destruct (_ =? _); [done|]. cbv zeta.
  set (w1 := if Z.land _ _ =? _ then _ else _).
  assert (Hd1 : lost w1) by (unfold w1; by stay_lost). clearbody w1.
  set (p := if fd_mode _ =? _ then _ else _).
  assert (Hp : lost (snd p)).
  { unfold p. destruct (_ =? TINY_FD_MODE_NRM); [|done]. destruct (_ && _); [|by destruct (_ && _)].
    cbn [snd]. unfold on_handle. cbn. unfold __switch_to_next_peer.
    assert (Hl : forall fuel start h h', down h -> switch_loop fuel start h = Some h' -> down h').
    { clear. induction fuel as [|fuel IH]; intros start h h' Hd; [done|]. cbn [switch_loop].
      set (h1 := h <| fd_next_peer := _ |>). assert (down h1) by exact Hd.
      destruct (negb _); [by intros [= <-]|]. destruct (negb _); [by apply IH|by intros [= <-]]. }
    destruct (switch_loop _ _ _) as [h'|] eqn:E; cbn [snd]; [by apply (Hl _ _ _ _ Hd1 E)|done]. }
  clearbody p. destruct p as [flags w2]. cbn [snd] in Hp. by stay_lost.
Qed.

End Down.

(** A frame more is carried. *)
Lemma carried_frame x x' y chan frames p :
  carried x y chan frames -> tx_idle (ep_hdlc x) -> pending x' = wire_frame (crc_type (ep_hdlc y)) p ->
  bytes p -> p <> [] -> Z.of_nat (length p + fcs_size (crc_type (ep_hdlc y))) <= phys_mtu (ep_hdlc y) ->
  carried x' y chan (frames ++ [p]).
Proof.
  intros [Hb Hf] Hi Hp Hbytes Hne Hlen. assert (Hnil : pending x = []) by by apply tx_pending_idle.
  rewrite Hnil in Hb, Hf. rewrite app_nil_r in Hb. split; rewrite Hp.
  - apply bytes_app. split; [done|]. by apply wire_frame_bytes.
  - intros k. specialize (Hf (wire_frame (crc_type (ep_hdlc y)) p ++ k)).
    change ([] ++ ?x) with x in Hf. rewrite found_frame in Hf by done. by rewrite <- app_assoc.
Qed.

Section Poll.

Context (ca cb : fd_config) (Hca : balanced ca) (Hap : apart ca).
Context (millis : nat -> Z) (others : Z -> fd_world app -> fd_world app).
Context (sent : list (list Z)) (b : endpoint) (ab ba : list Z).

#[local] Abbreviation cbs := app_callbacks.
#[local] Abbreviation client := (fd_client millis cbs).

(** After [out] has been produced. *)
Definition polling (h : hdlc_ll_data_t) (w : fd_world app) (out : list Z) : Prop :=
  byte_connected ca cb (mk_endpoint h w sent) b (ab ++ out) ba.

Lemma run_tx_rx_view h w n r h' w' :
  0 <= n -> hdlc_ll_run_tx client (h, w) n = (r, (h', w')) -> rx_view h' = rx_view h.
Proof using Type.
  intros Hn Hrun.
  destruct (run_tx_keeps client (fd_on_sent) (fun _ => True)) with (w := (h, w)) (len := n)
    as (r1 & w1 & Hrun1 & _ & _ & Hv & _); [done..|].
  rewrite Hrun in Hrun1. by injection Hrun1 as <- <-.
Qed.

(** Bytes of the frame in transit. *)
Lemma run_tx_polling h w out n r h' w' :
  polling h w out -> 0 <= n -> hdlc_ll_run_tx client (h, w) n = (r, (h', w')) ->
  polling h' w' (out ++ tx_out_buffer h').
Proof using Hca Hap.
  intros (fab & fba & Hbc) Hn Hrun. pose proof (run_tx_rx_view _ _ _ _ _ _ Hn Hrun) as Hv.
  destruct (bc_a _ _ _ _ _ _ _ _ Hbc) as [Hrx Hesc (total & Hinv & Hslot) Hsend]. cbn [ep_hdlc ep_world] in *.
  destruct (bc_ab _ _ _ _ _ _ _ _ Hbc) as [Hb Hf].
  destruct (run_tx_outcome client fd_on_sent total h w n Hinv Hn) as (h1 & w1 & Hrun1 & Hout).
  rewrite Hrun in Hrun1. injection Hrun1 as _ <- <-. destruct Hout as (Hcrc & Hbuf & _ & Hcase).
  change (tx_pending _ (with_window h n)) with (pending (mk_endpoint h w sent)) in *.
  set (e := mk_endpoint h w sent) in *. cbn in Hbuf.
  pose proof (rx_ready_view h h' (eq_sym Hv) Hrx) as Hrx'.
  destruct Hcase as [(Hi & -> & ->)|[(Hi & Hlen & Hi' & He' & hs & Hw')|(Hi & Hlen & Hi' & -> & Hinv' & Hp & Ho)]].
  - exists fab, fba. apply (sender_moves _ _ e _ _ _ _ _ _ _ _ Hbc); [|by apply idle_ok, Hesc| |done].
    + rewrite side_idle by done. pose proof (bc_frames _ _ _ _ _ _ _ _ Hbc) as Hc.
      by rewrite side_idle in Hc.
    + cbn [tx_out_buffer with_window]. rewrite app_nil_r. by split.
  - exists fab, fba. apply (sender_moves _ _ e _ _ _ _ _ _ _ _ Hbc); [|by apply idle_ok| |done].
    + rewrite side_idle by done. pose proof (bc_frames _ _ _ _ _ _ _ _ Hbc) as Hc.
      rewrite (side_busy e Hi) in Hc.
      pose proof (end_connected ca cb Hca (apart_separate ca (wf_mtu _ _ _ (connected_wf _ _ _ _ _ _ Hc)) Hap)
        _ _ _ _ (tx_origin_data h) Hc eq_refl) as He. cbn in He. by subst w'.
    + rewrite take_ge in Hbuf by lia.
      assert (Hnil : pending (mk_endpoint h' w' sent) = []) by by apply tx_pending_idle.
      rewrite Hbuf. split; rewrite Hnil.
      * by rewrite app_nil_r, app_assoc.
      * intros k. specialize (Hf k). change ([] ++ k) with k. by rewrite <- !app_assoc in *.
  - exists fab, fba. assert (Ht : take (Z.to_nat n) (pending e) ++ drop (Z.to_nat n) (pending e) = pending e)
      by apply take_drop.
    apply (sender_moves _ _ e _ _ _ _ _ _ _ _ Hbc); [| | |done].
    + rewrite side_busy by done. pose proof (bc_frames _ _ _ _ _ _ _ _ Hbc) as Hc.
      rewrite (side_busy e Hi) in Hc. cbn in *. by rewrite Ho.
    + split; [done|by intros ?|exists total|auto]. split; [done|]. intros _. destruct (Hslot Hi) as (r1 & f & ? & ? & ? & ?).
      exists r1, f. split; [done|]. split; [done|]. split; [cbn; by rewrite Ho|done].
    + rewrite Hbuf. split; change (pending (mk_endpoint h' w sent)) with (tx_pending (cl_mem client w) h'); rewrite Hp.
      * by rewrite <- !app_assoc, Ht, app_assoc.
      * intros k. specialize (Hf k). rewrite <- Ht in Hf. by rewrite <- !app_assoc in *.
Qed.

(** A frame is chosen. *)
Lemma start_polling h w out r w3 w4 :
  polling h w out -> tx_idle h ->
  tiny_fd_get_next_frame_to_send millis cbs 0 w = (Some r, w3) ->
  fd_wf ca false (handle w4) -> sending (handle w4) ->
  fd_peers (handle w4) = fd_peers (handle w3) -> fd_i_queue (handle w4) = fd_i_queue (handle w3) ->
  fd_s_queue (handle w4) = fd_s_queue (handle w3) -> user w4 = user w3 ->
  polling (snd (put_frame h (fi_addr (ref_slot (handle w4) r)) (ref_len (handle w4) r))) w4 out.
Proof using Hca Hap.
  intros (fab & fba & Hbc) Hi Hnext Hw4 Hsnd Ep Ei Es Eu.
  pose proof (bc_frames _ _ _ _ _ _ _ _ Hbc) as Hc. rewrite side_idle in Hc by done. cbn in Hc.
  pose proof (next_frame_present millis ca Hca w r w3 (connected_wf _ _ _ _ _ _ Hc) Hnext) as Hpres.
  apply (present_same _ (handle w4)) in Hpres as (f & Hf & Hocc); [|done..].
  assert (Hs : ref_slot (handle w4) r = ref_slot (handle w3) r) by (unfold ref_slot; by rewrite Ei, Es).
  pose proof (start_connected ca cb Hca (apart_separate ca (wf_mtu _ _ _ (connected_wf _ _ _ _ _ _ Hc)) Hap)
    millis _ _ _ _ (Some r) w3 Hc eq_refl Hnext) as Hc3. cbv zeta beta iota in Hc3.
  rewrite <- Hs in Hc3. unfold ref_len. rewrite (ref_lookup_slot _ _ _ Hf) in *.
  destruct (slot_frame_ok ca false _ _ _ Hap Hw4 Hf) as (Hnull & Hlen & Hmtu & Hbytes).
  unfold put_frame. rewrite (proj2 Hi). change (nz 0) with false. cbv iota.
  rewrite !(proj2 (Z.eqb_neq _ _)) by lia. cbn [orb snd].
  set (h' := h <| tx_origin_data := fi_addr f |> <| tx_data := fi_addr f |> <| tx_len := fi_len f + 2 |>).
  set (e' := mk_endpoint h' w4 sent).
  assert (Hbusy : ~ tx_idle h') by (intros [_ Ho]; cbn in Ho; lia).
  assert (Hpend : pending e' = wire_frame (crc_type h) (frame_bytes f)).
  { unfold pending, tx_pending. cbn -[wire_frame mem_range Z.to_nat]. rewrite (proj1 Hi).
    rewrite (proj2 (Z.eqb_neq _ _)) by lia. f_equal. by apply (mem_frame ca Hap false _ r). }
  unfold polling. fold e'. exists (fab ++ [frame_bytes f]), fba. apply (sender_moves _ _ _ _ _ _ _ _ _ _ _ Hbc); [| | |done].
  - rewrite side_busy by done. cbn. by eapply connected_world.
  - destruct (bc_a _ _ _ _ _ _ _ _ Hbc) as [Hrx _ (total & (Hcrc & Hesc & _) & _) _]. split.
    + by apply (rx_ready_view h).
    + by intros ?.
    + exists (fi_len f + 2). split.
      * split; [done|]. split; [done|]. cbn. rewrite (proj1 Hi). right. lia.
      * intros _. exists r, f. split_and!; try done; lia.
    + done.
  - pose proof (bc_crc _ _ _ _ _ _ _ _ Hbc) as Ecrc. cbn [ep_hdlc] in Ecrc.
    pose proof (bc_fits_a _ _ _ _ _ _ _ _ Hbc) as Hfit. unfold fits_link in Hfit.
    apply (carried_frame (mk_endpoint h w sent)); [apply Hbc|done|by rewrite Hpend, Ecrc|done..|].
    unfold frame_bytes. cbn [length]. rewrite length_take. lia.
Qed.

(** While the transmitter is idle only the frame-level state matters. *)
Lemma polling_idle_world h w w' out :
  polling h w out -> tx_idle h ->
  (forall fab fba, connected ca cb (mk_side w sent None) (side_of b) fab fba ->
                   connected ca cb (mk_side w' sent None) (side_of b) fab fba) ->
  polling h w' out.
Proof using Type.
  intros (fab & fba & Hbc) Hi Hstep. exists fab, fba.
  pose proof (bc_frames _ _ _ _ _ _ _ _ Hbc) as Hc. rewrite side_idle in Hc by done.
  destruct (bc_a _ _ _ _ _ _ _ _ Hbc) as [Hrx Hesc _ _].
  apply (sender_moves _ _ _ _ _ _ _ _ _ _ _ Hbc); [|by apply idle_ok, Hesc| |done].
  - rewrite side_idle by done. by apply Hstep.
  - assert (Hp : forall w, pending (mk_endpoint h w sent) = []) by (intros w0; by apply tx_pending_idle).
    destruct (bc_ab _ _ _ _ _ _ _ _ Hbc) as [Hb Hf]. rewrite Hp in Hb. split.
    + by rewrite Hp.
    + intros k. specialize (Hf k). by rewrite Hp in *.
Qed.

Lemma polling_wf h w out : polling h w out -> fd_wf ca false (handle w).
Proof using Type. intros (fab & fba & []). by apply connected_wf in bc_frames0. Qed.

(** Looking at an event group. *)
Lemma wait_events bits clear (w : fd_world app) v w' :
  fd_events_wait others bits clear 0 w = (v, w') ->
  exists e, w' = w <| handle ::= fun h => h <| fd_events := e |> |>.
Proof using Type.
  unfold fd_events_wait. rewrite wait_now. unfold tiny_events_poll.
  assert (Hsame : exists e, w = w <| handle ::= fun h => h <| fd_events := e |> |>).
  { exists (fd_events (handle w)). destruct w as [h0 n u]. by destruct h0. }
  destruct (nz _); [|by intros [= _ <-]]. destruct (nz clear); [|by intros [= _ <-]].
  intros [= _ <-]. by eexists.
Qed.

Lemma polling_events h w out bits clear v w' :
  polling h w out -> tx_idle h -> fd_events_wait others bits clear 0 w = (v, w') -> polling h w' out.
Proof using Type.
  intros Hp Hi (e & ->)%wait_events. apply (polling_idle_world _ _ _ _ Hp Hi). intros fab fba Hc.
  apply (connected_world _ _ _ _ _ _ _ _ _ Hc); try done. apply fd_wf_events. by eapply polling_wf.
Qed.

(** Unless the connection is lost. *)
Definition polling_or_down (h : hdlc_ll_data_t) (w : fd_world app) (out : list Z) : Prop :=
  polling h w out \/ down (handle w).

Lemma wait_polling h w1 w2 out bits clear v :
  tx_idle h -> fd_events_wait others bits clear 0 w1 = (v, w2) ->
  polling_or_down h w1 out -> polling_or_down h w2 out.
Proof using Type.
  intros Hi E [H|H]; [left; by eapply polling_events|right]. by apply wait_events in E as (e & ->).
Qed.

Lemma timer_polling h w out :
  polling h w out -> tx_idle h -> polling_or_down h (check_idle_timeout millis cbs 0 w) out.
Proof using Hca.
  intros Hp Hi. set (w0 := check_idle_timeout millis cbs 0 w).
  destruct (decide (pi_state (peer_at (handle w0) 0) = TINY_FD_STATE_CONNECTED)) as [Hs|Hs]; [left|by right].
  apply (polling_idle_world _ _ _ _ Hp Hi). intros fab fba Hc.
  by apply (timer_connected ca cb Hca millis _ _ _ _ w0 Hc).
Qed.

Lemma sending_set h : sending (fd_events_set FD_EVENT_TX_SENDING h).
Proof using Type.
  unfold sending. cbn. unfold events_set, nz. rewrite Z.land_lor_distr_l, negb_true_iff, Z.eqb_neq.
  intros [_ H]%Z.lor_eq_0_iff. by revert H; vm_compute.
Qed.

(** The choice of a frame, when it is the turn of this station. *)
Lemma choice_polling h w out res w3 :
  polling_or_down h w out -> tx_idle h -> tiny_fd_get_next_frame_to_send millis cbs 0 w = (res, w3) ->
  match res with
  | None => polling_or_down h w3 out
  | Some r =>
      let w4 := on_handle (fd_events_set FD_EVENT_TX_SENDING)
                  (on_handle (fd_events_set FD_EVENT_TX_DATA_AVAILABLE) w3) in
      polling_or_down (snd (put_frame h (fi_addr (ref_slot (handle w4) r)) (ref_len (handle w4) r))) w4 out
  end.
Proof using Hca Hap.
  intros [Hp|Hd] Hi E.
  - pose proof (polling_wf _ _ _ Hp) as Hwf. destruct res as [r|]; left.
    + apply (start_polling h w out r w3); try done; [|apply sending_set].
      apply fd_wf_events_set, fd_wf_events_set.
      pose proof (get_next_frame_to_send_wf millis cbs ca 0 w Hwf) as H. by rewrite E in H.
    + apply (polling_idle_world _ _ _ _ Hp Hi). intros fab fba Hc.
      exact (start_connected ca cb Hca (apart_separate ca (wf_mtu _ _ _ Hwf) Hap) millis _ _ _ _ None w3 Hc eq_refl E).
  - pose proof (next_frame_down millis 0 w Hd) as H. rewrite E in H. by destruct res; right.
Qed.

(** A pass that finds no frame in transit: it may choose one. *)
Lemma idle_pass_polling h w out l r l' h' w' :
  polling h w out -> tx_idle h ->
  get_tx_data_idle millis others cbs 0 0 l (h, w) = (r, l', (h', w')) ->
  polling_or_down h' w' out /\ l_out l' = l_out l /\ (forall n bs, r = Generated n bs -> bs = []).
Proof using Hca Hap.
  intros Hp Hi. unfold get_tx_data_idle. destruct (_ =? HDLC_INVALID_PEER_INDEX).
  { intros [= <- <- <- <-]. by split_and!; [left|..]. }
  pose proof (timer_polling _ _ _ Hp Hi) as H0. set (w0 := check_idle_timeout millis cbs 0 w) in *.
  clearbody w0. destruct (l_wait_point_passed l); [by intros [= <- <- <- <-]|]. cbv zeta.
  destruct (fd_events_wait others FD_EVENT_HAS_MARKER _ _ w0) as [marker w1] eqn:E1.
  apply (wait_polling _ _ _ _ _ _ _ Hi E1) in H0. destruct (nz marker).
  - destruct (fd_events_wait others FD_EVENT_TX_DATA_AVAILABLE _ _ w1) as [available w2] eqn:E2.
    apply (wait_polling _ _ _ _ _ _ _ Hi E2) in H0. destruct (_ || _).
    + destruct (tiny_fd_get_next_frame_to_send millis cbs 0 w2) as [[frame|] w3] eqn:E3;
        pose proof (choice_polling _ _ _ _ _ H0 Hi E3) as H3; cbv beta iota zeta in H3.
      * set (w4 := on_handle (fd_events_set FD_EVENT_TX_SENDING) _) in *.
        destruct (put_frame h _ _) as [res h1]. by intros [= <- <- <- <-].
      * destruct (_ || _); intros [= <- <- <- <-]; split_and!; try done. by intros n bs [= _ <-].
    + destruct (_ || _); intros [= <- <- <- <-]; split_and!; try done. by intros n bs [= _ <-].
  - unfold __time_passed_since_last_marker_seen. cbn [time_since tiny_millis].
    assert (H2 : forall e, polling_or_down h (w1 <| clock ::= S |> <| handle ::= fun k => k <| fd_events := e |> |>) out).
    { intros e. destruct H0 as [H0|H0]; [left|by right]. apply (polling_idle_world _ _ _ _ H0 Hi).
      intros fab fba Hc. apply (connected_world _ _ _ _ _ _ _ _ _ Hc); try done.
      apply fd_wf_events. exact (polling_wf _ _ _ H0). }
    assert (H1 : polling_or_down h (w1 <| clock ::= S |>) out).
    { pose proof (H2 (fd_events (handle w1))) as H. destruct w1 as [h1 n u]. by destruct h1. }
    destruct (__is_primary_station _); [destruct (_ <=? _)|]; intros [= <- <- <- <-]; split_and!; try done;
      [exact (H2 _)|by intros n bs [= _ <-]..].
Qed.

(** The flag [FD_EVENT_TX_SENDING]. *)
Lemma wait_sending (w : fd_world app) v w' :
  fd_events_wait others FD_EVENT_TX_SENDING EVENT_BITS_LEAVE 0 w = (v, w') ->
  w' = w /\ (nz v = false -> ~ sending (handle w)).
Proof using Type.
  unfold fd_events_wait. rewrite wait_now. unfold tiny_events_poll, sending.
  destruct (nz (Z.land _ _)) eqn:E; intros [= <- <-]; (split; [done|]); [|done].
  intros Hz. by rewrite (nz_land _ _ E) in Hz.
Qed.

Lemma idle_pass_down l h w r l' h' w' :
  down (handle w) -> get_tx_data_idle millis others cbs 0 0 l (h, w) = (r, l', (h', w')) -> down (handle w').
Proof using Type.
  intros Hd. unfold get_tx_data_idle. destruct (_ =? HDLC_INVALID_PEER_INDEX); [by intros [= _ _ _ <-]|].
  pose proof (idle_timeout_down millis 0 w Hd) as H0. set (w0 := check_idle_timeout millis cbs 0 w) in *.
  clearbody w0. destruct (l_wait_point_passed l); [by intros [= _ _ _ <-]|]. cbv zeta.
  destruct (fd_events_wait others FD_EVENT_HAS_MARKER _ _ w0) as [marker w1] eqn:E1.
  assert (H1 : down (handle w1)) by by apply wait_events in E1 as (e & ->). destruct (nz marker).
  - destruct (fd_events_wait others FD_EVENT_TX_DATA_AVAILABLE _ _ w1) as [available w2] eqn:E2.
    assert (H2 : down (handle w2)) by by apply wait_events in E2 as (e & ->).
    pose proof (next_frame_down millis 0 w2 H2) as Hd3. destruct (_ || _).
    + destruct (tiny_fd_get_next_frame_to_send millis cbs 0 w2) as [[frame|] w3]; cbn [snd] in Hd3.
      * destruct (put_frame h _ _). by intros [= _ _ _ <-].
      * by destruct (_ || _); intros [= _ _ _ <-].
    + by destruct (_ || _); intros [= _ _ _ <-].
  - unfold __time_passed_since_last_marker_seen. cbn [time_since tiny_millis].
    destruct (__is_primary_station _); [destruct (_ <=? _)|]; by intros [= _ _ _ <-].
Qed.

(** One pass of the loop. *)
Lemma pass_polling h w len l r l' h' w' :
  polling_or_down h w (l_out l) -> l_result l <= len ->
  get_tx_data_pass millis others cbs 0 len 0 l (h, w) = (r, l', (h', w')) ->
  l_out l' = l_out l /\
  polling_or_down h' w' (l_out l' ++ match r with Generated _ bs => bs | _ => [] end).
Proof using Hca Hap.
  intros Hp Hl. unfold get_tx_data_pass. cbn [fst snd].
  destruct (fd_events_wait others FD_EVENT_TX_SENDING _ _ w) as [v w1] eqn:E.
  apply wait_sending in E as [-> Hv]. destruct (nz v).
  - destruct (hdlc_ll_run_tx client (h, w) (len - l_result l)) as [n [h1 w1]] eqn:Hrun.
    intros [= <- <- <- <-]. split; [done|]. destruct Hp as [Hp|Hd].
    + left. eapply run_tx_polling; [exact Hp| |exact Hrun]. lia.
    + right. destruct (run_tx_keeps client fd_on_sent (fun w => down (handle w)))
        with (w := (h, w)) (len := len - l_result l) as (n2 & w2 & Hrun2 & _ & _ & _ & Hd2).
      { intros lw p k Hk. by apply frame_send_down. }
      { done. }
      { lia. }
      rewrite Hrun in Hrun2. by injection Hrun2 as <- <-.
  - intros Hidle. destruct Hp as [Hp|Hd].
    + assert (Hi : tx_idle h).
      { destruct Hp as (fab & fba & Hbc). destruct (bc_a _ _ _ _ _ _ _ _ Hbc) as [_ _ _ Hs].
        destruct (decide (tx_idle h)) as [|Hn]; [done|]. by destruct (Hv eq_refl (Hs Hn)). }
      destruct (idle_pass_polling _ _ _ _ _ _ _ _ Hp Hi Hidle) as (Hp' & Ho & Hb). split; [done|].
      rewrite Ho. destruct r as [| |n bs]; [..|rewrite (Hb n bs eq_refl)]; by rewrite app_nil_r.
    + split; [|right; by eapply idle_pass_down]. revert Hidle. unfold get_tx_data_idle. cbv zeta.
      unfold __time_passed_since_last_marker_seen. cbn [time_since tiny_millis].
      repeat (case_match; try done); by intros [= _ <- _ _].
Qed.

Lemma loop_polling fuel len l h w res out h' w' :
  polling_or_down h w (l_out l) ->
  get_tx_data_loop millis others cbs fuel 0 len 0 l (h, w) = Some (res, out, (h', w')) ->
  polling_or_down h' w' out.
Proof using Hca Hap.
  revert l h w. induction fuel as [|fuel IH]; intros l h w Hp; [done|]. cbn [get_tx_data_loop].
  destruct (Z.ltb_spec (l_result l) len) as [Hl|]; [|by intros [= _ <- <- <-]].
  destruct (get_tx_data_pass _ _ _ _ _ _ _ _) as [[r l1] [h1 w1]] eqn:E.
  apply pass_polling in E as [Ho Hp1]; [|done|lia].
  destruct r as [v| |n bs]; rewrite ?app_nil_r in Hp1.
  - by intros [= _ <- <- <-].
  - by apply IH.
  - cbv zeta. set (l2 := (if 0 <=? l_result l1 then _ else l1) <| l_out ::= fun o => o ++ bs |>).
    assert (Ho2 : l_out l2 = l_out l1 ++ bs) by (unfold l2; by destruct (0 <=? _)).
    rewrite <- Ho2 in Hp1. destruct (n =? 0); [destruct (negb _)|].
    + by intros [= _ <- <- <-].
    + by apply IH.
    + by apply IH.
Qed.

(** [tiny_fd_get_tx_data] while the connection lasts. *)
Lemma get_tx_data_polling h w len res out h' w' :
  byte_connected ca cb (mk_endpoint h w sent) b ab ba ->
  tiny_fd_get_tx_data millis others cbs (h, w) len 0 = (res, out, (h', w')) ->
  pi_state (peer_at (handle w') 0) = TINY_FD_STATE_CONNECTED ->
  byte_connected ca cb (mk_endpoint h' w' sent) b (ab ++ out) ba.
Proof using Hca Hap.
  intros Hc. assert (Hp : polling h w []) by (unfold polling; by rewrite app_nil_r).
  unfold tiny_fd_get_tx_data. cbn [snd].
  assert (Hpeer : fd_next_peer (handle w) = 0).
  { pose proof (wf_next _ _ _ (polling_wf _ _ _ Hp)). pose proof (ba_peers _ Hca). lia. }
  rewrite Hpeer. intros E Hs. assert (Hout : polling_or_down h' w' out); [|by destruct Hout].
  destruct (get_tx_data_loop _ _ _ _ _ _ _ _ _) as [[[r o] [h1 w1]]|] eqn:El; injection E as <- <- <- <-.
  - eapply loop_polling; [|exact El]. by left.
  - by left.
Qed.

End Poll.

Section Steps.

Context (ca cb : fd_config) (Hca : balanced ca) (Hap : apart ca) (Haddr : c_addr ca = c_addr cb).
Context (millis : nat -> Z) (others : Z -> fd_world app -> fd_world app).

(** *** Receiving *)

Lemma lose_prefix a b fab lost fba :
  connected ca cb a b fab (lost ++ fba) -> connected ca cb a b fab fba.
Proof using Type.
  induction lost as [|x lost IH]; [done|]. intros Hc. apply IH. by apply (lose_connected _ _ _ _ _ [] x).
Qed.

(** The frames [fs], found in order among the frames in transit, are read. *)
Lemma read_frames fs w sent tx sb fab fba (rest after : list Z -> list (list Z)) :
  connected ca cb (mk_side w sent tx) sb fab fba -> after [] = [] ->
  (forall k, fs ++ rest k `sublist_of` fba ++ after k) ->
  let w' := foldl (fun w frame => on_frame_read millis app_callbacks frame w) w fs in
  kept (handle w) (handle w') /\
  exists fba', connected ca cb (mk_side w' sent tx) sb fab fba' /\
    forall k, rest k `sublist_of` fba' ++ after k.
Proof using Hca Haddr.
  intros Hc Hnil. revert w fba Hc. induction fs as [|f fs IH]; intros w fba Hc Hk.
  { split; [done|]. by exists fba. }
  cbn [foldl]. destruct (sublist_head f fba) as (m1 & m2 & -> & Hm).
  { specialize (Hk []). rewrite Hnil, app_nil_r in Hk. etrans; [|exact Hk]. apply (sublist_app [f] [f]); [done|].
    apply sublist_nil_l. }
  apply lose_prefix in Hc. apply (read_connected ca cb Hca Haddr millis) in Hc. cbn in Hc.
  destruct (IH _ _ Hc) as (Hkept & fba' & Hc' & Hk').
  { intros k. apply Hm. exact (Hk k). }
  split; [|by exists fba']. etrans; [apply frame_read_kept|exact Hkept].
Qed.

(** What the framing layer still reads of a frame in transit is kept. *)
Lemma unsent_kept h (w w' : fd_world app) total :
  fd_wf ca false (handle w) -> fd_wf ca false (handle w') -> kept (handle w) (handle w') ->
  tx_inv (fd_mem (handle w)) total h -> (~ tx_idle h -> in_slot (handle w) h total) ->
  unsent (fd_mem (handle w')) h = unsent (fd_mem (handle w)) h.
Proof using Hap.
  intros Hw Hw' Hkept (_ & _ & Hst) Hslot. unfold unsent.
  assert (Hrange : ~ tx_idle h -> tx_origin_data h <= tx_data h -> 0 <= tx_len h ->
            tx_data h + tx_len h <= tx_origin_data h + total ->
            mem_range (fd_mem (handle w')) (tx_data h) (Z.to_nat (tx_len h)) =
            mem_range (fd_mem (handle w)) (tx_data h) (Z.to_nat (tx_len h))).
  { intros Hn H1 H2 H3. destruct (Hslot Hn) as (r & f & Hf & Hocc & Ho & Htot).
    apply mem_range_ext. intros x Hx.
    apply (mem_kept ca Hap false false (handle w) (handle w') r f x Hw Hw' Hkept Hf); [by destruct r|]. lia. }
  destruct (tx_state h) eqn:E; try done.
  - destruct (Z.eqb_spec (tx_origin_data h) 0) as [|Hne]; [done|].
    destruct Hst as [?|(_ & Hd & Hl & Ht)]; [done|]. apply Hrange; [by intros [_ ?]|lia..].
  - destruct Hst as (Hne & Hl & Hsum & _). rewrite (proj2 (Z.eqb_neq _ _) Hne).
    assert (Hn : ~ tx_idle h) by (intros [Hs _]; congruence).
    apply Hrange; try done; lia.
Qed.

(** The rest of a frame in transit is as before, so it is carried as before. *)
Lemma carried_pending x x' y chan frames :
  carried x y chan frames -> pending x' = pending x -> carried x' y chan frames.
Proof using Type. intros [] E. by split; rewrite E. Qed.

Lemma in_slot_kept h h' hdlc hdlc' total :
  kept h h' -> tx_origin_data hdlc' = tx_origin_data hdlc -> in_slot h hdlc total -> in_slot h' hdlc' total.
Proof using Type.
  intros [Hi Hs _] Ho (r & f & Hf & Hocc & Hor & Ht).
  assert (exists f', ref_lookup h' r = Some f' /\ same_bytes f f' /\ ref_occupied r f')
    as (f' & Hf' & (Ea & _ & _ & Ep) & Hocc').
  { destruct r as [i|i]; [|by apply Hs]. destruct (Hi i f Hf) as (f' & ? & ?). by exists f'. }
  exists r, f'. by rewrite Ho, Hor, Ea, Ep.
Qed.

Lemma rx_polling a b ab ba piece res h' w' :
  byte_connected ca cb a b ab (piece ++ ba) ->
  tiny_fd_on_rx_data millis app_callbacks (ep_hdlc a, ep_world a) piece = (res, (h', w')) ->
  byte_connected ca cb (mk_endpoint h' w' (ep_sent a)) b ab ba.
Proof using Hca Hap Haddr.
  intros (fab & fba & [Hc [Hrx Hidle (total & Hinv & Hslot) Hsend] Hb Hab [Hbytes Hfound] Ecrc Hfa Hfb]) Hrun.
  rewrite <- app_assoc in Hbytes. apply bytes_app in Hbytes as [Hpiece Hrest].
  destruct (on_rx_data_frames millis app_callbacks (ep_hdlc a) (ep_world a) piece Hrx Hpiece)
    as (h1 & es & Hrun1 & Hes & Hrx1 & Hsame). rewrite Hrun in Hrun1. injection Hrun1 as _ <- Hw'.
  destruct (same_tx_fields _ _ Hsame) as (_ & Ho & _ & _ & _ & Ee & Ec & Em).
  destruct (read_frames (payloads es) (ep_world a) (ep_sent a) (sd_tx (side_of a)) (side_of b) fab fba
    (fun k => found (ep_hdlc a) (rx_abs h') (ba ++ pending b ++ k)) (found (ep_hdlc a) Hunting))
    as (Hkept & fba' & Hc' & Hfound'); [exact Hc|done| |].
  { intros k. specialize (Hfound k). rewrite <- app_assoc, found_app, Hes in Hfound. exact Hfound. }
  cbv zeta in Hkept, Hc'. rewrite <- Hw' in Hkept, Hc'.
  pose proof (connected_wf _ _ _ _ _ _ Hc) as Hwf. pose proof (connected_wf _ _ _ _ _ _ Hc') as Hwf'.
  pose proof (unsent_kept _ _ _ _ Hwf Hwf' Hkept Hinv Hslot) as Hu.
  destruct (unsent_pending _ _ _ _ Hinv Hu) as [Hinv1 Hp1].
  destruct (same_tx_pending _ _ _ _ Hsame Hinv1) as [Hinv2 Hp2]. pose proof (same_tx_idle _ _ Hsame) as Hi.
  exists fab, fba'. split; try done.
  - unfold side_of in *. cbn in *. rewrite Ho.
    rewrite (decide_ext _ _ _ _ Hi). exact Hc'.
  - split; cbn; [done|by rewrite Ee, Hi|exists total; split; [done|]|].
    + rewrite Hi. intros Hn. apply (in_slot_kept _ _ _ _ _ Hkept Ho), Hslot, Hn.
    + rewrite Hi. intros Hn. apply Hkept, Hsend, Hn.
  - apply (carried_pending _ _ _ _ _ Hab). unfold pending. etrans; [exact Hp2|exact Hp1].
  - split; [done|]. intros k. cbn. rewrite !(found_config _ _ _ _ Ec Em). apply Hfound'.
  - cbn. by rewrite Ec.
  - unfold fits_link in *. cbn. by rewrite Ec, Em.
Qed.

(** *** Queueing *)

(** The service queue and the transmission in progress are left alone. *)
Definition calm (h h' : tiny_fd_data_t) : Prop :=
  fd_s_queue h' = fd_s_queue h /\ (sending h -> sending h').

Lemma calm_trans h1 h2 h3 : calm h1 h2 -> calm h2 h3 -> calm h1 h3.
Proof using Type. intros [E1 S1] [E2 S2]. split; [congruence|auto]. Qed.

Lemma calm_events h h' : fd_s_queue h' = fd_s_queue h -> fd_events h' = fd_events h -> calm h h'.
Proof using Type. intros Es Ev. split; [done|]. unfold sending. by rewrite Ev. Qed.

Lemma calm_lock h : calm h (tiny_mutex_lock h).
Proof using Type. unfold tiny_mutex_lock. by destruct (fd_mutex h); apply calm_events. Qed.

Lemma calm_unlock h : calm h (tiny_mutex_unlock h).
Proof using Type. unfold tiny_mutex_unlock. by destruct (fd_mutex h); apply calm_events. Qed.

Lemma calm_peer_wait peer bits clear (w w' : fd_world app) n :
  peer_events_wait others peer bits clear 0 w = (n, w') -> calm (handle w) (handle w').
Proof using Type.
  unfold peer_events_wait. rewrite wait_now. unfold tiny_events_poll.
  by destruct (nz _); [destruct (nz clear)|]; intros [= _ <-].
Qed.

Lemma calm_free_wait (w w' : fd_world app) n :
  fd_events_wait others FD_EVENT_QUEUE_HAS_FREE_SLOTS EVENT_BITS_CLEAR 0 w = (n, w') ->
  calm (handle w) (handle w').
Proof using Type.
  unfold fd_events_wait. rewrite wait_now. unfold tiny_events_poll.
  destruct (nz _); [change (nz EVENT_BITS_CLEAR) with true|by intros [= _ <-]].
  intros [= _ <-]. split; [done|]. unfold sending. cbn. unfold events_clear. by rewrite <- Z.land_assoc.
Qed.

Lemma calm_put_i_frame h peer data : calm h (snd (__put_i_frame_to_tx_queue h peer data)).
Proof using Type.
  unfold __put_i_frame_to_tx_queue.
  destruct (tiny_fd_queue_allocate _ _ data) as [[i|] q]; [|by apply calm_events].
  split; [done|]. unfold sending. cbn. apply land_lor_nz.
Qed.

Lemma calm_events_set bits h : calm h (fd_events_set bits h).
Proof using Type. split; [done|]. apply kept_events_set. Qed.

Lemma send_calm (address : Z) data (w w' : fd_world app) res :
  tiny_fd_send_packet_to millis others address data 0 w = (res, w') -> calm (handle w) (handle w').
Proof using Type.
  unfold tiny_fd_send_packet_to. destruct (_ =? HDLC_INVALID_PEER_INDEX); [by intros [= _ <-]|].
  cbn [tiny_millis]. destruct (_ <? _); [by intros [= _ <-]|].
  destruct (peer_events_wait _ _ _ _ _ _) as [accept w2] eqn:E2. apply calm_peer_wait in E2.
  destruct (nz accept); [|by intros [= _ <-]]. unfold time_since, tiny_millis. cbv beta iota zeta.
  match goal with |- context [if (u32 ?x <? 0) then ?y else 0] =>
    assert (Hnow : (if (u32 x <? 0) then y else 0) = 0) by
      (pose proof (fits_u32 x) as Hx; unfold fits in Hx; by rewrite (proj2 (Z.ltb_ge _ _)) by lia)
  end.
  rewrite Hnow. clear Hnow.
  destruct (fd_events_wait _ _ _ _ _) as [free w4] eqn:E4. apply calm_free_wait in E4.
  pose proof (calm_trans _ _ _ E2 E4) as H4. destruct (nz free); [|by intros [= _ <-]].
  pose proof (calm_put_i_frame (handle (on_handle tiny_mutex_lock w4)) (destination (handle w) address) data) as Hput.
  destruct (__put_i_frame_to_tx_queue _ _ data) as [put h]. cbn [snd] in Hput.
  set (w5 := (on_handle tiny_mutex_lock w4) <| handle := h |>).
  assert (H5 : calm (handle w) (handle w5)).
  { apply (calm_trans _ (handle w4)); [done|]. apply (calm_trans _ _ _ (calm_lock (handle w4)) Hput). }
  set (p := if put then _ else _).
  assert (H6 : calm (handle w) (handle (snd p))).
  { unfold p. destruct put; [|done]. destruct (tiny_fd_queue_has_free_slots _); [|done].
    apply (calm_trans _ _ _ H5), calm_events_set. }
  destruct p as [res1 w6]. cbn [snd] in H6. set (w7 := if negb _ then _ else w6).
  assert (H7 : calm (handle w) (handle w7)).
  { unfold w7. destruct (negb _); [|done]. apply (calm_trans _ _ _ H6). by apply calm_events. }
  intros [= _ <-]. apply (calm_trans _ _ _ H7), calm_unlock.
Qed.

(** The slots stay where they are. *)
Lemma in_slot_send h h' hdlc total :
  fd_wf ca false h -> fd_wf ca false h' -> fd_s_queue h' = fd_s_queue h ->
  in_slot h hdlc total -> in_slot h' hdlc total.
Proof using Type.
  intros Hw Hw' Es (r & f & Hf & Hocc & Ho & Ht). destruct r as [i|i]; cbn in Hf.
  - destruct (wf_i _ _ _ Hw) as [[_ Hs _] Hm Ha _], (wf_i _ _ _ Hw') as [[_ Hs' _] Hm' Ha' _].
    assert (exists f', q_frames (fd_i_queue h') !! i = Some f' /\ fi_addr f' = fi_addr f) as (f' & Hf' & Hadr).
    { assert (Hl : (fi_addr <$> q_frames (fd_i_queue h')) !! i = Some (fi_addr f)).
      { by rewrite Ha', <- Ha, list_lookup_fmap, Hf. }
      apply list_lookup_fmap_Some in Hl as (f' & ? & ?). by exists f'. }
    exists (InIQueue i), f'. rewrite Hadr. rewrite Forall_lookup in Hs, Hs'.
    rewrite (so_payload _ _ _ (Hs _ _ Hf)), Hm in Ht. rewrite (so_payload _ _ _ (Hs' _ _ Hf')), Hm'. done.
  - exists (InSQueue i), f. cbn. by rewrite Es.
Qed.

Lemma send_polling a b ab ba address data res w' :
  byte_connected ca cb a b ab ba -> bytes data ->
  tiny_fd_send_packet_to millis others address data 0 (ep_world a) = (res, w') ->
  unsent (fd_mem (handle w')) (ep_hdlc a) = unsent (fd_mem (handle (ep_world a))) (ep_hdlc a) ->
  byte_connected ca cb
    (mk_endpoint (ep_hdlc a) w' (if res =? TINY_SUCCESS then ep_sent a ++ [data] else ep_sent a)) b ab ba.
Proof using Hca.
  intros (fab & fba & Hbc) Hd Hrun Hu. pose proof (bc_frames _ _ _ _ _ _ _ _ Hbc) as Hc.
  pose proof (send_connected ca cb Hca millis others (side_of a) (side_of b) _ _ _ _ _ _ Hc Hd Hrun) as Hc'.
  destruct (send_calm _ _ _ _ _ Hrun) as [Es Hkeep].
  pose proof (connected_wf _ _ _ _ _ _ Hc) as Hwf. pose proof (connected_wf _ _ _ _ _ _ Hc') as Hwf'.
  destruct (bc_a _ _ _ _ _ _ _ _ Hbc) as [Hrx Hidle (total & Hinv & Hslot) Hsend].
  destruct (unsent_pending _ _ _ _ Hinv Hu) as [Hinv' Hp].
  exists fab, fba. apply (sender_moves _ _ a _ _ _ _ _ _ _ _ Hbc); [exact Hc'| | |done].
  - split; [done|done| |by auto]. exists total. split; [done|]. intros Hn.
    by apply (in_slot_send (handle (ep_world a))); [..|apply Hslot].
  - apply (carried_pending a); [apply Hbc|exact Hp].
Qed.

Lemma endpoint_step_connected a b ab ba a' ab' ba' :
  endpoint_step millis others a ba ab a' ba' ab' ->
  byte_connected ca cb a b ab ba -> byte_connected ca cb a' b ab' ba'.
Proof using Hca Hap Haddr.
  intros Hs Hc. inversion Hs; subst.
  - by eapply send_polling.
  - eapply get_tx_data_polling; [done|done| |done|done]. by destruct a.
  - by eapply rx_polling.
  - destruct Hc as (fab & fba & []). exists fab, fba. split; try done. destruct bc_ba0 as [Hb Hf]. split.
    + apply bytes_app in Hb as [_ Hb]. by apply bytes_app.
    + intros k. etrans; [|apply Hf]. auto.
Qed.

End Steps.

(** ** Runs *)

(** A connection where nothing has been sent yet, on an idle link. *)
Record byte_fresh (c : fd_config) (e : endpoint) : Prop := mk_byte_fresh {
  bf_fresh : fresh c (mk_side (ep_world e) (ep_sent e) None);
  bf_rx : rx_ready (ep_hdlc e);
  bf_start : rx_state (ep_hdlc e) = RX_READ_START;
  bf_idle : tx_idle (ep_hdlc e);
  bf_escape : tx_escape (ep_hdlc e) = 0
}.

Record byte_established (ca cb : fd_config) (y : byte_system) : Prop := mk_byte_established {
  be_a : byte_fresh ca (by_a y);
  be_b : byte_fresh cb (by_b y);
  be_ab : by_ab y = [];
  be_ba : by_ba y = [];
  be_crc : crc_type (ep_hdlc (by_a y)) = crc_type (ep_hdlc (by_b y));
  be_fits_a : fits_link ca (ep_hdlc (by_b y));
  be_fits_b : fits_link cb (ep_hdlc (by_a y))
}.

Definition byte_system_ok (ca cb : fd_config) (y : byte_system) : Prop :=
  byte_connected ca cb (by_a y) (by_b y) (by_ab y) (by_ba y).

Lemma byte_established_ok ca cb y : byte_established ca cb y -> byte_system_ok ca cb y.
Proof.
  intros [[Hfa Hra Hsa Hia Hea] [Hfb Hrb Hsb Hib Heb] Hab Hba Ec Hxa Hxb]. exists [], [].
  assert (Hcar : forall x y chan, tx_idle (ep_hdlc x) -> rx_state (ep_hdlc y) = RX_READ_START -> chan = [] ->
            carried x y chan []).
  { intros x z chan Hi Hs ->. assert (Hp : pending x = []) by by apply tx_pending_idle.
    split; rewrite Hp; [apply bytes_nil|]. intros k. by rewrite rx_abs_start. }
  split; try done; [|by apply idle_ok..|by apply Hcar|by apply Hcar].
  rewrite !side_idle by done.
  by apply (established_ok ca cb (mk_system (mk_side _ _ None) (mk_side _ _ None) [] [])).
Qed.

Section Runs.

Context (ca cb : fd_config) (Hca : balanced ca) (Hcb : balanced cb).
Context (Hapa : apart ca) (Hapb : apart cb) (Haddr : c_addr ca = c_addr cb).
Context (millis_a millis_b : nat -> Z) (others_a others_b : Z -> fd_world app -> fd_world app).

Lemma byte_run_ok y y' :
  rtc (byte_step millis_a millis_b others_a others_b) y y' ->
  byte_system_ok ca cb y -> byte_system_ok ca cb y'.
Proof using Hca Hcb Hapa Hapb Haddr.
  induction 1 as [|y1 y2 y3 Hs _ IH]; [done|]. intros Hok. apply IH. clear IH.
  destruct Hs as [a b ab ba a' ab' ba' Hs|a b ab ba b' ab' ba' Hs].
  - by eapply (endpoint_step_connected ca cb Hca Hapa Haddr).
  - apply byte_connected_sym. apply byte_connected_sym in Hok.
    by eapply (endpoint_step_connected cb ca Hcb Hapb (eq_sym Haddr)).
Qed.

End Runs.
