(* ===== verification/FdByteDelivery.v ===== *)
(** * Reliable delivery over a byte channel: the theorem and a run

    The delivery guarantee of FdDelivery.v for the whole stack, framing included, and a
    simulator that executes a script of calls and damage on two stations made by
    [tiny_fd_init] and connected through their byte channels. *)

From stdpp Require Import relations.
From S2P Require Import Prelude Crc HdlcLL HdlcSpec HdlcTx HdlcRx HdlcLink FdTypes FdQueue FdPeers.
From S2P Require Import FdIQueue FdLog FdService FdTx FdRx Fd FdApi FdInv FdSafe FdStation FdInit.
From S2P Require Import FdRun FdFifo FdSlots FdFlow FdConn FdMoves FdXmit FdE2E FdDelivery FdWire FdBytes.

(** ** A simulator *)

Fixpoint is_sublist (l k : list (list Z)) : bool :=
  match l, k with
  | [], _ => true
  | _ :: _, [] => false
  | x :: l', y :: k' => if bool_decide (x = y) then is_sublist l' k' else is_sublist l k'
  end.

Lemma is_sublist_spec l k : is_sublist l k = true -> l `sublist_of` k.
Proof.
  revert l. induction k as [|y k IH]; intros [|x l]; cbn; try done; [intros _; apply sublist_nil_l|].
  destruct (bool_decide (x = y)) eqn:E; [apply bool_decide_eq_true in E as ->|]; intros H.
  - by apply sublist_skip, IH.
  - by apply sublist_cons, IH.
Qed.

#[export] Instance receiver_eq_dec : EqDecision receiver.
Proof. solve_decision. Defined.

(** A sufficient condition for damage to be harmless: the receiver ends in the same
    state, having found fewer frames. *)
Definition harmlessb (h : hdlc_ll_data_t) (l l' : list Z) : bool :=
  let '(s, es) := receive (crc_type h) (phys_mtu h) (rx_abs h) l in
  let '(s', es') := receive (crc_type h) (phys_mtu h) (rx_abs h) l' in
  bool_decide (s' = s) && is_sublist (payloads es') (payloads es).

Lemma harmlessb_spec h l l' : harmlessb h l l' = true -> harmless h l l'.
Proof.
  unfold harmlessb. intros H k. rewrite !found_app. destruct (receive _ _ _ l) as [s es].
  destruct (receive _ _ _ l') as [s' es']. apply andb_true_iff in H as [H1 H2].
  apply bool_decide_eq_true in H1 as ->. by apply sublist_app; [apply is_sublist_spec|].
Qed.

Definition is_bytes (l : list Z) : bool := forallb (fun b => (0 <=? b) && (b <? 256)) l.

Lemma is_bytes_spec l : is_bytes l = true -> bytes l.
Proof.
  intros Hb. apply Forall_forall. intros b Hin. unfold is_bytes in Hb. rewrite forallb_forall in Hb.
  apply list_elem_of_In, Hb, andb_true_iff in Hin as [H1 H2].
  apply Z.leb_le in H1. apply Z.ltb_lt in H2. done.
Qed.

(** What happens next at a station: a packet, a poll for [len] bytes, the arrival of
    [n] bytes, damage to the bytes that are on their way to it.  What is not
    possible does nothing. *)
Inductive byte_command : Type :=
| CallSend (address : Z) (data : list Z)
| CallPoll (len : Z)
| CallRead (n : nat)
| Damage (inp' : list Z).

Section Simulator.

Context (millis : nat -> Z) (others : Z -> fd_world app -> fd_world app).

Definition byte_execute (cmd : byte_command) (e : endpoint) (inp out : list Z)
  : endpoint * list Z * list Z :=
  let same := (e, inp, out) in
  match cmd with
  | CallSend address data =>
      let '(res, w) := tiny_fd_send_packet_to millis others address data 0 (ep_world e) in
      if is_bytes data && bool_decide (unsent (fd_mem (handle w)) (ep_hdlc e) =
                                       unsent (fd_mem (handle (ep_world e))) (ep_hdlc e))
      then (mk_endpoint (ep_hdlc e) w (if res =? TINY_SUCCESS then ep_sent e ++ [data] else ep_sent e), inp, out)
      else same
  | CallPoll len =>
      let '(_, sent, (h, w)) := tiny_fd_get_tx_data millis others app_callbacks (ep_hdlc e, ep_world e) len 0 in
      if bool_decide (pi_state (peer_at (handle w) 0) = TINY_FD_STATE_CONNECTED)
      then (mk_endpoint h w (ep_sent e), inp, out ++ sent) else same
  | CallRead n =>
      let '(_, (h, w)) := tiny_fd_on_rx_data millis app_callbacks (ep_hdlc e, ep_world e) (take n inp) in
      (mk_endpoint h w (ep_sent e), drop n inp, out)
  | Damage inp' => if is_bytes inp' && harmlessb (ep_hdlc e) inp inp' then (e, inp', out) else same
  end.

Lemma byte_execute_step cmd e inp out :
  byte_execute cmd e inp out = (e, inp, out) \/
  let '(e', inp', out') := byte_execute cmd e inp out in endpoint_step millis others e inp out e' inp' out'.
Proof using Type.
  destruct cmd as [address data|len|n|inp']; cbn [byte_execute].
  - destruct (tiny_fd_send_packet_to _ _ _ _ _ _) as [res w] eqn:E.
    destruct (is_bytes data && _) eqn:Hc; [|by left]. right.
    apply andb_true_iff in Hc as [Hb%is_bytes_spec Hu%bool_decide_eq_true]. by eapply EpSend.
  - destruct (tiny_fd_get_tx_data _ _ _ _ _ _) as [[res sent] [h w]] eqn:E.
    destruct (bool_decide _) eqn:Hs; [|by left]. right. apply bool_decide_eq_true in Hs. by eapply EpPoll.
  - destruct (tiny_fd_on_rx_data _ _ _ _) as [res [h w]] eqn:E. right.
    rewrite <- (take_drop n inp) at 1. by eapply EpRead.
  - destruct (is_bytes inp' && _) eqn:Hc; [|by left]. right.
    apply andb_true_iff in Hc as [Hb%is_bytes_spec Hh%harmlessb_spec]. by apply EpDamage.
Qed.

End Simulator.

Section Script.

Context (millis_a millis_b : nat -> Z) (others_a others_b : Z -> fd_world app -> fd_world app).

(** [true]: the first station. *)
Definition byte_perform (y : byte_system) (who_cmd : bool * byte_command) : byte_system :=
  let '(who, cmd) := who_cmd in
  if who : bool then
    let '(a, ba, ab) := byte_execute millis_a others_a cmd (by_a y) (by_ba y) (by_ab y) in
    mk_byte_system a (by_b y) ab ba
  else
    let '(b, ab, ba) := byte_execute millis_b others_b cmd (by_b y) (by_ab y) (by_ba y) in
    mk_byte_system (by_a y) b ab ba.

Definition byte_perform_all (script : list (bool * byte_command)) (y : byte_system) : byte_system :=
  fold_left byte_perform script y.

Lemma byte_perform_all_steps script y :
  rtc (byte_step millis_a millis_b others_a others_b) y (byte_perform_all script y).
Proof using Type.
  revert y. induction script as [|m script IH]; intros y; [done|]. cbn. etransitivity; [|apply IH].
  destruct y as [a b ab ba], m as [[] cmd]; cbn [byte_perform by_a by_b by_ab by_ba].
  - destruct (byte_execute_step millis_a others_a cmd a ba ab) as [->|H]; [done|].
    destruct (byte_execute _ _ _ _ _ _) as [[a' ba'] ab']. apply rtc_once. by constructor.
  - destruct (byte_execute_step millis_b others_b cmd b ab ba) as [->|H]; [done|].
    destruct (byte_execute _ _ _ _ _ _) as [[b' ab'] ba']. apply rtc_once. by constructor.
Qed.

End Script.

(** ** A connection made through the bytes *)

Definition stack : Type := hdlc_ll_data_t * fd_world app.

Definition initial_stack : stack := (fst sample_station, initial_world).

(** A poll for up to 64 bytes. *)
Definition poll (lw : stack) : list Z * stack :=
  let '(_, out, lw) := tiny_fd_get_tx_data stopped_clock idle_others app_callbacks lw 64 0 in (out, lw).

Definition feed (data : list Z) (lw : stack) : stack :=
  snd (tiny_fd_on_rx_data stopped_clock app_callbacks lw data).

(** The first station's poll asks for a connection, the second's answers. *)
Definition connected_pair (s : stack) : stack * stack :=
  let '(sabm, a) := poll s in
  let b := feed sabm s in
  let '(ua, b) := poll b in
  (feed ua a, b).

Definition byte_pair : stack * stack := connected_pair initial_stack.

Definition byte_system_of (p : stack * stack) : byte_system :=
  mk_byte_system (mk_endpoint (fst (fst p)) (snd (fst p)) []) (mk_endpoint (fst (snd p)) (snd (snd p)) []) [] [].

Definition sample_byte_system : byte_system := byte_system_of byte_pair.

Lemma poll_wf lw : station_wf sample_conf lw -> station_wf sample_conf (snd (poll lw)).
Proof.
  intros Hw. assert (Hp : 1 <= c_peers sample_conf <= 255) by by vm_compute. unfold poll.
  destruct (get_tx_data_spec stopped_clock idle_others app_callbacks sample_conf Hp lw 64 0 Hw)
    as (r & out & lw' & _ & -> & Hw' & _). done.
Qed.

Lemma feed_wf data lw : station_wf sample_conf lw -> bytes data -> station_wf sample_conf (feed data lw).
Proof.
  intros Hw Hd. unfold feed, tiny_fd_on_rx_data.
  by destruct (on_rx_data_wf stopped_clock app_callbacks sample_conf lw data Hw Hd) as (errs & lw' & -> & Hw').
Qed.

Lemma byte_pair_wf : station_wf sample_conf (fst byte_pair) /\ station_wf sample_conf (snd byte_pair).
Proof.
  assert (H0 : station_wf sample_conf initial_stack) by apply (sample_station_wf 0 (mk_app [] [])).
  unfold byte_pair, connected_pair. pose proof (poll_wf _ H0) as Ha.
  destruct (poll initial_stack) as [sabm a] eqn:Ea. cbn [snd] in Ha.
  assert (Hsabm : is_bytes sabm = true) by (change sabm with (fst (sabm, a)); rewrite <- Ea; by vm_compute).
  pose proof (feed_wf sabm _ H0 (is_bytes_spec _ Hsabm)) as Hb1. pose proof (poll_wf _ Hb1) as Hb.
  destruct (poll (feed sabm initial_stack)) as [ua b] eqn:Eb. cbn [fst snd] in *. split; [|done].
  apply feed_wf; [done|]. apply is_bytes_spec. change ua with (fst (ua, b)). rewrite <- Eb.
  change sabm with (fst (sabm, a)). rewrite <- Ea. by vm_compute.
Qed.

(** An idle link. *)
Definition is_idle (h : hdlc_ll_data_t) : bool :=
  bool_decide (rx_state h = RX_READ_START) && bool_decide (tx_state h = TX_SEND_START) &&
  (tx_origin_data h =? 0) && (tx_escape h =? 0).

Lemma byte_fresh_of lw :
  station_wf sample_conf lw -> is_fresh sample_conf (handle (snd lw)) = true -> user (snd lw) = mk_app [] [] ->
  is_idle (fst lw) = true -> byte_fresh sample_conf (mk_endpoint (fst lw) (snd lw) []).
Proof.
  intros [Hr Hw] Hf Hu Hi. unfold is_idle in Hi. rewrite !andb_true_iff, !bool_decide_eq_true, !Z.eqb_eq in Hi.
  destruct Hi as [[[H1 H2] H3] H4]. split; try done. split; [by apply fresh_up|done].
Qed.

#[export] Instance fits_link_dec c h : Decision (fits_link c h).
Proof. unfold fits_link. apply _. Defined.

(** The hypotheses of the theorem on a pair of stations. *)
Definition ready_pair (p : stack * stack) : bool :=
  is_fresh sample_conf (handle (snd (fst p))) && is_fresh sample_conf (handle (snd (snd p))) &&
  is_idle (fst (fst p)) && is_idle (fst (snd p)) &&
  bool_decide (crc_type (fst (fst p)) = crc_type (fst (snd p))) &&
  bool_decide (fits_link sample_conf (fst (snd p))) && bool_decide (fits_link sample_conf (fst (fst p))) &&
  bool_decide (received (user (snd (fst p))) = [] /\ confirmed (user (snd (fst p))) = [] /\
               received (user (snd (snd p))) = [] /\ confirmed (user (snd (snd p))) = []).

Lemma ready_established p :
  station_wf sample_conf (fst p) -> station_wf sample_conf (snd p) -> ready_pair p = true ->
  byte_established sample_conf sample_conf (byte_system_of p).
Proof.
  intros Ha Hb H. unfold ready_pair in H. rewrite !andb_true_iff, !bool_decide_eq_true in H.
  destruct H as (((((((Fa & Fb) & Ia) & Ib) & Ec) & Xa) & Xb) & Ra & Ca & Rb & Cb).
  assert (Hu : forall u, received u = [] -> confirmed u = [] -> u = mk_app [] []).
  { intros [r c]. cbn. by intros -> ->. }
  split; try done; apply byte_fresh_of; auto.
Qed.

Lemma sample_byte_system_established : byte_established sample_conf sample_conf sample_byte_system.
Proof.
  destruct byte_pair_wf as [Ha Hb]. apply ready_established; [done..|]. by vm_compute.
Qed.

(** [apart] by computation: every span against the others. *)
Definition apartb (c : fd_config) : bool :=
  let spans := slot_spans c in
  forallb (fun s => 0 <? fst s) spans &&
  forallb (fun i => forallb (fun j => (i =? j)%nat ||
      (let s := nth i spans (0, 0) in let t := nth j spans (0, 0) in (snd s <=? fst t) || (snd t <=? fst s)))
    (seq 0 (length spans))) (seq 0 (length spans)).

Lemma apartb_spec c : apartb c = true -> apart c.
Proof.
  unfold apartb. rewrite andb_true_iff, !forallb_forall. intros [H0 Hs]. split.
  - apply Forall_forall. intros s Hin. apply Z.ltb_lt, H0. by apply list_elem_of_In.
  - intros i j s t Hi Hj Hne. specialize (Hs i). rewrite forallb_forall in Hs.
    pose proof (lookup_lt_Some _ _ _ Hi) as Li. pose proof (lookup_lt_Some _ _ _ Hj) as Lj.
    specialize (Hs ltac:(apply in_seq; lia) j ltac:(apply in_seq; lia)).
    rewrite (nth_lookup_Some _ _ _ _ Hi), (nth_lookup_Some _ _ _ _ Hj) in Hs.
    apply orb_true_iff in Hs as [Hs|Hs]; [by apply Nat.eqb_eq in Hs|].
    apply orb_true_iff in Hs as [Hs|Hs]; apply Z.leb_le in Hs; auto.
Qed.

Lemma sample_conf_apart : apart sample_conf.
Proof. apply apartb_spec. by vm_compute. Qed.

(** ** Property *)

(** C5: reliable delivery over bytes.  Two freshly connected stations in balanced mode, framing included,
    with the same address and CRC type and frames that fit the other's receive buffer, exchange packets
    over two channels of bytes, with calls that do not wait and callbacks that only record.  The applications queue packets, poll for bytes
    to send with buffers of any size, and pass on received bytes in pieces of any size,
    in any order; the timers run; the channels may lose, change or insert bytes at any time.  In every run
    that meets three conditions - damage never makes the receiver find a frame that was not
    sent, so the FCS detects it; neither station gives the connection up; and no packet is queued into
    a slot the transmitter is still reading from (which [tiny_fd_send_packet_to] does not prevent:
    [tiny_fd_overwritten_delivered]) - in both directions what the receiver's application got is a
    prefix of what the sender accepted, what the sender's application was told to be delivered is a prefix
    of what the receiver got, and at most seven accepted packets are unconfirmed. *)
Theorem tiny_fd_byte_delivery (millis_a millis_b : nat -> Z)
  (others_a others_b : Z -> fd_world app -> fd_world app) (ca cb : fd_config) (y y' : byte_system)
  (Hca : balanced ca) (Hcb : balanced cb) (Hapa : apart ca) (Hapb : apart cb)
  (Haddr : c_addr ca = c_addr cb) (Hy : byte_established ca cb y)
  (Hrun : rtc (byte_step millis_a millis_b others_a others_b) y y') :
  delivered (side_of (by_a y')) (side_of (by_b y')) /\ delivered (side_of (by_b y')) (side_of (by_a y')).
Proof.
  pose proof (byte_established_ok ca cb y Hy) as Hok.
  apply (byte_run_ok ca cb Hca Hcb Hapa Hapb Haddr _ _ _ _ _ _ Hrun) in Hok as (fab & fba & Hbc).
  destruct (bc_frames _ _ _ _ _ _ _ _ Hbc) as (f1 & f2 & wab & wba & pa & pb & []).
  split; by eapply direction_delivered.
Qed.

(** Two packets; the bytes go out in pieces.  The control byte of the first frame is inverted on the way, so
    that frame is dropped and the second one rejected; both are sent again, acknowledged and
    confirmed. *)
Definition damaged : list Z := [255; 1; 2; 125; 94; 166; 55; 126; 126; 1; 2; 4; 132; 233; 126].

Definition byte_script : list (bool * byte_command) :=
  [(true, CallSend 0 [1; 2; 0x7E]); (true, CallPoll 4); (true, CallSend 0 [4]); (true, CallPoll 8);
   (true, CallPoll 64); (false, CallRead 2); (false, Damage damaged); (false, CallRead 7);
   (false, CallRead 64); (false, CallPoll 64); (true, CallRead 3); (true, CallRead 64);
   (true, CallPoll 64); (false, CallRead 64); (false, CallPoll 64); (true, CallPoll 64);
   (false, CallRead 64); (false, CallPoll 64); (false, CallPoll 64); (true, CallRead 64)].

Definition after_byte_script : byte_system :=
  byte_perform_all stopped_clock stopped_clock idle_others idle_others byte_script sample_byte_system.

Lemma tiny_fd_byte_delivery_witness :
  delivered (side_of (by_a after_byte_script)) (side_of (by_b after_byte_script)) /\
  received (user (ep_world (by_b after_byte_script))) = [[1; 2; 0x7E]; [4]] /\
  confirmed (user (ep_world (by_a after_byte_script))) = [[1; 2; 0x7E]; [4]].
Proof.
  destruct (tiny_fd_byte_delivery stopped_clock stopped_clock idle_others idle_others
              sample_conf sample_conf sample_byte_system after_byte_script sample_conf_balanced
              sample_conf_balanced sample_conf_apart sample_conf_apart eq_refl
              sample_byte_system_established
              (byte_perform_all_steps stopped_clock stopped_clock idle_others idle_others byte_script sample_byte_system))
    as [H _].
  split; [exact H|]. by vm_compute.
Defined.

(** ** A slot reused too early *)

(** A frame sent again is confirmed while its bytes still go out; its slot is freed, and the next
    packet overwrites the rest of it. *)
Definition jump_clock (n : nat) : Z := if (n <=? 51)%nat then 1000 else 1500.

Definition reuse_script : list (bool * byte_command) :=
  [(true, CallSend 0 [1; 2; 3; 4; 5]); (true, CallSend 0 [2]); (true, CallSend 0 [3]); (true, CallSend 0 [4]);
   (true, CallPoll 64); (true, CallPoll 64); (true, CallPoll 64); (true, CallPoll 64);
   (false, CallRead 64); (false, CallPoll 64); (false, CallPoll 64); (false, CallPoll 64);
   (false, CallPoll 64); (true, CallPoll 4); (true, CallRead 64)].

Lemma tiny_fd_send_overwrites_transit :
  let e := by_a (byte_perform_all jump_clock stopped_clock idle_others idle_others reuse_script sample_byte_system) in
  let '(res, w) := tiny_fd_send_packet_to jump_clock idle_others 0 [7; 8; 9] 0 (ep_world e) in
  res = TINY_SUCCESS /\ unsent (fd_mem (handle (ep_world e))) (ep_hdlc e) = [2; 3; 4; 5] /\
  unsent (fd_mem (handle w)) (ep_hdlc e) = [8; 9; 4; 5].
Proof. by vm_compute. Qed.

(** With the 8 bit checksum the damage can go unseen: when only the flag is out, the new packet replaces the
    header and the payload, the sum stays the same, and the other application receives a mixture of
    the two packets that nobody sent. *)
Definition checksum_stack : stack :=
  match tiny_fd_init layout_64 (sample_fd_init <| it_crc_type := HDLC_CRC_8 |>) with
  | (_, Some (hdlc, h)) => (hdlc, mk_fd_world h 0 (mk_app [] []))
  | (_, None) => initial_stack
  end.

Definition mixture_script : list (bool * byte_command) :=
  [(true, CallSend 0 [1; 2; 3; 4; 5]); (true, CallSend 0 [2]); (true, CallSend 0 [3]); (true, CallSend 0 [4]);
   (true, CallPoll 64); (true, CallPoll 64); (true, CallPoll 64); (true, CallPoll 64);
   (false, CallRead 64); (false, CallPoll 64); (false, CallPoll 64); (false, CallPoll 64);
   (false, CallPoll 64); (true, CallPoll 1); (true, CallRead 64)].

Lemma tiny_fd_overwritten_delivered :
  let run := byte_perform_all jump_clock stopped_clock idle_others idle_others in
  let y := run mixture_script (byte_system_of (connected_pair checksum_stack)) in
  let a := by_a y in
  let '(res, w) := tiny_fd_send_packet_to jump_clock idle_others 0 [0; 0; 254] 0 (ep_world a) in
  let y := mk_byte_system (mk_endpoint (ep_hdlc a) w (ep_sent a ++ [[0; 0; 254]])) (by_b y) (by_ab y) (by_ba y) in
  let y := run [(true, CallPoll 64); (false, CallRead 64)] y in
  res = TINY_SUCCESS /\
  ep_sent (by_a y) = [[1; 2; 3; 4; 5]; [2]; [3]; [4]; [0; 0; 254]] /\
  received (user (ep_world (by_b y))) = [[1; 2; 3; 4; 5]; [2]; [3]; [4]; [0; 0; 254; 4; 5]].
Proof. by vm_compute. Qed.
