(* ===== verification/FdStall.v ===== *)
(** * A connection that stops sending

    An acknowledgement that arrives after a timeout has moved the send pointer back
    moves the window past the pointer.  The pointer then names a frame that is no
    longer queued: nothing is sent any more, and since not all frames count as sent, the
    retransmission timer never fires either. *)

From stdpp Require Import relations.
From S2P Require Import Prelude Crc HdlcLL HdlcSpec HdlcRx FdTypes FdQueue FdPeers FdIQueue FdLog.
From S2P Require Import FdService FdTx FdRx Fd FdApi FdInv FdSafe FdStation FdInit FdRun FdFifo.
From S2P Require Import FdSlots FdFlow FdConn FdMoves FdXmit FdE2E FdDelivery.

(** ** The sending side of a station *)

(** What the choice of the next I-frame depends on. *)
Record send_view : Type := mk_send_view {
  sv_queue : tiny_fd_queue_t;
  sv_state : tiny_fd_state_t;
  sv_addr : Z;
  sv_srej : Z;
  sv_window : Z * Z * Z;
  sv_mode : Z
}.

Definition peer_view (p : tiny_fd_peer_info_t) : tiny_fd_state_t * Z * Z * (Z * Z * Z) :=
  let c := pi_i_queue_control p in
  (pi_state p, pi_addr p, pi_srej_req_mask p, (confirm_ns c, next_ns c, last_ns c)).

Definition sending (h : tiny_fd_data_t) : send_view :=
  let '(state, addr, srej, win) := peer_view (peer_at h 0) in
  mk_send_view (fd_i_queue h) state addr srej win (fd_mode h).

(** *** Assignments that do not matter to it *)

Lemma sending_upd_peer f h :
  (forall p, peer_view (f p) = peer_view p) -> sending (upd_peer 0 f h) = sending h.
Proof.
  intros Hf. unfold sending.
  assert (peer_view (peer_at (upd_peer 0 f h) 0) = peer_view (peer_at h 0)) as ->; [|done].
  unfold peer_at, upd_peer. cbn [fd_peers]. change (fd_peers (h <| fd_peers ::= ?g |>)) with (g (fd_peers h)).
  destruct (fd_peers h) as [|p l]; [done|]. apply Hf.
Qed.

(** A change of the handle that leaves the view alone. *)
Class Keeps (f : tiny_fd_data_t -> tiny_fd_data_t) : Prop := keeps h : sending (f h) = sending h.

Lemma sending_put_u_s type data h : sending (put_u_s type data h) = sending h.
Proof.
  unfold put_u_s, __put_u_s_frame_to_tx_queue.
  by destruct (tiny_fd_queue_allocate _ _ _) as [[slot|] q].
Qed.

#[local] Instance keeps_lock : Keeps tiny_mutex_lock.
Proof. intros h. unfold tiny_mutex_lock. by destruct (fd_mutex h). Qed.

#[local] Instance keeps_unlock : Keeps tiny_mutex_unlock.
Proof. intros h. unfold tiny_mutex_unlock. by destruct (fd_mutex h). Qed.

#[local] Hint Extern 2 (Keeps _) =>
  let h := fresh "h" in
  intros h; first [exact eq_refl | apply sending_put_u_s | apply sending_upd_peer; done] : typeclass_instances.

(** The view of a world. *)
Definition view {US} (w : fd_world US) : send_view := sending (handle w).

Lemma view_on {US} f (w : fd_world US) : Keeps f -> view (on_handle f w) = view w.
Proof. intros Hf. apply Hf. Qed.

Lemma view_log (w : fd_world app) dir data : view (__tiny_fd_log_frame app_callbacks dir data w) = view w.
Proof. by destruct data as [|? [|? ?]]. Qed.

Lemma view_if {US} (b : bool) (w1 w2 : fd_world US) v : view w1 = v -> view w2 = v -> view (if b then w1 else w2) = v.
Proof. by destruct b. Qed.

(** One change of the world at a time. *)
Ltac keep_view :=
  cbv beta zeta;
  lazymatch goal with
  | |- view (on_handle _ _) = _ => rewrite view_on by apply _; keep_view
  | |- view (__tiny_fd_log_frame _ _ _ _) = _ => rewrite view_log; keep_view
  | |- view (if _ then _ else _) = _ => apply view_if; keep_view
  | |- view (snd (tiny_millis _ ?w)) = ?v => change (view w = v); keep_view
  | |- view (?w <| clock ::= S |>) = ?v => change (view w = v); keep_view
  | |- view (?w <| user ::= _ |>) = ?v => change (view w = v); keep_view
  | |- _ => try done
  end.

(** ** A stalled station *)

(** Connected, frames to send, but no queued frame has the number that is next. *)
Definition stalled (h : tiny_fd_data_t) : Prop :=
  let v := sending h in
  let '(confirm, next, last) := sv_window v in
  sv_mode v = TINY_FD_MODE_ABM /\ sv_state v = TINY_FD_STATE_CONNECTED /\ sv_srej v = 0 /\
  last <> next /\
  tiny_fd_queue_get_next (sv_queue v) TINY_FD_QUEUE_I_FRAME (clear_bits HDLC_CR_BIT (sv_addr v)) next = None.

Lemma stalled_view h h' : sending h' = sending h -> stalled h -> stalled h'.
Proof. unfold stalled. by intros ->. Qed.

Lemma stalled_facts h :
  stalled h ->
  fd_mode h = TINY_FD_MODE_ABM /\ pi_state (peer_at h 0) = TINY_FD_STATE_CONNECTED /\
  pi_srej_req_mask (peer_at h 0) = 0 /\ __all_frames_are_sent (control_at h 0) = false /\
  tiny_fd_queue_get_next (fd_i_queue h) TINY_FD_QUEUE_I_FRAME (__peer_to_address_field h 0)
    (next_ns (control_at h 0)) = None.
Proof.
  unfold stalled, sending, peer_view. cbn. intros (H1 & H2 & H3 & H4 & H5).
  do 3 (split; [done|]). split; [|exact H5]. by apply Z.eqb_neq.
Qed.

(** A received frame that acknowledges nothing new and asks for nothing again: an
    I-frame, RR or RNR whose N(R) is the oldest unconfirmed frame. *)
Definition nothing_new (h : tiny_fd_data_t) (data : list Z) : Prop :=
  let control := frame_control data in
  Z.land control HDLC_U_FRAME_MASK <> HDLC_U_FRAME_MASK /\
  Z.shiftr control 5 = confirm_ns (control_at h 0) /\
  (Z.land control HDLC_I_FRAME_MASK = HDLC_I_FRAME_BITS \/
   Z.land control HDLC_S_FRAME_TYPE_MASK = HDLC_S_FRAME_TYPE_RR \/
   Z.land control HDLC_S_FRAME_TYPE_MASK = HDLC_S_FRAME_TYPE_RNR).

Section Quiet.

Context (millis : nat -> Z).

#[local] Abbreviation cbs := app_callbacks.

(** No I-frame is chosen. *)
Lemma stalled_next (w : fd_world app) :
  stalled (handle w) ->
  let '(res, w') := tiny_fd_get_next_frame_to_send millis cbs 0 w in
  (forall i, res <> Some (InIQueue i)) /\ view w' = view w.
Proof using Type.
  intros Hst. unfold tiny_fd_get_next_frame_to_send.
  set (w1 := on_handle tiny_mutex_lock w).
  assert (Hv : view w1 = view w) by (unfold w1; keep_view).
  pose proof (stalled_facts _ (stalled_view _ _ Hv Hst)) as (Hm & Hs & Hr & _ & Hq).
  unfold tiny_fd_get_next_s_u_frame_to_send.
  destruct (tiny_fd_queue_get_next (fd_s_queue (handle w1)) _ _ _) as [i|].
  - set (h1 := if _ =? _ then _ else _).
    assert (Hh1 : view (w1 <| handle := h1 |>) = view w).
    { rewrite <- Hv. unfold view. cbn. unfold h1. destruct (_ =? _); [|done]. by apply sending_upd_peer. }
    revert Hh1. generalize (w1 <| handle := h1 |>) as w2. intros w2 Hh1. cbn [tiny_millis].
    unfold tiny_millis. split; [done|]. keep_view.
  - unfold tiny_fd_get_next_i_frame.
    change (handle (w1 <| handle := handle w1 |>)) with (handle w1).
    rewrite Hs, Hr. cbn [Z.eqb negb].
    rewrite bool_decide_eq_false_2, bool_decide_eq_false_2 by done. cbn [orb].
    unfold __i_queue_control_get_next_frame_to_send. rewrite Hq.
    change (handle (w1 <| handle := handle w1 |>)) with (handle w1).
    rewrite Hm. change (TINY_FD_MODE_ABM =? TINY_FD_MODE_NRM) with false. cbv iota. split; [done|]. keep_view.
Qed.

Lemma stalled_peers h : stalled h -> (0 < length (fd_peers h))%nat.
Proof using Type.
  intros (_ & Hs & _)%stalled_facts. unfold peer_at in Hs. destruct (fd_peers h); [done|cbn; lia].
Qed.

Lemma time_since_eq ts (w : fd_world app) :
  time_since millis ts w = (u32 (u32 (millis (clock w)) - ts), w <| clock ::= S |>).
Proof using Type. done. Qed.

(** The timers retransmit nothing. *)
Lemma stalled_timer (w : fd_world app) :
  stalled (handle w) ->
  let w' := check_idle_timeout millis cbs 0 w in
  pi_state (peer_at (handle w') 0) = TINY_FD_STATE_CONNECTED -> view w' = view w.
Proof using Type.
  intros Hst. pose proof (stalled_facts _ Hst) as (_ & Hs & _ & _ & _). cbv zeta.
  unfold check_idle_timeout. rewrite Hs, bool_decide_eq_true_2 by done. cbn [orb].
  unfold tiny_fd_connected_check_idle_timeout. set (w1 := on_handle tiny_mutex_lock w).
  assert (Hv : view w1 = view w) by (unfold w1; keep_view).
  revert Hv. generalize w1 as w2. clear w1. intros w2 Hv.
  pose proof (stalled_view _ _ Hv Hst) as Hst2.
  pose proof (stalled_facts _ Hst2) as (_ & _ & _ & Ha & _).
  rewrite time_since_eq. cbv iota.
  set (w3 := w2 <| clock ::= S |>). change (handle w3) with (handle w2).
  rewrite Ha, andb_false_r. cbn [andb].
  unfold __time_passed_since_last_frame_received. rewrite time_since_eq. cbv iota.
  set (w4 := w3 <| clock ::= S |>). change (handle w4) with (handle w2).
  assert (Hv4 : view w4 = view w) by exact Hv.
  destruct (_ <=? _).
  - destruct (negb _); [|intros _; by keep_view].
    intros Hc. exfalso. revert Hc.
    change (handle (on_handle ?f ?x)) with (f (handle x)).
    pose proof (disconnected_state w4 (stalled_peers _ Hst2)) as Hd.
    revert Hd. generalize (handle (__switch_to_disconnected_state cbs 0 w4)). intros h Hd.
    unfold tiny_mutex_unlock. destruct (fd_mutex h);
      change (peer_at (h <| fd_mutex := false |>) 0) with (peer_at h 0) || idtac.
    + change (peer_at (h <| fd_mutex := false |>) 0) with (peer_at h 0). by rewrite Hd.
    + change (peer_at (h <| fd_mutex_misuse := true |>) 0) with (peer_at h 0). by rewrite Hd.
  - intros _. unfold __time_passed_since_last_frame_sent. rewrite time_since_eq. cbv iota.
    set (w5 := w4 <| clock ::= S |>). assert (Hv5 : view w5 = view w) by exact Hv.
    clearbody w5. unfold tiny_millis. destruct (_ <=? _); by keep_view.
Qed.

Lemma confirm_nothing nr (w : fd_world app) :
  nr = confirm_ns (control_at (handle w) 0) -> view (__confirm_sent_frames cbs 0 nr w) = view w.
Proof using Type.
  intros ->. unfold __confirm_sent_frames, __i_queue_control_confirm_sent_frames.
  cbn [confirm_loop]. rewrite Z.eqb_refl. cbn [negb]. destruct (negb _); [|done]. by keep_view.
Qed.

Lemma check_received_keeps ns h :
  sending (snd (__check_received_frame 0 ns h)) = sending h.
Proof using Type.
  unfold __check_received_frame. destruct (_ =? _); cbn [snd].
  - unfold upd_control. rewrite !sending_upd_peer by done. done.
  - destruct (negb _); [|done]. cbn [snd]. rewrite sending_put_u_s. by apply sending_upd_peer.
Qed.

Lemma view_confirm (w : fd_world app) v :
  view w = v -> confirm_ns (control_at (handle w) 0) = fst (fst (sv_window v)).
Proof using Type. by intros <-. Qed.

#[local] Instance keeps_confirm_with_rr : Keeps (confirm_with_rr 0).
Proof using Type. intros h. unfold confirm_with_rr. destruct (_ && _); [apply sending_put_u_s|done]. Qed.

(** A frame that brings no news changes nothing on the sending side. *)
Lemma stalled_read data (w : fd_world app) :
  stalled (handle w) -> nothing_new (handle w) data -> view (on_frame_read millis cbs data w) = view w.
Proof using Type.
  intros Hst (Hu & Hnr & Htype). pose proof (stalled_facts _ Hst) as (Hm & Hs & _).
  unfold on_frame_read. destruct (_ <? 2); [done|].
  assert (Hlog : __tiny_fd_log_frame cbs TINY_FD_FRAME_DIRECTION_IN data w = w)
    by (by destruct data as [|? [|? ?]]).
  rewrite Hlog.
  assert (Hpeer : __address_field_to_peer (handle w) (frame_address data) = 0 \/
                  __address_field_to_peer (handle w) (frame_address data) = HDLC_INVALID_PEER_INDEX).
  { unfold __address_field_to_peer. rewrite Hm, orb_true_r.
    destruct (negb _); [by right|]. destruct (_ =? _); [by left|by right]. }
  destruct Hpeer as [->| ->]; [|done]. cbn [Z.eqb HDLC_INVALID_PEER_INDEX].
  unfold tiny_millis.
  set (w1 := on_handle (upd_peer 0 _) _).
  assert (Hv1 : view w1 = view w) by (unfold w1; by keep_view).
  clearbody w1. pose proof (stalled_view _ _ Hv1 Hst) as Hst1.
  pose proof (stalled_facts _ Hst1) as (Hm1 & Hs1 & _).
  assert (Hnr1 : Z.shiftr (frame_control data) 5 = confirm_ns (control_at (handle w1) 0))
    by (rewrite Hnr, (view_confirm _ _ eq_refl), (view_confirm _ _ Hv1); done).
  rewrite (proj2 (Z.eqb_neq _ _) Hu), Hs1, (bool_decide_eq_true_2 (_ = _)) by done. cbn [negb andb].
  set (w2 := if Z.land (frame_control data) HDLC_I_FRAME_MASK =? HDLC_I_FRAME_BITS then _ else _).
  assert (Hv2 : view w2 = view w).
  { unfold w2. destruct (Z.eqb_spec (Z.land (frame_control data) HDLC_I_FRAME_MASK) HDLC_I_FRAME_BITS).
    - unfold __on_i_frame_read. pose proof (check_received_keeps
        (Z.land (Z.shiftr (frame_control data) 1) 0x07) (handle w1)) as Hk.
      destruct (__check_received_frame _ _ _) as [res h]. cbn [snd] in Hk.
      assert (Hv3 : view (w1 <| handle := h |>) = view w) by (etrans; [exact Hk|exact Hv1]).
      revert Hv3. generalize (w1 <| handle := h |>) as w3. intros w3 Hv3.
      assert (Hv4 : view (__confirm_sent_frames cbs 0 (Z.shiftr (frame_control data) 5) w3) = view w).
      { rewrite confirm_nothing; [done|].
        rewrite Hnr, (view_confirm _ _ eq_refl), (view_confirm _ _ Hv3). done. }
      revert Hv4. generalize (__confirm_sent_frames cbs 0 (Z.shiftr (frame_control data) 5) w3).
      intros w4 Hv4. destruct (res =? TINY_SUCCESS); cbn [snd on_read_cb cbs]; [|done].
      unfold unlocked. by keep_view.
    - destruct (_ =? HDLC_S_FRAME_BITS); [|done]. unfold __on_s_frame_read. cbn [snd].
      assert (Hv4 : view (__confirm_sent_frames cbs 0 (Z.shiftr (frame_control data) 5) w1) = view w)
        by by rewrite confirm_nothing.
      destruct Htype as [?|[->| ->]]; [done| |done].
      change (HDLC_S_FRAME_TYPE_RR =? HDLC_S_FRAME_TYPE_REJ) with false.
      change (HDLC_S_FRAME_TYPE_RR =? HDLC_S_FRAME_TYPE_RR) with true. cbv iota.
      revert Hv4. generalize (__confirm_sent_frames cbs 0 (Z.shiftr (frame_control data) 5) w1).
      intros w4 Hv4. destruct (nz _); [|done]. destruct (__all_frames_are_sent _); by keep_view. }
  clearbody w2. assert (Hm2 : fd_mode (handle w2) = TINY_FD_MODE_ABM).
  { by apply (stalled_facts _ (stalled_view _ _ Hv2 Hst)). }
  rewrite Hm2. change (TINY_FD_MODE_ABM =? TINY_FD_MODE_NRM) with false. cbv iota. by keep_view.
Qed.

Lemma stalled_sent header data (w : fd_world app) :
  stalled (handle w) -> view (on_frame_send header data w) = view w.
Proof using Type.
  intros Hst. unfold on_frame_send. destruct (_ =? _); [done|].
  set (w1 := if _ =? HDLC_I_FRAME_BITS then _ else _).
  assert (Hv1 : view w1 = view w) by (unfold w1; by keep_view).
  clearbody w1. pose proof (stalled_facts _ (stalled_view _ _ Hv1 Hst)) as (Hm & _).
  rewrite Hm. change (TINY_FD_MODE_ABM =? TINY_FD_MODE_NRM) with false. cbv iota. by keep_view.
Qed.

(** What a connected station does when nobody asks it to send: it looks for a frame,
    finishes one, checks its timers and receives frames without news. *)
Inductive quiet_step (w : fd_world app) : fd_world app -> Prop :=
| QuietNext res w' :
    tiny_fd_get_next_frame_to_send millis cbs 0 w = (res, w') -> quiet_step w w'
| QuietEnd header data : quiet_step w (on_frame_send header data w)
| QuietTimer w' :
    check_idle_timeout millis cbs 0 w = w' ->
    pi_state (peer_at (handle w') 0) = TINY_FD_STATE_CONNECTED -> quiet_step w w'
| QuietRead data : nothing_new (handle w) data -> quiet_step w (on_frame_read millis cbs data w).

Lemma quiet_step_view w w' : stalled (handle w) -> quiet_step w w' -> view w' = view w.
Proof using Type.
  intros Hst [res w1 Hn|header data|w1 <- Hc|data Hd].
  - pose proof (stalled_next w Hst) as H. rewrite Hn in H. apply H.
  - by apply stalled_sent.
  - by apply stalled_timer.
  - by apply stalled_read.
Qed.

Lemma quiet_steps_view w w' : stalled (handle w) -> rtc quiet_step w w' -> view w' = view w.
Proof using Type.
  intros Hst Hs. induction Hs as [|w w1 w' H1 _ IH]; [done|].
  pose proof (quiet_step_view _ _ Hst H1) as Hv. rewrite IH; [exact Hv|]. by apply (stalled_view (handle w)).
Qed.

End Quiet.

(** ** Properties *)

(** C22: an acknowledgement that comes too late stops the connection.  A station whose
    send pointer names no queued frame although not all its frames count as sent stays in that
    state for as long as the connection lasts and the peer sends nothing but
    keep-alives, acknowledgements of what is already confirmed and data: its queue does
    not change, no I-frame is ever chosen, and no timer retransmits.  (The witness
    reaches such a state: two packets are delivered, their acknowledgements
    arrive after a timeout has moved the pointer back and one of the frames was sent again
    and lost; the third packet is accepted and stays.) *)
Theorem tiny_fd_late_ack_stall (millis : nat -> Z) (w w' : fd_world app)
  (Hst : stalled (handle w)) (Hrun : rtc (quiet_step millis) w w') :
  stalled (handle w') /\ fd_i_queue (handle w') = fd_i_queue (handle w) /\
  (forall i, fst (tiny_fd_get_next_frame_to_send millis app_callbacks 0 w') <> Some (InIQueue i)) /\
  (pi_state (peer_at (handle (check_idle_timeout millis app_callbacks 0 w')) 0) = TINY_FD_STATE_CONNECTED ->
   stalled (handle (check_idle_timeout millis app_callbacks 0 w'))).
Proof.
  pose proof (quiet_steps_view millis w w' Hst Hrun) as Hv.
  pose proof (stalled_view _ _ Hv Hst) as Hst'.
  split; [done|]. split; [exact (f_equal sv_queue Hv)|]. split.
  - pose proof (stalled_next millis w' Hst') as H.
    destruct (tiny_fd_get_next_frame_to_send _ _ _ w'). apply H.
  - intros Hc. apply (stalled_view (handle w')); [|done]. by apply stalled_timer.
Qed.

(** Time passes after the second frame has been sent. *)
Definition leap_clock (k : nat) : Z := if (k <=? 16)%nat then 0 else 400.

Definition late_ack_script : list (bool * command) :=
  [(true, CmdSend 0 [1]); (true, CmdSend 0 [2]); (true, CmdStart); (true, CmdEnd); (true, CmdStart);
   (true, CmdEnd); (false, CmdRead); (false, CmdRead);
   (true, CmdTimer); (true, CmdStart); (true, CmdEnd); (false, CmdLose);
   (false, CmdStart); (false, CmdEnd); (false, CmdStart); (false, CmdEnd); (true, CmdRead); (true, CmdRead);
   (true, CmdSend 0 [3])].

Definition after_late_ack : system :=
  perform_all leap_clock leap_clock idle_others idle_others late_ack_script sample_system.

Definition is_stalled (h : tiny_fd_data_t) : bool :=
  (fd_mode h =? TINY_FD_MODE_ABM) && bool_decide (pi_state (peer_at h 0) = TINY_FD_STATE_CONNECTED) &&
  (pi_srej_req_mask (peer_at h 0) =? 0) && negb (last_ns (control_at h 0) =? next_ns (control_at h 0)) &&
  bool_decide (tiny_fd_queue_get_next (fd_i_queue h) TINY_FD_QUEUE_I_FRAME
                 (__peer_to_address_field h 0) (next_ns (control_at h 0)) = None).

Lemma is_stalled_ok h : is_stalled h = true -> stalled h.
Proof.
  unfold is_stalled. rewrite !andb_true_iff, negb_true_iff, !Z.eqb_eq, !bool_decide_eq_true, Z.eqb_neq.
  intros ((((H1 & H2) & H3) & H4) & H5). unfold stalled, sending, peer_view. cbn. done.
Qed.

Lemma tiny_fd_late_ack_stall_witness :
  let a := sys_a after_late_ack in
  rtc (system_step leap_clock leap_clock idle_others idle_others) sample_system after_late_ack /\
  sd_sent a = [[1]; [2]; [3]] /\ confirmed (user (sd_world a)) = [[1]; [2]] /\
  received (user (sd_world (sys_b after_late_ack))) = [[1]; [2]] /\
  sys_ab after_late_ack = [] /\ sys_ba after_late_ack = [] /\
  forall i, fst (tiny_fd_get_next_frame_to_send leap_clock app_callbacks 0 (sd_world a)) <> Some (InIQueue i).
Proof.
  assert (Hs : rtc (system_step leap_clock leap_clock idle_others idle_others) sample_system after_late_ack)
    by exact (perform_all_steps leap_clock leap_clock idle_others idle_others late_ack_script sample_system).
  assert (Hst : is_stalled (handle (sd_world (sys_a after_late_ack))) = true) by by vm_compute.
  assert (H1 : sd_sent (sys_a after_late_ack) = [[1]; [2]; [3]]) by by vm_compute.
  assert (H2 : confirmed (user (sd_world (sys_a after_late_ack))) = [[1]; [2]]) by by vm_compute.
  assert (H3 : received (user (sd_world (sys_b after_late_ack))) = [[1]; [2]]) by by vm_compute.
  assert (H4 : sys_ab after_late_ack = [] /\ sys_ba after_late_ack = []) by (vm_compute; auto).
  revert Hs Hst H1 H2 H3 H4. generalize after_late_ack. intros y Hs Hst H1 H2 H3 [H4 H5] a.
  destruct (tiny_fd_late_ack_stall leap_clock (sd_world a) (sd_world a)) as (_ & _ & H6 & _);
    [by apply is_stalled_ok|apply rtc_refl|].
  exact (conj Hs (conj H1 (conj H2 (conj H3 (conj H4 (conj H5 H6)))))).
Defined.
