(* ===== verification/FdLinkState.v ===== *)
(** * The connection automaton

    What every U-frame does to a connection: the state of the peer, the send window, the
    queue of data frames and the reply. *)

From S2P Require Import Prelude Crc HdlcLL HdlcSpec HdlcRx FdTypes FdQueue FdPeers FdIQueue FdLog.
From S2P Require Import FdService FdTx FdRx Fd FdApi FdInv FdSafe FdStation FdInit FdRun FdFifo.
From S2P Require Import FdSlots FdFlow FdConn FdMoves FdXmit FdE2E FdDelivery.

(** ** The abstract automaton *)

(** A request for a connection. *)
Definition asks_connection (type : Z) : bool :=
  (type =? HDLC_U_FRAME_TYPE_SABM) || (type =? HDLC_U_FRAME_TYPE_SNRM).

(** What happens to the link of the peer. *)
Inductive link_change : Type := Same | Reset (new : tiny_fd_state_t) | Counters.

(** The change a U-frame of kind [type] causes in state [s]. *)
Definition u_change (s : tiny_fd_state_t) (type : Z) : link_change :=
  if asks_connection type then Reset TINY_FD_STATE_CONNECTED
  else match s with
  | TINY_FD_STATE_DISCONNECTED => Same
  | _ =>
      if (type =? HDLC_U_FRAME_TYPE_DISC) || (type =? HDLC_U_FRAME_TYPE_DM)
      then Reset TINY_FD_STATE_DISCONNECTED
      else if type =? HDLC_U_FRAME_TYPE_RSET then Counters
      else if type =? HDLC_U_FRAME_TYPE_FRMR then Reset TINY_FD_STATE_CONNECTING
      else if type =? HDLC_U_FRAME_TYPE_UA then
        match s with
        | TINY_FD_STATE_CONNECTING => Reset TINY_FD_STATE_CONNECTED
        | TINY_FD_STATE_DISCONNECTING => Reset TINY_FD_STATE_DISCONNECTED
        | _ => Same
        end
      else Same
  end.

(** The reply: whether it is a command, and its kind. *)
Definition u_reply (mode : Z) (s : tiny_fd_state_t) (type address : Z) : option (Z * Z) :=
  if asks_connection type then Some (0, HDLC_U_FRAME_TYPE_UA)
  else match s with
  | TINY_FD_STATE_DISCONNECTED =>
      if negb (type =? HDLC_U_FRAME_TYPE_UI) && nz (Z.land address HDLC_CR_BIT)
      then Some (0, HDLC_U_FRAME_TYPE_DM) else None
  | _ =>
      if (type =? HDLC_U_FRAME_TYPE_DISC) || (type =? HDLC_U_FRAME_TYPE_RSET)
      then Some (0, HDLC_U_FRAME_TYPE_UA)
      else if type =? HDLC_U_FRAME_TYPE_FRMR
      then Some (HDLC_CR_BIT, if mode =? TINY_FD_MODE_NRM then HDLC_U_FRAME_TYPE_SNRM
                              else HDLC_U_FRAME_TYPE_SABM)
      else None
  end.

(** ** The part of a station they act on *)

Record link : Type := mk_link {
  lk_state : tiny_fd_state_t;
  lk_window : i_queue_control_t;
  lk_addr : Z;
  lk_mode : Z;
  lk_i_queue : tiny_fd_queue_t;
  lk_s_queue : tiny_fd_queue_t;
  lk_peers : nat;
  lk_retries : Z;
  lk_sent_nr : Z;
  lk_sent_reject : Z;
  lk_srej_mask : Z
}.

#[export] Instance eta_link : Eta link := fun l =>
  mk_link (lk_state l) (lk_window l) (lk_addr l) (lk_mode l) (lk_i_queue l) (lk_s_queue l)
    (lk_peers l) (lk_retries l) (lk_sent_nr l) (lk_sent_reject l) (lk_srej_mask l).

Definition link_of (peer : Z) (h : tiny_fd_data_t) : link :=
  let p := peer_at h peer in
  mk_link (pi_state p) (pi_i_queue_control p) (pi_addr p) (fd_mode h) (fd_i_queue h)
    (fd_s_queue h) (length (fd_peers h)) (pi_retries p) (pi_sent_nr p) (pi_sent_reject p)
    (pi_srej_req_mask p).

Definition zero_window : i_queue_control_t := mk_i_queue_control 0 0 0 0.

(** The window starts again; no reject is outstanding and nothing has been asked for. *)
Definition fresh_counters (l : link) : link :=
  l <| lk_window := zero_window |> <| lk_sent_nr := 0 |> <| lk_sent_reject := 0 |>
    <| lk_srej_mask := 0 |>.

(** The frames of the peer leave the queue; the counters start again. *)
Definition change_link (c : link_change) (l : link) : link :=
  match c with
  | Same => l
  | Counters => fresh_counters l
  | Reset s =>
      (fresh_counters l) <| lk_state := s |>
        <| lk_i_queue ::= fun q => tiny_fd_queue_reset_for q (clear_bits HDLC_CR_BIT (lk_addr l)) |>
  end.

(** The reply joins the service queue, if it has room. *)
Definition reply_link (r : option (Z * Z)) (l : link) : link :=
  match r with
  | None => l
  | Some (cr, type) =>
      l <| lk_s_queue ::= fun q =>
             match tiny_fd_queue_allocate q TINY_FD_QUEUE_U_FRAME [] with
             | (Some slot, q) =>
                 upd_slot slot (fun f =>
                   f <| fi_address := Z.lor (clear_bits HDLC_CR_BIT (lk_addr l)) cr |>
                     <| fi_control := Z.lor type HDLC_U_FRAME_BITS |>) q
             | (None, q) => q
             end |>
  end.

(** Callbacks that leave the link of every peer alone. *)
Class QuietCallbacks {US} (cbs : fd_callbacks US) : Prop := mk_quiet {
  quiet_ui : forall cb w a d peer, on_read_ui_cb cbs = Some cb ->
    link_of peer (handle (cb w a d)) = link_of peer (handle w);
  quiet_connect : forall cb w a s peer, on_connect_event_cb cbs = Some cb ->
    link_of peer (handle (cb w a s)) = link_of peer (handle w);
  quiet_log : forall cb w dir t st ns nr d, log_frame_cb cbs = Some cb ->
    handle (cb w dir t st ns nr d) = handle w
}.

#[export] Instance app_callbacks_quiet : QuietCallbacks app_callbacks.
Proof. by split. Qed.

(** ** The functions of the protocol on it *)

Section Link.

Context {US : Type} (cbs : fd_callbacks US) `{Hq : !QuietCallbacks cbs} (peer : Z).

#[local] Abbreviation lk h := (link_of peer h).

Definition valid_link (l : link) : Prop := (Z.to_nat peer < lk_peers l)%nat.

Lemma link_upd_peer f h :
  valid_link (lk h) ->
  let p := f (peer_at h peer) in
  lk (upd_peer peer f h) =
    mk_link (pi_state p) (pi_i_queue_control p) (pi_addr p) (fd_mode h) (fd_i_queue h) (fd_s_queue h)
      (length (fd_peers h)) (pi_retries p) (pi_sent_nr p) (pi_sent_reject p) (pi_srej_req_mask p).
Proof using Type.
  intros Hv. unfold link_of.
  assert (E : peer_at (upd_peer peer f h) peer = f (peer_at h peer)).
  { unfold peer_at, upd_peer. change (fd_peers (h <| fd_peers ::= ?g |>)) with (g (fd_peers h)).
    apply nth_lookup_Some. rewrite list_lookup_alter_eq.
    destruct (lookup_lt_is_Some_2 (fd_peers h) (Z.to_nat peer) Hv) as [p Hp].
    rewrite Hp. cbn. f_equal. f_equal. symmetry. by apply nth_lookup_Some. }
  rewrite E. unfold upd_peer. cbn. by rewrite length_alter.
Qed.

Lemma link_keep_peer f h :
  (forall p, pi_state (f p) = pi_state p /\ pi_i_queue_control (f p) = pi_i_queue_control p /\
             pi_addr (f p) = pi_addr p /\ pi_retries (f p) = pi_retries p /\
             pi_sent_nr (f p) = pi_sent_nr p /\ pi_sent_reject (f p) = pi_sent_reject p /\
             pi_srej_req_mask (f p) = pi_srej_req_mask p) ->
  lk (upd_peer peer f h) = lk h.
Proof using Type.
  intros Hf. destruct (decide (valid_link (lk h))) as [Hv|Hv].
  - rewrite link_upd_peer by done. destruct (Hf (peer_at h peer)) as (-> & -> & -> & -> & -> & -> & ->). done.
  - unfold valid_link in Hv. cbn in Hv. unfold link_of, peer_at, upd_peer. cbn.
    rewrite length_alter, !nth_overflow by (rewrite ?length_alter; lia). done.
Qed.

Lemma link_lock h : lk (tiny_mutex_lock h) = lk h.
Proof using Type. unfold tiny_mutex_lock. by destruct (fd_mutex h). Qed.

Lemma link_unlock h : lk (tiny_mutex_unlock h) = lk h.
Proof using Type. unfold tiny_mutex_unlock. by destruct (fd_mutex h). Qed.

Lemma link_put_u cr type h : lk (put_u peer cr type h) = reply_link (Some (cr, type)) (lk h).
Proof using Type.
  unfold put_u, put_u_s, __put_u_s_frame_to_tx_queue, reply_link, __peer_to_address_field. cbn [drop nth].
  change (lk_s_queue (lk h)) with (fd_s_queue h) || idtac.
  unfold fupd. cbn. destruct (tiny_fd_queue_allocate (fd_s_queue h) TINY_FD_QUEUE_U_FRAME []) as [[slot|] q]; done.
Qed.

Definition lview (w : fd_world US) : link := lk (handle w).

Lemma lview_unlocked cb w : (forall w, lview (cb w) = lview w) -> lview (unlocked cb w) = lview w.
Proof using Type.
  intros Hcb. unfold unlocked, lview in *. change (handle (on_handle ?f ?x)) with (f (handle x)).
  rewrite link_lock, Hcb. apply link_unlock.
Qed.

Lemma lview_log dir data w : lview (__tiny_fd_log_frame cbs dir data w) = lview w.
Proof using Hq.
  unfold __tiny_fd_log_frame. destruct data as [|? [|? ?]]; [done..|].
  destruct (log_frame_cb cbs) as [cb|] eqn:E; [|done]. unfold lview. by rewrite (quiet_log cb).
Qed.

Lemma link_reset_link s h :
  valid_link (lk h) ->
  lk (flush_peer peer (upd_peer peer (reset_link s) h)) = change_link (Reset s) (lk h).
Proof using Type.
  intros Hv.
  assert (Hf : forall h, lk (flush_peer peer h) = (lk h) <| lk_i_queue ::= fun q =>
            tiny_fd_queue_reset_for q (clear_bits HDLC_CR_BIT (lk_addr (lk h))) |>) by done.
  rewrite Hf, link_upd_peer by done. done.
Qed.

Lemma valid_change c l : valid_link (change_link c l) <-> valid_link l.
Proof using Type. by destruct c. Qed.

Lemma valid_reply r l : valid_link (reply_link r l) <-> valid_link l.
Proof using Type. by destruct r as [[? ?]|]. Qed.

(** Assignments that do not matter to the link. *)
Class LinkKeeps (f : tiny_fd_data_t -> tiny_fd_data_t) : Prop := link_keeps h : lk (f h) = lk h.

#[local] Hint Extern 2 (LinkKeeps _) =>
  let h := fresh "h" in
  intros h; first [exact eq_refl | apply link_lock | apply link_unlock | apply link_keep_peer; done]
  : typeclass_instances.

Lemma lview_on f w : LinkKeeps f -> lview (on_handle f w) = lview w.
Proof using Type. intros Hf. apply Hf. Qed.

(** One change of the world at a time. *)
Ltac keep_link :=
  cbv beta zeta;
  lazymatch goal with
  | |- lview (on_handle _ _) = _ => rewrite lview_on by apply _; keep_link
  | |- lview (__tiny_fd_log_frame _ _ _ _) = _ => rewrite lview_log; keep_link
  | |- lview (if ?b then _ else _) = _ => destruct b; keep_link
  | |- lview (?w <| clock ::= S |>) = ?v => change (lview w = v); keep_link
  | |- _ => try done
  end.

Context (millis : nat -> Z).

(** [bool_decide] on the state as the link has it. *)
Lemma state_lview w : pi_state (peer_at (handle w) peer) = lk_state (lview w).
Proof using Type. done. Qed.

Lemma switch_link s w :
  valid_link (lview w) ->
  lview (on_handle (flush_peer peer) (on_handle (upd_peer peer (reset_link s)) w)) =
    change_link (Reset s) (lview w).
Proof using Type. apply link_reset_link. Qed.

Lemma switch_to_connected_link w :
  valid_link (lview w) ->
  lview (__switch_to_connected_state millis cbs peer w) =
    if bool_decide (lk_state (lview w) = TINY_FD_STATE_CONNECTED) then lview w
    else change_link (Reset TINY_FD_STATE_CONNECTED) (lview w).
Proof using Hq.
  intros Hv. unfold __switch_to_connected_state, tiny_millis. rewrite state_lview.
  destruct (bool_decide _); [done|]. pose proof (switch_link TINY_FD_STATE_CONNECTED w Hv) as Hs.
  revert Hs. generalize (on_handle (flush_peer peer) (on_handle (upd_peer peer (reset_link TINY_FD_STATE_CONNECTED)) w)).
  intros w1 Hs. destruct (on_connect_event_cb cbs) as [cb|] eqn:Hcb.
  - rewrite lview_unlocked by (intros w2; by apply (quiet_connect cb)). by keep_link.
  - by keep_link.
Qed.

Lemma switch_to_disconnected_link w :
  valid_link (lview w) ->
  lview (__switch_to_disconnected_state cbs peer w) =
    if bool_decide (lk_state (lview w) = TINY_FD_STATE_DISCONNECTED) then lview w
    else change_link (Reset TINY_FD_STATE_DISCONNECTED) (lview w).
Proof using Hq.
  intros Hv. unfold __switch_to_disconnected_state. rewrite state_lview.
  destruct (bool_decide _); [done|]. pose proof (switch_link TINY_FD_STATE_DISCONNECTED w Hv) as Hs.
  revert Hs. generalize (on_handle (flush_peer peer) (on_handle (upd_peer peer (reset_link TINY_FD_STATE_DISCONNECTED)) w)).
  intros w1 Hs. destruct (on_connect_event_cb cbs) as [cb|] eqn:Hcb.
  - rewrite lview_unlocked by (intros w2; by apply (quiet_connect cb)). by keep_link.
  - by keep_link.
Qed.

Lemma lview_put_u cr type w :
  lview (on_handle (put_u peer cr type) w) = reply_link (Some (cr, type)) (lview w).
Proof using Type. apply link_put_u. Qed.

Lemma lview_set_state s w :
  valid_link (lview w) ->
  lview (on_handle (upd_peer peer (fun p => p <| pi_state := s |>)) w) = (lview w) <| lk_state := s |>.
Proof using Type.
  intros Hv. unfold lview. change (handle (on_handle ?f w)) with (f (handle w)).
  by rewrite link_upd_peer.
Qed.

(** A link that is reset twice ends as after the second time. *)
Lemma reset_for_twice q a : tiny_fd_queue_reset_for (tiny_fd_queue_reset_for q a) a = tiny_fd_queue_reset_for q a.
Proof using Type.
  unfold tiny_fd_queue_reset_for, fupd. cbn. f_equal. rewrite <- list_fmap_compose.
  apply list_fmap_ext. intros _ f _. cbn. destruct (same_address (fi_address f) a) eqn:E; cbn; by rewrite E.
Qed.

Lemma reset_twice s s' l : change_link (Reset s) (change_link (Reset s') l) = change_link (Reset s) l.
Proof using Type. cbn. unfold fupd. cbn. by rewrite reset_for_twice. Qed.

Lemma change_reply c r l : change_link c (reply_link r l) = reply_link r (change_link c l).
Proof using Type. by destruct c, r as [[cr type]|]. Qed.

(** The kinds of U-frames, one constant at a time. *)
Ltac kind_consts :=
  cbv [HDLC_U_FRAME_TYPE_SABM HDLC_U_FRAME_TYPE_SNRM HDLC_U_FRAME_TYPE_DISC HDLC_U_FRAME_TYPE_RSET
       HDLC_U_FRAME_TYPE_FRMR HDLC_U_FRAME_TYPE_UA HDLC_U_FRAME_TYPE_DM HDLC_U_FRAME_TYPE_UI] in *.

Lemma u_frame_connect data w :
  valid_link (lview w) ->
  asks_connection (Z.land (frame_control data) HDLC_U_FRAME_TYPE_MASK) = true ->
  lview (snd (__on_u_frame_read millis cbs peer data w)) =
    reply_link (Some (0, HDLC_U_FRAME_TYPE_UA)) (change_link (Reset TINY_FD_STATE_CONNECTED) (lview w)).
Proof using Hq.
  intros Hv Hask. unfold __on_u_frame_read. cbv zeta.
  set (type := Z.land (frame_control data) HDLC_U_FRAME_TYPE_MASK) in *.
  change ((type =? HDLC_U_FRAME_TYPE_SABM) || (type =? HDLC_U_FRAME_TYPE_SNRM)) with (asks_connection type).
  assert (bool_decide (pi_state (peer_at (handle w) peer) = TINY_FD_STATE_DISCONNECTED) &&
          negb (type =? HDLC_U_FRAME_TYPE_SABM) && negb (type =? HDLC_U_FRAME_TYPE_SNRM) &&
          negb (type =? HDLC_U_FRAME_TYPE_UI) = false) as ->.
  { unfold asks_connection in Hask. destruct (type =? HDLC_U_FRAME_TYPE_SABM), (type =? HDLC_U_FRAME_TYPE_SNRM);
      by destruct (bool_decide _). }
  rewrite Hask. cbn [snd]. rewrite !state_lview.
  set (w1 := on_handle (put_u peer 0 HDLC_U_FRAME_TYPE_UA) w).
  assert (Hw1 : lview w1 = reply_link (Some (0, HDLC_U_FRAME_TYPE_UA)) (lview w)) by apply lview_put_u.
  assert (Hv1 : valid_link (lview w1)) by (rewrite Hw1; by apply valid_reply).
  rewrite <- change_reply, <- Hw1. clearbody w1.
  destruct (negb _ && negb _) eqn:E.
  - rewrite switch_to_connected_link.
    + rewrite switch_to_disconnected_link by done.
      destruct (bool_decide (lk_state (lview w1) = TINY_FD_STATE_DISCONNECTED)) eqn:E1; [done|].
      rewrite bool_decide_eq_false_2 by done. apply reset_twice.
    + rewrite switch_to_disconnected_link by done.
      destruct (bool_decide _); [done|]. by apply valid_change.
  - rewrite switch_to_connected_link by done. rewrite bool_decide_eq_false_2; [done|].
    intros Hc. by rewrite Hc in E.
Qed.

Lemma u_frame_link data w :
  valid_link (lview w) ->
  let type := Z.land (frame_control data) HDLC_U_FRAME_TYPE_MASK in
  lview (snd (__on_u_frame_read millis cbs peer data w)) =
    reply_link (u_reply (lk_mode (lview w)) (lk_state (lview w)) type (frame_address data))
      (change_link (u_change (lk_state (lview w)) type) (lview w)).
Proof using Hq.
  intros Hv type. destruct (asks_connection type) eqn:Hask.
  { unfold u_reply, u_change. rewrite Hask. by apply u_frame_connect. }
  unfold __on_u_frame_read. cbv zeta. fold type.
  unfold u_reply, u_change. rewrite Hask.
  pose proof Hask as Hask'. unfold asks_connection in Hask'. apply orb_false_iff in Hask' as [Hsabm Hsnrm].
  rewrite Hsabm, Hsnrm. cbn [negb andb orb]. rewrite andb_true_r, !state_lview. rewrite andb_true_r.
  set (ui := match on_read_ui_cb cbs with Some _ => _ | None => _ end).
  assert (Hui : lview ui = lview w).
  { unfold ui. destruct (on_read_ui_cb cbs) as [cb|] eqn:Hcb; [|done].
    destruct (_ <? _); [|done]. apply lview_unlocked. intros w2. by apply (quiet_ui cb). }
  clearbody ui. clearbody type. clear Hsabm Hsnrm Hask.
  pose proof (switch_to_connected_link w Hv) as Hconn.
  pose proof (switch_to_disconnected_link w Hv) as Hdisc.
  destruct (bool_decide (lk_state (lview w) = TINY_FD_STATE_DISCONNECTED)) eqn:Ed.
  - apply bool_decide_eq_true in Ed. rewrite Ed.
    destruct (Z.eqb_spec type HDLC_U_FRAME_TYPE_UI) as [->|Hn]; cbn [negb andb snd].
    + kind_consts. cbn [Z.eqb Pos.eqb snd]. done.
    + destruct (nz _); [|done]. apply lview_put_u.
  - apply bool_decide_eq_false in Ed.
    assert (Hm : forall A (a b : A), match lk_state (lview w) with TINY_FD_STATE_DISCONNECTED => a | _ => b end = b)
      by (intros; by destruct (lk_state (lview w))).
    rewrite !Hm. cbn [andb snd]. clear Hm.
    destruct (Z.eqb_spec type HDLC_U_FRAME_TYPE_DISC) as [->|].
    { kind_consts. cbn [orb]. set (w1 := on_handle (put_u peer 0 _) w).
      assert (Hw1 : lview w1 = reply_link (Some (0, 0x60)) (lview w)) by apply lview_put_u.
      assert (Hv1 : valid_link (lview w1)) by (rewrite Hw1; by apply valid_reply).
      rewrite switch_to_disconnected_link, bool_decide_eq_false_2, Hw1 by (done || by rewrite Hw1).
      by rewrite change_reply. }
    destruct (Z.eqb_spec type HDLC_U_FRAME_TYPE_RSET) as [->|].
    { kind_consts. cbn [Z.eqb Pos.eqb orb]. rewrite lview_put_u. f_equal.
      unfold lview. change (handle (on_handle ?f w)) with (f (handle w)).
      by rewrite link_upd_peer. }
    destruct (Z.eqb_spec type HDLC_U_FRAME_TYPE_FRMR) as [->|].
    { kind_consts. cbn [Z.eqb Pos.eqb orb negb].
      set (w1 := __switch_to_disconnected_state cbs peer w) in *.
      assert (Hct : lview (on_handle (fun h => put_u peer HDLC_CR_BIT (connect_type h) h) w1) =
                reply_link (Some (HDLC_CR_BIT, connect_type (handle w1))) (lview w1)) by apply link_put_u.
      assert (Hmode : connect_type (handle w1) =
                if lk_mode (lview w) =? TINY_FD_MODE_NRM then 0x80 else 0x2C).
      { unfold connect_type. change (fd_mode (handle w1)) with (lk_mode (lview w1)). by rewrite Hdisc. }
      rewrite lview_set_state; rewrite Hct, Hdisc; [|by apply valid_reply, valid_change].
      rewrite Hmode. by destruct (lk_mode (lview w) =? TINY_FD_MODE_NRM). }
    destruct (Z.eqb_spec type HDLC_U_FRAME_TYPE_UA) as [->|].
    { kind_consts. cbn [Z.eqb Pos.eqb orb]. clear Ed. by destruct (lk_state (lview w)) eqn:E. }
    destruct (Z.eqb_spec type HDLC_U_FRAME_TYPE_DM) as [->|].
    exact Hdisc.
    cbn [orb]. by destruct (type =? HDLC_U_FRAME_TYPE_UI).
Qed.

Lemma handle_log dir data (w : fd_world US) : handle (__tiny_fd_log_frame cbs dir data w) = handle w.
Proof using Hq.
  unfold __tiny_fd_log_frame. destruct data as [|? [|? ?]]; [done..|].
  destruct (log_frame_cb cbs) as [cb|] eqn:E; [|done]. by apply (quiet_log cb).
Qed.

(** The frame around the handlers. *)
Lemma frame_read_link data w :
  (2 <= length data)%nat -> peer = __address_field_to_peer (handle w) (frame_address data) ->
  peer <> HDLC_INVALID_PEER_INDEX ->
  exists w1, lview w1 = lview w /\
    let control := frame_control data in
    let state := lk_state (lview w) in
    lview (on_frame_read millis cbs data w) =
    lview (if Z.land control HDLC_U_FRAME_MASK =? HDLC_U_FRAME_MASK then snd (__on_u_frame_read millis cbs peer data w1)
           else if negb (bool_decide (state = TINY_FD_STATE_CONNECTED)) &&
                   negb (bool_decide (state = TINY_FD_STATE_DISCONNECTING)) then
             on_handle (put_u peer 0 HDLC_U_FRAME_TYPE_DM) w1
           else if Z.land control HDLC_I_FRAME_MASK =? HDLC_I_FRAME_BITS then
             snd (__on_i_frame_read cbs peer data w1)
           else if Z.land control HDLC_S_FRAME_MASK =? HDLC_S_FRAME_BITS then
             snd (__on_s_frame_read cbs peer data w1)
           else w1).
Proof using Hq.
  intros Hl Hp Hv. unfold on_frame_read. rewrite (proj2 (Z.ltb_ge _ _)) by lia.
  rewrite handle_log, <- Hp, (proj2 (Z.eqb_neq _ _) Hv). unfold tiny_millis.
  set (w1 := on_handle (upd_peer peer _) _).
  assert (Hw1 : lview w1 = lview w) by (unfold w1; by keep_link).
  exists w1. split; [exact Hw1|]. cbv zeta. rewrite state_lview, Hw1. clearbody w1.
  set (w2 := if _ =? HDLC_U_FRAME_MASK then _ else _). clearbody w2. by keep_link.
Qed.

End Link.

(** A U-frame, whatever its kind. *)
Lemma u_frame_read_link {US} (millis : nat -> Z) (cbs : fd_callbacks US) `{!QuietCallbacks cbs} data
  (w : fd_world US) peer :
  peer = __address_field_to_peer (handle w) (frame_address data) ->
  peer <> HDLC_INVALID_PEER_INDEX -> (Z.to_nat peer < length (fd_peers (handle w)))%nat ->
  (2 <= length data)%nat ->
  (Z.land (frame_control data) HDLC_U_FRAME_MASK =? HDLC_U_FRAME_MASK) = true ->
  let l := link_of peer (handle w) in
  let type := Z.land (frame_control data) HDLC_U_FRAME_TYPE_MASK in
  link_of peer (handle (on_frame_read millis cbs data w)) =
    reply_link (u_reply (lk_mode l) (lk_state l) type (frame_address data))
      (change_link (u_change (lk_state l) type) l).
Proof.
  intros Hp Hn Hv Hl Hu l type.
  destruct (frame_read_link cbs peer millis data w Hl Hp Hn) as (w1 & Hw1 & Hr).
  cbv zeta in Hr. rewrite Hu in Hr. change (lview peer w) with l in *.
  change (lview peer (on_frame_read millis cbs data w) =
    reply_link (u_reply (lk_mode l) (lk_state l) type (frame_address data))
      (change_link (u_change (lk_state l) type) l)).
  assert (Hv1 : valid_link peer (lview peer w1)) by (rewrite Hw1; exact Hv).
  rewrite Hr, u_frame_link by done. by rewrite Hw1.
Qed.

(** ** Property *)

(** C11: the connection automaton.  Whatever the state of a peer, a U-frame changes its link as
    [u_change] says, and queues the reply [u_reply]: a request for a
    connection is always granted and starts the window and the queue of the peer afresh, a UA
    completes what was begun, DISC and DM end the connection, FRMR restarts it, RSET
    resets the counters alone, and a disconnected station answers other commands with DM.  An I- or
    S-frame for a peer that is not connected changes nothing and is answered with DM. *)
Theorem tiny_fd_connection_automaton {US : Type} (millis : nat -> Z) (cbs : fd_callbacks US)
  (Hq : QuietCallbacks cbs) (data : list Z) (w : fd_world US) (peer : Z)
  (Hpeer : peer = __address_field_to_peer (handle w) (frame_address data))
  (Hknown : peer <> HDLC_INVALID_PEER_INDEX) (Hvalid : (Z.to_nat peer < length (fd_peers (handle w)))%nat)
  (Hlen : (2 <= length data)%nat) :
  let l := link_of peer (handle w) in
  let l' := link_of peer (handle (on_frame_read millis cbs data w)) in
  let type := Z.land (frame_control data) HDLC_U_FRAME_TYPE_MASK in
  if Z.land (frame_control data) HDLC_U_FRAME_MASK =? HDLC_U_FRAME_MASK
  then l' = reply_link (u_reply (lk_mode l) (lk_state l) type (frame_address data))
              (change_link (u_change (lk_state l) type) l)
  else lk_state l <> TINY_FD_STATE_CONNECTED -> lk_state l <> TINY_FD_STATE_DISCONNECTING ->
       l' = reply_link (Some (0, HDLC_U_FRAME_TYPE_DM)) l.
Proof.
  intros l l' type. destruct (_ =? HDLC_U_FRAME_MASK) eqn:Hu; [by apply u_frame_read_link|].
  destruct (frame_read_link cbs peer millis data w Hlen Hpeer Hknown) as (w1 & Hw1 & Hr).
  cbv zeta in Hr. rewrite Hu in Hr. change l' with (lview peer (on_frame_read millis cbs data w)).
  change (lview peer w) with l in *. rewrite Hr.
  intros H1 H2. rewrite !bool_decide_eq_false_2 by done. cbn [negb andb]. by rewrite lview_put_u, Hw1.
Qed.

(** A station made by [tiny_fd_init] gets SABM, then DISC, then DISC again. *)
Lemma tiny_fd_connection_automaton_witness :
  let read data w := on_frame_read stopped_clock app_callbacks data w in
  let w1 := read [3; 0x3F] initial_world in
  let w2 := read [3; 0x53] w1 in
  let state w := pi_state (peer_at (handle w) 0) in
  state w1 = TINY_FD_STATE_CONNECTED /\ state w2 = TINY_FD_STATE_DISCONNECTED /\
  state (read [3; 0x53] w2) = TINY_FD_STATE_DISCONNECTED.
Proof.
  intros read w1 w2 state.
  assert (Hstep : forall w data, (bool_decide (0 = __address_field_to_peer (handle w) (frame_address data)) &&
                             bool_decide (0 < length (fd_peers (handle w)))%nat) = true ->
            (2 <= length data)%nat -> (Z.land (frame_control data) HDLC_U_FRAME_MASK =? HDLC_U_FRAME_MASK) = true ->
            state (read data w) =
              lk_state (change_link (u_change (state w) (Z.land (frame_control data) HDLC_U_FRAME_TYPE_MASK))
                          (link_of 0 (handle w)))).
  { intros w data H Hl Hu. apply andb_true_iff in H as [H1%bool_decide_eq_true H2%bool_decide_eq_true].
    pose proof (tiny_fd_connection_automaton stopped_clock app_callbacks _ data w 0 H1 ltac:(done) H2 Hl) as H.
    cbv zeta in H. rewrite Hu in H. apply (f_equal lk_state) in H. cbn [lk_state link_of] in H.
    unfold state, read. rewrite H. by destruct (u_reply _ _ _ _) as [[? ?]|]. }
  assert (H1 : state w1 = TINY_FD_STATE_CONNECTED).
  { unfold w1. rewrite Hstep; [done|by vm_compute|cbn; lia|by vm_compute]. }
  assert (H2 : state w2 = TINY_FD_STATE_DISCONNECTED).
  { unfold w2. rewrite Hstep, H1; [done|by vm_compute|cbn; lia|by vm_compute]. }
  assert (H3 : state (read [3; 0x53] w2) = TINY_FD_STATE_DISCONNECTED).
  { rewrite Hstep, H2; [exact H2|by vm_compute|cbn; lia|by vm_compute]. }
  exact (conj H1 (conj H2 H3)).
Defined.
