(* ===== verification/FdLimits.v ===== *)
(** * Addresses of secondary stations, and retries

    Two limits of the protocol as it is written: whom a secondary station can send to, and
    what is left of the retries after a connection was given up. *)

From stdpp Require Import list_numbers.
From S2P Require Import Prelude Crc HdlcLL HdlcSpec HdlcRx FdTypes FdQueue FdPeers FdIQueue FdLog.
From S2P Require Import FdService FdTx FdRx Fd FdApi FdInv FdSafe FdStation FdInit FdRun FdFifo.
From S2P Require Import FdSlots FdFlow FdConn FdMoves FdXmit FdE2E FdDelivery FdLinkState.

(** ** Destinations *)

(** The address field of the station with the address [a]. *)
Definition address_field (a : Z) : Z := u8 (Z.lor (Z.shiftl a 2) HDLC_E_BIT).

(** Facts on all station addresses at once. *)
Lemma address_facts a :
  1 <= a <= 62 ->
  __is_primary_address (address_field a) = false /\
  clear_bits HDLC_CR_BIT (address_field a) = address_field a /\
  nz (Z.land (address_field a) HDLC_E_BIT) = true /\
  nz (Z.land (clear_bits HDLC_CR_BIT (address_field (address_field a))) HDLC_E_BIT) = true /\
  (clear_bits HDLC_CR_BIT (address_field (address_field a)) =? address_field a) = (a =? 21).
Proof.
  intros Ha.
  assert (H : forallb (fun a =>
    negb (__is_primary_address (address_field a)) &&
    (clear_bits HDLC_CR_BIT (address_field a) =? address_field a) &&
    nz (Z.land (address_field a) HDLC_E_BIT) &&
    nz (Z.land (clear_bits HDLC_CR_BIT (address_field (address_field a))) HDLC_E_BIT) &&
    eqb (clear_bits HDLC_CR_BIT (address_field (address_field a)) =? address_field a) (a =? 21))
    (seqZ 1 62) = true) by by vm_compute.
  rewrite forallb_forall in H. specialize (H a). rewrite !andb_true_iff in H.
  destruct H as ((((H1 & H2) & H3) & H4) & H5).
  { apply list_elem_of_In, elem_of_seqZ. lia. }
  apply negb_true_iff in H1. apply Z.eqb_eq in H2. apply eqb_prop in H5. done.
Qed.

Lemma secondary_destination h a :
  1 <= a <= 62 -> fd_addr h = address_field a ->
  destination h TINY_FD_PRIMARY_ADDR = (if a =? 21 then 0 else HDLC_INVALID_PEER_INDEX) /\
  destination h a = 0.
Proof.
  intros Ha Haddr. destruct (address_facts a Ha) as (H1 & H2 & H3 & H4 & H5).
  unfold destination, __is_secondary_station, __is_primary_station. rewrite Haddr, H1.
  rewrite (proj2 (Z.eqb_neq a TINY_FD_PRIMARY_ADDR)) by (unfold TINY_FD_PRIMARY_ADDR; lia).
  change (TINY_FD_PRIMARY_ADDR =? TINY_FD_PRIMARY_ADDR) with true. cbn [negb andb].
  fold (address_field (address_field a)) (address_field a).
  unfold __address_field_to_peer, __is_secondary_station, __is_primary_station.
  rewrite Haddr, H1, H4, H5, H2, H3, Z.eqb_refl. done.
Qed.

(** The address field a successful initialisation stores. *)
Lemma init_addr p init hdlc h :
  tiny_fd_init p init = (TINY_SUCCESS, Some (hdlc, h)) -> it_addr init <> 0 ->
  fd_addr h = address_field (it_addr init).
Proof.
  intros H Ha. unfold tiny_fd_init in H.
  destruct (__tiny_fd_init_validate p init _) as [r i] eqn:Hv.
  assert (Hi : it_addr i = it_addr init).
  { apply (f_equal snd) in Hv. cbn [snd] in Hv. rewrite <- Hv. unfold __tiny_fd_init_validate. cbv zeta.
    destruct (_ || _); [done|]. generalize (it_mtu init =? 0). intros automatic.
    set (i1 := if automatic then _ else _).
    assert (Hi1 : it_addr i1 = it_addr init) by (unfold i1; by destruct automatic).
    clearbody i1. by repeat case_match. }
  destruct (negb (r =? TINY_SUCCESS)); [done|].
  assert (Hnz : nz (it_addr i) = true) by (rewrite Hi; by apply negb_true_iff, Z.eqb_neq).
  rewrite Hnz in H. repeat (case_match; try done); by simplify_eq/=; rewrite ?Hi.
Qed.

(** ** Giving up *)

(** The retransmission timer of a connected peer has run out. *)
Definition timer_expired (millis : nat -> Z) {US} (w : fd_world US) : bool :=
  let c := control_at (handle w) 0 in
  __i_queue_control_has_unconfirmed_frames c && __all_frames_are_sent c &&
  (fd_retry_timeout (handle w) <=? u32 (u32 (millis (clock w)) - pi_last_sent_i_ts (peer_at (handle w) 0))).

Lemma state_unlock h : pi_state (peer_at (tiny_mutex_unlock h) 0) = pi_state (peer_at h 0).
Proof. unfold tiny_mutex_unlock. by destruct (fd_mutex h). Qed.

(** Without retries the first expiry ends the connection. *)
Lemma expiry_disconnects millis (w : fd_world app) :
  (0 < length (fd_peers (handle w)))%nat -> fd_mutex (handle w) = false ->
  pi_state (peer_at (handle w) 0) = TINY_FD_STATE_CONNECTED ->
  pi_retries (peer_at (handle w) 0) = 0 -> timer_expired millis w = true ->
  pi_state (peer_at (handle (check_idle_timeout millis app_callbacks 0 w)) 0) = TINY_FD_STATE_DISCONNECTED.
Proof.
  intros Hp Hm Hs Hr Ht. unfold check_idle_timeout. rewrite Hs, bool_decide_eq_true_2 by done. cbn [orb].
  unfold tiny_fd_connected_check_idle_timeout, time_since, tiny_millis. cbv zeta.
  change (handle (on_handle ?f ?x)) with (f (handle x)).
  rewrite state_unlock.
  set (w1 := (on_handle tiny_mutex_lock w) <| clock ::= S |>).
  assert (Hh : handle w1 = (handle w) <| fd_mutex := true |>).
  { transitivity (tiny_mutex_lock (handle w)); [done|]. unfold tiny_mutex_lock. by rewrite Hm. }
  assert (Hc : control_at (handle w1) 0 = control_at (handle w) 0) by by rewrite Hh.
  assert (Hpe : peer_at (handle w1) 0 = peer_at (handle w) 0) by by rewrite Hh.
  assert (Hclk : clock (on_handle tiny_mutex_lock w) = clock w) by done.
  assert (Hts : pi_last_sent_i_ts (peer_at (handle (on_handle tiny_mutex_lock w)) 0) =
                pi_last_sent_i_ts (peer_at (handle w) 0)).
  { change (handle (on_handle tiny_mutex_lock w)) with (tiny_mutex_lock (handle w)).
    unfold tiny_mutex_lock. by rewrite Hm. }
  rewrite Hclk, Hts. unfold timer_expired in Ht. rewrite <- Hc in Ht.
  assert (Hrt : fd_retry_timeout (handle w1) = fd_retry_timeout (handle w)) by by rewrite Hh.
  rewrite <- Hrt in Ht. rewrite Ht, Hpe, Hr. cbn [Z.ltb Z.compare].
  apply disconnected_state. by rewrite Hh.
Qed.

(** ** Properties *)

(** A secondary station cannot answer its primary.  After a successful initialisation with
    the station address [a] (1 to 62), [tiny_fd_send_packet] of any data is refused with
    [TINY_ERR_UNKNOWN_PEER], unless [a] is 21: for [TINY_FD_PRIMARY_ADDR] the code takes the
    address field of the station, which is already shifted, and shifts it again.  Only a
    packet addressed to the station itself would go to the primary. *)
Theorem tiny_fd_secondary_send_refused (p : layout) (init : tiny_fd_init_t) (hdlc : hdlc_ll_data_t)
  (h : tiny_fd_data_t) (Hinit : tiny_fd_init p init = (TINY_SUCCESS, Some (hdlc, h)))
  (Ha : 1 <= it_addr init <= 62) (US : Type) (millis : nat -> Z)
  (others : Z -> fd_world US -> fd_world US) (w : fd_world US)
  (Hw : fd_addr (handle w) = fd_addr h) :
  destination (handle w) TINY_FD_PRIMARY_ADDR = (if it_addr init =? 21 then 0 else HDLC_INVALID_PEER_INDEX) /\
  destination (handle w) (it_addr init) = 0 /\
  (it_addr init <> 21 -> forall data timeout,
     tiny_fd_send_packet millis others data timeout w = (TINY_ERR_UNKNOWN_PEER, w)).
Proof.
  rewrite (init_addr p init hdlc h Hinit ltac:(lia)) in Hw.
  destruct (secondary_destination (handle w) (it_addr init) Ha Hw) as [H1 H2].
  split; [done|]. split; [done|]. intros Hn data timeout.
  unfold tiny_fd_send_packet, tiny_fd_send_packet_to. rewrite H1.
  by rewrite (proj2 (Z.eqb_neq _ _) Hn).
Qed.

(** The sample station as a secondary station with address 5. *)
Definition secondary_init : tiny_fd_init_t :=
  sample_fd_init <| it_addr := 5 |> <| it_mode := TINY_FD_MODE_NRM |>.

Lemma tiny_fd_secondary_send_refused_witness :
  exists hdlc h, tiny_fd_init layout_64 secondary_init = (TINY_SUCCESS, Some (hdlc, h)) /\
    tiny_fd_send_packet stopped_clock idle_others [1; 2; 3] 100 (mk_fd_world h 0 (mk_app [] [])) =
      (TINY_ERR_UNKNOWN_PEER, mk_fd_world h 0 (mk_app [] [])).
Proof.
  set (r := match tiny_fd_init layout_64 secondary_init with
            | (_, Some s) => s | _ => (zero_hdlc, sample_primary) end).
  assert (Hi : tiny_fd_init layout_64 secondary_init = (TINY_SUCCESS, Some (fst r, snd r))) by by vm_compute.
  revert Hi. generalize r. intros [hdlc h] Hi. cbn [fst snd] in Hi. exists hdlc, h. split; [exact Hi|].
  destruct (tiny_fd_secondary_send_refused layout_64 secondary_init hdlc h Hi ltac:(cbn; lia) app
              stopped_clock idle_others (mk_fd_world h 0 (mk_app [] [])) eq_refl) as (_ & _ & H).
  apply H. cbn. lia.
Defined.

(** A connection does not restore the retries.  A peer whose retries are used up keeps none
    when the UA of the next connection arrives (only a confirmed frame restores them);
    and a connected peer without retries is given up at the first expiry of its timer, where
    a new one is tried again [retries] times. *)
Theorem tiny_fd_retries_not_restored (millis : nat -> Z) (w w2 : fd_world app) (data : list Z)
  (Hpeer : __address_field_to_peer (handle w) (frame_address data) = 0)
  (Hvalid : (0 < length (fd_peers (handle w)))%nat) (Hlen : (2 <= length data)%nat)
  (Hua : (Z.land (frame_control data) HDLC_U_FRAME_MASK =? HDLC_U_FRAME_MASK) = true /\
         Z.land (frame_control data) HDLC_U_FRAME_TYPE_MASK = HDLC_U_FRAME_TYPE_UA)
  (Hstate : pi_state (peer_at (handle w) 0) = TINY_FD_STATE_CONNECTING)
  (Hretries : pi_retries (peer_at (handle w) 0) = 0)
  (Hw2 : (0 < length (fd_peers (handle w2)))%nat /\ fd_mutex (handle w2) = false /\
         pi_state (peer_at (handle w2) 0) = TINY_FD_STATE_CONNECTED /\
         pi_retries (peer_at (handle w2) 0) = 0) (Hexp : timer_expired millis w2 = true) :
  let w1 := on_frame_read millis app_callbacks data w in
  (pi_state (peer_at (handle w1) 0) = TINY_FD_STATE_CONNECTED /\ pi_retries (peer_at (handle w1) 0) = 0) /\
  pi_state (peer_at (handle (check_idle_timeout millis app_callbacks 0 w2)) 0) = TINY_FD_STATE_DISCONNECTED.
Proof.
  intros w1. destruct Hua as [Hu Htype]. split.
  - pose proof (u_frame_read_link millis app_callbacks data w 0 (eq_sym Hpeer) ltac:(done) Hvalid Hlen Hu) as H.
    cbv zeta in H. rewrite Htype in H. cbn [lk_state link_of] in H. rewrite Hstate in H.
    change (pi_state (peer_at (handle w1) 0)) with (lk_state (link_of 0 (handle w1))).
    change (pi_retries (peer_at (handle w1) 0)) with (lk_retries (link_of 0 (handle w1))).
    unfold w1. rewrite H. split; [done|exact Hretries].
  - destruct Hw2 as (H1 & H2 & H3 & H4). by apply expiry_disconnects.
Qed.

(** *** A run *)

(** Every reading of the clock is later than the last by more than the retry timeout. *)
Definition racing_clock (k : nat) : Z := 300 * Z.of_nat k.

Definition sent_once (data : list Z) (w : fd_world app) : fd_world app :=
  snd (tiny_fd_send_packet_to racing_clock idle_others 0 data 0 w).

Definition moved_on (w : fd_world app) : fd_world app := snd (transmit racing_clock w).

Definition expired (w : fd_world app) : fd_world app := check_idle_timeout racing_clock app_callbacks 0 w.

(** The peer is silent until the connection is given up; then a new one is requested. *)
Definition given_up : fd_world app :=
  expired (expired (moved_on (expired (moved_on (expired (moved_on (sent_once [1] (fst sample_pair)))))))).

(** The new connection, with a packet sent and the timer run out. *)
Definition second_connection : fd_world app :=
  moved_on (sent_once [2] (on_frame_read racing_clock app_callbacks [1; 0x73] (moved_on given_up))).

Lemma tiny_fd_retries_not_restored_witness :
  let w1 := on_frame_read racing_clock app_callbacks [1; 0x73] given_up in
  fd_retries (handle given_up) = 2 /\
  (pi_state (peer_at (handle w1) 0) = TINY_FD_STATE_CONNECTED /\ pi_retries (peer_at (handle w1) 0) = 0) /\
  pi_state (peer_at (handle (expired second_connection)) 0) = TINY_FD_STATE_DISCONNECTED.
Proof.
  intros w1. split; [by vm_compute|].
  apply (tiny_fd_retries_not_restored racing_clock given_up second_connection [1; 0x73]);
    [by vm_compute|apply Nat.ltb_lt; by vm_compute|cbn; lia|split; by vm_compute|by vm_compute|by vm_compute
    | |by vm_compute].
  split; [apply Nat.ltb_lt; by vm_compute|]. split; [by vm_compute|]. split; by vm_compute.
Defined.
