(* ===== verification/Hal.v ===== *)
(** * Platform services for bare systems (src/hal/no_platform, src/hal/single_core)

    The two portable implementations of mutexes and event groups: one on the
    compiler's compare-and-swap, one on atomic blocks.  A function is a program of
    atomic actions on the shared memory of one event group; threads run such programs,
    and a schedule chooses which thread does its next action.  The theorems are
    about every schedule: at most one thread is in a critical section, and the event
    functions behave as if each of them happened at one instant. *)

From S2P Require Import Prelude FdTypes.

(** ** The table of functions *)

(** [tiny_platform_hal_t]: function pointers, 0 is [NULL]. *)
Record tiny_platform_hal_t : Type := mk_hal {
  hal_mutex_create : Z; hal_mutex_destroy : Z; hal_mutex_try_lock : Z; hal_mutex_unlock : Z;
  hal_mutex_lock : Z; hal_events_create : Z; hal_events_destroy : Z; hal_events_wait : Z;
  hal_events_check_int : Z; hal_events_set : Z; hal_events_clear : Z; hal_sleep : Z;
  hal_millis : Z; hal_sleep_us : Z; hal_micros : Z
}.

(** [tiny_hal_init]: the pointers that are set replace those of [s_hal]. *)
Definition tiny_hal_init (hal s_hal : tiny_platform_hal_t) : tiny_platform_hal_t :=
  let pick field := if nz (field hal) then field hal else field s_hal in
  mk_hal (pick hal_mutex_create) (pick hal_mutex_destroy) (pick hal_mutex_try_lock)
    (pick hal_mutex_unlock) (pick hal_mutex_lock) (pick hal_events_create) (pick hal_events_destroy)
    (pick hal_events_wait) (pick hal_events_check_int) (pick hal_events_set) (pick hal_events_clear)
    (pick hal_sleep) (pick hal_millis) (pick hal_sleep_us) (pick hal_micros).

(** ** Shared memory and programs *)

(** [tiny_events_t], and the number of clock readings so far. *)
Record shared : Type := mk_shared {
  sh_mutex : Z;
  sh_bits : Z;
  sh_clock : nat
}.

#[export] Instance eta_shared : Eta shared := fun s => mk_shared (sh_mutex s) (sh_bits s) (sh_clock s).

(** A program is at its next action.  [WaitLoop] is the head of the loop of
    [tiny_events_wait].  The sleeps of a waiting thread are left out: a schedule can
    let any number of actions of other threads come between two of its own. *)
Inductive prog : Type :=
| Return (r : Z)
| LockThen (k : prog)
| UnlockThen (k : prog)
| LoadBits (k : Z -> prog)
| StoreBits (v : Z) (k : prog)
| AtomicBits (f : Z -> Z) (k : Z -> prog)
| Millis (k : Z -> prog)
| WaitLoop (ts : Z).

(** The event functions, as the protocols call them. *)
Inductive events_op : Type :=
| EventsSet (bits : Z)
| EventsClear (bits : Z)
| EventsCheckInt (bits clear : Z)
| EventsWait (bits clear timeout : Z).

(** [events->bits &= ~bits] on [uint8_t], and the test before it. *)
Definition bits_without (bits b : Z) : Z := u8 (Z.land b (Z.lnot bits)).
Definition wants_clear (bits clear b : Z) : bool := nz clear && nz (Z.land b bits).

(** What happens after a look at the bits: [events_wait] returns them when one of [bits] is
    set, gives up when the time is over, and looks again otherwise. *)
Definition after_look (bits timeout ts locked : Z) : prog :=
  if nz (Z.land locked bits) then Return locked
  else Millis (fun now => if timeout <=? u32 (now - ts) then Return 0 else WaitLoop ts).

Module NoPlatform.

(** [__sync_bool_compare_and_swap]: the result and the new value. *)
Definition compare_and_swap (mutex old new : Z) : bool * Z :=
  if mutex =? old then (true, new) else (false, mutex).

Definition mutex_create_default : Z := 0.

Definition mutex_try_lock_default (mutex : Z) : Z * Z :=
  let '(locked, mutex) := compare_and_swap mutex 0 1 in (if locked then 1 else 0, mutex).

Definition mutex_unlock_default (mutex : Z) : Z := snd (compare_and_swap mutex 1 0).

Definition events_create_default : shared := mk_shared mutex_create_default 0 0.

Definition events_set_default (bits : Z) : prog :=
  LockThen (LoadBits (fun b => StoreBits (u8 (Z.lor b bits)) (UnlockThen (Return 0)))).

Definition events_clear_default (bits : Z) : prog :=
  LockThen (LoadBits (fun b => StoreBits (bits_without bits b) (UnlockThen (Return 0)))).

Definition events_check_int_default (bits clear : Z) : prog :=
  LockThen (LoadBits (fun locked =>
    if wants_clear bits clear locked
    then LoadBits (fun b => StoreBits (bits_without bits b) (UnlockThen (Return locked)))
    else UnlockThen (Return locked))).

(** One pass of the loop, and the whole function. *)
Definition events_wait_pass (bits clear timeout ts : Z) : prog :=
  LockThen (LoadBits (fun locked =>
    let rest := UnlockThen (after_look bits timeout ts locked) in
    if wants_clear bits clear locked
    then LoadBits (fun b => StoreBits (bits_without bits b) rest)
    else rest)).

Definition events_wait_default (bits clear timeout : Z) : prog :=
  Millis (fun ts => events_wait_pass bits clear timeout ts).

Definition default_code (o : events_op) : prog :=
  match o with
  | EventsSet bits => events_set_default bits
  | EventsClear bits => events_clear_default bits
  | EventsCheckInt bits clear => events_check_int_default bits clear
  | EventsWait bits clear timeout => events_wait_default bits clear timeout
  end.

End NoPlatform.

Module SingleCore.

Definition single_mutex_create : Z := 0.

(** The atomic block of [tiny_mutex_try_lock], which [tiny_mutex_lock] repeats. *)
Definition single_mutex_try_lock (mutex : Z) : Z * Z := (if nz mutex then 0 else 1, 1).
Definition single_mutex_unlock (mutex : Z) : Z := 0.

Definition single_events_create : shared := mk_shared 0 0 0.

Definition single_events_set (bits : Z) : prog :=
  AtomicBits (fun b => u8 (Z.lor b bits)) (fun _ => Return 0).

Definition single_events_clear (bits : Z) : prog :=
  AtomicBits (bits_without bits) (fun _ => Return 0).

Definition single_look (bits clear b : Z) : Z := if wants_clear bits clear b then bits_without bits b else b.

Definition single_events_check_int (bits clear : Z) : prog :=
  AtomicBits (single_look bits clear) (fun locked => Return locked).

Definition single_wait_pass (bits clear timeout ts : Z) : prog :=
  AtomicBits (single_look bits clear) (after_look bits timeout ts).

Definition single_events_wait (bits clear timeout : Z) : prog :=
  Millis (fun ts => single_wait_pass bits clear timeout ts).

Definition single_code (o : events_op) : prog :=
  match o with
  | EventsSet bits => single_events_set bits
  | EventsClear bits => single_events_clear bits
  | EventsCheckInt bits clear => single_events_check_int bits clear
  | EventsWait bits clear timeout => single_events_wait bits clear timeout
  end.

End SingleCore.

(** ** Threads *)

(** What a platform provides: the two mutex operations on the mutex word (the first one
    gives its result and the new word), the event functions, and the body of the wait
    loop that [WaitLoop] goes back to. *)
Class Platform : Type := mk_platform {
  try_lock : Z -> Z * Z;
  unlock : Z -> Z;
  code : events_op -> prog;
  wait_body : Z -> Z -> Z -> Z -> prog
}.

#[export] Instance no_platform : Platform := {|
  try_lock := NoPlatform.mutex_try_lock_default;
  unlock := NoPlatform.mutex_unlock_default;
  code := NoPlatform.default_code;
  wait_body := NoPlatform.events_wait_pass
|}.

#[export] Instance single_core : Platform := {|
  try_lock := SingleCore.single_mutex_try_lock;
  unlock := SingleCore.single_mutex_unlock;
  code := SingleCore.single_code;
  wait_body := SingleCore.single_wait_pass
|}.

(** Threads that protect their accesses with the single-core mutex. *)
#[export] Instance single_core_mutex : Platform := {|
  try_lock := SingleCore.single_mutex_try_lock;
  unlock := SingleCore.single_mutex_unlock;
  code := NoPlatform.default_code;
  wait_body := NoPlatform.events_wait_pass
|}.

(** The call a thread is in, the calls it has still to make, and the calls it has
    made with their results. *)
Record thread (P : Type) : Type := mk_thread {
  th_now : option (events_op * P);
  th_todo : list events_op;
  th_done : list (events_op * Z)
}.
Arguments mk_thread {P}.
Arguments th_now {P}.
Arguments th_todo {P}.
Arguments th_done {P}.

#[export] Instance eta_thread {P} : Eta (thread P) := fun t => mk_thread (th_now t) (th_todo t) (th_done t).

(** The threads with the memory they share. *)
Record system (S P : Type) : Type := mk_system {
  sy_shared : S;
  sy_threads : list (thread P)
}.
Arguments mk_system {S P}.
Arguments sy_shared {S P}.
Arguments sy_threads {S P}.

(** The calls of a thread, made, current and to be made. *)
Definition all_calls {P} (t : thread P) : list events_op :=
  (fst <$> th_done t) ++ (match th_now t with Some (o, _) => [o] | None => [] end) ++ th_todo t.

Section Run.

Context `{Platform} (millis : nat -> Z).

(** The next action of a program of a call [o].  [tiny_mutex_lock] tries until it
    succeeds. *)
Definition step_prog (o : events_op) (p : prog) (s : shared) : prog * shared :=
  match p with
  | Return r => (Return r, s)
  | LockThen k =>
      let '(locked, mutex) := try_lock (sh_mutex s) in
      (if nz locked then k else LockThen k, s <| sh_mutex := mutex |>)
  | UnlockThen k => (k, s <| sh_mutex ::= unlock |>)
  | LoadBits k => (k (sh_bits s), s)
  | StoreBits v k => (k, s <| sh_bits := v |>)
  | AtomicBits f k => (k (sh_bits s), s <| sh_bits ::= f |>)
  | Millis k => (k (u32 (millis (sh_clock s))), s <| sh_clock ::= S |>)
  | WaitLoop ts =>
      (match o with
       | EventsWait bits clear timeout => wait_body bits clear timeout ts
       | _ => Return 0
       end, s)
  end.

(** The next action of a thread: it returns from a call, makes the next one, or goes
    on with the current one. *)
Definition step_thread (t : thread prog) (s : shared) : thread prog * shared :=
  match th_now t with
  | Some (o, Return r) => (t <| th_now := None |> <| th_done := th_done t ++ [(o, r)] |>, s)
  | Some (o, p) => let '(p, s) := step_prog o p s in (t <| th_now := Some (o, p) |>, s)
  | None =>
      match th_todo t with
      | [] => (t, s)
      | o :: todo => (t <| th_now := Some (o, code o) |> <| th_todo := todo |>, s)
      end
  end.

Definition step_system (y : system shared prog) (i : nat) : system shared prog :=
  match sy_threads y !! i with
  | Some t =>
      let '(t, s) := step_thread t (sy_shared y) in mk_system s (<[i := t]> (sy_threads y))
  | None => y
  end.

(** A schedule is a list of threads. *)
Definition run (y : system shared prog) (schedule : list nat) : system shared prog := foldl step_system y schedule.

End Run.

(** Threads that have done nothing, on a fresh event group with the bits [b]. *)
Definition start (b : Z) (calls : list (list events_op)) : system shared prog :=
  mk_system (mk_shared 0 b 0) ((fun todo => mk_thread None todo []) <$> calls).

(** ** Specification *)

(** One event function as an atomic step from bits [b] to bits [b'] with result [r].  A
    wait ends with bits, or with 0 when two readings of the clock are [timeout] apart. *)
Inductive atomic_events (millis : nat -> Z) : events_op -> Z -> Z -> Z -> Prop :=
| AtomicSet bits b : atomic_events millis (EventsSet bits) b 0 (u8 (Z.lor b bits))
| AtomicClear bits b : atomic_events millis (EventsClear bits) b 0 (bits_without bits b)
| AtomicCheck bits clear b :
    atomic_events millis (EventsCheckInt bits clear) b b
      (if wants_clear bits clear b then bits_without bits b else b)
| AtomicWait bits clear timeout b :
    nz (Z.land b bits) = true ->
    atomic_events millis (EventsWait bits clear timeout) b b
      (if wants_clear bits clear b then bits_without bits b else b)
| AtomicTimeout bits clear timeout b i j :
    timeout <= u32 (u32 (millis j) - u32 (millis i)) ->
    atomic_events millis (EventsWait bits clear timeout) b 0 b.

(** A history: which thread did what, with which result. *)
Inductive history_run (atomic : events_op -> Z -> Z -> Z -> Prop) :
  Z -> list (nat * (events_op * Z)) -> Z -> Prop :=
| HistoryNil b : history_run atomic b [] b
| HistorySnoc b h b1 i o r b2 :
    history_run atomic b h b1 -> atomic o b1 r b2 -> history_run atomic b (h ++ [(i, (o, r))]) b2.

(** The part of a history that belongs to a thread. *)
Definition of_thread (i : nat) (h : list (nat * (events_op * Z))) : list (events_op * Z) :=
  snd <$> filter (fun e => fst e = i) h.

Lemma of_thread_snoc i j h e :
  of_thread i (h ++ [(j, e)]) = of_thread i h ++ (if decide (j = i) then [e] else []).
Proof.
  unfold of_thread. rewrite filter_app, fmap_app. f_equal. rewrite filter_cons. cbn.
  by destruct (decide (j = i)).
Qed.

(** A thread is between locking and unlocking. *)
Definition in_critical (t : thread prog) : bool :=
  match th_now t with
  | Some (_, (UnlockThen _ | LoadBits _ | StoreBits _ _)) => true
  | _ => false
  end.

(** ** Correctness of one program *)

Section Correct.

Context (millis : nat -> Z).

(** [ok a o held lin b p]: running [p], the rest of a call of [o], is correct when the
    bits are [b].  [a] tells whether the platform uses atomic blocks instead of the mutex,
    [held] whether this thread holds the mutex; [lin] is the result of the instant the call takes
    effect at, if it has passed. *)
Fixpoint ok (a : bool) (o : events_op) (held : bool) (lin : option Z) (b : Z) (p : prog) : Prop :=
  match p with
  | Return r => held = false /\ lin = Some r
  | LockThen k => a = false /\ held = false /\ forall b, ok a o true lin b k
  | UnlockThen k => held = true /\ ok a o false lin b k
  | LoadBits k =>
      held = true /\
      (ok a o true lin b (k b) \/
       lin = None /\ exists r, atomic_events millis o b r b /\ ok a o true (Some r) b (k b))
  | StoreBits v k =>
      held = true /\ lin = None /\
      exists r, atomic_events millis o b r v /\ ok a o true (Some r) v k
  | AtomicBits f k =>
      a = true /\ held = false /\ lin = None /\
      forall b, (exists r, atomic_events millis o b r (f b) /\ ok a o false (Some r) b (k b)) \/
                (f b = b /\ ok a o false None b (k b))
  | Millis k =>
      held = false /\
      forall i, ok a o false lin b (k (u32 (millis i))) \/
                (lin = None /\ exists r, (forall b, atomic_events millis o b r b) /\
                                         ok a o false (Some r) b (k (u32 (millis i))))
  | WaitLoop ts =>
      held = false /\ lin = None /\ (exists bits clear timeout, o = EventsWait bits clear timeout) /\
      exists i, ts = u32 (millis i)
  end.

(** Without the mutex nothing is known about the bits. *)
Lemma ok_free a o lin b b' p : ok a o false lin b p -> ok a o false lin b' p.
Proof.
  revert lin. induction p as [| | | | | |k IH|]; intros lin; cbn; try done.
  - by intros [? _].
  - by intros [? _].
  - by intros [? _].
  - intros [? Hk]. split; [done|]. intros i. destruct (Hk i) as [Hi|(? & r & Hr & Hi)].
    + left. by apply IH.
    + right. split; [done|]. exists r. split; [done|]. by apply IH.
Qed.

(** The programs of a platform are correct and its mutex is one. *)
Class PlatformOk (P : Platform) (a : bool) : Prop := mk_platform_ok {
  try_lock_free : exists locked, try_lock 0 = (locked, 1) /\ nz locked = true;
  try_lock_held : exists locked, try_lock 1 = (locked, 1) /\ nz locked = false;
  unlock_held : unlock 1 = 0;
  code_ok : forall o b, ok a o false None b (code o);
  wait_body_ok : forall bits clear timeout i b,
    ok a (EventsWait bits clear timeout) false None b
      (wait_body bits clear timeout (u32 (millis i)))
}.

Lemma atomic_look bits clear timeout b :
  nz (Z.land b bits) = true ->
  atomic_events millis (EventsWait bits clear timeout) b b
    (if wants_clear bits clear b then bits_without bits b else b).
Proof. apply AtomicWait. Qed.

Lemma wants_clear_some bits clear b : wants_clear bits clear b = true -> nz (Z.land b bits) = true.
Proof. unfold wants_clear. by intros [_ ?]%andb_true_iff. Qed.

(** After a look that found nothing a wait gives up or goes on. *)
Lemma after_look_ok a bits clear timeout i b locked :
  nz (Z.land locked bits) = false ->
  ok a (EventsWait bits clear timeout) false None b (after_look bits timeout (u32 (millis i)) locked).
Proof.
  intros Hl. unfold after_look. rewrite Hl. cbn. split; [done|]. intros j.
  destruct (Z.leb_spec timeout (u32 (u32 (millis j) - u32 (millis i)))); cbn.
  - right. split; [done|]. exists 0. split; [|done]. intros b'. by eapply AtomicTimeout.
  - left. split_and!; eauto.
Qed.

Lemma after_look_found a bits clear timeout i b locked :
  nz (Z.land locked bits) = true ->
  ok a (EventsWait bits clear timeout) false (Some locked) b
    (after_look bits timeout (u32 (millis i)) locked).
Proof. intros Hl. unfold after_look. by rewrite Hl. Qed.

Lemma events_wait_pass_ok bits clear timeout i b :
  ok false (EventsWait bits clear timeout) false None b
    (NoPlatform.events_wait_pass bits clear timeout (u32 (millis i))).
Proof.
  cbn. do 2 (split; [done|]). intros b0. split; [done|].
  pose proof (atomic_look bits clear timeout b0) as Hat.
  destruct (wants_clear bits clear b0) eqn:Hw; [|destruct (nz (Z.land b0 bits)) eqn:Hb].
  - apply wants_clear_some in Hw as Hb. specialize (Hat Hb). left. split; [done|]. left. split; [done|].
    split; [done|]. exists b0. split; [done|]. split; [done|]. by apply after_look_found.
  - specialize (Hat eq_refl). right. split; [done|]. exists b0. split; [done|].
    split; [done|]. by apply after_look_found.
  - left. split; [done|]. by apply after_look_ok.
Qed.

Lemma default_code_ok o b : ok false o false None b (NoPlatform.default_code o).
Proof.
  destruct o as [bits|bits|bits clear|bits clear timeout]; cbn -[NoPlatform.events_wait_pass].
  - do 2 (split; [done|]). intros b0. split; [done|]. left. split_and!; try done.
    exists 0. split; [constructor|done].
  - do 2 (split; [done|]). intros b0. split; [done|]. left. split_and!; try done.
    exists 0. split; [constructor|done].
  - do 2 (split; [done|]). intros b0. split; [done|].
    pose proof (AtomicCheck millis bits clear b0) as Hat. destruct (wants_clear bits clear b0).
    + left. cbn. split; [done|]. left. split_and!; try done. exists b0. done.
    + right. split; [done|]. exists b0. done.
  - split; [done|]. intros i. left. apply events_wait_pass_ok.
Qed.

#[export] Instance no_platform_ok : PlatformOk no_platform false.
Proof.
  split; try (eexists; split; reflexivity); try done; [apply default_code_ok|apply events_wait_pass_ok].
Qed.

#[export] Instance single_core_mutex_ok : PlatformOk single_core_mutex false.
Proof.
  split; try (eexists; split; reflexivity); try done; [apply default_code_ok|apply events_wait_pass_ok].
Qed.

#[export] Instance single_core_ok : PlatformOk single_core true.
Proof.
  assert (Hwait : forall bits clear timeout i b,
    ok true (EventsWait bits clear timeout) false None b
      (SingleCore.single_wait_pass bits clear timeout (u32 (millis i)))).
  { intros bits clear timeout i b. cbn. do 3 (split; [done|]). intros b0.
    unfold SingleCore.single_look. destruct (nz (Z.land b0 bits)) eqn:Hb.
    - left. exists b0. split; [by apply atomic_look|by apply after_look_found].
    - right. assert (wants_clear bits clear b0 = false) as ->.
      { unfold wants_clear. by rewrite Hb, andb_false_r. }
      split; [done|by apply after_look_ok]. }
  split; try (eexists; split; reflexivity); try done.
  intros [bits|bits|bits clear|bits clear timeout] b.
  - cbn. do 3 (split; [done|]). intros b0. left. exists 0. split; [constructor|done].
  - cbn. do 3 (split; [done|]). intros b0. left. exists 0. split; [constructor|done].
  - cbn. do 3 (split; [done|]). intros b0. left. exists b0. split; [constructor|done].
  - cbn -[SingleCore.single_wait_pass]. split; [done|]. intros i. left. apply Hwait.
Qed.

(** ** Correctness of a system *)

Context (P : Platform) (a : bool) `{Hok : !PlatformOk P a}.

(** The mutex word when [owner] holds the mutex. *)
Definition word_of (owner : option nat) : Z := match owner with Some _ => 1 | None => 0 end.

(** What one action does to the thread's knowledge: to its possession of the mutex, to
    the mutex word, and to the bits. *)
Definition action_effect (o : events_op) (held held' : bool) (lin lin' : option Z) (s s' : shared) : Prop :=
  ((held' = held /\ sh_mutex s' = sh_mutex s) \/
   (a = false /\ held = false /\ held' = true /\ sh_mutex s = 0 /\ sh_mutex s' = 1) \/
   (held = true /\ held' = false /\ sh_mutex s' = unlock (sh_mutex s))) /\
  (held = false -> a = false -> sh_bits s' = sh_bits s) /\
  ((lin' = lin /\ sh_bits s' = sh_bits s) \/
   (lin = None /\ exists r, lin' = Some r /\ atomic_events millis o (sh_bits s) r (sh_bits s'))).

Lemma step_prog_ok o held lin p s :
  sh_mutex s = 0 \/ sh_mutex s = 1 -> ok a o held lin (sh_bits s) p ->
  (forall r, p <> Return r) ->
  let '(p', s') := step_prog millis o p s in
  exists held' lin', ok a o held' lin' (sh_bits s') p' /\ action_effect o held held' lin lin' s s'.
Proof using Hok.
  intros Hm Hp Hr. unfold action_effect. destruct p as [r|k|k|k|v k|f k|k|ts]; cbn in Hp |- *.
  - by destruct (Hr r).
  - destruct Hp as (Ha & -> & Hk), Hm as [Hm|Hm]; rewrite Hm.
    + destruct try_lock_free as (l & -> & ->). cbn. exists true, lin. auto 10.
    + destruct try_lock_held as (l & -> & ->). cbn. exists false, lin. auto 10.
  - destruct Hp as [-> Hk]. exists false, lin. cbn. auto 10.
  - destruct Hp as [-> [Hk|(-> & r & Hat & Hk)]]; [exists true, lin; auto 10|].
    exists true, (Some r). split; [done|]. split; [by left|]. split; [done|].
    right. split; [done|]. by exists r.
  - destruct Hp as (-> & -> & r & Hat & Hk). exists true, (Some r). split; [done|].
    split; [by left|]. split; [done|]. right. split; [done|]. by exists r.
  - destruct Hp as (-> & -> & -> & Hk). destruct (Hk (sh_bits s)) as [(r & Hat & Hk')|[Hf Hk']].
    + exists false, (Some r). split; [by eapply ok_free|]. split; [by left|]. split; [done|].
      right. split; [done|]. by exists r.
    + exists false, None. split; [by eapply ok_free|]. split; [by left|]. split; [done|]. by left.
  - destruct Hp as [-> Hk]. destruct (Hk (sh_clock s)) as [Hk'|(-> & r & Hat & Hk')].
    + exists false, lin. auto 10.
    + exists false, (Some r). split; [done|]. split; [by left|]. split; [done|].
      right. split; [done|]. exists r. split; [done|]. apply Hat.
  - destruct Hp as (-> & -> & (bits & clear & timeout & ->) & i & ->). exists false, None.
    split; [apply wait_body_ok|]. auto 10.
Qed.

(** A thread, its part [l] of the history, and its calls. *)
Definition thread_inv (owner : option nat) (b : Z) (i : nat) (l : list (events_op * Z)) (t : thread prog) : Prop :=
  match th_now t with
  | None => owner <> Some i /\ l = th_done t
  | Some (o, p) => exists lin,
      ok a o (bool_decide (owner = Some i)) lin b p /\
      l = th_done t ++ (match lin with Some r => [(o, r)] | None => [] end)
  end.

Record system_inv (b0 : Z) (calls : list (list events_op)) (h : list (nat * (events_op * Z)))
  (owner : option nat) (y : system shared prog) : Prop := mk_system_inv {
  si_history : history_run (atomic_events millis) b0 h (sh_bits (sy_shared y));
  si_mutex : sh_mutex (sy_shared y) = word_of owner;
  si_atomic : a = true -> owner = None;
  si_threads : forall i t, sy_threads y !! i = Some t ->
    thread_inv owner (sh_bits (sy_shared y)) i (of_thread i h) t;
  si_calls : all_calls <$> sy_threads y = calls
}.

Lemma word_of_01 owner : word_of owner = 0 \/ word_of owner = 1.
Proof using Type. destruct owner; auto. Qed.

Lemma thread_inv_now owner b i l t o p :
  thread_inv owner b i l t -> th_now t = Some (o, p) ->
  exists lin, ok a o (bool_decide (owner = Some i)) lin b p /\
    l = th_done t ++ (match lin with Some r => [(o, r)] | None => [] end).
Proof using Type. unfold thread_inv. intros Ht E. by rewrite E in Ht. Qed.

(** Another thread is not concerned by an action of thread [i]. *)
Lemma thread_inv_other owner owner' b b' i j l t :
  thread_inv owner b j l t -> i <> j ->
  (owner' = owner \/ owner' = Some i /\ owner = None \/ owner' = None /\ owner = Some i) ->
  (b' = b \/ owner <> Some j) -> thread_inv owner' b' j l t.
Proof using Type.
  unfold thread_inv. intros Ht Hne Ho Hb.
  assert (E : bool_decide (owner' = Some j) = bool_decide (owner = Some j)).
  { apply bool_decide_ext. destruct Ho as [->|[[-> ->]|[-> ->]]]; split; congruence. }
  destruct (th_now t) as [[o p]|].
  - destruct Ht as (lin & Hp & Hl). exists lin. rewrite E. split; [|done].
    destruct Hb as [->|Hb]; [done|]. rewrite bool_decide_eq_false_2 in Hp |- * by done. by eapply ok_free.
  - destruct Ht as [Hn Hl]. split; [|done]. destruct Ho as [->|[[-> ->]|[-> ->]]]; congruence.
Qed.

Lemma system_inv_update b0 calls h h' owner owner' y i t t' s' :
  system_inv b0 calls h owner y -> sy_threads y !! i = Some t -> all_calls t' = all_calls t ->
  history_run (atomic_events millis) b0 h' (sh_bits s') -> sh_mutex s' = word_of owner' -> (a = true -> owner' = None) ->
  thread_inv owner' (sh_bits s') i (of_thread i h') t' ->
  (forall j, j <> i -> of_thread j h' = of_thread j h) ->
  (owner' = owner \/ owner' = Some i /\ owner = None \/ owner' = None /\ owner = Some i) ->
  (sh_bits s' = sh_bits (sy_shared y) \/ forall j, j <> i -> owner <> Some j) ->
  system_inv b0 calls h' owner' (mk_system s' (<[i := t']> (sy_threads y))).
Proof using Type.
  intros [Hh Hm Ha Ht Hc] Hi Hcalls Hh' Hm' Ha' Hti Hother Ho Hb. split; cbn; try done.
  - intros j u Hj. destruct (decide (i = j)) as [<-|Hne].
    + rewrite list_lookup_insert_eq in Hj by (by eapply lookup_lt_Some). by injection Hj as <-.
    + rewrite list_lookup_insert_ne in Hj by done. rewrite Hother by done.
      eapply thread_inv_other; [by apply Ht|done|done|].
      destruct Hb as [->|Hb]; [by left|right]. by apply Hb.
  - rewrite <- Hc, list_fmap_insert, Hcalls. apply list_insert_id. by rewrite list_lookup_fmap, Hi.
Qed.

(** The history after an action of thread [i]. *)
Lemma action_history b0 h i o held held' lin lin' s s' :
  history_run (atomic_events millis) b0 h (sh_bits s) -> action_effect o held held' lin lin' s s' ->
  exists h', history_run (atomic_events millis) b0 h' (sh_bits s') /\
    (forall j, j <> i -> of_thread j h' = of_thread j h) /\
    of_thread i h' = of_thread i h ++
      match lin, lin' with None, Some r => [(o, r)] | _, _ => [] end.
Proof using Type.
  intros Hh (_ & _ & [[-> Hb]|(-> & r & -> & Hat)]).
  - exists h. rewrite Hb. split; [done|]. split; [done|]. destruct lin; by rewrite app_nil_r.
  - exists (h ++ [(i, (o, r))]). split; [by eapply HistorySnoc|]. split.
    + intros j Hj. rewrite of_thread_snoc, decide_False by congruence. by rewrite app_nil_r.
    + rewrite of_thread_snoc. by rewrite decide_True.
Qed.

Lemma step_thread_running t o p s :
  th_now t = Some (o, p) -> (forall r, p <> Return r) ->
  step_thread millis t s =
    let '(p', s') := step_prog millis o p s in (t <| th_now := Some (o, p') |>, s').
Proof using Type. intros Ht Hp. unfold step_thread. rewrite Ht. destruct p as [r| | | | | | |]; try done. by destruct (Hp r). Qed.

(** The owner of the mutex after an action of thread [i]. *)
Lemma lock_owner i owner held' m m' :
  m = word_of owner -> (a = true -> owner = None) ->
  (held' = bool_decide (owner = Some i) /\ m' = m) \/
  (a = false /\ bool_decide (owner = Some i) = false /\ held' = true /\ m = 0 /\ m' = 1) \/
  (bool_decide (owner = Some i) = true /\ held' = false /\ m' = unlock m) ->
  exists owner',
    (owner' = owner \/ owner' = Some i /\ owner = None \/ owner' = None /\ owner = Some i) /\
    m' = word_of owner' /\ bool_decide (owner' = Some i) = held' /\ (a = true -> owner' = None).
Proof using Hok.
  intros Hm Ha [[-> ->]|[(Hf & _ & -> & H0 & ->)|(E & -> & ->)]].
  - exists owner. auto.
  - exists (Some i). destruct owner; [by rewrite H0 in Hm|]. split_and!; [auto|done| |congruence].
    by rewrite bool_decide_eq_true_2.
  - apply bool_decide_eq_true in E as ->. exists None. rewrite Hm. split_and!; auto. apply unlock_held.
Qed.

(** An action inside a call. *)
Lemma running_inv b0 calls h owner y i t o p :
  system_inv b0 calls h owner y -> sy_threads y !! i = Some t -> th_now t = Some (o, p) ->
  (forall r, p <> Return r) ->
  exists h' owner', system_inv b0 calls h' owner' (step_system millis y i).
Proof using Hok.
  intros Hy Hi Hnow Hp. pose proof Hy as [Hh Hm Ha Ht _].
  destruct (thread_inv_now _ _ _ _ _ _ _ (Ht i t Hi) Hnow) as (lin & Hok' & Hl).
  pose proof (step_prog_ok o (bool_decide (owner = Some i)) lin p (sy_shared y)) as Hstep.
  rewrite Hm in Hstep. specialize (Hstep (word_of_01 owner) Hok' Hp).
  unfold step_system. rewrite Hi, (step_thread_running t o p) by done.
  destruct (step_prog millis o p (sy_shared y)) as [p' s'].
  destruct Hstep as (held' & lin' & Hp' & Heff).
  destruct (action_history b0 h i o _ _ _ _ _ _ Hh Heff) as (h' & Hh' & Hother & Hmine).
  destruct Heff as (Hlock & Hbits & Hlin).
  destruct (lock_owner i owner held' _ _ Hm Ha Hlock) as (owner' & Hcase & Hm' & Hheld & Ha').
  exists h', owner'. eapply system_inv_update; try done.
  - unfold all_calls. cbn. by rewrite Hnow.
  - unfold thread_inv. cbn. exists lin'. rewrite Hheld. split; [done|].
    rewrite Hmine, Hl. destruct Hlin as [[-> _]|(-> & r & -> & _)].
    + by destruct lin; rewrite app_nil_r.
    + by rewrite app_nil_r.
  - destruct (bool_decide (owner = Some i)) eqn:E.
    + right. apply bool_decide_eq_true in E. intros j Hj. congruence.
    + destruct a; [right; intros j _; by rewrite (Ha eq_refl)|left; by apply Hbits].
Qed.

Lemma step_system_inv b0 calls h owner y i :
  system_inv b0 calls h owner y ->
  exists h' owner', system_inv b0 calls h' owner' (step_system millis y i).
Proof using Hok.
  intros Hy. pose proof Hy as [Hh Hm Ha Ht Hc].
  destruct (sy_threads y !! i) as [t|] eqn:Hi; [|exists h, owner; unfold step_system; by rewrite Hi].
  destruct (th_now t) as [[o p]|] eqn:Hnow.
  - destruct (match p with Return r => Some r | _ => None end) as [r|] eqn:Hret.
    2: { eapply running_inv; try done. by intros r ->. }
    destruct p; try done. destruct (thread_inv_now _ _ _ _ _ _ _ (Ht i t Hi) Hnow) as (lin & [Hown ->] & Hl).
    apply bool_decide_eq_false in Hown. unfold step_system, step_thread. rewrite Hi, Hnow.
    exists h, owner. eapply system_inv_update; try done; try tauto.
    unfold all_calls. cbn. by rewrite Hnow, fmap_app, <- !app_assoc.
  - unfold step_system, step_thread. rewrite Hi, Hnow.
    pose proof (Ht i t Hi) as Hti. unfold thread_inv in Hti. rewrite Hnow in Hti. destruct Hti as [Hown Hl].
    destruct (th_todo t) as [|o todo] eqn:Htodo.
    + exists h, owner. rewrite list_insert_id by done. by destruct y.
    + exists h, owner. eapply system_inv_update; try done; try tauto.
      * unfold all_calls. cbn. by rewrite Hnow, Htodo.
      * cbn. exists None. rewrite bool_decide_eq_false_2 by done. split; [apply code_ok|].
        by rewrite app_nil_r.
Qed.

Lemma start_inv b0 calls : system_inv b0 calls [] None (start b0 calls).
Proof using Type.
  split; cbn; try done.
  - constructor.
  - intros i t Hi. rewrite list_lookup_fmap in Hi. apply fmap_Some in Hi as (todo & _ & ->). done.
  - rewrite <- list_fmap_compose. apply list_fmap_id.
Qed.

Lemma run_inv b0 calls schedule :
  exists h owner, system_inv b0 calls h owner (run millis (start b0 calls) schedule).
Proof using Hok.
  unfold run. assert (Hy : exists h owner, system_inv b0 calls h owner (start b0 calls))
    by (exists [], None; apply start_inv).
  revert Hy. generalize (start b0 calls). induction schedule as [|i schedule IH]; intros y Hy; [done|].
  cbn. apply IH. destruct Hy as (h & owner & Hy). by eapply step_system_inv.
Qed.

(** Only the owner of the mutex is in a critical section. *)
Lemma in_critical_owner owner b i l t : thread_inv owner b i l t -> in_critical t = true -> owner = Some i.
Proof using Type.
  unfold thread_inv, in_critical. destruct (th_now t) as [[o p]|]; [|done].
  intros (lin & Hp & _). destruct p; try done; cbn in Hp; destruct Hp as [Hh _];
    intros _; by apply bool_decide_eq_true in Hh.
Qed.

Lemma thread_history owner b i l t :
  thread_inv owner b i l t ->
  exists pending, l = th_done t ++ pending /\ (length pending <= 1)%nat /\
    (fst <$> l) `prefix_of` all_calls t.
Proof using Type.
  unfold thread_inv, all_calls. destruct (th_now t) as [[o p]|].
  - intros (lin & _ & ->). exists (match lin with Some r => [(o, r)] | None => [] end).
    split; [done|]. rewrite fmap_app. destruct lin; cbn.
    + split; [lia|]. apply prefix_app. by exists (th_todo t).
    + split; [lia|]. rewrite app_nil_r. by eexists.
  - intros [_ ->]. exists []. rewrite app_nil_r. split; [done|]. split; [cbn; lia|]. by eexists.
Qed.

End Correct.

(** ** Properties *)

(** C18: mutual exclusion.  On a platform with compare-and-swap and on a single core
    with atomic blocks, whatever calls any number of threads make and however
    their actions are interleaved, at most one thread is between [tiny_mutex_lock] and
    [tiny_mutex_unlock]. *)
Theorem tiny_mutex_exclusion (millis : nat -> Z) (P : Platform) (b0 : Z)
  (calls : list (list events_op)) (schedule : list nat) (i j : nat) (t u : thread prog)
  (HP : P = no_platform \/ P = single_core_mutex)
  (Hi : sy_threads (run millis (start b0 calls) schedule) !! i = Some t)
  (Hj : sy_threads (run millis (start b0 calls) schedule) !! j = Some u)
  (Hti : in_critical t = true) (Huj : in_critical u = true) :
  i = j.
Proof.
  assert (Hok : PlatformOk millis P false) by (destruct HP as [-> | ->]; apply _).
  destruct (run_inv millis P false b0 calls schedule) as (h & owner & [_ _ _ Ht _]).
  apply Ht in Hi, Hj. apply in_critical_owner in Hi, Hj; [congruence|done..].
Qed.

(** Two threads that set one bit each. *)
Definition two_setters : list (list events_op) := [[EventsSet 1]; [EventsSet 2]].

Definition overlap : list nat := [0; 0; 1; 0; 1; 1]%nat.
Definition in_turns : list nat := concat (replicate 10 [0; 1]%nat).

(** The first thread is inside when the second tries; no other thread is. *)
Lemma tiny_mutex_exclusion_witness :
  let threads := sy_threads (run (fun _ => 0) (start 0 two_setters) overlap) in
  (in_critical <$> threads) = [true; false] /\
  forall j u, threads !! j = Some u -> in_critical u = true -> 0%nat = j.
Proof.
  split; [reflexivity|]. intros j u Hj Hu.
  exact (tiny_mutex_exclusion (fun _ => 0) no_platform 0 two_setters overlap 0 j _ u
           (or_introl eq_refl) eq_refl Hj eq_refl Hu).
Defined.

(** C16: the event functions are atomic.  On both platforms, for any calls of any
    number of threads and any interleaving of their actions, the calls have taken
    effect one after the other: some sequential history of atomic steps leads to the
    bits there are now, and for each thread it holds the calls the thread has
    made, in its order and with the results they returned, and at most the call it is
    in.  No update is lost. *)
Theorem tiny_events_linearizable (millis : nat -> Z) (P : Platform) (b0 : Z)
  (calls : list (list events_op)) (schedule : list nat)
  (HP : P = no_platform \/ P = single_core) :
  let y := run millis (start b0 calls) schedule in
  exists h, history_run (atomic_events millis) b0 h (sh_bits (sy_shared y)) /\
    forall i t, sy_threads y !! i = Some t ->
      exists cs pending, calls !! i = Some cs /\ of_thread i h = th_done t ++ pending /\
        (length pending <= 1)%nat /\ (fst <$> of_thread i h) `prefix_of` cs.
Proof.
  intros y. assert (exists a, PlatformOk millis P a) as [a Hok]
    by (destruct HP as [-> | ->]; [exists false|exists true]; apply _).
  destruct (run_inv millis P a b0 calls schedule) as (h & owner & [Hh _ _ Ht Hc]).
  exists h. split; [done|]. intros i t Hi. exists (all_calls t).
  destruct (thread_history _ _ _ _ _ _ _ (Ht i t Hi)) as (pending & Hl & Hlen & Hpre).
  exists pending. split; [|done]. rewrite <- Hc, list_lookup_fmap. unfold y in Hi. by rewrite Hi.
Qed.

(** Both updates survive although the threads run in turns. *)
Lemma tiny_events_linearizable_witness :
  let y := run (fun _ => 0) (start 0 two_setters) in_turns in
  sh_bits (sy_shared y) = 3 /\
  exists h, history_run (atomic_events (fun _ => 0)) 0 h (sh_bits (sy_shared y)) /\
    forall i t, sy_threads y !! i = Some t ->
      exists cs pending, two_setters !! i = Some cs /\ of_thread i h = th_done t ++ pending /\
        (length pending <= 1)%nat /\ (fst <$> of_thread i h) `prefix_of` cs.
Proof.
  split; [reflexivity|].
  apply (tiny_events_linearizable (fun _ => 0) no_platform 0 two_setters
           in_turns (or_introl eq_refl)).
Defined.

(** [tiny_events_check_int] returns bits it was not asked for: bit 1 is not set, and the result is
    2, which is not zero. *)
Lemma tiny_events_check_int_other_bits :
  th_done <$> sy_threads (run (fun _ => 0) (start 2 [[EventsCheckInt 1 0]]) (replicate 8 0%nat)) =
  [[(EventsCheckInt 1 0, 2)]].
Proof. reflexivity. Qed.
