(* ===== verification/LinuxHal.v ===== *)
(** * Platform services on Linux (src/hal/linux/linux_hal.inl)

    Event groups on a POSIX mutex and condition variable, as programs of atomic actions that
    any schedule may interleave (the same threads and histories as in Hal.v).  What POSIX
    documents of the two is the meaning of the actions: [pthread_cond_wait] releases the
    mutex and blocks in one step and takes the mutex again before it returns; a broadcast ends the
    blocking of every thread; a thread may also be woken without reason, and in
    [pthread_cond_timedwait] when the time has come.  The theorems: the functions act at
    one instant, and no thread stays blocked, or does not return, when one of the bits it waits
    for is set. *)

From S2P Require Import Prelude FdTypes Hal.

(** ** Time *)

Record timespec : Type := mk_timespec { tv_sec : Z; tv_nsec : Z }.

#[export] Instance eta_timespec : Eta timespec := fun t => mk_timespec (tv_sec t) (tv_nsec t).

Definition nanoseconds (t : timespec) : Z := tv_sec t * 1000000000 + tv_nsec t.

(** The time until which [tiny_events_wait] waits. *)
Definition add_timeout (timeout : Z) (ts : timespec) : timespec :=
  let ts := ts <| tv_sec ::= fun s => s + timeout / 1000 |> in
  let ts := ts <| tv_nsec ::= fun n => n + (timeout mod 1000) * 1000000 |> in
  if 1000000000 <=? tv_nsec ts
  then ts <| tv_nsec ::= fun n => n - 1000000000 |> <| tv_sec ::= fun s => s + 1 |>
  else ts.

Definition linux_millis (ts : timespec) : Z := u32 (tv_sec ts * 1000 + tv_nsec ts / 1000000).
Definition linux_micros (ts : timespec) : Z := u32 (tv_sec ts * 1000000 + tv_nsec ts / 1000).

(** The microseconds [tiny_sleep] asks [usleep] for. *)
Definition linux_sleep (millis : Z) : Z := u32 (millis * 1000).

(** ** The mutex *)

(** [pthread_mutex_t]: held or not.  [pthread_mutex_lock] on a mutex that is held blocks until
    it is free. *)
Definition linux_mutex_create : bool := false.
Definition linux_mutex_lock (mutex : bool) : option bool := if mutex then None else Some true.
Definition linux_mutex_unlock (mutex : bool) : bool := false.

(** [pthread_mutex_trylock]: 0 when it took the mutex. *)
Definition EBUSY : Z := 16.
Definition pthread_mutex_trylock (mutex : bool) : Z * bool := if mutex then (EBUSY, true) else (0, true).
Definition linux_mutex_try_lock (mutex : bool) : Z * bool :=
  let '(ret, mutex) := pthread_mutex_trylock mutex in (if ret =? 0 then 1 else 0, mutex).

(** ** Programs *)

(** [tiny_events_t], and the number of clock readings so far. *)
Record lshared : Type := mk_lshared {
  ls_mutex : bool;
  ls_bits : Z;
  ls_waiters : Z;
  ls_clock : nat
}.

#[export] Instance eta_lshared : Eta lshared := fun s =>
  mk_lshared (ls_mutex s) (ls_bits s) (ls_waiters s) (ls_clock s).

(** A program at its next action.  The last four are the states of the loop of
    [tiny_events_wait]: at its head, about to block, blocked, and woken with a result. *)
Inductive lprog : Type :=
| LReturn (r : Z)
| LLock (k : lprog)
| LUnlock (k : lprog)
| LLoad (k : Z -> lprog)
| LStore (v : Z) (k : lprog)
| LWaiters (f : Z -> Z) (k : lprog)
| LClock (k : timespec -> lprog)
| LBroadcast (k : lprog)
| LLoop (bits clear timeout : Z) (ts : timespec)
| LCondWait (bits clear timeout : Z) (ts : timespec)
| LAsleep (bits clear timeout : Z) (ts : timespec)
| LWoken (bits clear timeout : Z) (ts : timespec) (res : Z).

Definition ETIMEDOUT : Z := 110.
Definition WAIT_FOREVER : Z := 0xFFFFFFFF.

Definition linux_events_create : lshared := mk_lshared linux_mutex_create 0 0 0.

(** What follows the loop. *)
Definition linux_wait_end (locked : Z) : lprog :=
  LWaiters (fun n => u16 (n - 1)) (LUnlock (LReturn locked)).

Definition linux_wait_found (bits clear : Z) : lprog :=
  LLoad (fun locked =>
    if nz clear then LLoad (fun b => LStore (bits_without bits b) (linux_wait_end locked))
    else linux_wait_end locked).

(** The condition of the loop, and the rest of its body. *)
Definition linux_wait_loop (bits clear timeout : Z) (ts : timespec) : lprog :=
  LLoad (fun b => if Z.land b bits =? 0 then LCondWait bits clear timeout ts
                  else linux_wait_found bits clear).

Definition linux_wait_woken (bits clear timeout : Z) (ts : timespec) (res : Z) : lprog :=
  if res =? ETIMEDOUT then linux_wait_end 0 else LLoop bits clear timeout ts.

Definition linux_events_wait (bits clear timeout : Z) : lprog :=
  LClock (fun now =>
    let ts := add_timeout timeout now in
    LLock (LWaiters (fun n => u16 (n + 1)) (LLoop bits clear timeout ts))).

Definition linux_events_check_int (bits clear : Z) : lprog := linux_events_wait bits clear 0.

Definition linux_events_set (bits : Z) : lprog :=
  LLock (LLoad (fun b => LStore (u8 (Z.lor b bits)) (LBroadcast (LUnlock (LReturn 0))))).

Definition linux_events_clear (bits : Z) : lprog :=
  LLock (LLoad (fun b => LStore (bits_without bits b) (LUnlock (LReturn 0)))).

Definition linux_code (o : events_op) : lprog :=
  match o with
  | EventsSet bits => linux_events_set bits
  | EventsClear bits => linux_events_clear bits
  | EventsCheckInt bits clear => linux_events_check_int bits clear
  | EventsWait bits clear timeout => linux_events_wait bits clear timeout
  end.

(** ** Threads *)

(** What a schedule lets a thread do: its next action, or a wake-up without a broadcast, for no
    reason or because its time has come. *)
Inductive turn : Type := Act | Spurious | Expire.

Section Run.

(** The programs of the functions, and the clock. *)
Context (code : events_op -> lprog) (clock : nat -> timespec).

Definition step_lprog (c : turn) (p : lprog) (s : lshared) : lprog * lshared :=
  match c, p with
  | Act, LLock k =>
      match linux_mutex_lock (ls_mutex s) with
      | Some mutex => (k, s <| ls_mutex := mutex |>)
      | None => (p, s)
      end
  | Act, LUnlock k => (k, s <| ls_mutex ::= linux_mutex_unlock |>)
  | Act, LLoad k => (k (ls_bits s), s)
  | Act, LStore v k => (k, s <| ls_bits := v |>)
  | Act, LWaiters f k => (k, s <| ls_waiters ::= f |>)
  | Act, LClock k => (k (clock (ls_clock s)), s <| ls_clock ::= S |>)
  | Act, LBroadcast k => (k, s)
  | Act, LLoop bits clear timeout ts => (linux_wait_loop bits clear timeout ts, s)
  | Act, LCondWait bits clear timeout ts => (LAsleep bits clear timeout ts, s <| ls_mutex ::= linux_mutex_unlock |>)
  | Act, LWoken bits clear timeout ts res =>
      match linux_mutex_lock (ls_mutex s) with
      | Some mutex => (linux_wait_woken bits clear timeout ts res, s <| ls_mutex := mutex |>)
      | None => (p, s)
      end
  | Spurious, LAsleep bits clear timeout ts => (LWoken bits clear timeout ts 0, s)
  | Expire, LAsleep bits clear timeout ts =>
      (if negb (timeout =? WAIT_FOREVER) && (nanoseconds ts <=? nanoseconds (clock (ls_clock s)))
       then LWoken bits clear timeout ts ETIMEDOUT else p, s <| ls_clock ::= S |>)
  | _, _ => (p, s)
  end.

(** A thread returns from a call, makes the next one, or goes on with the current one. *)
Definition step_lthread (c : turn) (t : thread lprog) (s : lshared) : thread lprog * lshared :=
  match th_now t with
  | Some (o, LReturn r) => (t <| th_now := None |> <| th_done := th_done t ++ [(o, r)] |>, s)
  | Some (o, p) => let '(p, s) := step_lprog c p s in (t <| th_now := Some (o, p) |>, s)
  | None =>
      match th_todo t with
      | [] => (t, s)
      | o :: todo => (t <| th_now := Some (o, code o) |> <| th_todo := todo |>, s)
      end
  end.

(** [pthread_cond_broadcast] *)
Definition awaken (t : thread lprog) : thread lprog :=
  match th_now t with
  | Some (o, LAsleep bits clear timeout ts) => t <| th_now := Some (o, LWoken bits clear timeout ts 0) |>
  | _ => t
  end.

Definition broadcasts (c : turn) (t : thread lprog) : bool :=
  match c, th_now t with Act, Some (_, LBroadcast _) => true | _, _ => false end.

Definition step_lsystem (y : system lshared lprog) (m : nat * turn) : system lshared lprog :=
  let '(i, c) := m in
  match sy_threads y !! i with
  | Some t =>
      let '(t', s) := step_lthread c t (sy_shared y) in
      let threads := <[i := t']> (sy_threads y) in
      mk_system s (if broadcasts c t then awaken <$> threads else threads)
  | None => y
  end.

Definition lrun (y : system lshared lprog) (schedule : list (nat * turn)) : system lshared lprog :=
  foldl step_lsystem y schedule.

End Run.

(** Threads that have done nothing, on an event group with the bits [b]. *)
Definition lstart (b : Z) (calls : list (list events_op)) : system lshared lprog :=
  mk_system (linux_events_create <| ls_bits := b |>) ((fun todo => mk_thread None todo []) <$> calls).

(** ** Specification *)

(** The bits, the clear flag and the timeout of a call that waits. *)
Definition wait_args (o : events_op) : option (Z * Z * Z) :=
  match o with
  | EventsWait bits clear timeout => Some (bits, clear, timeout)
  | EventsCheckInt bits clear => Some (bits, clear, 0)
  | _ => None
  end.

(** The event functions as atomic steps: from bits [b] to [b'] with result [r].  A wait ends with
    the bits when one of those it waits for is set, or with 0 when two readings of the clock are
    [timeout] milliseconds apart. *)
Inductive atomic_linux (clock : nat -> timespec) : events_op -> Z -> Z -> Z -> Prop :=
| LinuxSet bits b : atomic_linux clock (EventsSet bits) b 0 (u8 (Z.lor b bits))
| LinuxClear bits b : atomic_linux clock (EventsClear bits) b 0 (bits_without bits b)
| LinuxFound o bits clear timeout b :
    wait_args o = Some (bits, clear, timeout) -> nz (Z.land b bits) = true ->
    atomic_linux clock o b b (if nz clear then bits_without bits b else b)
| LinuxTimeout o bits clear timeout b i j :
    wait_args o = Some (bits, clear, timeout) -> timeout <> WAIT_FOREVER ->
    nanoseconds (clock i) + timeout * 1000000 <= nanoseconds (clock j) ->
    atomic_linux clock o b 0 b.

(** ** Time *)

Lemma add_timeout_nanoseconds timeout ts :
  nanoseconds (add_timeout timeout ts) = nanoseconds ts + timeout * 1000000.
Proof.
  unfold add_timeout, nanoseconds. red_upd. pose proof (Z.div_mod timeout 1000 ltac:(lia)).
  destruct (Z.leb_spec 1000000000 (tv_nsec ts + timeout mod 1000 * 1000000)); cbn; lia.
Qed.

(** The deadline is a proper time, as [pthread_cond_timedwait] demands. *)
Lemma add_timeout_proper timeout ts :
  0 <= tv_nsec ts < 1000000000 -> 0 <= tv_nsec (add_timeout timeout ts) < 1000000000.
Proof.
  intros H. unfold add_timeout. red_upd. pose proof (Z.mod_pos_bound timeout 1000 ltac:(lia)).
  destruct (Z.leb_spec 1000000000 (tv_nsec ts + timeout mod 1000 * 1000000)); cbn; lia.
Qed.

(** The clock of the protocols counts the milliseconds of the system's clock. *)
Lemma linux_millis_eq ts : linux_millis ts = u32 (nanoseconds ts / 1000000).
Proof.
  unfold linux_millis, nanoseconds. f_equal.
  replace (tv_sec ts * 1000000000) with (tv_sec ts * 1000 * 1000000) by lia.
  by rewrite Z.div_add_l by lia.
Qed.

(** [tiny_sleep] multiplies in 32 bits: 72 minutes become 704 microseconds. *)
Lemma linux_sleep_wraps : linux_sleep 4294968 = 704.
Proof. reflexivity. Qed.

(** ** Correctness of one program *)

Section Correct.

Context (clock : nat -> timespec).

(** A wait of the call [o] that has not taken effect. *)
Definition waiting (o : events_op) (bits clear timeout : Z) (ts : timespec) : Prop :=
  wait_args o = Some (bits, clear, timeout) /\ exists i, ts = add_timeout timeout (clock i).

(** The wait [o] gave up in time. *)
Definition expired (timeout : Z) (ts : timespec) : Prop :=
  timeout <> WAIT_FOREVER /\ exists j, nanoseconds ts <= nanoseconds (clock j).

(** A new value of the bits that sets none, or a broadcast follows. *)
Definition announced (b v : Z) (k : lprog) : Prop :=
  (forall m, nz (Z.land b m) = false -> nz (Z.land v m) = false) \/ exists k', k = LBroadcast k'.

Definition asleep (p : lprog) : bool := match p with LAsleep _ _ _ _ => true | _ => false end.

(** [lok o held lin b p]: running [p], the rest of a call of [o], is correct when the bits are
    [b]; [held]: this thread holds the mutex; [lin]: the result, once the call has taken effect. *)
Fixpoint lok (o : events_op) (held : bool) (lin : option Z) (b : Z) (p : lprog) : Prop :=
  match p with
  | LReturn r => held = false /\ lin = Some r
  | LLock k => held = false /\ forall b, lok o true lin b k
  | LUnlock k => held = true /\ asleep k = false /\ lok o false lin b k
  | LLoad k =>
      held = true /\
      (lok o true lin b (k b) \/
       lin = None /\ exists r, atomic_linux clock o b r b /\ lok o true (Some r) b (k b))
  | LStore v k =>
      held = true /\ lin = None /\ announced b v k /\
      exists r, atomic_linux clock o b r v /\ lok o true (Some r) v k
  | LWaiters _ k | LBroadcast k => held = true /\ lok o true lin b k
  | LClock k => held = false /\ forall i, asleep (k (clock i)) = false /\ lok o false lin b (k (clock i))
  | LLoop bits clear timeout ts => held = true /\ lin = None /\ waiting o bits clear timeout ts
  | LCondWait bits clear timeout ts =>
      held = true /\ lin = None /\ waiting o bits clear timeout ts /\ nz (Z.land b bits) = false
  | LAsleep bits clear timeout ts => held = false /\ lin = None /\ waiting o bits clear timeout ts
  | LWoken bits clear timeout ts res =>
      held = false /\ lin = None /\ waiting o bits clear timeout ts /\
      (res = 0 \/ res = ETIMEDOUT /\ expired timeout ts)
  end.

(** Without the mutex nothing is known about the bits. *)
Lemma lok_free o lin b b' p : lok o false lin b p -> lok o false lin b' p.
Proof using Type.
  destruct p as [r|k|k|k|v k|f k|k|k|bits clear timeout ts|bits clear timeout ts|bits clear timeout ts|bits clear timeout ts res];
    cbn; try done; try by intros [? _].
  intros [H Hk]. split; [done|]. intros i. destruct (Hk i) as [Ha Hi]. split; [done|]. revert Hi.
  generalize (k (clock i)) as p. clear.
  induction p as [r|k|k|k|v k|f k|k IH|k|bits clear timeout ts|bits clear timeout ts|bits clear timeout ts|bits clear timeout ts res];
    cbn; try done; try by intros [? _].
  intros [H Hk]. split; [done|]. intros i. destruct (Hk i). split; [done|]. by apply IH.
Qed.

Lemma bits_without_sets_none bits b m : nz (Z.land b m) = false -> nz (Z.land (bits_without bits b) m) = false.
Proof using Type.
  unfold nz, bits_without, u8. rewrite <- Z.land_ones by lia. intros H. apply negb_false_iff, Z.eqb_eq in H.
  apply negb_false_iff, Z.eqb_eq. rewrite <- !Z.land_assoc, (Z.land_comm (Z.lnot bits)), <- (Z.land_assoc (Z.ones 8)).
  rewrite (Z.land_comm (Z.ones 8)), <- Z.land_assoc, Z.land_assoc, H. apply Z.land_0_l.
Qed.

Lemma wait_end_ok o r b : lok o true (Some r) b (linux_wait_end r).
Proof using Type. by cbn. Qed.

Lemma wait_found_ok o bits clear timeout ts b :
  waiting o bits clear timeout ts -> nz (Z.land b bits) = true -> lok o true None b (linux_wait_found bits clear).
Proof using Type.
  intros [Ho _] Hb. pose proof (LinuxFound clock o bits clear timeout b Ho Hb) as Hat.
  unfold linux_wait_found. cbn [lok]. split; [done|]. destruct (nz clear).
  - left. cbn. split; [done|]. left. split; [done|]. split; [done|].
    split; [left; intros m; apply bits_without_sets_none|]. by exists b.
  - right. split; [done|]. exists b. split; [done|]. apply wait_end_ok.
Qed.

Lemma wait_loop_ok o bits clear timeout ts b :
  waiting o bits clear timeout ts -> lok o true None b (linux_wait_loop bits clear timeout ts).
Proof using Type.
  intros Ho. cbn. split; [done|]. left. destruct (Z.eqb_spec (Z.land b bits) 0) as [E|E].
  - cbn. unfold nz. by rewrite E.
  - eapply wait_found_ok; [done|]. unfold nz. by apply negb_true_iff, Z.eqb_neq.
Qed.

(** After the mutex was taken again: a time-out takes effect, or the loop goes on. *)
Lemma wait_woken_ok o bits clear timeout ts res b :
  waiting o bits clear timeout ts -> res = 0 \/ res = ETIMEDOUT /\ expired timeout ts ->
  lok o true None b (linux_wait_woken bits clear timeout ts res) \/
  atomic_linux clock o b 0 b /\ lok o true (Some 0) b (linux_wait_woken bits clear timeout ts res).
Proof using Type.
  intros Ho [->|[-> [Hf (j & Hj)]]]; [by left|right]. destruct Ho as [Ho (i & ->)].
  split; [|apply wait_end_ok]. eapply (LinuxTimeout clock _ _ _ _ _ i j); [done|done|].
  by rewrite <- add_timeout_nanoseconds.
Qed.

Lemma linux_code_ok o b : lok o false None b (linux_code o).
Proof using Type.
  assert (Hwait : forall bits clear timeout, wait_args o = Some (bits, clear, timeout) ->
            lok o false None b (linux_events_wait bits clear timeout)).
  { intros bits clear timeout Ho. cbn. split; [done|]. intros i. split; [done|]. split; [done|]. intros b0.
    split; [done|]. split; [done|]. split; [done|]. split; [done|]. by exists i. }
  destruct o as [bits|bits|bits clear|bits clear timeout]; [| |by apply Hwait..].
  - cbn. split; [done|]. intros b0. split; [done|]. left. split; [done|]. split; [done|].
    split; [right; by eexists|]. exists 0. split; [constructor|done].
  - cbn. split; [done|]. intros b0. split; [done|]. left. split; [done|]. split; [done|].
    split; [left; intros m; apply bits_without_sets_none|]. exists 0. split; [constructor|done].
Qed.

(** What one action does to the thread's possession of the mutex, to the mutex, to the bits and
    to the threads that wait. *)
Record laction_effect (o : events_op) (held held' : bool) (lin lin' : option Z) (p p' : lprog)
  (s s' : lshared) : Prop := mk_laction_effect {
  ae_mutex :
    held' = held /\ ls_mutex s' = ls_mutex s \/
    held = false /\ held' = true /\ ls_mutex s = false /\ ls_mutex s' = true \/
    held = true /\ held' = false /\ ls_mutex s' = false;
  ae_bits : held = false -> ls_bits s' = ls_bits s;
  ae_effect :
    lin' = lin /\ ls_bits s' = ls_bits s \/
    lin = None /\ exists r, lin' = Some r /\ atomic_linux clock o (ls_bits s) r (ls_bits s');
  ae_announced : announced (ls_bits s) (ls_bits s') p';
  ae_asleep bits clear timeout ts :
    p' = LAsleep bits clear timeout ts -> p = p' \/ nz (Z.land (ls_bits s') bits) = false
}.

Lemma announced_same b k : announced b b k.
Proof using Type. by left. Qed.

Lemma not_asleep p bits clear timeout ts : asleep p = false -> p <> LAsleep bits clear timeout ts.
Proof using Type. by intros H ->. Qed.

Lemma lok_held_awake o lin b p : lok o true lin b p -> asleep p = false.
Proof using Type. destruct p; cbn; try done. by intros [? _]. Qed.

(** An action that keeps the bits and the possession of the mutex. *)
Lemma effect_same o held lin p p' s s' :
  ls_mutex s' = ls_mutex s -> ls_bits s' = ls_bits s -> p' = p \/ asleep p' = false ->
  laction_effect o held held lin lin p p' s s'.
Proof using Type.
  intros Hm Hb Hp. split; auto.
  - rewrite Hb. apply announced_same.
  - intros bits clear timeout ts ->. destruct Hp as [->|]; [by left|done].
Qed.

(** One that takes effect. *)
Lemma effect_now o r p p' s s' :
  ls_mutex s' = ls_mutex s -> atomic_linux clock o (ls_bits s) r (ls_bits s') ->
  announced (ls_bits s) (ls_bits s') p' -> asleep p' = false ->
  laction_effect o true true None (Some r) p p' s s'.
Proof using Type.
  intros Hm Hat Ha Hp. split; auto.
  - done.
  - right. split; [done|]. by exists r.
  - by intros bits clear timeout ts ->.
Qed.

(** The mutex is taken; with a time-out this is when the wait takes effect. *)
Lemma effect_lock o lin lin' p p' s :
  ls_mutex s = false ->
  lin' = lin \/ lin = None /\ (exists r, lin' = Some r /\ atomic_linux clock o (ls_bits s) r (ls_bits s)) ->
  asleep p' = false -> laction_effect o false true lin lin' p p' s (s <| ls_mutex := true |>).
Proof using Type.
  intros Hm Hl Hp. split; auto.
  - auto 10.
  - destruct Hl as [->|Hl]; [by left|by right].
  - apply announced_same.
  - by intros bits clear timeout ts ->.
Qed.

Lemma effect_unlock o lin p p' s :
  (forall bits clear timeout ts, p' = LAsleep bits clear timeout ts -> nz (Z.land (ls_bits s) bits) = false) ->
  laction_effect o true false lin lin p p' s (s <| ls_mutex := false |>).
Proof using Type.
  intros Hp. split; auto.
  - apply announced_same.
  - intros bits clear timeout ts E. right. by apply (Hp bits clear timeout ts).
Qed.

(** The next action of a thread keeps its program correct; *)
Lemma act_ok o held lin p s :
  lok o held lin (ls_bits s) p -> (forall r, p <> LReturn r) ->
  let '(p', s') := step_lprog clock Act p s in
  exists held' lin', lok o held' lin' (ls_bits s') p' /\ laction_effect o held held' lin lin' p p' s s'.
Proof using Type.
  intros Hp Hr.
  assert (Hsame : exists held' lin', lok o held' lin' (ls_bits s) p /\ laction_effect o held held' lin lin' p p s s)
    by (exists held, lin; split; [done|]; apply effect_same; auto).
  destruct p as [r|k|k|k|v k|f k|k|k|bits clear timeout ts|bits clear timeout ts|bits clear timeout ts|bits clear timeout ts res];
    cbn [step_lprog]; unfold linux_mutex_lock; try exact Hsame; cbn in Hp.
  - destruct (ls_mutex s) eqn:Hm; [exact Hsame|]. destruct Hp as [-> Hk]. exists true, lin.
    split; [apply Hk|]. apply effect_lock; auto. eapply lok_held_awake, (Hk 0).
  - destruct Hp as (-> & Ha & Hk). exists false, lin. split; [done|]. apply effect_unlock. by intros bits clear timeout ts ->.
  - destruct Hp as [-> [Hk|(-> & r & Hat & Hk)]]; pose proof (lok_held_awake _ _ _ _ Hk) as Ha.
    + exists true, lin. split; [done|]. apply effect_same; auto.
    + exists true, (Some r). split; [done|]. apply effect_now; auto using announced_same.
  - destruct Hp as (-> & -> & Han & r & Hat & Hk). pose proof (lok_held_awake _ _ _ _ Hk) as Ha.
    exists true, (Some r). split; [done|]. by apply effect_now.
  - destruct Hp as [-> Hk]. pose proof (lok_held_awake _ _ _ _ Hk). exists true, lin. split; [done|]. apply effect_same; auto.
  - destruct Hp as [-> Hk]. destruct (Hk (ls_clock s)) as [Ha Hk']. exists false, lin. split; [done|]. apply effect_same; auto.
  - destruct Hp as [-> Hk]. pose proof (lok_held_awake _ _ _ _ Hk). exists true, lin. split; [done|]. apply effect_same; auto.
  - destruct Hp as (-> & -> & Ho). exists true, None. split; [by apply wait_loop_ok|]. apply effect_same; auto.
  - destruct Hp as (-> & -> & Ho & Hb). exists false, None. split; [done|]. apply effect_unlock.
    by intros ? ? ? ? [= <- _ _ _].
  - destruct (ls_mutex s) eqn:Hm; [exact Hsame|]. destruct Hp as (-> & -> & Ho & Hres).
    destruct (wait_woken_ok o bits clear timeout ts res (ls_bits s) Ho Hres) as [Hk|[Hat Hk]];
      pose proof (lok_held_awake _ _ _ _ Hk) as Ha.
    + exists true, None. split; [done|]. apply effect_lock; auto.
    + exists true, (Some 0). split; [done|]. apply effect_lock; eauto 10.
Qed.

(** so does a wake-up. *)
Lemma step_lprog_ok c o held lin p s :
  lok o held lin (ls_bits s) p -> (forall r, p <> LReturn r) ->
  let '(p', s') := step_lprog clock c p s in
  exists held' lin', lok o held' lin' (ls_bits s') p' /\ laction_effect o held held' lin lin' p p' s s'.
Proof using Type.
  intros Hp Hr. destruct c; [by apply act_ok| |].
  all: assert (Hsame : exists held' lin', lok o held' lin' (ls_bits s) p /\ laction_effect o held held' lin lin' p p s s)
    by (exists held, lin; split; [done|]; apply effect_same; auto).
  all: destruct p as [r|k|k|k|v k|f k|k|k|bits clear timeout ts|bits clear timeout ts|bits clear timeout ts|bits clear timeout ts res];
    cbn [step_lprog]; try exact Hsame; cbn in Hp; destruct Hp as (-> & -> & Ho).
  - exists false, None. split; [cbn; auto|]. apply effect_same; auto.
  - destruct (negb _ && _) eqn:E.
    + apply andb_true_iff in E as [Hf%negb_true_iff%Z.eqb_neq Ht%Z.leb_le].
      exists false, None. split; [|apply effect_same; auto]. cbn. split_and!; auto. right. split; [done|].
      split; [done|]. by exists (ls_clock s).
    + exists false, None. split; [done|]. apply effect_same; auto.
Qed.

(** ** Correctness of a system *)

Definition held_by (owner : option nat) : bool := match owner with Some _ => true | None => false end.

(** A thread and its part [l] of the history. *)
Definition lthread_inv (owner : option nat) (b : Z) (i : nat) (l : list (events_op * Z)) (t : thread lprog) : Prop :=
  match th_now t with
  | None => owner <> Some i /\ l = th_done t
  | Some (o, p) => exists lin,
      lok o (bool_decide (owner = Some i)) lin b p /\
      l = th_done t ++ (match lin with Some r => [(o, r)] | None => [] end)
  end.

(** Some thread is about to broadcast. *)
Definition announcing (owner : option nat) (threads : list (thread lprog)) : Prop :=
  exists j u o k, owner = Some j /\ threads !! j = Some u /\ th_now u = Some (o, LBroadcast k).

Record lsystem_inv (b0 : Z) (calls : list (list events_op)) (h : list (nat * (events_op * Z)))
  (owner : option nat) (y : system lshared lprog) : Prop := mk_lsystem_inv {
  li_history : history_run (atomic_linux clock) b0 h (ls_bits (sy_shared y));
  li_mutex : ls_mutex (sy_shared y) = held_by owner;
  li_threads i t : sy_threads y !! i = Some t ->
    lthread_inv owner (ls_bits (sy_shared y)) i (of_thread i h) t;
  li_calls : all_calls <$> sy_threads y = calls;
  li_awake i t o bits clear timeout ts :
    sy_threads y !! i = Some t -> th_now t = Some (o, LAsleep bits clear timeout ts) ->
    nz (Z.land (ls_bits (sy_shared y)) bits) = false \/ announcing owner (sy_threads y)
}.

Lemma lthread_inv_now owner b i l t o p :
  lthread_inv owner b i l t -> th_now t = Some (o, p) ->
  exists lin, lok o (bool_decide (owner = Some i)) lin b p /\
    l = th_done t ++ (match lin with Some r => [(o, r)] | None => [] end).
Proof using Type. unfold lthread_inv. intros Ht E. by rewrite E in Ht. Qed.

(** How the owner of the mutex changes when thread [i] acts. *)
Definition owner_step (i : nat) (owner owner' : option nat) : Prop :=
  owner' = owner \/ owner' = Some i /\ owner = None \/ owner' = None /\ owner = Some i.

Lemma lthread_inv_other owner owner' b b' i j l t :
  lthread_inv owner b j l t -> i <> j -> owner_step i owner owner' -> (b' = b \/ owner <> Some j) ->
  lthread_inv owner' b' j l t.
Proof using Type.
  unfold lthread_inv. intros Ht Hne Ho Hb.
  assert (E : bool_decide (owner' = Some j) = bool_decide (owner = Some j)).
  { apply bool_decide_ext. destruct Ho as [->|[[-> ->]|[-> ->]]]; split; congruence. }
  destruct (th_now t) as [[o p]|].
  - destruct Ht as (lin & Hp & Hl). exists lin. rewrite E. split; [|done].
    destruct Hb as [->|Hb]; [done|]. rewrite bool_decide_eq_false_2 in Hp |- * by done. by eapply lok_free.
  - destruct Ht as [Hn Hl]. split; [|done]. destruct Ho as [->|[[-> ->]|[-> ->]]]; congruence.
Qed.

Lemma lthread_inv_awaken owner b i l t : lthread_inv owner b i l t -> lthread_inv owner b i l (awaken t).
Proof using Type.
  unfold lthread_inv, awaken. destruct (th_now t) as [[o p]|] eqn:E; [|by rewrite E].
  destruct p; rewrite ?E; try done. cbn. intros (lin & (H1 & H2 & H3) & Hl). exists lin. auto 10.
Qed.

Lemma all_calls_awaken (t : thread lprog) : all_calls (awaken t) = all_calls t.
Proof using Type. unfold all_calls, awaken. destruct (th_now t) as [[o []]|] eqn:E; cbn; by rewrite ?E. Qed.

Lemma awaken_awake t o p : th_now (awaken t) = Some (o, p) -> asleep p = false.
Proof using Type.
  unfold awaken. destruct (th_now t) as [[o' q]|] eqn:E; [destruct q; cbn; rewrite ?E; by intros [= <- <-]|].
  by rewrite E.
Qed.

Lemma lock_owner_step i owner o held' lin lin' p p' s s' :
  ls_mutex s = held_by owner -> laction_effect o (bool_decide (owner = Some i)) held' lin lin' p p' s s' ->
  exists owner', owner_step i owner owner' /\ ls_mutex s' = held_by owner' /\ bool_decide (owner' = Some i) = held'.
Proof using Type.
  intros Hm [[[-> ->]|[(Hf & -> & H0 & ->)|(Ht & -> & ->)]] _ _ _ _].
  - exists owner. unfold owner_step. auto.
  - exists (Some i). rewrite Hm in H0. destruct owner; [done|]. unfold owner_step.
    split_and!; auto. by rewrite bool_decide_eq_true_2.
  - apply bool_decide_eq_true in Ht as ->. exists None. unfold owner_step. auto.
Qed.

Lemma laction_history b0 h i o held held' lin lin' p p' s s' :
  history_run (atomic_linux clock) b0 h (ls_bits s) -> laction_effect o held held' lin lin' p p' s s' ->
  exists h', history_run (atomic_linux clock) b0 h' (ls_bits s') /\
    (forall j, j <> i -> of_thread j h' = of_thread j h) /\
    of_thread i h' = of_thread i h ++ match lin, lin' with None, Some r => [(o, r)] | _, _ => [] end.
Proof using Type.
  intros Hh [_ _ [[-> Hb]|(-> & r & -> & Hat)] _ _].
  - exists h. rewrite Hb. split; [done|]. split; [done|]. destruct lin; by rewrite app_nil_r.
  - exists (h ++ [(i, (o, r))]). split; [by eapply HistorySnoc|]. split.
    + intros j Hj. rewrite of_thread_snoc, decide_False by congruence. by rewrite app_nil_r.
    + rewrite of_thread_snoc. by rewrite decide_True.
Qed.

(** The threads after an action of thread [i]: an invariant of every thread but [i]
    that a broadcast keeps. *)
Lemma after_action (threads : list (thread lprog)) i t t' (bc : bool) (Q : nat -> thread lprog -> Prop) :
  threads !! i = Some t -> Q i t' -> (forall j u, threads !! j = Some u -> i <> j -> Q j u) ->
  (forall j u, Q j u -> Q j (awaken u)) ->
  forall j u, (if bc then awaken <$> <[i := t']> threads else <[i := t']> threads) !! j = Some u -> Q j u.
Proof using Type.
  intros Hi Ht Hothers Haw.
  assert (H : forall j u, <[i := t']> threads !! j = Some u -> Q j u).
  { intros j u Hj. destruct (decide (i = j)) as [<-|Hne].
    - rewrite list_lookup_insert_eq in Hj by (by eapply lookup_lt_Some). by injection Hj as <-.
    - rewrite list_lookup_insert_ne in Hj by done. by apply Hothers. }
  intros j u. destruct bc; [|apply H]. rewrite list_lookup_fmap. intros Hj.
  apply fmap_Some in Hj as (u0 & Hu & ->). by apply Haw, H.
Qed.

Lemma lsystem_update b0 calls h h' owner owner' y i t t' s' (bc : bool) :
  let threads := if bc then awaken <$> <[i := t']> (sy_threads y) else <[i := t']> (sy_threads y) in
  lsystem_inv b0 calls h owner y -> sy_threads y !! i = Some t -> all_calls t' = all_calls t ->
  history_run (atomic_linux clock) b0 h' (ls_bits s') -> ls_mutex s' = held_by owner' ->
  lthread_inv owner' (ls_bits s') i (of_thread i h') t' ->
  (forall j, j <> i -> of_thread j h' = of_thread j h) -> owner_step i owner owner' ->
  (ls_bits s' = ls_bits (sy_shared y) \/ forall j, j <> i -> owner <> Some j) ->
  (forall j u o bits clear timeout ts, threads !! j = Some u -> th_now u = Some (o, LAsleep bits clear timeout ts) ->
     nz (Z.land (ls_bits s') bits) = false \/ announcing owner' threads) ->
  lsystem_inv b0 calls h' owner' (mk_system s' threads).
Proof using Type.
  intros threads [Hh Hm Ht Hc Ha] Hi Hcalls Hh' Hm' Hti Hother Ho Hb Haw. split; cbn; try done.
  - refine (after_action (sy_threads y) i t t' bc
      (fun j u => lthread_inv owner' (ls_bits s') j (of_thread j h') u) Hi Hti _ _).
    + intros j u Hj Hne. rewrite Hother by done. eapply lthread_inv_other; [by apply Ht|done|done|].
      destruct Hb as [->|Hb]; [by left|right]. by apply Hb.
    + intros j u. apply lthread_inv_awaken.
  - assert (all_calls <$> <[i := t']> (sy_threads y) = calls) as E.
    { rewrite <- Hc, list_fmap_insert, Hcalls. apply list_insert_id. by rewrite list_lookup_fmap, Hi. }
    unfold threads. destruct bc; [|done]. rewrite <- E, <- list_fmap_compose. apply list_fmap_ext.
    intros j u _. apply all_calls_awaken.
Qed.

(** Thread [j] is about to broadcast and stays so. *)
Lemma announcing_insert owner owner' threads i t t' :
  announcing owner threads -> threads !! i = Some t -> owner_step i owner owner' ->
  (forall o k, th_now t = Some (o, LBroadcast k) -> t' = t /\ owner' = owner) ->
  announcing owner' (<[i := t']> threads).
Proof using Type.
  intros (j & u & o & k & Hown & Hj & Hu) Hi Ho Hsame. destruct (decide (i = j)) as [<-|Hne].
  - rewrite Hi in Hj. injection Hj as ->. destruct (Hsame o k Hu) as [-> ->].
    exists i, u, o, k. split; [done|]. split; [|done]. by rewrite list_lookup_insert_eq by (by eapply lookup_lt_Some).
  - exists j, u, o, k. split; [|by rewrite list_lookup_insert_ne].
    destruct Ho as [->|[[_ ->]|[_ ->]]]; [done|done|congruence].
Qed.

(** After an action inside a call, still no thread is blocked that should not be. *)
Lemma running_awake b0 calls h owner owner' y i c t o p p' s' held' lin lin' :
  lsystem_inv b0 calls h owner y -> sy_threads y !! i = Some t -> th_now t = Some (o, p) ->
  step_lprog clock c p (sy_shared y) = (p', s') ->
  lok o (bool_decide (owner = Some i)) lin (ls_bits (sy_shared y)) p -> lok o held' lin' (ls_bits s') p' ->
  laction_effect o (bool_decide (owner = Some i)) held' lin lin' p p' (sy_shared y) s' ->
  owner_step i owner owner' -> bool_decide (owner' = Some i) = held' ->
  let t' := t <| th_now := Some (o, p') |> in
  let threads := if broadcasts c t then awaken <$> <[i := t']> (sy_threads y) else <[i := t']> (sy_threads y) in
  forall j u o bits clear timeout ts, threads !! j = Some u -> th_now u = Some (o, LAsleep bits clear timeout ts) ->
    nz (Z.land (ls_bits s') bits) = false \/ announcing owner' threads.
Proof using Type.
  intros Hy Hi Hnow Hstep Hp Hp' Heff Ho Hheld t' threads j u o1 bits clear timeout ts Hj Hu.
  subst threads. destruct (broadcasts c t) eqn:Hbc.
  { rewrite list_lookup_fmap in Hj. apply fmap_Some in Hj as (u0 & _ & ->). by apply awaken_awake in Hu. }
  assert (Hkeep : forall o k, th_now t = Some (o, LBroadcast k) -> t' = t /\ owner' = owner).
  { intros o2 k E. unfold broadcasts in Hbc. rewrite E in Hbc. rewrite Hnow in E. injection E as <- ->.
    assert (p' = LBroadcast k) as -> by (by destruct c; [done| |]; injection Hstep as <- _).
    split; [unfold t'; destruct t; cbn in *; by subst|].
    destruct Hp as [Hp _], Hp' as [Hp' _]. rewrite Hp' in Hheld. apply bool_decide_eq_true in Hp, Hheld. congruence. }
  destruct Heff as [_ Hbits _ Han Hsl]. destruct (decide (i = j)) as [<-|Hne].
  - rewrite list_lookup_insert_eq in Hj by (by eapply lookup_lt_Some). injection Hj as <-. injection Hu as <- ->.
    destruct (Hsl _ _ _ _ eq_refl) as [->|Hn]; [|by left].
    destruct Hp as (Hp & _). rewrite (Hbits Hp). destruct (li_awake _ _ _ _ _ Hy _ _ _ _ _ _ _ Hi Hnow) as [Hn|Hann]; [by left|].
    right. by eapply announcing_insert.
  - rewrite list_lookup_insert_ne in Hj by done.
    destruct (li_awake _ _ _ _ _ Hy _ _ _ _ _ _ _ Hj Hu) as [Hn|Hann]; [|right; by eapply announcing_insert].
    destruct Han as [Han|[k' ->]]; [left; by apply Han|right].
    exists i, t', o, k'. destruct Hp' as [-> _]. apply bool_decide_eq_true in Hheld. split; [done|].
    split; [|done]. by rewrite list_lookup_insert_eq by (by eapply lookup_lt_Some).
Qed.

(** An action inside a call. *)
Lemma lrunning_inv b0 calls h owner y i c t o p :
  lsystem_inv b0 calls h owner y -> sy_threads y !! i = Some t -> th_now t = Some (o, p) ->
  (forall r, p <> LReturn r) ->
  exists h' owner', lsystem_inv b0 calls h' owner' (step_lsystem linux_code clock y (i, c)).
Proof using Type.
  intros Hy Hi Hnow Hp. pose proof Hy as [Hh Hm Ht _ _].
  destruct (lthread_inv_now _ _ _ _ _ _ _ (Ht i t Hi) Hnow) as (lin & Hok & Hl).
  pose proof (step_lprog_ok c o _ lin p (sy_shared y) Hok Hp) as Hstep.
  unfold step_lsystem. rewrite Hi.
  assert (step_lthread linux_code clock c t (sy_shared y) =
    let '(p', s') := step_lprog clock c p (sy_shared y) in (t <| th_now := Some (o, p') |>, s')) as ->.
  { unfold step_lthread. rewrite Hnow. destruct p; try done. by destruct (Hp r). }
  destruct (step_lprog clock c p (sy_shared y)) as [p' s'] eqn:E. destruct Hstep as (held' & lin' & Hp' & Heff).
  destruct (laction_history b0 h i o _ _ _ _ _ _ _ _ Hh Heff) as (h' & Hh' & Hother & Hmine).
  destruct (lock_owner_step i owner o _ _ _ _ _ _ _ Hm Heff) as (owner' & Ho & Hm' & Hheld).
  exists h', owner'. eapply lsystem_update; try done.
  - unfold all_calls. cbn. by rewrite Hnow.
  - unfold lthread_inv. cbn. exists lin'. rewrite Hheld. split; [done|]. rewrite Hmine, Hl.
    destruct (ae_effect _ _ _ _ _ _ _ _ _ Heff) as [[-> _]|(-> & r & -> & _)]; [by destruct lin; rewrite app_nil_r|].
    by rewrite app_nil_r.
  - destruct (bool_decide (owner = Some i)) eqn:Eo.
    + right. apply bool_decide_eq_true in Eo. intros j Hj. congruence.
    + left. by apply (ae_bits _ _ _ _ _ _ _ _ _ Heff).
  - by eapply running_awake.
Qed.

(** A thread that leaves the memory alone and is not blocked afterwards. *)
Lemma quiet_inv b0 calls h owner y i t t' :
  lsystem_inv b0 calls h owner y -> sy_threads y !! i = Some t -> all_calls t' = all_calls t ->
  lthread_inv owner (ls_bits (sy_shared y)) i (of_thread i h) t' ->
  (forall o p, th_now t' = Some (o, p) -> asleep p = false) ->
  (forall o k, th_now t <> Some (o, LBroadcast k)) ->
  lsystem_inv b0 calls h owner (mk_system (sy_shared y) (<[i := t']> (sy_threads y))).
Proof using Type.
  intros Hy Hi Hcalls Ht' Haw Hnb. pose proof Hy as [Hh Hm _ _ _].
  apply (lsystem_update b0 calls h h owner owner y i t t' (sy_shared y) false); auto; [by left|].
  intros j u o bits clear timeout ts Hj Hu. destruct (decide (i = j)) as [<-|Hne].
  - rewrite list_lookup_insert_eq in Hj by (by eapply lookup_lt_Some). injection Hj as <-. by apply Haw in Hu.
  - rewrite list_lookup_insert_ne in Hj by done.
    destruct (li_awake _ _ _ _ _ Hy _ _ _ _ _ _ _ Hj Hu) as [Hn|Hann]; [by left|right].
    eapply announcing_insert; [done|done|by left|]. intros o' k E. by destruct (Hnb o' k).
Qed.

Lemma step_lsystem_inv b0 calls h owner y m :
  lsystem_inv b0 calls h owner y -> exists h' owner', lsystem_inv b0 calls h' owner' (step_lsystem linux_code clock y m).
Proof using Type.
  intros Hy. destruct m as [i c]. destruct (sy_threads y !! i) as [t|] eqn:Hi;
    [|exists h, owner; unfold step_lsystem; by rewrite Hi].
  pose proof (li_threads _ _ _ _ _ Hy i t Hi) as Hti.
  destruct (th_now t) as [[o p]|] eqn:Hnow.
  - destruct (match p with LReturn r => Some r | _ => None end) as [r|] eqn:Hret.
    2: { eapply lrunning_inv; try done. by intros r ->. }
    destruct p; try done. destruct (lthread_inv_now _ _ _ _ _ _ _ Hti Hnow) as (lin & [Hown ->] & Hl).
    apply bool_decide_eq_false in Hown. exists h, owner. unfold step_lsystem, step_lthread, broadcasts.
    rewrite Hi, Hnow. assert ((match c with Act => false | _ => false end) = false) as -> by by destruct c.
    eapply quiet_inv; try done; [|by rewrite Hnow]. unfold all_calls. cbn. by rewrite Hnow, fmap_app, <- !app_assoc.
  - unfold step_lsystem, step_lthread, broadcasts. rewrite Hi, Hnow.
    assert ((match c with Act => false | _ => false end) = false) as -> by by destruct c.
    unfold lthread_inv in Hti. rewrite Hnow in Hti. destruct Hti as [Hown Hl]. exists h, owner.
    destruct (th_todo t) as [|o todo] eqn:Htodo; [rewrite list_insert_id by done; by destruct y|].
    eapply quiet_inv; try done; [unfold all_calls; cbn; by rewrite Hnow, Htodo| | |by rewrite Hnow].
    + unfold lthread_inv. cbn. exists None. rewrite bool_decide_eq_false_2 by done.
      split; [apply linux_code_ok|by rewrite app_nil_r].
    + intros o' p [= <- <-]. by destruct o.
Qed.

Lemma lstart_inv b0 calls : lsystem_inv b0 calls [] None (lstart b0 calls).
Proof using Type.
  split; cbn; try done.
  - constructor.
  - intros i t Hi. rewrite list_lookup_fmap in Hi. apply fmap_Some in Hi as (todo & _ & ->). done.
  - rewrite <- list_fmap_compose. apply list_fmap_id.
  - intros i t o bits clear timeout ts Hi Hn. rewrite list_lookup_fmap in Hi. by apply fmap_Some in Hi as (todo & _ & ->).
Qed.

Lemma lrun_from_inv b0 calls schedule y h owner :
  lsystem_inv b0 calls h owner y -> exists h' owner', lsystem_inv b0 calls h' owner' (lrun linux_code clock y schedule).
Proof using Type.
  revert y h owner. induction schedule as [|m schedule IH]; intros y h owner Hy; [by exists h, owner|].
  cbn. destruct (step_lsystem_inv _ _ _ _ _ m Hy) as (h' & owner' & Hy'). by eapply IH.
Qed.

Lemma lrun_inv b0 calls schedule :
  exists h owner, lsystem_inv b0 calls h owner (lrun linux_code clock (lstart b0 calls) schedule).
Proof using Type. eapply lrun_from_inv, lstart_inv. Qed.

(** What a thread has done are atomic steps. *)
Lemma history_atomic b0 h b1 i o r :
  history_run (atomic_linux clock) b0 h b1 -> (o, r) ∈ of_thread i h -> exists b b', atomic_linux clock o b r b'.
Proof using Type.
  intros Hh. induction Hh as [b|b h b1 j o' r' b2 Hh IH Hat]; [by intros ?%elem_of_nil|].
  rewrite of_thread_snoc. intros [H|H]%elem_of_app; [by apply IH|].
  destruct (decide (j = i)); [|by apply elem_of_nil in H].
  apply list_elem_of_singleton in H as [= -> ->]. by exists b1, b2.
Qed.

Lemma lthread_history owner b i l t :
  lthread_inv owner b i l t ->
  exists pending, l = th_done t ++ pending /\ (length pending <= 1)%nat /\ (fst <$> l) `prefix_of` all_calls t.
Proof using Type.
  unfold lthread_inv, all_calls. destruct (th_now t) as [[o p]|].
  - intros (lin & _ & ->). exists (match lin with Some r => [(o, r)] | None => [] end).
    split; [done|]. rewrite fmap_app. destruct lin; cbn.
    + split; [lia|]. apply prefix_app. by exists (th_todo t).
    + split; [lia|]. rewrite app_nil_r. by eexists.
  - intros [_ ->]. exists []. rewrite app_nil_r. split; [done|]. split; [cbn; lia|]. by eexists.
Qed.

(** *** Progress *)

(** Running alone, a program returns [r] after [n] actions. *)
Inductive finishes : lprog -> lshared -> nat -> Z -> lshared -> Prop :=
| FinishReturn r s : finishes (LReturn r) s 0 r s
| FinishStep p s p1 s1 n r s2 :
    (forall r, p <> LReturn r) -> step_lprog clock Act p s = (p1, s1) -> asleep p1 = false ->
    finishes p1 s1 n r s2 -> finishes p s (S n) r s2.

(** One of the bits the call waits for, if it does, is set. *)
Definition wanted (o : events_op) (b : Z) : Prop :=
  forall bits clear timeout, wait_args o = Some (bits, clear, timeout) -> nz (Z.land b bits) = true.

(** Running alone, with the mutex free or its own, a call that has taken effect returns its
    result, *)
Lemma finishes_effect o held r s p :
  lok o held (Some r) (ls_bits s) p -> ls_mutex s = held -> exists n s', finishes p s n r s'.
Proof using Type.
  revert held s. induction p as [r'|k IH|k IH|k IH|v k IH|f k IH|k IH|k IH| | | |]; intros held s Hp Hm; cbn in Hp;
    try (destruct Hp as (_ & ? & _); done).
  - destruct Hp as [_ [= ->]]. exists 0%nat, s. constructor.
  - destruct Hp as [-> Hk]. set (s1 := s <| ls_mutex := true |>).
    destruct (IH true s1 (Hk _) eq_refl) as (n & s' & Hn).
    exists (S n), s'. eapply FinishStep; [done|cbn; by rewrite Hm|by eapply lok_held_awake, (Hk 0)|exact Hn].
  - destruct Hp as (-> & Ha & Hk). set (s1 := s <| ls_mutex := false |>).
    destruct (IH false s1 Hk eq_refl) as (n & s' & Hn).
    exists (S n), s'. by eapply FinishStep.
  - destruct Hp as [-> [Hk|(? & _)]]; [|done]. destruct (IH _ true s Hk Hm) as (n & s' & Hn).
    exists (S n), s'. eapply FinishStep; [done|done|by eapply lok_held_awake|exact Hn].
  - destruct Hp as [-> Hk]. set (s1 := s <| ls_waiters ::= f |>).
    destruct (IH true s1 Hk Hm) as (n & s' & Hn).
    exists (S n), s'. eapply FinishStep; [done|done|by eapply lok_held_awake|exact Hn].
  - destruct Hp as [-> Hk]. destruct (Hk (ls_clock s)) as [Ha Hk'].
    set (s1 := s <| ls_clock ::= S |>). destruct (IH _ false s1 Hk' Hm) as (n & s' & Hn). exists (S n), s'. by eapply FinishStep.
  - destruct Hp as [-> Hk]. destruct (IH true s Hk Hm) as (n & s' & Hn).
    exists (S n), s'. eapply FinishStep; [done|done|by eapply lok_held_awake|exact Hn].
Qed.

(** and a wait at the head of its loop finds its bits. *)
Lemma finishes_loop o bits clear timeout ts s :
  waiting o bits clear timeout ts -> wanted o (ls_bits s) -> ls_mutex s = true ->
  exists n s' b', finishes (LLoop bits clear timeout ts) s n (ls_bits s) s' /\ atomic_linux clock o (ls_bits s) (ls_bits s) b'.
Proof using Type.
  intros [Ho _] Hw Hm. pose proof (Hw _ _ _ Ho) as Hb.
  pose proof (LinuxFound clock o bits clear timeout _ Ho Hb) as Hat.
  assert (Hne : (Z.land (ls_bits s) bits =? 0) = false) by (unfold nz in Hb; by apply negb_true_iff in Hb).
  assert (Hf : exists n s', finishes (linux_wait_found bits clear) s n (ls_bits s) s').
  { assert (Hend : forall s1, ls_mutex s1 = true ->
      exists n s', finishes (linux_wait_end (ls_bits s)) s1 n (ls_bits s) s').
    { intros s1 H1. apply (finishes_effect o true); [apply wait_end_ok|done]. }
    unfold linux_wait_found. destruct (nz clear) eqn:Ec.
    - set (s1 := s <| ls_bits := bits_without bits (ls_bits s) |>). destruct (Hend s1 Hm) as (n & s' & Hn).
      exists (S (S (S n))), s'. do 3 (eapply FinishStep; [done|cbn [step_lprog]; rewrite ?Ec; reflexivity|done|]). exact Hn.
    - destruct (Hend s Hm) as (n & s' & Hn). exists (S n), s'. eapply FinishStep; [done|reflexivity|done|exact Hn]. }
  destruct Hf as (n & s' & Hn). exists (S (S n)), s', (if nz clear then bits_without bits (ls_bits s) else ls_bits s).
  split; [|done]. eapply FinishStep; [done|reflexivity|done|].
  eapply FinishStep; [done|reflexivity|by rewrite Hne|]. by rewrite Hne.
Qed.

(** Running alone with its bits set, a call that has not taken effect returns. *)
Lemma finishes_wanted o held s p :
  lok o held None (ls_bits s) p -> ls_mutex s = held -> asleep p = false -> wanted o (ls_bits s) ->
  exists n r s' b b', finishes p s n r s' /\ atomic_linux clock o b r b'.
Proof using Type.
  revert held s. induction p as [r'|k IH|k IH|k IH|v k IH|f k IH|k IH|k IH|bits clear timeout ts|bits clear timeout ts|
      bits clear timeout ts|bits clear timeout ts res]; intros held s Hp Hm Has Hw; cbn in Hp.
  - by destruct Hp.
  - destruct Hp as [-> Hk]. set (s1 := s <| ls_mutex := true |>).
    destruct (IH true s1 (Hk _) eq_refl (lok_held_awake _ _ _ _ (Hk 0)) Hw) as (n & r & s' & b & b' & Hn & Hat).
    exists (S n), r, s', b, b'. split; [|done].
    eapply FinishStep; [done|cbn; by rewrite Hm|by eapply lok_held_awake, (Hk 0)|exact Hn].
  - destruct Hp as (-> & Ha & Hk). set (s1 := s <| ls_mutex := false |>).
    destruct (IH false s1 Hk eq_refl Ha Hw) as (n & r & s' & b & b' & Hn & Hat).
    exists (S n), r, s', b, b'. split; [by eapply FinishStep|done].
  - destruct Hp as [-> [Hk|(_ & r & Hat & Hk)]]; pose proof (lok_held_awake _ _ _ _ Hk) as Ha.
    + destruct (IH _ true s Hk Hm Ha Hw) as (n & r & s' & b & b' & Hn & Hat).
      exists (S n), r, s', b, b'. split; [by eapply FinishStep|done].
    + destruct (finishes_effect _ _ _ _ _ Hk Hm) as (n & s' & Hn).
      exists (S n), r, s', (ls_bits s), (ls_bits s). split; [by eapply FinishStep|done].
  - destruct Hp as (-> & _ & _ & r & Hat & Hk). set (s1 := s <| ls_bits := v |>).
    destruct (finishes_effect o true r s1 k Hk Hm) as (n & s' & Hn). exists (S n), r, s', (ls_bits s), v.
    split; [|done]. eapply FinishStep; [done|done|by eapply lok_held_awake|exact Hn].
  - destruct Hp as [-> Hk]. pose proof (lok_held_awake _ _ _ _ Hk) as Ha. set (s1 := s <| ls_waiters ::= f |>).
    destruct (IH true s1 Hk Hm Ha Hw) as (n & r & s' & b & b' & Hn & Hat).
    exists (S n), r, s', b, b'. split; [by eapply FinishStep|done].
  - destruct Hp as [-> Hk]. destruct (Hk (ls_clock s)) as [Ha Hk']. set (s1 := s <| ls_clock ::= S |>).
    destruct (IH _ false s1 Hk' Hm Ha Hw) as (n & r & s' & b & b' & Hn & Hat).
    exists (S n), r, s', b, b'. split; [by eapply FinishStep|done].
  - destruct Hp as [-> Hk]. pose proof (lok_held_awake _ _ _ _ Hk) as Ha.
    destruct (IH true s Hk Hm Ha Hw) as (n & r & s' & b & b' & Hn & Hat).
    exists (S n), r, s', b, b'. split; [by eapply FinishStep|done].
  - destruct Hp as (-> & _ & Ho). destruct (finishes_loop o bits clear timeout ts s Ho Hw Hm) as (n & s' & b' & Hn & Hat).
    by exists n, (ls_bits s), s', (ls_bits s), b'.
  - destruct Hp as (_ & _ & [Ho _] & Hb). by rewrite (Hw _ _ _ Ho) in Hb.
  - done.
  - destruct Hp as (-> & _ & Ho & Hres). set (s1 := s <| ls_mutex := true |>).
    destruct Hres as [->|[-> Hex]].
    + destruct (finishes_loop o bits clear timeout ts s1 Ho Hw eq_refl) as (n & s' & b' & Hn & Hat).
      exists (S n), (ls_bits s), s', (ls_bits s), b'. split; [|done].
      eapply FinishStep; [done|cbn; by rewrite Hm|done|exact Hn].
    + destruct Ho as [Ho (i & ->)], Hex as [Hf (j & Hj)].
      destruct (finishes_effect o true 0 s1 (linux_wait_end 0) (wait_end_ok _ _ _) eq_refl) as (n & s' & Hn).
      exists (S n), 0, s', 0, 0. split; [eapply FinishStep; [done|cbn; by rewrite Hm|done|exact Hn]|].
      eapply (LinuxTimeout clock _ _ _ _ _ i j); [done|done|]. by rewrite <- add_timeout_nanoseconds.
Qed.

(** In the system: the other threads do nothing meanwhile. *)
Lemma lrun_finishes p s n r s' :
  finishes p s n r s' -> forall threads i t o, threads !! i = Some t -> th_now t = Some (o, p) -> asleep p = false ->
  exists t', sy_threads (lrun linux_code clock (mk_system s threads) (replicate (S n) (i, Act))) !! i = Some t' /\
    th_now t' = None /\ th_done t' = th_done t ++ [(o, r)].
Proof using Type.
  intros Hf. induction Hf as [r s|p s p1 s1 n r s2 Hp Hstep Ha Hf IH]; intros threads i t o Hi Hnow Has.
  - cbn. unfold step_lthread, broadcasts. rewrite Hi, Hnow. cbn.
    rewrite list_lookup_insert_eq by (by eapply lookup_lt_Some). eexists. split; [reflexivity|done].
  - change (replicate (S (S n)) (i, Act)) with ((i, Act) :: replicate (S n) (i, Act)). cbn [lrun foldl].
    unfold step_lsystem at 2. cbn [sy_threads sy_shared]. rewrite Hi.
    assert (step_lthread linux_code clock Act t s = (t <| th_now := Some (o, p1) |>, s1)) as ->.
    { unfold step_lthread. rewrite Hnow. destruct p; try (by rewrite Hstep). by destruct (Hp r0). }
    set (t1 := t <| th_now := Some (o, p1) |>).
    assert (Haw : awaken t1 = t1) by (unfold awaken, t1; cbn; by destruct p1).
    assert (Hi1 : (if broadcasts Act t then awaken <$> <[i := t1]> threads else <[i := t1]> threads) !! i = Some t1).
    { assert (<[i := t1]> threads !! i = Some t1) as E by (apply list_lookup_insert_eq; by eapply lookup_lt_Some).
      destruct (broadcasts Act t); [|done]. rewrite list_lookup_fmap, E. exact (f_equal Some Haw). }
    exact (IH _ i t1 o Hi1 eq_refl Ha).
Qed.

End Correct.

(** ** Properties *)

(** The event functions are atomic.  For any calls of any number of threads, any
    interleaving of their actions and any wake-ups, the calls have taken effect one after the
    other: some sequential history of atomic steps leads to the bits there are now, and for each
    thread it holds the calls the thread has made, in its order and with the results they
    returned, and at most the call it is in.  No update is lost; a wait returns the bits when one of
    those it waits for is set, and 0 only after its time. *)
Theorem linux_events_linearizable (clock : nat -> timespec) (b0 : Z)
  (calls : list (list events_op)) (schedule : list (nat * turn)) :
  let y := lrun linux_code clock (lstart b0 calls) schedule in
  exists h, history_run (atomic_linux clock) b0 h (ls_bits (sy_shared y)) /\
    forall i t, sy_threads y !! i = Some t ->
      exists cs pending, calls !! i = Some cs /\ of_thread i h = th_done t ++ pending /\
        (length pending <= 1)%nat /\ (fst <$> of_thread i h) `prefix_of` cs.
Proof.
  intros y. destruct (lrun_inv clock b0 calls schedule) as (h & owner & [Hh _ Ht Hc _]).
  exists h. split; [done|]. intros i t Hi. exists (all_calls t).
  destruct (lthread_history _ _ _ _ _ _ (Ht i t Hi)) as (pending & Hl & Hlen & Hpre).
  exists pending. split; [|done]. rewrite <- Hc, list_lookup_fmap. unfold y in Hi. by rewrite Hi.
Qed.

(** C17: no wake-up is lost.  In any reachable state in which nobody holds the mutex and one of
    the bits a thread waits for is set, the thread is not blocked, and when it runs its
    call returns: with a result the call may have at one instant. *)
Theorem linux_events_wait_returns (clock : nat -> timespec) (b0 : Z) (calls : list (list events_op))
  (schedule : list (nat * turn)) (i : nat) (t : thread lprog) (o : events_op) (p : lprog)
  (bits clear timeout : Z) :
  let y := lrun linux_code clock (lstart b0 calls) schedule in
  sy_threads y !! i = Some t -> th_now t = Some (o, p) -> wait_args o = Some (bits, clear, timeout) ->
  nz (Z.land (ls_bits (sy_shared y)) bits) = true -> ls_mutex (sy_shared y) = false ->
  asleep p = false /\
  exists n t' r b b', sy_threads (lrun linux_code clock y (replicate n (i, Act))) !! i = Some t' /\
    th_now t' = None /\ th_done t' = th_done t ++ [(o, r)] /\ atomic_linux clock o b r b'.
Proof.
  intros y Hi Hnow Ho Hb Hm. destruct (lrun_inv clock b0 calls schedule) as (h & owner & Hy). fold y in Hy.
  clearbody y. pose proof Hy as [Hh Hmu Ht _ Haw]. rewrite Hm in Hmu. destruct owner as [|]; [done|].
  destruct (lthread_inv_now _ _ _ _ _ _ _ _ (Ht i t Hi) Hnow) as (lin & Hok & Hl).
  rewrite bool_decide_eq_false_2 in Hok by done.
  assert (Has : asleep p = false).
  { destruct p as [| | | | | | | | | |bits' clear' timeout' ts|]; try done. exfalso.
    destruct Hok as (_ & _ & [Ho' _]). rewrite Ho in Ho'. injection Ho' as <- <- <-.
    destruct (Haw i t o bits clear timeout ts Hi Hnow) as [Hn|(j & u & o' & k & Hown & _)]; [congruence|done]. }
  split; [exact Has|].
  assert (Hf : exists n r s' b b', finishes clock p (sy_shared y) n r s' /\ atomic_linux clock o b r b').
  { destruct lin as [r|].
    - destruct (finishes_effect clock o false r _ _ Hok Hm) as (n & s' & Hn).
      destruct (history_atomic clock b0 h _ i o r Hh) as (b & b' & Hat).
      { rewrite Hl. apply elem_of_app. right. apply list_elem_of_here. }
      by exists n, r, s', b, b'.
    - apply (finishes_wanted clock o false _ p Hok Hm Has).
      intros bits' clear' timeout' E. rewrite Ho in E. by injection E as <- _ _. }
  destruct Hf as (n & r & s' & b & b' & Hf & Hat). destruct y as [s threads].
  destruct (lrun_finishes clock p s n r s' Hf threads i t o Hi Hnow Has) as (t' & Hi' & Hn' & Hd').
  by exists (S n), t', r, b, b'.
Qed.

(** A thread waits for bit 0, goes to sleep, and another one sets the bit. *)
Definition wait_and_set : list (list events_op) := [[EventsWait 1 1 1000]; [EventsSet 1]].

Definition sleep_then_set : list (nat * turn) :=
  replicate 7 (0%nat, Act) ++ replicate 7 (1%nat, Act).

Definition demo_clock (n : nat) : timespec := mk_timespec (Z.of_nat n) 0.

Lemma linux_events_wait_returns_witness :
  (match th_now <$> sy_threads (lrun linux_code demo_clock (lstart 0 wait_and_set) (replicate 7 (0%nat, Act))) !! 0%nat with
   | Some (Some (_, p)) => asleep p | _ => false end) = true /\
  exists n t' r b b',
    sy_threads (lrun linux_code demo_clock (lrun linux_code demo_clock (lstart 0 wait_and_set) sleep_then_set) (replicate n (0%nat, Act)))
      !! 0%nat = Some t' /\
    th_now t' = None /\ th_done t' = [(EventsWait 1 1 1000, r)] /\
    atomic_linux demo_clock (EventsWait 1 1 1000) b r b'.
Proof.
  split; [reflexivity|].
  apply (linux_events_wait_returns demo_clock 0 wait_and_set sleep_then_set 0 _ (EventsWait 1 1 1000) _ 1 1 1000
           eq_refl eq_refl eq_refl eq_refl eq_refl).
Defined.
