(* ===== verification/Packet.v ===== *)
(** * Packets (src/TinyPacket.h)

    The class [IPacket]: a buffer, the number of bytes written to it and the read
    position.  Packets do not own their buffer: a packet is a record with the
    address of its buffer, and the operations act on a memory shared by all
    packets, so copies alias and a store outside a buffer hits its neighbours.
    Nothing in the class checks bounds.  The theorems say what can be read back from a
    packet, and what [put] does to the bytes after the buffer when a string is put
    into a full packet. *)

From S2P Require Import Prelude Crc HdlcLL HdlcTx.

(** ** Memory *)

Definition memory : Type := Z -> Z.

(** Storing one byte, and the bytes [l] from address [a]. *)
Definition mem_write (m : memory) (a b : Z) : memory := fun x => if x =? a then b else m x.

Definition mem_write_range (m : memory) (a : Z) (l : list Z) : memory := fun x =>
  if (a <=? x) && (x <? a + Z.of_nat (length l)) then load l (x - a) else m x.

(** A conversion to [size_t] (64 bits). *)
Definition size_t (z : Z) : Z := z mod 2 ^ 64.

Definition memcpy (m : memory) (dst src n : Z) : memory :=
  mem_write_range m dst (mem_range m src (Z.to_nat (size_t n))).

(** The string [str] is the list of its characters before the terminator; the rest of
    the [n] bytes is filled with zeros. *)
Definition strncpy (m : memory) (dst : Z) (str : list Z) (n : Z) : memory := fun x =>
  if (dst <=? x) && (x <? dst + size_t n) then load str (x - dst) else m x.

(** [strlen], which looks at no more than [fuel] bytes. *)
Fixpoint strlen (fuel : nat) (m : memory) (a : Z) : option Z :=
  match fuel with
  | O => None
  | S fuel => if m a =? 0 then Some 0 else Z.succ <$> strlen fuel m (a + 1)
  end.

(** ** The class *)

(** Links are addresses of packets, 0 is [nullptr]. *)
Record IPacket : Type := mk_packet {
  m_buf : Z;
  m_next : Z;
  m_prev : Z;
  m_size : Z;
  m_len : Z;
  m_p : Z
}.

#[export] Instance eta_packet : Eta IPacket := fun p =>
  mk_packet (m_buf p) (m_next p) (m_prev p) (m_size p) (m_len p) (m_p p).

(** The default constructor, the constructor on a buffer, the copy constructor and
    the assignment. *)
Definition packet_default : IPacket := mk_packet 0 0 0 0 0 0.
Definition packet_on (buf size : Z) : IPacket := packet_default <| m_size := size |> <| m_buf := buf |>.
Definition packet_copy (packet : IPacket) : IPacket :=
  packet_default <| m_len := m_len packet |> <| m_size := m_size packet |> <| m_buf := m_buf packet |>.
Definition packet_assign (p source : IPacket) : IPacket :=
  p <| m_size := m_size source |> <| m_buf := m_buf source |>.

(** [HeapPacket(const IPacket &src)]; [new_buf] is what [new] returns. *)
Definition heap_packet_copy (m : memory) (new_buf : Z) (src : IPacket) : memory * IPacket :=
  (memcpy m new_buf (m_buf src) (m_len src), packet_on new_buf (m_len src)).

Definition clear (p : IPacket) : IPacket := p <| m_len := 0 |> <| m_p := 0 |>.
Definition allocate (bytes : Z) (p : IPacket) : IPacket := p <| m_len ::= Z.add bytes |>.
Definition availableBytes (p : IPacket) : Z := size_t (m_len p - m_p p).

(** [m_buf[m_len++] = byte] *)
Definition push_byte (byte : Z) (s : memory * IPacket) : memory * IPacket :=
  let '(m, p) := s in (mem_write m (m_buf p + m_len p) (u8 byte), p <| m_len ::= Z.succ |>).

(** The overloads of [put]. *)
Definition put_byte (byte : Z) (s : memory * IPacket) : memory * IPacket := push_byte byte s.
Definition put_char (chr : Z) (s : memory * IPacket) : memory * IPacket := put_byte (u8 chr) s.
Definition put_uint16 (data : Z) (s : memory * IPacket) : memory * IPacket :=
  push_byte (Z.shiftr data 8) (push_byte (Z.land data 0x00FF) s).
Definition put_uint32 (data : Z) (s : memory * IPacket) : memory * IPacket :=
  put_uint16 (u16 (Z.shiftr data 16)) (put_uint16 (u16 (Z.land data 0x0000FFFF)) s).
Definition put_int16 (data : Z) (s : memory * IPacket) : memory * IPacket := put_uint16 (u16 data) s.

Definition put_string (str : list Z) (s : memory * IPacket) : memory * IPacket :=
  let '(m, p) := s in
  let room := m_size p - m_len p - 1 in
  if room =? 0 then (m, p) else
  let strSize := Z.of_nat (length str) in
  let m := strncpy m (m_buf p + m_len p) str room in
  let p := p <| m_len ::= Z.add (if strSize <? room then strSize else room) |> in
  push_byte 0 (m, p).

Definition put_packet (pkt : IPacket) (s : memory * IPacket) : memory * IPacket :=
  let '(m, p) := s in
  (memcpy m (m_buf p + m_len p) (m_buf pkt) (m_len pkt), p <| m_len ::= Z.add (m_len pkt) |>).

(** [m_buf[m_p++]] *)
Definition getByte (s : memory * IPacket) : Z * IPacket :=
  let '(m, p) := s in (m (m_buf p + m_p p), p <| m_p ::= Z.succ |>).

(** Conversion to a signed type of [w] bits whose least value is [low]. *)
Definition signed (low w z : Z) : Z := low + (z - low) mod 2 ^ w.

(** [char] is signed or not: [CHAR_MIN] is -128 or 0. *)
Definition getChar (CHAR_MIN : Z) (s : memory * IPacket) : Z * IPacket :=
  let '(b, p) := getByte s in (signed CHAR_MIN 8 b, p).

Definition getUint16 (s : memory * IPacket) : Z * IPacket :=
  let '(t, p) := getByte s in
  let '(b, p) := getByte (fst s, p) in
  (u16 (Z.lor t (Z.shiftl b 8)), p).

Definition getInt16 (s : memory * IPacket) : Z * IPacket :=
  let '(v, p) := getUint16 s in (signed (- 2 ^ 15) 16 v, p).

(** The operands of [|] are calls; C++ does not say which is evaluated first. *)
Definition getUint32 (left_first : bool) (s : memory * IPacket) : Z * IPacket :=
  let '(x, p) := getUint16 s in
  let '(y, p) := getUint16 (fst s, p) in
  let '(low, high) := if left_first then (x, y) else (y, x) in
  (Z.lor low (u32 (Z.shiftl high 16)), p).

(** A pointer to the string, and the packet after it. *)
Definition getString (fuel : nat) (s : memory * IPacket) : option (Z * IPacket) :=
  let '(m, p) := s in
  let ptr := m_buf p + m_p p in
  n ← strlen fuel m ptr; Some (ptr, p <| m_p ::= Z.add (n + 1) |>).

(** ** Sequences of fields

    What an application does with a packet: it puts values of several types and
    reads values of the same types, in the same order. *)

Inductive field : Type :=
| FByte (v : Z) | FChar (v : Z) | FUint16 (v : Z) | FInt16 (v : Z) | FUint32 (v : Z)
| FString (str : list Z).

Inductive field_type : Type := TByte | TChar | TUint16 | TInt16 | TUint32 | TString.

Definition type_of (f : field) : field_type :=
  match f with
  | FByte _ => TByte | FChar _ => TChar | FUint16 _ => TUint16 | FInt16 _ => TInt16
  | FUint32 _ => TUint32 | FString _ => TString
  end.

Definition put_field (s : memory * IPacket) (f : field) : memory * IPacket :=
  match f with
  | FByte v => put_byte v s
  | FChar v => put_char v s
  | FUint16 v => put_uint16 v s
  | FInt16 v => put_int16 v s
  | FUint32 v => put_uint32 v s
  | FString str => put_string str s
  end.

(** A string is what the memory holds from the returned pointer to the terminator. *)
Definition get_field (CHAR_MIN : Z) (left_first : bool) (fuel : nat) (t : field_type)
  (s : memory * IPacket) : option (field * IPacket) :=
  match t with
  | TByte => let '(v, p) := getByte s in Some (FByte v, p)
  | TChar => let '(v, p) := getChar CHAR_MIN s in Some (FChar v, p)
  | TUint16 => let '(v, p) := getUint16 s in Some (FUint16 v, p)
  | TInt16 => let '(v, p) := getInt16 s in Some (FInt16 v, p)
  | TUint32 => let '(v, p) := getUint32 left_first s in Some (FUint32 v, p)
  | TString =>
      '(ptr, p) ← getString fuel s;
      Some (FString (mem_range (fst s) ptr (Z.to_nat (m_p p - m_p (snd s) - 1))), p)
  end.

Fixpoint get_fields (CHAR_MIN : Z) (left_first : bool) (fuel : nat) (ts : list field_type)
  (s : memory * IPacket) : option (list field * IPacket) :=
  match ts with
  | [] => Some ([], snd s)
  | t :: ts =>
      '(f, p) ← get_field CHAR_MIN left_first fuel t s;
      '(fs, p) ← get_fields CHAR_MIN left_first fuel ts (fst s, p);
      Some (f :: fs, p)
  end.

(** The values of the C types. *)
Definition field_ok (CHAR_MIN : Z) (f : field) : Prop :=
  match f with
  | FByte v => fits 8 v
  | FChar v => CHAR_MIN <= v < CHAR_MIN + 2 ^ 8
  | FUint16 v => fits 16 v
  | FInt16 v => - 2 ^ 15 <= v < 2 ^ 15
  | FUint32 v => fits 32 v
  | FString str => Forall (fun c => fits 8 c /\ c <> 0) str
  end.

(** The bytes of a field in a packet. *)
Definition encode (f : field) : list Z :=
  match f with
  | FByte v => [v]
  | FChar v => [u8 v]
  | FUint16 v => le_bytes 2 v
  | FInt16 v => le_bytes 2 (u16 v)
  | FUint32 v => le_bytes 4 v
  | FString str => str ++ [0]
  end.

(** How much room [put] needs for a field: one byte is not enough for a string, not
    even for the empty one. *)
Definition field_room (f : field) : Z := Z.max (Z.of_nat (length (encode f)))
  (match f with FString _ => 2 | _ => 0 end).

(** The fields fit one after the other into [room] bytes. *)
Fixpoint fields_fit (fs : list field) (room : Z) : Prop :=
  match fs with
  | [] => 0 <= room
  | f :: fs => field_room f <= room /\ fields_fit fs (room - Z.of_nat (length (encode f)))
  end.

Definition encoded (fs : list field) : list Z := concat (encode <$> fs).

(** ** Facts on memory *)

Lemma mem_write_range_in m a l :
  mem_range (mem_write_range m a l) a (length l) = l.
Proof.
  apply mem_range_nth. intros i b Hi. pose proof (lookup_lt_Some _ _ _ Hi).
  unfold mem_write_range. rewrite (proj2 (Z.leb_le _ _)), (proj2 (Z.ltb_lt _ _)) by lia.
  cbn [andb]. replace (a + Z.of_nat i - a) with (Z.of_nat i) by lia. unfold load.
  rewrite Nat2Z.id. by apply nth_lookup_Some.
Qed.

Lemma mem_write_range_out m a l x :
  x < a \/ a + Z.of_nat (length l) <= x -> mem_write_range m a l x = m x.
Proof.
  intros Hx. unfold mem_write_range. destruct (Z.leb_spec a x), (Z.ltb_spec x (a + Z.of_nat (length l)));
    cbn [andb]; done || lia.
Qed.

Lemma mem_write_out m a b x : x <> a -> mem_write m a b x = m x.
Proof. intros Hx. unfold mem_write. by apply Z.eqb_neq in Hx as ->. Qed.

Lemma mem_write_in m a b : mem_write m a b a = b.
Proof. unfold mem_write. by rewrite Z.eqb_refl. Qed.

Lemma mem_range_cons m a b l n :
  mem_range m a (S n) = b :: l <-> m a = b /\ mem_range m (a + 1) n = l.
Proof. cbn. split; [by intros [= -> ->]|by intros [-> ->]]. Qed.

Lemma size_t_id z : 0 <= z < 2 ^ 64 -> size_t z = z.
Proof. apply Z.mod_small. Qed.

(** ** Putting *)

(** [s'] is [s] with the bytes [l] after the end; what is before the end of the
    packet and what is after the buffer does not change. *)
Definition appended (s : memory * IPacket) (l : list Z) (s' : memory * IPacket) : Prop :=
  let '(m, p) := s in let '(m', p') := s' in
  p' = p <| m_len := m_len p + Z.of_nat (length l) |> /\
  mem_range m' (m_buf p + m_len p) (length l) = l /\
  forall x, x < m_buf p + m_len p \/ m_buf p + m_size p <= x -> m' x = m x.

Lemma appended_trans s1 l1 s2 l2 s3 :
  appended s1 l1 s2 -> appended s2 l2 s3 -> appended s1 (l1 ++ l2) s3.
Proof.
  destruct s1 as [m1 p1], s2 as [m2 p2], s3 as [m3 p3]. intros (-> & R1 & K1) (-> & R2 & K2).
  cbn in *. split_and!.
  - rewrite length_app. red_upd. f_equal. lia.
  - rewrite length_app, mem_range_app. f_equal.
    + rewrite <- R1 at 2. apply mem_range_ext. intros x Hx. apply K2. lia.
    + rewrite <- R2 at 2. f_equal. lia.
  - intros x Hx. rewrite K2 by lia. by apply K1.
Qed.

Lemma push_byte_appended b m p :
  m_len p < m_size p -> appended (m, p) [u8 b] (push_byte b (m, p)).
Proof.
  intros Hl. cbn. split_and!.
  - red_upd. f_equal; lia.
  - by rewrite mem_write_in.
  - intros x Hx. apply mem_write_out. lia.
Qed.

Lemma u8_land z : u8 (Z.land z 0x00FF) = u8 z.
Proof. change 0x00FF with (Z.ones 8). rewrite Z.land_ones by lia. unfold u8. apply Z.mod_mod. lia. Qed.

Lemma put_uint16_appended v m p :
  m_len p + 2 <= m_size p -> appended (m, p) (le_bytes 2 v) (put_uint16 v (m, p)).
Proof.
  intros Hl. unfold put_uint16. cbn [le_bytes].
  change [u8 v; u8 (Z.shiftr v 8)] with ([u8 v] ++ [u8 (Z.shiftr v 8)]).
  eapply appended_trans.
  - rewrite <- u8_land. apply push_byte_appended. lia.
  - rewrite (surjective_pairing (push_byte (Z.land v 255) (m, p))). apply push_byte_appended. cbn. lia.
Qed.

Lemma le_bytes_u16 v : le_bytes 2 (u16 v) = le_bytes 2 v.
Proof.
  cbn [le_bytes]. unfold u8, u16. change (2 ^ 16) with (2 ^ 8 * 2 ^ 8). f_equal.
  - rewrite Z.rem_mul_r by lia. rewrite (Z.mul_comm (2 ^ 8)), Z.mod_add, Z.mod_mod by lia. done.
  - f_equal. rewrite !Z.shiftr_div_pow2 by lia. rewrite Z.rem_mul_r by lia.
    rewrite (Z.mul_comm (2 ^ 8)), Z.div_add by lia.
    rewrite (Z.div_small (v mod 2 ^ 8)) by (apply Z.mod_pos_bound; lia).
    rewrite Z.add_0_l. apply Z.mod_mod. lia.
Qed.

Lemma le_bytes_4 v :
  le_bytes 4 v = le_bytes 2 (u16 (Z.land v 0x0000FFFF)) ++ le_bytes 2 (u16 (Z.shiftr v 16)).
Proof.
  rewrite !le_bytes_u16. change 0x0000FFFF with (Z.ones 16).
  rewrite Z.land_ones by lia. change (v mod 2 ^ 16) with (u16 v). rewrite le_bytes_u16.
  cbn [le_bytes app]. rewrite !Z.shiftr_shiftr by lia. done.
Qed.

(** The bytes of [put(const char * )] when there is room for two bytes at least. *)
Definition room_left (p : IPacket) : Z := m_size p - m_len p - 1.

Lemma put_string_truncates str m p :
  0 <= m_len p -> m_size p < 2 ^ 31 -> 0 < room_left p ->
  appended (m, p) (take (Z.to_nat (room_left p)) str ++ [0]) (put_string str (m, p)).
Proof.
  unfold room_left. intros H0 Hs Hl. unfold put_string. set (room := m_size p - m_len p - 1) in *.
  destruct (Z.eqb_spec room 0); [lia|].
  set (l := take (Z.to_nat room) str). set (m1 := strncpy m (m_buf p + m_len p) str room).
  assert (Hm1 : forall x, m1 x = if (m_buf p + m_len p <=? x) && (x <? m_buf p + m_len p + room)
                                 then load str (x - (m_buf p + m_len p)) else m x).
  { intros x. unfold m1, strncpy. by rewrite size_t_id by lia. }
  assert (Hlen : (if Z.of_nat (length str) <? room then Z.of_nat (length str) else room) =
                 Z.of_nat (length l)).
  { unfold l. rewrite length_take. destruct (Z.ltb_spec (Z.of_nat (length str)) room); lia. }
  assert (Hl2 : Z.of_nat (length l) <= room) by (unfold l; rewrite length_take; lia).
  rewrite Hlen. eapply (appended_trans _ _ (m1, p <| m_len := m_len p + Z.of_nat (length l) |>)).
  - split_and!; [done| |].
    + apply mem_range_nth. intros i b Hi. pose proof (lookup_lt_Some _ _ _ Hi).
      rewrite Hm1, (proj2 (Z.leb_le _ _)), (proj2 (Z.ltb_lt _ _)) by lia. cbn [andb]. unfold load.
      replace (Z.to_nat _) with i by lia. apply nth_lookup_Some. unfold l in Hi.
      by apply lookup_take_Some in Hi as [? _].
    + intros x Hx. rewrite Hm1. destruct (Z.leb_spec (m_buf p + m_len p) x); [|done].
      destruct (Z.ltb_spec x (m_buf p + m_len p + room)); [lia|done].
  - replace (fupd (Z.add (Z.of_nat (length l))) p)
      with (p <| m_len := m_len p + Z.of_nat (length l) |>)
      by (unfold fupd; f_equal; lia).
    change [0] with [u8 0]. apply push_byte_appended. cbn. lia.
Qed.

Lemma put_string_appended str m p :
  0 <= m_len p -> m_size p < 2 ^ 31 -> m_len p + Z.max 2 (Z.of_nat (length str) + 1) <= m_size p ->
  appended (m, p) (str ++ [0]) (put_string str (m, p)).
Proof.
  intros H0 Hs Hl. pose proof (put_string_truncates str m p H0 Hs ltac:(unfold room_left; lia)) as H.
  by rewrite take_ge in H by (unfold room_left; lia).
Qed.

Lemma put_field_appended CHAR_MIN f m p :
  field_ok CHAR_MIN f -> 0 <= m_len p -> m_size p < 2 ^ 31 -> m_len p + field_room f <= m_size p ->
  appended (m, p) (encode f) (put_field (m, p) f).
Proof.
  intros Hf H0 Hs Hr. unfold field_room in Hr. destruct f as [v|v|v|v|v|str]; cbn [put_field encode field_ok] in *.
  - rewrite <- (u8_id v) at 1 by done. apply push_byte_appended. cbn in Hr. lia.
  - unfold put_char, put_byte. rewrite <- (u8_id (u8 v)) at 1 by apply fits_u8.
    apply push_byte_appended. cbn in Hr. lia.
  - apply put_uint16_appended. cbn in Hr. lia.
  - apply put_uint16_appended. cbn in Hr. lia.
  - rewrite le_bytes_4. cbn in Hr. eapply appended_trans; [apply put_uint16_appended; lia|].
    rewrite (surjective_pairing (put_uint16 (u16 (Z.land v 65535)) (m, p))).
    apply put_uint16_appended. cbn. lia.
  - rewrite length_app in Hr. cbn in Hr. apply put_string_appended; lia.
Qed.

Lemma put_fields_appended CHAR_MIN fs m p :
  Forall (field_ok CHAR_MIN) fs -> 0 <= m_len p -> m_size p < 2 ^ 31 ->
  fields_fit fs (m_size p - m_len p) ->
  appended (m, p) (encoded fs) (foldl put_field (m, p) fs).
Proof.
  intros Hf. revert m p. induction Hf as [|f fs Hf _ IH]; intros m p H0 Hs Hfit.
  { cbn in *. split_and!; [|done|done]. rewrite Z.add_0_r. by destruct p. }
  destruct Hfit as [Hr Hfit]. cbn [foldl]. unfold encoded. cbn [fmap list_fmap concat].
  pose proof (put_field_appended CHAR_MIN f m p Hf H0 Hs ltac:(lia)) as Hput.
  destruct (put_field (m, p) f) as [m1 p1]. eapply appended_trans; [exact Hput|].
  destruct Hput as (-> & _ & _). apply IH; cbn; [lia|done|].
  replace (m_size p - (m_len p + Z.of_nat (length (encode f))))
    with (m_size p - m_len p - Z.of_nat (length (encode f))) by lia. done.
Qed.

(** ** Getting *)

(** The packet after [n] more bytes have been read. *)
Definition advance (n : Z) (p : IPacket) : IPacket := p <| m_p ::= Z.add n |>.

(** The bytes from the read position. *)
Definition at_read (m : memory) (p : IPacket) (l : list Z) : Prop :=
  mem_range m (m_buf p + m_p p) (length l) = l.

Lemma at_read_app m p l k : at_read m p (l ++ k) <-> at_read m p l /\ at_read m (advance (Z.of_nat (length l)) p) k.
Proof.
  unfold at_read. rewrite length_app, mem_range_app. unfold advance. red_upd.
  replace (m_buf p + (Z.of_nat (length l) + m_p p)) with (m_buf p + m_p p + Z.of_nat (length l)) by lia.
  split; [|by intros [-> ->]]. intros E. apply app_inj_1 in E; [done|]. apply mem_range_length.
Qed.

Lemma advance_twice n k p : advance n (advance k p) = advance (n + k) p.
Proof. unfold advance. red_upd. f_equal. lia. Qed.

Lemma getByte_spec m p b : at_read m p [b] -> getByte (m, p) = (b, advance 1 p).
Proof. unfold at_read, advance. cbn. intros [= <-]. red_upd. do 2 f_equal. lia. Qed.

Lemma getUint16_spec m p v :
  fits 16 v -> at_read m p (le_bytes 2 v) -> getUint16 (m, p) = (v, advance 2 p).
Proof.
  intros Hv. change (le_bytes 2 v) with ([u8 v] ++ [u8 (Z.shiftr v 8)]). rewrite at_read_app.
  intros [H1%getByte_spec H2%getByte_spec]. unfold getUint16. rewrite H1. cbn [fst].
  change (Z.of_nat (length [u8 v])) with 1 in H2. rewrite H2, advance_twice. f_equal.
  pose proof (le_value_bytes 2 v Hv) as E. cbn [le_bytes le_value] in E.
  rewrite Z.lor_0_r in E. rewrite E. by apply u16_id.
Qed.

Lemma signed_id low w z : 0 < w -> low <= z < low + 2 ^ w -> signed low w z = z.
Proof. intros. unfold signed. rewrite Z.mod_small; lia. Qed.

Lemma signed_mod low w z : 0 < w -> low <= z < low + 2 ^ w -> signed low w (z mod 2 ^ w) = z.
Proof.
  intros. unfold signed. rewrite Zminus_mod_idemp_l. rewrite Z.mod_small; lia.
Qed.

(** The two halves of a 32-bit number. *)
Lemma u32_halves v :
  fits 32 v -> Z.lor (u16 v) (u32 (Z.shiftl (u16 (Z.shiftr v 16)) 16)) = v.
Proof.
  intros Hv. assert (Hh : fits 16 (Z.shiftr v 16)) by by apply (fits_shiftr 16 16).
  rewrite (u16_id (Z.shiftr v 16)) by done.
  apply Z.bits_inj'. intros i Hi. unfold u16, u32. rewrite Z.lor_spec. apply fits_testbit in Hv as [_ Hv]; [|lia].
  destruct (Z.lt_ge_cases i 16); [|destruct (Z.lt_ge_cases i 32)].
  - rewrite !Z.mod_pow2_bits_low, Z.shiftl_spec_low, orb_false_r by lia. done.
  - rewrite Z.mod_pow2_bits_high, Z.mod_pow2_bits_low, Z.shiftl_spec, Z.shiftr_spec by lia.
    cbn [orb]. f_equal. lia.
  - rewrite !Z.mod_pow2_bits_high by lia. symmetry. by apply Hv.
Qed.

(** Both evaluation orders of [getUint32]: the second one swaps the halves. *)
Lemma getUint32_spec left_first m p v :
  fits 32 v -> at_read m p (le_bytes 4 v) ->
  getUint32 left_first (m, p) =
  (if left_first then v else Z.lor (u16 (Z.shiftr v 16)) (u32 (Z.shiftl (u16 v) 16)), advance 4 p).
Proof.
  intros Hv. rewrite le_bytes_4, at_read_app.
  change 0x0000FFFF with (Z.ones 16). rewrite Z.land_ones by lia.
  change (v mod 2 ^ 16) with (u16 v). rewrite (u16_id (u16 v)) by apply fits_u16.
  intros [H1%getUint16_spec H2%getUint16_spec]; [|apply fits_u16..].
  unfold getUint32. rewrite H1. cbn [fst]. change (Z.of_nat (length (le_bytes 2 (u16 v)))) with 2 in H2.
  rewrite H2, advance_twice. change (2 + 2) with 4. destruct left_first; [|done].
  f_equal. by apply u32_halves.
Qed.

Lemma strlen_spec m a str fuel :
  Forall (fun c => fits 8 c /\ c <> 0) str -> mem_range m a (length (str ++ [0])) = str ++ [0] ->
  (length str < fuel)%nat -> strlen fuel m a = Some (Z.of_nat (length str)).
Proof.
  intros Hs. revert a fuel. induction Hs as [|c str [_ Hc] _ IH]; intros a fuel; cbn -[Z.of_nat];
    (destruct fuel as [|fuel]; [lia|]); cbn [strlen].
  - intros [= ->] _. done.
  - intros [= Hm Hr] Hf. rewrite Hm. apply Z.eqb_neq in Hc as ->. rewrite (IH (a + 1)) by (done || lia).
    cbn -[Z.of_nat]. f_equal. lia.
Qed.

Lemma get_field_spec CHAR_MIN fuel m p f :
  field_ok CHAR_MIN f -> at_read m p (encode f) -> (length (encode f) <= fuel)%nat ->
  get_field CHAR_MIN true fuel (type_of f) (m, p) =
    Some (f, advance (Z.of_nat (length (encode f))) p).
Proof.
  intros Hf Hr Hl. destruct f as [v|v|v|v|v|str]; cbn [type_of get_field encode field_ok] in *.
  - by rewrite (getByte_spec m p v).
  - unfold getChar. rewrite (getByte_spec m p (u8 v)) by done. unfold u8. by rewrite signed_mod by lia.
  - by rewrite (getUint16_spec m p v).
  - unfold getInt16. rewrite (getUint16_spec m p (u16 v)); [|apply fits_u16|done].
    unfold u16. by rewrite signed_mod by lia.
  - by rewrite (getUint32_spec true m p v).
  - unfold getString. pose proof Hr as Hs. unfold at_read in Hs. rewrite length_app in Hl. cbn in Hl.
    rewrite (strlen_spec m _ str) by (done || lia). cbn -[Z.of_nat]. f_equal.
    replace (Z.to_nat _) with (length str) by (red_upd; lia).
    apply (at_read_app m p str [0]) in Hr as [Hr _]. unfold at_read in Hr. rewrite Hr.
    f_equal. unfold advance. red_upd. f_equal. rewrite length_app. cbn -[Z.of_nat]. lia.
Qed.

Lemma get_fields_spec CHAR_MIN fuel m p fs :
  Forall (field_ok CHAR_MIN) fs -> at_read m p (encoded fs) -> (length (encoded fs) <= fuel)%nat ->
  get_fields CHAR_MIN true fuel (type_of <$> fs) (m, p) =
    Some (fs, advance (Z.of_nat (length (encoded fs))) p).
Proof.
  intros Hf. revert p. induction Hf as [|f fs Hf _ IH]; intros p Hr Hl.
  { cbn. unfold advance. red_upd. by destruct p. }
  unfold encoded in *. cbn [fmap list_fmap concat get_fields] in *.
  apply at_read_app in Hr as [Hr Hrs]. rewrite length_app in Hl.
  rewrite get_field_spec by (done || lia). cbn [mbind option_bind fst].
  rewrite (IH (advance _ p)) by (done || lia). cbn [mbind option_bind].
  by rewrite advance_twice, length_app, Nat2Z.inj_add, Z.add_comm.
Qed.

(** ** Properties *)

(** C25: what is put into a packet is what is got out of it.  Clear a packet,
    put any sequence of values of the supported types that fits into the buffer (a string
    takes its length and one, and never less than two bytes), and get values of
    the same types: the same values come back, every byte has been read, and no byte
    of memory outside the buffer has changed.  The compiler must evaluate the operands of
    [|] in [getUint32] from left to right. *)
Theorem packet_roundtrip (CHAR_MIN : Z) (fs : list field) (m : memory) (p : IPacket)
  (Hok : Forall (field_ok CHAR_MIN) fs) (Hsize : m_size p < 2 ^ 31) (Hfit : fields_fit fs (m_size p)) :
  let '(m', p') := foldl put_field (m, clear p) fs in
  exists p'', get_fields CHAR_MIN true (Z.to_nat (m_size p)) (type_of <$> fs) (m', p') = Some (fs, p'') /\
    availableBytes p'' = 0 /\ m_len p' <= m_size p /\
    forall x, x < m_buf p \/ m_buf p + m_size p <= x -> m' x = m x.
Proof.
  pose proof (put_fields_appended CHAR_MIN fs m (clear p) Hok ltac:(done) Hsize) as Hput.
  cbn [clear m_len m_size] in Hput. red_upd. rewrite Z.sub_0_r in Hput. specialize (Hput Hfit).
  destruct (foldl put_field (m, clear p) fs) as [m' p'].
  destruct Hput as (-> & Hr & Hout).
  assert (Hlen : Z.of_nat (length (encoded fs)) <= m_size p).
  { clear -Hfit. revert Hfit. generalize (m_size p). induction fs as [|f fs IH]; intros room; [cbn; lia|].
    intros [H1 H2%IH]. unfold encoded in *. cbn [fmap list_fmap concat]. rewrite length_app. lia. }
  eexists. split; [apply get_fields_spec; [done| |lia]|split_and!].
  - unfold at_read. exact Hr.
  - unfold availableBytes, advance. red_upd. by rewrite Z.add_0_r, Z.sub_diag.
  - red_upd. lia.
  - intros x Hx. apply Hout. red_upd. lia.
Qed.

(** Five fields in a buffer of 32 bytes at address 0x100. *)
Definition sample_fields : list field :=
  [FByte 5; FChar (-1); FInt16 (-2); FUint32 0xDEADBEEF; FString [104; 105]].

Lemma packet_roundtrip_witness :
  let '(m', p') := foldl put_field (fun _ => 0, clear (packet_on 0x100 32)) sample_fields in
  exists p'', get_fields (-128) true 32 [TByte; TChar; TInt16; TUint32; TString] (m', p') =
      Some (sample_fields, p'') /\
    availableBytes p'' = 0 /\ m_len p' <= 32 /\
    forall x, x < 0x100 \/ 0x100 + 32 <= x -> m' x = 0.
Proof.
  exact (packet_roundtrip (-128) sample_fields (fun _ => 0) (packet_on 0x100 32)
           ltac:(repeat constructor; done) ltac:(done) ltac:(by repeat split)).
Defined.

(** Putting a string, on every branch.  With room for two bytes or more the
    string is cut to the room, terminated, and nothing outside the buffer changes; with
    room for one byte nothing at all is written.  But when the packet is full, the room is
    -1, which [strncpy] takes for the largest [size_t]: the string is written behind
    the buffer and all memory after it is cleared, and the last byte of the packet
    is lost. *)
Theorem packet_put_string (str : list Z) (m : memory) (p : IPacket)
  (Hlen : 0 <= m_len p <= m_size p) (Hsize : m_size p < 2 ^ 31) :
  let '(m', p') := put_string str (m, p) in
  if 1 <? m_size p - m_len p then
    appended (m, p) (take (Z.to_nat (m_size p - m_len p - 1)) str ++ [0]) (m', p')
  else if m_size p - m_len p =? 1 then (m', p') = (m, p)
  else p' = p /\ m' (m_buf p + m_size p - 1) = 0 /\
       forall i, 0 <= i < 2 ^ 64 - 1 -> m' (m_buf p + m_size p + i) = load str i.
Proof.
  destruct (Z.ltb_spec 1 (m_size p - m_len p)).
  { pose proof (put_string_truncates str m p ltac:(lia) Hsize ltac:(unfold room_left; lia)) as H1.
    by destruct (put_string str (m, p)). }
  destruct (Z.eqb_spec (m_size p - m_len p) 1) as [E|E].
  { unfold put_string. by rewrite E. }
  assert (Hl : m_len p = m_size p) by lia.
  unfold put_string. rewrite Hl. replace (m_size p - m_size p - 1) with (-1) by lia.
  change (-1 =? 0) with false. cbn [push_byte]. red_upd.
  destruct (Z.ltb_spec (Z.of_nat (length str)) (-1)); [lia|]. rewrite Hl. split_and!.
  - destruct p. red_upd. f_equal. lia.
  - replace (m_buf p + m_size p - 1) with (m_buf p + (-1 + m_size p)) by lia. by rewrite mem_write_in.
  - intros i Hi. rewrite mem_write_out by lia. unfold strncpy. change (size_t (-1)) with (2 ^ 64 - 1).
    rewrite (proj2 (Z.leb_le _ _)), (proj2 (Z.ltb_lt _ _)) by lia. cbn [andb]. f_equal. lia.
Qed.

(** A full packet of two bytes: the neighbour at address 0x102 is overwritten. *)
Lemma packet_put_string_witness :
  let s := put_uint16 0x0201 (fun _ => 9, packet_on 0x100 2) in
  0 <= m_len (snd s) <= m_size (snd s) /\ fst (put_string [104; 105] s) 0x102 = 104.
Proof.
  intros s. split; [by vm_compute|].
  pose proof (packet_put_string [104; 105] (fst s) (snd s) ltac:(by vm_compute) ltac:(done)) as H.
  rewrite <- surjective_pairing in H. destruct (put_string [104; 105] s) as [m' p'].
  destruct H as (_ & _ & H). exact (H 0 ltac:(lia)).
Defined.
