(* ===== verification/TinyList.v ===== *)
(** * Linked lists (src/hal/tiny_list.c)

    Intrusive doubly linked lists over a memory of elements.  An address is a
    [Z], 0 is [NULL]; an operation that dereferences an address without an
    element, or locks the mutex while it is held, has no result. *)

From stdpp Require Import gmap.
From S2P Require Import Prelude.

(** ** State *)

Record list_element : Type := mk_list_element {
  pnext : Z;
  pprev : Z
}.

#[export] Instance eta_list_element : Eta list_element := fun e =>
  mk_list_element (pnext e) (pprev e).

(** The elements in memory and the static variables of the file. *)
Record list_state : Type := mk_list_state {
  elements : gmap Z list_element;
  s_uid : Z;
  s_mutex : bool;
  list_initialized : bool
}.

#[export] Instance eta_list_state : Eta list_state := fun s =>
  mk_list_state (elements s) (s_uid s) (s_mutex s) (list_initialized s).

(** ** Operations *)

Definition lock (s : list_state) : option list_state :=
  if s_mutex s then None else Some (s <| s_mutex := true |>).

Definition unlock (s : list_state) : list_state := s <| s_mutex := false |>.

(** [a->field = ...] *)
Definition store (a : Z) (f : list_element -> list_element) (s : list_state) : option list_state :=
  match elements s !! a with
  | Some e => Some (s <| elements ::= <[a := f e]> |>)
  | None => None
  end.

Definition tiny_list_init (s : list_state) : list_state :=
  if list_initialized s then s else s <| list_initialized := true |> <| s_mutex := false |>.

(** The result, the new head and the state. *)
Definition tiny_list_add (head element : Z) (s : list_state) : option (Z * Z * list_state) :=
  s ← lock s;
  let uid := s_uid s in
  let s := s <| s_uid := u16 (uid + 1) |> in
  s ← store element (fun e => e <| pnext := head |> <| pprev := 0 |>) s;
  s ← (if negb (head =? 0) then store head (fun e => e <| pprev := element |>) s else Some s);
  Some (Z.land uid 0x0FFF, element, unlock s).

(** The branches of [tiny_list_remove]: the head and the state without [element]. *)
Definition unlink (head element : Z) (s : list_state) : option (Z * list_state) :=
  e ← elements s !! element;
  if element =? head then
    let head := pnext e in
    s ← (if negb (head =? 0) then store head (fun e => e <| pprev := 0 |>) s else Some s);
    Some (head, s)
  else
    s ← (if negb (pprev e =? 0) then store (pprev e) (fun p => p <| pnext := pnext e |>) s else Some s);
    e ← elements s !! element;
    s ← (if negb (pnext e =? 0) then store (pnext e) (fun n => n <| pprev := pprev e |>) s else Some s);
    Some (head, s).

Definition tiny_list_remove (head element : Z) (s : list_state) : option (Z * list_state) :=
  s ← lock s;
  '(head, s) ← unlink head element s;
  s ← store element (fun e => e <| pprev := 0 |> <| pnext := 0 |>) s;
  Some (head, unlock s).

Definition tiny_list_clear (head : Z) (s : list_state) : option (Z * list_state) :=
  s ← lock s; Some (0, unlock s).

(** The loop of [tiny_list_enumerate]; [enumerate_func] acts on the caller's own
    data [u].  No result when the fuel runs out. *)
Fixpoint enumerate_loop {U} (fuel : nat) (enumerate_func : Z -> Z -> U -> Z * U) (data head : Z)
  (s : list_state) (u : U) : option U :=
  match fuel with
  | O => None
  | S fuel =>
      if head =? 0 then Some u else
      let '(more, u) := enumerate_func head data u in
      if more =? 0 then Some u
      else e ← elements s !! head; enumerate_loop fuel enumerate_func data (pnext e) s u
  end.

Definition tiny_list_enumerate {U} (fuel : nat) (enumerate_func : Z -> Z -> U -> Z * U) (data head : Z)
  (s : list_state) (u : U) : option (list_state * U) :=
  s ← lock s; u ← enumerate_loop fuel enumerate_func data head s u; Some (unlock s, u).

(** ** Representation *)

(** From [p] on, with [prev] before it, the memory links the elements [l] up to [q]. *)
Fixpoint segment (m : gmap Z list_element) (prev p : Z) (l : list Z) (q : Z) : Prop :=
  match l with
  | [] => p = q
  | a :: l =>
      p = a /\ a <> 0 /\
      exists next, m !! a = Some (mk_list_element next prev) /\ segment m a next l q
  end.

(** [head] is a list of the elements [l]. *)
Definition is_list (m : gmap Z list_element) (head : Z) (l : list Z) : Prop :=
  NoDup l /\ segment m 0 head l 0.

Definition last_or (prev : Z) (l : list Z) : Z := default prev (last l).

Lemma last_or_cons prev a l : last_or prev (a :: l) = last_or a l.
Proof. unfold last_or. rewrite last_cons. by destruct (last l). Qed.

Lemma last_or_in prev l : l <> [] -> last_or prev l ∈ l.
Proof.
  revert prev. induction l as [|a l IH]; intros prev; [done|]. intros _. rewrite last_or_cons.
  destruct l as [|b l]; [apply list_elem_of_here|]. apply list_elem_of_further. by apply IH.
Qed.

Lemma store_some a f s e :
  elements s !! a = Some e -> store a f s = Some (s <| elements ::= <[a := f e]> |>).
Proof. unfold store. by intros ->. Qed.

Lemma segment_ext m m' prev p l q :
  (forall a, a ∈ l -> m' !! a = m !! a) -> segment m prev p l q -> segment m' prev p l q.
Proof.
  revert prev p. induction l as [|a l IH]; intros prev p Hm; [done|]. cbn.
  intros (-> & Ha & next & Hn & Hs). split; [done|]. split; [done|]. exists next.
  rewrite Hm by apply list_elem_of_here. split; [done|]. apply IH; [|done].
  intros b Hb. apply Hm. by apply list_elem_of_further.
Qed.

Lemma segment_insert m prev p l q a e :
  a ∉ l -> segment m prev p l q -> segment (<[a := e]> m) prev p l q.
Proof. intros Ha. apply segment_ext. intros b Hb. apply lookup_insert_ne. by intros ->. Qed.

Lemma segment_app m prev p l k q :
  segment m prev p (l ++ k) q <-> exists r, segment m prev p l r /\ segment m (last_or prev l) r k q.
Proof.
  revert prev p. induction l as [|a l IH]; intros prev p; cbn.
  - split; [by exists p|]. by intros (r & -> & H).
  - split.
    + intros (-> & Ha & next & Hn & Hs). apply IH in Hs as (r & H1 & H2). exists r.
      rewrite last_or_cons. split; [|done]. split; [done|]. split; [done|]. by exists next.
    + intros (r & (-> & Ha & next & Hn & Hs) & H2). rewrite last_or_cons in H2.
      split; [done|]. split; [done|]. exists next. split; [done|]. apply IH. by exists r.
Qed.

Lemma segment_nonzero m prev p l q a : segment m prev p l q -> a ∈ l -> a <> 0.
Proof.
  intros Hs Ha. apply list_elem_of_split in Ha as (l1 & l2 & ->).
  by apply segment_app in Hs as (r & _ & _ & Hne & _).
Qed.

Lemma segment_null m prev l : segment m prev 0 l 0 -> l = [].
Proof. destruct l as [|a l]; [done|]. by intros (E & Ha & _). Qed.

(** Changing the back link of the first element. *)
Lemma segment_set_prev m prev prev' p l q :
  NoDup l -> segment m prev p l q -> l <> [] ->
  exists next, m !! p = Some (mk_list_element next prev) /\
    segment (<[p := mk_list_element next prev']> m) prev' p l q.
Proof.
  destruct l as [|a l]; [done|]. intros [Hnotin Hnd]%NoDup_cons (-> & Ha & next & Hn & Hs) _.
  exists next. split; [done|]. split; [done|]. split; [done|]. exists next.
  rewrite lookup_insert_eq. split; [done|]. by apply segment_insert.
Qed.

(** Changing the forward link of the last element. *)
Lemma segment_set_next m prev p l q q' :
  NoDup l -> segment m prev p l q -> l <> [] ->
  exists pv, m !! last_or prev l = Some (mk_list_element q pv) /\
    segment (<[last_or prev l := mk_list_element q' pv]> m) prev p l q'.
Proof.
  destruct l as [|a l _] using rev_ind; [done|]. intros Hnd Hs _.
  apply NoDup_app in Hnd as (_ & Hdis & _). apply segment_app in Hs as (r & H1 & -> & Ha & next & Hn & <-).
  assert (Hlast : last_or prev (l ++ [a]) = a) by (unfold last_or; by rewrite last_snoc).
  assert (Hnotin : a ∉ l) by (intros Hin; by apply (Hdis a Hin), list_elem_of_singleton).
  rewrite Hlast. exists (last_or prev l). split; [done|]. apply segment_app. exists a.
  split; [by apply segment_insert|]. split; [done|]. split; [done|]. exists q'.
  by rewrite lookup_insert_eq.
Qed.

Lemma segment_head_in m prev p l : segment m prev p l 0 -> p <> 0 -> p ∈ l.
Proof. destruct l as [|a l]; [done|]. intros (-> & _) _. apply list_elem_of_here. Qed.

(** [if ( p ) p->pprev = prev'] at the start of a list, and [prev->pnext = q'] at
    the end of one. *)
Lemma relink_prev s prev prev' p l :
  NoDup l -> segment (elements s) prev p l 0 ->
  exists m, (if negb (p =? 0) then store p (fun e => e <| pprev := prev' |>) s else Some s) =
      Some (s <| elements := m |>) /\
    segment m prev' p l 0 /\ forall a, a ∉ l -> m !! a = elements s !! a.
Proof.
  intros Hnd Hs. destruct (Z.eqb_spec p 0) as [->|Hp]; cbn [negb].
  - apply segment_null in Hs as Hnil. subst l. exists (elements s). by destruct s.
  - pose proof (segment_head_in _ _ _ _ Hs Hp) as Hin.
    destruct (segment_set_prev (elements s) prev prev' p l 0 Hnd Hs) as (next & Hn & Hseg).
    { intros ->. by apply elem_of_nil in Hin. }
    eexists. split; [by apply (store_some p _ _ _ Hn)|]. split; [exact Hseg|].
    intros a Ha. apply lookup_insert_ne. by intros ->.
Qed.

Lemma relink_next s p l q q' :
  NoDup l -> segment (elements s) 0 p l q -> l <> [] ->
  exists m, store (last_or 0 l) (fun e => e <| pnext := q' |>) s = Some (s <| elements := m |>) /\
    segment m 0 p l q' /\ forall a, a ∉ l -> m !! a = elements s !! a.
Proof.
  intros Hnd Hs Hl. destruct (segment_set_next (elements s) 0 p l q q' Hnd Hs Hl) as (pv & Hp & Hseg).
  eexists. split; [by apply (store_some _ _ _ _ Hp)|]. split; [exact Hseg|].
  intros a Ha. apply lookup_insert_ne. intros <-. by apply Ha, last_or_in.
Qed.

(** ** Properties *)

(** [tiny_list_add] puts the element in front.  For an element in memory that is
    not in the list, with the mutex free, the result is the low twelve bits of the
    counter (which wraps at 2^16), the new head is the element, the list is the
    old one behind it, and no element outside the new list changes. *)
Theorem tiny_list_add_front (head element : Z) (l : list Z) (s : list_state)
  (Hmutex : s_mutex s = false) (Hl : is_list (elements s) head l)
  (Hin : is_Some (elements s !! element)) (Hnew : element ∉ l) (Hnz : element <> 0) :
  exists s', tiny_list_add head element s = Some (Z.land (s_uid s) 0x0FFF, element, s') /\
    s_mutex s' = false /\ s_uid s' = u16 (s_uid s + 1) /\
    is_list (elements s') element (element :: l) /\
    forall a, a ∉ element :: l -> elements s' !! a = elements s !! a.
Proof.
  destruct Hl as [Hnd Hs], Hin as [e He]. unfold tiny_list_add, lock. rewrite Hmutex. cbn.
  rewrite (store_some element _ _ e) by done. cbn. set (s1 := _ <| elements ::= _ |>).
  destruct (relink_prev s1 0 element head l Hnd) as (m & -> & Hseg & Hm); [by apply segment_insert|].
  eexists. split; [reflexivity|]. cbn. split_and!; try done.
  - split; [by apply NoDup_cons|]. split; [done|]. split; [done|]. exists head. split; [|done].
    rewrite Hm by done. apply lookup_insert_eq.
  - intros a [Ha Hal]%not_elem_of_cons. rewrite Hm by done. by apply lookup_insert_ne.
Qed.

(** What both branches of the removal achieve. *)
Definition unlinked (head element : Z) (l1 l2 : list Z) (s : list_state) : Prop :=
  exists head' m, unlink head element s = Some (head', s <| elements := m |>) /\
    segment m 0 head' (l1 ++ l2) 0 /\ is_Some (m !! element) /\
    forall a, a ∉ l1 ++ element :: l2 -> m !! a = elements s !! a.

Lemma unlink_head head element l s :
  is_list (elements s) head (element :: l) -> unlinked head element [] l s.
Proof.
  intros [[Hn Hnd]%NoDup_cons (-> & Hnz & next & He & Hs)].
  destruct (relink_prev s element 0 next l Hnd Hs) as (m & Hrun & Hseg & Hm).
  exists next, m. split_and!; [|done|by rewrite Hm, He|].
  - unfold unlink. rewrite He. cbn. rewrite Z.eqb_refl, Hrun. done.
  - intros a [_ Ha]%not_elem_of_cons. by apply Hm.
Qed.

Lemma unlink_inner head element l1 l2 s :
  l1 <> [] -> is_list (elements s) head (l1 ++ element :: l2) -> unlinked head element l1 l2 s.
Proof.
  intros Hl1 [Hnd Hs]. apply NoDup_app in Hnd as (Hnd1 & Hdis & [Hn2 Hnd2]%NoDup_cons).
  assert (Hn1 : element ∉ l1) by (intros Hin; apply (Hdis _ Hin), list_elem_of_here).
  apply segment_app in Hs as (r & H1 & -> & Hnz & next & He & H2).
  pose proof (last_or_in 0 l1 Hl1) as Hpv. pose proof (segment_nonzero _ _ _ _ _ _ H1 Hpv) as Hpv0.
  assert (Hhead : element <> head).
  { intros ->. destruct l1 as [|b l1]; [done|]. destruct H1 as (-> & _). apply Hn1, list_elem_of_here. }
  destruct (relink_next s head l1 element next Hnd1 H1 Hl1) as (m1 & Hrun1 & Hseg1 & Hm1).
  destruct (relink_prev (s <| elements := m1 |>) element (last_or 0 l1) next l2 Hnd2)
    as (m2 & Hrun2 & Hseg2 & Hm2).
  { eapply segment_ext; [|exact H2]. intros a Ha. apply Hm1. intros Hin. apply (Hdis a Hin).
    by apply list_elem_of_further. }
  exists head, m2. split_and!.
  - unfold unlink. rewrite He. cbn. rewrite (proj2 (Z.eqb_neq element head)) by done.
    rewrite (proj2 (Z.eqb_neq (last_or 0 l1) 0)) by done. cbn [negb]. rewrite Hrun1. cbn.
    rewrite Hm1, He by done. cbn. rewrite Hrun2. done.
  - apply segment_app. exists next. split; [|done]. eapply segment_ext; [|exact Hseg1].
    intros a Ha. apply Hm2. intros Hin. apply (Hdis a Ha). by apply list_elem_of_further.
  - by rewrite Hm2, Hm1, He by done.
  - intros a [Ha1 [_ Ha2]%not_elem_of_cons]%not_elem_of_app. by rewrite Hm2, Hm1 by done.
Qed.

(** [tiny_list_remove] takes the element out and clears its links, wherever it
    is: the head, the middle or the end.  The others stay in order, and elements
    outside the list do not change. *)
Theorem tiny_list_remove_element (head element : Z) (l1 l2 : list Z) (s : list_state)
  (Hmutex : s_mutex s = false) (Hl : is_list (elements s) head (l1 ++ element :: l2)) :
  exists head' s', tiny_list_remove head element s = Some (head', s') /\
    s_mutex s' = false /\ s_uid s' = s_uid s /\
    is_list (elements s') head' (l1 ++ l2) /\
    elements s' !! element = Some (mk_list_element 0 0) /\
    forall a, a ∉ l1 ++ element :: l2 -> elements s' !! a = elements s !! a.
Proof.
  set (s1 := s <| s_mutex := true |>). change (elements s) with (elements s1) in *.
  assert (Hu : unlinked head element l1 l2 s1).
  { destruct l1; [by apply unlink_head|by apply unlink_inner]. }
  destruct Hu as (head' & m & Hrun & Hseg & [e He] & Hm). destruct Hl as [Hnd _].
  apply NoDup_app in Hnd as (Hnd1 & Hdis & [Hn2 Hnd2]%NoDup_cons).
  assert (Hnotin : element ∉ l1 ++ l2).
  { intros [Hin|Hin]%elem_of_app; [apply (Hdis _ Hin), list_elem_of_here|done]. }
  unfold tiny_list_remove, lock. rewrite Hmutex. cbn [mbind option_bind]. fold s1. rewrite Hrun.
  cbn [mbind option_bind]. rewrite (store_some element _ _ e) by done.
  do 2 eexists. split; [reflexivity|]. cbn. split_and!; try done.
  - split; [|by apply segment_insert]. apply NoDup_app. split; [done|]. split; [|done].
    intros a Ha Hb. apply (Hdis a Ha). by apply list_elem_of_further.
  - by rewrite lookup_insert_eq.
  - intros a Ha. rewrite lookup_insert_ne; [by apply Hm|]. intros ->. apply Ha, elem_of_app.
    right. apply list_elem_of_here.
Qed.

(** The elements up to and including the first for which [enumerate_func] returns 0. *)
Fixpoint visit {U} (enumerate_func : Z -> Z -> U -> Z * U) (data : Z) (l : list Z) (u : U) : U :=
  match l with
  | [] => u
  | a :: l =>
      let '(more, u) := enumerate_func a data u in
      if more =? 0 then u else visit enumerate_func data l u
  end.

Lemma enumerate_loop_visit {U} (f : Z -> Z -> U -> Z * U) data l s u prev head fuel :
  segment (elements s) prev head l 0 -> (length l < fuel)%nat ->
  enumerate_loop fuel f data head s u = Some (visit f data l u).
Proof.
  revert prev head u fuel. induction l as [|a l IH]; intros prev head u fuel Hs Hf.
  - destruct fuel; [lia|]. cbn in Hs. subst head. done.
  - destruct fuel as [|fuel]; [lia|]. destruct Hs as (-> & Ha & next & He & Hs). cbn.
    rewrite (proj2 (Z.eqb_neq a 0)) by done. destruct (f a data u) as [more u'].
    destruct (more =? 0); [done|]. rewrite He. cbn. apply (IH a); [done|]. cbn in Hf. lia.
Qed.

(** [tiny_list_enumerate] terminates on a list and calls the function on its
    elements in order, stopping after the first that returns zero; the list is not
    changed and the mutex is released. *)
Theorem tiny_list_enumerate_order {U : Type} (f : Z -> Z -> U -> Z * U) (data head : Z) (l : list Z)
  (s : list_state) (u : U) (Hmutex : s_mutex s = false) (Hl : is_list (elements s) head l) :
  tiny_list_enumerate (S (length l)) f data head s u = Some (s, visit f data l u).
Proof.
  destruct Hl as [_ Hs]. unfold tiny_list_enumerate, lock. rewrite Hmutex. cbn [mbind option_bind].
  rewrite (enumerate_loop_visit f data l _ u 0) by (done || lia). cbn. destruct s. cbn in *. by subst.
Qed.

(** *** A list of two elements, and an element outside *)

Definition two_added : list_state :=
  mk_list_state (<[10 := mk_list_element 20 0]> (<[20 := mk_list_element 0 10]>
                  (<[30 := mk_list_element 0 0]> ∅))) 1 false true.

Lemma two_added_list : is_list (elements two_added) 10 [10; 20].
Proof.
  split; [apply (bool_decide_unpack _); by vm_compute|]. split; [done|]. split; [done|]. exists 20.
  split; [done|]. split; [done|]. split; [done|]. by exists 0.
Qed.

Lemma tiny_list_add_front_witness :
  exists s', tiny_list_add 10 30 two_added = Some (1, 30, s') /\
    is_list (elements s') 30 [30; 10; 20].
Proof.
  destruct (tiny_list_add_front 10 30 [10; 20] two_added eq_refl two_added_list)
    as (s' & H1 & _ & _ & H2 & _).
  - by exists (mk_list_element 0 0).
  - apply (bool_decide_unpack _). by vm_compute.
  - done.
  - exists s'. exact (conj H1 H2).
Defined.

Lemma tiny_list_remove_element_witness :
  exists s', tiny_list_remove 10 20 two_added = Some (10, s') /\ is_list (elements s') 10 [10].
Proof.
  destruct (tiny_list_remove_element 10 20 [10] [] two_added eq_refl two_added_list)
    as (head' & s' & H1 & _ & _ & H2 & _).
  assert (head' = 10) as -> by (destruct H2 as [_ (-> & _)]; done).
  exists s'. exact (conj H1 H2).
Defined.

Lemma tiny_list_enumerate_order_witness :
  tiny_list_enumerate 3 (fun a _ (u : list Z) => (1, u ++ [a])) 0 10 two_added [] =
    Some (two_added, [10; 20]).
Proof. exact (tiny_list_enumerate_order _ 0 10 [10; 20] two_added [] eq_refl two_added_list). Defined.
