(* ===== verification/Proto.v ===== *)
(** * The C++ protocol class (src/TinyProtocol.cpp, src/link/TinyLinkLayer.h)

    [Proto] keeps a pool of empty packets and a queue of received ones, both linked through
    the packets themselves, and sends through a link layer.  The link layer is an interface
    ([ILinkLayer]): its operations act on the whole world, since receiving calls [onReadCb].

    A packet is found at its address in [m_packets]; its data are in the memory [m_mem].  A
    function reads and writes an address that holds no packet without effect; the
    well-formedness of the lists (ProtoQueue.v) rules that out. *)

From stdpp Require Import gmap.
From S2P Require Import Prelude HdlcLL FdTypes Packet.

Definition PROTO_RX_MESSAGE : Z := 1.

(** An [int].  C leaves open what an overflow does; here the value wraps. *)
Definition s32 (z : Z) : Z := signed (- 2 ^ 31) 32 z.

(** ** State *)

(** The fields of [Proto], with the packets, the memory, the number of clock readings so far
    and the environment [E] (the channel and the application).  [m_threads] tells
    whether the two threads run; [m_mutex_misuse] records a lock of the locked mutex or an
    unlock of the free one. *)
Record proto (E : Type) : Type := mk_proto {
  m_multithread : bool;
  m_terminate : bool;
  m_pool : Z;
  m_queue : Z;
  m_last : Z;
  m_threads : bool;
  m_txDelay : Z;
  m_lostRxFrames : Z;
  m_events : Z;
  m_mutex : bool;
  m_mutex_misuse : bool;
  m_packets : gmap Z IPacket;
  m_mem : memory;
  m_clock : nat;
  m_env : E
}.
Arguments mk_proto {E}.
Arguments m_multithread {E}.
Arguments m_terminate {E}.
Arguments m_pool {E}.
Arguments m_queue {E}.
Arguments m_last {E}.
Arguments m_threads {E}.
Arguments m_txDelay {E}.
Arguments m_lostRxFrames {E}.
Arguments m_events {E}.
Arguments m_mutex {E}.
Arguments m_mutex_misuse {E}.
Arguments m_packets {E}.
Arguments m_mem {E}.
Arguments m_clock {E}.
Arguments m_env {E}.

#[export] Instance eta_proto {E} : Eta (proto E) := fun s =>
  mk_proto (m_multithread s) (m_terminate s) (m_pool s) (m_queue s) (m_last s) (m_threads s)
    (m_txDelay s) (m_lostRxFrames s) (m_events s) (m_mutex s) (m_mutex_misuse s) (m_packets s)
    (m_mem s) (m_clock s) (m_env s).

(** The constructor: [tiny_events_create] and [tiny_mutex_create]. *)
Definition proto_create {E} (multithread : bool) (packets : gmap Z IPacket) (mem : memory)
  (env : E) : proto E := {|
  m_multithread := multithread; m_terminate := true; m_pool := 0; m_queue := 0; m_last := 0;
  m_threads := false; m_txDelay := 0; m_lostRxFrames := 0; m_events := 0; m_mutex := false;
  m_mutex_misuse := false; m_packets := packets; m_mem := mem; m_clock := 0; m_env := env |}.

(** ** The pool and the queue *)

Section Queue.

Context {E : Type}.

Definition packet_at (s : proto E) (a : Z) : IPacket := default packet_default (m_packets s !! a).

(** An assignment to a field of the packet at [a]. *)
Definition upd_packet (a : Z) (f : IPacket -> IPacket) (s : proto E) : proto E :=
  s <| m_packets ::= alter f a |>.

Definition proto_lock (s : proto E) : proto E :=
  if m_mutex s then s <| m_mutex_misuse := true |> else s <| m_mutex := true |>.

Definition proto_unlock (s : proto E) : proto E :=
  if m_mutex s then s <| m_mutex := false |> else s <| m_mutex_misuse := true |>.

Definition proto_events_set (bits : Z) (s : proto E) : proto E := s <| m_events ::= events_set bits |>.

Definition set_next (a v : Z) : proto E -> proto E := upd_packet a (fun q => q <| m_next := v |>).
Definition set_prev (a v : Z) : proto E -> proto E := upd_packet a (fun q => q <| m_prev := v |>).

(** The parts of the critical section of [onRead] when the pool is not empty.  First, the
    packet [p] is removed from the pool. *)
Definition pool_pop (p : Z) (s : proto E) : proto E :=
  let s := s <| m_pool := m_next (packet_at s p) |> in
  if nz (m_pool s) then set_prev (m_pool s) 0 s else s.

(** Then it is added to the end of the queue. *)
Definition queue_append (p : Z) (s : proto E) : proto E :=
  let s := set_prev p (m_last s) (set_next p 0 s) in
  let s := if nz (m_last s) then set_next (m_last s) p s else s in
  let s := s <| m_last := p |> in
  if m_queue s =? 0 then s <| m_queue := p |> else s.

(** Then it gets the frame of [data], which is at [buf]. *)
Definition fill_packet (p buf : Z) (data : list Z) (s : proto E) : proto E :=
  let len := Z.of_nat (length data) in
  let s :=
    if m_size (packet_at s p) =? 0
    then upd_packet p (fun q => q <| m_buf := buf |> <| m_len := len |>) s
    else
      let s := upd_packet p (fun q => q <| m_len := if m_size q <? len then m_size q else len |>) s in
      s <| m_mem ::= fun m => mem_write_range m (m_buf (packet_at s p))
                                (take (Z.to_nat (m_len (packet_at s p))) data) |> in
  upd_packet p (fun q => q <| m_p := 0 |>) s.

(** The critical section of [onRead]. *)
Definition rx_enqueue (buf : Z) (data : list Z) (s : proto E) : proto E :=
  let p := m_pool s in
  if p =? 0 then s <| m_lostRxFrames ::= fun n => s32 (n + 1) |> else
  proto_events_set PROTO_RX_MESSAGE (fill_packet p buf data (queue_append p (pool_pop p s))).

(** The critical section of [read]: the first packet of the queue, or 0. *)
Definition rx_dequeue (s : proto E) : Z * proto E :=
  if m_queue s =? 0 then (0, s) else
  let p := m_queue s in
  let s := s <| m_queue := m_next (packet_at s p) |> in
  (p, if nz (m_queue s) then proto_events_set PROTO_RX_MESSAGE (set_prev (m_queue s) 0 s)
      else s <| m_last := 0 |>).

(** The critical section of [addRxPool]. *)
Definition pool_push (message : Z) (s : proto E) : proto E :=
  let s := set_prev message 0 (set_next message (m_pool s) s) in
  let s := if nz (m_pool s) then set_prev (m_pool s) message s else s in
  s <| m_pool := message |>.

Definition proto_addRxPool (message : Z) (s : proto E) : proto E :=
  proto_unlock (pool_push message (proto_lock s)).

Definition proto_release (message : Z) (s : proto E) : proto E := proto_addRxPool message s.

Definition proto_setTxDelay (delay : Z) (s : proto E) : proto E := s <| m_txDelay := delay |>.

Definition proto_getLostRxFrames (s : proto E) : Z * proto E :=
  let s := proto_lock s in
  (m_lostRxFrames s, proto_unlock (s <| m_lostRxFrames := 0 |>)).

End Queue.

(** ** The link layer *)

(** [ILinkLayer], on a state [L] of its own and the state of its owner. *)
Record ILinkLayer (L E : Type) : Type := mk_link_layer {
  lk_begin : L * proto E -> bool * (L * proto E);
  lk_end : L * proto E -> L * proto E;
  lk_runRx : L * proto E -> L * proto E;
  lk_runTx : L * proto E -> L * proto E;
  lk_put : Z -> Z -> Z -> L * proto E -> bool * (L * proto E);
  lk_flushTx : L * proto E -> L * proto E;
  lk_getTimeout : L -> Z;
  lk_setTimeout : Z -> L -> L
}.
Arguments lk_begin {L E}.
Arguments lk_end {L E}.
Arguments lk_runRx {L E}.
Arguments lk_runTx {L E}.
Arguments lk_put {L E}.
Arguments lk_flushTx {L E}.
Arguments lk_getTimeout {L E}.
Arguments lk_setTimeout {L E}.

(** ** Callbacks for the link layer *)

Section Callbacks.

Context {L E : Type}.

(** The callbacks of the application; each gets a packet on the frame. *)
Context (onRx onTx : option (IPacket -> L * proto E -> L * proto E)).

Definition frame_packet (buf len : Z) : IPacket := (packet_on buf len) <| m_len := len |>.

(** [onRead], which [onReadCb] calls: [data] are the bytes at [buf]. *)
Definition proto_onRead (buf : Z) (data : list Z) (w : L * proto E) : L * proto E :=
  match onRx with
  | Some cb => cb (frame_packet buf (Z.of_nat (length data))) w
  | None => (fst w, proto_unlock (rx_enqueue buf data (proto_lock (snd w))))
  end.

Definition proto_onSend (buf len : Z) (w : L * proto E) : L * proto E :=
  match onTx with
  | Some cb => cb (frame_packet buf len) w
  | None => w
  end.

End Callbacks.

(** ** Operations *)

Section Proto.

Context {L E : Type} (link : ILinkLayer L E) (millis : nat -> Z).

(** What the other threads do while this one waits. *)
Context (others : Z -> L * proto E -> L * proto E).

Definition proto_millis (w : L * proto E) : Z * (L * proto E) :=
  (u32 (millis (m_clock (snd w))), (fst w, (snd w) <| m_clock ::= S |>)).

(** [tiny_events_wait( &m_events, bits, EVENT_BITS_CLEAR, timeout )] *)
Definition proto_events_poll (bits : Z) (w : L * proto E) : Z * (L * proto E) :=
  let locked := m_events (snd w) in
  if nz (Z.land locked bits) then (locked, (fst w, (snd w) <| m_events ::= events_clear bits |>))
  else (0, w).

Definition proto_events_wait (bits timeout : Z) (w : L * proto E) : Z * (L * proto E) :=
  let '(locked, w1) := proto_events_poll bits w in
  if nz locked then (locked, w1)
  else if timeout =? 0 then (0, w)
  else proto_events_poll bits (others timeout w).

(** With thread support. *)
Definition proto_begin (w : L * proto E) : bool * (L * proto E) :=
  let timeout := lk_getTimeout link (fst w) in
  let timeout := if m_multithread (snd w) && (timeout =? 0) then 1000
                 else if negb (m_multithread (snd w)) then 0 else timeout in
  let '(ok, w) := lk_begin link (lk_setTimeout link timeout (fst w), snd w) in
  if negb ok then (false, (fst w, (snd w) <| m_terminate := true |>)) else
  (true, if m_multithread (snd w)
         then (fst w, (snd w) <| m_terminate := false |> <| m_threads := true |>) else w).

(** The loop of [send], which began at [startTs], for a packet of [len] bytes at [buf];
    [None] means the fuel ran out. *)
Fixpoint send_loop (fuel : nat) (startTs buf len timeout : Z) (w : L * proto E)
  : option (bool * (L * proto E)) :=
  match fuel with
  | O => None
  | S fuel =>
      let '(result, w) :=
        lk_put link buf len (if m_multithread (snd w) then timeout else 0) w in
      if result then Some (true, w) else
      let '(now, w) := proto_millis w in
      if timeout <=? u32 (now - startTs) then Some (false, lk_flushTx link w) else
      let w := if m_multithread (snd w) then w else lk_runRx link (lk_runTx link w) in
      send_loop fuel startTs buf len timeout w
  end.

Definition proto_send (fuel : nat) (packet : IPacket) (timeout : Z) (w : L * proto E)
  : option (bool * (L * proto E)) :=
  let '(startTs, w) := proto_millis w in
  send_loop fuel startTs (m_buf packet) (m_len packet) timeout w.

(** The critical section of [read] with its lock. *)
Definition read_locked (w : L * proto E) : Z * (L * proto E) :=
  let '(p, s) := rx_dequeue (proto_lock (snd w)) in (p, (fst w, proto_unlock s)).

Fixpoint read_loop (fuel : nat) (startTs timeout : Z) (w : L * proto E)
  : option (Z * (L * proto E)) :=
  match fuel with
  | O => None
  | S fuel =>
      let '(_, w) :=
        proto_events_wait PROTO_RX_MESSAGE (if m_multithread (snd w) then timeout else 0) w in
      let '(p, w) := read_locked w in
      if nz p then Some (p, w) else
      let w := if m_multithread (snd w) then w else lk_runRx link (lk_runTx link w) in
      let '(now, w) := proto_millis w in
      if timeout <=? u32 (now - startTs) then Some (0, w)
      else read_loop fuel startTs timeout w
  end.

(** [read]: the address of a packet, or 0. *)
Definition proto_read (fuel : nat) (timeout : Z) (w : L * proto E) : option (Z * (L * proto E)) :=
  let '(startTs, w) := proto_millis w in read_loop fuel startTs timeout w.

(** Joining the threads lets them end. *)
Definition proto_end (w : L * proto E) : L * proto E :=
  if m_terminate (snd w) then w else
  lk_end link (fst w, (snd w) <| m_terminate := true |> <| m_threads := false |>).

(** The bodies of the two threads; [others] is what happens between two rounds. *)
Fixpoint thread_loop (run : L * proto E -> L * proto E) (fuel : nat) (w : L * proto E)
  : option (L * proto E) :=
  match fuel with
  | O => None
  | S fuel => if m_terminate (snd w) then Some w else thread_loop run fuel (others 0 (run w))
  end.

Definition proto_runTx (fuel : nat) (w : L * proto E) : option (L * proto E) :=
  if m_multithread (snd w) then
    let w := if nz (m_txDelay (snd w)) then others (m_txDelay (snd w)) w else w in
    thread_loop (lk_runTx link) fuel w
  else Some w.

Definition proto_runRx (fuel : nat) (w : L * proto E) : option (L * proto E) :=
  if m_multithread (snd w) then thread_loop (lk_runRx link) fuel w else Some w.

End Proto.
