(* ===== verification/ProtoFlow.v ===== *)
(** * The packets of a protocol object under every interleaving

    A step relation for [Proto] with several threads: the link thread receives frames, readers
    wait and take packets, the application uses the packets it holds and gives them back.
    Every step is one of the atomic parts of the operations of Proto.v: a critical section
    of [m_mutex], or an access to the event group. *)

From stdpp Require Import gmap relations.
From S2P Require Import Prelude HdlcLL HdlcTx FdTypes Packet TinyList Proto ProtoQueue.

(** ** Steps *)

(** The state, and what happened so far: the number of readers between their wait and the
    lock, the packets the application holds, the frames received, what was read (the packet
    and the bytes in it), and the sum of the results of [getLostRxFrames]. *)
Record flow (L E : Type) : Type := mk_flow {
  fl_world : L * proto E;
  fl_readers : nat;
  fl_held : list Z;
  fl_received : list (list Z);
  fl_read : list (Z * list Z);
  fl_reported : Z
}.
Arguments mk_flow {L E}.
Arguments fl_world {L E}.
Arguments fl_readers {L E}.
Arguments fl_held {L E}.
Arguments fl_received {L E}.
Arguments fl_read {L E}.
Arguments fl_reported {L E}.

(** The bytes of the frame in the packet at [a]. *)
Definition payload_at {E} (s : proto E) (a : Z) : list Z :=
  mem_range (m_mem s) (m_buf (packet_at s a)) (Z.to_nat (m_len (packet_at s a))).

(** What the owner of a packet may do: anything with the position and the length, and
    with the bytes of its own buffer. *)
Definition use_packet {E} (a len pos : Z) (bytes : memory) (s : proto E) : proto E :=
  let q := packet_at s a in
  (upd_packet a (fun q => q <| m_len := len |> <| m_p := pos |>) s)
    <| m_mem := fun x => if (m_buf q <=? x) && (x <? m_buf q + m_size q) then bytes x else m_mem s x |>.

Section Flow.

Context {L E : Type}.
Implicit Types (g : flow L E) (s : proto E).

(** No callback for received frames: the application reads. *)
Inductive flow_step : flow L E -> flow L E -> Prop :=
| flow_rx g buf data :
    flow_step g (mk_flow (proto_onRead None buf data (fl_world g)) (fl_readers g) (fl_held g)
                   (fl_received g ++ [data]) (fl_read g) (fl_reported g))
| flow_wait g :
    flow_step g (mk_flow (snd (proto_events_poll PROTO_RX_MESSAGE (fl_world g))) (S (fl_readers g))
                   (fl_held g) (fl_received g) (fl_read g) (fl_reported g))
| flow_read_none g w readers :
    fl_readers g = S readers -> read_locked (fl_world g) = (0, w) ->
    flow_step g (mk_flow w readers (fl_held g) (fl_received g) (fl_read g) (fl_reported g))
| flow_read_some g p w readers :
    fl_readers g = S readers -> read_locked (fl_world g) = (p, w) -> p <> 0 ->
    flow_step g (mk_flow w readers (p :: fl_held g) (fl_received g)
                   (fl_read g ++ [(p, payload_at (snd w) p)]) (fl_reported g))
| flow_use g p held len pos bytes :
    fl_held g ≡ₚ p :: held ->
    flow_step g (mk_flow (fst (fl_world g), use_packet p len pos bytes (snd (fl_world g)))
                   (fl_readers g) (fl_held g) (fl_received g) (fl_read g) (fl_reported g))
| flow_release g p held :
    fl_held g ≡ₚ p :: held ->
    flow_step g (mk_flow (fst (fl_world g), proto_release p (snd (fl_world g)))
                   (fl_readers g) held (fl_received g) (fl_read g) (fl_reported g))
| flow_lost g n s :
    proto_getLostRxFrames (snd (fl_world g)) = (n, s) ->
    flow_step g (mk_flow (fst (fl_world g), s) (fl_readers g) (fl_held g) (fl_received g)
                   (fl_read g) (fl_reported g + n)).

(** A new protocol object; the packets are with the application, which adds them to the pool
    with [addRxPool]. *)
Definition flow_start (l : L) (packets : gmap Z IPacket) (mem : memory) (env : E) : flow L E :=
  mk_flow (l, proto_create true packets mem env) 0 (map fst (map_to_list packets)) [] [] 0.

(** Every packet has a buffer of its own. *)
Record buffers_ok (packets : gmap Z IPacket) : Prop := mk_buffers_ok {
  bo_null : packets !! 0 = None;
  bo_size a q : packets !! a = Some q -> 0 < m_size q;
  bo_apart a b q r : packets !! a = Some q -> packets !! b = Some r -> a <> b ->
    m_buf q + m_size q <= m_buf r \/ m_buf r + m_size r <= m_buf q
}.

End Flow.

(** ** The data of the packets *)

Definition layout (packets : gmap Z IPacket) : gmap Z (Z * Z) := (fun q => (m_buf q, m_size q)) <$> packets.

Definition addresses (packets : gmap Z IPacket) : list Z := map fst (map_to_list packets).

Lemma elem_of_addresses packets a : a ∈ addresses packets <-> is_Some (packets !! a).
Proof.
  unfold addresses. rewrite list_elem_of_fmap. split.
  - intros ([b q] & -> & Hin%elem_of_map_to_list). by exists q.
  - intros [q Hq]. exists (a, q). split; [done|]. by apply elem_of_map_to_list.
Qed.

(** The frame in a packet is inside its buffer. *)
Definition fits_buffer {E} (s : proto E) (a : Z) : Prop := 0 <= m_len (packet_at s a) <= m_size (packet_at s a).

(** Only the packet at [p] and the bytes of its buffer differ. *)
Record only_packet {E} (p : Z) (s s' : proto E) : Prop := mk_only_packet {
  op_data a : a <> p -> data_of (packet_at s' a) = data_of (packet_at s a);
  op_mem x : x < m_buf (packet_at s p) \/ m_buf (packet_at s p) + m_size (packet_at s p) <= x ->
    m_mem s' x = m_mem s x;
  op_layout : layout (m_packets s') = layout (m_packets s);
  op_links : links s' = links s
}.

Section Data.

Context {E : Type} (packets : gmap Z IPacket) (Hbuf : buffers_ok packets).
Implicit Types (s : proto E).

Lemma same_data_at s s' a : same_data s s' -> data_of (packet_at s' a) = data_of (packet_at s a).
Proof using Type.
  intros [Hp _]. apply (f_equal (fun m => m !! a)) in Hp. rewrite !lookup_fmap in Hp. unfold packet_at.
  destruct (m_packets s !! a), (m_packets s' !! a); cbn in *; congruence.
Qed.

Lemma same_data_payload s s' a : same_data s s' -> payload_at s' a = payload_at s a.
Proof using Type.
  intros Hs. pose proof (same_data_at s s' a Hs) as Hd. destruct Hs as [_ Hm]. unfold payload_at, data_of in *.
  injection Hd as -> _ ->. by rewrite Hm.
Qed.

Lemma same_data_fits s s' a : same_data s s' -> fits_buffer s' a <-> fits_buffer s a.
Proof using Type.
  intros Hs. pose proof (same_data_at s s' a Hs) as Hd. unfold fits_buffer, data_of in *.
  by injection Hd as _ -> ->.
Qed.

Lemma same_data_layout s s' : same_data s s' -> layout (m_packets s') = layout (m_packets s).
Proof using Type.
  intros [Hp _]. apply map_eq. intros a. apply (f_equal (fun m => m !! a)) in Hp.
  unfold layout. rewrite !lookup_fmap in *. unfold data_of in Hp.
  destruct (m_packets s !! a), (m_packets s' !! a); cbn in *; congruence.
Qed.

Lemma same_data_some s s' a : same_data s s' -> is_Some (m_packets s !! a) -> is_Some (m_packets s' !! a).
Proof using Type.
  intros [Hp _]. apply (f_equal (fun m => m !! a)) in Hp. rewrite !lookup_fmap in Hp.
  destruct (m_packets s !! a), (m_packets s' !! a); cbn in Hp; [done|discriminate|by intros []..].
Qed.

Lemma layout_at s a q :
  layout (m_packets s) = layout packets -> packets !! a = Some q ->
  m_buf (packet_at s a) = m_buf q /\ m_size (packet_at s a) = m_size q /\ is_Some (links s !! a).
Proof using Type.
  intros Hl Hq. apply (f_equal (fun m => m !! a)) in Hl. unfold layout, packet_at, links in *.
  rewrite !lookup_fmap, Hq in *. destruct (m_packets s !! a); cbn in *; [|done].
  injection Hl as H1 H2. split_and!; [done..|by eexists].
Qed.

Lemma only_packet_payload p s s' a :
  layout (m_packets s) = layout packets -> only_packet p s s' -> a <> p ->
  is_Some (packets !! a) -> is_Some (packets !! p) -> fits_buffer s a ->
  payload_at s' a = payload_at s a /\ fits_buffer s' a.
Proof using Hbuf.
  intros Hl Ho Hne [q Hq] [r Hr] [Hlo Hhi]. pose proof (op_data _ _ _ Ho a Hne) as Hd.
  destruct (layout_at s a q Hl Hq) as (Hb & Hs & _), (layout_at s p r Hl Hr) as (Hb' & Hs' & _).
  pose proof (bo_apart _ Hbuf a p q r Hq Hr Hne). unfold payload_at, fits_buffer, data_of in *.
  injection Hd as -> -> ->. split; [|lia]. apply mem_range_ext. intros x Hx.
  apply (op_mem _ _ _ Ho). lia.
Qed.

End Data.

(** Filling a packet that has a buffer. *)
Lemma fill_packet_spec {E} p buf data (s : proto E) :
  is_Some (m_packets s !! p) -> 0 < m_size (packet_at s p) ->
  let s' := fill_packet p buf data s in
  only_packet p s s' /\ fits_buffer s' p /\
  payload_at s' p = take (Z.to_nat (m_size (packet_at s p))) data.
Proof.
  intros [q Hq] Hsize. assert (Hp : packet_at s p = q) by (unfold packet_at; by rewrite Hq).
  cbn zeta. unfold fill_packet. cbn zeta. rewrite Hp in *.
  assert ((m_size q =? 0) = false) as -> by (apply Z.eqb_neq; lia).
  set (n := if m_size q <? Z.of_nat (length data) then m_size q else Z.of_nat (length data)).
  assert (Hn : 0 <= n <= m_size q) by (unfold n; destruct (Z.ltb_spec (m_size q) (Z.of_nat (length data))); lia).
  assert (Htake : take (Z.to_nat n) data = take (Z.to_nat (m_size q)) data).
  { unfold n. destruct (Z.ltb_spec (m_size q) (Z.of_nat (length data))); [done|].
    rewrite !take_ge by lia. done. }
  assert (Hlen : length (take (Z.to_nat n) data) = Z.to_nat n).
  { rewrite length_take. unfold n. destruct (Z.ltb_spec (m_size q) (Z.of_nat (length data))); lia. }
  assert (Hat : forall f (t : proto E), packet_at (upd_packet p f t) p =
    match m_packets t !! p with Some r => f r | None => packet_default end).
  { intros f t. unfold packet_at, upd_packet. cbn. rewrite lookup_alter_eq. by destruct (m_packets t !! p). }
  assert (Hother : forall f (t : proto E) a, a <> p -> packet_at (upd_packet p f t) a = packet_at t a).
  { intros f t a Ha. unfold packet_at, upd_packet. cbn. by rewrite lookup_alter_ne. }
  rewrite Hat, Hq. cbn. fold n. rewrite Htake.
  match goal with |- only_packet _ _ ?t /\ _ => set (s' := t) end.
  assert (Hs' : packet_at s' p = (q <| m_len := n |> <| m_p := 0 |>)).
  { unfold s'. rewrite Hat. cbn. by rewrite lookup_alter_eq, Hq. }
  split_and!.
  - split.
    + intros a Ha. unfold s'. rewrite Hother by done. unfold packet_at. cbn. by rewrite lookup_alter_ne.
    + intros x Hx. rewrite Hp in Hx. cbn. apply mem_write_range_out. rewrite <- Htake, Hlen. lia.
    + unfold s', layout. cbn. apply map_eq. intros a. rewrite !lookup_fmap.
      destruct (decide (p = a)) as [<-|Hne].
      * by rewrite !lookup_alter_eq, Hq.
      * by rewrite !lookup_alter_ne.
    + unfold s'. rewrite links_upd_data by done. unfold links. cbn. apply map_eq. intros a.
      rewrite !lookup_fmap. destruct (decide (p = a)) as [<-|Hne]; [by rewrite lookup_alter_eq, Hq|].
      by rewrite lookup_alter_ne.
  - unfold fits_buffer. rewrite Hs'. cbn. lia.
  - unfold payload_at. rewrite Hs'. cbn. replace (Z.to_nat n) with (length (take (Z.to_nat (m_size q)) data)) by by rewrite <- Htake.
    apply mem_write_range_in.
Qed.

Lemma use_packet_only {E} p len pos bytes (s : proto E) : only_packet p s (use_packet p len pos bytes s).
Proof.
  split.
  - intros a Ha. unfold packet_at, use_packet, upd_packet. cbn. by rewrite lookup_alter_ne.
  - intros x Hx. cbn. destruct (Z.leb_spec (m_buf (packet_at s p)) x),
      (Z.ltb_spec x (m_buf (packet_at s p) + m_size (packet_at s p))); cbn; lia || done.
  - unfold layout, use_packet. cbn. apply map_eq. intros a. rewrite !lookup_fmap.
    destruct (decide (p = a)) as [<-|Hne]; [|by rewrite lookup_alter_ne].
    rewrite lookup_alter_eq. by destruct (m_packets s !! p).
  - apply links_upd_data. done.
Qed.

Lemma queues_ok_ext {E} (s s' : proto E) pool queue :
  links s' = links s -> m_pool s' = m_pool s -> m_queue s' = m_queue s -> m_last s' = m_last s ->
  queues_ok s pool queue -> queues_ok s' pool queue.
Proof. intros Hl Hp Hq Hz [H1 H2 H3 H4]. split; congruence. Qed.

(** ** The invariant *)

(** Where the packets are: the pool and the queue are lists, and with the packets of the
    application they are all packets. *)
Record state_ok {E} (packets : gmap Z IPacket) (s : proto E) (pool queue held : list Z) : Prop :=
  mk_state_ok {
    so_queues : queues_ok s pool queue;
    so_all : pool ++ queue ++ held ≡ₚ addresses packets;
    so_layout : layout (m_packets s) = layout packets;
    so_fits a : a ∈ queue -> fits_buffer s a
  }.

(** The fields the lists do not use. *)
Definition counters {E} (s : proto E) : bool * bool * Z := (m_mutex s, m_mutex_misuse s, m_lostRxFrames s).

Section Ops.

Context {E : Type} (packets : gmap Z IPacket) (Hbuf : buffers_ok packets).
Implicit Types (s : proto E).

Lemma addresses_nodup : NoDup (addresses packets).
Proof using Type. apply NoDup_fst_map_to_list. Qed.

Lemma state_nodup s pool queue held : state_ok packets s pool queue held -> NoDup (pool ++ queue ++ held).
Proof using Type. intros Hs. rewrite (so_all _ _ _ _ _ Hs). apply addresses_nodup. Qed.

Lemma state_packet s pool queue held a :
  state_ok packets s pool queue held -> a ∈ pool ++ queue ++ held ->
  is_Some (packets !! a) /\ is_Some (links s !! a) /\ a <> 0 /\ 0 < m_size (packet_at s a) /\
  is_Some (m_packets s !! a).
Proof using Hbuf.
  intros Hs Ha. rewrite (so_all _ _ _ _ _ Hs) in Ha. apply elem_of_addresses in Ha as [q Hq].
  destruct (layout_at packets s a q (so_layout _ _ _ _ _ Hs) Hq) as (_ & Hsize & [e He]).
  split_and!; [by eexists|by eexists| | |].
  - intros ->. pose proof (bo_null _ Hbuf). congruence.
  - rewrite Hsize. by apply (bo_size _ Hbuf a).
  - unfold links in He. rewrite lookup_fmap in He. by destruct (m_packets s !! a).
Qed.

(** Moves of packets: [same_data] and new lists. *)
Lemma state_ok_move s s' pool queue held pool' queue' held' :
  state_ok packets s pool queue held -> same_data s s' -> queues_ok s' pool' queue' ->
  pool' ++ queue' ++ held' ≡ₚ pool ++ queue ++ held -> (forall a, a ∈ queue' -> a ∈ queue) ->
  state_ok packets s' pool' queue' held'.
Proof using Type.
  intros Hs Hd Hq Hp Hin. split; [done| | |].
  - by rewrite Hp, (so_all _ _ _ _ _ Hs).
  - by rewrite (same_data_layout _ _ Hd), (so_layout _ _ _ _ _ Hs).
  - intros a Ha. apply (same_data_fits s s' a Hd), (so_fits _ _ _ _ _ Hs). by apply Hin.
Qed.

(** Changes of the data of a packet that is not queued. *)
Lemma state_ok_only s s' p pool queue held :
  state_ok packets s pool queue held -> only_packet p s s' -> (p ∉ queue) -> is_Some (packets !! p) ->
  m_pool s' = m_pool s -> m_queue s' = m_queue s -> m_last s' = m_last s ->
  state_ok packets s' pool queue held /\ forall a, a ∈ queue -> payload_at s' a = payload_at s a.
Proof using Hbuf.
  intros Hs Ho Hp Hsome H1 H2 H3.
  assert (Hkeep : forall a, a ∈ queue -> payload_at s' a = payload_at s a /\ fits_buffer s' a).
  { intros a Ha. apply (only_packet_payload packets Hbuf p s s' a); try done.
    - apply (so_layout _ _ _ _ _ Hs).
    - by intros ->.
    - apply (state_packet s pool queue held a Hs). apply elem_of_app. right. apply elem_of_app. by left.
    - by apply (so_fits _ _ _ _ _ Hs). }
  split; [|intros a Ha; by apply Hkeep]. split.
  - eapply queues_ok_ext; [apply (op_links _ _ _ Ho)|done..|apply (so_queues _ _ _ _ _ Hs)].
  - apply (so_all _ _ _ _ _ Hs).
  - by rewrite (op_layout _ _ _ Ho), (so_layout _ _ _ _ _ Hs).
  - intros a Ha. by apply Hkeep.
Qed.

(** Receiving a frame. *)
Lemma rx_enqueue_lost s queue held buf data :
  state_ok packets s [] queue held -> rx_enqueue buf data s = s <| m_lostRxFrames ::= fun n => s32 (n + 1) |>.
Proof using Type. intros Hs. unfold rx_enqueue. by rewrite (pool_empty s queue (so_queues _ _ _ _ _ Hs)). Qed.

Lemma events_set_fits bits s a : fits_buffer (proto_events_set bits s) a <-> fits_buffer s a.
Proof using Type. done. Qed.

Lemma events_set_payload bits s a : payload_at (proto_events_set bits s) a = payload_at s a.
Proof using Type. done. Qed.

(** A packet that went from the pool ([s]) to the queue ([s2]) and was filled ([s3]). *)
Lemma enqueued_ok s s2 s3 p pool queue held :
  state_ok packets s (p :: pool) queue held -> same_data s s2 -> queues_ok s2 pool (queue ++ [p]) ->
  only_packet p s2 s3 -> fits_buffer s3 p ->
  (m_pool s3, m_queue s3, m_last s3) = (m_pool s2, m_queue s2, m_last s2) ->
  state_ok packets s3 pool (queue ++ [p]) held /\ forall a, a ∈ queue -> payload_at s3 a = payload_at s a.
Proof using Hbuf.
  intros Hs Hd Hq2 Ho Hfit [= Hh1 Hh2 Hh3].
  assert (Hlay2 : layout (m_packets s2) = layout packets).
  { by rewrite (same_data_layout _ _ Hd), (so_layout _ _ _ _ _ Hs). }
  pose proof (state_nodup _ _ _ _ Hs) as [Hnot _]%NoDup_cons.
  assert (Hkeep : forall a, a ∈ queue -> payload_at s3 a = payload_at s a /\ fits_buffer s3 a).
  { intros a Ha. rewrite <- (same_data_payload s s2 a Hd).
    apply (only_packet_payload packets Hbuf p s2 s3 a); try done.
    - intros ->. apply Hnot, elem_of_app. right. apply elem_of_app. by left.
    - apply (state_packet s (p :: pool) queue held a Hs). apply elem_of_app. right. apply elem_of_app. by left.
    - apply (state_packet s (p :: pool) queue held p Hs). apply list_elem_of_here.
    - by apply (same_data_fits s s2 a Hd), (so_fits _ _ _ _ _ Hs). }
  split; [split|intros a Ha; by apply Hkeep].
  - eapply (queues_ok_ext s2); [apply (op_links _ _ _ Ho)|done..].
  - rewrite <- (so_all _ _ _ _ _ Hs). solve_Permutation.
  - by etransitivity; [apply (op_layout _ _ _ Ho)|].
  - intros a [Ha| ->%list_elem_of_singleton]%elem_of_app; [exact (proj2 (Hkeep a Ha))|done].
Qed.

Lemma pop_append_counters p s :
  counters (queue_append p (pool_pop p s)) = counters s.
Proof using Type.
  unfold queue_append, pool_pop. cbn zeta.
  repeat match goal with |- context [if ?b then _ else _] => destruct b end; done.
Qed.

Lemma fill_packet_rest p buf data s :
  let s' := fill_packet p buf data s in
  (m_pool s', m_queue s', m_last s') = (m_pool s, m_queue s, m_last s) /\ counters s' = counters s /\
  m_events s' = m_events s.
Proof using Type. unfold fill_packet. cbn zeta. by destruct (m_size (packet_at s p) =? 0). Qed.

Lemma rx_enqueue_ok s p pool queue held buf data :
  state_ok packets s (p :: pool) queue held ->
  let s' := rx_enqueue buf data s in
  state_ok packets s' pool (queue ++ [p]) held /\ counters s' = counters s /\
  m_events s' = events_set PROTO_RX_MESSAGE (m_events s) /\
  payload_at s' p = take (Z.to_nat (m_size (packet_at s p))) data /\
  forall a, a ∈ queue -> payload_at s' a = payload_at s a.
Proof using Hbuf.
  intros Hs. pose proof (so_queues _ _ _ _ _ Hs) as Hq. pose proof (pool_head _ _ _ _ Hq) as [Hh Hne].
  unfold rx_enqueue. rewrite Hh. assert ((p =? 0) = false) as -> by by apply Z.eqb_neq.
  destruct (pool_pop_ok s p pool queue Hq) as (Hq1 & Hnot & Hsome & Hd1 & _ & _ & He1).
  destruct (queue_append_ok _ p pool queue Hq1 Hnot Hsome Hne) as (Hq2 & Hd2 & _ & He2).
  pose proof (pop_append_counters p s) as Hc. pose proof (same_data_trans _ _ _ Hd1 Hd2) as Hd.
  rewrite He1 in He2. clear Hq1 Hnot Hsome Hd1 He1 Hd2.
  generalize dependent (queue_append p (pool_pop p s)). intros s2 Hq2 He2 Hc Hd.
  destruct (state_packet s _ _ _ p Hs) as (Hp & _ & _ & Hsize & Hsome); [apply list_elem_of_here|].
  assert (Hsize2 : m_size (packet_at s2 p) = m_size (packet_at s p)).
  { pose proof (same_data_at s s2 p Hd) as Hx. by injection Hx. }
  destruct (fill_packet_spec p buf data s2) as (Ho & Hfit & Hpay); [|lia|].
  { by apply (same_data_some s s2). }
  pose proof (fill_packet_rest p buf data s2) as (Hh1 & Hc1 & He1).
  generalize dependent (fill_packet p buf data s2). intros s3 Ho Hfit Hpay Hh1 Hc1 He1.
  destruct (enqueued_ok s s2 s3 p pool queue held Hs Hd Hq2 Ho Hfit Hh1) as [Hs3 Hkeep].
  split_and!.
  - destruct Hs3 as [Hx1 Hx2 Hx3 Hx4]. split; [|done..].
    by eapply (queues_ok_ext s3).
  - transitivity (counters s3); [done|congruence].
  - change (events_set PROTO_RX_MESSAGE (m_events s3) = events_set PROTO_RX_MESSAGE (m_events s)). congruence.
  - rewrite events_set_payload, Hpay. congruence.
  - intros a Ha. rewrite events_set_payload. by apply Hkeep.
Qed.

(** Reading. *)
Lemma rx_dequeue_state s p pool queue held :
  state_ok packets s pool (p :: queue) held ->
  exists s', rx_dequeue s = (p, s') /\ state_ok packets s' pool queue (p :: held) /\
    counters s' = counters s /\ (forall a, payload_at s' a = payload_at s a) /\
    m_events s' = (match queue with [] => m_events s | _ :: _ => events_set PROTO_RX_MESSAGE (m_events s) end).
Proof using Type.
  intros Hs. pose proof (so_queues _ _ _ _ _ Hs) as Hq.
  destruct (rx_dequeue_ok s p pool queue Hq) as (s' & Hr & Hq' & Hd & He). exists s'. split; [done|].
  split_and!.
  - eapply state_ok_move; [done..| |].
    + solve_Permutation.
    + intros a Ha. by apply list_elem_of_further.
  - unfold rx_dequeue in Hr. destruct (m_queue s =? 0); [by injection Hr as <- <-|].
    injection Hr as _ <-. by destruct (nz _).
  - intros a. by apply same_data_payload.
  - done.
Qed.

(** Giving a packet back. *)
Lemma pool_push_state s p pool queue held held' :
  state_ok packets s pool queue held -> held ≡ₚ p :: held' ->
  let s' := pool_push p s in
  state_ok packets s' (p :: pool) queue held' /\ counters s' = counters s /\ m_events s' = m_events s /\
  forall a, payload_at s' a = payload_at s a.
Proof using Hbuf.
  intros Hs Hp. pose proof (state_nodup _ _ _ _ Hs) as Hnd. rewrite Hp in Hnd.
  destruct (state_packet s pool queue held p Hs) as (_ & Hsome & Hne & _).
  { rewrite Hp. apply elem_of_app. right. apply elem_of_app. right. apply list_elem_of_here. }
  destruct (pool_push_ok s p pool queue (so_queues _ _ _ _ _ Hs)) as (Hq & Hd & He); [|done..|].
  { rewrite app_assoc in Hnd. apply NoDup_app in Hnd as (_ & Hdis & _). intros Hin.
    apply (Hdis p Hin). apply list_elem_of_here. }
  cbn zeta. split_and!; [|unfold pool_push; cbn zeta; by destruct (nz _)|done|].
  - eapply state_ok_move; [done..| |done]. rewrite Hp. solve_Permutation.
  - intros a. by apply same_data_payload.
Qed.

End Ops.

(** A frame of [data] in the packet at [p] is cut to the size of the packet. *)
Definition carries (packets : gmap Z IPacket) (r : Z * list Z) (data : list Z) : Prop :=
  exists q, packets !! fst r = Some q /\ snd r = take (Z.to_nat (m_size q)) data.

(** The frames in a list of packets. *)
Definition contents {E} (s : proto E) (l : list Z) : list (Z * list Z) := map (fun p => (p, payload_at s p)) l.

Definition rx_pending {E} (s : proto E) : bool := Z.testbit (m_events s) 0.

(** [lost] frames are counted by the numbers reported so far and the counter: exactly while an [int] can hold
    them all, and modulo 2^32 in any case. *)
Definition counted (lost reported counter : Z) : Prop :=
  (reported + counter) mod 2 ^ 32 = lost mod 2 ^ 32 /\
  (lost < 2 ^ 31 -> 0 <= reported /\ 0 <= counter /\ reported + counter = lost).

Lemma s32_mod z : s32 z mod 2 ^ 32 = z mod 2 ^ 32.
Proof. unfold s32, signed. rewrite Z.add_mod_idemp_r by lia. f_equal. lia. Qed.

Lemma counted_lost lost reported counter :
  counted lost reported counter -> counted (lost + 1) reported (s32 (counter + 1)).
Proof.
  intros [Hm He]. split.
  - rewrite <- Z.add_mod_idemp_r, s32_mod, Z.add_mod_idemp_r, Z.add_assoc by lia.
    rewrite <- Z.add_mod_idemp_l, Hm, Z.add_mod_idemp_l by lia. done.
  - intros Hl. destruct He as (H1 & H2 & H3); [lia|]. unfold s32. rewrite signed_id by lia. lia.
Qed.

Lemma counted_report lost reported counter : counted lost reported counter -> counted lost (reported + counter) 0.
Proof. intros [Hm He]. unfold counted. rewrite Z.add_0_r. split; [done|]. intros Hl. specialize (He Hl). lia. Qed.

(** The logs: what was read and what is queued is what was received, but for the frames
    counted as lost. *)
Record logs_ok {E} (packets : gmap Z IPacket) (s : proto E) (queue : list Z) (received : list (list Z))
  (read : list (Z * list Z)) (reported : Z) : Prop := mk_logs_ok {
  lo_mutex : m_mutex s = false;
  lo_misuse : m_mutex_misuse s = false;
  lo_order : exists accepted, sublist accepted received /\
    counted (Z.of_nat (length received) - Z.of_nat (length accepted)) reported (m_lostRxFrames s) /\
    Forall2 (carries packets) (read ++ contents s queue) accepted
}.

Definition flow_inv {L E} (packets : gmap Z IPacket) (g : flow L E) : Prop :=
  let s := snd (fl_world g) in
  exists pool queue,
    state_ok packets s pool queue (fl_held g) /\
    (queue <> [] -> rx_pending s = true \/ (0 < fl_readers g)%nat) /\
    logs_ok packets s queue (fl_received g) (fl_read g) (fl_reported g).

Section Preservation.

Context {L E : Type} (packets : gmap Z IPacket) (Hbuf : buffers_ok packets).
Implicit Types (s : proto E) (g : flow L E).

Lemma contents_ext s s' l :
  (forall a, a ∈ l -> payload_at s' a = payload_at s a) -> contents s' l = contents s l.
Proof using Type. intros H. apply map_ext_in. intros a Ha%list_elem_of_In. by rewrite H. Qed.

Lemma proto_lock_free s : m_mutex s = false -> proto_lock s = s <| m_mutex := true |>.
Proof using Type. unfold proto_lock. by intros ->. Qed.

Lemma proto_unlock_held s : m_mutex s = true -> proto_unlock s = s <| m_mutex := false |>.
Proof using Type. unfold proto_unlock. by intros ->. Qed.

Lemma state_ok_mutex b s pool queue held :
  state_ok packets s pool queue held -> state_ok packets (s <| m_mutex := b |>) pool queue held.
Proof using Type. intros [[H1 H2 H3 H4] H5 H6 H7]. by split. Qed.

Lemma payload_mutex b s a : payload_at (s <| m_mutex := b |>) a = payload_at s a.
Proof using Type. done. Qed.

Lemma pending_set s : rx_pending (proto_events_set PROTO_RX_MESSAGE s) = true.
Proof using Type.
  unfold rx_pending. change (Z.testbit (Z.lor (m_events s) PROTO_RX_MESSAGE) 0 = true).
  rewrite Z.lor_spec. by rewrite orb_true_r.
Qed.

Lemma pending_of_events s bits : m_events s = events_set PROTO_RX_MESSAGE bits -> rx_pending s = true.
Proof using Type. unfold rx_pending. intros ->. unfold events_set. rewrite Z.lor_spec. by rewrite orb_true_r. Qed.

(** The steps that do not change the mutex, the counters and the contents of the queue. *)
Lemma logs_ok_ext s s' queue received read reported :
  counters s' = counters s -> (forall a, a ∈ queue -> payload_at s' a = payload_at s a) ->
  logs_ok packets s queue received read reported -> logs_ok packets s' queue received read reported.
Proof using Type.
  intros [= Hc1 Hc2 Hc3] Hp [H1 H2 H3]. split; [congruence..|]. by rewrite (contents_ext s s'), Hc3.
Qed.

Lemma flow_inv_rx g buf data :
  flow_inv packets g ->
  flow_inv packets (mk_flow (proto_onRead None buf data (fl_world g)) (fl_readers g) (fl_held g)
                   (fl_received g ++ [data]) (fl_read g) (fl_reported g)).
Proof using Hbuf.
  destruct g as [[l s] readers held received read reported]. unfold flow_inv. cbn. intros (pool & queue & Hs & Hw & [Hm Hu Ho]).
  rewrite proto_lock_free by done. destruct Ho as (accepted & Hsub & Hlen & Hall).
  apply (state_ok_mutex true) in Hs as Hs1. destruct pool as [|p pool].
  - rewrite (rx_enqueue_lost packets _ queue held buf data Hs1). exists [], queue.
    rewrite proto_unlock_held by done. split; [|split; [done|split; [done..|]]].
    + destruct Hs as [[H1 H2 H3 H4] H5 H6 H7]. by split.
    + exists accepted. split_and!; [by apply sublist_inserts_r| |done].
      apply counted_lost in Hlen. rewrite length_app. cbn [length]. rewrite Nat2Z.inj_add, Z.add_sub_swap. exact Hlen.
  - destruct (rx_enqueue_ok packets Hbuf _ p pool queue held buf data Hs1) as (Hs2 & [= Hc1 Hc2 Hc3] & He & Hp & Hk).
    generalize dependent (rx_enqueue buf data (s <| m_mutex := true |>)). intros s' Hs2 Hc1 Hc2 Hc3 He Hp Hk.
    rewrite proto_unlock_held by done. exists pool, (queue ++ [p]).
    split; [by apply state_ok_mutex|]. split; [intros _; left; by eapply pending_of_events|].
    split; [done|exact (eq_trans Hc2 Hu)|]. exists (accepted ++ [data]). split_and!.
    + by apply sublist_app.
    + rewrite !length_app. cbn [length]. rewrite !Nat2Z.inj_add. change (counted (Z.of_nat (length received) + 1 - (Z.of_nat (length accepted) + 1)) reported (m_lostRxFrames s')).
      rewrite Hc3, Z.add_add_simpl_r_r. exact Hlen.
    + unfold contents. rewrite map_app, app_assoc. apply Forall2_app.
      * fold (contents (s' <| m_mutex := false |>) queue).
        rewrite (contents_ext s); [done|]. intros a Ha. rewrite payload_mutex. by rewrite (Hk a Ha).
      * constructor; [|constructor]. destruct (state_packet packets Hbuf s _ _ _ p Hs) as ([q Hq] & _).
        { apply list_elem_of_here. }
        exists q. split; [done|]. cbn [snd]. rewrite payload_mutex, Hp. f_equal. f_equal.
        destruct (layout_at packets s p q (so_layout _ _ _ _ _ Hs) Hq) as (_ & Hz & _). by rewrite <- Hz.
Qed.

Lemma flow_inv_wait g :
  flow_inv packets g ->
  flow_inv packets (mk_flow (snd (proto_events_poll PROTO_RX_MESSAGE (fl_world g))) (S (fl_readers g))
                   (fl_held g) (fl_received g) (fl_read g) (fl_reported g)).
Proof using Type.
  destruct g as [[l s] readers held received read reported]. unfold flow_inv. cbn. intros (pool & queue & Hs & Hw & Hlog).
  exists pool, queue. unfold proto_events_poll. cbn. destruct (nz _); cbn.
  - split_and!; [|intros _; right; lia|].
    + destruct Hs as [[H1 H2 H3 H4] H5 H6 H7]. by split.
    + by apply (logs_ok_ext s).
  - split_and!; [done|intros _; right; lia|done].
Qed.

Lemma flow_inv_read g w p readers :
  flow_inv packets g -> fl_readers g = S readers -> read_locked (fl_world g) = (p, w) ->
  flow_inv packets (if p =? 0 then mk_flow w readers (fl_held g) (fl_received g) (fl_read g) (fl_reported g)
    else mk_flow w readers (p :: fl_held g) (fl_received g) (fl_read g ++ [(p, payload_at (snd w) p)]) (fl_reported g)).
Proof using Type.
  destruct g as [[l s] rd held received read reported]. unfold flow_inv. cbn. intros (pool & queue & Hs & Hw & Hlog) _ Hr.
  pose proof Hlog as [Hm Hu (accepted & Hsub & Hlen & Hall)].
  unfold read_locked in Hr. cbn in Hr. rewrite proto_lock_free in Hr by done.
  apply (state_ok_mutex true) in Hs as Hs1. destruct queue as [|q queue].
  - rewrite (rx_dequeue_empty _ pool (so_queues _ _ _ _ _ Hs1)) in Hr. injection Hr as <- <-. cbn.
    exists pool, []. split_and!; [|done|apply (logs_ok_ext s); [unfold counters; cbn; by rewrite Hm|done..]].
    apply (state_ok_mutex false) in Hs1. done.
  - destruct (rx_dequeue_state packets _ q pool queue held Hs1) as (s' & Hd & Hs2 & [= Hc1 Hc2 Hc3] & Hp & He).
    rewrite Hd in Hr. injection Hr as <- <-.
    pose proof (queue_head _ _ _ _ (so_queues _ _ _ _ _ Hs1)) as [_ Hne]. apply Z.eqb_neq in Hne as ->.
    exists pool, queue. cbn. rewrite proto_unlock_held by done.
    split; [by apply state_ok_mutex|]. split; [|split; [done|exact (eq_trans Hc2 Hu)|]].
    + intros Hq. left. destruct queue; [done|]. by eapply pending_of_events.
    + exists accepted. change (m_lostRxFrames (s' <| m_mutex := false |>)) with (m_lostRxFrames s').
      split_and!; [done|rewrite Hc3; done|].
      rewrite <- app_assoc. cbn. rewrite (contents_ext s).
      * rewrite payload_mutex, Hp, payload_mutex. done.
      * intros a _. by rewrite payload_mutex, Hp.
Qed.

Lemma flow_inv_use g p held len pos bytes :
  flow_inv packets g -> fl_held g ≡ₚ p :: held ->
  flow_inv packets (mk_flow (fst (fl_world g), use_packet p len pos bytes (snd (fl_world g)))
                   (fl_readers g) (fl_held g) (fl_received g) (fl_read g) (fl_reported g)).
Proof using Hbuf.
  destruct g as [[l s] rd hd received read reported]. unfold flow_inv. cbn. intros (pool & queue & Hs & Hw & Hlog) Hh.
  assert (Hin : p ∈ pool ++ queue ++ hd).
  { rewrite Hh. apply elem_of_app. right. apply elem_of_app. right. apply list_elem_of_here. }
  pose proof (state_nodup _ _ _ _ _ Hs) as Hnd. rewrite Hh in Hnd.
  apply NoDup_app in Hnd as (_ & _ & (_ & Hdis & _)%NoDup_app).
  destruct (state_packet packets Hbuf s pool queue hd p Hs Hin) as (Hsome & _).
  destruct (state_ok_only packets Hbuf s (use_packet p len pos bytes s) p pool queue hd Hs) as [Hs' Hk];
    [apply use_packet_only| |done..|].
  { intros Hq. apply (Hdis p Hq). apply list_elem_of_here. }
  exists pool, queue. split_and!; [done|done|]. by apply (logs_ok_ext s).
Qed.

Lemma flow_inv_release g p held :
  flow_inv packets g -> fl_held g ≡ₚ p :: held ->
  flow_inv packets (mk_flow (fst (fl_world g), proto_release p (snd (fl_world g)))
                   (fl_readers g) held (fl_received g) (fl_read g) (fl_reported g)).
Proof using Hbuf.
  destruct g as [[l s] rd hd received read reported]. unfold flow_inv. cbn. intros (pool & queue & Hs & Hw & Hlog) Hh.
  pose proof Hlog as [Hm Hu _]. unfold proto_release, proto_addRxPool. cbn.
  rewrite proto_lock_free by done. apply (state_ok_mutex true) in Hs as Hs1.
  destruct (pool_push_state packets Hbuf _ p pool queue hd held Hs1 Hh) as (Hs2 & Hc & He & Hp).
  generalize dependent (pool_push p (s <| m_mutex := true |>)). intros s' Hs2 [= Hc1 Hc2 Hc3] He Hp.
  rewrite proto_unlock_held by done. exists (p :: pool), queue.
  split_and!; [by apply state_ok_mutex| |].
  - intros Hq. destruct (Hw Hq) as [Hx|Hx]; [left|by right]. unfold rx_pending in *. cbn in *. by rewrite He.
  - apply (logs_ok_ext s); [| |done].
    + unfold counters. cbn. by rewrite Hc2, Hc3, Hm.
    + intros a _. by rewrite payload_mutex, Hp.
Qed.

Lemma flow_inv_lost g n s :
  flow_inv packets g -> proto_getLostRxFrames (snd (fl_world g)) = (n, s) ->
  flow_inv packets (mk_flow (fst (fl_world g), s) (fl_readers g) (fl_held g) (fl_received g)
                   (fl_read g) (fl_reported g + n)).
Proof using Type.
  destruct g as [[l t] rd hd received read reported]. unfold flow_inv. cbn. intros (pool & queue & Hs & Hw & Hlog) Hg.
  pose proof Hlog as [Hm Hu (accepted & Hsub & Hlen & Hall)]. unfold proto_getLostRxFrames in Hg.
  rewrite proto_lock_free in Hg by done. injection Hg as <- <-. rewrite proto_unlock_held by done.
  exists pool, queue. split_and!; [|done|].
  - destruct Hs as [[H1 H2 H3 H4] H5 H6 H7]. by split.
  - split; [done..|]. exists accepted. cbn. split_and!; [done|by apply counted_report|done].
Qed.

Lemma flow_inv_step g g' : flow_inv packets g -> flow_step g g' -> flow_inv packets g'.
Proof using Hbuf.
  intros Hi Hs. destruct Hs as [g buf data|g|g w readers Hr Hl|g p w readers Hr Hl Hp|g p held len pos bytes Hh
    |g p held Hh|g n s Hl].
  - by apply flow_inv_rx.
  - by apply flow_inv_wait.
  - by pose proof (flow_inv_read g w 0 readers Hi Hr Hl).
  - pose proof (flow_inv_read g w p readers Hi Hr Hl) as Hx. by apply Z.eqb_neq in Hp as Hp'; rewrite Hp' in Hx.
  - by eapply flow_inv_use.
  - by eapply flow_inv_release.
  - by apply flow_inv_lost.
Qed.

Lemma flow_inv_start (l : L) mem (env : E) : flow_inv packets (flow_start l packets mem env).
Proof using Type.
  exists [], []. split_and!; [|done|].
  - split; [split; [constructor|done..]|done|done|]. intros a Ha. by apply elem_of_nil in Ha.
  - split; [done..|]. exists []. split_and!; [done|done|constructor].
Qed.

Lemma flow_inv_reachable (l : L) mem (env : E) g :
  rtc flow_step (flow_start l packets mem env) g -> flow_inv packets g.
Proof using Hbuf.
  intros Hr. assert (Hi := flow_inv_start l mem env). induction Hr as [|g0 g1 g2 Hs _ IH]; [done|].
  by apply IH, (flow_inv_step g0).
Qed.

End Preservation.

(** ** [read] when the event is set *)

Lemma read_locked_queue {L E} (w : L * proto E) : fst (read_locked w) = m_queue (snd w).
Proof.
  destruct w as [l s]. unfold read_locked, rx_dequeue. cbn [fst snd].
  assert (m_queue (proto_lock s) = m_queue s) as -> by (unfold proto_lock; by destruct (m_mutex s)).
  by destruct (Z.eqb_spec (m_queue s) 0).
Qed.

Lemma pending_poll {L E} (w : L * proto E) :
  rx_pending (snd w) = true ->
  exists locked, nz locked = true /\
    proto_events_poll PROTO_RX_MESSAGE w = (locked, (fst w, (snd w) <| m_events ::= events_clear PROTO_RX_MESSAGE |>)).
Proof.
  intros Hp. exists (m_events (snd w)). unfold proto_events_poll.
  assert (nz (Z.land (m_events (snd w)) PROTO_RX_MESSAGE) = true) as ->.
  { unfold nz. apply negb_true_iff, Z.eqb_neq. intros Hz.
    apply (f_equal (fun z => Z.testbit z 0)) in Hz. rewrite Z.land_spec in Hz.
    unfold rx_pending in Hp. by rewrite Hp in Hz. }
  split; [|done]. unfold nz. apply negb_true_iff, Z.eqb_neq. intros Hz. unfold rx_pending in Hp.
  by rewrite Hz in Hp.
Qed.

Lemma read_loop_ready {L E} (link : ILinkLayer L E) millis others fuel startTs timeout w :
  rx_pending (snd w) = true -> m_queue (snd w) <> 0 ->
  read_loop link millis others (S fuel) startTs timeout w =
    Some (m_queue (snd w), snd (read_locked (fst w, (snd w) <| m_events ::= events_clear PROTO_RX_MESSAGE |>))).
Proof.
  intros Hp Hq. cbn [read_loop]. unfold proto_events_wait. destruct (pending_poll w Hp) as (locked & Hl & ->).
  rewrite Hl. set (w2 := (fst w, _)). pose proof (read_locked_queue w2) as Hr. destruct (read_locked w2) as [p w3].
  cbn [fst snd] in *. change (m_queue (snd w2)) with (m_queue (snd w)) in Hr. rewrite Hr.
  unfold nz. by apply Z.eqb_neq in Hq as ->.
Qed.

(** ** Properties *)

(** C8: Frames are read in the order they came in and none is lost silently, whatever the
    threads do: in every reachable state the frames read so far followed by those in the queue
    are, one by one and in order, frames received (each cut to the size of the packet
    that carries it), and the frames left out are counted, in the results of [getLostRxFrames]
    or in the counter it reads next: exactly while they are fewer than 2^31, and modulo 2^32 if the
    counter, an [int], wraps after that. *)
Theorem proto_fifo {L E} packets (l : L) mem (env : E) g :
  buffers_ok packets -> rtc flow_step (flow_start l packets mem env) g ->
  let s := snd (fl_world g) in
  exists queue accepted,
    segment (links s) 0 (m_queue s) queue 0 /\
    sublist accepted (fl_received g) /\
    counted (Z.of_nat (length (fl_received g)) - Z.of_nat (length accepted)) (fl_reported g) (m_lostRxFrames s) /\
    Forall2 (carries packets) (fl_read g ++ contents s queue) accepted.
Proof.
  intros Hb Hr. destruct (flow_inv_reachable packets Hb l mem env g Hr) as (pool & queue & Hs & _ & Hlog).
  destruct (lo_order _ _ _ _ _ _ Hlog) as (accepted & Hacc). exists queue, accepted.
  split; [apply (qo_queue _ _ _ (so_queues _ _ _ _ _ Hs))|done].
Qed.

(** C13: Every packet is in exactly one place, whatever the threads do: in every reachable state
    the pool and the queue are well-formed doubly linked lists with [m_last] at the end of
    the queue, they and the packets the application holds are together all packets,
    without repetition, and the mutex is free and was never locked twice. *)
Theorem proto_packets_conserved {L E} packets (l : L) mem (env : E) g :
  buffers_ok packets -> rtc flow_step (flow_start l packets mem env) g ->
  let s := snd (fl_world g) in
  m_mutex s = false /\ m_mutex_misuse s = false /\
  exists pool queue, queues_ok s pool queue /\ NoDup (pool ++ queue ++ fl_held g) /\
    pool ++ queue ++ fl_held g ≡ₚ addresses packets.
Proof.
  intros Hb Hr. destruct (flow_inv_reachable packets Hb l mem env g Hr) as (pool & queue & Hs & _ & Hlog).
  split_and!; [apply (lo_mutex _ _ _ _ _ _ Hlog)|apply (lo_misuse _ _ _ _ _ _ Hlog)|].
  exists pool, queue. split_and!; [apply (so_queues _ _ _ _ _ Hs)| |apply (so_all _ _ _ _ _ Hs)].
  by eapply state_nodup.
Qed.

(** C15: No wake-up is lost: in every reachable state with a frame in the queue, either another
    reader has been woken and is about to take the lock, or [read] returns the first packet of the
    queue at once, whatever its timeout and whatever the other threads and the link do
    (the result does not depend on them). *)
Theorem proto_read_wakes {L E} packets (l : L) mem (env : E) g :
  buffers_ok packets -> rtc flow_step (flow_start l packets mem env) g ->
  m_queue (snd (fl_world g)) <> 0 ->
  (0 < fl_readers g)%nat \/
  forall millis, exists w', forall link others fuel timeout,
    proto_read link millis others (S fuel) timeout (fl_world g) = Some (m_queue (snd (fl_world g)), w').
Proof.
  intros Hb Hr Hne. destruct (flow_inv_reachable packets Hb l mem env g Hr) as (pool & queue & Hs & Hw & _).
  destruct queue as [|p queue].
  { pose proof (queue_empty _ _ (so_queues _ _ _ _ _ Hs)). done. }
  destruct (Hw ltac:(done)) as [Hp|Hp]; [right|by left]. intros millis.
  destruct (fl_world g) as [lk s]. cbn [fst snd] in *.
  exists (snd (read_locked (lk, s <| m_clock ::= S |> <| m_events ::= events_clear PROTO_RX_MESSAGE |>))).
  intros link others fuel timeout. unfold proto_read. cbn [proto_millis fst snd].
  rewrite (read_loop_ready link millis others fuel _ timeout (lk, s <| m_clock ::= S |>)) by done. reflexivity.
Qed.

(** *** Witnesses *)

(** Two packets, of 2 and of 4 bytes. *)
Definition demo_packets : gmap Z IPacket := {[ 1 := packet_on 100 2; 2 := packet_on 200 4 ]}.

Lemma demo_buffers : buffers_ok demo_packets.
Proof.
  assert (Hd : forall a q, demo_packets !! a = Some q -> (a = 1 /\ q = packet_on 100 2) \/ (a = 2 /\ q = packet_on 200 4)).
  { unfold demo_packets. intros a q [[<- <-]|[_ [<- <-]%lookup_singleton_Some]]%lookup_insert_Some; [by left|by right]. }
  split; [done| |].
  - intros a q [[-> ->]|[-> ->]]%Hd; done.
  - intros a b q r [[-> ->]|[-> ->]]%Hd [[-> ->]|[-> ->]]%Hd Hne; cbn; lia.
Qed.

(** The first packet is added to the pool, a frame of three bytes is received, then another
    one, for which the pool is empty; a reader takes the first; the second packet is added and
    a third frame comes. *)
Definition demo_rx (data : list Z) (g : flow unit unit) : flow unit unit :=
  mk_flow (proto_onRead None 300 data (fl_world g)) (fl_readers g) (fl_held g)
    (fl_received g ++ [data]) (fl_read g) (fl_reported g).
Definition demo_release (p : Z) (held : list Z) (g : flow unit unit) : flow unit unit :=
  mk_flow (fst (fl_world g), proto_release p (snd (fl_world g))) (fl_readers g) held (fl_received g)
    (fl_read g) (fl_reported g).
Definition demo_wait (g : flow unit unit) : flow unit unit :=
  mk_flow (snd (proto_events_poll PROTO_RX_MESSAGE (fl_world g))) (S (fl_readers g))
    (fl_held g) (fl_received g) (fl_read g) (fl_reported g).
Definition demo_read (g : flow unit unit) : flow unit unit :=
  let r := read_locked (fl_world g) in
  mk_flow (snd r) (pred (fl_readers g)) (fst r :: fl_held g) (fl_received g)
    (fl_read g ++ [(fst r, payload_at (snd (snd r)) (fst r))]) (fl_reported g).

Definition demo_start : flow unit unit := flow_start tt demo_packets (fun _ => 0) tt.
Definition demo_pool : flow unit unit := demo_release 1 [2] demo_start.
Definition demo_waiting : flow unit unit := demo_wait (demo_rx [5] (demo_rx [7; 8; 9] demo_pool)).
Definition demo_taken : flow unit unit := demo_read demo_waiting.
Definition demo_end : flow unit unit := demo_rx [6; 6] (demo_release 2 [1] demo_taken).

Lemma demo_readers : fl_readers demo_waiting = 1%nat.
Proof. vm_compute. reflexivity. Qed.

Lemma demo_not_null : fst (read_locked (fl_world demo_waiting)) <> 0.
Proof. vm_compute. discriminate. Qed.

Lemma demo_held_start : fl_held demo_start ≡ₚ [1; 2].
Proof. vm_compute. first [apply Permutation_refl|apply Permutation_swap]. Qed.

Lemma demo_held_taken : fl_held demo_taken ≡ₚ [2; 1].
Proof. vm_compute. first [apply Permutation_refl|apply Permutation_swap]. Qed.

Lemma demo_reachable : rtc flow_step (flow_start tt demo_packets (fun _ => 0) tt) demo_end.
Proof.
  eapply rtc_l; [exact (flow_release demo_start 1 [2] demo_held_start)|].
  eapply rtc_l; [exact (flow_rx demo_pool 300 [7; 8; 9])|].
  eapply rtc_l; [exact (flow_rx _ 300 [5])|].
  eapply rtc_l; [exact (flow_wait _)|].
  eapply rtc_l; [exact (flow_read_some demo_waiting _ _ 0 demo_readers (surjective_pairing _) demo_not_null)|].
  eapply rtc_l; [exact (flow_release demo_taken 2 [1] demo_held_taken)|].
  eapply rtc_l; [exact (flow_rx _ 300 [6; 6])|]. apply rtc_refl.
Qed.

Lemma proto_fifo_witness :
  (fl_received demo_end, fl_read demo_end, m_lostRxFrames (snd (fl_world demo_end))) =
    ([[7; 8; 9]; [5]; [6; 6]], [(1, [7; 8])], 1) /\
  let s := snd (fl_world demo_end) in
  exists queue accepted,
    segment (links s) 0 (m_queue s) queue 0 /\
    sublist accepted (fl_received demo_end) /\
    counted (Z.of_nat (length (fl_received demo_end)) - Z.of_nat (length accepted)) (fl_reported demo_end) (m_lostRxFrames s) /\
    Forall2 (carries demo_packets) (fl_read demo_end ++ contents s queue) accepted.
Proof.
  split; [vm_compute; reflexivity|].
  exact (proto_fifo demo_packets tt (fun _ => 0) tt demo_end demo_buffers demo_reachable).
Defined.

Lemma proto_packets_conserved_witness :
  let s := snd (fl_world demo_end) in
  m_mutex s = false /\ m_mutex_misuse s = false /\
  exists pool queue, queues_ok s pool queue /\ NoDup (pool ++ queue ++ fl_held demo_end) /\
    pool ++ queue ++ fl_held demo_end ≡ₚ addresses demo_packets.
Proof.
  exact (proto_packets_conserved demo_packets tt (fun _ => 0) tt demo_end demo_buffers demo_reachable).
Defined.

Lemma proto_read_wakes_witness :
  m_queue (snd (fl_world demo_end)) = 2 /\ fl_readers demo_end = 0%nat /\
  ((0 < fl_readers demo_end)%nat \/
   forall millis, exists w', forall link others fuel timeout,
    proto_read link millis others (S fuel) timeout (fl_world demo_end) =
      Some (m_queue (snd (fl_world demo_end)), w')).
Proof.
  assert (Hq : m_queue (snd (fl_world demo_end)) = 2) by (vm_compute; reflexivity).
  split; [exact Hq|]. split; [vm_compute; reflexivity|].
  apply (proto_read_wakes demo_packets tt (fun _ => 0) tt demo_end demo_buffers demo_reachable).
  rewrite Hq. discriminate.
Defined.
