(* ===== verification/SerialLink.v ===== *)
(** * Link layers over a serial port (src/link/TinySerialLinkLayer.h, src/interface/TinySerial.cpp)

    The template [ISerialLinkLayer<BASE, BSIZE>]: a protocol layer [BASE], which parses received
    bytes and provides bytes to send, and a serial port.  The functions of the port
    ([tiny_serial_open] and the like) belong to the operating system and are parameters. *)

From S2P Require Import Prelude HdlcLL Packet Proto.

Definition TINY_SERIAL_INVALID : Z := -1.

(** The serial port of the system, on the environment [E].  Reading gives the result of the
    call and the bytes in the buffer. *)
Record serial_port (E : Type) : Type := mk_serial_port {
  tiny_serial_open : Z -> E -> Z * E;
  tiny_serial_close : Z -> E -> E;
  tiny_serial_read_timeout : Z -> Z -> Z -> E -> Z * list Z * E;
  tiny_serial_send_timeout : Z -> list Z -> Z -> E -> Z * E
}.
Arguments tiny_serial_open {E}.
Arguments tiny_serial_close {E}.
Arguments tiny_serial_read_timeout {E}.
Arguments tiny_serial_send_timeout {E}.

(** [m_speed] of the layer, and the fields of its [Serial]. *)
Record serial : Type := mk_serial {
  m_speed : Z;
  m_timeoutMs : Z;
  m_serial_handle : Z
}.

#[export] Instance eta_serial : Eta serial := fun s =>
  mk_serial (m_speed s) (m_timeoutMs s) (m_serial_handle s).

Definition serial_create : serial := mk_serial 115200 0 TINY_SERIAL_INVALID.

(** A layer with a serial port. *)
Class HasSerial (L : Type) : Type := mk_has_serial {
  the_serial : L -> serial;
  upd_serial : (serial -> serial) -> L -> L
}.

(** What the template uses of [BASE]; [lb_getData] gives the result and the bytes. *)
Record link_base (L E : Type) : Type := mk_link_base {
  lb_begin : L * proto E -> bool * (L * proto E);
  lb_end : L * proto E -> L * proto E;
  lb_parseData : list Z -> L * proto E -> Z * (L * proto E);
  lb_getData : Z -> L * proto E -> Z * list Z * (L * proto E);
  lb_put : Z -> Z -> Z -> L * proto E -> bool * (L * proto E);
  lb_flushTx : L * proto E -> L * proto E;
  lb_getTimeout : L -> Z;
  lb_setTimeout : Z -> L -> L
}.
Arguments lb_begin {L E}.
Arguments lb_end {L E}.
Arguments lb_parseData {L E}.
Arguments lb_getData {L E}.
Arguments lb_put {L E}.
Arguments lb_flushTx {L E}.
Arguments lb_getTimeout {L E}.
Arguments lb_setTimeout {L E}.

Section Serial.

Context {L E : Type} `{HasSerial L} (port : serial_port E).

Definition on_env {R} (f : E -> R * E) (w : L * proto E) : R * (L * proto E) :=
  let '(r, env) := f (m_env (snd w)) in (r, (fst w, (snd w) <| m_env := env |>)).

Definition serial_setTimeout (timeoutMs : Z) (w : L * proto E) : L * proto E :=
  (upd_serial (fun s => s <| m_timeoutMs := timeoutMs |>) (fst w), snd w).

Definition serial_begin (speed : Z) (w : L * proto E) : bool * (L * proto E) :=
  let '(handle, w) := on_env (tiny_serial_open port speed) w in
  (negb (handle =? TINY_SERIAL_INVALID),
   (upd_serial (fun s => s <| m_serial_handle := handle |>) (fst w), snd w)).

Definition serial_end (w : L * proto E) : L * proto E :=
  let '(_, w) := on_env (fun e => (tt, tiny_serial_close port (m_serial_handle (the_serial (fst w))) e)) w in
  (upd_serial (fun s => s <| m_serial_handle := TINY_SERIAL_INVALID |>) (fst w), snd w).

Definition readBytes (len : Z) (w : L * proto E) : Z * list Z * (L * proto E) :=
  let s := the_serial (fst w) in
  on_env (fun e => let '(r, buf, e) := tiny_serial_read_timeout port (m_serial_handle s) len (m_timeoutMs s) e in
                   (r, buf, e)) w.

Definition serial_write (buf : list Z) (w : L * proto E) : Z * (L * proto E) :=
  let s := the_serial (fst w) in
  on_env (tiny_serial_send_timeout port (m_serial_handle s) buf (m_timeoutMs s)) w.

Context (base : link_base L E) (BSIZE : Z).

Definition layer_begin (w : L * proto E) : bool * (L * proto E) :=
  let '(result, w) := lb_begin base w in
  let w := serial_setTimeout (lb_getTimeout base (fst w)) w in
  if result then serial_begin (m_speed (the_serial (fst w))) w else (false, w).

Definition layer_end (w : L * proto E) : L * proto E := lb_end base (serial_end w).

(** The loop of [runRx] over the bytes left. *)
Fixpoint layer_rx_loop (fuel : nat) (data : list Z) (w : L * proto E) : option (L * proto E) :=
  match data with
  | [] => Some w
  | _ :: _ =>
      match fuel with
      | O => None
      | S fuel =>
          let '(temp, w) := lb_parseData base data w in
          if temp <? 0 then Some w else layer_rx_loop fuel (drop (Z.to_nat temp) data) w
      end
  end.

(** A byte is processed in every round (HdlcRx.v), so one round per byte is enough. *)
Definition layer_runRx (w : L * proto E) : L * proto E :=
  let '(len, buf, w) := readBytes BSIZE w in
  if 0 <? len then
    default w (layer_rx_loop (Z.to_nat len) (take (Z.to_nat len) buf) w)
  else w.

(** The loop of [runTx]; a round sends a byte at least. *)
Fixpoint layer_tx_loop (fuel : nat) (data : list Z) (w : L * proto E) : option (L * proto E) :=
  match data with
  | [] => Some w
  | _ :: _ =>
      match fuel with
      | O => None
      | S fuel =>
          let '(sent, w) := serial_write data w in
          if sent <=? 0 then Some w else layer_tx_loop fuel (drop (Z.to_nat sent) data) w
      end
  end.

Definition layer_runTx (w : L * proto E) : L * proto E :=
  let '(len, buf, w) := lb_getData base BSIZE w in
  if 0 <? len then default w (layer_tx_loop (Z.to_nat len) (take (Z.to_nat len) buf) w) else w.

(** The layer as [Proto] sees it. *)
Definition serial_link_layer (begin : L * proto E -> bool * (L * proto E))
  (end_ : L * proto E -> L * proto E) : ILinkLayer L E := {|
  lk_begin := begin;
  lk_end := end_;
  lk_runRx := layer_runRx;
  lk_runTx := layer_runTx;
  lk_put := lb_put base;
  lk_flushTx := lb_flushTx base;
  lk_getTimeout := lb_getTimeout base;
  lk_setTimeout := lb_setTimeout base
|}.

(** A port that takes nothing: the bytes of the block are dropped, although [BASE] has already
    counted them as sent. *)
Lemma layer_runTx_dropped w n data w1 r e :
  lb_getData base BSIZE w = (n, data, w1) -> 0 < n -> take (Z.to_nat n) data <> [] ->
  tiny_serial_send_timeout port (m_serial_handle (the_serial (fst w1))) (take (Z.to_nat n) data)
    (m_timeoutMs (the_serial (fst w1))) (m_env (snd w1)) = (r, e) -> r <= 0 ->
  layer_runTx w = (fst w1, (snd w1) <| m_env := e |>).
Proof using Type.
  intros Hget Hn Hd Hsend Hr. unfold layer_runTx. rewrite Hget. destruct (Z.ltb_spec 0 n); [|lia].
  destruct (take (Z.to_nat n) data) as [|b l]; [done|]. destruct (Z.to_nat n) as [|m] eqn:Hm; [lia|].
  cbn [layer_tx_loop]. unfold serial_write, on_env. rewrite Hsend. by destruct (Z.leb_spec r 0); [|lia].
Qed.

End Serial.
