(* ===== verification/HdlcLayer.v ===== *)
(** * The HDLC link layer (src/link/TinyHdlcLinkLayer.cpp, src/link/TinySerialHdlcLink.cpp)

    [IHdlcLinkLayer] puts one frame at a time on a framing handle.  [put] returns false when it has
    only queued the frame: it is called again with the same buffer until the frame has
    been sent, which [m_tempBuffer] remembers. *)

From S2P Require Import Prelude Crc HdlcLL FdTypes Packet Proto SerialLink.

Definition TX_QUEUE_FREE : Z := 1.
Definition TX_MESSAGE_SENT : Z := 2.
Definition TX_MESSAGE_SENDING : Z := 4.

(** The fields of [IHdlcLinkLayer], [ILinkLayer] and the serial part; the framing handle is
    separate. *)
Record hdlc_layer : Type := mk_hdlc_layer {
  hk_mtu : Z;
  hk_timeout : Z;
  hk_sendMutex : bool;
  hk_mutex_misuse : bool;
  hk_events : Z;
  hk_tempBuffer : Z;
  hk_buffer : Z;
  hk_bufferMem : list Z;
  hk_bufferSize : Z;
  hk_crc : hdlc_crc_t;
  hk_flushFlag : bool;
  hk_serial : serial
}.

#[export] Instance eta_hdlc_layer : Eta hdlc_layer := fun k =>
  mk_hdlc_layer (hk_mtu k) (hk_timeout k) (hk_sendMutex k) (hk_mutex_misuse k) (hk_events k)
    (hk_tempBuffer k) (hk_buffer k) (hk_bufferMem k) (hk_bufferSize k) (hk_crc k) (hk_flushFlag k)
    (hk_serial k).

(** [None] is a null [m_handle]. *)
#[local] Abbreviation L := (option hdlc_ll_data_t * hdlc_layer)%type.

#[export] Instance hdlc_layer_serial : HasSerial L := {|
  the_serial l := hk_serial (snd l);
  upd_serial f l := (fst l, (snd l) <| hk_serial ::= f |>)
|}.

(** [SerialHdlcLink(dev)]: no buffer yet. *)
Definition hdlc_layer_create : hdlc_layer := {|
  hk_mtu := 16384; hk_timeout := 0; hk_sendMutex := false; hk_mutex_misuse := false; hk_events := 0;
  hk_tempBuffer := 0; hk_buffer := 0; hk_bufferMem := []; hk_bufferSize := 0; hk_crc := HDLC_CRC_8;
  hk_flushFlag := false; hk_serial := serial_create |}.

Definition hk_lock (k : hdlc_layer) : hdlc_layer :=
  if hk_sendMutex k then k <| hk_mutex_misuse := true |> else k <| hk_sendMutex := true |>.
Definition hk_unlock (k : hdlc_layer) : hdlc_layer :=
  if hk_sendMutex k then k <| hk_sendMutex := false |> else k <| hk_mutex_misuse := true |>.
Definition hk_set (bits : Z) (k : hdlc_layer) : hdlc_layer := k <| hk_events ::= events_set bits |>.
Definition hk_clear (bits : Z) (k : hdlc_layer) : hdlc_layer := k <| hk_events ::= events_clear bits |>.

Section Layer.

Context {E : Type}.
#[local] Abbreviation W := (L * proto E)%type.

(** [TINY_ALIGN_STRUCT_VALUE], [sizeof(hdlc_ll_data_t)]; the memory [malloc] returns for a size,
    its address 0 for [NULL], with its contents. *)
Context (align sizeof : Z) (malloc : Z -> Z * list Z).

(** The address, in the receive buffer, of the frame [onRead] is called for. *)
Context (frame_address : hdlc_layer * proto E -> Z).

(** What the other threads do while this one waits. *)
Context (others : Z -> W -> W).

(** [m_onReadCb] and [m_onSendCb]. *)
Context (onReadCb : Z -> list Z -> W -> W) (onSendCb : Z -> Z -> W -> W).

Definition on_layer (f : hdlc_layer -> hdlc_layer) (w : W) : W := ((fst (fst w), f (snd (fst w))), snd w).

(** The static [onSend] and [onRead]. *)
Definition hk_onSend (data len : Z) (w : W) : W :=
  let w := on_layer (hk_clear TX_MESSAGE_SENDING) w in
  let w := on_layer (hk_set TX_QUEUE_FREE) w in
  onSendCb data len w.

Definition hk_onRead (data : list Z) (w : W) : W :=
  onReadCb (frame_address (snd (fst w), snd w)) data w.

(** The framing layer calls them with the handle it works on. *)
Definition with_handle (f : W -> W) (w : hdlc_ll_data_t * (hdlc_layer * proto E))
  : hdlc_ll_data_t * (hdlc_layer * proto E) :=
  let '(h, (k, p)) := w in
  let '((handle, k), p) := f ((Some h, k), p) in (default h handle, (k, p)).

Definition hk_client : ll_client (hdlc_layer * proto E) := {|
  cl_mem u := m_mem (snd u);
  cl_on_frame_read := Some (fun w data => with_handle (hk_onRead data) w);
  cl_on_frame_send := Some (fun w data len => with_handle (hk_onSend data len) w)
|}.

(** An operation of the framing layer; nothing happens without a handle. *)
Definition on_handle {R} (r0 : R)
  (f : hdlc_ll_data_t * (hdlc_layer * proto E) -> R * (hdlc_ll_data_t * (hdlc_layer * proto E))) (w : W)
  : R * W :=
  match w with
  | ((Some h, k), p) => let '(r, (h, (k, p))) := f (h, (k, p)) in (r, ((Some h, k), p))
  | ((None, k), p) => (r0, w)
  end.

(** [raw] is what the memory of the handle holds. *)
Definition hk_begin (raw : hdlc_ll_data_t) (w : W) : bool * W :=
  let k := snd (fst w) in
  let '(result, handle) :=
    hdlc_ll_init align sizeof raw
      (mk_hdlc_ll_init (hk_buffer k) (hk_bufferMem k) (hk_bufferSize k) (hk_crc k) (hk_mtu k)) in
  let k := hk_clear TX_MESSAGE_SENDING (hk_set TX_QUEUE_FREE (k <| hk_flushFlag := false |>)) in
  (result =? TINY_SUCCESS,
   ((match handle with Some h => Some h | None => fst (fst w) end, k), snd w)).

Definition hk_end (w : W) : W :=
  let w := on_layer (hk_clear TX_MESSAGE_SENDING) w in
  let w := snd (on_handle TINY_SUCCESS (hdlc_ll_close hk_client) w) in
  ((None, snd (fst w)), snd w).

(** [tiny_events_wait] on [m_events]. *)
Definition hk_poll (bits clear : Z) (w : W) : Z * W :=
  let locked := hk_events (snd (fst w)) in
  if nz (Z.land locked bits)
  then (locked, if nz clear then on_layer (hk_clear bits) w else w)
  else (0, w).

Definition hk_wait (bits clear timeout : Z) (w : W) : Z * W :=
  let '(locked, w1) := hk_poll bits clear w in
  if nz locked then (locked, w1)
  else if timeout =? 0 then (0, w)
  else hk_poll bits clear (others timeout w).

(** [put] after the wait has returned bits. *)
Definition put_locked (buf size : Z) (w : W) : bool * W :=
  let w := on_layer (fun k => (hk_lock k) <| hk_flushFlag := false |>) w in
  let '(result, w) :=
    if hk_tempBuffer (snd (fst w)) =? buf
    then (true, on_layer (fun k => hk_set TX_QUEUE_FREE (k <| hk_tempBuffer := 0 |>)) w)
    else
      let '(r, handle) := hdlc_ll_put_frame (fst (fst w)) buf size in
      let w := ((handle, snd (fst w)), snd w) in
      if r =? TINY_SUCCESS
      then (false, on_layer (fun k => hk_set TX_MESSAGE_SENDING (k <| hk_tempBuffer := buf |>)) w)
      else (false, on_layer (hk_set TX_QUEUE_FREE) w) in
  (result, on_layer hk_unlock w).

Definition hk_put (buf size timeout : Z) (w : W) : bool * W :=
  let '(bits, w) := hk_wait TX_QUEUE_FREE EVENT_BITS_CLEAR timeout w in
  if nz bits then put_locked buf size w else (false, w).

Definition hk_flushTx (w : W) : W :=
  on_layer (fun k => hk_unlock ((hk_lock k) <| hk_flushFlag := true |>)) w.

(** The number of bytes processed. *)
Definition hk_parseData (data : list Z) (w : W) : Z * W :=
  on_handle 0 (fun w => let '(n, _, w) := hdlc_ll_run_rx hk_client w data in (n, w)) w.

(** The part of [getData] under the mutex: whether the frame was flushed. *)
Definition take_flush (w : W) : bool * W :=
  let w := on_layer hk_lock w in
  let flush := hk_flushFlag (snd (fst w)) in
  let w := if flush
    then on_layer (fun k => hk_set TX_QUEUE_FREE (hk_clear TX_MESSAGE_SENDING k))
           ((option_map (fun h => hdlc_ll_reset h HDLC_LL_RESET_TX_ONLY) (fst (fst w)),
             (snd (fst w)) <| hk_flushFlag := false |>), snd w)
    else w in
  (flush, on_layer hk_unlock w).

Definition hk_getData (size : Z) (w : W) : Z * list Z * W :=
  let '(bits, w) := hk_wait TX_MESSAGE_SENDING EVENT_BITS_LEAVE (hk_timeout (snd (fst w))) w in
  if nz bits then
    let '(flush, w) := take_flush w in
    if flush then (0, [], w) else
    on_handle (0, []) (fun w => let '(n, w) := hdlc_ll_run_tx hk_client w size in
                                ((n, tx_out_buffer (fst w)), w)) w
  else (0, [], w).

Definition hk_base (raw : hdlc_ll_data_t) : link_base L E := {|
  lb_begin := hk_begin raw;
  lb_end := hk_end;
  lb_parseData := hk_parseData;
  lb_getData := hk_getData;
  lb_put := hk_put;
  lb_flushTx := hk_flushTx;
  lb_getTimeout l := hk_timeout (snd l);
  lb_setTimeout timeout l := (fst l, (snd l) <| hk_timeout := timeout |>)
|}.

(** ** [SerialHdlcLink] *)

Context (port : serial_port E).

Definition serial_hdlc_begin (raw : hdlc_ll_data_t) (w : W) : bool * W :=
  let k := snd (fst w) in
  let size := hdlc_ll_get_buf_size_ex align sizeof (hk_mtu k) (hk_crc k) 3 in
  let '(buffer, mem) := malloc size in
  layer_begin port (hk_base raw)
    (on_layer (fun k => k <| hk_buffer := buffer |> <| hk_bufferMem := mem |> <| hk_bufferSize := size |>) w).

(** The buffer is freed; the field of the base class keeps its address. *)
Definition serial_hdlc_end (raw : hdlc_ll_data_t) (w : W) : W := layer_end port (hk_base raw) w.

Definition serial_hdlc_link (raw : hdlc_ll_data_t) : ILinkLayer L E :=
  serial_link_layer port (hk_base raw) 32 (serial_hdlc_begin raw) (serial_hdlc_end raw).

End Layer.
