(* ===== verification/ProtoLink.v ===== *)
(** * A protocol object on an HDLC serial link, from end to end

    The composition of Proto.v, SerialLink.v, HdlcLayer.v and the framing layer, without
    threads: what [Proto::send] puts on the serial line, what [Proto::read] makes of it, and what
    becomes of a send that is cancelled. *)

From stdpp Require Import gmap.
From S2P Require Import Prelude Crc HdlcLL HdlcSpec HdlcTx HdlcRx FdTypes.
From S2P Require Import Packet Proto ProtoQueue ProtoFlow SerialLink HdlcLayer.

(** ** The serial line *)

(** What the code relies on: a write takes at least one byte of the buffer, a read gives at
    least one of the bytes that have arrived, if any, and no more than asked for. *)
Class SerialLine {E} (port : serial_port E) (wire incoming : E -> list Z) : Prop := {
  line_write handle data timeout e : data <> [] ->
    exists n e', tiny_serial_send_timeout port handle data timeout e = (n, e') /\
      1 <= n <= Z.of_nat (length data) /\ wire e' = wire e ++ take (Z.to_nat n) data /\
      incoming e' = incoming e;
  line_read handle len timeout e : 0 < len ->
    exists n buf e', tiny_serial_read_timeout port handle len timeout e = (n, buf, e') /\
      wire e' = wire e /\ n <= len /\
      (incoming e = [] /\ n <= 0 /\ incoming e' = [] \/
       1 <= n <= Z.of_nat (length (incoming e)) /\
       take (Z.to_nat n) buf = take (Z.to_nat n) (incoming e) /\
       incoming e' = drop (Z.to_nat n) (incoming e))
}.

(** A line that takes three bytes at a time and gives up to five. *)
Definition slow_line : serial_port (list Z * list Z) := {|
  tiny_serial_open _ e := (1, e);
  tiny_serial_close _ e := e;
  tiny_serial_send_timeout _ data _ e :=
    (Z.of_nat (length (take 3 data)), (fst e ++ take 3 data, snd e));
  tiny_serial_read_timeout _ len _ e :=
    let data := take (Z.to_nat (Z.min len 5)) (snd e) in
    (Z.of_nat (length data), data, (fst e, drop (length data) (snd e)))
|}.

#[export] Instance slow_line_ok : SerialLine slow_line fst snd.
Proof.
  split.
  - intros handle data timeout e Hd. cbn. eexists _, _. split; [reflexivity|]. cbn.
    assert (0 < length (take 3 data) <= length data)%nat.
    { rewrite length_take. destruct data; [done|]. cbn [length]. lia. }
    split; [lia|]. rewrite Nat2Z.id, length_take. split; [|done]. f_equal.
    destruct (Nat.min_spec 3 (length data)) as [[_ ->]|[? ->]]; [done|]. by rewrite !take_ge by lia.
  - intros handle len timeout e Hlen. cbn. eexists _, _, _. split; [reflexivity|]. cbn.
    set (n := Z.to_nat (Z.min len 5)). assert (Hn : (0 < n)%nat) by lia.
    rewrite length_take, Nat2Z.id. split; [done|]. split; [lia|].
    destruct (snd e) as [|b l] eqn:He; [left; by rewrite Nat.min_0_r|right].
    cbn [length]. split; [lia|]. split; [|done]. rewrite take_take. f_equal. lia.
Qed.

(** ** The template on the line *)

Section Line.

Context {L E : Type} `{HasSerial L} (port : serial_port E) (wire incoming : E -> list Z).
Context `{!SerialLine port wire incoming}.
Implicit Types (w : L * proto E).

Lemma layer_tx_loop_ok fuel data w :
  (length data <= fuel)%nat ->
  exists e, layer_tx_loop port fuel data w = Some (fst w, (snd w) <| m_env := e |>) /\
    wire e = wire (m_env (snd w)) ++ data /\ incoming e = incoming (m_env (snd w)).
Proof using SerialLine0.
  revert data w. induction fuel as [|fuel IH]; intros data [l s] Hf.
  { destruct data; [|cbn in Hf; lia]. exists (m_env s). rewrite app_nil_r. by destruct s. }
  destruct data as [|b data]; [exists (m_env s); rewrite app_nil_r; by destruct s|].
  cbn [layer_tx_loop]. unfold serial_write, on_env. cbn [fst snd].
  destruct (line_write (port := port) (m_serial_handle (the_serial l)) (b :: data)
              (m_timeoutMs (the_serial l)) (m_env s)) as (n & e & -> & Hn & Hw & Hi); [done|].
  destruct (Z.leb_spec n 0); [lia|].
  destruct (IH (drop (Z.to_nat n) (b :: data)) (l, s <| m_env := e |>)) as (e' & Hl & Hw' & Hi').
  { rewrite length_drop. cbn [length] in *. lia. }
  exists e'. rewrite Hl. cbn [fst snd] in *. change (m_env (s <| m_env := e |>)) with e in *.
  split; [done|]. split; [|congruence]. rewrite Hw', Hw, <- app_assoc. f_equal. apply take_drop.
Qed.

(** A read of a line without data. *)
Lemma layer_runRx_quiet base BSIZE w :
  0 < BSIZE -> incoming (m_env (snd w)) = [] ->
  exists e, layer_runRx port base BSIZE w = (fst w, (snd w) <| m_env := e |>) /\
    wire e = wire (m_env (snd w)) /\ incoming e = [].
Proof using SerialLine0.
  intros HB Hq. destruct w as [l s]. unfold layer_runRx, readBytes, on_env. cbn [fst snd] in *.
  destruct (line_read (port := port) (m_serial_handle (the_serial l)) BSIZE (m_timeoutMs (the_serial l)) (m_env s))
    as (n & buf & e & -> & Hw & _ & Hcase); [done|].
  rewrite Hq in Hcase. destruct Hcase as [(_ & Hn & Hi)|(Hn & _)]; [|cbn in Hn; lia].
  exists e. destruct (Z.ltb_spec 0 n); [lia|]. done.
Qed.

End Line.

(** ** The HDLC layer *)

Section Layer.

Context {E : Type} (frame_address : hdlc_layer * proto E -> Z).
Context (others : Z -> (option hdlc_ll_data_t * hdlc_layer) * proto E -> (option hdlc_ll_data_t * hdlc_layer) * proto E).

#[local] Abbreviation L := (option hdlc_ll_data_t * hdlc_layer)%type.
#[local] Abbreviation W := (L * proto E)%type.
Implicit Types (h : hdlc_ll_data_t) (k : hdlc_layer) (s : proto E).

(** The framing layer of a protocol object without callbacks. *)
Definition link_client : ll_client (hdlc_layer * proto E) :=
  hk_client frame_address (proto_onRead None) (proto_onSend None).

Definition on_sent_layer (w : hdlc_ll_data_t * (hdlc_layer * proto E)) (p l : Z) : hdlc_layer * proto E :=
  (hk_set TX_QUEUE_FREE (hk_clear TX_MESSAGE_SENDING (fst (snd w))), snd (snd w)).

#[export] Instance link_client_passive : SendPassive link_client on_sent_layer.
Proof using Type. by intros [h [k s]] p l. Qed.

(** The layer between two calls: its events, the buffer being sent and the flush flag. *)
Record layer_at (events buf : Z) (flush : bool) (k : hdlc_layer) : Prop := mk_layer_at {
  la_events : hk_events k = events;
  la_temp : hk_tempBuffer k = buf;
  la_flush : hk_flushFlag k = flush;
  la_mutex : hk_sendMutex k = false;
  la_misuse : hk_mutex_misuse k = false;
  la_timeout : hk_timeout k = 0
}.

(** A handle that is sending: [pending] are the bytes to come. *)
Record sending_at (mem : memory) (t : hdlc_crc_t) (buf len : Z) (pending : list Z) (h : hdlc_ll_data_t) : Prop :=
  mk_sending_at {
  sa_inv : tx_inv mem len h;
  sa_busy : ~ tx_idle h;
  sa_pending : tx_pending mem h = pending;
  sa_crc : crc_type h = t
}.

(** One that can take a frame. *)
Record idle_at (t : hdlc_crc_t) (h : hdlc_ll_data_t) : Prop := mk_idle_at {
  ia_idle : tx_idle h;
  ia_escape : tx_escape h = 0;
  ia_crc : crc_type h = t
}.

Ltac layer_cases := repeat match goal with
  | H : layer_at _ _ _ ?k |- _ => destruct H; destruct k; cbn in *; subst
  end.

(** [put] while the frame before is being sent, and after a flush. *)
Lemma put_busy buf temp size flush (h : option hdlc_ll_data_t) k s :
  layer_at TX_MESSAGE_SENDING temp flush k -> hk_put others buf size 0 ((h, k), s) = (false, ((h, k), s)).
Proof using Type. intros Hk. layer_cases. done. Qed.

Lemma layer_put_ready buf temp size flush (h : option hdlc_ll_data_t) k s :
  layer_at TX_QUEUE_FREE temp flush k ->
  exists k', hk_put others buf size 0 ((h, k), s) = put_locked buf size ((h, k'), s) /\ layer_at 0 temp flush k'.
Proof using Type.
  intros Hk. exists (hk_clear TX_QUEUE_FREE k). split; [|by layer_cases; split].
  unfold hk_put, hk_wait, hk_poll. cbn [fst snd]. by rewrite (la_events _ _ _ _ Hk).
Qed.

(** [put] of a new frame. *)
Lemma put_free buf temp size flush t h k s :
  layer_at TX_QUEUE_FREE temp flush k -> temp <> buf -> buf <> 0 -> 0 < size -> idle_at t h ->
  t <> HDLC_CRC_OFF ->
  exists h' k', hk_put others buf size 0 ((Some h, k), s) = (false, ((Some h', k'), s)) /\
    layer_at TX_MESSAGE_SENDING buf false k' /\
    sending_at (m_mem s) t buf size (wire_frame t (mem_range (m_mem s) buf (Z.to_nat size))) h'.
Proof using Type.
  intros Hk Htemp Hbuf Hsize [[Hst Ho] He Hc] Ht.
  destruct (layer_put_ready buf temp size flush (Some h) k s Hk) as (k1 & -> & Hk1). clear k Hk. layer_cases.
  unfold put_locked. cbn. apply Z.eqb_neq in Htemp as ->. cbn. unfold put_frame. rewrite Ho. cbn [nz Z.eqb negb].
  apply Z.eqb_neq in Hbuf as Hb0. rewrite Hb0. assert ((size =? 0) = false) as -> by lia. cbn.
  eexists _, _. split; [reflexivity|]. split; [by split|]. split.
  - unfold tx_inv. cbn. rewrite Hst. auto 10.
  - intros [_ ?]. cbn in *. done.
  - unfold tx_pending. cbn. by rewrite Hst, Hb0.
  - done.
Qed.

(** [put] of the frame that is, or is believed to be, sent. *)
Lemma put_done buf size flush (h : option hdlc_ll_data_t) k s :
  layer_at TX_QUEUE_FREE buf flush k ->
  exists k', hk_put others buf size 0 ((h, k), s) = (true, ((h, k'), s)) /\ layer_at TX_QUEUE_FREE 0 false k'.
Proof using Type.
  intros Hk. destruct (layer_put_ready buf buf size flush h k s Hk) as (k1 & -> & Hk1). clear k Hk. layer_cases.
  unfold put_locked. cbn.
  rewrite Z.eqb_refl. cbn. eexists. split; [reflexivity|]. by split.
Qed.

Lemma flush_busy buf flush (h : option hdlc_ll_data_t) k s :
  layer_at TX_MESSAGE_SENDING buf flush k ->
  exists k', hk_flushTx ((h, k), s) = ((h, k'), s) /\ layer_at TX_MESSAGE_SENDING buf true k'.
Proof using Type. intros Hk. layer_cases. eexists. split; [reflexivity|]. by split. Qed.

#[local] Abbreviation getData := (hk_getData frame_address others (proto_onRead None) (proto_onSend None)).

(** [getData] without a frame, of a flushed frame, and of a frame. *)
Lemma getData_idle size temp flush (h : option hdlc_ll_data_t) k s :
  layer_at TX_QUEUE_FREE temp flush k -> getData size ((h, k), s) = (0, [], ((h, k), s)).
Proof using Type. intros Hk. layer_cases. done. Qed.

Lemma getData_flushed size buf h k s :
  layer_at TX_MESSAGE_SENDING buf true k ->
  exists k', getData size ((Some h, k), s) =
      (0, [], ((Some (hdlc_ll_reset h HDLC_LL_RESET_TX_ONLY), k'), s)) /\
    layer_at TX_QUEUE_FREE buf false k'.
Proof using Type. intros Hk. layer_cases. eexists. split; [reflexivity|]. by split. Qed.

Lemma getData_busy size buf h k s :
  layer_at TX_MESSAGE_SENDING buf false k ->
  getData size ((Some h, k), s) =
    let '(n, (h', (k', s'))) := hdlc_ll_run_tx link_client (h, (k, s)) size in
    (n, tx_out_buffer h', ((Some h', k'), s')).
Proof using Type.
  intros [H1 H2 H3 H4 H5 H6]. destruct k. cbn in H1, H2, H3, H4, H5, H6. subst.
  transitivity (on_handle (E := E) (0, []) (fun w =>
      let '(n, w) := hdlc_ll_run_tx link_client w size in ((n, tx_out_buffer (fst w)), w))
    ((Some h, mk_hdlc_layer hk_mtu 0 false false TX_MESSAGE_SENDING buf hk_buffer hk_bufferMem hk_bufferSize
               hk_crc false hk_serial), s)); [reflexivity|].
  cbn [on_handle]. by destruct (hdlc_ll_run_tx _ _ _) as [n [h' [k' s']]].
Qed.

Lemma getData_sending size t buf len pending h k s :
  0 < size -> layer_at TX_MESSAGE_SENDING buf false k -> sending_at (m_mem s) t buf len pending h ->
  exists h' k', getData size ((Some h, k), s) =
      (Z.of_nat (length (take (Z.to_nat size) pending)), take (Z.to_nat size) pending, ((Some h', k'), s)) /\
    (Z.of_nat (length pending) <= size /\ idle_at t h' /\ layer_at TX_QUEUE_FREE buf false k' \/
     size < Z.of_nat (length pending) /\ layer_at TX_MESSAGE_SENDING buf false k' /\
     sending_at (m_mem s) t buf len (drop (Z.to_nat size) pending) h').
Proof using Type.
  intros Hsize Hk [Hinv Hbusy Hpend Hcrc].
  destruct (run_tx_outcome link_client on_sent_layer len h (k, s) size) as (h' & u' & Hrun & Hout); [done|lia|].
  cbn [link_client cl_mem hk_client snd] in *. rewrite Hpend in Hrun.
  destruct Hout as (Hc & Hb & _ & Hcase).
  change (tx_pending (m_mem s) (with_window h size)) with (tx_pending (m_mem s) h) in *.
  change (tx_idle (with_window h size)) with (tx_idle h) in *.
  change (crc_type (with_window h size)) with (crc_type h) in *. rewrite Hpend in *.
  cbn [with_window tx_out_buffer fupd] in Hb.
  assert (Hget : getData size ((Some h, k), s) =
    (Z.min size (Z.of_nat (length pending)), tx_out_buffer h', ((Some h', fst u'), snd u'))).
  { rewrite (getData_busy size buf) by done. rewrite Hrun. by destruct u'. }
  change (tx_out_buffer h' = [] ++ take (Z.to_nat size) pending) in Hb. rewrite Hb in Hget.
  assert (Hlen : Z.min size (Z.of_nat (length pending)) = Z.of_nat (length (take (Z.to_nat size) pending))).
  { rewrite length_take. lia. }
  rewrite Hlen in Hget.
  destruct Hcase as [(Hid & _)|[(_ & Hfit & Hi & He & hs & ->)|(_ & Hlt & Hn & -> & Hi & Hp & Ho)]]; [done| |].
  - exists h', (hk_set TX_QUEUE_FREE (hk_clear TX_MESSAGE_SENDING k)). split; [exact Hget|]. left.
    split; [done|]. split; [split; [done..|congruence]|]. layer_cases. by split.
  - exists h', k. split; [exact Hget|]. right. split; [done|]. split; [done|]. split; [done..|congruence].
Qed.

End Layer.

(** ** Sending *)

Section Send.

Context {E : Type} (align sizeof : Z) (malloc : Z -> Z * list Z).
Context (frame_address : hdlc_layer * proto E -> Z).
Context (others : Z -> (option hdlc_ll_data_t * hdlc_layer) * proto E -> (option hdlc_ll_data_t * hdlc_layer) * proto E).
Context (port : serial_port E) (wire incoming : E -> list Z) `{!SerialLine port wire incoming}.
Context (raw : hdlc_ll_data_t) (millis : nat -> Z).

Implicit Types (h : hdlc_ll_data_t) (k : hdlc_layer) (s : proto E).

(** [SerialHdlcProto] without callbacks. *)
Definition hdlc_link : ILinkLayer (option hdlc_ll_data_t * hdlc_layer) E :=
  serial_hdlc_link align sizeof malloc frame_address others (proto_onRead None) (proto_onSend None) port raw.

(** The rest of the object is as it was; [sent] bytes went out, nothing came in, and the clock was
    read [n] times. *)
Record quiet_after (sent : list Z) (n : nat) s s' : Prop := mk_quiet_after {
  qa_wire : wire (m_env s') = wire (m_env s) ++ sent;
  qa_incoming : incoming (m_env s) = [] -> incoming (m_env s') = [];
  qa_rest : s' = s <| m_env := m_env s' |> <| m_clock := (m_clock s + n)%nat |>
}.

Lemma quiet_after_trans sent sent' n n' s1 s2 s3 :
  quiet_after sent n s1 s2 -> quiet_after sent' n' s2 s3 -> quiet_after (sent ++ sent') (n + n') s1 s3.
Proof using Type.
  intros [Hw1 Hi1 Hr1] [Hw2 Hi2 Hr2]. split.
  - by rewrite Hw2, Hw1, app_assoc.
  - auto.
  - rewrite Hr2, Hr1. cbn. by rewrite Nat.add_assoc.
Qed.

Lemma quiet_after_env s e :
  wire e = wire (m_env s) -> (incoming (m_env s) = [] -> incoming e = []) ->
  quiet_after [] 0 s (s <| m_env := e |>).
Proof using Type. intros Hw Hi. split; [by rewrite app_nil_r|done|]. cbn. rewrite Nat.add_0_r. by destruct s. Qed.

Lemma quiet_after_clock s : quiet_after [] 1 s (s <| m_clock ::= S |>).
Proof using Type. split; [by rewrite app_nil_r|done|]. cbn. rewrite Nat.add_1_r. by destruct s. Qed.

(** One call of [runTx] and one of [runRx]. *)
Lemma run_sending t buf len pending h k s :
  layer_at TX_MESSAGE_SENDING buf false k -> sending_at (m_mem s) t buf len pending h ->
  incoming (m_env s) = [] ->
  exists h' k' s', lk_runRx hdlc_link (lk_runTx hdlc_link ((Some h, k), s)) = ((Some h', k'), s') /\
    quiet_after (take 32 pending) 0 s s' /\
    (Z.of_nat (length pending) <= 32 /\ idle_at t h' /\ layer_at TX_QUEUE_FREE buf false k' \/
     32 < Z.of_nat (length pending) /\ layer_at TX_MESSAGE_SENDING buf false k' /\
     sending_at (m_mem s) t buf len (drop 32 pending) h').
Proof using SerialLine0.
  intros Hk Hh Hq.
  destruct (getData_sending frame_address others 32 t buf len pending h k s ltac:(lia) Hk Hh)
    as (h' & k' & Hget & Hcase). change (Z.to_nat 32) with 32%nat in *.
  cbn [hdlc_link serial_hdlc_link serial_link_layer lk_runRx lk_runTx]. unfold layer_runTx.
  cbn [hk_base lb_getData]. rewrite Hget.
  assert (exists e, wire e = wire (m_env s) ++ take 32 pending /\ incoming e = incoming (m_env s) /\
    (if 0 <? Z.of_nat (length (take 32 pending))
     then default ((Some h', k'), s)
            (layer_tx_loop port (Z.to_nat (Z.of_nat (length (take 32 pending))))
               (take (Z.to_nat (Z.of_nat (length (take 32 pending)))) (take 32 pending)) ((Some h', k'), s))
     else ((Some h', k'), s)) = ((Some h', k'), s <| m_env := e |>)) as (e & Hw & Hi & Hloop).
  { destruct (Z.ltb_spec 0 (Z.of_nat (length (take 32 pending)))) as [Hpos|Hpos].
    - rewrite Nat2Z.id, (take_ge (take 32 pending)) by done.
      destruct (layer_tx_loop_ok port wire incoming (length (take 32 pending)) (take 32 pending) ((Some h', k'), s))
        as (e & -> & Hw & Hi); [done|]. by exists e.
    - exists (m_env s). destruct (take 32 pending); [|cbn in Hpos; lia]. rewrite app_nil_r. by destruct s. }
  rewrite Hloop.
  match goal with |- context [layer_runRx port ?b ?z ?w] =>
    destruct (layer_runRx_quiet port wire incoming b z w) as (e' & Hrx & Hw' & Hi'); [done|cbn; congruence|] end.
  rewrite Hrx. cbn [fst snd]. eexists h', k', _. split; [reflexivity|]. split; [|done].
  cbn in Hw'. split; cbn; [congruence|done|]. rewrite Nat.add_0_r. by destruct s.
Qed.

(** The same without a frame. *)
Lemma run_idle temp flush (h : option hdlc_ll_data_t) k s :
  layer_at TX_QUEUE_FREE temp flush k -> incoming (m_env s) = [] ->
  exists s', lk_runRx hdlc_link (lk_runTx hdlc_link ((h, k), s)) = ((h, k), s') /\ quiet_after [] 0 s s'.
Proof using SerialLine0.
  intros Hk Hq. cbn [hdlc_link serial_hdlc_link serial_link_layer lk_runRx lk_runTx]. unfold layer_runTx.
  cbn [hk_base lb_getData]. rewrite (getData_idle frame_address others 32 temp flush h k s Hk). cbn [Z.ltb Z.compare].
  match goal with |- context [layer_runRx port ?b ?z ?w] =>
    destruct (layer_runRx_quiet port wire incoming b z w) as (e' & Hrx & Hw' & Hi'); [done|done|] end.
  rewrite Hrx. eexists. split; [reflexivity|]. by apply quiet_after_env.
Qed.

(** And with a frame that was flushed. *)
Lemma run_flushed buf h k s :
  layer_at TX_MESSAGE_SENDING buf true k -> incoming (m_env s) = [] ->
  exists k' s', lk_runRx hdlc_link (lk_runTx hdlc_link ((Some h, k), s)) =
      ((Some (hdlc_ll_reset h HDLC_LL_RESET_TX_ONLY), k'), s') /\
    quiet_after [] 0 s s' /\ layer_at TX_QUEUE_FREE buf false k'.
Proof using SerialLine0.
  intros Hk Hq. destruct (getData_flushed frame_address others 32 buf h k s Hk) as (k' & Hget & Hk').
  cbn [hdlc_link serial_hdlc_link serial_link_layer lk_runRx lk_runTx]. unfold layer_runTx.
  cbn [hk_base lb_getData]. rewrite Hget. cbn [Z.ltb Z.compare].
  match goal with |- context [layer_runRx port ?b ?z ?w] =>
    destruct (layer_runRx_quiet port wire incoming b z w) as (e' & Hrx & Hw' & Hi'); [done|done|] end.
  rewrite Hrx. eexists k', _. split; [reflexivity|]. split; [|done]. by apply quiet_after_env.
Qed.

(** The time does not run out during the next [n] readings of the clock. *)
Definition in_time (startTs timeout : Z) (from n : nat) : Prop :=
  forall i, (i < n)%nat -> u32 (u32 (millis (from + i)%nat) - startTs) < timeout.

Lemma in_time_next startTs timeout from n : in_time startTs timeout from (S n) -> in_time startTs timeout (S from) n.
Proof using Type. intros Ht i Hi. specialize (Ht (S i) ltac:(lia)). by replace (S from + i)%nat with (from + S i)%nat by lia. Qed.

(** One round of the loop of [send]. *)
Lemma send_loop_done fuel startTs buf len timeout w w1 :
  m_multithread (snd w) = false -> lk_put hdlc_link buf len 0 w = (true, w1) ->
  send_loop hdlc_link millis (S fuel) startTs buf len timeout w = Some (true, w1).
Proof using Type. intros Hm Hp. cbn [send_loop]. by rewrite Hm, Hp. Qed.

Lemma send_loop_round fuel startTs buf len timeout w l s :
  m_multithread (snd w) = false -> lk_put hdlc_link buf len 0 w = (false, (l, s)) -> m_multithread s = false ->
  u32 (u32 (millis (m_clock s)) - startTs) < timeout ->
  send_loop hdlc_link millis (S fuel) startTs buf len timeout w =
    send_loop hdlc_link millis fuel startTs buf len timeout
      (lk_runRx hdlc_link (lk_runTx hdlc_link (l, s <| m_clock ::= S |>))).
Proof using Type.
  intros Hm Hp Hms Ht. cbn [send_loop]. rewrite Hm, Hp. cbn [proto_millis fst snd].
  apply Z.leb_gt in Ht as ->. change (m_multithread (s <| m_clock ::= S |>)) with (m_multithread s). by rewrite Hms.
Qed.

Lemma send_loop_timeout fuel startTs buf len timeout w l s :
  m_multithread (snd w) = false -> lk_put hdlc_link buf len 0 w = (false, (l, s)) ->
  timeout <= u32 (u32 (millis (m_clock s)) - startTs) ->
  send_loop hdlc_link millis (S fuel) startTs buf len timeout w =
    Some (false, lk_flushTx hdlc_link (l, s <| m_clock ::= S |>)).
Proof using Type.
  intros Hm Hp Ht. cbn [send_loop]. rewrite Hm, Hp. cbn [proto_millis fst snd]. by apply Z.leb_le in Ht as ->.
Qed.

(** The loop of [send] after a [put] that queued the frame. *)
Lemma send_rounds rounds fuel startTs timeout t buf len pending w h k s :
  lk_put hdlc_link buf len 0 w = (false, ((Some h, k), s)) -> m_multithread (snd w) = false ->
  layer_at TX_MESSAGE_SENDING buf false k -> sending_at (m_mem s) t buf len pending h ->
  m_multithread s = false -> incoming (m_env s) = [] ->
  (length pending <= 32 * rounds)%nat -> (rounds < fuel)%nat ->
  in_time startTs timeout (m_clock s) rounds ->
  exists h' k' s' n, send_loop hdlc_link millis fuel startTs buf len timeout w = Some (true, ((Some h', k'), s')) /\
    quiet_after pending n s s' /\ idle_at t h' /\ layer_at TX_QUEUE_FREE 0 false k'.
Proof using SerialLine0.
  revert fuel pending w h k s. induction rounds as [|rounds IH];
    intros fuel pending w h k s Hput Hmt Hk Hh Hms Hq Hlen Hf Ht.
  { destruct Hh as [_ Hbusy Hp _]. apply (tx_pending_busy (m_mem s)) in Hbusy. destruct pending; [done|cbn in Hlen; lia]. }
  destruct fuel as [|fuel]; [lia|].
  rewrite (send_loop_round fuel startTs buf len timeout w (Some h, k) s Hmt Hput Hms); cycle 1.
  { specialize (Ht 0%nat ltac:(lia)). by rewrite Nat.add_0_r in Ht. }
  destruct (run_sending t buf len pending h k (s <| m_clock ::= S |>)) as (h1 & k1 & s1 & -> & Hq1 & Hcase); [done..|].
  pose proof (quiet_after_trans _ _ _ _ _ _ _ (quiet_after_clock s) Hq1) as Hqa. cbn [app Nat.add] in Hqa.
  assert (Hs1 : m_multithread s1 = false) by (rewrite (qa_rest _ _ _ _ Hqa); done).
  assert (Hc1 : m_clock s1 = S (m_clock s)) by (rewrite (qa_rest _ _ _ _ Hqa); cbn; lia).
  assert (Hm1 : m_mem s1 = m_mem s) by (rewrite (qa_rest _ _ _ _ Hqa); done).
  pose proof (qa_incoming _ _ _ _ Hqa Hq) as Hi1.
  destruct Hcase as [(Hfit & Hidle & Hk1)|(Hlt & Hk1 & Hh1)].
  - destruct fuel as [|fuel]; [lia|].
    destruct (put_done others buf len false (Some h1) k1 s1 Hk1) as (k2 & Hput2 & Hk2).
    exists h1, k2, s1, 1%nat. split; [by apply send_loop_done|]. split; [|done]. by rewrite take_ge in Hqa by lia.
  - assert (Hput2 : lk_put hdlc_link buf len 0 ((Some h1, k1), s1) = (false, ((Some h1, k1), s1))).
    { cbn [hdlc_link serial_hdlc_link serial_link_layer lk_put hk_base lb_put].
      by apply (put_busy others buf buf len false). }
    destruct (IH fuel (drop 32 pending) _ h1 k1 s1 Hput2) as (h' & k' & s' & n & Hrun & Hqa' & Hidle & Hk');
      [done|done|by rewrite Hm1|done|done|rewrite length_drop; lia|lia|rewrite Hc1; by apply in_time_next|].
    exists h', k', s', (1 + n)%nat. split; [done|]. split; [|done].
    rewrite <- (take_drop 32 pending). by eapply quiet_after_trans.
Qed.

(** An object that can send: single-threaded, its link idle. *)
Record can_send t temp (w : (option hdlc_ll_data_t * hdlc_layer) * proto E) : Prop := mk_can_send {
  cs_handle : exists h, fst (fst w) = Some h /\ idle_at t h;
  cs_layer : exists flush, layer_at TX_QUEUE_FREE temp flush (snd (fst w));
  cs_mt : m_multithread (snd w) = false;
  cs_quiet : incoming (m_env (snd w)) = []
}.

Lemma proto_send_ok rounds fuel t temp packet timeout w :
  can_send t temp w -> t <> HDLC_CRC_OFF -> m_buf packet <> 0 -> temp <> m_buf packet -> 0 < m_len packet ->
  let frame := wire_frame t (mem_range (m_mem (snd w)) (m_buf packet) (Z.to_nat (m_len packet))) in
  (length frame <= 32 * rounds)%nat -> (rounds < fuel)%nat ->
  in_time (u32 (millis (m_clock (snd w)))) timeout (S (m_clock (snd w))) rounds ->
  exists w' n, proto_send hdlc_link millis fuel packet timeout w = Some (true, w') /\
    quiet_after frame n (snd w) (snd w') /\ can_send t 0 w'.
Proof using SerialLine0.
  intros [(h & Hh & Hidle) (flush & Hk) Hmt Hq] Ht Hb Htemp Hl frame Hlen Hf Htime.
  destruct w as [[ho k] s]. cbn [fst snd] in *. subst ho. unfold proto_send. cbn [proto_millis fst snd].
  destruct (put_free others (m_buf packet) temp (m_len packet) flush t h k (s <| m_clock ::= S |>))
    as (h1 & k1 & Hput & Hk1 & Hh1); [done..|].
  destruct (send_rounds rounds fuel (u32 (millis (m_clock s))) timeout t (m_buf packet) (m_len packet) frame
              ((Some h, k), s <| m_clock ::= S |>) h1 k1 (s <| m_clock ::= S |>))
    as (h' & k' & s' & n & Hrun & Hqa & Hi & Hk'); [done..|].
  exists ((Some h', k'), s'), (1 + n)%nat. split; [done|].
  assert (Hqs : quiet_after frame (1 + n) s s').
  { change frame with ([] ++ frame). eapply quiet_after_trans; [apply quiet_after_clock|done]. }
  split; [done|]. split; [by exists h'|by exists false| |].
  - cbn [snd]. rewrite (qa_rest _ _ _ _ Hqs). done.
  - by apply (qa_incoming _ _ _ _ Hqs).
Qed.

(** A send that gives up at once, and another one of the same packet. *)
Lemma proto_send_cancelled_ok fuel t temp packet timeout w :
  can_send t temp w -> t <> HDLC_CRC_OFF -> m_buf packet <> 0 -> temp <> m_buf packet -> 0 < m_len packet ->
  in_time (u32 (millis (2 + m_clock (snd w)))) timeout (3 + m_clock (snd w)) 1 ->
  exists w1 w2,
    proto_send hdlc_link millis (S fuel) packet 0 w = Some (false, w1) /\
    proto_send hdlc_link millis (S (S fuel)) packet timeout w1 = Some (true, w2) /\
    quiet_after [] 4 (snd w) (snd w2) /\ can_send t 0 w2.
Proof using SerialLine0.
  intros [(h & Hh & Hidle) (flush & Hk) Hmt Hq] Ht Hb Htemp Hl Htime.
  destruct w as [[ho k] s]. cbn [fst snd] in *. subst ho.
  destruct (put_free others (m_buf packet) temp (m_len packet) flush t h k (s <| m_clock ::= S |>))
    as (h1 & k1 & Hput & Hk1 & Hh1); [done..|].
  destruct (flush_busy (m_buf packet) false (Some h1) k1 (s <| m_clock ::= S |> <| m_clock ::= S |>) Hk1)
    as (k2 & Hfl & Hk2).
  set (s2 := s <| m_clock ::= S |> <| m_clock ::= S |>) in *.
  assert (Hsend : proto_send hdlc_link millis (S fuel) packet 0 ((Some h, k), s) = Some (false, ((Some h1, k2), s2))).
  { unfold proto_send. cbn [proto_millis fst snd]. rewrite <- Hfl.
    apply send_loop_timeout; [done|exact Hput|]. apply Z.mod_pos_bound. lia. }
  destruct (run_flushed (m_buf packet) h1 k2 (s2 <| m_clock ::= S |> <| m_clock ::= S |>))
    as (k3 & s3 & Hrun & Hqa & Hk3); [done..|].
  assert (Hq4 : quiet_after [] 4 s s3).
  { do 4 (eapply (quiet_after_trans [] [] 1 _ _ _ _ (quiet_after_clock _))). exact Hqa. }
  destruct (put_done others (m_buf packet) (m_len packet) false
              (Some (hdlc_ll_reset h1 HDLC_LL_RESET_TX_ONLY)) k3 s3 Hk3) as (k4 & Hput4 & Hk4).
  assert (Hm3 : m_multithread s3 = false) by (rewrite (qa_rest _ _ _ _ Hq4); done).
  exists ((Some h1, k2), s2), ((Some (hdlc_ll_reset h1 HDLC_LL_RESET_TX_ONLY), k4), s3).
  split; [exact Hsend|]. split; [|split; [exact Hq4|split; cbn [fst snd]]].
  - unfold proto_send. cbn [proto_millis fst snd].
    eapply eq_trans; [apply (send_loop_round (S fuel) _ _ _ timeout _ (Some h1, k2) (s2 <| m_clock ::= S |>))|].
    + exact Hmt.
    + exact (put_busy others _ _ _ true (Some h1) k2 _ Hk2).
    + exact Hmt.
    + specialize (Htime 0%nat ltac:(lia)). rewrite Nat.add_0_r in Htime. exact Htime.
    + rewrite Hrun. apply send_loop_done; [exact Hm3|exact Hput4].
  - eexists. split; [reflexivity|]. split; [done|done|]. apply (sa_crc _ _ _ _ _ _ Hh1).
  - by exists false.
  - done.
  - by apply (qa_incoming _ _ _ _ Hq4).
Qed.

End Send.

(** ** Properties *)

(** C19: A protocol object sends exactly the frame: [Proto::send] on an idle HDLC serial link, without
    threads, returns true when the time does not run out, after it put on the line, in however
    many writes the port takes, the wire format of the packet's bytes and nothing else; the
    object is otherwise as it was and can send again. *)
Theorem proto_send_wire {E} align sizeof malloc frame_address others (port : serial_port E) wire incoming
  (Hline : SerialLine port wire incoming) raw millis rounds fuel t temp packet timeout w :
  can_send incoming t temp w -> t <> HDLC_CRC_OFF -> m_buf packet <> 0 -> temp <> m_buf packet -> 0 < m_len packet ->
  let frame := wire_frame t (mem_range (m_mem (snd w)) (m_buf packet) (Z.to_nat (m_len packet))) in
  (length frame <= 32 * rounds)%nat -> (rounds < fuel)%nat ->
  in_time millis (u32 (millis (m_clock (snd w)))) timeout (S (m_clock (snd w))) rounds ->
  exists w' n,
    proto_send (hdlc_link align sizeof malloc frame_address others port raw) millis fuel packet timeout w = Some (true, w') /\
    wire (m_env (snd w')) = wire (m_env (snd w)) ++ frame /\
    snd w' = (snd w) <| m_env := m_env (snd w') |> <| m_clock := (m_clock (snd w) + n)%nat |> /\
    can_send incoming t 0 w'.
Proof.
  intros Hw Ht Hb Htemp Hl frame Hlen Hf Htime.
  destruct (proto_send_ok align sizeof malloc frame_address others port wire incoming raw millis
              rounds fuel t temp packet timeout w Hw Ht Hb Htemp Hl Hlen Hf Htime) as (w' & n & Hs & [Hq1 _ Hq2] & Hc).
  by exists w', n.
Qed.

(** C20: A cancelled send is taken for a success: after [Proto::send] of a packet gave up (here at
    once, with timeout 0), the frame is flushed, and the next [send] of the same packet returns
    true although nothing goes out; [m_tempBuffer] still holds the address of its buffer. *)
Theorem proto_send_cancelled {E} align sizeof malloc frame_address others (port : serial_port E) wire incoming
  (Hline : SerialLine port wire incoming) raw millis fuel t temp packet timeout w :
  can_send incoming t temp w -> t <> HDLC_CRC_OFF -> m_buf packet <> 0 -> temp <> m_buf packet -> 0 < m_len packet ->
  in_time millis (u32 (millis (2 + m_clock (snd w))%nat)) timeout (3 + m_clock (snd w)) 1 ->
  exists w1 w2,
    let link := hdlc_link align sizeof malloc frame_address others port raw in
    proto_send link millis (S fuel) packet 0 w = Some (false, w1) /\
    proto_send link millis (S (S fuel)) packet timeout w1 = Some (true, w2) /\
    wire (m_env (snd w2)) = wire (m_env (snd w)).
Proof.
  intros Hw Ht Hb Htemp Hl Htime.
  destruct (proto_send_cancelled_ok align sizeof malloc frame_address others port wire incoming raw millis
              fuel t temp packet timeout w Hw Ht Hb Htemp Hl Htime) as (w1 & w2 & H1 & H2 & [Hq1 _ _] & _).
  exists w1, w2. split_and!; [done..|]. by rewrite Hq1, app_nil_r.
Qed.

(** *** Witnesses *)

(** An object with an idle link, four bytes at address 100 and a clock that counts
    milliseconds. *)
Definition demo_handle : hdlc_ll_data_t := fresh_handle HDLC_CRC_16 6 64.
Definition demo_layer : hdlc_layer := hdlc_layer_create <| hk_events := TX_QUEUE_FREE |>.
Definition demo_mem : memory := fun x => if x =? 101 then 0x7E else x - 99.
Definition demo_sender : (option hdlc_ll_data_t * hdlc_layer) * proto (list Z * list Z) :=
  ((Some demo_handle, demo_layer), proto_create false ∅ demo_mem ([], [])).
Definition demo_packet : IPacket := frame_packet 100 4.
Definition demo_millis (n : nat) : Z := Z.of_nat n.

Lemma demo_can_send : can_send snd HDLC_CRC_16 0 demo_sender.
Proof. split; [by exists demo_handle|by exists false|done|done]. Qed.

Lemma demo_in_time start from rounds timeout :
  (start <= from)%nat -> Z.of_nat (from + rounds) < 2 ^ 32 -> Z.of_nat (from + rounds - start) < timeout ->
  in_time demo_millis (u32 (demo_millis start)) timeout from rounds.
Proof.
  intros Hs Hb Ht i Hi. unfold demo_millis, u32. rewrite (Z.mod_small (Z.of_nat (from + i))), (Z.mod_small (Z.of_nat start)) by lia.
  rewrite Z.mod_small by lia. lia.
Qed.

Lemma proto_send_wire_witness :
  wire_frame HDLC_CRC_16 (mem_range demo_mem 100 4) = [0x7E; 1; 0x7D; 0x5E; 3; 4; 0xEA; 0x1C; 0x7E] /\
  exists w' n,
    proto_send (hdlc_link 8 200 (fun n => (4096, replicate (Z.to_nat n) 0)) (fun _ => 4096) (fun _ w => w) slow_line demo_handle)
      demo_millis 3 demo_packet 10 demo_sender = Some (true, w') /\
    fst (m_env (snd w')) = fst (m_env (snd demo_sender)) ++ wire_frame HDLC_CRC_16 (mem_range demo_mem 100 4) /\
    snd w' = (snd demo_sender) <| m_env := m_env (snd w') |> <| m_clock := (m_clock (snd demo_sender) + n)%nat |> /\
    can_send snd HDLC_CRC_16 0 w'.
Proof.
  split; [vm_compute; reflexivity|].
  apply (proto_send_wire 8 200 _ _ _ slow_line fst snd slow_line_ok demo_handle demo_millis 2 3 HDLC_CRC_16 0
           demo_packet 10 demo_sender demo_can_send); [done|done|done|done|vm_compute; lia|lia|].
  apply (demo_in_time 0); vm_compute; done || lia.
Defined.

Lemma proto_send_cancelled_witness :
  exists w1 w2,
    let link := hdlc_link 8 200 (fun n => (4096, replicate (Z.to_nat n) 0)) (fun _ => 4096) (fun _ w => w) slow_line demo_handle in
    proto_send link demo_millis 1 demo_packet 0 demo_sender = Some (false, w1) /\
    proto_send link demo_millis 2 demo_packet 10 w1 = Some (true, w2) /\
    fst (m_env (snd w2)) = [].
Proof.
  apply (proto_send_cancelled 8 200 _ _ _ slow_line fst snd slow_line_ok demo_handle demo_millis 0 HDLC_CRC_16 0
           demo_packet 10 demo_sender demo_can_send); [done|done|done|done|].
  apply (demo_in_time 2); vm_compute; done || lia.
Defined.
