(* ===== verification/ProtoRecv.v ===== *)
(** * Receiving over an HDLC serial link, and the whole way

    The other side of ProtoLink.v: bytes that arrive on the line go through the framing layer to
    the queue, and [Proto::read] returns the packets; what one protocol object sends
    another one reads. *)

From stdpp Require Import gmap.
From S2P Require Import Prelude Crc HdlcLL HdlcSpec HdlcTx HdlcRx HdlcLink FdTypes.
From S2P Require Import Packet Proto ProtoQueue ProtoFlow SerialLink HdlcLayer ProtoLink.

Section Receive.

Context {E : Type} (align sizeof : Z) (malloc : Z -> Z * list Z).
Context (frame_address : hdlc_layer * proto E -> Z).
Context (others : Z -> (option hdlc_ll_data_t * hdlc_layer) * proto E -> (option hdlc_ll_data_t * hdlc_layer) * proto E).
Context (port : serial_port E) (wire incoming : E -> list Z) `{!SerialLine port wire incoming}.
Context (raw : hdlc_ll_data_t) (millis : nat -> Z).

Implicit Types (h : hdlc_ll_data_t) (k : hdlc_layer) (s : proto E).

#[local] Abbreviation client := (link_client frame_address).
#[local] Abbreviation base :=
  (hk_base align sizeof frame_address others (proto_onRead None) (proto_onSend None) raw).
#[local] Abbreviation link :=
  (hdlc_link align sizeof malloc frame_address others port raw).

(** ** The framing layer and the queue *)

(** What the framing layer does with a frame. *)
Definition receive_packet k s (data : list Z) : proto E :=
  proto_unlock (rx_enqueue (frame_address (k, s)) data (proto_lock s)).

Lemma link_client_read h k s data : call_frame_read client (h, (k, s)) data = (h, (k, receive_packet k s data)).
Proof using Type. done. Qed.

#[export] Instance link_client_natural : ReadNatural client.
Proof using Type. split; by intros; destruct u. Qed.

Lemma deliver_packets h k s es :
  deliver client (h, (k, s)) es = (h, (k, foldl (receive_packet k) s (delivered es))).
Proof using Type.
  revert s. induction es as [|[p|e] es IH]; intros s; [done| |].
  - exact (IH (receive_packet k s p)).
  - exact (IH s).
Qed.

Lemma hk_parse_eq h k s data :
  lb_parseData base data ((Some h, k), s) =
    let '(n, _, (h', (k', s'))) := hdlc_ll_run_rx client (h, (k, s)) data in (n, ((Some h', k'), s')).
Proof using Type.
  cbn [hk_base lb_parseData]. unfold hk_parseData. cbn [on_handle]. fold client.
  by destruct (hdlc_ll_run_rx client (h, (k, s)) data) as [[n e] [h' [k' s']]].
Qed.

(** The loop of [runRx] is that of [on_rx_data]. *)
Lemma layer_rx_loop_eq fuel data h k s :
  rx_ready h -> bytes data -> (length data <= fuel)%nat ->
  layer_rx_loop base fuel data ((Some h, k), s) =
    match on_rx_data_loop client fuel (h, (k, s)) data with
    | Some (_, (h', (k', s'))) => Some ((Some h', k'), s')
    | None => None
    end.
Proof using Type.
  revert data h k s. induction fuel as [|fuel IH]; intros data h k s Hr Hd Hf; [by destruct data|].
  destruct data as [|b data]; [done|]. cbn [layer_rx_loop on_rx_data_loop]. rewrite hk_parse_eq.
  destruct Hr as [Hi Hs]. destruct (run_rx_spec client h (k, s) (b :: data) Hi Hs Hd) as (n & e & [h1 [k1 s1]] & Hrun & Href & Hn).
  rewrite Hrun. specialize (Hn ltac:(done)). destruct (Z.ltb_spec (Z.of_nat n) 0); [lia|].
  destruct Href as (Hle & Hi1 & Hs1 & _). rewrite IH; [|done|by apply bytes_drop|].
  - by destruct (on_rx_data_loop client fuel _ _) as [[errs [h' [k' s']]]|].
  - rewrite Nat2Z.id, length_drop. cbn [length] in *. lia.
Qed.

(** The effect of the bytes [data] on the link and on the object. *)
Definition received data h k s h' s' : Prop :=
  rx_ready h' /\ only_rx h h' /\
  exists es, receive (crc_type h) (phys_mtu h) (rx_abs h) data = (rx_abs h', es) /\
    s' = foldl (receive_packet k) s (delivered es).

Lemma layer_rx_loop_ok data h k s :
  rx_ready h -> bytes data ->
  exists h' s', layer_rx_loop base (length data) data ((Some h, k), s) = Some ((Some h', k), s') /\
    received data h k s h' s'.
Proof using Type.
  intros Hr Hd. rewrite layer_rx_loop_eq by done.
  destruct (on_rx_data_loop_spec client (length data) (h, (k, s)) data Hr Hd ltac:(done))
    as (errs & [h' [k' s']] & -> & Hr' & _ & _ & es & Hes & Hh & _).
  unfold happened, client_view in Hh. cbn [fst snd] in Hh. rewrite deliver_packets in Hh.
  pose proof (f_equal snd Hh) as Hu. apply (f_equal fst) in Hh. cbn [fst snd] in Hh, Hu.
  injection Hu as -> ->. exists h', (foldl (receive_packet k) s (delivered es)). split; [done|].
  split; [done|]. split; [|by exists es]. unfold only_rx.
  by rewrite <- (set_rx_twice h' (fresh_handle HDLC_CRC_OFF 0 0) h), <- Hh, set_rx_twice, set_rx_self.
Qed.

(** ** One frame through the queue *)

Context (packets : gmap Z IPacket) (Hbuf : buffers_ok packets).

(** The fields the queue does not touch. *)
Definition surroundings s : bool * E * nat * bool := (m_multithread s, m_env s, m_clock s, m_mutex_misuse s).

Lemma rx_enqueue_surroundings buf data s : surroundings (rx_enqueue buf data s) = surroundings s.
Proof using Type.
  unfold rx_enqueue, fill_packet, queue_append, pool_pop. cbn zeta.
  repeat match goal with |- context [if ?b then _ else _] => destruct b end; done.
Qed.

Lemma receive_packet_ok k s p pool queue held data :
  state_ok packets s (p :: pool) queue held -> m_mutex s = false ->
  let s' := receive_packet k s data in
  state_ok packets s' pool (queue ++ [p]) held /\ m_mutex s' = false /\ surroundings s' = surroundings s /\
  rx_pending s' = true /\ payload_at s' p = take (Z.to_nat (m_size (packet_at s p))) data.
Proof using Hbuf.
  intros Hs Hm. unfold receive_packet. rewrite (proto_lock_free s Hm).
  apply (state_ok_mutex packets true) in Hs.
  pose proof (rx_enqueue_surroundings (frame_address (k, s)) data (s <| m_mutex := true |>)) as Hsur.
  destruct (rx_enqueue_ok packets Hbuf _ p pool queue held (frame_address (k, s)) data Hs) as (Hs2 & [= Hc1 Hc2 Hc3] & He & Hp & _).
  generalize dependent (rx_enqueue (frame_address (k, s)) data (s <| m_mutex := true |>)).
  intros s' Hsur Hs2 Hc1 Hc2 Hc3 He Hp. cbn zeta. rewrite (proto_unlock_held s' Hc1).
  split_and!; [by apply state_ok_mutex|done|exact Hsur| |exact Hp].
  exact (pending_of_events s' _ He).
Qed.

Lemma rx_dequeue_surroundings s : surroundings (snd (rx_dequeue s)) = surroundings s.
Proof using Type. unfold rx_dequeue. cbn zeta. destruct (m_queue s =? 0); [done|]. cbn [snd]. by destruct (nz _). Qed.

Lemma read_locked_ok {L} (l : L) s p pool queue held :
  state_ok packets s pool (p :: queue) held -> m_mutex s = false ->
  exists s', read_locked (l, s) = (p, (l, s')) /\ state_ok packets s' pool queue (p :: held) /\
    m_mutex s' = false /\ surroundings s' = surroundings s /\ forall a, payload_at s' a = payload_at s a.
Proof using Type.
  intros Hs Hm. unfold read_locked. cbn [fst snd]. rewrite (proto_lock_free s Hm).
  apply (state_ok_mutex packets true) in Hs.
  pose proof (rx_dequeue_surroundings (s <| m_mutex := true |>)) as Hsur.
  destruct (rx_dequeue_state packets _ p pool queue held Hs) as (s' & Hd & Hs' & [= Hc1 Hc2 Hc3] & Hp & _).
  rewrite Hd in *. cbn [snd] in Hsur. rewrite (proto_unlock_held s' Hc1).
  exists (s' <| m_mutex := false |>). split_and!; [done|by apply state_ok_mutex|done|exact Hsur|exact Hp].
Qed.

Lemma read_locked_empty {L} (l : L) s pool held :
  state_ok packets s pool [] held -> m_mutex s = false -> read_locked (l, s) = (0, (l, s)).
Proof using Type.
  intros Hs Hm. unfold read_locked. cbn [fst snd]. rewrite (proto_lock_free s Hm).
  apply (state_ok_mutex packets true) in Hs.
  rewrite (rx_dequeue_empty _ pool (so_queues _ _ _ _ _ Hs)). destruct s; cbn in *. by subst.
Qed.

(** ** One call of [runRx] *)

Lemma layer_runRx_ok h k s :
  rx_ready h -> bytes (incoming (m_env s)) -> incoming (m_env s) <> [] ->
  exists n e h' s', layer_runRx port base 32 ((Some h, k), s) = ((Some h', k), s') /\ (0 < n)%nat /\
    wire e = wire (m_env s) /\ incoming e = drop n (incoming (m_env s)) /\
    received (take n (incoming (m_env s))) h k (s <| m_env := e |>) h' s'.
Proof using SerialLine0.
  intros Hr Hb Hne. unfold layer_runRx, readBytes, on_env. cbn [fst snd].
  match goal with |- context [tiny_serial_read_timeout port ?hd ?z ?t ?e] =>
    destruct (line_read (port := port) hd z t e) as (n & buf & e' & -> & Hw & _ & Hcase); [done|] end.
  destruct Hcase as [(? & _)|(Hn & Hbuf' & Hi)]; [done|]. destruct (Z.ltb_spec 0 n); [|lia]. rewrite Hbuf'.
  set (chunk := take (Z.to_nat n) (incoming (m_env s))) in *.
  assert (Hlen : length chunk = Z.to_nat n) by (unfold chunk; rewrite length_take; lia).
  destruct (layer_rx_loop_ok chunk h k (s <| m_env := e' |>)) as (h' & s' & Hloop & Hrec);
    [done|by apply bytes_take|]. rewrite Hlen in Hloop. rewrite Hloop.
  exists (Z.to_nat n), e', h', s'. split_and!; [done|lia|done..].
Qed.

(** ** Reading *)

Lemma proto_events_wait_none s (l : option hdlc_ll_data_t * hdlc_layer) :
  rx_pending s = false -> proto_events_wait others PROTO_RX_MESSAGE 0 (l, s) = (0, (l, s)).
Proof using Type.
  intros Hp. unfold proto_events_wait, proto_events_poll. cbn [fst snd].
  assert (Z.land (m_events s) PROTO_RX_MESSAGE = 0) as ->; [|done].
  apply Z.bits_inj'. intros i Hi. rewrite Z.land_spec, Z.bits_0. unfold rx_pending in Hp.
  destruct (decide (i = 0)) as [->|Hne]; [by rewrite Hp|].
  assert (Z.testbit PROTO_RX_MESSAGE i = false) as ->; [|by rewrite andb_false_r].
  unfold PROTO_RX_MESSAGE. apply (Z.pow2_bits_false 0). lia.
Qed.

(** A reader that has not found a packet yet. *)
Record reading (s : proto E) (p : Z) (pool held : list Z) : Prop := mk_reading {
  rd_state : state_ok packets s (p :: pool) [] held;
  rd_mt : m_multithread s = false;
  rd_mutex : m_mutex s = false;
  rd_pending : rx_pending s = false
}.

Lemma read_loop_round fuel startTs timeout temp flush (ho : option hdlc_ll_data_t) k s p pool held l' s' :
  reading s p pool held -> layer_at TX_QUEUE_FREE temp flush k ->
  layer_runRx port base 32 ((ho, k), s) = (l', s') -> m_clock s' = m_clock s ->
  u32 (u32 (millis (m_clock s)) - startTs) < timeout ->
  read_loop link millis others (S fuel) startTs timeout ((ho, k), s) =
    read_loop link millis others fuel startTs timeout (l', s' <| m_clock ::= S |>).
Proof using Type.
  intros [Hs Hmt Hm Hp] Hk Hrun Hc Ht. cbn [read_loop fst snd]. rewrite Hmt, proto_events_wait_none by done.
  rewrite (read_locked_empty (ho, k) s (p :: pool) held) by done. cbn [nz Z.eqb negb]. cbn [snd]. rewrite Hmt.
  cbn [hdlc_link serial_hdlc_link serial_link_layer lk_runRx lk_runTx]. unfold layer_runTx at 1.
  cbn [hk_base lb_getData]. rewrite (getData_idle frame_address others 32 temp flush ho k s Hk). cbn [Z.ltb Z.compare].
  rewrite Hrun. cbn [proto_millis fst snd]. rewrite Hc. by apply Z.leb_gt in Ht as ->.
Qed.

Lemma delivered_one es es' payload :
  es ++ es' = [Delivered payload] -> (es = [] /\ es' = [Delivered payload]) \/ (es = [Delivered payload] /\ es' = []).
Proof using Type.
  destruct es as [|e es]; [by left|]. intros [= -> Hnil]. apply app_eq_nil in Hnil as [-> ->]. by right.
Qed.

Lemma read_frame rounds fuel startTs timeout temp flush h k s p pool held r payload :
  reading s p pool held -> layer_at TX_QUEUE_FREE temp flush k -> rx_ready h -> bytes (incoming (m_env s)) ->
  receive (crc_type h) (phys_mtu h) (rx_abs h) (incoming (m_env s)) = (r, [Delivered payload]) ->
  (length (incoming (m_env s)) <= rounds)%nat -> (rounds < fuel)%nat ->
  in_time millis startTs timeout (m_clock s) rounds ->
  exists h' s', read_loop link millis others fuel startTs timeout ((Some h, k), s) = Some (p, ((Some h', k), s')) /\
    payload_at s' p = take (Z.to_nat (m_size (packet_at s p))) payload /\
    state_ok packets s' pool [] (p :: held) /\ m_mutex s' = false /\ m_mutex_misuse s' = m_mutex_misuse s /\
    rx_ready h' /\ only_rx h h'.
Proof using SerialLine0 Hbuf.
  revert fuel h s. induction rounds as [|rounds IH]; intros fuel h s Hrd Hk Hr Hb Hrec Hlen Hf Ht.
  { destruct (incoming (m_env s)); [|cbn in Hlen; lia]. done. }
  destruct fuel as [|fuel]; [lia|].
  destruct (layer_runRx_ok h k s Hr Hb) as (n & e & h1 & s1 & Hrun & Hn & _ & Hi & Hr1 & Ho1 & es & Hes & Hs1).
  { intros Hnil. by rewrite Hnil in Hrec. }
  rewrite <- (take_drop n (incoming (m_env s))), receive_app, Hes in Hrec. rewrite <- Hi in Hrec.
  destruct (receive _ _ (rx_abs h1) (incoming e)) as [r2 es2] eqn:E2. injection Hrec as -> Hes12.
  assert (Hcfg : crc_type h1 = crc_type h /\ phys_mtu h1 = phys_mtu h) by by rewrite Ho1.
  assert (Hsize : packet_at (s <| m_env := e |>) p = packet_at s p) by done.
  pose proof (rd_state _ _ _ _ Hrd) as Hst. pose proof (rd_mutex _ _ _ _ Hrd) as Hm.
  apply delivered_one in Hes12 as [[-> ->]|[-> ->]]; cbn [delivered omap list_omap foldl] in Hs1; subst s1.
  - rewrite (read_loop_round fuel startTs timeout temp flush (Some h) k s p pool held _ _ Hrd Hk Hrun); [|done|]; cycle 1.
    { specialize (Ht 0%nat ltac:(lia)). by rewrite Nat.add_0_r in Ht. }
    destruct (IH fuel h1 (s <| m_env := e |> <| m_clock ::= S |>)) as (h' & s' & Hloop & Hx1 & Hx2 & Hx3 & Hx4 & Hx5 & Hx6).
    + destruct Hrd as [[[? ? ? ?] ? ? ?] ? ? ?]. split; [|done..]. split; [by split|done..].
    + done.
    + done.
    + change (bytes (incoming e)). rewrite Hi. by apply bytes_drop.
    + destruct Hcfg as [-> ->]. exact E2.
    + change (length (incoming e) <= rounds)%nat. rewrite Hi, length_drop. lia.
    + lia.
    + by apply in_time_next.
    + exists h', s'. split; [exact Hloop|]. split; [exact Hx1|]. split_and!; try done. by eapply only_rx_trans.
  - assert (Hst' : state_ok packets (s <| m_env := e |>) (p :: pool) [] held).
    { destruct Hst as [[? ? ? ?] ? ? ?]. split; [by split|done..]. }
    destruct (receive_packet_ok k (s <| m_env := e |>) p pool [] held payload Hst' Hm)
      as (Hs2 & Hm2 & Hsur & Hpend & Hpay).
    generalize dependent (receive_packet k (s <| m_env := e |>) payload). intros s2 Hrun Hs2 Hm2 Hsur Hpend Hpay.
    injection Hsur as Hsur1 _ Hsur2 Hsur3.
    rewrite (read_loop_round fuel startTs timeout temp flush (Some h) k s p pool held _ _ Hrd Hk Hrun); [|done|]; cycle 1.
    { specialize (Ht 0%nat ltac:(lia)). by rewrite Nat.add_0_r in Ht. }
    destruct fuel as [|fuel]; [lia|]. pose proof (queue_head _ _ _ _ (so_queues _ _ _ _ _ Hs2)) as [Hh Hne].
    rewrite read_loop_ready; [|done|by cbn; rewrite Hh].
    assert (Hs3 : state_ok packets (s2 <| m_clock ::= S |> <| m_events ::= events_clear PROTO_RX_MESSAGE |>) pool [p] held).
    { destruct Hs2 as [[? ? ? ?] ? ? ?]. split; [by split|done..]. }
    destruct (read_locked_ok (Some h1, k) _ p pool [] held Hs3 Hm2) as (s' & Hl & Hs' & Hm' & Hsur' & Hp').
    exists h1, s'. cbn [fst snd]. rewrite Hl. cbn [snd]. change (m_queue (s2 <| m_clock ::= S |>)) with (m_queue s2).
    rewrite Hh. split; [done|]. split; [by rewrite Hp'|]. injection Hsur' as _ _ _ Hsur'.
    split_and!; try done. by rewrite Hsur'.
Qed.

End Receive.

(** ** Properties *)

(** An object that can receive: its link between two frames, a packet [p] in front of its pool,
    nothing queued. *)
Record can_receive {E} (packets : gmap Z IPacket) (t : hdlc_crc_t) (mtu p : Z) (pool held : list Z)
  (w : (option hdlc_ll_data_t * hdlc_layer) * proto E) : Prop := mk_can_receive {
  cr_handle : exists h, fst (fst w) = Some h /\ rx_ready h /\ crc_type h = t /\ phys_mtu h = mtu /\
    (rx_abs h = Hunting \/ exists esc, rx_abs h = Receiving [] esc);
  cr_layer : exists temp flush, layer_at TX_QUEUE_FREE temp flush (snd (fst w));
  cr_reading : reading packets (snd w) p pool held
}.

(** C7: What one protocol object sends another one reads: over an HDLC serial line that takes and
    gives the bytes in pieces of any size, [Proto::send] of a packet returns true, and
    [Proto::read] of an object with a packet in its pool, to which those bytes and nothing else
    arrive, returns that packet, with the bytes sent in it (cut to its size); the
    packet then belongs to the application. *)
Theorem proto_link_roundtrip {E} align sizeof malloc frame_address others (port : serial_port E) wire incoming
  (Hline : SerialLine port wire incoming) raw millis rounds fuel t temp packet timeout w
  packets mtu p pool held v :
  buffers_ok packets -> can_send incoming t temp w -> can_receive packets t mtu p pool held v ->
  m_buf packet <> 0 -> temp <> m_buf packet -> 0 < m_len packet ->
  let payload := mem_range (m_mem (snd w)) (m_buf packet) (Z.to_nat (m_len packet)) in
  bytes payload -> m_len packet + Z.of_nat (fcs_size t) <= mtu ->
  (length (wire_frame t payload) <= rounds)%nat -> (rounds < fuel)%nat ->
  in_time millis (u32 (millis (m_clock (snd w)))) timeout (S (m_clock (snd w))) rounds ->
  in_time millis (u32 (millis (m_clock (snd v)))) timeout (S (m_clock (snd v))) rounds ->
  let link := hdlc_link align sizeof malloc frame_address others port raw in
  exists w', proto_send link millis fuel packet timeout w = Some (true, w') /\
    (wire (m_env (snd w')) = wire (m_env (snd w)) ++ incoming (m_env (snd v)) ->
     exists v', proto_read link millis others fuel timeout v = Some (p, v') /\
       payload_at (snd v') p = take (Z.to_nat (m_size (packet_at (snd v) p))) payload /\
       state_ok packets (snd v') pool [] (p :: held)).
Proof.
  intros Hbuf Hw [(h & Hh & Hr & Hc & Hm & Hb) (tmp & fl & Hk) Hrd] Hb0 Htemp Hl payload Hbytes Hmtu Hlen Hf Ht1 Ht2 link.
  assert (Hoff : t <> HDLC_CRC_OFF) by (rewrite <- Hc; apply Hr).
  destruct (proto_send_ok align sizeof malloc frame_address others port wire incoming raw millis rounds fuel t temp packet
              timeout w Hw Hoff Hb0 Htemp Hl ltac:(fold payload; lia) Hf Ht1) as (w' & n & Hs & [Hq1 _ _] & _).
  exists w'. split; [exact Hs|]. intros Hin. rewrite Hq1 in Hin. apply app_inv_head in Hin. symmetry in Hin.
  fold payload in Hin. destruct v as [[ho k] s]. cbn [fst snd] in *. subst ho.
  assert (Hne : payload <> []).
  { intros Hnil. apply (f_equal length) in Hnil. unfold payload in Hnil. rewrite mem_range_length in Hnil.
    cbn in Hnil. lia. }
  assert (Hplen : length payload = Z.to_nat (m_len packet)) by (unfold payload; by rewrite mem_range_length).
  destruct (read_frame align sizeof malloc frame_address others port wire incoming raw millis packets Hbuf
              rounds fuel (u32 (millis (m_clock s))) timeout tmp fl h k (s <| m_clock ::= S |>) p pool held Hunting payload)
    as (h' & s' & Hread & Hpay & Hst & _).
  - destruct Hrd as [[[? ? ? ?] ? ? ?] ? ? ?]. split; [|done..]. split; [by split|done..].
  - done.
  - done.
  - change (bytes (incoming (m_env s))). rewrite Hin. by apply wire_frame_bytes.
  - change (m_env (s <| m_clock ::= S |>)) with (m_env s). rewrite Hin, Hc, Hm.
    apply receive_frame_from; [done|lia|done].
  - change (m_env (s <| m_clock ::= S |>)) with (m_env s). by rewrite Hin.
  - done.
  - exact Ht2.
  - exists ((Some h', k), s'). split; [exact Hread|]. split; [exact Hpay|exact Hst].
Qed.

(** *** Witnesses *)

(** A receiver with one packet of three bytes. *)
Definition demo_rx_packets : gmap Z IPacket := {[ 8 := packet_on 200 3 ]}.

Definition demo_receiver : (option hdlc_ll_data_t * hdlc_layer) * proto (list Z * list Z) :=
  ((Some demo_handle, demo_layer),
   proto_addRxPool 8 (proto_create false demo_rx_packets (fun _ => 0)
     ([], wire_frame HDLC_CRC_16 (mem_range demo_mem 100 4)))).

Lemma demo_rx_buffers : buffers_ok demo_rx_packets.
Proof.
  unfold demo_rx_packets. split; [done| |].
  - intros a q [<- <-]%lookup_singleton_Some. cbn. lia.
  - intros a b q r [<- <-]%lookup_singleton_Some [<- <-]%lookup_singleton_Some Hne. done.
Qed.

Lemma demo_can_receive : can_receive demo_rx_packets HDLC_CRC_16 6 8 [] [] demo_receiver.
Proof.
  split.
  - exists demo_handle. split; [done|]. split; [by apply fresh_handle_ready|]. split; [done|]. split; [done|by left].
  - by exists 0, false.
  - split; [|done..]. split; [|vm_compute; done| |].
    + split; [|split; [done|]; split; [done|]|done|done].
      * apply NoDup_singleton.
      * by exists 0.
    + apply map_eq. intros a. unfold layout, demo_receiver, demo_rx_packets. cbn. rewrite !lookup_fmap.
      destruct (decide (8 = a)) as [<-|Hne]; [done|]. rewrite !lookup_alter_ne by done. done.
    + intros a Ha. by apply elem_of_nil in Ha.
Qed.

Lemma proto_link_roundtrip_witness :
  let link := hdlc_link 8 200 (fun n => (4096, replicate (Z.to_nat n) 0)) (fun _ => 4096) (fun _ w => w) slow_line demo_handle in
  exists w', proto_send link demo_millis 10 demo_packet 20 demo_sender = Some (true, w') /\
    (fst (m_env (snd w')) = fst (m_env (snd demo_sender)) ++ snd (m_env (snd demo_receiver)) ->
     exists v', proto_read link demo_millis (fun _ w => w) 10 20 demo_receiver = Some (8, v') /\
       payload_at (snd v') 8 = take (Z.to_nat (m_size (packet_at (snd demo_receiver) 8))) (mem_range demo_mem 100 4) /\
       state_ok demo_rx_packets (snd v') [] [] [8]).
Proof.
  apply (proto_link_roundtrip 8 200 _ _ _ slow_line fst snd slow_line_ok demo_handle demo_millis 9 10 HDLC_CRC_16 0
           demo_packet 20 demo_sender demo_rx_packets 6 8 [] [] demo_receiver demo_rx_buffers demo_can_send
           demo_can_receive).
  - done.
  - done.
  - done.
  - by apply (bool_decide_eq_true_1 _); vm_compute.
  - done.
  - vm_compute. lia.
  - lia.
  - apply (demo_in_time 0); vm_compute; done || lia.
  - apply (demo_in_time 0); vm_compute; done || lia.
Defined.
