(* ===== verification/ProtoBegin.v ===== *)
(** * Starting a protocol object on an HDLC serial link

    [SerialHdlcProto::begin]: the buffer of the link is allocated and large enough for the framing
    layer, the port is opened, and the object can send and receive in the sense of ProtoLink.v and
    ProtoRecv.v. *)

From stdpp Require Import gmap.
From S2P Require Import Prelude Crc HdlcLL HdlcSpec HdlcTx HdlcRx HdlcInit FdTypes.
From S2P Require Import Packet Proto ProtoQueue ProtoFlow SerialLink HdlcLayer ProtoLink ProtoRecv.

(** A new object: the type of the frame check sequence and the MTU may have been set. *)
Definition new_proto {E} (t : hdlc_crc_t) (mtu : Z) (packets : gmap Z IPacket) (mem : memory) (env : E)
  : (option hdlc_ll_data_t * hdlc_layer) * proto E :=
  ((None, hdlc_layer_create <| hk_crc := t |> <| hk_mtu := mtu |>), proto_create false packets mem env).

(** What [begin] relies on: [malloc] gives memory of the size asked for, in the address space, and the
    port opens. *)
Record platform_ok {E} (k sizeof : Z) (malloc : Z -> Z * list Z) (port : serial_port E)
  (wire incoming : E -> list Z) (t : hdlc_crc_t) (mtu : Z) (env : E) : Prop := mk_platform_ok {
  po_align : 0 <= k;
  po_sizeof : 0 < sizeof;
  po_malloc : let size := hdlc_ll_get_buf_size_ex (2 ^ k) sizeof mtu t 3 in
    exists a m, malloc size = (a, m) /\ 0 < a /\ a + 2 ^ k - 1 < 2 ^ (8 * 2 ^ k) /\
      Z.of_nat (length m) = size /\ bytes m;
  po_open : exists hd e, tiny_serial_open port 115200 env = (hd, e) /\ hd <> TINY_SERIAL_INVALID /\
    wire e = wire env /\ incoming e = incoming env
}.

Section Begin.

Context {E : Type} (k sizeof : Z) (malloc : Z -> Z * list Z) (frame_address : hdlc_layer * proto E -> Z).
Context (others : Z -> (option hdlc_ll_data_t * hdlc_layer) * proto E -> (option hdlc_ll_data_t * hdlc_layer) * proto E).
Context (port : serial_port E) (wire incoming : E -> list Z) (raw : hdlc_ll_data_t).

(** The state of a started object. *)
Record started (t : hdlc_crc_t) (mtu : Z) (s : proto E) (w : (option hdlc_ll_data_t * hdlc_layer) * proto E) : Prop :=
  mk_started {
  st_handle : exists h, fst (fst w) = Some h /\ idle_at t h /\ rx_ready h /\ rx_abs h = Hunting /\
    phys_mtu h = mtu + get_crc_field_size t;
  st_layer : layer_at TX_QUEUE_FREE 0 false (snd (fst w));
  st_rest : snd w = s <| m_env := m_env (snd w) |>;
  st_wire : wire (m_env (snd w)) = wire (m_env s);
  st_incoming : incoming (m_env (snd w)) = incoming (m_env s)
}.

Lemma proto_begin_ok t mtu packets mem env :
  platform_ok k sizeof malloc port wire incoming t mtu env -> rx_overrun raw = false -> t <> HDLC_CRC_OFF -> 0 < mtu ->
  exists w, proto_begin (hdlc_link (2 ^ k) sizeof malloc frame_address others port raw) (new_proto t mtu packets mem env) =
      (true, w) /\ started t mtu (proto_create false packets mem env) w.
Proof using Type.
  intros [Hk Hsz (a & m & Hmal & Ha & Hspace & Hlen & Hb) (hd & e & Hopen & Hhd & Hw & Hi)] Hraw Ht Hmtu.
  set (init := mk_hdlc_ll_init a m (hdlc_ll_get_buf_size_ex (2 ^ k) sizeof mtu t 3) t mtu).
  pose proof (align_buffer_bounds k Hk a ltac:(lia) ltac:(lia)) as Hal.
  destruct (hdlc_ll_init_spec (2 ^ k) sizeof 3 raw init) as (h & Hinit & Hr & Hstart & Hidle & Hesc & Hc & Hm & _);
    cbn [init hi_buf hi_buf_mem hi_buf_size hi_crc_type hi_mtu]; try done; try lia.
  { unfold hdlc_ll_get_buf_size_ex in *. lia. }
  unfold proto_begin. cbn [new_proto proto_create fst snd m_multithread andb negb].
  cbn [hdlc_link serial_hdlc_link serial_link_layer lk_setTimeout lk_begin hk_base lb_setTimeout].
  unfold serial_hdlc_begin.
  cbn -[hdlc_ll_init hdlc_ll_get_buf_size_ex layer_begin]. rewrite Hmal. unfold layer_begin. cbn [hk_base lb_begin lb_getTimeout]. unfold hk_begin. cbn -[hdlc_ll_init hdlc_ll_get_buf_size_ex].
  fold init. rewrite Hinit. cbn -[hdlc_ll_init hdlc_ll_get_buf_size_ex].
  unfold serial_begin, on_env. cbn -[hdlc_ll_init hdlc_ll_get_buf_size_ex]. rewrite Hopen.
  apply Z.eqb_neq in Hhd. rewrite Hhd. cbn -[hdlc_ll_init hdlc_ll_get_buf_size_ex].
  eexists. split; [reflexivity|]. split; cbn [fst snd].
  - exists h. split; [done|]. split; [by split|]. split; [done|]. split; [by unfold rx_abs; rewrite Hstart|done].
  - by split.
  - done.
  - done.
  - done.
Qed.

Lemma started_can_send t mtu packets mem env w :
  started t mtu (proto_create false packets mem env) w -> incoming env = [] -> can_send incoming t 0 w.
Proof using Type.
  intros [(h & Hh & Hid & _) Hl Hs _ Hi] Hq. split.
  - by exists h.
  - by exists false.
  - by rewrite Hs.
  - by rewrite Hi.
Qed.

Lemma started_can_receive t mtu packets mem env w p held :
  started t mtu (proto_create false packets mem env) w -> buffers_ok packets ->
  addresses packets ≡ₚ p :: held ->
  can_receive packets t (mtu + get_crc_field_size t) p [] held (fst w, proto_addRxPool p (snd w)).
Proof using Type.
  intros [(h & Hh & [Hid He Hc] & Hr & Hab & Hm) Hl Hs _ Hi] Hbuf Hp. split; cbn [fst snd].
  - exists h. split_and!; try done. by left.
  - by exists 0, false.
  - destruct w as [l s]. cbn [fst snd] in *. set (s0 := proto_create false packets mem env) in *.
    assert (Hst : state_ok packets s [] [] (addresses packets)).
    { rewrite Hs. split; [split; [constructor|done..]|done|done|]. intros a Ha. by apply elem_of_nil in Ha. }
    assert (Hmut : m_mutex s = false) by (rewrite Hs; done).
    unfold proto_addRxPool. rewrite (proto_lock_free s Hmut).
    apply (state_ok_mutex packets true) in Hst.
    destruct (pool_push_state packets Hbuf _ p [] [] (addresses packets) held Hst Hp) as (Hst2 & Hcnt & Hev & _).
    assert (Hmt : m_multithread (pool_push p (s <| m_mutex := true |>)) = false).
    { unfold pool_push. cbn zeta. rewrite Hs. by destruct (nz _). }
    generalize dependent (pool_push p (s <| m_mutex := true |>)). intros s' Hst2 Hcnt Hev Hmt. injection Hcnt as Hc1 _ _.
    rewrite (proto_unlock_held s' Hc1). split; [by apply state_ok_mutex|exact Hmt|done|].
    unfold rx_pending. change (Z.testbit (m_events s') 0 = false). rewrite Hev, Hs. done.
Qed.

(** [end] does nothing to an object without threads: only [begin] with threads clears
    [m_terminate], so the link stays open and its buffer allocated. *)
Lemma proto_end_ineffective t mtu packets mem env w link :
  started t mtu (proto_create false packets mem env) w -> proto_end link w = w.
Proof using Type. intros [_ _ Hs _ _]. unfold proto_end. by rewrite Hs. Qed.

End Begin.

(** ** Properties *)

(** C27: A new object can be started and used: with memory and a port that opens, [begin] of an
    object without threads returns true, the buffer the link allocates is large enough for the framing
    layer, the object then can send, and once a packet is in its pool can receive frames of the MTU;
    nothing is sent, read or queued. *)
Theorem proto_begin_ready {E} k sizeof malloc frame_address others (port : serial_port E) wire incoming raw
  t mtu packets mem env :
  platform_ok k sizeof malloc port wire incoming t mtu env -> rx_overrun raw = false -> t <> HDLC_CRC_OFF -> 0 < mtu ->
  buffers_ok packets -> incoming env = [] ->
  exists w, proto_begin (hdlc_link (2 ^ k) sizeof malloc frame_address others port raw) (new_proto t mtu packets mem env) =
      (true, w) /\
    can_send incoming t 0 w /\ wire (m_env (snd w)) = wire env /\
    forall p held, addresses packets ≡ₚ p :: held ->
      can_receive packets t (mtu + get_crc_field_size t) p [] held (fst w, proto_addRxPool p (snd w)).
Proof.
  intros Hpl Hraw Ht Hm Hbuf Hin.
  destruct (proto_begin_ok k sizeof malloc frame_address others port wire incoming raw t mtu packets mem env)
    as (w & Hbegin & Hst); [done..|].
  exists w. split; [done|]. split; [by eapply started_can_send|]. split; [apply (st_wire _ _ _ _ _ _ Hst)|].
  intros p held Hp. by eapply started_can_receive.
Qed.

Lemma proto_begin_ready_witness :
  exists w, proto_begin (hdlc_link (2 ^ 3) 200 (fun n => (4097, replicate (Z.to_nat n) 0)) (fun _ => 4096) (fun _ w => w)
                           slow_line demo_handle)
              (new_proto HDLC_CRC_16 64 demo_rx_packets demo_mem ([], [])) = (true, w) /\
    can_send snd HDLC_CRC_16 0 w /\ fst (m_env (snd w)) = [] /\
    forall p held, addresses demo_rx_packets ≡ₚ p :: held ->
      can_receive demo_rx_packets HDLC_CRC_16 (64 + 2) p [] held (fst w, proto_addRxPool p (snd w)).
Proof.
  apply (proto_begin_ready 3 200 _ _ _ slow_line fst snd demo_handle HDLC_CRC_16 64 demo_rx_packets demo_mem ([], []));
    [|done|done|lia|apply demo_rx_buffers|done].
  split; [lia|lia| |].
  - eexists _, _. split; [reflexivity|]. split; [lia|]. split; [vm_compute; reflexivity|].
    rewrite length_replicate. split; [vm_compute; reflexivity|]. apply Forall_replicate. by vm_compute.
  - eexists _, _. split; [reflexivity|]. done.
Defined.
