(* ===== verification/LinuxSerial.v ===== *)
(** * The serial port on Linux (src/hal/linux/linux_serial.inl)

    The four functions of the port over the system calls, which are parameters with what POSIX
    documents of them as laws.  The port keeps no descriptor when it fails to open, and on a
    line that is ready it is a [SerialLine]: what the protocol objects need (ProtoLink.v). *)

From stdpp Require Import gmap.
From S2P Require Import Prelude Packet Proto SerialLink ProtoQueue ProtoFlow.
From S2P Require Import Crc HdlcLL HdlcSpec HdlcTx HdlcRx FdTypes HdlcLayer ProtoLink.

(** ** Constants of the system's headers *)

Definition EINTR : Z := 4.
Definition EAGAIN : Z := 11.
Definition POLLIN : Z := 0x001.
Definition POLLOUT : Z := 0x004.
Definition POLLRDNORM : Z := 0x040.
Definition POLLWRNORM : Z := 0x100.

Definition ICRNL : Z := 0x100.
Definition IXON : Z := 0x400.
Definition IXANY : Z := 0x800.
Definition IXOFF : Z := 0x1000.
Definition ONLCR : Z := 0x4.
Definition HUPCL : Z := 0x400.
Definition CRTSCTS : Z := 0x80000000.
Definition ICANON : Z := 0x2.
Definition ECHO : Z := 0x8.
Definition ECHONL : Z := 0x40.
Definition ECHOCTL : Z := 0x200.

Definition B9600 : Z := 13.
Definition B38400 : Z := 15.
Definition B57600 : Z := 4097.
Definition B115200 : Z := 4098.
Definition B230400 : Z := 4099.

(** [struct termios], with the two control characters that are set. *)
Record termios : Type := mk_termios {
  c_iflag : Z;
  c_oflag : Z;
  c_cflag : Z;
  c_lflag : Z;
  c_vmin : Z;
  c_vtime : Z
}.

#[export] Instance eta_termios : Eta termios := fun t =>
  mk_termios (c_iflag t) (c_oflag t) (c_cflag t) (c_lflag t) (c_vmin t) (c_vtime t).

(** The system calls on the environment [E], with the number of a failed one's error; [poll]
    gives its result and [revents], [read] its result and the bytes.  The functions of
    the C library on [termios] come last. *)
Record linux (E : Type) : Type := mk_linux {
  sys_open : E -> Z * E;
  sys_set_blocking : Z -> E -> E;
  sys_close : Z -> E -> E;
  sys_tcgetattr : Z -> E -> Z * termios * E;
  sys_tcsetattr : Z -> termios -> E -> Z * E;
  sys_tcflush : Z -> E -> E;
  sys_poll : Z -> Z -> Z -> E -> Z * Z * E;
  sys_read : Z -> Z -> E -> Z * list Z * E;
  sys_write : Z -> list Z -> E -> Z * E;
  errno : E -> Z;
  cfmakeraw : termios -> termios;
  cfsetspeed : termios -> Z -> Z * termios;
  cfsetospeed : termios -> Z -> Z * termios;
  cfsetispeed : termios -> Z -> Z * termios
}.
Arguments sys_open {E}.
Arguments sys_set_blocking {E}.
Arguments sys_close {E}.
Arguments sys_tcgetattr {E}.
Arguments sys_tcsetattr {E}.
Arguments sys_tcflush {E}.
Arguments sys_poll {E}.
Arguments sys_read {E}.
Arguments sys_write {E}.
Arguments errno {E}.
Arguments cfmakeraw {E}.
Arguments cfsetspeed {E}.
Arguments cfsetospeed {E}.
Arguments cfsetispeed {E}.

(** [x & ~bits] on [tcflag_t], 32 bits *)
Definition without (bits x : Z) : Z := u32 (Z.land x (Z.lnot bits)).

Definition bits_to_baud (bits : Z) : Z :=
  if bits =? 230400 then B230400 else
  if bits =? 115200 then B115200 else
  if bits =? 57600 then B57600 else
  if bits =? 38400 then B38400 else B9600.

Section Port.

Context {E : Type} (sys : linux E).

(** ** Opening and closing *)

Definition linux_serial_close (port : Z) (e : E) : E :=
  if 0 <=? port then sys_close sys port e else e.

(** The settings made before the speed. *)
Definition raw_options (oldt : termios) : termios :=
  let options := cfmakeraw sys oldt in
  let options := options <| c_lflag ::= without ICANON |> in
  let options := options <| c_lflag ::= without (Z.lor (Z.lor ECHO ECHOCTL) ECHONL) |> in
  let options := options <| c_cflag ::= Z.lor HUPCL |> in
  let options := options <| c_oflag ::= without ONLCR |> in
  let options := options <| c_iflag ::= without ICRNL |> in
  let options := options <| c_cflag ::= without CRTSCTS |> in
  options <| c_iflag ::= without (Z.lor (Z.lor IXON IXOFF) IXANY) |>.

Definition linux_serial_open (baud : Z) (e : E) : Z * E :=
  let '(fd, e) := sys_open sys e in
  if fd =? -1 then (TINY_SERIAL_INVALID, e) else
  let e := sys_set_blocking sys fd e in
  let '(ret, oldt, e) := sys_tcgetattr sys fd e in
  if ret =? -1 then (TINY_SERIAL_INVALID, sys_close sys fd e) else
  let options := raw_options oldt in
  let '(ret, options) := cfsetspeed sys options (bits_to_baud baud) in
  if ret =? -1 then (TINY_SERIAL_INVALID, sys_close sys fd e) else
  let '(ret, options) := cfsetospeed sys options (bits_to_baud baud) in
  if ret =? -1 then (TINY_SERIAL_INVALID, sys_close sys fd e) else
  let '(ret, options) := cfsetispeed sys options (bits_to_baud baud) in
  if ret =? -1 then (TINY_SERIAL_INVALID, sys_close sys fd e) else
  let options := options <| c_vmin := 0 |> <| c_vtime := 1 |> in
  let '(ret, e) := sys_tcsetattr sys fd options e in
  if ret =? -1 then (TINY_SERIAL_INVALID, sys_close sys fd e) else
  (fd, sys_tcflush sys fd e).

(** ** Sending and receiving *)

(** [poll], again when a signal interrupts it; [None] means the fuel ran out.  The timeout
    becomes an [int]. *)
Fixpoint poll_again (fuel : nat) (fd events timeout_ms : Z) (e : E) : option (Z * Z * E) :=
  match fuel with
  | O => None
  | S fuel =>
      let '(ret, revents, e) := sys_poll sys fd events (signed (-2 ^ 31) 32 timeout_ms) e in
      if (ret <? 0) && (errno sys e =? EINTR) then poll_again fuel fd events timeout_ms e
      else Some (ret, revents, e)
  end.

Definition linux_serial_send_timeout (fuel : nat) (port : Z) (buf : list Z) (timeout_ms : Z) (e : E)
  : option (Z * E) :=
  match poll_again fuel port (Z.lor POLLOUT POLLWRNORM) timeout_ms e with
  | None => None
  | Some (ret, revents, e) =>
      if ret <? 0 then Some (ret, e) else
      if (ret =? 0) || negb (nz (Z.land revents (Z.lor POLLOUT POLLWRNORM))) then Some (0, e) else
      let '(ret, e) := sys_write sys port buf e in
      if (ret <? 0) && ((errno sys e =? EAGAIN) || (errno sys e =? EINTR)) then Some (0, e)
      else Some (ret, e)
  end.

Definition linux_serial_read_timeout (fuel : nat) (port len timeout_ms : Z) (e : E)
  : option (Z * list Z * E) :=
  match poll_again fuel port (Z.lor POLLIN POLLRDNORM) timeout_ms e with
  | None => None
  | Some (ret, revents, e) =>
      if ret <? 0 then Some (ret, [], e) else
      if (ret =? 0) || negb (nz (Z.land revents (Z.lor POLLIN POLLRDNORM))) then Some (0, [], e) else
      let '(ret, buf, e) := sys_read sys port len e in
      if (ret <? 0) && ((errno sys e =? EAGAIN) || (errno sys e =? EINTR)) then Some (0, buf, e)
      else Some (ret, buf, e)
  end.

(** [tiny_serial_send] and [tiny_serial_read] *)
Definition linux_serial_send (fuel : nat) (port : Z) (buf : list Z) (e : E) : option (Z * E) :=
  linux_serial_send_timeout fuel port buf 100 e.

Definition linux_serial_read (fuel : nat) (port len : Z) (e : E) : option (Z * list Z * E) :=
  linux_serial_read_timeout fuel port len 100 e.

(** The port as the link layers use it. *)
Definition linux_port (fuel : nat) : serial_port E := {|
  tiny_serial_open := linux_serial_open;
  tiny_serial_close := linux_serial_close;
  tiny_serial_send_timeout port buf timeout e :=
    default (-1, e) (linux_serial_send_timeout fuel port buf timeout e);
  tiny_serial_read_timeout port len timeout e :=
    default (-1, [], e) (linux_serial_read_timeout fuel port len timeout e)
|}.

End Port.

(** ** Descriptors *)

(** POSIX: [open] gives a new descriptor, [close] takes it back, and the other calls open and
    close none; [tcsetattr] that succeeds makes the settings the given ones. *)
Class DescriptorLaws {E} (sys : linux E) (open_fds : E -> gset Z) (settings : E -> Z -> termios) : Prop := {
  law_open e : let '(fd, e') := sys_open sys e in
    fd = -1 /\ open_fds e' = open_fds e \/ 0 <= fd /\ (fd ∉ open_fds e) /\ open_fds e' = ({[fd]} ∪ open_fds e);
  law_close fd e : open_fds (sys_close sys fd e) = open_fds e ∖ {[fd]};
  law_set_blocking fd e : open_fds (sys_set_blocking sys fd e) = open_fds e;
  law_tcgetattr fd e : open_fds (snd (sys_tcgetattr sys fd e)) = open_fds e;
  law_tcsetattr fd t e : let '(ret, e') := sys_tcsetattr sys fd t e in
    open_fds e' = open_fds e /\ (ret <> -1 -> settings e' fd = t);
  law_tcflush fd e : open_fds (sys_tcflush sys fd e) = open_fds e /\ settings (sys_tcflush sys fd e) = settings e
}.

(** Setting a speed leaves the other flags alone. *)
Definition keeps_flags (f : termios -> Z -> Z * termios) : Prop :=
  forall t speed, let t' := snd (f t speed) in
    c_iflag t' = c_iflag t /\ c_oflag t' = c_oflag t /\ c_lflag t' = c_lflag t.

Class SpeedLaws {E} (sys : linux E) : Prop := {
  law_cfsetspeed : keeps_flags (cfsetspeed sys);
  law_cfsetospeed : keeps_flags (cfsetospeed sys);
  law_cfsetispeed : keeps_flags (cfsetispeed sys)
}.

(** No line editing, no echo, no mapping of CR and NL, no flow control by characters, and reads
    that end after 100 ms. *)
Record raw_line (t : termios) : Prop := mk_raw_line {
  raw_lflag : Z.land (c_lflag t) (Z.lor ICANON (Z.lor (Z.lor ECHO ECHOCTL) ECHONL)) = 0;
  raw_oflag : Z.land (c_oflag t) ONLCR = 0;
  raw_iflag : Z.land (c_iflag t) (Z.lor ICRNL (Z.lor (Z.lor IXON IXOFF) IXANY)) = 0;
  raw_vmin : c_vmin t = 0;
  raw_vtime : c_vtime t = 1
}.

Lemma without_clears bits x : 0 <= bits < 2 ^ 32 -> Z.land (without bits x) bits = 0.
Proof.
  intros Hb. unfold without, u32. rewrite <- Z.land_ones by lia.
  rewrite <- Z.land_assoc, (Z.land_comm (Z.ones 32)), Z.land_assoc, <- (Z.land_assoc x), (Z.land_comm (Z.lnot bits)).
  by rewrite Z.land_lnot_diag, Z.land_0_r, Z.land_0_l.
Qed.

Lemma without_keeps_clear bits m x : Z.land x m = 0 -> Z.land (without bits x) m = 0.
Proof.
  intros Hx. unfold without, u32. rewrite <- Z.land_ones by lia.
  rewrite <- Z.land_assoc, (Z.land_comm _ m), Z.land_assoc, (Z.land_comm _ m), Z.land_assoc, (Z.land_comm m x), Hx.
  by rewrite !Z.land_0_l.
Qed.

Lemma land_lor_0 x a b : Z.land x a = 0 -> Z.land x b = 0 -> Z.land x (Z.lor a b) = 0.
Proof. intros Ha Hb. by rewrite Z.land_lor_distr_r, Ha, Hb. Qed.

(** [raw_options] is raw but for the two control characters. *)
Lemma raw_options_flags {E} (sys : linux E) oldt :
  let t := raw_options sys oldt in
  Z.land (c_lflag t) (Z.lor ICANON (Z.lor (Z.lor ECHO ECHOCTL) ECHONL)) = 0 /\
  Z.land (c_oflag t) ONLCR = 0 /\ Z.land (c_iflag t) (Z.lor ICRNL (Z.lor (Z.lor IXON IXOFF) IXANY)) = 0.
Proof.
  unfold raw_options. set (o := cfmakeraw sys oldt). cbn -[Z.lor Z.land without]. split_and!.
  - apply land_lor_0; [apply without_keeps_clear|]; apply without_clears; by vm_compute.
  - apply without_clears. by vm_compute.
  - apply land_lor_0; [apply without_keeps_clear|]; apply without_clears; by vm_compute.
Qed.

(** Opening a port.  Whatever call fails, no descriptor stays open; on success there
    is one more, the one returned, its settings are those of a raw line, and closing the
    port gives it back. *)
Theorem linux_serial_open_descriptors {E} (sys : linux E) (open_fds : E -> gset Z) (settings : E -> Z -> termios)
  (Hd : DescriptorLaws sys open_fds settings) (Hs : SpeedLaws sys) (baud : Z) (e : E) :
  let '(fd, e') := linux_serial_open sys baud e in
  fd = TINY_SERIAL_INVALID /\ open_fds e' = open_fds e \/
  fd <> TINY_SERIAL_INVALID /\ (fd ∉ open_fds e) /\ open_fds e' = ({[fd]} ∪ open_fds e) /\
    raw_line (settings e' fd) /\ open_fds (linux_serial_close sys fd e') = open_fds e.
Proof.
  unfold linux_serial_open. pose proof (law_open e) as Ho. destruct (sys_open sys e) as [fd e1].
  destruct Ho as [[-> H1]|(Hfd & Hnew & H1)]; [by left|].
  destruct (Z.eqb_spec fd (-1)) as [|_]; [lia|]. set (e2 := sys_set_blocking sys fd e1).
  assert (H2 : open_fds e2 = ({[fd]} ∪ open_fds e)) by (unfold e2; by rewrite law_set_blocking).
  assert (Hback : forall e', open_fds e' = ({[fd]} ∪ open_fds e) -> open_fds (sys_close sys fd e') = open_fds e).
  { intros e' He. rewrite law_close, He. apply set_eq. intros x.
    rewrite elem_of_difference, elem_of_union, elem_of_singleton. split; [tauto|].
    intros Hx. split; [by right|]. by intros ->. }
  clearbody e2. pose proof (law_tcgetattr fd e2) as H3. destruct (sys_tcgetattr sys fd e2) as [[ret oldt] e3].
  cbn in H3. rewrite H2 in H3. specialize (Hback) as Hclose.
  destruct (ret =? -1); [left; auto|].
  destruct (raw_options_flags sys oldt) as (Hl & Hof & Hif). set (t := raw_options sys oldt) in *. clearbody t.
  pose proof (law_cfsetspeed t (bits_to_baud baud)) as K1. destruct (cfsetspeed sys t _) as [r1 t1].
  destruct (r1 =? -1); [left; auto|].
  pose proof (law_cfsetospeed t1 (bits_to_baud baud)) as K2. destruct (cfsetospeed sys t1 _) as [r2 t2].
  destruct (r2 =? -1); [left; auto|].
  pose proof (law_cfsetispeed t2 (bits_to_baud baud)) as K3. destruct (cfsetispeed sys t2 _) as [r3 t3].
  destruct (r3 =? -1); [left; auto|]. cbn in K1, K2, K3. destruct K1 as (A1 & B1 & C1), K2 as (A2 & B2 & C2), K3 as (A3 & B3 & C3).
  set (t4 := t3 <| c_vmin := 0 |> <| c_vtime := 1 |>).
  pose proof (law_tcsetattr fd t4 e3) as H4. destruct (sys_tcsetattr sys fd t4 e3) as [r4 e4].
  destruct H4 as [H4 Hset]. rewrite H3 in H4. destruct (Z.eqb_spec r4 (-1)) as [|Hr4]; [left; auto|]. right.
  destruct (law_tcflush fd e4) as [H5 H6]. rewrite H4 in H5. unfold TINY_SERIAL_INVALID.
  split; [lia|]. split; [done|]. split; [done|]. split.
  - rewrite H6, Hset by done. unfold t4. split; cbn; congruence.
  - unfold linux_serial_close. destruct (Z.leb_spec 0 fd); [auto|lia].
Qed.

(** ** A line *)

(** What POSIX documents of the calls on an open line: [wire] is what has gone out, [incoming] what has
    arrived and was not read; [poll] reports an interruption by [EINTR] and answers
    eventually; a call that transfers bytes gives their number. *)
Class LineLaws {E} (sys : linux E) (wire incoming : E -> list Z) (interrupts : E -> nat) : Prop := {
  law_poll fd events timeout e :
    let '(ret, revents, e') := sys_poll sys fd events timeout e in
    wire e' = wire e /\ incoming e' = incoming e /\
    (ret < 0 -> errno sys e' = EINTR -> (interrupts e' < interrupts e)%nat);
  law_write fd buf e : let '(ret, e') := sys_write sys fd buf e in
    ret <= Z.of_nat (length buf) /\ wire e' = wire e ++ take (Z.to_nat ret) buf /\ incoming e' = incoming e;
  law_read fd len e : let '(ret, buf, e') := sys_read sys fd len e in
    wire e' = wire e /\ ret <= Z.max 0 len /\ ret <= Z.of_nat (length (incoming e)) /\
    take (Z.to_nat ret) buf = take (Z.to_nat ret) (incoming e) /\
    incoming e' = drop (Z.to_nat ret) (incoming e)
}.

(** A line that is not congested: [poll] finds room for output, and input when some has arrived, and the
    transfer that follows moves a byte at least. *)
Class ReadyLine {E} (sys : linux E) (incoming : E -> list Z) : Prop := {
  ready_out fd timeout e : let '(ret, revents, e') := sys_poll sys fd (Z.lor POLLOUT POLLWRNORM) timeout e in
    ret < 0 /\ errno sys e' = EINTR \/ 0 < ret /\ nz (Z.land revents (Z.lor POLLOUT POLLWRNORM)) = true;
  ready_in fd timeout e : let '(ret, revents, e') := sys_poll sys fd (Z.lor POLLIN POLLRDNORM) timeout e in
    ret < 0 /\ errno sys e' = EINTR \/
    incoming e <> [] /\ 0 < ret /\ nz (Z.land revents (Z.lor POLLIN POLLRDNORM)) = true \/
    incoming e = [] /\ ret = 0;
  ready_write fd buf e : buf <> [] -> 1 <= fst (sys_write sys fd buf e);
  ready_read fd len e : 0 < len -> incoming e <> [] -> 1 <= fst (fst (sys_read sys fd len e))
}.

Section Line.

Context {E : Type} (sys : linux E) (wire incoming : E -> list Z) (interrupts : E -> nat).
Context `{!LineLaws sys wire incoming interrupts}.

(** Fuel for one [poll] more than there are interruptions is enough. *)
Lemma poll_again_ends fuel fd events timeout e :
  (interrupts e < fuel)%nat ->
  exists ret revents e0 e', poll_again sys fuel fd events timeout e = Some (ret, revents, e') /\
    sys_poll sys fd events (signed (-2 ^ 31) 32 timeout) e0 = (ret, revents, e') /\
    wire e0 = wire e /\ incoming e0 = incoming e /\ wire e' = wire e /\ incoming e' = incoming e /\
    ~ (ret < 0 /\ errno sys e' = EINTR).
Proof using LineLaws0.
  revert e. induction fuel as [|fuel IH]; intros e Hf; [lia|]. cbn [poll_again].
  pose proof (law_poll fd events (signed (-2 ^ 31) 32 timeout) e) as H.
  destruct (sys_poll sys fd events _ e) as [[ret revents] e'] eqn:Ep. destruct H as (Hw & Hi & Hint).
  destruct (Z.ltb_spec ret 0) as [Hr|Hr]; [destruct (Z.eqb_spec (errno sys e') EINTR) as [He|He]|]; cbn [andb].
  - destruct (IH e') as (r & rv & e0 & e1 & Ha & Hp & Hw0 & Hi0 & Hw1 & Hi1 & Hn); [specialize (Hint Hr He); lia|].
    exists r, rv, e0, e1. split_and!; congruence.
  - exists ret, revents, e, e'. split_and!; try done. tauto.
  - exists ret, revents, e, e'. split_and!; try done. lia.
Qed.

(** The number a send returns is the number of bytes that went out, on every branch: a line that
    is congested or interrupted takes none and gives 0, an error takes none and is negative; a read
    gives the bytes that leave the line.  Interrupted polls are repeated, and every call ends. *)
Theorem linux_serial_transfers (fuel : nat) (port len timeout_ms : Z) (buf : list Z) (e : E)
  (Hfuel : (interrupts e < fuel)%nat) :
  (exists n e', linux_serial_send_timeout sys fuel port buf timeout_ms e = Some (n, e') /\
     n <= Z.of_nat (length buf) /\ wire e' = wire e ++ take (Z.to_nat n) buf /\ incoming e' = incoming e /\
     (n < 0 -> errno sys e' <> EINTR)) /\
  (exists n data e', linux_serial_read_timeout sys fuel port len timeout_ms e = Some (n, data, e') /\
     n <= Z.max 0 len /\ wire e' = wire e /\ take (Z.to_nat n) data = take (Z.to_nat n) (incoming e) /\
     incoming e' = drop (Z.to_nat n) (incoming e) /\ (n < 0 -> errno sys e' <> EINTR)).
Proof using LineLaws0.
  assert (Hneg : forall n, n < 0 -> Z.to_nat n = 0%nat) by lia. split.
  - unfold linux_serial_send_timeout.
    destruct (poll_again_ends fuel port (Z.lor POLLOUT POLLWRNORM) timeout_ms e Hfuel)
      as (ret & rv & e0 & e1 & -> & _ & _ & _ & Hw & Hi & Hn).
    destruct (Z.ltb_spec ret 0) as [Hr|Hr].
    { exists ret, e1. rewrite (Hneg _ Hr), take_0, app_nil_r. split_and!; [done|lia|done|done|tauto]. }
    destruct (_ || _); [exists 0, e1; rewrite take_0, app_nil_r; split_and!; [done|lia|done|done|lia]|].
    pose proof (law_write port buf e1) as H. destruct (sys_write sys port buf e1) as [n e2]. destruct H as (Hl & Hw2 & Hi2).
    destruct (Z.ltb_spec n 0) as [Hn0|Hn0]; cbn [andb]; [|exists n, e2; split_and!; [done|done|congruence|congruence|lia]].
    rewrite (Hneg _ Hn0), take_0, app_nil_r in Hw2. destruct (Z.eqb_spec (errno sys e2) EINTR) as [He|He].
    + rewrite orb_true_r. exists 0, e2. rewrite take_0, app_nil_r. split_and!; [done|lia|congruence|congruence|lia].
    + rewrite orb_false_r. destruct (_ =? EAGAIN); [exists 0, e2|exists n, e2];
        rewrite ?(Hneg _ Hn0), take_0, app_nil_r; split_and!; try done; try lia; congruence.
  - unfold linux_serial_read_timeout.
    destruct (poll_again_ends fuel port (Z.lor POLLIN POLLRDNORM) timeout_ms e Hfuel)
      as (ret & rv & e0 & e1 & -> & _ & _ & _ & Hw & Hi & Hn).
    destruct (Z.ltb_spec ret 0) as [Hr|Hr].
    { exists ret, [], e1. rewrite (Hneg _ Hr), !take_0, drop_0. split_and!; [done|lia|done|done|done|tauto]. }
    destruct (_ || _); [exists 0, [], e1; rewrite !take_0, drop_0; split_and!; [done|lia|done|done|done|lia]|].
    pose proof (law_read port len e1) as H. destruct (sys_read sys port len e1) as [[n data] e2].
    destruct H as (Hw2 & Hl & _ & Ht & Hi2). rewrite Hi in Ht, Hi2.
    destruct (Z.ltb_spec n 0) as [Hn0|Hn0]; cbn [andb]; [|exists n, data, e2; split_and!; [done|done|congruence|done|done|lia]].
    rewrite (Hneg _ Hn0), drop_0 in Hi2. destruct (Z.eqb_spec (errno sys e2) EINTR) as [He|He].
    + rewrite orb_true_r. exists 0, data, e2. rewrite !take_0, drop_0. split_and!; [done|lia|congruence|done|done|lia].
    + rewrite orb_false_r. destruct (_ =? EAGAIN); [exists 0, data, e2|exists n, data, e2];
        rewrite ?(Hneg _ Hn0), !take_0, drop_0; split_and!; try done; try lia; congruence.
Qed.

End Line.

(** ** The port as a line of the link layers *)

(** A Linux port whose line is not congested does what the protocol objects rely on
    ([SerialLine]): so what they promise to each other (ProtoLink.v, ProtoRecv.v) holds
    on Linux, whatever signals arrive. *)
Theorem linux_serial_line {E} (sys : linux E) (wire incoming : E -> list Z) (interrupts : E -> nat)
  (fuel : nat) (Hline : LineLaws sys wire incoming interrupts) (Hready : ReadyLine sys incoming)
  (Hfuel : forall e, (interrupts e < fuel)%nat) :
  SerialLine (linux_port sys fuel) wire incoming.
Proof.
  split.
  - intros port buf timeout e Hbuf. cbn. unfold linux_serial_send_timeout.
    destruct (poll_again_ends sys wire incoming interrupts fuel port (Z.lor POLLOUT POLLWRNORM) timeout e (Hfuel e))
      as (ret & rv & e0 & e1 & -> & Hp & _ & _ & Hw & Hi & Hn).
    pose proof (ready_out port (signed (-2 ^ 31) 32 timeout) e0) as Hr. rewrite Hp in Hr.
    destruct Hr as [?|[Hr Hrv]]; [done|]. rewrite (proj2 (Z.ltb_ge ret 0)), (proj2 (Z.eqb_neq ret 0)), Hrv by lia.
    cbn [negb orb]. pose proof (law_write (sys := sys) port buf e1) as H. pose proof (ready_write port buf e1 Hbuf) as H1.
    destruct (sys_write sys port buf e1) as [n e2]. cbn [fst] in H1. destruct H as (Hl & Hw2 & Hi2).
    rewrite (proj2 (Z.ltb_ge n 0)) by lia. cbn. exists n, e2. split_and!; try done; congruence.
  - intros port len timeout e Hlen. cbn. unfold linux_serial_read_timeout.
    destruct (poll_again_ends sys wire incoming interrupts fuel port (Z.lor POLLIN POLLRDNORM) timeout e (Hfuel e))
      as (ret & rv & e0 & e1 & -> & Hp & _ & Hi0 & Hw & Hi & Hn).
    pose proof (ready_in port (signed (-2 ^ 31) 32 timeout) e0) as Hr. rewrite Hp, Hi0 in Hr.
    destruct Hr as [?|[(Hne & Hr & Hrv)|[Hem ->]]]; [done| |].
    + rewrite (proj2 (Z.ltb_ge ret 0)), (proj2 (Z.eqb_neq ret 0)), Hrv by lia. cbn [negb orb].
      pose proof (law_read (sys := sys) port len e1) as H.
      pose proof (ready_read port len e1 Hlen ltac:(by rewrite Hi)) as H1.
      destruct (sys_read sys port len e1) as [[n data] e2]. cbn [fst] in H1. destruct H as (Hw2 & Hl & Hl2 & Ht & Hi2).
      rewrite (proj2 (Z.ltb_ge n 0)) by lia. cbn. exists n, data, e2. rewrite Hi in Hl2, Ht, Hi2.
      split_and!; [done|congruence|lia|]. right. by split_and!.
    + cbn. exists 0, [], e1. split_and!; [done|done|lia|]. left. split_and!; [done|lia|congruence].
Qed.

(** Unknown speeds are silently replaced. *)
Lemma bits_to_baud_unknown bits :
  bits ∉ [230400; 115200; 57600; 38400] -> bits_to_baud bits = B9600.
Proof. intros Hb. unfold bits_to_baud. repeat case_match; try done; set_unfold; lia. Qed.

(** ** A system *)

(** Calls that succeed, once [poll] is no longer interrupted; a write takes three bytes at most. *)
Record demo_env : Type := mk_demo_env {
  de_wire : list Z;
  de_incoming : list Z;
  de_interrupts : nat;
  de_errno : Z;
  de_fds : gset Z;
  de_settings : termios
}.

#[export] Instance eta_demo_env : Eta demo_env := fun e =>
  mk_demo_env (de_wire e) (de_incoming e) (de_interrupts e) (de_errno e) (de_fds e) (de_settings e).

(** At most two interruptions in a row. *)
Definition demo_interrupts (e : demo_env) : nat := Nat.min 2 (de_interrupts e).

Definition demo_speed (t : termios) (speed : Z) : Z * termios := (0, t <| c_cflag ::= Z.lor speed |>).

Definition demo_linux : linux demo_env := {|
  sys_open e := if bool_decide (3 ∈ de_fds e) then (-1, e) else (3, e <| de_fds ::= fun s => {[3]} ∪ s |>);
  sys_set_blocking _ e := e;
  sys_close fd e := e <| de_fds ::= fun s => s ∖ {[fd]} |>;
  sys_tcgetattr _ e := (0, de_settings e, e);
  sys_tcsetattr _ t e := (0, e <| de_settings := t |>);
  sys_tcflush _ e := e;
  sys_poll _ events _ e :=
    match demo_interrupts e with
    | S n => (-1, 0, e <| de_interrupts := n |> <| de_errno := EINTR |>)
    | O => if (events =? Z.lor POLLIN POLLRDNORM) && bool_decide (de_incoming e = []) then (0, 0, e) else (1, events, e)
    end;
  sys_read _ len e :=
    let data := take (Z.to_nat len) (de_incoming e) in
    (Z.of_nat (length data), data, e <| de_incoming ::= drop (length data) |>);
  sys_write _ buf e := (Z.of_nat (length (take 3 buf)), e <| de_wire ::= fun w => w ++ take 3 buf |>);
  errno := de_errno;
  cfmakeraw t := t;
  cfsetspeed := demo_speed;
  cfsetospeed := demo_speed;
  cfsetispeed := demo_speed
|}.

#[export] Instance demo_descriptors : DescriptorLaws demo_linux de_fds (fun e _ => de_settings e).
Proof.
  split; try done.
  intros e. cbn. destruct (decide (3 ∈ de_fds e)) as [Hin|Hin].
  - rewrite bool_decide_true by done. by left.
  - rewrite bool_decide_false by done. by right.
Qed.

#[export] Instance demo_speeds : SpeedLaws demo_linux.
Proof. by split. Qed.

#[export] Instance demo_line : LineLaws demo_linux de_wire de_incoming demo_interrupts.
Proof.
  split.
  - intros fd events timeout e. cbn -[demo_interrupts]. destruct (demo_interrupts e) eqn:Hn.
    + by destruct (_ && _).
    + split; [done|]. split; [done|]. intros _ _.
      change (demo_interrupts _) with (Nat.min 2 n). unfold demo_interrupts in Hn. lia.
  - intros fd buf e. cbn. rewrite Nat2Z.id, length_take. split; [lia|]. split; [|done]. f_equal.
    destruct (Nat.min_spec 3 (length buf)) as [[_ ->]|[? ->]]; [done|]. by rewrite !take_ge by lia.
  - intros fd len e. cbn. rewrite Nat2Z.id, length_take. split; [done|]. split; [lia|]. split; [lia|]. split; [|done].
    rewrite take_take. f_equal. lia.
Qed.

#[export] Instance demo_ready : ReadyLine demo_linux de_incoming.
Proof.
  split.
  - intros fd timeout e. cbn -[demo_interrupts]. destruct (demo_interrupts e); [|by left]. by right.
  - intros fd timeout e. cbn -[demo_interrupts]. destruct (demo_interrupts e); [|by left].
    destruct (decide (de_incoming e = [])) as [He|He].
    + rewrite bool_decide_true by done. right. by right.
    + rewrite bool_decide_false by done. right. by left.
  - intros fd buf e Hb. cbn. rewrite length_take. destruct buf; [done|]. cbn. lia.
  - intros fd len e Hl Hi. cbn. rewrite length_take. destruct (de_incoming e); [done|]. cbn. lia.
Qed.

Definition demo_port_env : demo_env :=
  mk_demo_env [] [7; 8] 2 0 {[0; 1; 2]} (mk_termios 0xFFFFFFFF 0xFFFFFFFF 0 0xFFFFFFFF 9 9).

Lemma linux_serial_open_descriptors_witness :
  let '(fd, e') := linux_serial_open demo_linux 115200 demo_port_env in
  fd = 3 /\ raw_line (de_settings e') /\ de_fds (linux_serial_close demo_linux fd e') = {[0; 1; 2]}.
Proof.
  pose proof (linux_serial_open_descriptors demo_linux de_fds (fun e _ => de_settings e) _ _ 115200 demo_port_env) as H.
  assert (Hfd : fst (linux_serial_open demo_linux 115200 demo_port_env) = 3) by by vm_compute.
  destruct (linux_serial_open _ _ _) as [fd e']. cbn in Hfd. subst fd.
  destruct H as [[H _]|(_ & _ & _ & Hraw & Hcl)]; [discriminate H|]. exact (conj eq_refl (conj Hraw Hcl)).
Defined.

Lemma linux_serial_transfers_witness :
  fst <$> linux_serial_send_timeout demo_linux 2 3 [1; 2; 3; 4] 10 demo_port_env = None /\
  exists n e', linux_serial_send_timeout demo_linux 3 3 [1; 2; 3; 4] 10 demo_port_env = Some (n, e') /\
    n <= 4 /\ de_wire e' = take (Z.to_nat n) [1; 2; 3; 4].
Proof.
  split; [by vm_compute|].
  destruct (linux_serial_transfers demo_linux de_wire de_incoming demo_interrupts 3 3 2 10 [1; 2; 3; 4] demo_port_env
              ltac:(vm_compute; lia)) as [(n & e' & He & Hn & Hw & _) _].
  exists n, e'. split; [exact He|]. split; [exact Hn|exact Hw].
Defined.

Lemma linux_serial_line_witness :
  SerialLine (linux_port demo_linux 3) de_wire de_incoming /\
  exists n e', tiny_serial_send_timeout (linux_port demo_linux 3) 3 [1; 2; 3; 4] 10 demo_port_env = (n, e') /\
    1 <= n /\ de_wire e' = take (Z.to_nat n) [1; 2; 3; 4].
Proof.
  pose proof (linux_serial_line demo_linux de_wire de_incoming demo_interrupts 3 demo_line demo_ready
                (fun e => le_n_S _ _ (Nat.le_min_l 2 (de_interrupts e)))) as H.
  split; [exact H|].
  destruct (line_write (SerialLine := H) 3 [1; 2; 3; 4] 10 demo_port_env) as (n & e' & He & [Hn _] & Hw & _); [done|].
  exists n, e'. split; [exact He|]. split; [exact Hn|exact Hw].
Defined.
