(* ===== verification/FdLayer.v ===== *)
(** * The full duplex link layer (src/link/TinyFdLinkLayer.cpp, src/link/TinySerialFdLink.cpp)

    [IFdLinkLayer] runs a full duplex station below a protocol object. *)

From S2P Require Import Prelude Crc HdlcLL FdTypes FdQueue Fd FdApi.
From S2P Require Import FdInv FdSafe FdStation FdInit Packet Proto SerialLink.

(** The fields of [IFdLinkLayer], [ILinkLayer] and the serial part.  [fk_null] records that the handle
    was used while it was null. *)
Record fd_layer : Type := mk_fd_layer {
  fk_mtu : Z;
  fk_timeout : Z;
  fk_buffer : Z;
  fk_bufferSize : Z;
  fk_txWindow : Z;
  fk_crc : hdlc_crc_t;
  fk_null : bool;
  fk_serial : serial
}.

#[export] Instance eta_fd_layer : Eta fd_layer := fun k =>
  mk_fd_layer (fk_mtu k) (fk_timeout k) (fk_buffer k) (fk_bufferSize k) (fk_txWindow k) (fk_crc k) (fk_null k)
    (fk_serial k).

(** The two parts of the station in the memory of [m_handle]; [None] is a null pointer. *)
#[local] Abbreviation L := (option (hdlc_ll_data_t * tiny_fd_data_t) * fd_layer)%type.

#[export] Instance fd_layer_serial : HasSerial L := {|
  the_serial l := fk_serial (snd l);
  upd_serial f l := (fst l, (snd l) <| fk_serial ::= f |>)
|}.

(** [SerialFdLink(dev)] *)
Definition fd_layer_create : fd_layer := {|
  fk_mtu := 16384; fk_timeout := 0; fk_buffer := 0; fk_bufferSize := 0; fk_txWindow := 2; fk_crc := HDLC_CRC_8;
  fk_null := false; fk_serial := serial_create |}.

Section Layer.

Context {E : Type}.
#[local] Abbreviation W := (L * proto E)%type.

(** The sizes the compiler chooses; [malloc] returns an address, 0 for [NULL]. *)
Context (p : layout) (malloc : Z -> Z) (millis : nat -> Z).

(** What the other threads do during a wait. *)
Context (others : Z -> fd_world (fd_layer * proto E) -> fd_world (fd_layer * proto E)).

(** [m_onReadCb] and [m_onSendCb] for the bytes of a frame, with its address in the buffer of the
    station.  (They get the fields of the link and the object; callbacks that use the handle of the
    station are not modelled.) *)
Context (frame_address : fd_layer * proto E -> Z).
Context (onReadCb : Z -> list Z -> fd_layer * proto E -> fd_layer * proto E).
Context (onSendCb : Z -> Z -> fd_layer * proto E -> fd_layer * proto E).

Definition fk_callbacks : fd_callbacks (fd_layer * proto E) := {|
  on_read_cb := Some (fun w _ data => w <| user := onReadCb (frame_address (user w)) data (user w) |>);
  on_send_cb := Some (fun w _ data =>
    w <| user := onSendCb (frame_address (user w)) (Z.of_nat (length data)) (user w) |>);
  on_read_ui_cb := None; on_connect_event_cb := None; log_frame_cb := None |}.

(** An operation of the station. *)
Definition on_station {R} (r0 : R)
  (f : hdlc_ll_data_t * fd_world (fd_layer * proto E) -> R * (hdlc_ll_data_t * fd_world (fd_layer * proto E)))
  (w : W) : R * W :=
  match w with
  | ((Some (hdlc, h), k), s) =>
      let '(r, (hdlc, fw)) := f (hdlc, mk_fd_world h (m_clock s) (k, s)) in
      (r, ((Some (hdlc, handle fw), fst (user fw)), (snd (user fw)) <| m_clock := clock fw |>))
  | ((None, k), s) => (r0, ((None, k <| fk_null := true |>), s))
  end.

(** The structure [begin] fills: [buffer_size] and the timeouts have 16 bits, [retries] and the window 8. *)
Definition fk_init (k : fd_layer) : tiny_fd_init_t := {|
  it_has_read_cb := true; it_buffer := fk_buffer k; it_buffer_size := u16 (fk_bufferSize k);
  it_send_timeout := u16 (fk_timeout k);
  it_retry_timeout := u16 (if nz (fk_timeout k) then Z.quot (fk_timeout k) 4 else 100);
  it_retries := 2; it_crc_type := fk_crc k; it_window_frames := u8 (fk_txWindow k); it_mtu := fk_mtu k;
  it_addr := 0; it_peers_count := 0; it_mode := TINY_FD_MODE_ABM |}.

Definition fk_begin (w : W) : bool * W :=
  let '(result, station) := tiny_fd_init p (fk_init (snd (fst w))) in
  (result =? TINY_SUCCESS, ((station, snd (fst w)), snd w)).

Definition fk_end (w : W) : W :=
  let '(_, w) := on_station tt (fun lw => (tt, tiny_fd_close millis fk_callbacks lw)) w in
  ((None, snd (fst w)), snd w).

Definition fk_put (buf size timeout : Z) (w : W) : bool * W :=
  let data := mem_range (m_mem (snd w)) buf (Z.to_nat size) in
  let '(r, w) := on_station TINY_ERR_FAILED (fun lw =>
    let '(r, fw) := tiny_fd_send_packet millis others data timeout (snd lw) in (r, (fst lw, fw))) w in
  (0 <=? r, w).

Definition fk_flushTx (w : W) : W := w.

Definition fk_parseData (data : list Z) (w : W) : Z * W :=
  let '(code, w) := on_station TINY_ERR_FAILED (fun lw => tiny_fd_on_rx_data millis fk_callbacks lw data) w in
  (if code =? TINY_SUCCESS then Z.of_nat (length data) else code, w).

Definition fk_getData (size : Z) (w : W) : Z * list Z * W :=
  on_station (TINY_ERR_FAILED, []) (fun lw =>
    let '(n, data, lw) := tiny_fd_get_tx_data millis others fk_callbacks lw size (fk_timeout (snd (fst w))) in
    ((n, data), lw)) w.

Definition fk_base : link_base L E := {|
  lb_begin := fk_begin;
  lb_end := fk_end;
  lb_parseData := fk_parseData;
  lb_getData := fk_getData;
  lb_put := fk_put;
  lb_flushTx := fk_flushTx;
  lb_getTimeout l := fk_timeout (snd l);
  lb_setTimeout timeout l := (fst l, (snd l) <| fk_timeout := timeout |>)
|}.

(** ** [SerialFdLink] *)

Context (port : serial_port E).

Definition serial_fd_begin (w : W) : bool * W :=
  let '((station, k), s) := w in
  let size := tiny_fd_buffer_size_by_mtu_ex p 1 (fk_mtu k) (fk_txWindow k) (fk_crc k) 3 in
  layer_begin port fk_base ((station, k <| fk_buffer := malloc size |> <| fk_bufferSize := size |>), s).

(** The buffer is freed; the field of the base class keeps its address. *)
Definition serial_fd_end (w : W) : W := layer_end port fk_base w.

Definition serial_fd_link : ILinkLayer L E :=
  serial_link_layer port fk_base 32 serial_fd_begin serial_fd_end.

End Layer.

(** ** Properties *)

Lemma fd_init_some p init station : tiny_fd_init p init = (TINY_SUCCESS, station) -> is_Some station.
Proof.
  unfold tiny_fd_init. destruct (__tiny_fd_init_validate _ _ _) as [r i].
  destruct (Z.eqb_spec r TINY_SUCCESS) as [_|Hr]; cbn [negb]; [|by intros [= ? _]].
  destruct (tiny_fd_queue_init _ _ _ _ _ _ _ _) as [r1 q1].
  destruct (Z.ltb_spec r1 0) as [Hr|_]; [intros [= -> _]; unfold TINY_SUCCESS in Hr; lia|].
  destruct (tiny_fd_queue_init _ _ _ _ _ _ _ _) as [r2 q2].
  destruct (Z.ltb_spec r2 0) as [Hr|_]; [intros [= -> _]; unfold TINY_SUCCESS in Hr; lia|].
  destruct (_ <? _); [done|]. unfold hdlc_ll_init.
  destruct (_ =? 0); [done|]. destruct (_ <? _); [done|]. cbn [negb Z.eqb TINY_SUCCESS].
  intros [= <-]. by eexists.
Qed.

(** A started station is one that [tiny_fd_init] has set up. *)
Lemma layer_begin_station {E} p millis others frame_address onReadCb onSendCb (port : serial_port E) w w' :
  layer_begin port (fk_base p millis others frame_address onReadCb onSendCb) w = (true, w') ->
  exists hdlc h, tiny_fd_init p (fk_init (snd (fst w))) = (TINY_SUCCESS, Some (hdlc, h)) /\
    fst (fst w') = Some (hdlc, h).
Proof.
  unfold layer_begin. cbn [fk_base lb_begin]. unfold fk_begin.
  destruct (tiny_fd_init p (fk_init (snd (fst w)))) as [result station] eqn:Hinit.
  destruct (Z.eqb_spec result TINY_SUCCESS) as [->|]; [|done].
  destruct (fd_init_some _ _ _ Hinit) as [[hdlc h] ->]. intros Hbegin.
  exists hdlc, h. split; [done|]. revert Hbegin. unfold serial_begin, on_env.
  cbn [serial_setTimeout fst snd upd_serial fd_layer_serial].
  destruct (tiny_serial_open port _ _) as [hd e]. cbn [fst snd]. by intros [= _ <-].
Qed.

(** The default MTU does not fit the 16 bits of [buffer_size]. *)
Lemma default_size_refused p k :
  layout64 p -> sizeof_frame_info p <= 1024 -> sizeof_fd_data p <= 1024 -> sizeof_peer_info p <= 1024 ->
  sizeof_hdlc_ll p <= 1024 ->
  fk_mtu k = 16384 -> fk_txWindow k = 2 -> fk_crc k = HDLC_CRC_8 ->
  fk_bufferSize k = tiny_fd_buffer_size_by_mtu_ex p 1 16384 2 HDLC_CRC_8 3 ->
  snd (tiny_fd_init p (fk_init k)) = None /\ fst (tiny_fd_init p (fk_init k)) <> TINY_SUCCESS.
Proof.
  intros [Hptr Hhd Hfd Hpe Hll] H1 H2 H3 H4 Hm Hw Hc Hs. unfold tiny_fd_init.
  cbn [fk_init it_peers_count]. change (0 =? 0) with true. cbn match.
  assert (fst (__tiny_fd_init_validate p (fk_init k) 1) <> TINY_SUCCESS) as Hv.
  { unfold __tiny_fd_init_validate. cbn [fk_init it_has_read_cb it_buffer it_buffer_size it_mtu it_window_frames it_crc_type].
    destruct (_ || _); [done|]. rewrite Hm, Hw, Hc, Hs. change (16384 =? 0) with false. change (u8 2) with 2. cbn [andb].
    cbn [fk_init it_buffer_size it_mtu]. rewrite Hs, Hm.
    destruct (Z.ltb_spec (u16 (tiny_fd_buffer_size_by_mtu_ex p 1 16384 2 HDLC_CRC_8 3))
                (tiny_fd_buffer_size_by_mtu_ex p 1 16384 2 HDLC_CRC_8 1)) as [_|Hge]; [done|exfalso].
    revert Hge. unfold tiny_fd_buffer_size_by_mtu_ex, hdlc_ll_get_buf_size_ex, i_frame_size, u_s_frame_size. rewrite Hptr.
    change (1 =? 0) with false. cbn match. change (get_crc_field_size HDLC_CRC_8) with 1. unfold TINY_FD_U_QUEUE_MAX_SIZE, u16.
    intros Hge. match type of Hge with _ <= ?x mod _ =>
      assert (x mod 2 ^ 16 = x - 65536) as Hmod; [|lia];
      rewrite <- (Z.mod_small (x - 65536) (2 ^ 16)) by lia;
      rewrite <- (Z.mod_add (x - 65536) 1 (2 ^ 16)) by lia; f_equal; lia end. }
  destruct (__tiny_fd_init_validate p (fk_init k) 1) as [r i]. cbn [fst] in Hv. apply Z.eqb_neq in Hv as Hr.
  rewrite Hr. cbn [negb fst snd]. done.
Qed.

(** With its default MTU (16384), window and frame check sequence a [SerialFdLink] never starts:
    the buffer size it computes does not fit the 16 bits of [tiny_fd_init_t::buffer_size], and the
    station refuses what is left of it; so [Proto::begin] of a [SerialFdProto] returns false, on any
    platform with 64-bit pointers, whatever the memory, the port, the threads and the
    callbacks do, and the object has no station. *)
Theorem serial_fd_begin_default {E} p malloc millis others frame_address onReadCb onSendCb
  (port : serial_port E) station k s :
  layout64 p -> sizeof_frame_info p <= 1024 -> sizeof_fd_data p <= 1024 -> sizeof_peer_info p <= 1024 ->
  sizeof_hdlc_ll p <= 1024 ->
  fk_mtu k = fk_mtu fd_layer_create -> fk_txWindow k = fk_txWindow fd_layer_create ->
  fk_crc k = fk_crc fd_layer_create ->
  exists w', proto_begin (serial_fd_link p malloc millis others frame_address onReadCb onSendCb port) ((station, k), s) =
      (false, w') /\ fst (fst w') = None /\ m_terminate (snd w') = true.
Proof.
  intros Hp H1 H2 H3 H4 Hm Hw Hc. unfold proto_begin. cbn [fst snd].
  cbn [serial_fd_link serial_link_layer lk_begin lk_setTimeout fk_base lb_setTimeout fst snd].
  unfold serial_fd_begin. cbn [fst snd].
  match goal with |- context [layer_begin port _ ((?st, ?kk), s)] => set (k1 := kk) end.
  destruct (default_size_refused p k1) as [Hn Hf]; try done.
  { change (tiny_fd_buffer_size_by_mtu_ex p 1 (fk_mtu k) (fk_txWindow k) (fk_crc k) 3 =
            tiny_fd_buffer_size_by_mtu_ex p 1 16384 2 HDLC_CRC_8 3). by rewrite Hm, Hw, Hc. }
  unfold layer_begin. cbn [fk_base lb_begin lb_getTimeout]. unfold fk_begin. cbn [fst snd].
  destruct (tiny_fd_init p (fk_init k1)) as [r st]. cbn [fst snd] in Hn, Hf. subst st.
  apply Z.eqb_neq in Hf as ->. cbn [negb fst snd]. eexists. split; [reflexivity|]. done.
Qed.

(** A [SerialFdLink] that starts has a sound station: when [begin] returns true, for an aligned block from
    [malloc], the handle is a station as [tiny_fd_init] sets it up (idle, disconnected, its queues inside
    the block; see [tiny_fd_init_ready]) with the window of the link and, unless both round down to
    zero, a timeout from the link's own: the quarter of it for retries, or 100 ms when the link has none. *)
Theorem serial_fd_begin_station {E} p malloc millis others frame_address onReadCb onSendCb
  (port : serial_port E) station k s w' :
  let size := tiny_fd_buffer_size_by_mtu_ex p 1 (fk_mtu k) (fk_txWindow k) (fk_crc k) 3 in
  let init := fk_init (k <| fk_buffer := malloc size |> <| fk_bufferSize := size |>) in
  layout64 p -> init_args init ->
  serial_fd_begin p malloc millis others frame_address onReadCb onSendCb port ((station, k), s) = (true, w') ->
  exists mtu hdlc h, fst (fst w') = Some (hdlc, h) /\ initialised init mtu hdlc h /\
    2 <= u8 (fk_txWindow k) <= 7 /\
    (fk_timeout k = 0 -> it_retry_timeout init = 100) /\
    (4 <= fk_timeout k < 2 ^ 16 -> it_retry_timeout init = fk_timeout k / 4 /\ it_send_timeout init = fk_timeout k).
Proof.
  intros size init Hp Hi Hbegin. unfold serial_fd_begin in Hbegin.
  apply layer_begin_station in Hbegin as (hdlc & h & Hinit & Hst). cbn [fst snd] in Hinit. fold size in Hinit. fold init in Hinit.
  destruct (fd_init_spec p init hdlc h Hp Hi Hinit) as (mtu & Hin). exists mtu, hdlc, h.
  split_and!; [done|done|apply (in_window _ _ _ _ Hin)..| |].
  - intros Ht. unfold init, fk_init. cbn. by rewrite Ht.
  - intros [Hlo Hhi]. unfold init, fk_init. cbn [it_retry_timeout it_send_timeout fk_timeout fupd].
    change (2 ^ 16) with 65536 in Hhi.
    assert (nz (fk_timeout k) = true) as Hnz by (unfold nz; lia).
    pose proof (Z.div_pos (fk_timeout k) 4 ltac:(lia) ltac:(lia)). pose proof (Z.div_lt (fk_timeout k) 4 ltac:(lia) ltac:(lia)).
    change (u16 (if nz (fk_timeout k) then Z.quot (fk_timeout k) 4 else 100) = fk_timeout k / 4 /\ u16 (fk_timeout k) = fk_timeout k).
    rewrite Hnz, Z.quot_div_nonneg by lia. unfold u16. rewrite !Z.mod_small by lia. done.
Qed.

(** *** Witnesses *)

Definition idle_port : serial_port unit := {|
  tiny_serial_open _ e := (3, e);
  tiny_serial_close _ e := e;
  tiny_serial_read_timeout _ _ _ e := (0, [], e);
  tiny_serial_send_timeout _ data _ e := (Z.of_nat (length data), e)
|}.

Lemma serial_fd_begin_default_witness :
  exists w', proto_begin (serial_fd_link layout_64 (fun _ => 0x1000) (fun _ => 0) (fun _ w => w) (fun _ => 0x1100)
                            (proto_onRead None) (proto_onSend None) idle_port)
               ((None, fd_layer_create), proto_create true ∅ (fun _ => 0) tt) =
      (false, w') /\ fst (fst w') = None /\ m_terminate (snd w') = true.
Proof. apply serial_fd_begin_default; [apply layout_64_ok|vm_compute; done..]. Defined.

(** An MTU of 64 and a timeout of a second. *)
Definition demo_fd_layer : fd_layer := fd_layer_create <| fk_mtu := 64 |> <| fk_timeout := 1000 |>.

Definition demo_fd_begin :=
  serial_fd_begin layout_64 (fun _ => 0x1000) (fun _ => 0) (fun _ w => w) (fun _ => 0x1100)
    (proto_onRead None) (proto_onSend None) idle_port ((None, demo_fd_layer), proto_create true ∅ (fun _ => 0) tt).

Lemma serial_fd_begin_station_witness :
  exists mtu hdlc h, fst (fst (snd demo_fd_begin)) = Some (hdlc, h) /\
    initialised (fk_init (demo_fd_layer <| fk_buffer := 0x1000 |> <| fk_bufferSize :=
      tiny_fd_buffer_size_by_mtu_ex layout_64 1 64 2 HDLC_CRC_8 3 |>)) mtu hdlc h /\
    2 <= u8 (fk_txWindow demo_fd_layer) <= 7 /\
    (fk_timeout demo_fd_layer = 0 -> 250 = 100) /\
    (4 <= fk_timeout demo_fd_layer < 2 ^ 16 -> 250 = fk_timeout demo_fd_layer / 4 /\ 1000 = fk_timeout demo_fd_layer).
Proof.
  apply (serial_fd_begin_station layout_64 (fun _ => 0x1000) (fun _ => 0) (fun _ w => w) (fun _ => 0x1100)
           (proto_onRead None) (proto_onSend None) idle_port None demo_fd_layer
           (proto_create true ∅ (fun _ => 0) tt)).
  - apply layout_64_ok.
  - split; vm_compute; done.
  - apply surjective_pairing.
Defined.
