(* ===== verification/HdlcHL.v ===== *)
(** * The high-level HDLC interface (src/proto/hdlc/high_level/hdlc.c)

    A framing handle with the callbacks of the application, an event group and
    blocking transmission.  The application is a [hdlc_struct_t] on a state of its
    own; its callbacks act on the whole world, so they may call this layer. *)

From S2P Require Import Prelude Crc HdlcLL HdlcSpec HdlcTx HdlcRx FdTypes.

Definition TX_ACCEPT_BIT : Z := 0x01.
Definition TX_DATA_READY_BIT : Z := 0x02.
Definition TX_DATA_SENT_BIT : Z := 0x04.
Definition RX_DATA_READY_BIT : Z := 0x08.

(** ** State *)

(** The fields of [hdlc_struct_t] that change, the number of clock readings so
    far, and the application. *)
Record hl_state (US : Type) : Type := mk_hl_state {
  hl_events : Z;
  hl_rx_len : Z;
  hl_clock : nat;
  hl_user : US
}.

Arguments mk_hl_state {US}.
Arguments hl_events {US}.
Arguments hl_rx_len {US}.
Arguments hl_clock {US}.
Arguments hl_user {US}.

#[export] Instance eta_hl_state {US} : Eta (hl_state US) := fun s =>
  mk_hl_state (hl_events s) (hl_rx_len s) (hl_clock s) (hl_user s).

#[local] Abbreviation world US := (hdlc_ll_data_t * hl_state US)%type.

(** The fields the application sets; [hl_mem] is the memory of its frames. *)
Record hdlc_struct_t (US : Type) : Type := mk_hdlc_struct {
  send_tx : option (world US -> list Z -> Z * world US);
  hl_on_frame_read : option (world US -> list Z -> world US);
  hl_on_frame_send : option (world US -> Z -> Z -> world US);
  multithread_mode : bool;
  hl_mem : US -> Z -> Z
}.

Arguments mk_hdlc_struct {US}.
Arguments send_tx {US}.
Arguments hl_on_frame_read {US}.
Arguments hl_on_frame_send {US}.
Arguments multithread_mode {US}.
Arguments hl_mem {US}.

Section Hdlc.

Context {US : Type} (hdlc_info : hdlc_struct_t US) (millis : nat -> Z).

(** What the rest of the system does while a thread waits for an event. *)
Context (others : Z -> world US -> world US).

Definition hl_events_set (bits : Z) (w : world US) : world US :=
  (fst w, (snd w) <| hl_events ::= events_set bits |>).

Definition hl_events_clear (bits : Z) (w : world US) : world US :=
  (fst w, (snd w) <| hl_events ::= events_clear bits |>).

(** One look at the events, and [tiny_events_wait] on them. *)
Definition hl_events_poll (bits clear : Z) (w : world US) : Z * world US :=
  let locked := hl_events (snd w) in
  if nz (Z.land locked bits)
  then (locked, if nz clear then hl_events_clear bits w else w)
  else (0, w).

Definition hl_events_wait (bits clear timeout : Z) (w : world US) : Z * world US :=
  let '(locked, w1) := hl_events_poll bits clear w in
  if nz locked then (locked, w1)
  else if timeout =? 0 then (0, w)
  else hl_events_poll bits clear (others timeout w).

Definition hl_millis (w : world US) : Z * world US :=
  (u32 (millis (hl_clock (snd w))), (fst w, (snd w) <| hl_clock ::= S |>)).

(** ** Operations *)

(** The static [on_frame_read] and [on_frame_send]. *)
Definition on_frame_read (w : world US) (data : list Z) : world US :=
  let w := match hl_on_frame_read hdlc_info with Some cb => cb w data | None => w end in
  let w := (fst w, (snd w) <| hl_rx_len := Z.of_nat (length data) |>) in
  hl_events_set RX_DATA_READY_BIT w.

Definition on_frame_send (w : world US) (data len : Z) : world US :=
  let w := match hl_on_frame_send hdlc_info with Some cb => cb w data len | None => w end in
  hl_events_set TX_ACCEPT_BIT (hl_events_set TX_DATA_SENT_BIT w).

Definition hl_client : ll_client (hl_state US) := {|
  cl_mem s := hl_mem hdlc_info (hl_user s);
  cl_on_frame_read := Some on_frame_read;
  cl_on_frame_send := Some on_frame_send
|}.

(** [None] is a [NULL] handle. *)
Definition hdlc_reset (handle : option (world US)) : option (world US) :=
  match handle with
  | None => None
  | Some w =>
      let w := (hdlc_ll_reset (fst w) HDLC_LL_RESET_BOTH, snd w) in
      Some (hl_events_set TX_ACCEPT_BIT (hl_events_clear EVENT_BITS_ALL w))
  end.

(** [rx_info] has the receive buffer and the type of the FCS; the MTU is 0. *)
Definition hdlc_init (align sizeof : Z) (raw : hdlc_ll_data_t) (rx_info : hdlc_ll_init_t) (user : US)
  : option (world US) :=
  match hdlc_ll_init align sizeof raw
          (mk_hdlc_ll_init (hi_buf rx_info) (hi_buf_mem rx_info) (hi_buf_size rx_info)
             (hi_crc_type rx_info) 0) with
  | (err, Some h) =>
      if negb (err =? TINY_SUCCESS) then None
      else hdlc_reset (Some (hl_events_set TX_ACCEPT_BIT (h, mk_hl_state 0 0 0 user)))
  | (_, None) => None
  end.

Definition hdlc_close (handle : option (world US)) : Z * option (world US) :=
  match handle with
  | None => (TINY_ERR_INVALID_DATA, None)
  | Some w => (0, Some (snd (hdlc_ll_close hl_client w)))
  end.

Definition hdlc_send_terminate (w : world US) : world US :=
  let w := hl_events_clear TX_DATA_READY_BIT w in
  let w := (hdlc_ll_reset (fst w) HDLC_LL_RESET_TX_ONLY, snd w) in
  hl_events_set TX_ACCEPT_BIT w.

(** The inner loop of the two functions below: hand [n] bytes of [buf] to [send_tx]
    until it has taken them or fails; [sent] counts them.  [None] means that
    the fuel ran out or that [send_tx] is [NULL]. *)
Fixpoint push_loop (fuel : nat) (buf : list Z) (n sent : Z) (w : world US)
  : option (Z * Z * world US) :=
  match fuel with
  | O => None
  | S fuel =>
      if 0 <? n then
        match send_tx hdlc_info with
        | None => None
        | Some send =>
            let '(temp, w) := send w (take (Z.to_nat n) buf) in
            if temp <? 0 then Some (temp, sent, w)
            else push_loop fuel buf (n - temp) (sent + temp) w
        end
      else Some (n, sent, w)
  end.

(** The loop of [hdlc_run_tx], with the result so far. *)
Fixpoint run_tx_passes (fuel : nat) (result : Z) (w : world US) : option (Z * world US) :=
  match fuel with
  | O => None
  | S fuel =>
      let '(temp_result, w) := hdlc_ll_run_tx hl_client w 1 in
      match push_loop fuel (tx_out_buffer (fst w)) temp_result result w with
      | None => None
      | Some (temp_result, result, w) =>
          if temp_result <=? 0 then Some (if nz result then result else temp_result, w)
          else run_tx_passes fuel result w
      end
  end.

Definition hdlc_run_tx (fuel : nat) (w : world US) : option (Z * world US) :=
  run_tx_passes fuel 0 w.

(** [data]: whether the pointer is not [NULL].  The bytes are [tx_out_buffer] of
    the handle. *)
Definition hdlc_get_tx_data (handle : option (world US)) (data : bool) (len : Z)
  : Z * option (world US) :=
  match handle with
  | None => (TINY_ERR_INVALID_DATA, None)
  | Some w =>
      if negb data || (len <? 0) then (TINY_ERR_INVALID_DATA, Some w)
      else let '(r, w) := hdlc_ll_run_tx hl_client w len in (r, Some w)
  end.

(** The loop of [hdlc_run_tx_until_sent], which began at [ts]. *)
Fixpoint until_sent_loop (fuel : nat) (ts timeout : Z) (w : world US) : option (Z * world US) :=
  match fuel with
  | O => None
  | S fuel =>
      let '(result, w) := hdlc_ll_run_tx hl_client w 1 in
      match push_loop fuel (tx_out_buffer (fst w)) result 0 w with
      | None => None
      | Some (result, _, w) =>
          if result <? 0 then Some (result, hdlc_send_terminate w) else
          let '(bits, w) := hl_events_wait TX_DATA_SENT_BIT EVENT_BITS_CLEAR 0 w in
          if nz bits then Some (TINY_SUCCESS, w) else
          let '(now, w) := hl_millis w in
          if (timeout <=? u32 (now - ts)) && negb (timeout =? 0xFFFFFFFF)
          then Some (TINY_ERR_TIMEOUT, hdlc_send_terminate w)
          else until_sent_loop fuel ts timeout w
      end
  end.

(** Its callers, and those of [hdlc_put], have checked the handle. *)
Definition hdlc_run_tx_until_sent (fuel : nat) (timeout : Z) (w : world US) : option (Z * world US) :=
  match send_tx hdlc_info with
  | None => Some (TINY_ERR_INVALID_DATA, w)
  | Some _ => let '(ts, w) := hl_millis w in until_sent_loop fuel ts timeout w
  end.

(** [data] is the address of the frame, 0 for [NULL]. *)
Definition hdlc_put (data len timeout : Z) (w : world US) : Z * world US :=
  if (len <=? 0) || ((data =? 0) && negb (len =? 0)) then (TINY_ERR_INVALID_DATA, w) else
  let '(bits, w) := hl_events_wait TX_ACCEPT_BIT EVENT_BITS_CLEAR timeout w in
  if bits =? 0 then (TINY_ERR_TIMEOUT, w) else
  let w := (snd (put_frame (fst w) data len), snd w) in
  (TINY_SUCCESS, hl_events_set TX_DATA_READY_BIT w).

Definition hdlc_send (fuel : nat) (handle : option (world US)) (data len timeout : Z)
  : option (Z * option (world US)) :=
  match handle with
  | None => Some (TINY_ERR_INVALID_DATA, None)
  | Some w =>
      if len <? 0 then Some (TINY_ERR_INVALID_DATA, Some w) else
      let '(result, w) :=
        if negb (data =? 0) then
          let '(result, w) := hdlc_put data len timeout w in
          (if result =? TINY_ERR_TIMEOUT then TINY_ERR_BUSY else result, w)
        else (TINY_SUCCESS, w) in
      if (0 <=? result) && nz timeout then
        if multithread_mode hdlc_info then
          let '(bits, w) := hl_events_wait TX_DATA_SENT_BIT EVENT_BITS_CLEAR timeout w in
          Some (if bits =? 0 then TINY_ERR_TIMEOUT else TINY_SUCCESS, Some w)
        else
          match hdlc_run_tx_until_sent fuel timeout w with
          | Some (result, w) => Some (result, Some w)
          | None => None
          end
      else Some (result, Some w)
  end.

(** The number of processed bytes, [*error] where it is written, and the handle;
    [data] is [None] for [NULL]. *)
Definition hdlc_run_rx (handle : option (world US)) (data : option (list Z)) (len : Z)
  : Z * option Z * option (world US) :=
  match handle, data with
  | Some w, Some data =>
      if len <? 0 then (0, Some TINY_ERR_INVALID_DATA, Some w) else
      let '(n, error, w) := hdlc_ll_run_rx hl_client w (take (Z.to_nat len) data) in
      (n, Some error, Some w)
  | _, _ => (TINY_ERR_INVALID_DATA, None, handle)
  end.

End Hdlc.
