(* ===== verification/HdlcSend.v ===== *)
(** * Transmission through the high-level HDLC interface

    What [hdlc_send] and [hdlc_run_tx] do over a channel that takes every byte:
    exactly the wire frame leaves, whether the call blocks or the application
    polls; and what is left behind by one way of sending for the other. *)

From S2P Require Import Prelude Crc HdlcLL HdlcSpec HdlcTx HdlcRx FdTypes HdlcHL.

(** ** Event bits *)

Lemma nz_land_bit e k : 0 <= k -> nz (Z.land e (2 ^ k)) = Z.testbit e k.
Proof.
  intros Hk. unfold nz. destruct (Z.testbit e k) eqn:E.
  - apply negb_true_iff, Z.eqb_neq. intros H0.
    assert (H : Z.testbit (Z.land e (2 ^ k)) k = true).
    { by rewrite Z.land_spec, E, Z.pow2_bits_true. }
    by rewrite H0, Z.bits_0 in H.
  - apply negb_false_iff, Z.eqb_eq, Z.bits_inj'. intros i Hi.
    rewrite Z.land_spec, Z.bits_0, Z.pow2_bits_eqb by done.
    destruct (Z.eqb_spec k i) as [<-|]; [by rewrite E|by rewrite andb_false_r].
Qed.

Lemma testbit_nz e k : Z.testbit e k = true -> nz e = true.
Proof.
  intros H. apply negb_true_iff, Z.eqb_neq. intros ->. by rewrite Z.bits_0 in H.
Qed.

(** The two bits the transmission uses. *)
Definition tx_accepts (e : Z) : bool := Z.testbit e 0.
Definition tx_was_sent (e : Z) : bool := Z.testbit e 2.

Lemma sent_events e :
  tx_accepts (events_set TX_ACCEPT_BIT (events_set TX_DATA_SENT_BIT e)) = true /\
  tx_was_sent (events_set TX_ACCEPT_BIT (events_set TX_DATA_SENT_BIT e)) = true.
Proof.
  unfold tx_accepts, tx_was_sent, events_set. rewrite !Z.lor_spec.
  split; [apply orb_true_r|]. by rewrite orb_true_r.
Qed.

Lemma clear_sent e :
  tx_accepts (events_clear TX_DATA_SENT_BIT e) = tx_accepts e /\
  tx_was_sent (events_clear TX_DATA_SENT_BIT e) = false.
Proof.
  unfold tx_accepts, tx_was_sent, events_clear. rewrite !Z.land_spec.
  split; [apply andb_true_r|apply andb_false_r].
Qed.

Lemma put_events e :
  tx_was_sent (events_set TX_DATA_READY_BIT (events_clear TX_ACCEPT_BIT e)) = tx_was_sent e.
Proof.
  unfold tx_was_sent, events_set, events_clear. rewrite Z.lor_spec, Z.land_spec.
  by rewrite andb_true_r, orb_false_r.
Qed.

(** A wait that finds its bit, and one that does not and has no time. *)
Lemma wait_found {US} others k timeout (w : hdlc_ll_data_t * hl_state US) :
  0 <= k -> Z.testbit (hl_events (snd w)) k = true ->
  hl_events_wait others (2 ^ k) EVENT_BITS_CLEAR timeout w =
    (hl_events (snd w), hl_events_clear (2 ^ k) w).
Proof.
  intros Hk Hb. unfold hl_events_wait, hl_events_poll. rewrite nz_land_bit, Hb by done.
  by rewrite (testbit_nz _ _ Hb).
Qed.

Lemma wait_missed {US} others k (w : hdlc_ll_data_t * hl_state US) :
  0 <= k -> Z.testbit (hl_events (snd w)) k = false ->
  hl_events_wait others (2 ^ k) EVENT_BITS_CLEAR 0 w = (0, w).
Proof.
  intros Hk Hb. unfold hl_events_wait, hl_events_poll. by rewrite nz_land_bit, Hb.
Qed.

(** ** A channel that takes every byte *)

(** What the theorems assume of the application: [send_tx] appends the bytes to a
    log and takes them all, the callback for sent frames changes the application's
    state only, and neither touches the log or the memory of the frames. *)
Class Channel {US} (hdlc_info : hdlc_struct_t US) (log : US -> list Z) (push : list Z -> US -> US)
  (sent : Z -> Z -> US -> US) : Prop := mk_channel {
  ch_send : send_tx hdlc_info = Some (fun w buf =>
    (Z.of_nat (length buf), (fst w, (snd w) <| hl_user ::= push buf |>)));
  ch_sent : hl_on_frame_send hdlc_info = Some (fun w p l => (fst w, (snd w) <| hl_user ::= sent p l |>));
  ch_log : forall buf u, log (push buf u) = log u ++ buf;
  ch_log_sent : forall p l u, log (sent p l u) = log u;
  ch_mem : forall buf u, hl_mem hdlc_info (push buf u) = hl_mem hdlc_info u;
  ch_mem_sent : forall p l u, hl_mem hdlc_info (sent p l u) = hl_mem hdlc_info u
}.

Section Transmit.

Context {US : Type} (hdlc_info : hdlc_struct_t US) (millis : nat -> Z).
Context (others : Z -> hdlc_ll_data_t * hl_state US -> hdlc_ll_data_t * hl_state US).
Context (log : US -> list Z) (push : list Z -> US -> US) (sent : Z -> Z -> US -> US).
Context `{Hch : !Channel hdlc_info log push sent}.

#[local] Abbreviation cl := (hl_client hdlc_info).

(** The state after the callback for a sent frame. *)
Definition hl_on_sent (w : hdlc_ll_data_t * hl_state US) (p l : Z) : hl_state US :=
  (snd w) <| hl_user ::= sent p l |> <| hl_events ::= fun e =>
    events_set TX_ACCEPT_BIT (events_set TX_DATA_SENT_BIT e) |>.

#[export] Instance hl_passive : SendPassive cl hl_on_sent.
Proof using Hch.
  intros w p l. unfold call_frame_send. cbn. unfold on_frame_send. rewrite (ch_sent).
  destruct w as [h s]. by destruct s.
Qed.

(** Handing one byte to the channel. *)
Lemma push_one fuel b sent_so_far w :
  (1 < fuel)%nat ->
  push_loop hdlc_info fuel [b] 1 sent_so_far w =
    Some (0, sent_so_far + 1, (fst w, (snd w) <| hl_user ::= push [b] |>)).
Proof using Hch.
  intros Hf. destruct fuel as [|[|fuel]]; [lia..|]. cbn [push_loop]. rewrite ch_send.
  cbn. done.
Qed.

Lemma push_none fuel buf sent_so_far w :
  (0 < fuel)%nat -> push_loop hdlc_info fuel buf 0 sent_so_far w = Some (0, sent_so_far, w).
Proof using Type. by destruct fuel; [lia|]. Qed.

(** One pass of both loops: a byte leaves the handle and reaches the channel, or
    there is none. *)
Lemma pass_one fuel total sent_so_far h s :
  tx_inv (cl_mem cl s) total h -> (1 < fuel)%nat ->
  let chunk := take 1 (tx_pending (cl_mem cl s) h) in
  exists n w1 h' s',
    hdlc_ll_run_tx cl (h, s) 1 = (n, w1) /\
    push_loop hdlc_info fuel (tx_out_buffer (fst w1)) n sent_so_far w1 =
      Some (0, sent_so_far + Z.of_nat (length chunk), (h', s')) /\
    log (hl_user s') = log (hl_user s) ++ chunk /\
    crc_type h' = crc_type h /\ cl_mem cl s' = cl_mem cl s /\ hl_clock s' = hl_clock s /\
    ((tx_idle h /\ tx_idle h' /\ tx_escape h' = tx_escape h /\ hl_events s' = hl_events s) \/
     (length (tx_pending (cl_mem cl s) h) = 1%nat /\ tx_idle h' /\ tx_escape h' = 0 /\
      hl_events s' = events_set TX_ACCEPT_BIT (events_set TX_DATA_SENT_BIT (hl_events s))) \/
     (tx_pending (cl_mem cl s) h <> [] /\ ~ tx_idle h' /\ tx_inv (cl_mem cl s') total h' /\
      tx_pending (cl_mem cl s') h' = drop 1 (tx_pending (cl_mem cl s) h) /\
      hl_events s' = hl_events s)).
Proof using Hch.
  intros Hi Hf chunk.
  destruct (run_tx_byte cl hl_on_sent total h s Hi) as (h' & s' & Hrun & Hb & Hc & Hcase). cbv zeta in Hcase. fold chunk in Hrun, Hb.
  exists (Z.of_nat (length chunk)), (h', s'). cbn [fst].
  change (tx_out_buffer h' = chunk) in Hb. rewrite Hb.
  destruct Hcase as [(Hid & Hid' & He' & ->)|[(Hne & Hlen & Hid & He & [hs ->])|(Hne & Hn & -> & Hi' & Hp & _)]].
  - assert (chunk = []) as -> by (unfold chunk; by rewrite tx_pending_idle).
    exists h', s. cbn [length Z.of_nat]. rewrite push_none by lia. rewrite Z.add_0_r, app_nil_r.
    split_and!; auto.
  - destruct (tx_pending (cl_mem cl s) h) as [|b l]; [done|]. cbn in chunk. subst chunk.
    eexists h', _. split; [done|]. cbn [length Z.of_nat]. rewrite push_one by done.
    split; [done|]. cbn. rewrite ch_log, ch_log_sent.
    split_and!; [done..| |done|by right; left].
    unfold hl_client, cl_mem. cbn. by rewrite ch_mem, ch_mem_sent.
  - destruct (tx_pending (cl_mem cl s) h) as [|b l] eqn:E; [done|]. cbn in chunk. subst chunk.
    eexists h', _. split; [done|]. cbn [length Z.of_nat]. rewrite push_one by done.
    split; [done|]. cbn. rewrite ch_log.
    assert (Hm : hl_mem hdlc_info (push [b] (hl_user s)) = hl_mem hdlc_info (hl_user s)) by apply ch_mem.
    split_and!; [done..| |done|right; right]; [done|].
    unfold cl_mem, hl_client in *. cbn in *. rewrite Hm. done.
Qed.

(** [hdlc_run_tx] makes one pass. *)
Lemma run_tx_one fuel total h s :
  tx_inv (cl_mem cl s) total h -> (2 < fuel)%nat ->
  let chunk := take 1 (tx_pending (cl_mem cl s) h) in
  exists h' s',
    hdlc_run_tx hdlc_info fuel (h, s) = Some (Z.of_nat (length chunk), (h', s')) /\
    log (hl_user s') = log (hl_user s) ++ chunk /\
    crc_type h' = crc_type h /\ cl_mem cl s' = cl_mem cl s /\
    ((tx_idle h /\ tx_idle h' /\ tx_escape h' = tx_escape h /\ hl_events s' = hl_events s) \/
     (length (tx_pending (cl_mem cl s) h) = 1%nat /\ tx_idle h' /\ tx_escape h' = 0 /\
      hl_events s' = events_set TX_ACCEPT_BIT (events_set TX_DATA_SENT_BIT (hl_events s))) \/
     (tx_pending (cl_mem cl s) h <> [] /\ ~ tx_idle h' /\ tx_inv (cl_mem cl s') total h' /\
      tx_pending (cl_mem cl s') h' = drop 1 (tx_pending (cl_mem cl s) h) /\
      hl_events s' = hl_events s)).
Proof using Hch.
  intros Hi Hf chunk. destruct fuel as [|fuel]; [lia|].
  destruct (pass_one fuel total 0 h s Hi ltac:(lia)) as (n & w1 & h' & s' & Hrun & Hpush & Hl & Hc & Hm & _ & Hcase).
  fold chunk in Hpush, Hl. exists h', s'. split; [|done].
  unfold hdlc_run_tx. cbn [run_tx_passes]. rewrite Hrun, Hpush. cbn. by destruct (length chunk).
Qed.

(** The clock stays within the timeout of a call that began at [ts]. *)
Definition in_time (ts timeout : Z) : Prop :=
  timeout = 0xFFFFFFFF \/ forall k, u32 (u32 (millis k) - ts) < timeout.

(** Nothing to send, a frame can be put. *)
Definition hl_ready (w : hdlc_ll_data_t * hl_state US) : Prop :=
  tx_idle (fst w) /\ tx_escape (fst w) = 0 /\ tx_accepts (hl_events (snd w)) = true.

Lemma until_sent_all ts timeout total n : in_time ts timeout ->
  forall fuel h s, tx_inv (cl_mem cl s) total h -> ~ tx_idle h ->
  length (tx_pending (cl_mem cl s) h) = n -> (n + 1 < fuel)%nat ->
  tx_was_sent (hl_events s) = false ->
  exists h' s', until_sent_loop hdlc_info millis others fuel ts timeout (h, s) =
      Some (TINY_SUCCESS, (h', s')) /\
    log (hl_user s') = log (hl_user s) ++ tx_pending (cl_mem cl s) h /\
    crc_type h' = crc_type h /\ cl_mem cl s' = cl_mem cl s /\
    hl_ready (h', s') /\ tx_was_sent (hl_events s') = false.
Proof using Hch.
  intros Ht. induction n as [|n IH]; intros fuel h s Hi Hn Hlen Hf He.
  { by destruct (tx_pending_busy (cl_mem cl s) h Hn); apply length_zero_iff_nil. }
  destruct fuel as [|fuel]; [lia|].
  destruct (pass_one fuel total 0 h s Hi ltac:(lia))
    as (k & w1 & h1 & s1 & Hrun & Hpush & Hl & Hc & Hm & Hclk & Hcase).
  cbn [until_sent_loop]. rewrite Hrun, Hpush. cbn [Z.ltb Z.compare].
  destruct Hcase as [(Hid & _)|[(Hone & Hid & Hesc & Hev)|(_ & Hn1 & Hi1 & Hp & Hev)]]; [done|..].
  - destruct (sent_events (hl_events s)) as [Ha Hs]. rewrite <- Hev in Ha, Hs.
    rewrite (wait_found others 2) by done. cbn [snd]. rewrite (testbit_nz _ _ Hs).
    destruct (clear_sent (hl_events s1)) as [Ha' Hs']. rewrite <- Ha' in Ha.
    eexists h1, _. split; [done|]. rewrite firstn_all2 in Hl by lia. done.
  - rewrite <- Hev in He. rewrite (wait_missed others 2) by done. cbn [nz Z.eqb negb].
    unfold hl_millis. cbn [fst snd]. set (s2 := s1 <| hl_clock ::= S |>).
    assert (((timeout <=? u32 (u32 (millis (hl_clock s1)) - ts)) && negb (timeout =? 0xFFFFFFFF)) = false) as ->.
    { destruct Ht as [->|Ht]; [apply andb_false_r|]. specialize (Ht (hl_clock s1)).
      by rewrite (proj2 (Z.leb_gt _ _)) by lia. }
    destruct (IH fuel h1 s2 Hi1 Hn1) as (h' & s' & -> & Hl' & Hc' & Hm' & Hr & Hs'); [|lia|done|].
    { change (cl_mem cl s2) with (cl_mem cl s1). rewrite Hp, length_drop. lia. }
    exists h', s'. split; [done|]. rewrite Hl'. change (hl_user s2) with (hl_user s1).
    change (cl_mem cl s2) with (cl_mem cl s1) in *. rewrite Hl, Hp, <- app_assoc, firstn_skipn. 
    rewrite Hc', Hm'. done.
Qed.

(** Putting a frame on a ready handle. *)
Lemma put_ready data len timeout h s :
  hl_ready (h, s) -> crc_type h <> HDLC_CRC_OFF -> data <> 0 -> 0 < len ->
  exists h1 s1, hdlc_put others data len timeout (h, s) = (TINY_SUCCESS, (h1, s1)) /\
    tx_pending (cl_mem cl s) h1 = wire_frame (crc_type h) (mem_range (cl_mem cl s) data (Z.to_nat len)) /\
    tx_inv (cl_mem cl s) len h1 /\ ~ tx_idle h1 /\ crc_type h1 = crc_type h /\
    hl_user s1 = hl_user s /\ hl_clock s1 = hl_clock s /\
    tx_was_sent (hl_events s1) = tx_was_sent (hl_events s).
Proof using Type.
  intros ((Hs & Ho) & He & Ha) Hcrc Hd Hl. cbn [fst snd] in *.
  unfold hdlc_put. apply Z.eqb_neq in Hd as Hd0. rewrite Hd0, (proj2 (Z.leb_gt _ _)) by lia. cbn [orb andb].
  rewrite (wait_found others 0) by done. cbn [snd].
  assert ((hl_events s =? 0) = false) as -> by (apply negb_true_iff, (testbit_nz _ _ Ha)).
  unfold put_frame, hl_events_clear, hl_events_set. cbn [fst snd]. rewrite Ho, Hd0.
  assert ((len =? 0) = false) as -> by lia. cbn.
  eexists _, _. split; [done|]. unfold tx_pending, tx_inv, tx_idle. cbn. rewrite Hs, Hd0.
  split_and!; auto 10; [by intros [_ ?]|]. apply put_events.
Qed.

(** [n] calls of [hdlc_run_tx], with the sum of the results. *)
Fixpoint run_tx_times (fuel n : nat) (w : hdlc_ll_data_t * hl_state US)
  : option (Z * (hdlc_ll_data_t * hl_state US)) :=
  match n with
  | O => Some (0, w)
  | S n =>
      match hdlc_run_tx hdlc_info fuel w with
      | Some (r, w) =>
          match run_tx_times fuel n w with Some (r', w) => Some (r + r', w) | None => None end
      | None => None
      end
  end.

Lemma run_tx_times_idle fuel n : (2 < fuel)%nat -> forall h s,
  crc_type h <> HDLC_CRC_OFF -> tx_escape h = 0 -> tx_idle h ->
  exists h' s', run_tx_times fuel n (h, s) = Some (0, (h', s')) /\
    log (hl_user s') = log (hl_user s) /\ hl_events s' = hl_events s /\ tx_idle h' /\
    crc_type h' = crc_type h /\ cl_mem cl s' = cl_mem cl s.
Proof using Hch.
  intros Hf. induction n as [|n IH]; intros h s Hcrc He Hid; [by exists h, s|].
  destruct (run_tx_one fuel 0 h s) as (h1 & s1 & Hrun & Hl & Hc & Hm & Hcase);
    [by apply tx_inv_idle|done|].
  pose proof (tx_pending_idle (cl_mem cl s) h Hid) as Hp. rewrite Hp in *. cbn in Hl. rewrite app_nil_r in Hl.
  destruct Hcase as [(_ & Hid1 & He1 & Hev)|[(? & _)|(? & _)]]; [|done..].
  destruct (IH h1 s1) as (h' & s' & Hr & Hl' & Hev' & Hid' & Hc' & Hm'); [congruence..|done|].
  exists h', s'. cbn [run_tx_times]. rewrite Hrun, Hr. split; [done|]. split_and!; congruence.
Qed.

Lemma run_tx_times_all fuel total n : (2 < fuel)%nat -> forall h s,
  tx_inv (cl_mem cl s) total h -> ~ tx_idle h ->
  exists h' s', run_tx_times fuel n (h, s) =
      Some (Z.of_nat (length (take n (tx_pending (cl_mem cl s) h))), (h', s')) /\
    log (hl_user s') = log (hl_user s) ++ take n (tx_pending (cl_mem cl s) h) /\
    if bool_decide (length (tx_pending (cl_mem cl s) h) <= n)%nat
    then tx_idle h' /\
         hl_events s' = events_set TX_ACCEPT_BIT (events_set TX_DATA_SENT_BIT (hl_events s))
    else ~ tx_idle h' /\ hl_events s' = hl_events s.
Proof using Hch.
  intros Hf. induction n as [|n IH]; intros h s Hi Hn.
  { pose proof (tx_pending_busy (cl_mem cl s) h Hn). exists h, s. cbn [run_tx_times take length].
    rewrite app_nil_r. rewrite bool_decide_eq_false_2; [done|].
    destruct (tx_pending _ _); [done|cbn; lia]. }
  destruct (run_tx_one fuel total h s Hi Hf) as (h1 & s1 & Hrun & Hl & Hc & Hm & Hcase).
  cbn [run_tx_times]. rewrite Hrun.
  destruct (tx_pending (cl_mem cl s) h) as [|b l] eqn:Hb; [by destruct (tx_pending_busy (cl_mem cl s) h Hn)|].
  cbn [take length] in *.
  destruct Hcase as [(Hid & _)|[(Hone & Hid & Hesc & Hev)|(_ & Hn1 & Hi1 & Hp & Hev)]]; [done|..].
  - destruct l; [|cbn in Hone; lia].
    destruct (run_tx_times_idle fuel n Hf h1 s1) as (h' & s' & -> & Hl' & Hev' & Hid' & _);
      [rewrite Hc; apply Hi|done|done|].
    exists h', s'. rewrite bool_decide_eq_true_2 by (cbn; lia).
    rewrite !firstn_nil. split; [done|]. by rewrite Hl', Hl, Hev', Hev.
  - change (drop 1 (b :: l)) with l in Hp.
    destruct (IH h1 s1 Hi1 Hn1) as (h' & s' & -> & Hl' & Hcase). rewrite Hp in Hl', Hcase |- *.
    exists h', s'. split; [do 2 f_equal; rewrite firstn_O; cbn [length]; lia|]. rewrite Hl', Hl, <- app_assoc. split; [done|].
    rewrite Hev in Hcase. rewrite (bool_decide_ext _ (length l <= n)%nat) by lia. done.
Qed.

End Transmit.

(** ** A sample application *)

(** The memory of its frames from address 1, the bytes that left, and the frames
    it was told about. *)
Record hl_app : Type := mk_hl_app {
  ha_mem : list Z;
  ha_log : list Z;
  ha_sent : list (Z * Z)
}.

Definition hl_push (buf : list Z) (u : hl_app) : hl_app :=
  mk_hl_app (ha_mem u) (ha_log u ++ buf) (ha_sent u).

Definition hl_note (p l : Z) (u : hl_app) : hl_app :=
  mk_hl_app (ha_mem u) (ha_log u) (ha_sent u ++ [(p, l)]).

Definition sample_hdlc : hdlc_struct_t hl_app := {|
  send_tx := Some (fun w buf => (Z.of_nat (length buf), (fst w, (snd w) <| hl_user ::= hl_push buf |>)));
  hl_on_frame_read := None;
  hl_on_frame_send := Some (fun w p l => (fst w, (snd w) <| hl_user ::= hl_note p l |>));
  multithread_mode := false;
  hl_mem u a := nth (Z.to_nat (a - 1)) (ha_mem u) 0
|}.

#[export] Instance sample_channel : Channel sample_hdlc ha_log hl_push hl_note.
Proof. by split. Qed.

Definition sample_hl : hdlc_ll_data_t * hl_state hl_app :=
  (fresh_handle HDLC_CRC_16 16 64,
   mk_hl_state TX_ACCEPT_BIT 0 0 (mk_hl_app [1; 0x7E; 2; 0x7D] [] [])).

Definition no_others (_ : Z) (w : hdlc_ll_data_t * hl_state hl_app) := w.

(** ** Properties *)

(** C38: blocking transmission.  On a ready handle without an unconsumed
    [TX_DATA_SENT_BIT], over a channel that takes every byte and while the clock
    stays within the timeout, [hdlc_send] returns [TINY_SUCCESS]; the bytes it hands
    to [send_tx] are exactly the wire frame of the data; and the handle is again in the
    state the call needs, so calls can follow one another. *)
Theorem hdlc_send_blocking {US : Type} (hdlc_info : hdlc_struct_t US) (millis : nat -> Z)
  (others : Z -> hdlc_ll_data_t * hl_state US -> hdlc_ll_data_t * hl_state US)
  (log : US -> list Z) (push : list Z -> US -> US) (sent : Z -> Z -> US -> US)
  (Hch : Channel hdlc_info log push sent) (Hmode : multithread_mode hdlc_info = false)
  (h : hdlc_ll_data_t) (s : hl_state US) (data len timeout : Z) (fuel : nat)
  (Hready : hl_ready (h, s) /\ tx_was_sent (hl_events s) = false)
  (Hcrc : crc_type h <> HDLC_CRC_OFF) (Hdata : data <> 0) (Hlen : 0 < len) (Htimeout : timeout <> 0)
  (Htime : in_time millis (u32 (millis (hl_clock s))) timeout) :
  let frame := wire_frame (crc_type h) (mem_range (hl_mem hdlc_info (hl_user s)) data (Z.to_nat len)) in
  (length frame + 1 < fuel)%nat ->
  exists h' s',
    hdlc_send hdlc_info millis others fuel (Some (h, s)) data len timeout =
      Some (TINY_SUCCESS, Some (h', s')) /\
    log (hl_user s') = log (hl_user s) ++ frame /\
    (hl_ready (h', s') /\ tx_was_sent (hl_events s') = false) /\ crc_type h' = crc_type h.
Proof.
  intros frame Hf. destruct Hready as [Hr Hs].
  destruct (put_ready hdlc_info others data len timeout h s Hr Hcrc Hdata Hlen)
    as (h1 & s1 & Hput & Hp & Hi & Hn & Hc & Hu & Hclk & Hev).
  assert (Hm : cl_mem (hl_client hdlc_info) s1 = cl_mem (hl_client hdlc_info) s).
  { unfold cl_mem, hl_client. by rewrite Hu. }
  unfold hdlc_send. rewrite (proj2 (Z.ltb_ge _ _)) by lia. rewrite (proj2 (Z.eqb_neq _ _) Hdata).
  cbn [negb]. rewrite Hput. cbn [Z.eqb TINY_SUCCESS TINY_ERR_TIMEOUT Z.leb Z.compare andb].
  unfold nz. rewrite (proj2 (Z.eqb_neq _ _) Htimeout), Hmode. cbn [negb].
  unfold hdlc_run_tx_until_sent, hl_millis. rewrite ch_send. cbn [fst snd].
  set (s2 := s1 <| hl_clock ::= S |>).
  destruct (until_sent_all hdlc_info millis others log push sent
              (u32 (millis (hl_clock s1))) timeout len (length frame)) with fuel h1 s2
    as (h' & s' & -> & Hl & Hc' & _ & Hr' & Hs').
  - by rewrite Hclk.
  - change (cl_mem (hl_client hdlc_info) s2) with (cl_mem (hl_client hdlc_info) s1). by rewrite Hm.
  - done.
  - change (cl_mem (hl_client hdlc_info) s2) with (cl_mem (hl_client hdlc_info) s1). by rewrite Hm, Hp.
  - done.
  - change (hl_events s2) with (hl_events s1). by rewrite Hev.
  - exists h', s'. rewrite Hl. change (hl_user s2) with (hl_user s1).
    change (cl_mem (hl_client hdlc_info) s2) with (cl_mem (hl_client hdlc_info) s1).
    rewrite Hm, Hp, Hu. split; [done|]. split; [done|]. split; [done|]. by rewrite Hc', Hc.
Qed.

Lemma hdlc_send_blocking_witness :
  exists h' s',
    hdlc_send sample_hdlc (fun _ => 5) no_others 20 (Some sample_hl) 1 4 100 =
      Some (TINY_SUCCESS, Some (h', s')) /\
    ha_log (hl_user s') = [0x7E; 1; 0x7D; 0x5E; 2; 0x7D; 0x5D; 0x74; 0xEB; 0x7E].
Proof.
  destruct (hdlc_send_blocking sample_hdlc (fun _ => 5) no_others _ _ _ sample_channel eq_refl
              (fst sample_hl) (snd sample_hl) 1 4 100 20) as (h' & s' & Hrun & Hl & _ & _);
    [done|done|lia|lia|lia|by right|by apply (bool_decide_eq_true_1 _); vm_compute|].
  exists h', s'. exact (conj Hrun Hl).
Defined.

(** Polled transmission.  A frame given to [hdlc_send] with timeout 0 is only
    queued; every following call of [hdlc_run_tx] hands one byte of the wire frame
    to [send_tx] (not several, as its documentation says), returns 1, and returns 0 when
    nothing is left.  After as many calls as the frame has bytes the handle is idle, and
    the events that a frame was sent and that another can be put are set. *)
Theorem hdlc_run_tx_polling {US : Type} (hdlc_info : hdlc_struct_t US) (millis : nat -> Z)
  (others : Z -> hdlc_ll_data_t * hl_state US -> hdlc_ll_data_t * hl_state US)
  (log : US -> list Z) (push : list Z -> US -> US) (sent : Z -> Z -> US -> US)
  (Hch : Channel hdlc_info log push sent) (h : hdlc_ll_data_t) (s : hl_state US) (data len : Z)
  (fuel : nat) (Hready : hl_ready (h, s)) (Hcrc : crc_type h <> HDLC_CRC_OFF) (Hdata : data <> 0)
  (Hlen : 0 < len) (Hfuel : (2 < fuel)%nat) :
  let frame := wire_frame (crc_type h) (mem_range (hl_mem hdlc_info (hl_user s)) data (Z.to_nat len)) in
  exists w1,
    hdlc_send hdlc_info millis others fuel (Some (h, s)) data len 0 = Some (TINY_SUCCESS, Some w1) /\
    hl_user (snd w1) = hl_user s /\
    forall n, exists h' s',
      run_tx_times hdlc_info fuel n w1 = Some (Z.of_nat (length (take n frame)), (h', s')) /\
      log (hl_user s') = log (hl_user s) ++ take n frame /\
      if bool_decide (length frame <= n)%nat
      then tx_idle h' /\ tx_accepts (hl_events s') = true /\ tx_was_sent (hl_events s') = true
      else ~ tx_idle h'.
Proof.
  intros frame. destruct (put_ready hdlc_info others data len 0 h s Hready Hcrc Hdata Hlen)
    as (h1 & s1 & Hput & Hp & Hi & Hn & Hc & Hu & _ & _).
  assert (Hm : cl_mem (hl_client hdlc_info) s1 = cl_mem (hl_client hdlc_info) s).
  { unfold cl_mem, hl_client. by rewrite Hu. }
  exists (h1, s1). split; [|split; [done|]].
  - unfold hdlc_send. rewrite (proj2 (Z.ltb_ge _ _)) by lia. rewrite (proj2 (Z.eqb_neq _ _) Hdata).
    cbn [negb]. by rewrite Hput.
  - intros n. rewrite <- Hm in Hi, Hp.
    destruct (run_tx_times_all hdlc_info log push sent fuel len n Hfuel h1 s1 Hi Hn)
      as (h' & s' & Hrun & Hl & Hcase).
    rewrite Hp, Hm in *. fold frame in Hrun, Hl, Hcase. exists h', s'. rewrite Hl, Hu.
    split; [done|]. split; [done|]. destruct (bool_decide _); [|apply Hcase].
    destruct Hcase as [Hid ->]. split; [done|]. apply sent_events.
Qed.

Lemma hdlc_run_tx_polling_witness :
  exists w1 h' s',
    hdlc_send sample_hdlc (fun _ => 5) no_others 3 (Some sample_hl) 1 4 0 = Some (TINY_SUCCESS, Some w1) /\
    run_tx_times sample_hdlc 3 10 w1 = Some (10, (h', s')) /\
    ha_log (hl_user s') = [0x7E; 1; 0x7D; 0x5E; 2; 0x7D; 0x5D; 0x74; 0xEB; 0x7E] /\
    tx_was_sent (hl_events s') = true.
Proof.
  destruct (hdlc_run_tx_polling sample_hdlc (fun _ => 5) no_others _ _ _ sample_channel
              (fst sample_hl) (snd sample_hl) 1 4 3) as (w1 & Hs & _ & Hn);
    [done|done|lia|lia|lia|].
  destruct (Hn 10%nat) as (h' & s' & Hrun & Hl & Hcase). exists w1, h', s'.
  exact (conj Hs (conj Hrun (conj Hl (proj2 (proj2 Hcase))))).
Defined.

(** An unconsumed [TX_DATA_SENT_BIT], which every polled transmission leaves behind
    (see the previous theorem), makes the next blocking [hdlc_send] return
    [TINY_SUCCESS] after the first byte of its frame: the frame is still being
    sent, from the caller's buffer. *)
Theorem hdlc_send_stale_event {US : Type} (hdlc_info : hdlc_struct_t US) (millis : nat -> Z)
  (others : Z -> hdlc_ll_data_t * hl_state US -> hdlc_ll_data_t * hl_state US)
  (log : US -> list Z) (push : list Z -> US -> US) (sent : Z -> Z -> US -> US)
  (Hch : Channel hdlc_info log push sent) (Hmode : multithread_mode hdlc_info = false)
  (h : hdlc_ll_data_t) (s : hl_state US) (data len timeout : Z) (fuel : nat)
  (Hready : hl_ready (h, s) /\ tx_was_sent (hl_events s) = true)
  (Hcrc : crc_type h <> HDLC_CRC_OFF) (Hdata : data <> 0) (Hlen : 0 < len) (Htimeout : timeout <> 0)
  (Hfuel : (2 < fuel)%nat) :
  exists h' s',
    hdlc_send hdlc_info millis others fuel (Some (h, s)) data len timeout =
      Some (TINY_SUCCESS, Some (h', s')) /\
    log (hl_user s') = log (hl_user s) ++ [FLAG_SEQUENCE] /\ ~ tx_idle h'.
Proof.
  destruct Hready as [Hr Hs].
  destruct (put_ready hdlc_info others data len timeout h s Hr Hcrc Hdata Hlen)
    as (h1 & s1 & Hput & Hp & Hi & Hn & Hc & Hu & Hclk & Hev).
  assert (Hm : cl_mem (hl_client hdlc_info) s1 = cl_mem (hl_client hdlc_info) s).
  { unfold cl_mem, hl_client. by rewrite Hu. }
  unfold hdlc_send. rewrite (proj2 (Z.ltb_ge _ _)) by lia. rewrite (proj2 (Z.eqb_neq _ _) Hdata).
  cbn [negb]. rewrite Hput. cbn [Z.eqb TINY_SUCCESS TINY_ERR_TIMEOUT Z.leb Z.compare andb].
  unfold nz. rewrite (proj2 (Z.eqb_neq _ _) Htimeout), Hmode. cbn [negb].
  unfold hdlc_run_tx_until_sent, hl_millis. rewrite ch_send. cbn [fst snd].
  set (s2 := s1 <| hl_clock ::= S |>). destruct fuel as [|fuel]; [lia|].
  rewrite <- Hm in Hi, Hp. change (cl_mem (hl_client hdlc_info) s1) with (cl_mem (hl_client hdlc_info) s2) in Hi, Hp.
  destruct (pass_one hdlc_info log push sent fuel len 0 h1 s2 Hi ltac:(lia))
    as (k & w1 & h' & s' & Hrun & Hpush & Hl & _ & _ & _ & Hcase).
  cbn [until_sent_loop]. rewrite Hrun, Hpush. cbn [Z.ltb Z.compare]. rewrite Hp in Hl, Hcase.
  destruct Hcase as [(? & _)|[(Hone & _)|(_ & Hn' & _ & _ & Hev')]]; [done| |].
  { unfold wire_frame in Hone. cbn [length app] in Hone. rewrite !length_app in Hone. cbn in Hone. lia. }
  assert (Hs' : tx_was_sent (hl_events s') = true) 
    by (rewrite Hev'; change (hl_events s2) with (hl_events s1); by rewrite Hev).
  rewrite (wait_found others 2) by done. cbn [snd].
  fold (nz (hl_events s')). rewrite (testbit_nz _ _ Hs').
  eexists h', _. split; [done|]. split; [|done]. cbn. rewrite Hl.
  change (hl_user s2) with (hl_user s1). by rewrite Hu.
Qed.

Lemma hdlc_send_stale_event_witness :
  exists w1 h' s' h2 s2,
    hdlc_send sample_hdlc (fun _ => 5) no_others 3 (Some sample_hl) 1 4 0 = Some (TINY_SUCCESS, Some w1) /\
    run_tx_times sample_hdlc 3 10 w1 = Some (10, (h', s')) /\
    hdlc_send sample_hdlc (fun _ => 5) no_others 3 (Some (h', s')) 1 4 100 =
      Some (TINY_SUCCESS, Some (h2, s2)) /\
    ha_log (hl_user s2) = ha_log (hl_user s') ++ [0x7E] /\ ~ tx_idle h2.
Proof.
  set (w1 := match hdlc_send sample_hdlc (fun _ => 5) no_others 3 (Some sample_hl) 1 4 0 with
             | Some (_, Some w) => w | _ => sample_hl end).
  set (w2 := match run_tx_times sample_hdlc 3 10 w1 with Some (_, w) => w | None => sample_hl end).
  destruct (hdlc_send_stale_event sample_hdlc (fun _ => 5) no_others _ _ _ sample_channel eq_refl
              (fst w2) (snd w2) 1 4 100 3) as (h2 & s2 & Hrun & Hl & Hn);
    [by vm_compute|by vm_compute|lia|lia|lia|lia|].
  exists w1, (fst w2), (snd w2), h2, s2.
  assert (H1 : hdlc_send sample_hdlc (fun _ => 5) no_others 3 (Some sample_hl) 1 4 0 =
            Some (TINY_SUCCESS, Some w1)) by by vm_compute.
  assert (H2 : run_tx_times sample_hdlc 3 10 w1 = Some (10, (fst w2, snd w2))) by by vm_compute.
  exact (conj H1 (conj H2 (conj Hrun (conj Hl Hn)))).
Defined.

(** What [hdlc_send] refuses, it refuses without touching the channel or the frame
    that is being sent: a [NULL] handle, a negative or zero length
    ([TINY_ERR_INVALID_DATA]) and, with no time to wait, a handle that still
    has a frame to send ([TINY_ERR_BUSY]). *)
Theorem hdlc_send_refused {US : Type} (hdlc_info : hdlc_struct_t US) (millis : nat -> Z)
  (others : Z -> hdlc_ll_data_t * hl_state US -> hdlc_ll_data_t * hl_state US)
  (w : hdlc_ll_data_t * hl_state US) (data len timeout : Z) (fuel : nat) :
  let send := hdlc_send hdlc_info millis others fuel in
  send None data len timeout = Some (TINY_ERR_INVALID_DATA, None) /\
  (len < 0 -> send (Some w) data len timeout = Some (TINY_ERR_INVALID_DATA, Some w)) /\
  (data <> 0 -> len <= 0 -> send (Some w) data len timeout = Some (TINY_ERR_INVALID_DATA, Some w)) /\
  (data <> 0 -> 0 < len -> tx_accepts (hl_events (snd w)) = false ->
     send (Some w) data len 0 = Some (TINY_ERR_BUSY, Some w)).
Proof.
  cbv zeta. split; [done|]. unfold hdlc_send, hdlc_put. split; [|split].
  - intros H. by rewrite (proj2 (Z.ltb_lt _ _) H).
  - intros Hd Hl. apply Z.eqb_neq in Hd as ->. destruct (len <? 0); [done|].
    by rewrite (proj2 (Z.leb_le _ _) Hl).
  - intros Hd Hl Ha. apply Z.eqb_neq in Hd as ->.
    rewrite (proj2 (Z.ltb_ge _ _)), (proj2 (Z.leb_gt _ _)) by lia. cbn [negb orb andb].
    by rewrite (wait_missed others 0) by done.
Qed.

Lemma hdlc_send_refused_witness :
  let busy := (fst sample_hl, (snd sample_hl) <| hl_events := TX_DATA_READY_BIT |>) in
  let send w := hdlc_send sample_hdlc (fun _ => 5) no_others 3 (Some w) in
  send sample_hl 1 (-1) 100 = Some (TINY_ERR_INVALID_DATA, Some sample_hl) /\
  send sample_hl 1 0 100 = Some (TINY_ERR_INVALID_DATA, Some sample_hl) /\
  send busy 1 4 0 = Some (TINY_ERR_BUSY, Some busy).
Proof.
  intros busy send.
  destruct (hdlc_send_refused sample_hdlc (fun _ => 5) no_others sample_hl 1 (-1) 100 3) as (_ & H1 & _).
  destruct (hdlc_send_refused sample_hdlc (fun _ => 5) no_others sample_hl 1 0 100 3) as (_ & _ & H2 & _).
  destruct (hdlc_send_refused sample_hdlc (fun _ => 5) no_others busy 1 4 100 3) as (_ & _ & _ & H3).
  exact (conj (H1 ltac:(lia)) (conj (H2 ltac:(lia) ltac:(lia)) (H3 ltac:(lia) ltac:(lia) eq_refl))).
Defined.
