(* ===== verification/Light.v ===== *)
(** * The light protocol (src/proto/light/tiny_light.c)

    Blocking send and receive over the framing layer, one byte at a time.  The
    channel is a state of the application that [write_func] and [read_func] act on.
    [tiny_light_read] makes the framing layer collect into the caller's buffer:
    [lt_rx_base] is the address of the buffer in use, so that a pointer into an
    earlier buffer keeps its address when the buffer changes. *)

From S2P Require Import Prelude Crc HdlcLL HdlcSpec HdlcTx HdlcRx.

(** [LIGHT_BUF_SIZE], for [sizeof(uintptr_t)] bytes to a pointer *)
Definition LIGHT_BUF_SIZE (sizeof_uintptr_t : Z) : Z := sizeof_uintptr_t * 18.

(** ** State *)

(** What changes besides the framing handle. *)
Record light_state (US : Type) : Type := mk_light_state {
  lt_rx_len : Z;
  lt_rx_base : Z;
  lt_clock : nat;
  lt_user : US
}.

Arguments mk_light_state {US}.
Arguments lt_rx_len {US}.
Arguments lt_rx_base {US}.
Arguments lt_clock {US}.
Arguments lt_user {US}.

#[export] Instance eta_light_state {US} : Eta (light_state US) := fun s =>
  mk_light_state (lt_rx_len s) (lt_rx_base s) (lt_clock s) (lt_user s).

#[local] Abbreviation world US := (hdlc_ll_data_t * light_state US)%type.

(** The configuration.  [read_func] gets the room in the buffer and answers with its
    result and the bytes it stored; [lt_mem] is the memory of the frames. *)
Record STinyLightData (US : Type) : Type := mk_light {
  write_func : US -> list Z -> Z * US;
  read_func : US -> Z -> Z * list Z * US;
  lt_crc_type : hdlc_crc_t;
  lt_mem : US -> Z -> Z
}.

Arguments mk_light {US}.
Arguments write_func {US}.
Arguments read_func {US}.
Arguments lt_crc_type {US}.
Arguments lt_mem {US}.

Section Protocol.

Context {US : Type} (light : STinyLightData US) (millis : nat -> Z).

(** The static [on_frame_read] and [on_frame_send]. *)
Definition lt_on_frame_read (w : world US) (data : list Z) : world US :=
  (fst w, (snd w) <| lt_rx_len := Z.of_nat (length data) |>).

Definition lt_on_frame_send (w : world US) (data len : Z) : world US := w.

Definition lt_client : ll_client (light_state US) := {|
  cl_mem s := lt_mem light (lt_user s);
  cl_on_frame_read := Some lt_on_frame_read;
  cl_on_frame_send := Some lt_on_frame_send
|}.

Definition lt_millis (w : world US) : Z * world US :=
  (u32 (millis (lt_clock (snd w))), (fst w, (snd w) <| lt_clock ::= S |>)).

(** [handle->write_func( handle->user_data, stream, stream_len )] *)
Definition lt_write (stream : list Z) (w : world US) : Z * world US :=
  let '(result, u) := write_func light (lt_user (snd w)) stream in
  (result, (fst w, (snd w) <| lt_user := u |>)).

(** [handle->read_func( handle->user_data, stream, size )] *)
Definition lt_read (size : Z) (w : world US) : Z * list Z * world US :=
  let '(stream_len, stream, u) := read_func light (lt_user (snd w)) size in
  (stream_len, stream, (fst w, (snd w) <| lt_user := u |>)).

(** ** Operations *)

(** [valid]: whether the handle and both functions are not [NULL].  [buffer] is the
    address of the buffer inside the handle and [mem] its contents. *)
Definition tiny_light_init (align sizeof : Z) (valid : bool) (raw : hdlc_ll_data_t)
  (buffer : Z) (mem : list Z) (s : light_state US) : Z * option (world US) :=
  if negb valid then (TINY_ERR_FAILED, None) else
  match hdlc_ll_init align sizeof raw
          (mk_hdlc_ll_init buffer mem (LIGHT_BUF_SIZE align) (lt_crc_type light) 0) with
  | (err, Some h) => (err, Some (h, s <| lt_rx_base := align_buffer align buffer + sizeof |>))
  | (err, None) => (err, None)
  end.

Definition tiny_light_close (handle : option (world US)) : Z * option (world US) :=
  match handle with
  | None => (TINY_ERR_FAILED, None)
  | Some w => (TINY_SUCCESS, Some (snd (hdlc_ll_close lt_client w)))
  end.

(** The inner loop of [tiny_light_send]: the result, and whether the function returns
    it at once.  [None] means that the fuel ran out. *)
Fixpoint write_byte_loop (fuel : nat) (ts : Z) (stream : list Z) (w : world US)
  : option (Z * bool * world US) :=
  match fuel with
  | O => None
  | S fuel =>
      let '(result, w) := lt_write stream w in
      if result <? 0 then Some (result, true, w) else
      let '(now, w) := lt_millis w in
      if 1000 <=? u32 (now - ts)
      then Some (TINY_ERR_TIMEOUT, false, (hdlc_ll_reset (fst w) HDLC_LL_RESET_TX_ONLY, snd w))
      else if result <? Z.of_nat (length stream) then write_byte_loop fuel ts stream w
      else Some (result, false, w)
  end.

(** The outer loop. *)
Fixpoint light_send_loop (fuel : nat) (ts len result : Z) (w : world US) : option (Z * world US) :=
  match fuel with
  | O => None
  | S fuel =>
      if nz (tx_origin_data (fst w)) then
        let '(_, w) := hdlc_ll_run_tx lt_client w 1 in
        match write_byte_loop fuel ts (tx_out_buffer (fst w)) w with
        | None => None
        | Some (result, true, w) => Some (result, w)
        | Some (result, false, w) => light_send_loop fuel ts len result w
        end
      else Some (if 0 <=? result then len else result, w)
  end.

(** The result of [hdlc_ll_put_frame] is not looked at. *)
Definition tiny_light_send (fuel : nat) (pbuf len : Z) (w : world US) : option (Z * world US) :=
  let '(ts, w) := lt_millis w in
  let w := (snd (put_frame (fst w) pbuf len), snd w) in
  light_send_loop fuel ts len TINY_SUCCESS w.

(** The loop of [tiny_light_read]. *)
Fixpoint light_read_loop (fuel : nat) (ts : Z) (w : world US) : option (Z * world US) :=
  match fuel with
  | O => None
  | S fuel =>
      let '(stream_len, stream, w) := lt_read 1 w in
      if stream_len <? 0 then Some (stream_len, w) else
      let '(_, result, w) := hdlc_ll_run_rx lt_client w (take (Z.to_nat stream_len) stream) in
      let '(result, w) :=
        if result =? TINY_SUCCESS
        then let '(_, result, w) := hdlc_ll_run_rx lt_client w [] in (result, w)
        else (result, w) in
      if negb (result =? TINY_SUCCESS) then Some (result, w) else
      let '(now, w) := lt_millis w in
      if 1000 <=? u32 (now - ts)
      then Some (TINY_ERR_TIMEOUT, (hdlc_ll_reset (fst w) HDLC_LL_RESET_RX_ONLY, snd w))
      else if lt_rx_len (snd w) =? 0 then light_read_loop fuel ts w
      else Some (result, w)
  end.

(** The assignments that direct the framing layer to the buffer at [pbuf], whose
    contents are [mem].  [rx.ptr] keeps its address. *)
Definition light_set_buffer (pbuf : Z) (mem : list Z) (len : Z) (w : world US) : world US :=
  ((fst w) <| rx_buf := mem |>
     <| rx_ptr := rx_ptr (fst w) + lt_rx_base (snd w) - pbuf |>
     <| rx_active_frame_buf := 0 |> <| rx_buf_size := len |> <| phys_mtu := len |>,
   (snd w) <| lt_rx_base := pbuf |> <| lt_rx_len := 0 |>).

Definition tiny_light_read (fuel : nat) (pbuf : Z) (mem : list Z) (len : Z) (w : world US)
  : option (Z * world US) :=
  let '(ts, w) := lt_millis w in
  match light_read_loop fuel ts (light_set_buffer pbuf mem len w) with
  | None => None
  | Some (result, w) =>
      Some (if nz (lt_rx_len (snd w)) then lt_rx_len (snd w) else result, w)
  end.

Definition tiny_light_get_hdlc (w : world US) : hdlc_ll_data_t := fst w.

End Protocol.
