(* ===== verification/Wrappers.v ===== *)
(** * The C++ classes over the C interfaces (src/TinyProtocolFd.cpp, src/TinyProtocolHdlc.cpp, src/TinyLightProtocol.cpp)

    [IFd], [Hdlc] and [Light]: an object keeps the handle, its buffer and its settings and passes the
    calls on.  A method that dereferences a null handle has no result ([None]). *)

From S2P Require Import Prelude Crc HdlcLL FdTypes Fd FdApi FdInit HdlcHL Light Packet.

(** ** [IFd] *)

(** The settings of an [IFd], and the state of the application. *)
Record ifd (US : Type) : Type := mk_ifd {
  if_handle : option (hdlc_ll_data_t * fd_world US);
  if_buffer : Z;
  if_crc : hdlc_crc_t;
  if_bufferSize : Z;
  if_sendTimeout : Z;
  if_window : Z;
  if_clock : nat;
  if_user : US
}.
Arguments mk_ifd {US}.
Arguments if_handle {US}.
Arguments if_buffer {US}.
Arguments if_crc {US}.
Arguments if_bufferSize {US}.
Arguments if_sendTimeout {US}.
Arguments if_window {US}.
Arguments if_clock {US}.
Arguments if_user {US}.

#[export] Instance eta_ifd {US} : Eta (ifd US) := fun o =>
  mk_ifd (if_handle o) (if_buffer o) (if_crc o) (if_bufferSize o) (if_sendTimeout o) (if_window o) (if_clock o)
    (if_user o).

Section IFd.

Context {US : Type} (p : layout) (millis : nat -> Z) (others : Z -> fd_world US -> fd_world US).

(** The callbacks of the application, if set; each gets the address, and a packet on the bytes (here:
    the bytes). *)
Context (onReceive onSend : option (Z -> list Z -> fd_world US -> fd_world US)).
Context (onConnectEvent : option (Z -> bool -> fd_world US -> fd_world US)).

Definition ifd_callbacks : fd_callbacks US := {|
  on_read_cb := Some (fun w addr data => match onReceive with Some cb => cb addr data w | None => w end);
  on_send_cb := Some (fun w addr data => match onSend with Some cb => cb addr data w | None => w end);
  on_read_ui_cb := None;
  on_connect_event_cb :=
    Some (fun w addr connected => match onConnectEvent with Some cb => cb addr connected w | None => w end);
  log_frame_cb := None |}.

Definition ifd_create (buffer bufferSize : Z) (us : US) : ifd US :=
  mk_ifd None buffer HDLC_CRC_DEFAULT bufferSize 0 3 0 us.

(** [buffer_size] has 16 bits. *)
Definition ifd_init (o : ifd US) : tiny_fd_init_t := {|
  it_has_read_cb := true; it_buffer := if_buffer o; it_buffer_size := u16 (if_bufferSize o);
  it_send_timeout := if_sendTimeout o; it_retry_timeout := 200; it_retries := 2; it_crc_type := if_crc o;
  it_window_frames := if_window o; it_mtu := 0; it_addr := 0; it_peers_count := 0;
  it_mode := TINY_FD_MODE_ABM |}.

(** The result of [tiny_fd_init] is not looked at. *)
Definition ifd_begin (o : ifd US) : ifd US :=
  let '(_, station) := tiny_fd_init p (ifd_init o) in
  o <| if_handle := match station with
                    | Some (hdlc, h) => Some (hdlc, mk_fd_world h (if_clock o) (if_user o))
                    | None => None end |>.

(** A call with the handle. *)
Definition on_ifd {R} (f : hdlc_ll_data_t * fd_world US -> R * (hdlc_ll_data_t * fd_world US)) (o : ifd US)
  : option (R * ifd US) :=
  match if_handle o with
  | Some lw => let '(r, lw) := f lw in Some (r, o <| if_handle := Some lw |>)
  | None => None
  end.

Definition ifd_end (o : ifd US) : option (ifd US) :=
  if if_bufferSize o =? 0 then Some o else
  snd <$> on_ifd (fun lw => (tt, tiny_fd_close millis ifd_callbacks lw)) o.

Definition ifd_write (buf : list Z) (o : ifd US) : option (Z * ifd US) :=
  on_ifd (fun lw => let '(r, w) := tiny_fd_send_packet millis others buf (if_sendTimeout o) (snd lw) in
                    (r, (fst lw, w))) o.

Definition ifd_write_packet (mem : memory) (pkt : IPacket) (o : ifd US) : option (Z * ifd US) :=
  ifd_write (mem_range mem (m_buf pkt) (Z.to_nat (m_len pkt))) o.

Definition ifd_run_rx (data : list Z) (o : ifd US) : option (Z * ifd US) :=
  on_ifd (fun lw => tiny_fd_on_rx_data millis ifd_callbacks lw data) o.

(** [read_func] gives its result and the bytes. *)
Definition ifd_run_rx_func (read_func : Z -> US -> Z * list Z * US) (o : ifd US) : option (Z * ifd US) :=
  match if_handle o with
  | None => let '(len, _, us) := read_func 64 (if_user o) in
            if len <=? 0 then Some (len, o <| if_user := us |>) else None
  | Some (hdlc, w) =>
      let '(len, buf, us) := read_func 64 (user w) in
      let o := o <| if_handle := Some (hdlc, w <| user := us |>) |> in
      if len <=? 0 then Some (len, o) else ifd_run_rx (take (Z.to_nat len) buf) o
  end.

Definition ifd_run_tx (max_size : Z) (o : ifd US) : option (Z * list Z * ifd US) :=
  match on_ifd (fun lw => let '(r, data, lw) := tiny_fd_get_tx_data millis others ifd_callbacks lw max_size 0 in
                          ((r, data), lw)) o with
  | Some (r, data, o) => Some (r, data, o)
  | None => None
  end.

(** The loop over the bytes left; [None] means the fuel ran out. *)
Fixpoint run_tx_func_loop (write_func : list Z -> US -> Z * US) (fuel : nat) (ptr : list Z) (us : US)
  : option (Z * US) :=
  match ptr with
  | [] => Some (TINY_SUCCESS, us)
  | _ :: _ =>
      match fuel with
      | O => None
      | S fuel =>
          let '(result, us) := write_func ptr us in
          if result <=? 0 then Some (if result <? 0 then result else TINY_ERR_FAILED, us)
          else run_tx_func_loop write_func fuel (drop (Z.to_nat result) ptr) us
      end
  end.

Definition ifd_run_tx_func (write_func : list Z -> US -> Z * US) (o : ifd US) : option (Z * ifd US) :=
  match ifd_run_tx 64 o with
  | None => None
  | Some (len, buf, o) =>
      if len <=? 0 then Some (len, o) else
      match if_handle o with
      | None => None
      | Some (hdlc, w) =>
          '(r, us) ← run_tx_func_loop write_func (Z.to_nat len) (take (Z.to_nat len) buf) (user w);
          Some (r, o <| if_handle := Some (hdlc, w <| user := us |>) |>)
      end
  end.

Definition ifd_enableCrc (crc : hdlc_crc_t) (o : ifd US) : ifd US := o <| if_crc := crc |>.
Definition ifd_disableCrc (o : ifd US) : ifd US := ifd_enableCrc HDLC_CRC_OFF o.
Definition ifd_enableCheckSum (o : ifd US) : bool * ifd US := (true, ifd_enableCrc HDLC_CRC_8 o).
Definition ifd_enableCrc16 (o : ifd US) : bool * ifd US := (true, ifd_enableCrc HDLC_CRC_16 o).
Definition ifd_enableCrc32 (o : ifd US) : bool * ifd US := (true, ifd_enableCrc HDLC_CRC_32 o).
Definition ifd_setWindowSize (window : Z) (o : ifd US) : ifd US := o <| if_window := u8 window |>.
Definition ifd_setSendTimeout (timeout : Z) (o : ifd US) : ifd US := o <| if_sendTimeout := u16 timeout |>.

Definition ifd_getStatus (o : ifd US) : Z := fst (tiny_fd_get_status (snd <$> if_handle o)).

(** The destructor of [FdD]. *)
Definition fdd_destroy (o : ifd US) : option (ifd US) := ifd_end o.

End IFd.

(** ** [Hdlc] *)

Record Hdlc (US : Type) : Type := mk_Hdlc {
  hc_handle : option (hdlc_ll_data_t * hl_state US);
  hc_data : hdlc_ll_data_t;
  hc_buffer : Z;
  hc_bufferMem : list Z;
  hc_bufferSize : Z;
  hc_crc : hdlc_crc_t;
  hc_user : US
}.
Arguments mk_Hdlc {US}.
Arguments hc_handle {US}.
Arguments hc_data {US}.
Arguments hc_buffer {US}.
Arguments hc_bufferMem {US}.
Arguments hc_bufferSize {US}.
Arguments hc_crc {US}.
Arguments hc_user {US}.

#[export] Instance eta_Hdlc {US} : Eta (Hdlc US) := fun o =>
  mk_Hdlc (hc_handle o) (hc_data o) (hc_buffer o) (hc_bufferMem o) (hc_bufferSize o) (hc_crc o) (hc_user o).

Section Hdlc.

Context {US : Type} (align sizeof : Z) (millis : nat -> Z) (mem : US -> memory).

(** The callbacks of the application, on the bytes of the packet, and the function that sends. *)
Context (onReceive : option (list Z -> US -> US)) (onSend : option (Z -> Z -> US -> US)).
Context (writecb : option (list Z -> US -> Z * US)).

(** [m_data]; the threads of others do not matter, since [multithread_mode] is false and timeouts are 0. *)
Definition hc_info : hdlc_struct_t US := {|
  send_tx := (fun write w data => let '(r, us) := write data (hl_user (snd w)) in
                                  (r, (fst w, (snd w) <| hl_user := us |>))) <$> writecb;
  hl_on_frame_read := Some (fun w data =>
    match onReceive with Some cb => (fst w, (snd w) <| hl_user ::= cb data |>) | None => w end);
  hl_on_frame_send := Some (fun w data len =>
    match onSend with Some cb => (fst w, (snd w) <| hl_user ::= cb data len |>) | None => w end);
  multithread_mode := false;
  hl_mem := mem |}.

Definition hc_begin (o : Hdlc US) : Hdlc US :=
  o <| hc_handle := hdlc_init align sizeof (hc_data o)
         (mk_hdlc_ll_init (hc_buffer o) (hc_bufferMem o) (hc_bufferSize o) (hc_crc o) 0) (hc_user o) |>.

Definition hc_end (o : Hdlc US) : Hdlc US :=
  if hc_bufferSize o =? 0 then o else
  let '(_, handle) := hdlc_close hc_info (hc_handle o) in o <| hc_handle := handle |>.

Definition hc_write (fuel : nat) (buf size : Z) (o : Hdlc US) : option (Z * Hdlc US) :=
  '(r, handle) ← hdlc_send hc_info millis (fun _ w => w) fuel (hc_handle o) buf size 0;
  Some (r, o <| hc_handle := handle |>).

Definition hc_write_packet (fuel : nat) (pkt : IPacket) (o : Hdlc US) : option (Z * Hdlc US) :=
  hc_write fuel (m_buf pkt) (m_len pkt) o.

(** The error pointer is null. *)
Definition hc_run_rx (data : list Z) (o : Hdlc US) : Z * Hdlc US :=
  let '(r, _, handle) := hdlc_run_rx hc_info (hc_handle o) (Some data) (Z.of_nat (length data)) in
  (r, o <| hc_handle := handle |>).

Definition hc_run_tx (max_len : Z) (o : Hdlc US) : Z * Hdlc US :=
  let '(r, handle) := hdlc_get_tx_data hc_info (hc_handle o) true max_len in
  (r, o <| hc_handle := handle |>).

Definition hc_enableCrc (crc : hdlc_crc_t) (o : Hdlc US) : Hdlc US := o <| hc_crc := crc |>.
Definition hc_disableCrc (o : Hdlc US) : Hdlc US := hc_enableCrc HDLC_CRC_OFF o.
Definition hc_enableCheckSum (o : Hdlc US) : bool * Hdlc US := (true, hc_enableCrc HDLC_CRC_8 o).
Definition hc_enableCrc16 (o : Hdlc US) : bool * Hdlc US := (true, hc_enableCrc HDLC_CRC_16 o).
Definition hc_enableCrc32 (o : Hdlc US) : bool * Hdlc US := (true, hc_enableCrc HDLC_CRC_32 o).

End Hdlc.

(** ** [Light] *)

(** [m_data] and [m_crc]: the type of the FCS in use is in the first. *)
Record light_obj (US : Type) : Type := mk_light_obj {
  lo_data : option (hdlc_ll_data_t * light_state US);
  lo_state : light_state US;
  lo_data_crc : hdlc_crc_t;
  lo_crc : hdlc_crc_t
}.
Arguments mk_light_obj {US}.
Arguments lo_data {US}.
Arguments lo_state {US}.
Arguments lo_data_crc {US}.
Arguments lo_crc {US}.

#[export] Instance eta_light_obj {US} : Eta (light_obj US) := fun o =>
  mk_light_obj (lo_data o) (lo_state o) (lo_data_crc o) (lo_crc o).

Section Light.

Context {US : Type} (align sizeof : Z) (millis : nat -> Z) (mem : US -> memory).
Context (writecb : US -> list Z -> Z * US) (readcb : US -> Z -> Z * list Z * US).

(** The buffer of [m_data] and its contents, and what its handle holds before. *)
Context (buffer : Z) (buffer_mem : list Z) (raw : hdlc_ll_data_t).

Definition light_of (o : light_obj US) : STinyLightData US := mk_light writecb readcb (lo_data_crc o) mem.

Definition light_begin (o : light_obj US) : light_obj US :=
  let o := o <| lo_data_crc := lo_crc o |> in
  o <| lo_data := snd (tiny_light_init (light_of o) align sizeof true raw buffer buffer_mem (lo_state o)) |>.

Definition light_end (o : light_obj US) : light_obj US :=
  o <| lo_data := snd (tiny_light_close (light_of o) (lo_data o)) |>.

Definition light_write (fuel : nat) (buf size : Z) (o : light_obj US) : option (Z * light_obj US) :=
  w ← lo_data o;
  '(r, w) ← tiny_light_send (light_of o) millis fuel buf size w;
  Some (r, o <| lo_data := Some w |>).

Definition light_write_packet (fuel : nat) (pkt : IPacket) (o : light_obj US) : option (Z * light_obj US) :=
  light_write fuel (m_buf pkt) (m_len pkt) o.

(** [contents] are the bytes at [buf]. *)
Definition light_read (fuel : nat) (buf : Z) (contents : list Z) (size : Z) (o : light_obj US)
  : option (Z * light_obj US) :=
  w ← lo_data o;
  '(r, w) ← tiny_light_read (light_of o) millis fuel buf contents size w;
  Some (r, o <| lo_data := Some w |>).

(** The length of the packet is the result, whatever it is. *)
Definition light_read_packet (fuel : nat) (contents : list Z) (pkt : IPacket) (o : light_obj US)
  : option (Z * IPacket * light_obj US) :=
  '(len, o) ← light_read fuel (m_buf pkt) contents (m_size pkt) o;
  Some (len, pkt <| m_p := 0 |> <| m_len := len |>, o).

Definition light_enableCrc (crc : hdlc_crc_t) (o : light_obj US) : light_obj US := o <| lo_crc := crc |>.
Definition light_disableCrc (o : light_obj US) : light_obj US := light_enableCrc HDLC_CRC_OFF o.
Definition light_enableCheckSum (o : light_obj US) : bool * light_obj US := (true, light_enableCrc HDLC_CRC_8 o).
Definition light_enableCrc16 (o : light_obj US) : bool * light_obj US := (true, light_enableCrc HDLC_CRC_16 o).
Definition light_enableCrc32 (o : light_obj US) : bool * light_obj US := (true, light_enableCrc HDLC_CRC_32 o).

End Light.

(** ** Properties *)

(** What [run_tx] relies on: the function takes none or some of the bytes it gets, in order;
    [out] are the bytes it has taken. *)
Class Writer {US} (write_func : list Z -> US -> Z * US) (out : US -> list Z) : Prop :=
  writer_takes data us : data <> [] ->
    let '(r, us') := write_func data us in
    r <= Z.of_nat (length data) /\ out us' = out us ++ take (Z.to_nat r) data.

(** [IFd::run_tx] with a write function terminates, and sends or reports: the loop ends within one call per
    byte; with [TINY_SUCCESS] all bytes the station gave were written, in order; otherwise the
    result is negative (the error of the function, or [TINY_ERR_FAILED] when it took nothing), and a
    proper prefix of them was written (the rest is dropped). *)
Theorem ifd_run_tx_writes {US} (write_func : list Z -> US -> Z * US) out (H : Writer write_func out) data us :
  exists r us', run_tx_func_loop write_func (length data) data us = Some (r, us') /\
    ((r = TINY_SUCCESS /\ out us' = out us ++ data) \/
     (r < 0 /\ exists n, (n < length data)%nat /\ out us' = out us ++ take n data)).
Proof.
  assert (Hgen : forall fuel data us, (length data <= fuel)%nat ->
    exists r us', run_tx_func_loop write_func fuel data us = Some (r, us') /\
    ((r = TINY_SUCCESS /\ out us' = out us ++ data) \/
     (r < 0 /\ exists n, (n < length data)%nat /\ out us' = out us ++ take n data))); [|by apply Hgen].
  clear data us. induction fuel as [|fuel IH]; intros data us Hf.
  { destruct data; [|cbn in Hf; lia]. exists TINY_SUCCESS, us. split; [done|]. left. by rewrite app_nil_r. }
  destruct data as [|b data]; [exists TINY_SUCCESS, us; split; [done|]; left; by rewrite app_nil_r|].
  pose proof (writer_takes (b :: data) us ltac:(done)) as Hw. cbn [run_tx_func_loop].
  destruct (write_func (b :: data) us) as [r us1]. destruct Hw as [Hle Hout].
  destruct (Z.leb_spec r 0) as [Hr|Hr].
  - eexists _, us1. split; [reflexivity|]. right. split; [destruct (Z.ltb_spec r 0); [done|by vm_compute]|].
    exists 0%nat. split; [cbn; lia|]. rewrite Hout. by replace (Z.to_nat r) with 0%nat by lia.
  - destruct (IH (drop (Z.to_nat r) (b :: data)) us1) as (r' & us' & Hrun & Hcase).
    { rewrite length_drop. cbn [length] in *. lia. }
    exists r', us'. split; [exact Hrun|]. rewrite Hout in Hcase. destruct Hcase as [(-> & ->)|(Hneg & n & Hn & ->)].
    + left. split; [done|]. rewrite <- app_assoc. f_equal. apply take_drop.
    + right. split; [done|]. exists (Z.to_nat r + n)%nat. rewrite length_drop in Hn. split; [lia|].
      rewrite <- app_assoc. f_equal. apply take_take_drop.
Qed.

(** A function that takes two bytes at a time, up to five in all. *)
Definition stalling_writer (data : list Z) (out : list Z) : Z * list Z :=
  let n := Nat.min 2 (5 - length out) in (Z.of_nat (length (take n data)), out ++ take n data).

#[export] Instance stalling_writer_ok : Writer stalling_writer (fun out => out).
Proof.
  intros data out Hd. cbn. set (n := match _ with O => _ | S _ => _ end). rewrite Nat2Z.id, length_take. split; [lia|].
  f_equal. destruct (Nat.min_spec n (length data)) as [[_ ->]|[? ->]]; [done|]. by rewrite !take_ge by lia.
Qed.

Lemma ifd_run_tx_writes_witness :
  run_tx_func_loop stalling_writer 6 [1; 2; 3; 4; 5; 6] [] = Some (TINY_ERR_FAILED, [1; 2; 3; 4; 5]) /\
  exists r us', run_tx_func_loop stalling_writer (length [1; 2; 3]) [1; 2; 3] [] = Some (r, us') /\
    ((r = TINY_SUCCESS /\ us' = [] ++ [1; 2; 3]) \/
     (r < 0 /\ exists n, (n < length [1; 2; 3])%nat /\ us' = [] ++ take n [1; 2; 3])).
Proof.
  split; [vm_compute; reflexivity|].
  exact (ifd_run_tx_writes stalling_writer (fun out => out) stalling_writer_ok [1; 2; 3] []).
Defined.

(** Destroying an [FdD] that has not been started, or whose start failed, dereferences a null handle:
    the destructor closes the station whenever the buffer has a size. *)
Lemma fdd_destroy_null {US} p millis onReceive onSend onConnectEvent (o : ifd US) :
  if_bufferSize o <> 0 -> if_handle o = None ->
  fdd_destroy millis onReceive onSend onConnectEvent o = None /\
  (snd (tiny_fd_init p (ifd_init o)) = None ->
   fdd_destroy millis onReceive onSend onConnectEvent (ifd_begin p o) = None).
Proof.
  intros Hs Hh. unfold fdd_destroy, ifd_end, ifd_begin, on_ifd. apply Z.eqb_neq in Hs.
  split; [by rewrite Hs, Hh|]. destruct (tiny_fd_init p (ifd_init o)) as [r st]. cbn [snd]. intros ->.
  cbn. by rewrite Hs.
Qed.

(** An [FdD(64)] is started without an error and crashes at its end. *)
Lemma fdd_small_crash {US} millis onReceive onSend onConnectEvent (us : US) :
  let o := ifd_begin layout_64 (ifd_create 0x1000 64 us) in
  fdd_destroy millis onReceive onSend onConnectEvent o = None.
Proof. by apply (fdd_destroy_null layout_64 millis onReceive onSend onConnectEvent (ifd_create 0x1000 64 us)). Qed.
