(* ===== verification/LightLink.v ===== *)
(** * What the light protocol delivers

    Sending and receiving over a byte channel, the end of every call, and two
    ways in which the handle a failed call leaves behind affects the next one. *)

From S2P Require Import Prelude Crc HdlcLL HdlcSpec HdlcTx HdlcRx Light.

(** ** Sending *)

(** [write_func] takes every byte; [log] is what it has taken. *)
Class LightWriter {US} (light : STinyLightData US) (log : US -> list Z) (push : list Z -> US -> US)
  : Prop := mk_light_writer {
  lw_write : forall u buf, write_func light u buf = (Z.of_nat (length buf), push buf u);
  lw_log : forall u buf, log (push buf u) = log u ++ buf;
  lw_mem : forall u buf, lt_mem light (push buf u) = lt_mem light u
}.

#[export] Instance lt_passive {US} (light : STinyLightData US) :
  SendPassive (lt_client light) (fun w _ _ => snd w).
Proof. by intros [h s] p l. Qed.

(** The clock stays within the second a call may take. *)
Definition within_second (millis : nat -> Z) (ts : Z) : Prop :=
  forall k, u32 (u32 (millis k) - ts) < 1000.

Section Send.

Context {US : Type} (light : STinyLightData US) (millis : nat -> Z).
Context (log : US -> list Z) (push : list Z -> US -> US) `{Hw : !LightWriter light log push}.

#[local] Abbreviation cl := (lt_client light).

Lemma origin_idle mem total h : tx_inv mem total h -> tx_origin_data h = 0 <-> tx_idle h.
Proof using Type.
  intros (_ & _ & Hi). unfold tx_idle. destruct (tx_state h); [tauto|..]; destruct Hi as [? _]; tauto || done.
Qed.

Lemma write_byte ts b fuel w :
  within_second millis ts -> (0 < fuel)%nat ->
  write_byte_loop light millis fuel ts [b] w =
    Some (1, false, (fst w, (snd w) <| lt_user ::= push [b] |> <| lt_clock ::= S |>)).
Proof using Hw.
  intros Ht Hf. destruct fuel as [|fuel]; [lia|]. destruct w as [h s]. cbn [write_byte_loop].
  unfold lt_write. cbn [fst snd]. rewrite lw_write. cbn.
  specialize (Ht (lt_clock s)). by rewrite (proj2 (Z.leb_gt _ _)) by lia.
Qed.

(** The loop sends what is pending, whichever frame that is. *)
Lemma light_send_pending ts len total n : within_second millis ts ->
  forall fuel result h s, tx_inv (cl_mem cl s) total h -> (tx_idle h -> tx_escape h = 0) ->
  length (tx_pending (cl_mem cl s) h) = n -> (n + 1 < fuel)%nat -> 0 <= result ->
  exists h' s', light_send_loop light millis fuel ts len result (h, s) = Some (len, (h', s')) /\
    log (lt_user s') = log (lt_user s) ++ tx_pending (cl_mem cl s) h /\
    tx_idle h' /\ tx_escape h' = 0 /\ crc_type h' = crc_type h.
Proof using Hw.
  intros Ht. induction n as [|n IH]; intros fuel result h s Hi He Hn Hf Hr;
    (destruct fuel as [|fuel]; [lia|]); cbn [light_send_loop fst].
  - assert (Hid : tx_idle h).
    { destruct (decide (tx_idle h)) as [|Hb]; [done|].
      by destruct (tx_pending_busy (cl_mem cl s) h Hb); apply length_zero_iff_nil. }
    rewrite (proj2 Hid), (proj2 (Z.leb_le _ _)) by done. cbn [nz Z.eqb negb].
    exists h, s. rewrite (tx_pending_idle _ h Hid), app_nil_r. split_and!; by try apply He.
  - assert (Hb : ~ tx_idle h) by (intros Hid; by rewrite tx_pending_idle in Hn).
    assert (nz (tx_origin_data h) = true) as ->.
    { apply negb_true_iff, Z.eqb_neq. by rewrite (origin_idle _ _ _ Hi). }
    destruct (run_tx_byte cl _ total h s Hi) as (h1 & s1 & -> & Hout & Hc & Hcase).
    cbn [fst]. rewrite Hout.
    destruct (tx_pending (cl_mem cl s) h) as [|b l] eqn:Hp; [done|]. cbn [take] in *.
    change (take 0 l) with (@nil Z). rewrite write_byte by (done || lia). cbn [fst snd].
    set (s2 := s1 <| lt_user ::= push [b] |> <| lt_clock ::= S |>).
    assert (Hs1 : s1 = s) by (destruct Hcase as [(? & _)|[(_ & _ & _ & _ & [hs Hs])|(_ & _ & Hs & _)]]; done).
    assert (Hm : cl_mem cl s2 = cl_mem cl s) by (subst s2 s1; exact (lw_mem (lt_user s) [b])).
    assert (Hl : log (lt_user s2) = log (lt_user s) ++ [b]) by (subst s2 s1; exact (lw_log (lt_user s) [b])).
    destruct (IH fuel 1 h1 s2) as (h' & s' & -> & Hl' & Hid' & He' & Hc').
    + rewrite Hm. destruct Hcase as [(? & _)|[(_ & _ & Hid & Hesc & _)|(_ & _ & _ & Hi1 & _)]]; [done| |done].
      apply tx_inv_idle; [by rewrite Hc; apply Hi|done|done].
    + destruct Hcase as [(? & _)|[(_ & _ & _ & Hesc & _)|(_ & Hn1 & _)]]; [done|done|by intros ?].
    + rewrite Hm. destruct Hcase as [(? & _)|[(_ & Hone & Hid & _)|(_ & _ & _ & _ & -> & _)]]; [done| |].
      * rewrite tx_pending_idle by done. cbn [length] in *. lia.
      * change (drop 1 (b :: l)) with l. cbn [length] in *. lia.
    + lia.
    + lia.
    + exists h', s'. split; [done|]. rewrite Hl', Hl, Hm, <- app_assoc, Hc'. split; [|done].
      do 2 f_equal. destruct Hcase as [(? & _)|[(_ & Hone & Hid & _)|(_ & _ & _ & _ & -> & _)]]; [done| |done].
      rewrite tx_pending_idle by done. destruct l; [done|cbn in Hone; lia].
Qed.

End Send.

(** ** Receiving *)

(** The first frame or error in a stream, the receiver after it and the rest of the
    stream.  Empty frames are skipped. *)
Fixpoint first_event (t : hdlc_crc_t) (mtu : Z) (r : receiver) (l : list Z)
  : option (rx_event * receiver * list Z) :=
  match l with
  | [] => None
  | b :: l =>
      let '(r, es) := receive_byte t mtu r b in
      match es with
      | [] | Delivered [] :: _ => first_event t mtu r l
      | e :: _ => Some (e, r, l)
      end
  end.

Lemma first_event_skip t mtu r r' pre l :
  receive t mtu r pre = (r', []) -> first_event t mtu r (pre ++ l) = first_event t mtu r' l.
Proof.
  revert r. induction pre as [|b pre IH]; intros r; cbn; [by intros [= ->]|].
  destruct (receive_byte t mtu r b) as [r1 es]. destruct (receive t mtu r1 pre) as [r2 es2] eqn:E.
  intros [= -> H]. apply app_eq_nil in H as [-> ->]. by apply IH.
Qed.

Lemma first_event_frame t mtu p l :
  p <> [] -> Z.of_nat (length p + fcs_size t) <= mtu ->
  first_event t mtu Hunting (wire_frame t p ++ l) = Some (Delivered p, Hunting, l).
Proof.
  intros Hp Hl. pose proof (receive_frame_from t mtu Hunting p Hp Hl ltac:(by left)) as Hr.
  unfold wire_frame in *. cbn [app first_event receive receive_byte] in *.
  rewrite Z.eqb_refl in *.
  rewrite receive_app, receive_stuff in Hr by (cbn [length]; rewrite frame_body_length; lia).
  cbn [app] in *. rewrite <- app_assoc. rewrite (first_event_skip _ _ _ (Receiving (frame_body t p) false)).
  2: { apply receive_stuff. cbn [length]. rewrite frame_body_length. lia. }
  cbn [receive app first_event] in *.
  destruct (receive_byte t mtu (Receiving (frame_body t p) false) FLAG_SEQUENCE) as [r es].
  rewrite app_nil_r in Hr. injection Hr as -> ->. by destruct p.
Qed.

Lemma prefix_take {A} (p l : list A) : p `prefix_of` l -> take (length p) l = p.
Proof. intros [k ->]. by rewrite take_app_length. Qed.

(** At most one event per byte; a delivered payload is the start of what was
    collected. *)
Lemma receive_byte_events t mtu r b r' es :
  receive_byte t mtu r b = (r', es) ->
  es = [] \/
  exists acc esc, r = Receiving acc esc /\ b = FLAG_SEQUENCE /\ r' = Hunting /\
    (es = [Rejected TINY_ERR_WRONG_CRC] \/ exists p, es = [Delivered p] /\ p `prefix_of` acc).
Proof.
  destruct r as [|acc esc]; cbn.
  - case_match; intros [= <- <-]; by left.
  - destruct (Z.eqb_spec b FLAG_SEQUENCE) as [->|]; [|repeat case_match; intros [= <- <-]; by left].
    destruct acc as [|a acc]; intros [= <- <-]; [by left|right].
    exists (a :: acc), esc. do 3 (split; [done|]). unfold check_frame.
    destruct (_ <? _)%nat; [by left|]. case_bool_decide; [|by left]. right. eexists. split; [done|].
    eexists. symmetry. apply take_drop.
Qed.

(** A stream of bytes from [read_func]; nothing when it is empty. *)
Class LightReader {US} (light : STinyLightData US) (inbox : US -> list Z) (pull : US -> US)
  : Prop := mk_light_reader {
  lr_some : forall u b l, inbox u = b :: l ->
    read_func light u 1 = (1, [b], pull u) /\ inbox (pull u) = l
}.

#[export] Instance lt_natural {US} (light : STinyLightData US) : ReadNatural (lt_client light).
Proof. by split. Qed.

(** A handle that collects into one buffer of [phys_mtu] bytes. *)
Definition one_buffer (h : hdlc_ll_data_t) : Prop :=
  rx_ready h /\ rx_active_frame_buf h = 0 /\ phys_mtu h = rx_buf_size h.

Section Receive.

Context {US : Type} (light : STinyLightData US) (millis : nat -> Z).

#[local] Abbreviation cl := (lt_client light).

Lemma deliver_light h (s : light_state US) es :
  deliver cl (h, s) es = (h, snd (deliver cl (h, s) es)).
Proof using Type.
  revert h s. induction es as [|[p|x] es IH]; intros h s; [done|..]; apply IH.
Qed.

(** The end of a frame leaves the buffer alone. *)
Lemma flag_keeps_buffer h (s : light_state US) n e w' :
  rx_state h = RX_READ_DATA -> hdlc_ll_run_rx cl (h, s) [FLAG_SEQUENCE] = (n, e, w') ->
  rx_buf (fst w') = rx_buf h.
Proof using Type.
  intros Hs. unfold hdlc_ll_run_rx, run_rx_fuel. cbn [length Nat.add run_rx_loop].
  unfold rx_step. cbn [fst snd]. rewrite Hs. cbn.
  unfold hdlc_ll_read_end. cbn.
  repeat (case_match; simplify_eq; cbn in *; intros; simplify_eq; try done).
Qed.

(** What the caller of [tiny_light_read] finds after an event. *)
Definition seen (e : rx_event) (r : Z) (w : hdlc_ll_data_t * light_state US) : Prop :=
  match e with
  | Delivered p => lt_rx_len (snd w) = Z.of_nat (length p) /\ take (length p) (rx_buf (fst w)) = p
  | Rejected x => lt_rx_len (snd w) = 0 /\ r = x
  end.

Lemma light_byte h (s : light_state US) b :
  one_buffer h -> fits 8 b ->
  exists n e h' s' es, hdlc_ll_run_rx cl (h, s) [b] = (n, e, (h', s')) /\
    one_buffer h' /\ crc_type h' = crc_type h /\ phys_mtu h' = phys_mtu h /\
    receive_byte (crc_type h) (phys_mtu h) (rx_abs h) b = (rx_abs h', es) /\
    ((es = [] /\ e = 0 /\ s' = s) \/
     (exists x, es = [Rejected x] /\ x < 0 /\ e = x /\ s' = s) \/
     (exists p, es = [Delivered p] /\ e = 0 /\ s' = s <| lt_rx_len := Z.of_nat (length p) |> /\
        take (length p) (rx_buf h') = p)).
Proof using Type.
  intros ([Hi Hs] & Ha & Hsz) Hb.
  destruct (run_rx_spec cl h s [b] Hi Hs ltac:(by apply Forall_singleton)) as (n & e & [h' s'] & Hrun & Href & Hn).
  specialize (Hn ltac:(done)).
  destruct Href as (Hle & Hi' & Hs' & Hc & Hm & es & Hr & Hh & He & _). cbn [fst length] in *.
  assert (n = 1%nat) as -> by lia.
  unfold rx_unread in Hr. rewrite bool_decide_eq_false_2 in Hr by done. cbn [app take receive] in Hr.
  destruct (receive_byte (crc_type h) (phys_mtu h) (rx_abs h) b) as [r es'] eqn:E.
  rewrite app_nil_r in Hr. injection Hr as -> ->.
  unfold happened, client_view in Hh. cbn [fst snd] in Hh. rewrite deliver_light in Hh.
  injection Hh as Hsz' Hc' Hm' _ _ _ _ _ _ _ _ Hss.
  assert (Ho : one_buffer h').
  { split; [done|]. destruct Hi'. lia. }
  exists (Z.of_nat 1), e, h', s', es. split; [done|]. split; [done|]. do 3 (split; [done|]).
  destruct He as [He0 He]. destruct (receive_byte_events _ _ _ _ _ _ E) as
    [->|(acc & esc & Habs & -> & Hhunt & [->|(p & -> & Hp)])].
  - left. cbn in He. destruct (Z.eqb_spec e 0); [done|discriminate].
  - right. left. exists TINY_ERR_WRONG_CRC. cbn in He. destruct (Z.eqb_spec e 0); [discriminate|].
    injection He as <-. done.
  - right. right. exists p. cbn in He. destruct (Z.eqb_spec e 0); [|discriminate].
    split; [done|]. split; [done|]. split; [done|]. apply prefix_take.
    unfold rx_abs in Habs. destruct (rx_state h) eqn:Est; [done| |done].
    pose proof (flag_keeps_buffer _ _ _ _ _ Est Hrun) as Hbuf. cbn [fst] in Hbuf. rewrite Hbuf.
    injection Habs as <- <-.
    etrans; [exact Hp|]. unfold rx_acc, slice. rewrite Ha. cbn [Z.to_nat drop].
    eexists. symmetry. apply take_drop.
Qed.

Context (inbox : US -> list Z) (pull : US -> US) `{Hr : !LightReader light inbox pull}.

Lemma light_read_events ts : within_second millis ts ->
  forall fuel h s e r' rest, one_buffer h -> bytes (inbox (lt_user s)) -> lt_rx_len s = 0 ->
  (length (inbox (lt_user s)) < fuel)%nat ->
  first_event (crc_type h) (phys_mtu h) (rx_abs h) (inbox (lt_user s)) = Some (e, r', rest) ->
  exists r h' s', light_read_loop light millis fuel ts (h, s) = Some (r, (h', s')) /\
    one_buffer h' /\ crc_type h' = crc_type h /\ inbox (lt_user s') = rest /\ rx_abs h' = r' /\
    seen e r (h', s').
Proof using Hr.
  intros Ht. induction fuel as [|fuel IH]; intros h s e r' rest Ho Hb Hlen Hf Hev; [lia|].
  destruct (inbox (lt_user s)) as [|b l] eqn:Hin; [done|].
  destruct (lr_some (lt_user s) b l Hin) as [Hread Hpull]. apply Forall_cons in Hb as [Hb Hbl].
  cbn [light_read_loop]. unfold lt_read. cbn [fst snd]. rewrite Hread. cbn [Z.ltb Z.compare].
  change (take (Z.to_nat 1) [b]) with [b]. set (s0 := s <| lt_user := pull (lt_user s) |>).
  destruct (light_byte h s0 b Ho Hb) as (n & err & h1 & s1 & es & -> & Ho1 & Hc & Hm & Hrb & Hcase).
  cbn [first_event] in Hev. rewrite Hrb in Hev.
  assert (Hstop : hdlc_ll_run_rx cl (h1, s1) [] = (0, TINY_SUCCESS, (h1, s1))).
  { destruct Ho1 as [[_ Hne] _]. unfold hdlc_ll_run_rx, run_rx_fuel. cbn [length Nat.add run_rx_loop fst].
    by rewrite (bool_decide_eq_false_2 (rx_state h1 = RX_READ_END)). }
  assert (Htime : forall k, (1000 <=? u32 (u32 (millis k) - ts)) = false).
  { intros k. specialize (Ht k). apply Z.leb_gt. lia. }
  destruct Hcase as [(-> & -> & ->)|[(x & -> & Hx & -> & ->)|(p & -> & -> & -> & Hp)]].
  - cbn [Z.eqb TINY_SUCCESS]. rewrite Hstop. cbn [negb Z.eqb]. cbn [lt_millis fst snd].
    unfold lt_millis. cbn [fst snd]. rewrite Htime.
    set (s2 := s0 <| lt_clock ::= S |>). change (lt_rx_len s2) with (lt_rx_len s). rewrite Hlen, Z.eqb_refl.
    change (inbox (lt_user s2)) with (inbox (pull (lt_user s))) in *.
    assert (Hi2 : inbox (lt_user s2) = l) by done.
    destruct (IH h1 s2 e r' rest Ho1) as (r & h' & s' & Hrun & Ho' & Hc' & H');
      [by rewrite Hi2|done|rewrite Hi2; cbn in Hf; lia|by rewrite Hi2, Hc, Hm|].
    exists r, h', s'. rewrite Hrun, Hc', Hc. done.
  - injection Hev as <- <- <-. unfold TINY_SUCCESS at 1. rewrite (proj2 (Z.eqb_neq x 0)) by lia.
    unfold TINY_SUCCESS. rewrite (proj2 (Z.eqb_neq x 0)) by lia. cbn [negb].
    exists x, h1, s0. done.
  - cbn [Z.eqb TINY_SUCCESS]. rewrite Hstop. cbn [negb Z.eqb]. unfold lt_millis. cbn [fst snd]. rewrite Htime.
    set (s2 := s0 <| lt_rx_len := Z.of_nat (length p) |> <| lt_clock ::= S |>).
    change (lt_rx_len s2) with (Z.of_nat (length p)). destruct p as [|a p].
    + cbn [length Z.of_nat Z.eqb].
      assert (Hi2 : inbox (lt_user s2) = l) by done.
      destruct (IH h1 s2 e r' rest Ho1) as (r & h' & s' & Hrun & Ho' & Hc' & H');
        [by rewrite Hi2|done|rewrite Hi2; cbn in Hf; lia|by rewrite Hi2, Hc, Hm|].
      exists r, h', s'. rewrite Hrun, Hc', Hc. done.
    + cbn [length Z.of_nat Z.eqb]. injection Hev as <- <- <-.
      exists TINY_SUCCESS, h1, s2. done.
Qed.

End Receive.

(** Between two calls: the receiver is at a frame boundary. *)
Definition light_at_rest (h : hdlc_ll_data_t) : Prop :=
  rx_state h = RX_READ_START /\ crc_type h <> HDLC_CRC_OFF /\ rx_overrun h = false.

Lemma set_buffer_one {US} pbuf mem h (s : light_state US) :
  light_at_rest h -> bytes mem ->
  let h' := fst (light_set_buffer pbuf mem (Z.of_nat (length mem)) (h, s)) in
  one_buffer h' /\ rx_abs h' = Hunting /\ crc_type h' = crc_type h /\
  phys_mtu h' = Z.of_nat (length mem).
Proof.
  intros (Hs & Hc & Ho) Hb. cbn. unfold one_buffer, rx_ready, rx_abs. cbn. rewrite Hs.
  split_and!; try done. split; cbn; try done; lia.
Qed.

Section Read.

Context {US : Type} (light : STinyLightData US) (millis : nat -> Z).
Context (inbox : US -> list Z) (pull : US -> US) `{Hr : !LightReader light inbox pull}.

Lemma light_reads h s pbuf mem e r' rest fuel :
  within_second millis (u32 (millis (lt_clock s))) -> light_at_rest h -> bytes mem ->
  bytes (inbox (lt_user s)) -> (length (inbox (lt_user s)) < fuel)%nat ->
  first_event (crc_type h) (Z.of_nat (length mem)) Hunting (inbox (lt_user s)) = Some (e, r', rest) ->
  (match e with Delivered p => p <> [] | Rejected _ => True end) ->
  exists h' s',
    tiny_light_read light millis fuel pbuf mem (Z.of_nat (length mem)) (h, s) =
      Some (match e with Delivered p => Z.of_nat (length p) | Rejected x => x end, (h', s')) /\
    match e with Delivered p => take (length p) (rx_buf h') = p | Rejected _ => True end /\
    one_buffer h' /\ crc_type h' = crc_type h /\ inbox (lt_user s') = rest /\ rx_abs h' = r'.
Proof using Hr.
  intros Ht Hrest Hmem Hb Hf Hev Hne. unfold tiny_light_read, lt_millis. cbn [fst snd].
  destruct (set_buffer_one pbuf mem h (s <| lt_clock ::= S |>) Hrest Hmem) as (Ho & Habs & Hc & Hm).
  destruct (light_set_buffer pbuf mem (Z.of_nat (length mem)) (h, s <| lt_clock ::= S |>)) as [h1 s1] eqn:E.
  cbn [fst] in *. assert (Hs1 : s1 = s <| lt_clock ::= S |> <| lt_rx_base := pbuf |> <| lt_rx_len := 0 |>)
    by (injection E as _ <-; done).
  destruct (light_read_events light millis inbox pull _ Ht fuel h1 s1 e r' rest Ho)
    as (r & h' & s' & -> & Ho' & Hc' & Hin & Ha & Hseen); [by subst s1..|by subst s1; rewrite Hc, Hm, Habs|].
  exists h', s'. destruct e as [p|x]; destruct Hseen as [Hlen Hseen]; cbn [snd] in *; rewrite Hlen.
  - destruct p as [|a p]; [done|]. cbn [nz length Z.of_nat Z.eqb negb]. by rewrite Hc', Hc.
  - subst r. cbn [nz Z.eqb negb]. by rewrite Hc', Hc.
Qed.

End Read.

(** ** Termination *)

Section End.

Context {US : Type} (light : STinyLightData US) (millis : nat -> Z).

#[local] Abbreviation cl := (lt_client light).

Lemma tx_step_light h (s : light_state US) : snd (snd (tx_step cl (h, s))) = s.
Proof using Type.
  unfold tx_step. cbn [fst]. destruct (tx_state h); unfold hdlc_ll_send_start, hdlc_ll_send_data,
    hdlc_ll_send_crc, hdlc_ll_send_end, call_frame_send; repeat (case_match; simplify_eq; try done).
Qed.

Lemma run_tx_light w len : snd (snd (hdlc_ll_run_tx cl w len)) = snd w.
Proof using Type.
  destruct w as [h s]. unfold hdlc_ll_run_tx.
  assert (H : forall fuel rep h w', run_tx_loop cl fuel rep (h, s) = Some w' -> snd w' = s).
  { induction fuel as [|fuel IH]; intros rep h0 w'; [done|]. cbn [run_tx_loop].
    pose proof (tx_step_light h0 s) as Hs. destruct (tx_step cl (h0, s)) as [r [h1 s1]].
    cbn in Hs. subst s1. repeat case_match; intros; simplify_eq; try done; by eapply IH. }
  destruct (run_tx_loop _ _ _ _) eqn:E; [|done]. by apply H in E.
Qed.

Lemma run_rx_light w data : lt_clock (snd (snd (hdlc_ll_run_rx cl w data))) = lt_clock (snd w).
Proof using Type.
  assert (Hstep : forall w data, lt_clock (snd (snd (rx_step cl w data))) = lt_clock (snd w)).
  { intros [h s] d. unfold rx_step, hdlc_ll_read_end, call_frame_read. cbn [fst snd].
    repeat (case_match; simplify_eq; try done). }
  unfold hdlc_ll_run_rx.
  assert (H : forall fuel r w data n e w', run_rx_loop cl fuel r w data = Some (n, e, w') ->
                lt_clock (snd w') = lt_clock (snd w)).
  { induction fuel as [|fuel IH]; intros r w0 d n e w'; [done|]. cbn [run_rx_loop].
    specialize (Hstep w0 d). destruct (rx_step cl w0 d) as [t w1]. cbn [snd] in Hstep.
    repeat case_match; intros; simplify_eq; try done. etrans; [by eapply IH|done]. }
  destruct (run_rx_loop _ _ _ _ _) as [[[n e] w']|] eqn:E; [|done]. by apply H in E.
Qed.

(** The clock reading [N] is too late for a call that began at [ts]. *)
Context (ts : Z) (N : nat) (Hlate : 1000 <= u32 (u32 (millis N) - ts)).

Lemma write_byte_ends fuel stream w :
  (lt_clock (snd w) <= N)%nat -> (N - lt_clock (snd w) < fuel)%nat ->
  exists r ret w', write_byte_loop light millis fuel ts stream w = Some (r, ret, w') /\
    (ret = true \/ tx_origin_data (fst w') = 0 \/
     (lt_clock (snd w) < lt_clock (snd w') <= N)%nat).
Proof using Hlate.
  revert w. induction fuel as [|fuel IH]; intros w Hc Hf; [lia|]. cbn [write_byte_loop].
  unfold lt_write. destruct (write_func light (lt_user (snd w)) stream) as [r u].
  destruct (r <? 0); [eauto 10|]. unfold lt_millis. cbn [fst snd].
  set (w1 := (fst w, (snd w) <| lt_user := u |> <| lt_clock ::= S |>)).
  change (lt_clock ((snd w) <| lt_user := u |>)) with (lt_clock (snd w)).
  destruct (Z.leb_spec 1000 (u32 (u32 (millis (lt_clock (snd w))) - ts))); [eauto 10|].
  assert (lt_clock (snd w) <> N) by (intros E; rewrite E in *; lia).
  assert (Hc1 : lt_clock (snd w1) = S (lt_clock (snd w))) by done.
  destruct (r <? Z.of_nat (length stream)).
  - destruct (IH w1) as (r' & ret & w' & Hrun & Hcase); [lia..|].
    exists r', ret, w'. split; [exact Hrun|]. destruct Hcase as [?|[?|?]]; [tauto..|]. right. right. lia.
  - exists r, false, w1. split; [done|]. right. right. lia.
Qed.

Lemma light_send_ends fuel len result w :
  (lt_clock (snd w) <= N)%nat -> (N - lt_clock (snd w) + 1 < fuel)%nat ->
  is_Some (light_send_loop light millis fuel ts len result w).
Proof using Hlate.
  revert result w. induction fuel as [|fuel IH]; intros result w Hc Hf; [lia|]. cbn [light_send_loop].
  destruct (nz (tx_origin_data (fst w))); [|eauto].
  pose proof (run_tx_light w 1) as Hs. destruct (hdlc_ll_run_tx cl w 1) as [n w1]. cbn [snd] in Hs.
  destruct (write_byte_ends fuel (tx_out_buffer (fst w1)) w1) as (r & ret & w2 & -> & Hcase);
    [rewrite Hs; lia..|].
  destruct ret; [eauto|]. destruct Hcase as [?|[Ho|Hclk]]; [done| |].
  - destruct fuel as [|fuel]; [lia|]. cbn [light_send_loop]. rewrite Ho. cbn. eauto.
  - rewrite Hs in Hclk. apply IH; lia.
Qed.

Lemma light_read_ends fuel w :
  (lt_clock (snd w) <= N)%nat -> (N - lt_clock (snd w) < fuel)%nat ->
  is_Some (light_read_loop light millis fuel ts w).
Proof using Hlate.
  revert w. induction fuel as [|fuel IH]; intros w Hc Hf; [lia|]. cbn [light_read_loop].
  unfold lt_read. destruct (read_func light (lt_user (snd w)) 1) as [[n stream] u]. cbn [fst snd].
  set (w0 := (fst w, (snd w) <| lt_user := u |>)).
  assert (Hw0 : lt_clock (snd w0) = lt_clock (snd w)) by done.
  destruct (n <? 0); [eauto|].
  pose proof (run_rx_light w0 (take (Z.to_nat n) stream)) as H1.
  destruct (hdlc_ll_run_rx cl w0 _) as [[n1 e1] w1]. cbn [snd] in H1.
  pose proof (run_rx_light w1 []) as H2. destruct (hdlc_ll_run_rx cl w1 []) as [[n2 e2] w2]. cbn [snd] in H2.
  assert (Hrest : forall e w', lt_clock (snd w') = lt_clock (snd w) ->
    is_Some (if negb (e =? TINY_SUCCESS) then Some (e, w') else
             let '(now, w') := lt_millis millis w' in
             if 1000 <=? u32 (now - ts)
             then Some (TINY_ERR_TIMEOUT, (hdlc_ll_reset (fst w') HDLC_LL_RESET_RX_ONLY, snd w'))
             else if lt_rx_len (snd w') =? 0 then light_read_loop light millis fuel ts w'
             else Some (e, w'))).
  { intros e w' Hw'. destruct (negb _); [eauto|]. unfold lt_millis. cbn [fst snd].
    destruct (Z.leb_spec 1000 (u32 (u32 (millis (lt_clock (snd w'))) - ts))) as [|Hlt]; [eauto|].
    assert (lt_clock (snd w') <> N) by (intros E; rewrite E in Hlt; lia).
    destruct (_ =? 0); [|eauto]. apply IH; cbn; lia. }
  destruct (e1 =? TINY_SUCCESS); apply Hrest; congruence.
Qed.

End End.

(** ** A sample application *)

Record light_app : Type := mk_light_app {
  la_mem : list Z;
  la_log : list Z;
  la_inbox : list Z;
  la_broken : bool
}.

Definition la_push (buf : list Z) (u : light_app) : light_app :=
  mk_light_app (la_mem u) (la_log u ++ buf) (la_inbox u) (la_broken u).

Definition la_pull (u : light_app) : light_app :=
  mk_light_app (la_mem u) (la_log u) (tail (la_inbox u)) (la_broken u).

(** A channel that works; with [la_broken], reading it fails once it is empty. *)
Definition sample_light : STinyLightData light_app := {|
  write_func u buf := (Z.of_nat (length buf), la_push buf u);
  read_func u _ := match la_inbox u with
                   | b :: _ => (1, [b], la_pull u)
                   | [] => (if la_broken u then -1 else 0, [], u)
                   end;
  lt_crc_type := HDLC_CRC_16;
  lt_mem u a := nth (Z.to_nat (a - 1)) (la_mem u) 0
|}.

#[export] Instance sample_writer : LightWriter sample_light la_log la_push.
Proof. by split. Qed.

#[export] Instance sample_reader : LightReader sample_light la_inbox la_pull.
Proof. split. intros u b l H. cbn. by rewrite H. Qed.

Definition sample_lt (inbox : list Z) (broken : bool) : hdlc_ll_data_t * light_state light_app :=
  (fresh_handle HDLC_CRC_16 16 64,
   mk_light_state 0 5000 0 (mk_light_app [1; 0x7E; 2; 0x7D] [] inbox broken)).

(** ** Properties *)

(** C26: round trip.  While the clock stays within the second a call may take,
    [tiny_light_send] on an idle handle returns the length of the data, having written
    exactly one wire frame; whenever that frame comes first in the stream of a
    station with the same FCS and a large enough buffer, [tiny_light_read] returns the
    same length with the data in the buffer, reads not one byte beyond the frame,
    and leaves the station ready for the next call. *)
Theorem tiny_light_roundtrip {US VS : Type} (tx : STinyLightData US) (rx : STinyLightData VS)
  (millis_tx millis_rx : nat -> Z) (log : US -> list Z) (push : list Z -> US -> US)
  (inbox : VS -> list Z) (pull : VS -> VS)
  (Hw : LightWriter tx log push) (Hr : LightReader rx inbox pull)
  (h1 : hdlc_ll_data_t) (s1 : light_state US) (pbuf len : Z)
  (Hidle : tx_idle h1 /\ tx_escape h1 = 0) (Hcrc : crc_type h1 <> HDLC_CRC_OFF)
  (Hp : pbuf <> 0) (Hlen : 0 < len)
  (Ht1 : within_second millis_tx (u32 (millis_tx (lt_clock s1))))
  (h2 : hdlc_ll_data_t) (s2 : light_state VS) (rbuf : Z) (mem rest : list Z)
  (Hrest : light_at_rest h2 /\ crc_type h2 = crc_type h1) (Hmem : bytes mem)
  (Hroom : len + Z.of_nat (fcs_size (crc_type h1)) <= Z.of_nat (length mem))
  (Ht2 : within_second millis_rx (u32 (millis_rx (lt_clock s2)))) (fuel : nat) :
  let data := mem_range (lt_mem tx (lt_user s1)) pbuf (Z.to_nat len) in
  let frame := wire_frame (crc_type h1) data in
  inbox (lt_user s2) = frame ++ rest -> bytes (inbox (lt_user s2)) ->
  (length frame + length rest + 1 < fuel)%nat ->
  exists h1' s1' h2' s2',
    tiny_light_send tx millis_tx fuel pbuf len (h1, s1) = Some (len, (h1', s1')) /\
    log (lt_user s1') = log (lt_user s1) ++ frame /\ (tx_idle h1' /\ tx_escape h1' = 0) /\
    tiny_light_read rx millis_rx fuel rbuf mem (Z.of_nat (length mem)) (h2, s2) = Some (len, (h2', s2')) /\
    take (Z.to_nat len) (rx_buf h2') = data /\ inbox (lt_user s2') = rest /\ light_at_rest h2'.
Proof.
  intros data frame Hin Hb Hf. destruct Hidle as [[Hs Ho] He], Hrest as [Hrest Hcc].
  assert (Hdl : length data = Z.to_nat len) by apply mem_range_length.
  assert (Hd0 : data <> []) by (intros E; rewrite E in Hdl; cbn in Hdl; lia).
  destruct (light_reads rx millis_rx inbox pull h2 s2 rbuf mem (Delivered data) Hunting rest fuel)
    as (h2' & s2' & Hread & Hbuf & Ho2 & Hc2 & Hi2 & Ha2); try done.
  { rewrite Hin, length_app. lia. }
  { rewrite Hin, Hcc. apply first_event_frame; [done|]. rewrite Hdl. lia. }
  unfold tiny_light_send, lt_millis, put_frame. cbn [fst snd]. rewrite Ho. cbn [nz Z.eqb negb].
  apply Z.eqb_neq in Hp as Hp0. rewrite Hp0. assert ((len =? 0) = false) as -> by lia. cbn [orb snd].
  set (h := h1 <| tx_origin_data := pbuf |> <| tx_data := pbuf |> <| tx_len := len |>).
  set (s := s1 <| lt_clock ::= S |>).
  assert (Hpend : tx_pending (cl_mem (lt_client tx) s) h = frame).
  { unfold tx_pending. cbn. rewrite Hs, Hp0. done. }
  destruct (light_send_pending tx millis_tx log push (u32 (millis_tx (lt_clock s1))) len len
              (length frame) Ht1 fuel TINY_SUCCESS h s) as (h1' & s1' & -> & Hl & Hid & Hesc & _);
    [unfold tx_inv; cbn; rewrite Hs; auto 10|by intros [_ ?]|by rewrite Hpend|lia|by vm_compute|].
  exists h1', s1', h2', s2'. rewrite Hread, Hl, Hpend. rewrite <- Hdl, Hbuf, Hdl, Z2Nat.id by lia.
  do 3 (split; [done|]). split; [done|]. split; [done|]. split; [done|].
  destruct Ho2 as [[[] _] _]. split; [|split; [done|done]].
  unfold rx_abs in Ha2. by destruct (rx_state h2').
Qed.

Lemma tiny_light_roundtrip_witness :
  let millis := fun _ => 5 in
  let frame := [0x7E; 1; 0x7D; 0x5E; 2; 0x7D; 0x5D; 0x74; 0xEB; 0x7E] in
  exists h1' s1' h2' s2',
    tiny_light_send sample_light millis 20 1 4 (sample_lt [] false) = Some (4, (h1', s1')) /\
    la_log (lt_user s1') = frame /\
    tiny_light_read sample_light millis 20 2000 (repeat 0 8) 8 (sample_lt (frame ++ [9]) false) =
      Some (4, (h2', s2')) /\
    take 4 (rx_buf h2') = [1; 0x7E; 2; 0x7D] /\ la_inbox (lt_user s2') = [9].
Proof.
  intros millis frame.
  destruct (tiny_light_roundtrip sample_light sample_light millis millis la_log la_push la_inbox la_pull
              sample_writer sample_reader (fst (sample_lt [] false)) (snd (sample_lt [] false)) 1 4)
    with (h2 := fst (sample_lt (frame ++ [9]) false)) (s2 := snd (sample_lt (frame ++ [9]) false))
         (rbuf := 2000) (mem := repeat 0 8) (rest := [9]) (fuel := 20%nat)
    as (h1' & s1' & h2' & s2' & H1 & H2 & _ & H3 & H4 & H5 & _);
    [by split|done|lia|lia|by intros ?; vm_compute|by split|by apply (bool_decide_eq_true_1 _); vm_compute
    |by vm_compute|by intros ?; vm_compute|reflexivity|by apply (bool_decide_eq_true_1 _); vm_compute
    |by apply (bool_decide_eq_true_1 _); vm_compute|].
  exists h1', s1', h2', s2'. exact (conj H1 (conj H2 (conj H3 (conj H4 H5)))).
Defined.

(** [tiny_light_read] is the first event of the abstract receiver.  The result is the
    length of the first non-empty frame of the stream, with its payload in the
    buffer, or the error of the first damaged frame if that comes before; the
    stream is read exactly to the end of that frame. *)
Theorem tiny_light_read_first_event {US : Type} (light : STinyLightData US) (millis : nat -> Z)
  (inbox : US -> list Z) (pull : US -> US) (Hr : LightReader light inbox pull)
  (h : hdlc_ll_data_t) (s : light_state US) (pbuf : Z) (mem : list Z) (e : rx_event) (r' : receiver)
  (rest : list Z) (fuel : nat)
  (Ht : within_second millis (u32 (millis (lt_clock s)))) (Hrest : light_at_rest h) (Hmem : bytes mem)
  (Hb : bytes (inbox (lt_user s))) (Hf : (length (inbox (lt_user s)) < fuel)%nat)
  (Hev : first_event (crc_type h) (Z.of_nat (length mem)) Hunting (inbox (lt_user s)) =
         Some (e, r', rest)) (Hne : e <> Delivered []) :
  exists h' s',
    tiny_light_read light millis fuel pbuf mem (Z.of_nat (length mem)) (h, s) =
      Some (match e with Delivered p => Z.of_nat (length p) | Rejected x => x end, (h', s')) /\
    match e with Delivered p => take (length p) (rx_buf h') = p | Rejected _ => True end /\
    inbox (lt_user s') = rest /\ rx_overrun h' = false.
Proof.
  destruct (light_reads light millis inbox pull h s pbuf mem e r' rest fuel Ht Hrest Hmem Hb Hf Hev)
    as (h' & s' & Hrun & Hbuf & [[[] _] _] & _ & Hi & _).
  - destruct e as [p|]; [|done]. by intros ->.
  - by exists h', s'.
Qed.

(** A frame whose FCS is damaged. *)
Lemma tiny_light_read_first_event_witness :
  exists h' s',
    tiny_light_read sample_light (fun _ => 5) 20 2000 (repeat 0 8) 8
      (sample_lt [0xFF; 0x7E; 0x7E; 1; 2; 3; 0x7E; 9] false) = Some (TINY_ERR_WRONG_CRC, (h', s')) /\
    la_inbox (lt_user s') = [9].
Proof.
  set (w := sample_lt [0xFF; 0x7E; 0x7E; 1; 2; 3; 0x7E; 9] false).
  destruct (tiny_light_read_first_event sample_light (fun _ => 5) la_inbox la_pull sample_reader
              (fst w) (snd w) 2000 (repeat 0 8) (Rejected TINY_ERR_WRONG_CRC) Hunting [9] 20)
    as (h' & s' & H1 & _ & H2 & _);
    [by intros ?; vm_compute|done|by apply (bool_decide_eq_true_1 _); vm_compute
    |by apply (bool_decide_eq_true_1 _); vm_compute|by apply (bool_decide_eq_true_1 _); vm_compute
    |by vm_compute|done|].
  exists h', s'. exact (conj H1 H2).
Defined.

(** Every call ends.  Whatever the handle, the data and the functions of the
    channel do, a call whose clock shows a second after its begin by the [n]-th
    reading ends by then. *)
Theorem tiny_light_calls_end {US : Type} (light : STinyLightData US) (millis : nat -> Z)
  (w : hdlc_ll_data_t * light_state US) (n fuel : nat) (Hn : (0 < n)%nat)
  (Hlate : let c := lt_clock (snd w) in 1000 <= u32 (u32 (millis (c + n)%nat) - u32 (millis c)))
  (Hfuel : (n + 1 < fuel)%nat) :
  (forall pbuf len, is_Some (tiny_light_send light millis fuel pbuf len w)) /\
  (forall pbuf mem len, is_Some (tiny_light_read light millis fuel pbuf mem len w)).
Proof.
  cbv zeta in Hlate. split.
  - intros pbuf len. unfold tiny_light_send, lt_millis. cbn [fst snd].
    apply (light_send_ends light millis _ _ Hlate); cbn; lia.
  - intros pbuf mem len. unfold tiny_light_read, lt_millis. cbn [fst snd].
    destruct (light_read_ends light millis _ _ Hlate fuel
                (light_set_buffer pbuf mem len (fst w, (snd w) <| lt_clock ::= S |>))) as [[r w'] ->];
      [cbn; lia..|]. eauto.
Qed.

Lemma tiny_light_calls_end_witness :
  is_Some (tiny_light_read sample_light (fun k => 500 * Z.of_nat k) 4 2000 (repeat 0 8) 8 (sample_lt [] false)).
Proof.
  destruct (tiny_light_calls_end sample_light (fun k => 500 * Z.of_nat k) (sample_lt [] false) 2 4)
    as [_ H]; [lia|by vm_compute|lia|]. exact (H 2000 (repeat 0 8) 8).
Defined.

(** [tiny_light_send] does not look at the result of [hdlc_ll_put_frame].  On a handle that a
    failed write has left in the middle of a frame, it sends the rest of the old
    frame, not one byte of the new data, and returns the length of the new data. *)
Theorem tiny_light_send_busy {US : Type} (light : STinyLightData US) (millis : nat -> Z)
  (log : US -> list Z) (push : list Z -> US -> US) (Hw : LightWriter light log push)
  (h : hdlc_ll_data_t) (s : light_state US) (total pbuf len : Z) (fuel : nat)
  (Hi : tx_inv (lt_mem light (lt_user s)) total h) (Hbusy : ~ tx_idle h)
  (Ht : within_second millis (u32 (millis (lt_clock s))))
  (Hf : (length (tx_pending (lt_mem light (lt_user s)) h) + 1 < fuel)%nat) :
  exists h' s',
    tiny_light_send light millis fuel pbuf len (h, s) = Some (len, (h', s')) /\
    log (lt_user s') = log (lt_user s) ++ tx_pending (lt_mem light (lt_user s)) h /\ tx_idle h'.
Proof.
  unfold tiny_light_send, lt_millis, put_frame. cbn [fst snd].
  assert (nz (tx_origin_data h) = true) as ->.
  { apply negb_true_iff, Z.eqb_neq. by rewrite (origin_idle _ _ _ Hi). }
  set (s0 := s <| lt_clock ::= S |>).
  destruct (light_send_pending light millis log push (u32 (millis (lt_clock s))) len total
              (length (tx_pending (lt_mem light (lt_user s)) h)) Ht
              fuel TINY_SUCCESS h s0 Hi)
    as (h' & s' & Hrun & Hl & Hid & _); [by intros ?|done|exact Hf|by vm_compute|].
  exists h', s'. cbn [snd]. split; [exact Hrun|]. split; [exact Hl|done].
Qed.

(** A write function that fails after three bytes, then a working one. *)
Lemma tiny_light_send_busy_witness :
  let millis := fun _ => 5 in
  let failing := mk_light (fun u buf => if (length (la_log u) <? 3)%nat
                                        then (1, la_push buf u) else (-1, u))
                   (read_func sample_light) HDLC_CRC_16 (lt_mem sample_light) in
  exists w1 h' s',
    tiny_light_send failing millis 20 1 4 (sample_lt [] false) = Some (-1, w1) /\
    la_log (lt_user (snd w1)) = [0x7E; 1; 0x7D] /\
    tiny_light_send sample_light millis 20 3 2 w1 = Some (2, (h', s')) /\
    la_log (lt_user s') = [0x7E; 1; 0x7D; 2; 0x7D; 0x5D; 0x74; 0xEB; 0x7E] /\ tx_idle h'.
Proof.
  intros millis failing.
  set (w1 := match tiny_light_send failing millis 20 1 4 (sample_lt [] false) with
             | Some (_, w) => w | None => sample_lt [] false end).
  assert (H1 : tiny_light_send failing millis 20 1 4 (sample_lt [] false) = Some (-1, w1)) by by vm_compute.
  assert (H2 : la_log (lt_user (snd w1)) = [0x7E; 1; 0x7D]) by by vm_compute.
  assert (H0 : tx_state (fst w1) = TX_SEND_DATA) by by vm_compute.
  destruct (tiny_light_send_busy sample_light millis la_log la_push sample_writer
              (fst w1) (snd w1) 4 3 2 20) as (h' & s' & H3 & H4 & H5).
  - cbv. split; [done|]. split; [by left|]. split; [done|]. split; [by split|]. by split.
  - intros [H _]. rewrite H0 in H. discriminate H.
  - by intros ?; vm_compute.
  - by apply (bool_decide_eq_true_1 _); vm_compute.
  - assert (E : la_log (lt_user (snd w1)) ++
                  tx_pending (lt_mem sample_light (lt_user (snd w1))) (fst w1) =
                [0x7E; 1; 0x7D; 2; 0x7D; 0x5D; 0x74; 0xEB; 0x7E]) by by vm_compute.
    rewrite E in H4. rewrite <- surjective_pairing in H3. clearbody w1.
    exists w1, h', s'. exact (conj H1 (conj H2 (conj H3 (conj H4 H5)))).
Defined.

(** A failed read leaves [rx.ptr] in the buffer of that call.  After a read that the
    channel aborts in the middle of a frame, the next read writes the following
    bytes of the frame through the old pointer, outside its own buffer. *)
Theorem tiny_light_read_stale_pointer :
  let millis := fun _ => 5 in
  let w := sample_lt [0x7E; 1; 2] true in
  exists w1 w2,
    tiny_light_read sample_light millis 10 1000 (repeat 0 8) 8 w = Some (-1, w1) /\
    tiny_light_read sample_light millis 10 2000 (repeat 0 8) 8
      (fst w1, (snd w1) <| lt_user := mk_light_app [] [] [3] true |>) = Some (-1, w2) /\
    rx_overrun (fst w1) = false /\ rx_overrun (fst w2) = true.
Proof.
  intros millis w.
  set (result (r : option (Z * (hdlc_ll_data_t * light_state light_app))) := match r with Some (_, w) => w | None => w end).
  set (w1 := result (tiny_light_read sample_light millis 10 1000 (repeat 0 8) 8 w)).
  set (w1' := (fst w1, (snd w1) <| lt_user := mk_light_app [] [] [3] true |>)).
  set (w2 := result (tiny_light_read sample_light millis 10 2000 (repeat 0 8) 8 w1')).
  assert (H1 : tiny_light_read sample_light millis 10 1000 (repeat 0 8) 8 w = Some (-1, w1)) by by vm_compute.
  assert (H2 : tiny_light_read sample_light millis 10 2000 (repeat 0 8) 8 w1' = Some (-1, w2)) by by vm_compute.
  assert (H3 : rx_overrun (fst w1) = false) by by vm_compute.
  assert (H4 : rx_overrun (fst w2) = true) by by vm_compute.
  exists w1, w2. exact (conj H1 (conj H2 (conj H3 H4))).
Qed.
