(* ===== verification/FdMarker.v ===== *)
(** * The marker of normal response mode

    What each operation does to the right to send ([FD_EVENT_HAS_MARKER]), to the timer after which a
    primary takes it back, and to the addresses of the peers: a frame with the P/F bit that is for
    the station brings the marker, sending one takes it away, choosing one to send starts the
    timer; nothing else touches them. *)

From S2P Require Import Prelude Crc HdlcLL HdlcSpec HdlcRx FdTypes FdQueue FdPeers FdIQueue FdLog.
From S2P Require Import FdService FdTx FdRx Fd FdApi FdInv FdSafe FdStation FdInit FdFifo FdSlots.
From S2P Require Import FdRun FdFlow FdConn FdMoves FdXmit FdE2E FdDelivery FdProgress.

(** The station may send. *)
Definition has_marker (h : tiny_fd_data_t) : bool := nz (Z.land (fd_events h) FD_EVENT_HAS_MARKER).

(** When the station last chose a frame, and how long a primary waits from then on. *)
Definition timer (h : tiny_fd_data_t) : Z * Z := (fd_last_marker_ts h, fd_retry_timeout h).

(** The marker, the addresses and the timer. *)
Definition marker (h : tiny_fd_data_t) : bool * list Z * (Z * Z) := (has_marker h, pi_addr <$> fd_peers h, timer h).

(** *** Observations *)

Lemma addresses_upd_peer i f h :
  (forall p, pi_addr (f p) = pi_addr p) -> pi_addr <$> fd_peers (upd_peer i f h) = pi_addr <$> fd_peers h.
Proof.
  intros Hf. unfold upd_peer. cbn. apply list_eq. intros j. rewrite !list_lookup_fmap.
  destruct (decide (Z.to_nat i = j)) as [<-|Hne]; [|by rewrite list_lookup_alter_ne].
  rewrite list_lookup_alter_eq. destruct (fd_peers h !! Z.to_nat i); cbn; [by rewrite Hf|done].
Qed.

Lemma marker_upd_peer i f h :
  (forall p, pi_addr (f p) = pi_addr p) -> marker (upd_peer i f h) = marker h.
Proof. intros Hf. unfold marker. by rewrite addresses_upd_peer. Qed.

Lemma marker_events_set bits h :
  Z.land bits FD_EVENT_HAS_MARKER = 0 -> marker (fd_events_set bits h) = marker h.
Proof.
  intros Hb. unfold marker, has_marker. change (fd_events (fd_events_set bits h)) with (events_set bits (fd_events h)).
  by rewrite nz_events_set.
Qed.

Lemma marker_events_clear bits h :
  Z.land (Z.lxor bits EVENT_BITS_ALL) FD_EVENT_HAS_MARKER = FD_EVENT_HAS_MARKER ->
  marker (fd_events_clear bits h) = marker h.
Proof.
  intros Hb. unfold marker, has_marker.
  change (fd_events (fd_events_clear bits h)) with (events_clear bits (fd_events h)). by rewrite nz_events_clear.
Qed.

#[export] Hint Extern 2 (Unseen marker _) =>
  let h := fresh "h" in
  intros h; first [exact eq_refl | apply marker_upd_peer; done | apply marker_events_set; done
    | apply marker_events_clear; done] : typeclass_instances.

(** An operation that leaves the marker, the addresses and the timer alone. *)
Class Silent (g : fd_world app -> fd_world app) : Prop :=
  silent w : marker (handle (g w)) = marker (handle w).

#[export] Instance silent_on f : Unseen marker f -> Silent (on_handle f).
Proof. intros Hf w. apply Hf. Qed.

Lemma silent_unlocked (cb : fd_world app -> fd_world app) w :
  (forall w', marker (handle (cb w')) = marker (handle w')) -> marker (handle (unlocked cb w)) = marker (handle w).
Proof.
  intros Hcb. unfold unlocked. rewrite (silent (g := on_handle tiny_mutex_lock)).
  by rewrite Hcb, (silent (g := on_handle tiny_mutex_unlock)).
Qed.

Section Marker.

Context (millis : nat -> Z) (others : Z -> fd_world app -> fd_world app).

#[local] Abbreviation cbs := app_callbacks.

(** Peels the last assignment off. *)
Ltac peel := rewrite obs_on by apply _.

(** ** Received frames *)

Lemma silent_confirmed peer nr w : marker (handle (snd (__on_frame_confirmed cbs peer nr w))) = marker (handle w).
Proof using Type.
  unfold __on_frame_confirmed. destruct (tiny_fd_queue_get_next _ _ _ nr) as [i|]; cbn [snd on_send_cb cbs].
  - change (handle (on_handle ?f ?x)) with (f (handle x)). cbv beta. rewrite marker_upd_peer by done.
    set (w1 := unlocked _ w). set (w2 := on_handle _ w1).
    assert (H : marker (handle w2) = marker (handle w)).
    { unfold w2. peel. unfold w1. by rewrite silent_unlocked. }
    destruct (tiny_fd_queue_has_free_slots _); [|exact H]. by peel.
  - change (handle (on_handle ?f ?x)) with (f (handle x)). cbv beta. by rewrite marker_upd_peer.
Qed.

Lemma silent_confirm_loop fuel peer nr w w' :
  confirm_loop fuel peer nr (__on_frame_confirmed cbs peer) w = Some w' -> marker (handle w') = marker (handle w).
Proof using Type.
  revert w. induction fuel as [|fuel IH]; intros w; [done|]. cbn [confirm_loop].
  destruct (negb _); [|by intros [= <-]]. destruct (negb _); [by intros [= <-]|].
  pose proof (silent_confirmed peer (confirm_ns (control_at (handle w) peer)) w) as H.
  destruct (__on_frame_confirmed _ _ _ w) as [b w1]. cbn [snd] in H. intros E. apply IH in E. rewrite E, <- H.
  change (handle (w1 <| handle ::= ?g |>)) with (g (handle w1)). unfold upd_control. by rewrite marker_upd_peer.
Qed.

#[local] Instance silent_confirm peer nr : Silent (__confirm_sent_frames cbs peer nr).
Proof using Type.
  intros w. unfold __confirm_sent_frames, __i_queue_control_confirm_sent_frames.
  destruct (confirm_loop 9 peer nr _ w) as [w'|] eqn:E; [|done]. apply silent_confirm_loop in E.
  destruct (negb _); [|done]. by peel.
Qed.

#[local] Instance silent_connected peer : Silent (__switch_to_connected_state millis cbs peer).
Proof using Type.
  intros w. unfold __switch_to_connected_state. destruct (bool_decide _); [done|]. cbn [tiny_millis on_connect_event_cb cbs].
  change (handle (on_handle ?f ?x)) with (f (handle x)). cbv beta.
  rewrite marker_events_set by (by destruct (tiny_fd_queue_has_free_slots _)). peel. peel.
  change (handle (?x <| clock ::= S |>)) with (handle x). peel.
  change (handle (?x <| clock ::= S |>)) with (handle x). peel. by peel.
Qed.

#[local] Instance silent_disconnected peer : Silent (__switch_to_disconnected_state cbs peer).
Proof using Type.
  intros w. unfold __switch_to_disconnected_state. destruct (bool_decide _); [done|]. cbn [on_connect_event_cb cbs].
  peel. peel. by peel.
Qed.

Lemma marker_resend fuel peer control nr h h' :
  resend_loop fuel peer control nr h = Some h' -> marker h' = marker h.
Proof using Type.
  revert h. induction fuel as [|fuel IH]; intros h; [done|]. cbn [resend_loop].
  destruct (negb _); [|by intros [= <-]]. destruct (_ =? _).
  - intros [= <-]. apply (unseen (f := put_u_s _ _)).
  - intros E. apply IH in E. rewrite E. unfold upd_control. by rewrite marker_upd_peer.
Qed.

#[local] Instance silent_resend peer control nr : Silent (on_handle (__resend_all_unconfirmed_frames peer control nr)).
Proof using Type.
  intros w. change (handle (on_handle ?f ?x)) with (f (handle x)). unfold __resend_all_unconfirmed_frames.
  destruct (resend_loop 9 peer control nr (handle w)) as [h'|] eqn:E; [|done].
  rewrite marker_events_set by done. by eapply marker_resend.
Qed.

#[local] Instance silent_s_read peer data : Silent (fun w => snd (__on_s_frame_read cbs peer data w)).
Proof using Type.
  intros w. unfold __on_s_frame_read. cbn [snd]. repeat case_match; try done;
    repeat first [rewrite silent by apply _ | change (handle (on_handle ?f ?x)) with (f (handle x)); cbv beta;
      first [rewrite (unseen (f := put_u_s _ _)) | rewrite (unseen (f := fd_events_set _))]]; done.
Qed.

#[local] Instance silent_i_read peer data : Silent (fun w => snd (__on_i_frame_read cbs peer data w)).
Proof using Type.
  intros w. unfold __on_i_frame_read.
  assert (Hc : marker (snd (__check_received_frame peer (Z.land (Z.shiftr (frame_control data) 1) 0x07) (handle w))) = marker (handle w)).
  { unfold __check_received_frame. destruct (_ =? _); cbn [snd]; [|destruct (negb _); cbn [snd]; [|done]].
    - unfold upd_control. by rewrite !marker_upd_peer.
    - rewrite (unseen (f := put_u_s _ _)). by rewrite marker_upd_peer. }
  destruct (__check_received_frame _ _ _) as [result h]. cbn [snd] in Hc. set (w1 := w <| handle := h |>).
  assert (H2 : marker (handle (__confirm_sent_frames cbs peer (Z.shiftr (frame_control data) 5) w1)) = marker (handle w))
    by (by rewrite silent by apply _).
  destruct (result =? TINY_SUCCESS); [|exact H2]. cbn [snd on_read_cb cbs].
  change (handle (on_handle ?f ?x)) with (f (handle x)). unfold confirm_with_rr. destruct (_ && _).
  - rewrite (unseen (f := put_u_s _ _)). by rewrite silent_unlocked.
  - by rewrite silent_unlocked.
Qed.

Lemma silent_put_u peer cr type (w : fd_world app) : marker (handle (on_handle (put_u peer cr type) w)) = marker (handle w).
Proof using Type. change (handle (on_handle ?f ?x)) with (f (handle x)). apply (unseen (f := put_u_s _ _)). Qed.

Lemma silent_request peer (w : fd_world app) :
  marker (handle (on_handle (fun h => put_u peer HDLC_CR_BIT (connect_type h) h) w)) = marker (handle w).
Proof using Type. change (handle (on_handle ?f ?x)) with (f (handle x)). apply (unseen (f := put_u_s _ _)). Qed.

#[local] Instance silent_u_read peer data : Silent (fun w => snd (__on_u_frame_read millis cbs peer data w)).
Proof using Type.
  intros w. unfold __on_u_frame_read. cbn [snd on_read_ui_cb cbs].
  repeat lazymatch goal with |- context [if ?b then _ else _] => destruct b end; try done;
    repeat first [rewrite silent_put_u|rewrite silent_request|rewrite silent_connected|rewrite silent_disconnected|peel];
    done.
Qed.

(** A frame for the station brings the marker with its P/F bit. *)
Definition polls (h : tiny_fd_data_t) (frame : list Z) : bool :=
  (fd_mode h =? TINY_FD_MODE_NRM) && nz (Z.land (frame_control frame) (Z.lor HDLC_P_BIT HDLC_F_BIT)).

(** The frame is for this station. *)
Definition accepts (h : tiny_fd_data_t) (frame : list Z) : bool :=
  (2 <=? Z.of_nat (length frame)) &&
  negb (__address_field_to_peer h (frame_address frame) =? HDLC_INVALID_PEER_INDEX).

Lemma read_ignored frame (w : fd_world app) :
  accepts (handle w) frame = false -> on_frame_read millis cbs frame w = w.
Proof using Type.
  unfold accepts, on_frame_read. rewrite Z.ltb_antisym. destruct (2 <=? _); cbn [negb andb]; [|done].
  assert (__tiny_fd_log_frame cbs TINY_FD_FRAME_DIRECTION_IN frame w = w) as ->.
  { unfold __tiny_fd_log_frame. by destruct frame as [|? [|? ?]]. }
  by intros ->%negb_false_iff.
Qed.

Lemma read_marker c frame (w : fd_world app) :
  fd_wf c false (handle w) -> bytes frame -> accepts (handle w) frame = true ->
  marker (handle (on_frame_read millis cbs frame w)) =
    (has_marker (handle w) || polls (handle w) frame, pi_addr <$> fd_peers (handle w), timer (handle w)).
Proof using Type.
  intros Hw Hd Ha. pose proof (wf_mode _ _ _ Hw) as Hmode.
  pose proof (wf_mode _ _ _ (on_frame_read_wf millis cbs c frame w Hw Hd)) as Hmode'. revert Hmode'.
  revert Ha. unfold accepts, on_frame_read. rewrite Z.ltb_antisym. destruct (2 <=? _); cbn [negb andb]; [|done].
  assert (__tiny_fd_log_frame cbs TINY_FD_FRAME_DIRECTION_IN frame w = w) as ->.
  { unfold __tiny_fd_log_frame. by destruct frame as [|? [|? ?]]. }
  intros ->%negb_true_iff. cbn [tiny_millis]. set (w1 := on_handle (upd_peer _ _) _).
  assert (H1 : marker (handle w1) = marker (handle w)).
  { unfold w1. peel. change (handle (?x <| clock ::= S |>)) with (handle x). by peel. }
  set (w2 := if Z.land _ HDLC_U_FRAME_MASK =? HDLC_U_FRAME_MASK then _ else _).
  assert (H2 : marker (handle w2) = marker (handle w)).
  { rewrite <- H1. unfold w2.
    repeat lazymatch goal with |- context [if ?b then _ else _] => destruct b end;
      [apply silent_u_read|apply silent_put_u|apply silent_i_read|apply silent_s_read|done]. }
  clearbody w2. intros Hmode'.
  assert (Hm2 : fd_mode (handle w2) = fd_mode (handle w)).
  { rewrite Hmode, <- Hmode'. destruct (fd_mode (handle w2) =? TINY_FD_MODE_NRM) eqn:E; [destruct (nz _)|];
      by rewrite (obs_on fd_mode) by apply _. }
  unfold polls. rewrite Hm2. destruct (fd_mode (handle w) =? TINY_FD_MODE_NRM); cbn [andb].
  - destruct (nz (Z.land (frame_control frame) _)).
    + peel. change (handle (on_handle ?f ?x)) with (f (handle x)). rewrite orb_true_r. unfold marker.
      f_equal; [f_equal; [by apply nz_events_set_same|exact (f_equal (fun m => m.1.2) H2)]|exact (f_equal snd H2)].
    + peel. by rewrite H2, orb_false_r.
  - peel. by rewrite H2, orb_false_r.
Qed.

(** ** Sending *)

Lemma silent_next_s_u h peer address : marker (snd (tiny_fd_get_next_s_u_frame_to_send h peer address)) = marker h.
Proof using Type.
  unfold tiny_fd_get_next_s_u_frame_to_send. destruct (tiny_fd_queue_get_next _ _ _ _); [|done]. cbn [snd].
  destruct (_ =? _); [|done]. by rewrite marker_upd_peer.
Qed.

#[local] Instance silent_mark peer : Silent (mark_i_sent millis peer).
Proof using Type.
  intros w. unfold mark_i_sent. cbn [tiny_millis]. peel. change (handle (?x <| clock ::= S |>)) with (handle x).
  change (handle (on_handle ?f ?x)) with (f (handle x)). cbv beta. by rewrite marker_upd_peer.
Qed.

#[local] Instance silent_stamp peer i : Silent (on_handle (stamp_nr peer i)).
Proof using Type. by intros w. Qed.

#[local] Instance silent_next_i peer address : Silent (fun w => snd (tiny_fd_get_next_i_frame millis peer address w)).
Proof using Type.
  intros w. unfold tiny_fd_get_next_i_frame. destruct (_ || _); [done|]. destruct (negb _).
  - destruct (first_requested _ 8 0) as [i|]; [|done]. destruct (tiny_fd_queue_get_next _ _ _ _); cbn [snd].
    + rewrite silent by apply _. rewrite silent by apply _. by peel.
    + by peel.
  - destruct (tiny_fd_queue_get_next _ _ _ _); cbn [snd]; [|done]. rewrite silent by apply _. unfold upd_control. peel.
    by rewrite silent by apply _.
Qed.

(** Choosing a frame starts the timer; without one nothing changes. *)
Lemma next_frame_marker peer w :
  let '(d, w') := tiny_fd_get_next_frame_to_send millis cbs peer w in
  match d with
  | Some _ => exists k, marker (handle w') = (has_marker (handle w), pi_addr <$> fd_peers (handle w), (u32 (millis k), fd_retry_timeout (handle w)))
  | None => marker (handle w') = marker (handle w)
  end.
Proof using Type.
  unfold tiny_fd_get_next_frame_to_send. set (w0 := on_handle tiny_mutex_lock w).
  assert (H0 : marker (handle w0) = marker (handle w)) by (unfold w0; by peel). clearbody w0.
  set (address := __peer_to_address_field _ _). pose proof (silent_next_s_u (handle w0) peer address) as H1.
  destruct (tiny_fd_get_next_s_u_frame_to_send _ _ _) as [d1 h1]. cbn [snd] in H1.
  set (w1 := w0 <| handle := h1 |>).
  set (p2 := match d1 with Some r => (Some r, w1) | None => _ end).
  assert (H2 : marker (handle (snd p2)) = marker (handle w)).
  { rewrite <- H0, <- H1. unfold p2. destruct d1; [done|]. exact (silent_next_i peer address w1). }
  destruct p2 as [d2 w2]. cbn [snd] in H2.
  set (p3 := match d2 with Some r => (Some r, w2) | None => _ end).
  assert (H3 : marker (handle (snd p3)) = marker (handle w)).
  { rewrite <- H2. unfold p3. destruct d2; [done|]. destruct (_ =? _); [|done].
    pose proof (silent_next_s_u (put_marker_frame peer address (handle w2)) peer address) as H.
    destruct (tiny_fd_get_next_s_u_frame_to_send _ _ _) as [d h]. cbn [snd] in *.
    change (handle (w2 <| handle := h |>)) with h. rewrite H. unfold put_marker_frame.
    destruct (_ && _); apply (unseen (f := put_u_s _ _)). }
  destruct p3 as [d3 w3]. cbn [snd] in H3. destruct d3 as [r|]; [|by peel]. cbn [tiny_millis].
  set (w4 := if needs_pf _ _ _ then _ else w3).
  assert (H4 : marker (handle w4) = marker (handle w)) by (unfold w4; destruct (needs_pf _ _ _); [by peel|done]).
  set (w5 := on_handle (upd_peer peer _) _).
  assert (__tiny_fd_log_frame cbs TINY_FD_FRAME_DIRECTION_OUT (frame_bytes (ref_slot (handle w5) r)) w5 = w5) as -> by done.
  exists (clock w4). peel. unfold w5. peel.
  injection H4 as Hm Ha _ Hr. unfold marker, timer. f_equal; [f_equal; [exact Hm|exact Ha]|f_equal; exact Hr].
Qed.

(** *** Timers *)

#[local] Instance silent_timer peer : Silent (check_idle_timeout millis cbs peer).
Proof using Type.
  intros w. unfold check_idle_timeout. destruct (_ || _).
  - unfold tiny_fd_connected_check_idle_timeout. set (w0 := on_handle tiny_mutex_lock w).
    assert (H0 : marker (handle w0) = marker (handle w)) by (unfold w0; by peel). clearbody w0.
    cbn [time_since tiny_millis]. peel. rewrite <- H0. set (w1 := w0 <| clock ::= S |>).
    change (marker (handle w0)) with (marker (handle w1)). destruct (_ && _).
    + destruct (0 <? _); [|by rewrite silent by apply _]. rewrite silent by apply _. by peel.
    + unfold __time_passed_since_last_frame_received. cbn [time_since tiny_millis].
      destruct (_ <=? _); [destruct (negb _); [by rewrite silent by apply _|done]|].
      unfold __time_passed_since_last_frame_sent. cbn [time_since tiny_millis].
      destruct (_ <=? _); [|done]. peel. change (handle (?x <| clock ::= S |>)) with (handle x).
      change (handle (on_handle ?f ?x)) with (f (handle x)). cbv beta. rewrite (unseen (f := put_u_s _ _)).
      by peel.
  - unfold tiny_fd_disconnected_check_idle_timeout. set (w0 := on_handle tiny_mutex_lock w).
    assert (H0 : marker (handle w0) = marker (handle w)) by (unfold w0; by peel). clearbody w0.
    unfold __time_passed_since_last_frame_received. cbn [time_since tiny_millis]. peel. rewrite <- H0.
    destruct (_ <=? _); [|done]. destruct (__is_primary_station _); [|done]. peel.
    change (handle (?x <| clock ::= S |>)) with (handle x). peel. by rewrite silent_request.
Qed.

End Marker.
