(* ===== verification/FdMarkerTx.v ===== *)
(** * The frame on the wire in normal response mode

    The slot of the frame under transmission: which one [tiny_fd_get_next_frame_to_send]
    chooses, that the functions the application calls meanwhile leave it alone, and that its end
    gives the marker away exactly when the frame has the P/F bit.  A marker that is missing comes back by
    looking for something to send only to a primary, and only when its timer has run out. *)

From S2P Require Import Prelude Crc HdlcLL HdlcSpec HdlcTx HdlcRx FdTypes FdQueue FdPeers FdIQueue FdLog.
From S2P Require Import FdService FdTx FdRx Fd FdApi FdInv FdSafe FdStation FdInit FdFifo FdSlots.
From S2P Require Import FdRun FdFlow FdConn FdMoves FdXmit FdE2E FdDelivery FdProgress FdWire FdMarker.

(** The slot holds a frame. *)
Definition busy (h : tiny_fd_data_t) (f : tiny_fd_frame_info_t) : Prop :=
  f ∈ all_frames h /\ fi_type f <> TINY_FD_QUEUE_FREE.

(** ** What leaves the frames alone *)

(** The marker, the addresses and every queued frame are as before. *)
Record spares (h h' : tiny_fd_data_t) : Prop := mk_spares {
  sp_marker : marker h' = marker h;
  sp_busy : forall f, busy h f -> busy h' f
}.

#[export] Instance spares_preorder : PreOrder spares.
Proof.
  split; [by split|]. intros h1 h2 h3 [H1 H2] [H3 H4]. split; [by rewrite H3|auto].
Qed.

Lemma spares_same h h' : all_frames h' = all_frames h -> marker h' = marker h -> spares h h'.
Proof. intros Hs Hm. split; [done|]. intros f. unfold busy. by rewrite Hs. Qed.

(** A change that sees neither. *)
Lemma spares_unseen f h : Unseen all_frames f -> Unseen marker f -> spares h (f h).
Proof. intros Hs Hm. by apply spares_same. Qed.

Lemma spares_queue types (q : tiny_fd_queue_t) type data g :
  queue_ok types q -> forall f, f ∈ q_frames q -> fi_type f <> TINY_FD_QUEUE_FREE ->
  match tiny_fd_queue_allocate q type data with
  | (Some i, q') => f ∈ q_frames (upd_slot i g q')
  | (None, q') => f ∈ q_frames q'
  end.
Proof.
  intros Hq f Hf Hb. pose proof (allocate_spec types q type data Hq) as Hal.
  destruct (tiny_fd_queue_allocate q type data) as [[i|] q'].
  - destruct Hal as (_ & s & Hs & Hfree & ->). apply list_elem_of_lookup in Hf as (j & Hj).
    apply list_elem_of_lookup. exists j. unfold upd_slot. cbn.
    assert (i <> j) by (intros ->; congruence). by rewrite !list_lookup_alter_ne.
  - by destruct Hal as [-> _].
Qed.

Lemma spares_put_u_s b c type data h : fd_wf c b h -> spares h (put_u_s type data h).
Proof.
  intros Hw. split; [apply (unseen (f := put_u_s _ _))|]. intros f [Hf Hb]. split; [|done].
  unfold put_u_s, __put_u_s_frame_to_tx_queue. unfold all_frames in *.
  pose proof (spares_queue _ _ type (drop 2 data)
    (fun f => f <| fi_address := nth 0 data 0 |> <| fi_control := nth 1 data 0 |>)
    (qw_ok _ _ _ _ _ (wf_s _ _ _ Hw)) f) as Hk.
  destruct (tiny_fd_queue_allocate (fd_s_queue h) type (drop 2 data)) as [[i|] q]; cbn [snd];
    apply elem_of_app in Hf as [Hf|Hf]; apply elem_of_app; auto.
Qed.

Lemma spares_put_i c b h peer data : fd_wf c b h -> spares h (snd (__put_i_frame_to_tx_queue h peer data)).
Proof.
  intros Hw. unfold __put_i_frame_to_tx_queue.
  pose proof (spares_queue _ _ TINY_FD_QUEUE_I_FRAME data
    (fun f => f <| fi_address := __peer_to_address_field h peer |>
                <| fi_control := u8 (Z.shiftl (last_ns (control_at h peer)) 1) |>)
    (qw_ok _ _ _ _ _ (wf_i _ _ _ Hw))) as Hk.
  destruct (tiny_fd_queue_allocate (fd_i_queue h) _ data) as [[i|] q]; cbn [snd];
    (split; [|intros f [Hf Hb]; split; [|done]; specialize (Hk f); unfold all_frames in *;
       apply elem_of_app in Hf as [Hf|Hf]; apply elem_of_app; auto]).
  - unfold upd_control. rewrite marker_events_set by done. by rewrite marker_upd_peer.
  - done.
Qed.

Lemma spares_poll get put bits clear (w : fd_world app) :
  (forall h, spares h (put (events_clear bits (get h)) h)) ->
  spares (handle w) (handle (snd (tiny_events_poll get put bits clear w))).
Proof.
  intros Hp. unfold tiny_events_poll. destruct (nz (Z.land _ _)); [|done]. destruct (nz clear); [|done].
  apply Hp.
Qed.

(** ** The functions of the application *)

Section Calls.

Context (millis : nat -> Z) (others : Z -> fd_world app -> fd_world app) (c : fd_config).

(** The marker and the queued frames stay, and so does the invariant. *)
Definition good (w w' : fd_world app) : Prop :=
  spares (handle w) (handle w') /\ fd_wf c false (handle w').

Lemma spares_on f (w : fd_world app) : Unseen all_frames f -> Unseen marker f -> spares (handle w) (handle (on_handle f w)).
Proof using Type. intros Hs Hm. apply (spares_unseen f); apply _. Qed.

Lemma spares_set bits (w : fd_world app) :
  Z.land bits FD_EVENT_HAS_MARKER = 0 -> spares (handle w) (handle (on_handle (fd_events_set bits) w)).
Proof using Type. intros Hb. apply spares_same; [done|by apply marker_events_set]. Qed.

Lemma spares_packet address data (w : fd_world app) :
  fd_wf c false (handle w) ->
  spares (handle w) (handle (snd (tiny_fd_send_packet_to millis others address data 0 w))).
Proof using Type.
  intros Hw. unfold tiny_fd_send_packet_to. cbv zeta. set (peer := destination _ _). destruct (_ =? _); [done|].
  cbn [tiny_millis]. set (w0 := w <| clock ::= S |>).
  assert (H0 : good w w0) by (by split). clearbody w0. destruct (_ <? _); [exact (proj1 H0)|].
  unfold peer_events_wait, fd_events_wait. rewrite wait_now.
  assert (H1 : good w (snd (tiny_events_poll (fun h => pi_events (peer_at h peer))
     (fun v => upd_peer peer (fun p => p <| pi_events := v |>)) FD_EVENT_CAN_ACCEPT_I_FRAMES EVENT_BITS_CLEAR w0))).
  { split.
    - etrans; [apply H0|]. apply spares_poll. intros h. apply spares_same; [done|by apply marker_upd_peer].
    - unfold tiny_events_poll. destruct (nz _); [|apply H0]. cbn [snd].
      change (nz EVENT_BITS_CLEAR) with true. cbv iota. apply fd_wf_upd_peer; [apply H0|by intros p []]. }
  destruct (tiny_events_poll _ _ _ _ w0) as [can w1]. cbn [snd] in H1. destruct (nz can); [|exact (proj1 H1)].
  unfold time_since. cbn [tiny_millis]. set (w2 := w1 <| clock ::= S |>).
  assert (H2 : good w w2) by exact H1. clearbody w2.
  match goal with |- context [if (u32 ?x <? 0) then ?y else 0] =>
    assert (Hnow : (if (u32 x <? 0) then y else 0) = 0) by
      (pose proof (fits_u32 x) as Hx; unfold fits in Hx; by rewrite (proj2 (Z.ltb_ge _ _)) by lia)
  end.
  rewrite Hnow, wait_now.
  assert (H3 : good w (snd (tiny_events_poll fd_events (fun v h => h <| fd_events := v |>)
     FD_EVENT_QUEUE_HAS_FREE_SLOTS EVENT_BITS_CLEAR w2))).
  { split.
    - etrans; [apply H2|]. apply spares_poll. intros h.
      apply spares_same; [done|by apply marker_events_clear].
    - unfold tiny_events_poll. destruct (nz _); [|apply H2]. cbn [snd].
      change (nz EVENT_BITS_CLEAR) with true. cbv iota. apply fd_wf_events, H2. }
  destruct (tiny_events_poll _ _ _ _ w2) as [free w3]. cbn [snd] in H3. destruct (nz free); cycle 1.
  { cbn [snd]. etrans; [apply H3|]. apply spares_same; [done|by apply marker_upd_peer]. }
  set (w4 := on_handle tiny_mutex_lock w3).
  assert (H4 : spares (handle w) (handle w4) /\ fd_wf c true (handle w4)).
  { split; [etrans; [apply H3|]; apply (spares_unseen tiny_mutex_lock); apply _|by apply fd_wf_lock, H3]. }
  clearbody w4. destruct H4 as [H4 H4w].
  pose proof (spares_put_i c true (handle w4) peer data H4w) as H5.
  destruct (__put_i_frame_to_tx_queue (handle w4) peer data) as [put h5]. cbn [snd] in H5.
  set (p := if put then _ else _).
  assert (H6 : spares (handle w) (handle (snd p))).
  { etrans; [exact H4|]. etrans; [exact H5|]. unfold p. destruct put; [|done].
    destruct (tiny_fd_queue_has_free_slots _); [|done]. apply spares_same; [done|by apply marker_events_set]. }
  destruct p as [res w6]. cbn [snd] in *. etrans; [exact H6|].
  etrans; [|apply (spares_on tiny_mutex_unlock); apply _].
  destruct (negb _); [|done]. apply spares_same; [done|by apply marker_upd_peer].
Qed.

Lemma spares_ui address data len (w : fd_world app) :
  fd_wf c false (handle w) -> spares (handle w) (handle (snd (tiny_fd_send_ui_packet_to address data len w))).
Proof using Type.
  intros Hw. unfold tiny_fd_send_ui_packet_to. cbv zeta. destruct (_ && _); [done|]. destruct (_ <? _); [done|].
  destruct (_ =? _); [done|]. set (peer := destination _ _). set (w0 := on_handle tiny_mutex_lock w).
  assert (H0 : spares (handle w) (handle w0)) by (apply (spares_on tiny_mutex_lock); apply _).
  assert (Hw0 : fd_wf c true (handle w0)) by (by apply fd_wf_lock). clearbody w0.
  pose proof (spares_queue _ _ TINY_FD_QUEUE_U_FRAME (default [] data)
    (fun f => f <| fi_address := __peer_to_address_field (handle w0) peer |>
                <| fi_control := Z.lor HDLC_U_FRAME_TYPE_UI HDLC_U_FRAME_BITS |>)
    (qw_ok _ _ _ _ _ (wf_s _ _ _ Hw0))) as Hk.
  destruct (tiny_fd_queue_allocate (fd_s_queue (handle w0)) _ _) as [[i|] q]; cbn [snd];
    (etrans; [exact H0|]; etrans; [|apply (spares_on tiny_mutex_unlock); apply _]).
  - etrans; [|by apply spares_set]. split; [done|]. intros f [Hf Hb]. split; [|done].
    specialize (Hk f). unfold all_frames in *. apply elem_of_app in Hf as [Hf|Hf]; apply elem_of_app; auto.
  - split; [done|]. intros f [Hf Hb]. split; [|done].
    specialize (Hk f). unfold all_frames in *. apply elem_of_app in Hf as [Hf|Hf]; apply elem_of_app; auto.
Qed.

Lemma spares_disconnect (w w' : fd_world app) r :
  fd_wf c false (handle w) -> tiny_fd_disconnect (Some w) = (r, Some w') -> spares (handle w) (handle w').
Proof using Type.
  intros Hw. cbn [tiny_fd_disconnect]. cbv zeta. set (w0 := on_handle tiny_mutex_lock w).
  assert (H0 : spares (handle w) (handle w0)) by (apply (spares_on tiny_mutex_lock); apply _).
  assert (Hw0 : fd_wf c true (handle w0)) by (by apply fd_wf_lock). clearbody w0.
  pose proof (spares_put_u_s true c TINY_FD_QUEUE_U_FRAME
    [Z.lor (__peer_to_address_field (handle w0) 0) HDLC_CR_BIT; Z.lor HDLC_U_FRAME_TYPE_DISC HDLC_U_FRAME_BITS]
    (handle w0) Hw0) as H1. unfold put_u_s in H1.
  destruct (__put_u_s_frame_to_tx_queue (handle w0) _ _) as [slot h1]. cbn [snd] in H1.
  set (p := match slot with Some _ => _ | None => _ end).
  assert (H2 : spares (handle w) (handle (snd p))).
  { etrans; [exact H0|]. etrans; [exact H1|]. unfold p. destruct slot; [|done].
    apply spares_same; [done|by apply marker_upd_peer]. }
  destruct p as [res w2]. cbn [snd] in H2. intros [= <- <-]. etrans; [exact H2|].
  apply (spares_on tiny_mutex_unlock); apply _.
Qed.

End Calls.

(** ** The frame chosen *)

(** The slot [r] holds a frame with the address [address]. *)
Definition chosen (address : Z) (r : frame_ref) (h : tiny_fd_data_t) : Prop :=
  exists f, ref_lookup h r = Some f /\
    fi_type f <> TINY_FD_QUEUE_FREE /\ same_address address (fi_address f) = true.

Lemma chosen_slot address r h :
  chosen address r h -> busy h (ref_slot h r) /\ same_address address (fi_address (ref_slot h r)) = true.
Proof.
  intros (f & Hf & Hb & Ha). assert (ref_slot h r = f) as ->.
  { destruct r as [i|i]; by apply slot_at_lookup. }
  split; [|done]. split; [|done]. unfold all_frames. apply elem_of_app.
  destruct r; [left|right]; by eapply list_elem_of_lookup_2.
Qed.

(** A change of the control byte of a slot. *)
Lemma chosen_upd address r r' g h :
  (forall f, fi_type (g f) = fi_type f /\ fi_address (g f) = fi_address f) ->
  chosen address r h -> chosen address r (upd_ref r' g h).
Proof.
  intros Hg (f & Hf & Hb & Ha). destruct (Hg f) as [H1 H2].
  assert (Hj : forall i j (l : list tiny_fd_frame_info_t), l !! j = Some f ->
    alter g i l !! j = Some (if decide (i = j) then g f else f)).
  { intros i j l Hl. destruct (decide (i = j)) as [->|Hne];
      [by rewrite list_lookup_alter_eq, Hl|by rewrite list_lookup_alter_ne]. }
  destruct r as [j|j], r' as [i|i]; unfold chosen, upd_ref, upd_slot; cbn; try (by exists f);
    (exists (if decide (i = j) then g f else f); split; [by apply Hj|]; destruct (decide (i = j)); by rewrite ?H1, ?H2).
Qed.

Lemma chosen_queues address r h h' :
  fd_i_queue h' = fd_i_queue h -> fd_s_queue h' = fd_s_queue h -> chosen address r h -> chosen address r h'.
Proof. intros Hi Hs (f & Hf & H). exists f. split; [|done]. destruct r; cbn in *; by rewrite ?Hi, ?Hs. Qed.

Section Chosen.

Context (millis : nat -> Z) (c : fd_config).

Lemma next_s_u_chosen b h peer address r h' :
  fd_wf c b h -> tiny_fd_get_next_s_u_frame_to_send h peer address = (Some r, h') -> chosen address r h'.
Proof using Type.
  intros Hw. unfold tiny_fd_get_next_s_u_frame_to_send.
  destruct (tiny_fd_queue_get_next _ _ _ _) as [i|] eqn:E; [|done]. intros [= <- <-].
  pose proof (wf_s _ _ _ Hw) as [[Hl Hs _] _ _ _]. apply get_next_Some in E as (f & Hf & Hm); [|done].
  rewrite Forall_lookup in Hs. eapply slot_matches_su_iff in Hm as [Ht Ha]; [|by eapply Hs].
  apply (chosen_queues _ _ h); [by destruct (_ =? _)..|]. exists f. split_and!; [done| |done].
  by destruct Ht as [-> | ->].
Qed.

Lemma next_i_chosen b peer address (w : fd_world app) r w' :
  fd_wf c b (handle w) -> tiny_fd_get_next_i_frame millis peer address w = (Some r, w') -> chosen address r (handle w').
Proof using Type.
  intros Hw. pose proof (wf_i _ _ _ Hw) as [[Hl Hs _] _ _ _]. rewrite Forall_lookup in Hs.
  assert (Hget : forall n i, tiny_fd_queue_get_next (fd_i_queue (handle w)) TINY_FD_QUEUE_I_FRAME address n = Some i ->
            chosen address (InIQueue i) (handle w)).
  { intros n i E. apply get_next_Some in E as (f & Hf & Hm); [|done].
    eapply slot_matches_i_iff in Hm as (Ht & Ha & _); [|by eapply Hs]. exists f. split_and!; [done|by rewrite Ht|done]. }
  assert (Hmark : forall i g (w1 : fd_world app), chosen address (InIQueue i) (handle w1) ->
            (forall h, fd_i_queue (g h) = fd_i_queue h /\ fd_s_queue (g h) = fd_s_queue h) ->
            chosen address (InIQueue i) (handle (mark_i_sent millis peer (on_handle g (on_handle (stamp_nr peer i) w1))))).
  { intros i g w1 H1 Hg. unfold mark_i_sent. cbn [tiny_millis].
    apply (chosen_queues _ _ (g (stamp_nr peer i (handle w1)))); [done..|]. destruct (Hg (stamp_nr peer i (handle w1))).
    apply (chosen_queues _ _ (stamp_nr peer i (handle w1))); [done..|]. unfold stamp_nr. by apply chosen_upd. }
  unfold tiny_fd_get_next_i_frame. destruct (_ || _); [done|]. destruct (negb _).
  - destruct (first_requested _ 8 0) as [n|]; [|done]. destruct (tiny_fd_queue_get_next _ _ _ _) as [i|] eqn:E; [|done].
    intros [= <- <-]. apply (Hmark i (fun h => h)); [|done]. by eapply chosen_queues, Hget.
  - destruct (tiny_fd_queue_get_next _ _ _ _) as [i|] eqn:E; [|done]. intros [= <- <-].
    apply (Hmark i); [|done]. by eapply Hget.
Qed.

Lemma next_frame_chosen peer (w : fd_world app) r w' :
  fd_wf c false (handle w) -> tiny_fd_get_next_frame_to_send millis app_callbacks peer w = (Some r, w') ->
  busy (handle w') (ref_slot (handle w') r) /\
  same_address (__peer_to_address_field (handle w) peer) (fi_address (ref_slot (handle w') r)) = true.
Proof using Type.
  intros Hw H. apply chosen_slot. revert H. unfold tiny_fd_get_next_frame_to_send. cbv zeta.
  set (w0 := on_handle tiny_mutex_lock w).
  assert (Hw0 : fd_wf c true (handle w0)) by (by apply fd_wf_lock).
  assert (__peer_to_address_field (handle w0) peer = __peer_to_address_field (handle w) peer) as Ea.
  { unfold __peer_to_address_field, peer_at. f_equal. f_equal. f_equal.
    change (handle w0) with (tiny_mutex_lock (handle w)). unfold tiny_mutex_lock. by destruct (fd_mutex _). }
  rewrite <- Ea. pose proof (fits_peer_address c true peer _ Hw0) as Hfits.
  pose proof (ext_own_address c true peer _ Hw0) as Hext.
  set (address := __peer_to_address_field (handle w0) peer) in *. clearbody w0. clear Ea.
  pose proof (get_next_s_u_wf c true (handle w0) peer address Hw0) as Hw1.
  destruct (tiny_fd_get_next_s_u_frame_to_send (handle w0) peer address) as [d1 h1] eqn:E1. cbn [snd] in Hw1.
  set (w1 := w0 <| handle := h1 |>). change h1 with (handle w1) in Hw1.
  set (p2 := match d1 with Some r => (Some r, w1) | None => _ end).
  assert (H2 : fd_wf c true (handle (snd p2)) /\ forall r, fst p2 = Some r -> chosen address r (handle (snd p2))).
  { unfold p2. destruct d1 as [r1|]; [split; [done|]; intros ? [= <-]; eapply next_s_u_chosen; [exact Hw0|exact E1]|].
    split; [by apply get_next_i_frame_wf|]. destruct (tiny_fd_get_next_i_frame _ _ _ w1) as [d w2] eqn:E. cbn [fst snd].
    intros r2 ->. eapply next_i_chosen; [exact Hw1|exact E]. }
  destruct p2 as [d2 w2]. cbn [fst snd] in H2. destruct H2 as [Hw2 H2].
  set (p3 := match d2 with Some r => (Some r, w2) | None => _ end).
  assert (H3 : forall r, fst p3 = Some r -> chosen address r (handle (snd p3))).
  { unfold p3. destruct d2 as [r2|]; [exact H2|]. destruct (_ =? _); [|done].
    destruct (tiny_fd_get_next_s_u_frame_to_send (put_marker_frame peer address (handle w2)) peer address)
      as [d h] eqn:E. cbn [fst snd]. intros r3 ->. eapply next_s_u_chosen; [|exact E]. by apply put_marker_frame_wf. }
  destruct p3 as [d3 w3]. cbn [fst snd] in H3. destruct d3 as [r3|]; [|done]. cbn [tiny_millis].
  intros [= <- <-]. specialize (H3 _ eq_refl).
  set (w4 := if needs_pf _ _ _ then _ else w3).
  assert (H4 : chosen address r3 (handle w4)).
  { unfold w4. destruct (needs_pf _ _ _); [by apply (chosen_upd _ _ r3)|done]. }
  clearbody w4. unfold __tiny_fd_log_frame, frame_bytes. cbn [log_frame_cb app_callbacks].
  apply (chosen_queues _ _ (handle w4)); [| |exact H4];
    match goal with |- ?q (handle (on_handle tiny_mutex_unlock ?x)) = _ =>
      change (q (tiny_mutex_unlock (handle x)) = q (handle x)); generalize (handle x) end;
    intros h; unfold tiny_mutex_unlock; by destruct (fd_mutex h).
Qed.

End Chosen.

(** ** The memory of the frame *)

Lemma busy_slot c b h f :
  fd_wf c b h -> busy h f ->
  exists r types bit0 mtu, ref_lookup h r = Some f /\ slot_ok types mtu f /\ Z.testbit (fi_address f) 0 = true /\
    Z.testbit (fi_control f) 0 = bit0.
Proof.
  intros Hw [Hf Hb]. unfold all_frames in Hf.
  apply elem_of_app in Hf as [Hf|Hf]; apply list_elem_of_lookup in Hf as (j & Hj).
  - destruct (queue_wf_slot _ _ _ _ _ _ _ (wf_i _ _ _ Hw) Hj) as [Hok H0]. destruct (H0 Hb).
    by eexists (InIQueue j), _, _, _.
  - destruct (queue_wf_slot _ _ _ _ _ _ _ (wf_s _ _ _ Hw) Hj) as [Hok H0]. destruct (H0 Hb).
    by eexists (InSQueue j), _, _, _.
Qed.

Lemma busy_header c b h f :
  fd_wf c b h -> apart c -> busy h f ->
  [fd_mem h (fi_addr f); fd_mem h (fi_addr f + 1)] = [fi_address f; fi_control f] /\ bytes (frame_bytes f).
Proof.
  intros Hw Hap Hf. destruct (busy_slot _ _ _ _ Hw Hf) as (r & types & bit0 & mtu & Hr & [] & _). split.
  - rewrite !(mem_slot c Hap b h r f) by (done || lia). unfold slot_byte. rewrite !Z.eqb_refl.
    by rewrite (proj2 (Z.eqb_neq _ _)) by lia.
  - unfold frame_bytes. apply bytes_cons. split; [done|]. apply bytes_cons. split; [done|]. by apply bytes_take.
Qed.

(** ** The end of a transmission *)

(** The frame has the P/F bit. *)
Definition final (frame : list Z) : bool := nz (Z.land (frame_control frame) HDLC_P_BIT).

Lemma marker_switch_loop fuel start h h' : switch_loop fuel start h = Some h' -> marker h' = marker h.
Proof.
  revert h. induction fuel as [|fuel IH]; intros h; [done|]. cbn [switch_loop].
  set (h1 := h <| fd_next_peer := _ |>). destruct (negb _); [by intros [= <-]|].
  destruct (negb _); [|by intros [= <-]]. intros E. by apply IH in E.
Qed.

Lemma marker_switch h : marker (snd (__switch_to_next_peer h)) = marker h.
Proof.
  unfold __switch_to_next_peer. destruct (switch_loop _ _ _) as [h'|] eqn:E; [|done].
  by eapply marker_switch_loop.
Qed.

Lemma end_marker c header data (w : fd_world app) :
  fd_wf c false (handle w) -> c_mode c = TINY_FD_MODE_NRM ->
  __address_field_to_peer (handle w) (frame_address data) <> HDLC_INVALID_PEER_INDEX ->
  marker (handle (on_frame_send header data w)) =
    (has_marker (handle w) && negb (final data), pi_addr <$> fd_peers (handle w), timer (handle w)).
Proof.
  intros Hw Hm Hp. pose proof (wf_mode _ _ _ Hw) as Hmode. rewrite Hm in Hmode. unfold on_frame_send, final.
  rewrite (proj2 (Z.eqb_neq _ _)) by done.
  set (w1 := if Z.land _ HDLC_I_FRAME_MASK =? _ then _ else _).
  assert (H1 : marker (handle w1) = marker (handle w) /\ fd_mode (handle w1) = TINY_FD_MODE_NRM).
  { assert (Hl : marker (handle (on_handle tiny_mutex_lock w)) = marker (handle w)) by (by rewrite obs_on by apply _).
    assert (fd_mode (handle (on_handle tiny_mutex_lock w)) = TINY_FD_MODE_NRM) by (by rewrite (obs_on fd_mode) by apply _).
    unfold w1. repeat case_match; done. }
  clearbody w1. destruct H1 as [H1 H1m]. rewrite H1m. change (TINY_FD_MODE_NRM =? TINY_FD_MODE_NRM) with true. cbv iota.
  change HDLC_F_BIT with HDLC_P_BIT.
  set (pf := nz (Z.land (frame_control data) HDLC_P_BIT)).
  assert (Hclr : forall (w2 : fd_world app) b, marker (handle w2) = marker (handle w) ->
    marker (handle (on_handle tiny_mutex_unlock (on_handle (fd_events_clear
      (if b : bool then Z.lor FD_EVENT_TX_SENDING FD_EVENT_HAS_MARKER else FD_EVENT_TX_SENDING)) w2))) =
    (has_marker (handle w) && negb b, pi_addr <$> fd_peers (handle w), timer (handle w))).
  { intros w2 b E2. rewrite obs_on by apply _. destruct b.
    - rewrite andb_false_r. change (handle (on_handle ?f ?x)) with (f (handle x)). unfold marker in *.
      f_equal; [f_equal; [|exact (f_equal (fun m => m.1.2) E2)]|exact (f_equal snd E2)]. unfold has_marker, events_clear. change (fd_events (fd_events_clear ?b ?h)) with (events_clear b (fd_events h)).
      unfold events_clear. rewrite <- Z.land_assoc. change (Z.land _ FD_EVENT_HAS_MARKER) with 0. by rewrite Z.land_0_r.
    - rewrite andb_true_r. change (handle (on_handle ?f ?x)) with (f (handle x)). by rewrite marker_events_clear. }
  destruct (__is_primary_station (handle w1)), pf; cbn [andb negb].
  - apply (Hclr _ true). change (handle (on_handle ?f ?x)) with (f (handle x)). cbv beta. by rewrite marker_switch.
  - by apply (Hclr _ false).
  - by apply (Hclr _ true).
  - by apply (Hclr _ false).
Qed.

(** ** Addresses *)

Lemma peer_address h peer : pi_addr (peer_at h peer) = nth (Z.to_nat peer) (pi_addr <$> fd_peers h) HDLC_INVALID_PEER_INDEX.
Proof. unfold peer_at. rewrite !nth_lookup, list_lookup_fmap. by destruct (fd_peers h !! _). Qed.

Lemma find_peer_same h h' address n peer :
  pi_addr <$> fd_peers h' = pi_addr <$> fd_peers h -> find_peer h' address n peer = find_peer h address n peer.
Proof.
  intros E. revert peer. induction n as [|n IH]; intros peer; [done|]. cbn [find_peer].
  by rewrite !peer_address, E, IH.
Qed.

(** Who hears a frame depends on the addresses alone. *)
Lemma address_field_same c b b' h h' address :
  fd_wf c b h -> fd_wf c b' h' -> pi_addr <$> fd_peers h' = pi_addr <$> fd_peers h ->
  __address_field_to_peer h' address = __address_field_to_peer h address.
Proof.
  intros Hw Hw' E. unfold __address_field_to_peer, __is_secondary_station, __is_primary_station.
  rewrite (wf_addr _ _ _ Hw), (wf_addr _ _ _ Hw'), (wf_mode _ _ _ Hw), (wf_mode _ _ _ Hw').
  by rewrite (wf_count _ _ _ Hw), (wf_count _ _ _ Hw'), (find_peer_same h).
Qed.

Lemma accepts_same c b b' h h' frame :
  fd_wf c b h -> fd_wf c b' h' -> pi_addr <$> fd_peers h' = pi_addr <$> fd_peers h ->
  accepts h' frame = accepts h frame.
Proof. intros Hw Hw' E. unfold accepts. by rewrite (address_field_same _ _ _ _ _ _ Hw Hw' E). Qed.

(** A station of the line with the addresses [addrs] of its peers: a secondary has its own, a
    primary those it has registered. *)
Record line_station (c : fd_config) (addrs : list Z) : Prop := mk_line_station {
  ls_mode : c_mode c = TINY_FD_MODE_NRM;
  ls_peers : 1 <= c_peers c <= 255;
  ls_apart : apart c;
  ls_own : clear_bits HDLC_CR_BIT (c_addr c) = c_addr c;
  ls_addrs : forall a, a ∈ addrs -> a <> HDLC_INVALID_PEER_INDEX ->
    if __is_primary_address (c_addr c) then clear_bits HDLC_CR_BIT a = a else a = c_addr c
}.

(** Two address fields with bit 0 set that agree in the station number. *)
Lemma same_station x y :
  fits 8 x -> fits 8 y -> Z.testbit x 0 = true -> Z.testbit y 0 = true -> same_address x y = true ->
  clear_bits HDLC_CR_BIT y = clear_bits HDLC_CR_BIT x.
Proof.
  unfold same_address, clear_bits. intros Hx Hy Hx0 Hy0 H%Z.eqb_eq.
  assert (Hs : forall z, Z.testbit z 0 = true -> Z.land z (Z.lxor HDLC_CR_BIT 0xFF) = Z.lor (Z.land z 0xFC) 1).
  { intros z Hz. change (Z.lxor HDLC_CR_BIT 0xFF) with (Z.lor 0xFC 1). rewrite Z.land_lor_distr_r. f_equal.
    change 1 with (Z.ones 1). rewrite Z.land_ones by done. change (2 ^ 1) with 2. rewrite <- Z.bit0_mod, Hz. done. }
  by rewrite !Hs, H.
Qed.

Lemma own_frame c addrs b h peer f :
  line_station c addrs -> fd_wf c b h -> pi_addr <$> fd_peers h = addrs ->
  pi_addr (peer_at h peer) <> HDLC_INVALID_PEER_INDEX -> busy h f ->
  same_address (__peer_to_address_field h peer) (fi_address f) = true ->
  clear_bits HDLC_CR_BIT (fi_address f) = pi_addr (peer_at h peer) /\ pi_addr (peer_at h peer) ∈ addrs /\
  __address_field_to_peer h (fi_address f) <> HDLC_INVALID_PEER_INDEX.
Proof.
  intros [Hm Hn _ Hown Haddrs] Hw <- Hp [Hf Hb] Ha. set (a := pi_addr (peer_at h peer)) in *.
  assert (exists i, (pi_addr <$> fd_peers h) !! i = Some a /\ peer_at h (Z.of_nat i) = peer_at h peer) as (i & Hi & Hip).
  { exists (Z.to_nat peer). revert Hp. unfold a. rewrite peer_address, nth_lookup.
    unfold peer_at. rewrite Nat2Z.id. by destruct ((pi_addr <$> fd_peers h) !! Z.to_nat peer). }
  pose proof (list_elem_of_lookup_2 _ _ _ Hi) as Hin. specialize (Haddrs a Hin Hp).
  assert (Hca : clear_bits HDLC_CR_BIT a = a).
  { destruct (__is_primary_address (c_addr c)); [done|by rewrite Haddrs]. }
  destruct (busy_slot _ _ _ _ Hw (conj Hf Hb)) as (_ & types & bit0 & mtu & _ & Hs & Hf0' & _).
  assert (Hpa : clear_bits HDLC_CR_BIT (fi_address f) = a).
  { rewrite (same_station (__peer_to_address_field h peer)); [|by eapply fits_peer_address|by apply Hs
      |by eapply ext_own_address|done|done].
    unfold __peer_to_address_field. fold a. by rewrite !Hca. }
  split; [done|]. split; [done|]. unfold __address_field_to_peer. rewrite Hpa.
  assert (nz (Z.land a HDLC_E_BIT) = true) as ->.
  { change HDLC_E_BIT with (Z.ones 1). rewrite Z.land_ones by done. change (2 ^ 1) with 2. rewrite <- Z.bit0_mod.
    unfold a. by rewrite (po_ext _ (peer_at_ok _ _ peer _ Hw)). }
  cbn [negb]. rewrite (wf_mode _ _ _ Hw), Hm. change (TINY_FD_MODE_NRM =? TINY_FD_MODE_ABM) with false.
  rewrite orb_false_r. unfold __is_secondary_station, __is_primary_station. rewrite (wf_addr _ _ _ Hw).
  destruct (__is_primary_address (c_addr c)); cbn [negb].
  - destruct (find_peer_spec h a (Z.to_nat (fd_peers_count h)) 0) as [[_ Hno]|(Hr & _)]; [lia| |].
    + apply lookup_lt_Some in Hi. rewrite length_fmap in Hi. pose proof (wf_length _ _ _ Hw). pose proof (wf_count _ _ _ Hw).
      destruct (Hno (Z.of_nat i)); [lia|]. by rewrite Hip.
    + rewrite (wf_count _ _ _ Hw) in Hr. unfold HDLC_INVALID_PEER_INDEX.
      assert (find_peer h a (Z.to_nat (fd_peers_count h)) 0 < 255) by (rewrite (wf_count _ _ _ Hw); lia). lia.
  - rewrite Haddrs, Z.eqb_refl. done.
Qed.

(** A secondary hears the frames with its own address only. *)
Lemma accepts_own c addrs b h frame :
  line_station c addrs -> fd_wf c b h -> __is_primary_address (c_addr c) = false -> accepts h frame = true ->
  clear_bits HDLC_CR_BIT (frame_address frame) = c_addr c.
Proof.
  intros [Hm _ _ _ _] Hw Hsec. unfold accepts, __address_field_to_peer, __is_secondary_station, __is_primary_station.
  rewrite (wf_addr _ _ _ Hw), Hsec. cbn [negb orb]. intros [_ H]%andb_true_iff. revert H.
  destruct (negb (nz _)); [done|]. by destruct (Z.eqb_spec (clear_bits HDLC_CR_BIT (frame_address frame)) (c_addr c)).
Qed.

(** ** Looking for something to send *)

Section Poll.

Context (millis : nat -> Z) (others : Z -> fd_world app -> fd_world app) (c : fd_config).

(** What [tiny_fd_get_tx_data] does between two frames: the marker is not lost; it comes back only to a
    primary whose timer has run out; a frame is handed to the framing layer only with the marker, out of the
    slot of a registered peer, and starts the timer. *)
Lemma poll_outcome peer l hdlc (w : fd_world app) r l' hdlc' w' :
  fd_wf c false (handle w) -> c_mode c = TINY_FD_MODE_NRM -> apart c -> tx_idle hdlc ->
  get_tx_data_idle millis others app_callbacks peer 0 l (hdlc, w) = (r, l', (hdlc', w')) ->
  fd_wf c false (handle w') /\ pi_addr <$> fd_peers (handle w') = pi_addr <$> fd_peers (handle w) /\
  (has_marker (handle w) = true -> has_marker (handle w') = true) /\
  (has_marker (handle w) = false -> has_marker (handle w') = true ->
     __is_primary_address (c_addr c) = true /\
     exists k, fd_retry_timeout (handle w) <= u32 (u32 (millis k) - fd_last_marker_ts (handle w))) /\
  match r with
  | Continue => exists k, fd_last_marker_ts (handle w') = u32 (millis k)
  | _ => fd_last_marker_ts (handle w') = fd_last_marker_ts (handle w)
  end /\
  (r = Continue -> has_marker (handle w) = true /\
     pi_addr (peer_at (handle w) peer) <> HDLC_INVALID_PEER_INDEX /\
     exists f, busy (handle w') f /\
       same_address (__peer_to_address_field (handle w) peer) (fi_address f) = true /\
       tx_origin_data hdlc' = fi_addr f /\
       mem_range (fd_mem (handle w')) (fi_addr f) (Z.to_nat (tx_len hdlc')) = frame_bytes f).
Proof using Type.
  intros Hw Hm Hap Hidle. unfold get_tx_data_idle.
  destruct (Z.eqb_spec (pi_addr (peer_at (handle w) peer)) HDLC_INVALID_PEER_INDEX) as [|Hreg].
  { intros [= <- <- <- <-]. split_and!; try done. congruence. }
  pose proof (check_idle_timeout_wf millis app_callbacks c peer w Hw) as Hw0.
  pose proof (silent_timer millis peer w) as Hs0. set (w0 := check_idle_timeout millis app_callbacks peer w) in *.
  assert (Ha0 : forall p, __peer_to_address_field (handle w0) p = __peer_to_address_field (handle w) p).
  { intros p. unfold __peer_to_address_field. rewrite !peer_address. injection Hs0 as _ E. by rewrite E. }
  assert (Hprim : __is_primary_station (handle w0) = __is_primary_address (c_addr c)).
  { unfold __is_primary_station. by rewrite (wf_addr _ _ _ Hw0). }
  clearbody w0. injection Hs0 as Hm0 Hpa0 Hts0 Hrt0.
  destruct (l_wait_point_passed l). { intros [= <- <- <- <-]. split_and!; try done; congruence. }
  cbv zeta. unfold fd_events_wait. rewrite !wait_now. unfold tiny_events_poll at 1.
  change (nz EVENT_BITS_LEAVE) with false. cbv iota. fold (has_marker (handle w0)).
  destruct (has_marker (handle w0)) eqn:Hmk; cycle 1.
  { change (nz 0) with false. cbv iota. destruct (__is_primary_station (handle w0)).
    - unfold __time_passed_since_last_marker_seen. cbn [time_since tiny_millis]. destruct (_ <=? _) eqn:Hle; intros [= <- <- <- <-].
      + split_and!; [by apply fd_wf_events_set|done|by intros _; apply nz_events_set_same| |done|done].
        intros _ _. split; [done|]. rewrite <- Hrt0, <- Hts0. exists (clock w0). by apply Z.leb_le.
      + split_and!; try done; cbn in *; congruence.
    - intros [= <- <- <- <-]. split_and!; try done; congruence. }
  unfold has_marker in Hmk. rewrite (nz_land _ _ Hmk). fold (has_marker (handle w0)) in Hmk.
  symmetry in Hm0. rewrite wait_now. destruct (tiny_events_poll _ _ _ _ w0) as [available w1] eqn:E1.
  assert (H1 : fd_wf c false (handle w1) /\ marker (handle w1) = marker (handle w0)).
  { revert E1. unfold tiny_events_poll. destruct (nz _); intros [= <- <-]; [|done].
    change (nz EVENT_BITS_CLEAR) with true. cbv iota. split; [by apply fd_wf_events|].
    by apply (marker_events_clear FD_EVENT_TX_DATA_AVAILABLE). }
  destruct H1 as [Hw1 H1]. injection H1 as H1 Hpa1 Hts1 Hrt1. rewrite Hmk in H1. rewrite Hpa0 in Hpa1.
  rewrite (wf_mode _ _ _ Hw1), Hm. change (TINY_FD_MODE_NRM =? TINY_FD_MODE_NRM) with true. rewrite orb_true_r.
  pose proof (get_next_frame_to_send_wf millis app_callbacks c peer w1 Hw1) as Hw2.
  pose proof (next_frame_marker millis peer w1) as Hs2.
  destruct (tiny_fd_get_next_frame_to_send millis app_callbacks peer w1) as [[ref|] w2] eqn:E2; cbn [snd] in Hw2; cycle 1.
  { injection Hs2 as Hm2 Hpa2 Hts2 _.
    assert (Hend : fd_wf c false (handle w2) /\ pi_addr <$> fd_peers (handle w2) = pi_addr <$> fd_peers (handle w) /\
      (has_marker (handle w) = true -> has_marker (handle w2) = true)) by (split_and!; [done|congruence|congruence]).
    destruct (_ || _); intros [= <- <- <- <-]; (split_and!; [apply Hend..|congruence|congruence|done]). }
  destruct Hs2 as (k & Hs2). injection Hs2 as Hm2 Hpa2 Hts2 _.
  set (w3 := on_handle (fd_events_set FD_EVENT_TX_SENDING) _).
  assert (Hw3 : fd_wf c false (handle w3)) by (by do 2 apply fd_wf_events_set).
  assert (H3 : marker (handle w3) = marker (handle w2)).
  { transitivity (marker (fd_events_set FD_EVENT_TX_SENDING (fd_events_set FD_EVENT_TX_DATA_AVAILABLE (handle w2)))); [done|].
    by rewrite !marker_events_set by done. }
  apply (next_frame_chosen _ c) in E2; [|done].
  change (ref_slot (handle w3) ref) with (ref_slot (handle w2) ref). change (ref_len (handle w3) ref) with (ref_len (handle w2) ref).
  change (busy (handle w2)) with (busy (handle w3)) in E2. unfold ref_len.
  set (f := ref_slot (handle w2) ref) in *. clearbody w3 f. destruct E2 as [Hf Ha].
  injection H3 as H3 Hpa3 Hts3 _. destruct Hf as [Hin Hb].
  destruct (busy_slot _ _ _ _ Hw3 (conj Hin Hb)) as (rf & types & bit0 & mtu & Hrf & Hsok & _).
  assert (Hnull : 0 < fi_addr f).
  { pose proof (frame_span c _ _ _ _ Hw3 (ref_all_frames _ _ _ Hrf)) as Hsp. pose proof (ap_null _ Hap) as Hn.
    rewrite Forall_lookup in Hn. apply (Hn _ _ Hsp). }
  assert (Hlen : 0 <= fi_len f <= Z.of_nat (length (fi_payload f))) by (destruct Hsok; lia).
  unfold put_frame. rewrite (proj2 Hidle). change (nz 0) with false. cbv iota.
  rewrite !(proj2 (Z.eqb_neq _ 0)) by lia. cbn [orb].
  intros [= <- <- <- <-]. split_and!; [done|congruence|congruence|congruence|exists k; congruence|]. intros _.
  split; [done|]. split; [done|]. exists f.
  split; [done|]. split.
  { rewrite <- Ha, <- Ha0. unfold __peer_to_address_field. rewrite !peer_address. by rewrite Hpa1, Hpa0. }
  split; [done|]. by apply (mem_frame c Hap false _ rf).
Qed.

End Poll.
