(* ===== verification/FdLine.v ===== *)
(** * One talker on a line in normal response mode

    Several stations on a line that all can hear, one of them primary, in normal response mode.
    Each holds a frame it transmits at most, and the frames it has still to read.  The steps are
    the functions of the protocol: the application queues something, the station looks for
    something to send, a transmission ends and the frame reaches any of the others (or is lost),
    a station reads a frame; between them time passes.  A primary that has given the marker away
    takes it back when its timer has run out ([FdMarkerTx.poll_outcome]), whatever happens on the line.  In
    runs where the turn of a secondary is over by then, the right to send - the marker, or a frame with
    the P/F bit that brings it - is never in two places. *)

From stdpp Require Import relations.
From S2P Require Import Prelude Crc HdlcLL HdlcSpec HdlcTx HdlcRx FdTypes FdQueue FdPeers FdIQueue FdLog.
From S2P Require Import FdService FdTx FdRx Fd FdApi FdInv FdSafe FdStation FdInit FdFifo FdSlots.
From S2P Require Import FdRun FdFlow FdConn FdMoves FdXmit FdE2E FdDelivery FdProgress FdWire FdMarker FdMarkerTx.

(** ** The line *)

(** A station, the header address and the bytes of the frame it transmits, the frames that
    have arrived and are not read yet, and when it last took a frame to transmit. *)
Record node : Type := mk_node {
  nd_world : fd_world app;
  nd_tx : option (Z * list Z);
  nd_inbox : list (list Z);
  nd_taken : option Z
}.

#[export] Instance eta_node : Eta node := fun n => mk_node (nd_world n) (nd_tx n) (nd_inbox n) (nd_taken n).

(** The time in milliseconds and the stations. *)
Record line : Type := mk_line { ln_now : Z; ln_nodes : list node }.

(** The station ignores the frame. *)
Definition deaf (n : node) (frame : list Z) : Prop := accepts (handle (nd_world n)) frame = false.

(** The station has the marker, or a frame that brings it has arrived. *)
Definition claims (n : node) : Prop :=
  has_marker (handle (nd_world n)) = true \/
  exists frame, frame ∈ nd_inbox n /\ accepts (handle (nd_world n)) frame = true /\ final frame = true.

(** No station claims the marker, and no frame for station [i] is on its way. *)
Definition line_quiet (nodes : list node) (i : nat) : Prop :=
  (forall j n, nodes !! j = Some n -> ~ claims n) /\
  (forall n, nodes !! i = Some n -> Forall (deaf n) (nd_inbox n)).

(** The turn that station [n] has given away goes on: somebody claims the marker, or a frame that
    has arrived for [n] is not read yet. *)
Definition turn_lasts (nodes : list node) (n : node) : Prop :=
  (exists m, m ∈ nodes /\ claims m) \/ (exists frame, frame ∈ nd_inbox n /\ accepts (handle (nd_world n)) frame = true).

(** Nobody is late: while the turn a primary has given away goes on, less than its retry timeout has
    passed since it last took a frame to transmit. *)
Definition prompt (l : line) : Prop :=
  forall n t, n ∈ ln_nodes l -> __is_primary_station (handle (nd_world n)) = true ->
    has_marker (handle (nd_world n)) = false -> nd_taken n = Some t ->
    turn_lasts (ln_nodes l) n -> ln_now l < t + fd_retry_timeout (handle (nd_world n)).

Section Line.

(** The clock of each station differs from the time by a constant. *)
Context (offset : nat -> Z) (others : nat -> Z -> fd_world app -> fd_world app).

(** What the clock of station [i] reads at the time [now]. *)
Definition reading (now : Z) (i : nat) : nat -> Z := fun _ => now + offset i.

(** The functions of the application on station [i], without waiting. *)
Inductive app_call (millis : nat -> Z) (i : nat) : fd_world app -> fd_world app -> Prop :=
| CallSend address data w : bytes data ->
    app_call millis i w (snd (tiny_fd_send_packet_to millis (others i) address data 0 w))
| CallSendUi address data len w : bytes (default [] data) ->
    app_call millis i w (snd (tiny_fd_send_ui_packet_to address data len w))
| CallDisconnect w w' r : tiny_fd_disconnect (Some w) = (r, Some w') -> app_call millis i w w'.

(** What a transmission that ends makes of station [j]. *)
Definition after_end (i : nat) (w : fd_world app) (heard : nat -> bool) (frame : list Z) (j : nat) (n : node) : node :=
  if decide (j = i) then n <| nd_world := w |> <| nd_tx := None |>
  else if heard j then n <| nd_inbox ::= fun l => l ++ [frame] |> else n.

(** The functions take no time of their own: it passes between them. *)
Inductive line_step : line -> line -> Prop :=
| LineTick now nodes d : 0 <= d -> line_step (mk_line now nodes) (mk_line (now + d) nodes)
| LineCall now nodes i n w : nodes !! i = Some n -> app_call (reading now i) i (nd_world n) w ->
    line_step (mk_line now nodes) (mk_line now (<[i := n <| nd_world := w |>]> nodes))
| LinePoll now nodes i n peer l hdlc r l' hdlc' w : nodes !! i = Some n -> nd_tx n = None -> tx_idle hdlc ->
    get_tx_data_idle (reading now i) (others i) app_callbacks peer 0 l (hdlc, nd_world n) = (r, l', (hdlc', w)) ->
    let header := tx_origin_data hdlc' in
    let frame := mem_range (fd_mem (handle w)) header (Z.to_nat (tx_len hdlc')) in
    line_step (mk_line now nodes)
      (mk_line now (<[i := n <| nd_world := w |>
                             <| nd_tx := match r with Continue => Some (header, frame) | _ => None end |>
                             <| nd_taken := match r with Continue => Some now | _ => nd_taken n end |>]> nodes))
| LineEnd now nodes i n header frame heard : nodes !! i = Some n -> nd_tx n = Some (header, frame) ->
    let mem := fd_mem (handle (nd_world n)) in
    let w := on_frame_send header [mem header; mem (header + 1)] (nd_world n) in
    line_step (mk_line now nodes) (mk_line now (imap (after_end i w heard frame) nodes))
| LineRead now nodes i n frame rest : nodes !! i = Some n -> nd_inbox n = frame :: rest ->
    line_step (mk_line now nodes)
      (mk_line now (<[i := n <| nd_world := on_frame_read (reading now i) app_callbacks frame (nd_world n) |>
                             <| nd_inbox := rest |>]> nodes)).

(** A step of a line where nobody is late. *)
Definition prompt_step (l l' : line) : Prop := prompt l /\ line_step l l'.

(** ** Invariant *)

(** A station with the configuration [c] and the addresses [addrs] of its peers. *)
Record node_ok (c : fd_config) (addrs : list Z) (n : node) : Prop := mk_node_ok {
  no_wf : fd_wf c false (handle (nd_world n));
  no_addrs : pi_addr <$> fd_peers (handle (nd_world n)) = addrs;
  no_bytes : Forall bytes (nd_inbox n);
  no_holder : has_marker (handle (nd_world n)) = true -> Forall (deaf n) (nd_inbox n);
  no_last : forall l1 frame l2, nd_inbox n = l1 ++ frame :: l2 ->
    accepts (handle (nd_world n)) frame = true -> final frame = true -> Forall (deaf n) l2;
  no_tx : forall header frame, nd_tx n = Some (header, frame) ->
    has_marker (handle (nd_world n)) = true /\
    exists f, busy (handle (nd_world n)) f /\ fi_addr f = header /\ frame = frame_bytes f /\
      clear_bits HDLC_CR_BIT (fi_address f) ∈ addrs /\
      clear_bits HDLC_CR_BIT (fi_address f) <> HDLC_INVALID_PEER_INDEX /\
      __address_field_to_peer (handle (nd_world n)) (fi_address f) <> HDLC_INVALID_PEER_INDEX
}.

(** Stations with different addresses. *)
Record line_config (cs : list (fd_config * list Z)) : Prop := mk_line_config {
  lc_station : forall i c addrs, cs !! i = Some (c, addrs) -> line_station c addrs;
  lc_primary : forall i j c d a b, cs !! i = Some (c, a) -> cs !! j = Some (d, b) ->
    __is_primary_address (c_addr c) = true -> __is_primary_address (c_addr d) = true -> i = j;
  lc_distinct : forall i j c d a b, cs !! i = Some (c, a) -> cs !! j = Some (d, b) -> c_addr c = c_addr d -> i = j
}.

Record line_ok (cs : list (fd_config * list Z)) (nodes : list node) : Prop := mk_line_ok {
  lo_nodes : forall i n, nodes !! i = Some n -> exists c addrs, cs !! i = Some (c, addrs) /\ node_ok c addrs n;
  lo_sole : forall i j n m, nodes !! i = Some n -> nodes !! j = Some m -> claims n -> claims m -> i = j
}.

Lemma deaf_same c n n' l :
  fd_wf c false (handle (nd_world n)) -> fd_wf c false (handle (nd_world n')) ->
  pi_addr <$> fd_peers (handle (nd_world n')) = pi_addr <$> fd_peers (handle (nd_world n)) ->
  Forall (deaf n) l -> Forall (deaf n') l.
Proof using Type.
  intros Hw Hw' E Hl. eapply Forall_impl; [exact Hl|]. intros f Hf. unfold deaf.
  by rewrite (accepts_same _ _ _ _ _ _ Hw Hw' E).
Qed.

(** A station whose marker, addresses and frame on the wire are as before. *)
Lemma node_ok_world c addrs n w :
  node_ok c addrs n -> fd_wf c false (handle w) -> spares (handle (nd_world n)) (handle w) ->
  let n' := n <| nd_world := w |> in node_ok c addrs n' /\ (claims n' <-> claims n).
Proof using Type.
  intros [] Hw [Hs Hb] n'. injection Hs as Hmk Hpa _ _.
  assert (Ha : forall frame, accepts (handle w) frame = accepts (handle (nd_world n)) frame).
  { intros frame. by apply (accepts_same c false false). }
  assert (Hd : forall l, Forall (deaf n) l -> Forall (deaf n') l).
  { intros l. by apply (deaf_same c). }
  split.
  - split; cbn; try done; try congruence.
    + rewrite Hmk. auto.
    + intros l1 frame l2 E. rewrite Ha. intros H1 H2. by eapply Hd, no_last0.
    + intros header frame E. destruct (no_tx0 header frame E) as (H1 & f & Hf & H2 & H3 & H4 & H5 & H6).
      split; [by rewrite Hmk|]. exists f. split_and!; auto.
      by rewrite (address_field_same c false false (handle (nd_world n))).
  - unfold claims. cbn. rewrite Hmk. by setoid_rewrite Ha.
Qed.

Section Steps.

Context (cs : list (fd_config * list Z)) (Hcs : line_config cs).

(** One station changes, and claims the marker only if it did before or nobody does. *)
Lemma line_ok_update nodes i n n' c addrs :
  line_ok cs nodes -> nodes !! i = Some n -> cs !! i = Some (c, addrs) -> node_ok c addrs n' ->
  (claims n' -> claims n \/ forall j m, nodes !! j = Some m -> ~ claims m) ->
  line_ok cs (<[i := n']> nodes).
Proof using Type.
  intros [Hn Hs] Hi Hc Hn' Hcl. pose proof (lookup_lt_Some _ _ _ Hi) as Hlt. split.
  - intros j m Hj. apply list_lookup_insert_Some in Hj as [(<- & <- & _)|[_ Hj]]; [by exists c, addrs|by apply Hn].
  - assert (Hone : forall j m, nodes !! j = Some m -> claims n' -> claims m -> i = j).
    { intros j m Hj H1 H2. destruct (Hcl H1) as [H|H]; [by apply (Hs i j n m)|by destruct (H j m Hj)]. }
    intros j k m m' Hj Hk. apply list_lookup_insert_Some in Hj as [(<- & <- & _)|[_ Hj]],
      Hk as [(<- & <- & _)|[_ Hk]]; intros H1 H2; [done|by apply (Hone k m')|symmetry; by apply (Hone j m)|by apply (Hs j k m m')].
Qed.

Lemma call_ok millis i c w w' : fd_wf c false (handle w) -> app_call millis i w w' -> fd_wf c false (handle w') /\ spares (handle w) (handle w').
Proof using Type.
  intros Hw Hcall. destruct Hcall as [address data w Hd|address data len w Hd|w w' r E].
  - split; [|by apply (spares_packet _ _ c)]. revert Hw Hd. clear. intros Hw Hd.
    pose proof (send_packet_to_wf millis idle_others c address data 0 w Hw Hd) as H.
    assert (E : tiny_fd_send_packet_to millis (others i) address data 0 w =
                tiny_fd_send_packet_to millis idle_others address data 0 w); [|by rewrite E].
    unfold tiny_fd_send_packet_to. cbv zeta. destruct (_ =? _); [done|]. cbn [tiny_millis]. destruct (_ <? _); [done|].
    unfold peer_events_wait, fd_events_wait. rewrite !wait_now. destruct (tiny_events_poll _ _ _ _ _) as [can w1].
    destruct (nz can); [|done]. unfold time_since. cbn [tiny_millis].
    match goal with |- context [if (u32 ?x <? 0) then ?y else 0] =>
      assert (Hnow : (if (u32 x <? 0) then y else 0) = 0) by
        (pose proof (fits_u32 x) as Hx; unfold fits in Hx; by rewrite (proj2 (Z.ltb_ge _ _)) by lia)
    end.
    by rewrite Hnow, !wait_now.
  - split; [by apply send_ui_packet_to_wf|by apply (spares_ui c)].
  - split; [|by eapply spares_disconnect]. pose proof (disconnect_wf c w Hw) as H. rewrite E in H. by inversion H.
Qed.

Lemma step_call millis nodes i n w : line_ok cs nodes -> nodes !! i = Some n -> app_call millis i (nd_world n) w ->
  line_ok cs (<[i := n <| nd_world := w |>]> nodes).
Proof using Type.
  intros Hok Hi Hcall. destruct (lo_nodes _ _ Hok i n Hi) as (c & addrs & Hc & Hn).
  destruct (call_ok millis i c _ _ (no_wf _ _ _ Hn) Hcall) as [Hw Hs].
  destruct (node_ok_world c addrs n w Hn Hw Hs) as [Hn' Hcl].
  apply (line_ok_update nodes i n _ c addrs); try done. rewrite Hcl. by left.
Qed.

Lemma step_poll millis nodes i n peer l hdlc r l' hdlc' w taken :
  line_ok cs nodes -> nodes !! i = Some n -> nd_tx n = None -> tx_idle hdlc ->
  get_tx_data_idle millis (others i) app_callbacks peer 0 l (hdlc, nd_world n) = (r, l', (hdlc', w)) ->
  (has_marker (handle (nd_world n)) = false -> has_marker (handle w) = true -> line_quiet nodes i) ->
  let header := tx_origin_data hdlc' in
  let frame := mem_range (fd_mem (handle w)) header (Z.to_nat (tx_len hdlc')) in
  line_ok cs (<[i := n <| nd_world := w |>
                       <| nd_tx := match r with Continue => Some (header, frame) | _ => None end |>
                       <| nd_taken := taken |>]> nodes).
Proof using Hcs.
  intros Hok Hi Htx Hidle E Hquiet header frame. destruct (lo_nodes _ _ Hok i n Hi) as (c & addrs & Hc & Hn).
  pose proof (lc_station _ Hcs _ _ _ Hc) as Hst. pose proof Hn as [].
  destruct (poll_outcome millis (others i) c peer l hdlc (nd_world n) r l' hdlc' w no_wf0
    (ls_mode _ _ Hst) (ls_apart _ _ Hst) Hidle E) as (Hw & Hpa & Hmk & _ & _ & Hcont).
  assert (Ha : forall f, accepts (handle w) f = accepts (handle (nd_world n)) f).
  { intros f. by apply (accepts_same c false false). }
  set (n' := n <| nd_world := w |> <| nd_tx := _ |> <| nd_taken := _ |>).
  assert (Hd : forall l, Forall (deaf n) l -> Forall (deaf n') l).
  { intros k. by apply (deaf_same c). }
  apply (line_ok_update nodes i n n' c addrs); try done.
  - split; cbn; try done; try congruence.
    + intros Hm'. apply Hd. destruct (has_marker (handle (nd_world n))) eqn:Hm; [by apply no_holder0|].
      by apply (proj2 (Hquiet eq_refl Hm')).
    + intros l1 f l2 El. rewrite Ha. intros H1 H2. by eapply Hd, no_last0.
    + intros hd fr Etx. destruct r; try done. injection Etx as <- <-.
      destruct (Hcont eq_refl) as (Hm & Hreg & f & Hb & Hsame & Ho & Hmem). split; [by apply Hmk|].
      exists f.
      assert (frame = frame_bytes f) as -> by (unfold frame, header; by rewrite Ho).
      assert (Hp : forall p, pi_addr (peer_at (handle w) p) = pi_addr (peer_at (handle (nd_world n)) p)).
      { intros p. by rewrite !peer_address, Hpa. }
      destruct (own_frame c addrs false (handle w) peer f Hst Hw) as (H1 & H2 & H3); try done.
      { by rewrite Hpa. } { by rewrite Hp. } { unfold __peer_to_address_field in *. by rewrite Hp. }
      split_and!; try done; rewrite H1; [done|by rewrite Hp].
  - intros [Hm'|(f & Hf & Hfa & Hff)].
    + cbn in Hm'. destruct (has_marker (handle (nd_world n))) eqn:Hm; [left; by left|].
      right. apply (Hquiet eq_refl Hm').
    + left. right. exists f. cbn in Hfa. by rewrite <- Ha.
Qed.

Lemma step_read millis nodes i n frame rest :
  line_ok cs nodes -> nodes !! i = Some n -> nd_inbox n = frame :: rest ->
  line_ok cs (<[i := n <| nd_world := on_frame_read millis app_callbacks frame (nd_world n) |>
                       <| nd_inbox := rest |>]> nodes).
Proof using Hcs.
  intros Hok Hi Hin. destruct (lo_nodes _ _ Hok i n Hi) as (c & addrs & Hc & Hn).
  pose proof (lc_station _ Hcs _ _ _ Hc) as Hst. pose proof Hn as [].
  rewrite Hin in no_bytes0. apply Forall_cons in no_bytes0 as [Hbf Hbr].
  pose proof (on_frame_read_wf millis app_callbacks c frame _ no_wf0 Hbf) as Hw.
  assert (Hlast : forall l1 f l2, rest = l1 ++ f :: l2 ->
    accepts (handle (nd_world n)) f = true -> final f = true -> Forall (deaf n) l2).
  { intros l1 f l2 El. apply (no_last0 (frame :: l1)). by rewrite Hin, El. }
  set (w := on_frame_read millis app_callbacks frame (nd_world n)) in *.
  set (n' := n <| nd_world := w |> <| nd_inbox := rest |>).
  apply (line_ok_update nodes i n n' c addrs); try done.
  - destruct (accepts (handle (nd_world n)) frame) eqn:Hacc; cycle 1.
    { assert (w = nd_world n) as Ew by (by apply read_ignored). unfold n'. rewrite Ew.
      split; cbn; try done.
      intros Hm. specialize (no_holder0 Hm). rewrite Hin in no_holder0. by apply Forall_cons in no_holder0 as []. }
    assert (Hm : has_marker (handle (nd_world n)) = false).
    { destruct (has_marker _); [|done]. specialize (no_holder0 eq_refl). rewrite Hin in no_holder0.
      apply Forall_cons in no_holder0 as [Hdf _]. unfold deaf in Hdf. congruence. }
    pose proof (read_marker millis c frame (nd_world n) no_wf0 Hbf Hacc) as Hmk. fold w in Hmk.
    injection Hmk as Hmk Hpa _ _. rewrite Hm in Hmk. cbn [orb] in Hmk.
    assert (Ha : forall f, accepts (handle w) f = accepts (handle (nd_world n)) f).
    { intros f. by apply (accepts_same c false false). }
    assert (Hd : forall l, Forall (deaf n) l -> Forall (deaf n') l).
    { intros k. by apply (deaf_same c). }
    split; cbn; try done; try congruence.
    + rewrite Hmk. unfold polls. intros [_ Hfin]%andb_true_iff. apply Hd, (no_last0 [] frame); done.
    + intros l1 f l2 El. rewrite Ha. intros H1 H2. by eapply Hd, Hlast.
    + intros hd fr Etx. destruct (no_tx0 _ _ Etx) as [Hm' _]. congruence.
  - destruct (accepts (handle (nd_world n)) frame) eqn:Hacc; cycle 1.
    { assert (w = nd_world n) as Ew by (by apply read_ignored). unfold n'. rewrite Ew.
      intros [Hm|(f & Hf & H)]; left; [by left|right]. exists f. split; [|done]. rewrite Hin. by right. }
    pose proof (read_marker millis c frame (nd_world n) no_wf0 Hbf Hacc) as Hmk. fold w in Hmk.
    injection Hmk as Hmk Hpa _ _.
    intros [Hm|(f & Hf & Hfa & Hff)]; left.
    + cbn in Hm. rewrite Hmk in Hm. apply orb_true_iff in Hm as [Hm|Hm]; [by left|right].
      exists frame. rewrite Hin. split; [by left|]. split; [done|]. by apply andb_true_iff in Hm as [_ ?].
    + right. exists f. rewrite Hin. split; [by right|]. split; [|done]. cbn in Hfa.
      by rewrite <- (accepts_same c false false _ (handle w)).
Qed.

End Steps.

Section Ends.

Context (cs : list (fd_config * list Z)) (Hcs : line_config cs).

(** A frame reaches one station that takes it for its own. *)
Lemma one_recipient nodes i c addrs a j k m m' frame :
  line_ok cs nodes -> cs !! i = Some (c, addrs) -> a ∈ addrs -> a <> HDLC_INVALID_PEER_INDEX ->
  clear_bits HDLC_CR_BIT (frame_address frame) = a ->
  nodes !! j = Some m -> nodes !! k = Some m' -> j <> i -> k <> i ->
  accepts (handle (nd_world m)) frame = true -> accepts (handle (nd_world m')) frame = true -> j = k.
Proof using Hcs.
  intros Hok Hi Ha Hinv Hfa Hj Hk Hji Hki Hmj Hmk.
  assert (Hrec : forall j m, nodes !! j = Some m -> accepts (handle (nd_world m)) frame = true ->
    exists d b, cs !! j = Some (d, b) /\ (__is_primary_address (c_addr d) = false -> a = c_addr d)).
  { intros j0 m0 Hj0 Hacc. destruct (lo_nodes _ _ Hok j0 m0 Hj0) as (d & b & Hd & Hn). exists d, b. split; [done|].
    intros Hsec. rewrite <- Hfa. eapply accepts_own; [by eapply lc_station|apply Hn|done|done]. }
  destruct (Hrec j m Hj Hmj) as (d & b & Hd & Hdo), (Hrec k m' Hk Hmk) as (e & b' & He & Heo).
  pose proof (ls_addrs _ _ (lc_station _ Hcs _ _ _ Hi) a Ha Hinv) as Hsender.
  destruct (__is_primary_address (c_addr c)) eqn:Hp.
  - assert (Hsec : forall x y z, cs !! x = Some (y, z) -> x <> i -> __is_primary_address (c_addr y) = false).
    { intros x y z Hx Hne. destruct (__is_primary_address (c_addr y)) eqn:E; [|done].
      by destruct Hne; eapply lc_primary. }
    apply (lc_distinct _ Hcs j k d e b b' Hd He). rewrite <- Hdo, <- Heo; [done|by eapply Hsec..].
  - assert (Hprim : forall x y z, cs !! x = Some (y, z) -> x <> i -> (__is_primary_address (c_addr y) = false -> a = c_addr y) ->
      __is_primary_address (c_addr y) = true).
    { intros x y z Hx Hne Ho. destruct (__is_primary_address (c_addr y)) eqn:E; [done|].
      destruct Hne. apply (lc_distinct _ Hcs x i y c z addrs Hx Hi). by rewrite <- Ho, <- Hsender. }
    by apply (lc_primary _ Hcs j k d e b b' Hd He); eapply Hprim.
Qed.

(** The frame joins what a station without the marker has to read. *)
Lemma node_ok_heard c addrs n frame :
  node_ok c addrs n -> bytes frame -> ~ claims n -> node_ok c addrs (n <| nd_inbox ::= fun l => l ++ [frame] |>).
Proof using Type.
  intros [] Hf Hcl. split; cbn; try done.
  - apply Forall_app. by split; [|apply Forall_singleton].
  - intros Hm. destruct Hcl. by left.
  - intros l1 f l2 E Ha Hfin. destruct l2 as [|x l2 _] using rev_ind; [done|]. destruct Hcl. right. exists f.
    split; [|done]. rewrite app_comm_cons, app_assoc in E. apply app_inj_2 in E as [-> _]; [|done].
    apply elem_of_app. right. by left.
Qed.

(** The transmission of a station ends. *)
Lemma node_ok_end c addrs n header frame :
  line_station c addrs -> node_ok c addrs n -> nd_tx n = Some (header, frame) ->
  let mem := fd_mem (handle (nd_world n)) in
  let n' := n <| nd_world := on_frame_send header [mem header; mem (header + 1)] (nd_world n) |> <| nd_tx := None |> in
  node_ok c addrs n' /\ (claims n' -> final frame = false) /\ bytes frame /\
  clear_bits HDLC_CR_BIT (frame_address frame) ∈ addrs /\
  clear_bits HDLC_CR_BIT (frame_address frame) <> HDLC_INVALID_PEER_INDEX.
Proof using Type.
  intros Hst Hn Htx. cbv zeta. pose proof Hn as []. destruct (no_tx0 _ _ Htx) as (Hm & f & Hb & <- & -> & Hin & Hinv & Hown).
  destruct (busy_header c false _ f no_wf0 (ls_apart _ _ Hst) Hb) as [-> Hbytes].
  pose proof (on_frame_send_wf c (ls_peers _ _ Hst) (fi_addr f) [fi_address f; fi_control f] (nd_world n) no_wf0) as Hw.
  pose proof (end_marker c (fi_addr f) [fi_address f; fi_control f] (nd_world n) no_wf0 (ls_mode _ _ Hst) Hown) as Hmk.
  set (w := on_frame_send _ _ _) in *. injection Hmk as Hmk Hpa _ _. rewrite Hm in Hmk. cbn [andb] in Hmk.
  set (n' := n <| nd_world := w |> <| nd_tx := None |>).
  pose proof (deaf_same c n n' (nd_inbox n) no_wf0 Hw Hpa (no_holder0 Hm)) as Hd.
  assert (Hquiet : forall fr, fr ∈ nd_inbox n -> accepts (handle w) fr = false).
  { intros fr Hfr. rewrite Forall_forall in Hd. by apply (Hd fr). }
  split; [|split_and!; try done].
  - split; cbn; try done; try congruence. intros l1 fr l2 E Ha. rewrite Hquiet in Ha; [done|].
    rewrite E. apply elem_of_app. right. by left.
  - intros [Hm'|(fr & Hfr & Ha & _)]; [|cbn in Ha; by rewrite Hquiet in Ha].
    cbn in Hm'. rewrite Hmk in Hm'. by apply negb_true_iff in Hm'.
Qed.

Lemma step_end nodes i n header frame heard :
  line_ok cs nodes -> nodes !! i = Some n -> nd_tx n = Some (header, frame) ->
  let mem := fd_mem (handle (nd_world n)) in
  let w := on_frame_send header [mem header; mem (header + 1)] (nd_world n) in
  line_ok cs (imap (after_end i w heard frame) nodes).
Proof using Hcs.
  intros Hok Hi Htx. cbv zeta. destruct (lo_nodes _ _ Hok i n Hi) as (c & addrs & Hc & Hn).
  destruct (node_ok_end c addrs n header frame (lc_station _ Hcs _ _ _ Hc) Hn Htx) as (Hn' & Hfin & Hb & Ha & Hinv).
  set (w := on_frame_send _ _ _) in *.
  assert (Hcl : claims n) by (left; by destruct (no_tx _ _ _ Hn _ _ Htx)).
  assert (Hothers : forall j m, nodes !! j = Some m -> j <> i -> ~ claims m).
  { intros j m Hj Hne Hm. by destruct Hne; apply (lo_sole _ _ Hok j i m n). }
  assert (Hafter : forall j m, nodes !! j = Some m -> claims (after_end i w heard frame j m) ->
    if decide (j = i) then final frame = false else accepts (handle (nd_world m)) frame = true /\ final frame = true).
  { intros j m Hj. unfold after_end. destruct (decide (j = i)) as [->|Hne]; [by rewrite Hi in Hj; injection Hj as <-|].
    pose proof (Hothers j m Hj Hne) as Hno. destruct (heard j); [|done]. intros [Hm|(f & Hf & H)]; [destruct Hno; by left|].
    cbn in Hf. apply elem_of_app in Hf as [Hf|Hf]; [destruct Hno; right; by exists f|].
    by apply list_elem_of_singleton in Hf as ->. }
  split.
  - intros j m'. rewrite list_lookup_imap, fmap_Some. intros (m & Hj & ->).
    destruct (lo_nodes _ _ Hok j m Hj) as (d & b & Hd & Hm). exists d, b. split; [done|].
    unfold after_end. destruct (decide (j = i)) as [->|Hne]; [by simplify_eq|].
    destruct (heard j); [|done]. apply node_ok_heard; [done|done|]. by eapply Hothers.
  - intros j k m m'. rewrite !list_lookup_imap, !fmap_Some. intros (mj & Hj & ->) (mk & Hk & ->) H1 H2.
    apply Hafter in H1; [|done]. apply Hafter in H2; [|done].
    destruct (decide (j = i)) as [->|Hji], (decide (k = i)) as [->|Hki]; [done|by destruct H2; congruence|by destruct H1; congruence|].
    apply (one_recipient nodes i c addrs _ j k mj mk frame Hok Hc Ha Hinv eq_refl); try done; [apply H1|apply H2].
Qed.

(** ** The timer *)

(** At the time [now], on a clock ahead by [o]: the timer of a station was started as it took its last frame,
    and a primary without the marker or a station that transmits has taken one. *)
Record timed (now o : Z) (n : node) : Prop := mk_timed {
  td_started : forall t, nd_taken n = Some t -> t <= now /\ fd_last_marker_ts (handle (nd_world n)) = u32 (t + o);
  td_sending : nd_tx n <> None -> nd_taken n <> None;
  td_primary : __is_primary_station (handle (nd_world n)) = true -> has_marker (handle (nd_world n)) = false -> nd_taken n <> None
}.

(** What a timer shows is no more than the time that has passed. *)
Lemma timer_bound now t o : t <= now -> u32 (u32 (now + o) - u32 (t + o)) <= now - t.
Proof using Type.
  intros Hle. unfold u32. rewrite Zminus_mod_idemp_l, Zminus_mod_idemp_r.
  replace (now + o - (t + o)) with (now - t) by lia. apply Z.mod_le; lia.
Qed.

(** A station that leaves its timer alone, and gives the marker away only at the end of a transmission. *)
Lemma timed_keep now o n n' :
  timed now o n -> nd_taken n' = nd_taken n ->
  fd_last_marker_ts (handle (nd_world n')) = fd_last_marker_ts (handle (nd_world n)) ->
  __is_primary_station (handle (nd_world n')) = __is_primary_station (handle (nd_world n)) ->
  (nd_tx n' <> None -> nd_tx n <> None) ->
  (has_marker (handle (nd_world n')) = false -> has_marker (handle (nd_world n)) = false \/ nd_tx n <> None) ->
  timed now o n'.
Proof using Type.
  intros [] Ht Hts Hp Htx Hm. split; rewrite Ht.
  - intros t E. rewrite Hts. by apply td_started0.
  - auto.
  - rewrite Hp. intros H1 H2. destruct (Hm H2); auto.
Qed.

Lemma primary_same c b b' h h' : fd_wf c b h -> fd_wf c b' h' -> __is_primary_station h' = __is_primary_station h.
Proof using Type. intros Hw Hw'. unfold __is_primary_station. by rewrite (wf_addr _ _ _ Hw), (wf_addr _ _ _ Hw'). Qed.

(** The timers of all stations. *)
Definition line_timed (l : line) : Prop := forall i n, ln_nodes l !! i = Some n -> timed (ln_now l) (offset i) n.

Lemma line_timed_update now nodes i n n' :
  line_timed (mk_line now nodes) -> nodes !! i = Some n ->
  (timed now (offset i) n -> timed now (offset i) n') -> line_timed (mk_line now (<[i := n']> nodes)).
Proof using Type.
  intros Ht Hi Hn j m. cbn. intros [(<- & <- & _)|[_ Hj]]%list_lookup_insert_Some; [by apply Hn, (Ht i n)|by apply (Ht j m)].
Qed.

(** A primary that takes the marker back finds a quiet line, when nobody is late. *)
Lemma taken_back_quiet now nodes i n passed :
  line_timed (mk_line now nodes) -> prompt (mk_line now nodes) -> nodes !! i = Some n ->
  __is_primary_station (handle (nd_world n)) = true -> has_marker (handle (nd_world n)) = false ->
  passed = u32 (u32 (now + offset i) - fd_last_marker_ts (handle (nd_world n))) ->
  fd_retry_timeout (handle (nd_world n)) <= passed -> line_quiet nodes i.
Proof using Type.
  intros Ht Hpr Hi Hp Hm -> Hle. destruct (Ht i n Hi) as [Hst _ Htk]. cbn in Hst.
  destruct (nd_taken n) as [t|] eqn:E; [|by destruct (Htk Hp Hm)]. destruct (Hst t eq_refl) as [Hlt Hts]. rewrite Hts in Hle.
  pose proof (timer_bound now t (offset i) Hlt) as Hb.
  assert (Hno : ~ turn_lasts nodes n).
  { intros Hlast. pose proof (Hpr n t (list_elem_of_lookup_2 _ _ _ Hi) Hp Hm E Hlast) as H. cbn in H. lia. }
  split.
  - intros j m Hj Hc. apply Hno. left. exists m. split; [by eapply list_elem_of_lookup_2|done].
  - intros m Hm'. rewrite Hi in Hm'. injection Hm' as <-. apply Forall_forall. intros f Hf. unfold deaf.
    destruct (accepts _ f) eqn:Ha; [|done]. destruct Hno. right. by exists f.
Qed.

(** ** Runs *)

Lemma timed_step l l' : line_ok cs (ln_nodes l) -> line_timed l -> line_step l l' -> line_timed l'.
Proof using Hcs.
  intros Hok Ht Hs. destruct Hs as [now nodes d Hd|now nodes i n w Hi Hcall|now nodes i n peer k hdlc r k' hdlc' w Hi Htx Hidle E|
    now nodes i n header frame heard Hi Htx|now nodes i n frame rest Hi Hin]; cbn in Hok.
  1: { intros i n Hi. destruct (Ht i n Hi) as [H1 H2 H3]. cbn in *. split; [|done|done]. intros t E. destruct (H1 t E). split; [lia|done]. }
  all: destruct (lo_nodes _ _ Hok i n Hi) as (c & addrs & Hc & Hn); pose proof Hn as [];
    pose proof (lc_station _ Hcs _ _ _ Hc) as Hst.
  - apply (line_timed_update now nodes i n); [done|done|]. intros Htn.
    destruct (call_ok _ i c _ _ no_wf0 Hcall) as [Hw [Hsp _]]. injection Hsp as Hmk _ Hts _.
    apply (timed_keep _ _ n); cbn; [done..|by apply (primary_same c false false)|done|rewrite Hmk; by left].
  - apply (line_timed_update now nodes i n); [done|done|]. intros Htn.
    destruct (poll_outcome _ (others i) c peer k hdlc (nd_world n) r k' hdlc' w no_wf0
      (ls_mode _ _ Hst) (ls_apart _ _ Hst) Hidle E) as (Hw & _ & Hmk & _ & Hts & _).
    assert (Hkeep : fd_last_marker_ts (handle w) = fd_last_marker_ts (handle (nd_world n)) ->
      timed now (offset i) (n <| nd_world := w |> <| nd_tx := None |>)).
    { intros Hts'. apply (timed_keep _ _ n); cbn; [done..|by apply (primary_same c false false)|done|].
      intros Hm. left. destruct (has_marker (handle (nd_world n))); [|done]. by rewrite Hmk in Hm. }
    destruct r; [by apply Hkeep| |by apply Hkeep]. destruct Hts as [k0 Hts]. split; cbn; [|done|done]. intros t [= <-]. by split.
  - intros j m'. cbn. rewrite list_lookup_imap, fmap_Some. intros (m & Hj & ->). unfold after_end.
    destruct (decide (j = i)) as [->|Hne]; [|destruct (heard j); destruct (Ht j m Hj); by split].
    rewrite Hi in Hj. injection Hj as <-. destruct (no_tx0 _ _ Htx) as (_ & f & Hb & <- & -> & _ & _ & Hown).
    subst w mem. cbv beta.
    destruct (busy_header c false _ f no_wf0 (ls_apart _ _ Hst) Hb) as [-> _].
    pose proof (on_frame_send_wf c (ls_peers _ _ Hst) (fi_addr f) [fi_address f; fi_control f] (nd_world n) no_wf0) as Hw.
    pose proof (end_marker c (fi_addr f) [fi_address f; fi_control f] (nd_world n) no_wf0 (ls_mode _ _ Hst) Hown) as Hmk.
    injection Hmk as _ _ Hts _. apply (timed_keep _ _ n); cbn; [by apply (Ht i n)|done|done|by apply (primary_same c false false)|done|].
    rewrite Htx. by right.
  - apply (line_timed_update now nodes i n); [done|done|]. intros Htn.
    rewrite Hin in no_bytes0. apply Forall_cons in no_bytes0 as [Hbf Hbr].
    pose proof (on_frame_read_wf (reading now i) app_callbacks c frame _ no_wf0 Hbf) as Hw.
    destruct (accepts (handle (nd_world n)) frame) eqn:Hacc.
    + pose proof (read_marker (reading now i) c frame (nd_world n) no_wf0 Hbf Hacc) as Hmk. injection Hmk as Hmk _ Hts _.
      apply (timed_keep _ _ n); cbn; [done..|by apply (primary_same c false false)|done|].
      rewrite Hmk. intros [Hm _]%orb_false_iff. by left.
    + rewrite (read_ignored (reading now i) frame (nd_world n) Hacc). apply (timed_keep _ _ n); cbn; auto.
Qed.

Lemma line_step_ok l l' : line_ok cs (ln_nodes l) -> line_timed l -> prompt_step l l' -> line_ok cs (ln_nodes l').
Proof using Hcs.
  intros Hok Ht [Hpr Hs]. destruct Hs as [now nodes d Hd|now nodes i n w Hi Hcall|now nodes i n peer k hdlc r k' hdlc' w Hi Htx Hidle E|
    now nodes i n header frame heard Hi Htx|now nodes i n frame rest Hi Hin]; cbn in Hok |- *.
  - done.
  - by eapply step_call.
  - apply (step_poll cs Hcs (reading now i) nodes i n peer k hdlc r k' hdlc' w); try done. intros Hm Hm'.
    destruct (lo_nodes _ _ Hok i n Hi) as (c & addrs & Hc & Hn). pose proof (lc_station _ Hcs _ _ _ Hc) as Hst.
    destruct (poll_outcome (reading now i) (others i) c peer k hdlc (nd_world n) r k' hdlc' w (no_wf _ _ _ Hn)
      (ls_mode _ _ Hst) (ls_apart _ _ Hst) Hidle E) as (_ & _ & _ & Hback & _).
    destruct (Hback Hm Hm') as (Hp & j & Hle). eapply taken_back_quiet; [exact Ht|exact Hpr|exact Hi| |exact Hm|reflexivity|exact Hle].
    unfold __is_primary_station. by rewrite (wf_addr _ _ _ (no_wf _ _ _ Hn)).
  - by eapply step_end.
  - by eapply step_read.
Qed.

Lemma line_run_ok l l' :
  line_ok cs (ln_nodes l) -> line_timed l -> rtc prompt_step l l' -> line_ok cs (ln_nodes l').
Proof using Hcs.
  intros H Ht Hr. induction Hr as [|l1 l2 l3 Hs _ IH]; [done|].
  apply IH; [by eapply line_step_ok|by eapply timed_step, Hs].
Qed.

End Ends.

End Line.
