(* ===== verification/FdTalker.v ===== *)
(** * The line from power up

    Stations that [tiny_fd_init] has set up in normal response mode, the primary with its peers
    registered, and the property of every run where no secondary is late: one talker at most.  A
    late one shows why that is asked for. *)

From stdpp Require Import relations.
From S2P Require Import Prelude Crc HdlcLL HdlcSpec HdlcTx HdlcRx FdTypes FdQueue FdPeers FdIQueue FdLog.
From S2P Require Import FdService FdTx FdRx Fd FdApi FdInv FdSafe FdStation FdInit FdFifo FdSlots.
From S2P Require Import FdRun FdFlow FdConn FdMoves FdXmit FdE2E FdDelivery FdProgress FdWire.
From S2P Require Import FdMarker FdMarkerTx FdLine.

(** The own address of a station set up from [init]. *)
Definition station_address (init : tiny_fd_init_t) : Z :=
  u8 (Z.lor (if nz (it_addr init) then Z.shiftl (it_addr init) 2 else HDLC_PRIMARY_ADDR) HDLC_E_BIT).

(** [tiny_fd_register_peer] for each of [peers]. *)
Definition register_all (millis : nat -> Z) (peers : list Z) (w : fd_world app) : fd_world app :=
  foldl (fun w address => snd (tiny_fd_register_peer millis address w)) w peers.

(** A station set up from the pair of its parameters and the peers it registers. *)
Definition powered_up (millis : nat -> Z) (p : layout) (s : tiny_fd_init_t * list Z) (n : node) : Prop :=
  exists hdlc h, tiny_fd_init p (fst s) = (TINY_SUCCESS, Some (hdlc, h)) /\
    n = mk_node (register_all millis (snd s) (mk_fd_world h 0 (mk_app [] []))) None [] None.

(** The station transmits, or may. *)
Definition talks (n : node) : Prop := nd_tx n <> None \/ has_marker (handle (nd_world n)) = true.

(** ** Addresses *)

(** An address field made by a shift has the C/R bit clear and bit 0 set. *)
Lemma shifted_address x : clear_bits HDLC_CR_BIT (u8 (Z.lor (Z.shiftl x 2) HDLC_E_BIT)) = u8 (Z.lor (Z.shiftl x 2) HDLC_E_BIT).
Proof.
  set (v := u8 _). assert (Hv : fits 8 v) by (apply fits_u8).
  assert (Z.testbit v 1 = false) as Hb.
  { unfold v, u8. rewrite Z.mod_pow2_bits_low by lia. rewrite Z.lor_spec, Z.shiftl_spec_low by lia. done. }
  clearbody v.
  pose proof (forall_byte (fun v => Z.testbit v 1 || (clear_bits HDLC_CR_BIT v =? v)) v) as H. cbv beta in H.
  rewrite Hb in H. apply Z.eqb_eq. apply H; [by vm_compute|done].
Qed.

Lemma station_address_clear init : clear_bits HDLC_CR_BIT (station_address init) = station_address init.
Proof.
  unfold station_address. destruct (nz _); [apply shifted_address|]. apply (shifted_address 0).
Qed.

Lemma clear_not_invalid a : clear_bits HDLC_CR_BIT a = a -> a <> HDLC_INVALID_PEER_INDEX.
Proof. intros H ->. by vm_compute in H. Qed.

(** What the addresses of the peers are, registered or not. *)
Definition registry (c : fd_config) (h : tiny_fd_data_t) : Prop :=
  forall a, a ∈ pi_addr <$> fd_peers h ->
    if __is_primary_address (c_addr c) then a = HDLC_INVALID_PEER_INDEX \/ clear_bits HDLC_CR_BIT a = a
    else a = c_addr c.

Section Register.

Context (millis : nat -> Z) (c : fd_config) (Hown : clear_bits HDLC_CR_BIT (c_addr c) = c_addr c).
Context (Hpeers : 1 <= c_peers c <= 255).

Lemma register_registry address (w : fd_world app) :
  fd_wf c false (handle w) -> registry c (handle w) ->
  let w' := snd (tiny_fd_register_peer millis address w) in
  registry c (handle w') /\ has_marker (handle w') = has_marker (handle w).
Proof using Hown Hpeers.
  intros Hw Hr. cbv zeta. unfold tiny_fd_register_peer. cbv zeta. destruct (_ <? _); [done|].
  destruct (_ =? _); [done|]. set (a := u8 _). set (w0 := on_handle tiny_mutex_lock w).
  assert (H0 : marker (handle w0) = marker (handle w)) by (by apply (obs_on marker tiny_mutex_lock w _)).
  assert (Hw0 : fd_wf c true (handle w0)) by (by apply fd_wf_lock). clearbody w0. injection H0 as Hm Hpa _ _.
  assert (Hun : forall w1 : fd_world app, marker (handle (on_handle tiny_mutex_unlock w1)) = marker (handle w1)).
  { intros w1. by apply (obs_on marker tiny_mutex_unlock w1 _). }
  assert (Hsame : registry c (handle (on_handle tiny_mutex_unlock w0)) /\
    has_marker (handle (on_handle tiny_mutex_unlock w0)) = has_marker (handle w)).
  { pose proof (f_equal (fun m => m.1.1) (Hun w0)) as Hm1. pose proof (f_equal (fun m => m.1.2) (Hun w0)) as Hpa1. unfold marker in Hm1, Hpa1. cbn [fst snd] in Hm1, Hpa1.
    split; [|by etrans]. unfold registry. by rewrite Hpa1, Hpa. }
  destruct (negb _); [exact Hsame|].
  destruct (find_peer_spec (handle w0) HDLC_INVALID_PEER_INDEX (Z.to_nat (fd_peers_count (handle w0))) 0)
    as [[-> _]|(Hi & Hai & _)]; [lia|exact Hsame|].
  set (r := find_peer _ _ _ _) in *. destruct (Z.eqb_spec r HDLC_INVALID_PEER_INDEX); [exact Hsame|].
  cbn [tiny_millis snd]. match goal with |- context [on_handle tiny_mutex_unlock ?x] => set (w1 := x) end.
  pose proof (f_equal (fun m => m.1.1) (Hun w1)) as Hm1. pose proof (f_equal (fun m => m.1.2) (Hun w1)) as Hpa1. unfold marker in Hm1, Hpa1. cbn [fst snd] in Hm1, Hpa1.
  assert (Hw1 : has_marker (handle w1) = has_marker (handle w0)) by done.
  split; [|by etrans; [|etrans]]. unfold registry. rewrite Hpa1.
  rewrite (wf_count _ _ _ Hw0) in Hi. pose proof (wf_length _ _ _ Hw0) as Hlen.
  assert (HI : HDLC_INVALID_PEER_INDEX ∈ pi_addr <$> fd_peers (handle w)).
  { rewrite <- Hpa. rewrite peer_address in Hai. rewrite <- Hai at 1. rewrite nth_lookup.
    destruct ((pi_addr <$> fd_peers (handle w0)) !! Z.to_nat r) as [x|] eqn:E; [by eapply list_elem_of_lookup_2|].
    apply lookup_ge_None in E. rewrite length_fmap in E. lia. }
  pose proof (Hr _ HI) as HrI. destruct (__is_primary_address (c_addr c)) eqn:Hp.
  - intros x Hx. assert (Hx' : x = a \/ x ∈ pi_addr <$> fd_peers (handle w0)).
    { revert Hx. change (fd_peers (handle w1)) with
        (alter (fun p => p <| pi_last_received_frame_ts := u32 (u32 (millis (clock w0)) - fd_retry_timeout (handle w0)) |>) (Z.to_nat r)
          (alter (fun p => p <| pi_addr := a |>) (Z.to_nat r) (fd_peers (handle w0)))).
      rewrite list_alter_alter_eq. intros (p & -> & Hpi)%list_elem_of_fmap.
      apply list_elem_of_lookup in Hpi as (j & Hj). destruct (decide (Z.to_nat r = j)) as [<-|Hne].
      - rewrite list_lookup_alter_eq in Hj. apply fmap_Some in Hj as (q & _ & ->). by left.
      - rewrite list_lookup_alter_ne in Hj by done. right. apply list_elem_of_fmap_2. by eapply list_elem_of_lookup_2. }
    destruct Hx' as [->|Hx']; [right; apply shifted_address|]. rewrite Hpa in Hx'. specialize (Hr x Hx'). by rewrite Hp in Hr.
  - by destruct (clear_not_invalid _ Hown).
Qed.

Lemma register_all_ok peers (w : fd_world app) :
  fd_wf c false (handle w) -> registry c (handle w) ->
  let w' := register_all millis peers w in
  fd_wf c false (handle w') /\ registry c (handle w') /\ has_marker (handle w') = has_marker (handle w).
Proof using Hown Hpeers.
  revert w. induction peers as [|a peers IH]; intros w Hw Hr; [done|]. cbn [register_all foldl].
  destruct (register_registry a w Hw Hr) as [Hr1 Hm1].
  destruct (IH (snd (tiny_fd_register_peer millis a w)) (register_peer_wf millis c a w Hw) Hr1) as (H1 & H2 & H3).
  split_and!; [done|done|]. cbv zeta in H3. unfold register_all in H3. by rewrite H3, Hm1.
Qed.

End Register.

(** ** A station that has been set up *)

Section Started.

Context (init : tiny_fd_init_t) (mtu : Z) (hdlc : hdlc_ll_data_t) (h : tiny_fd_data_t).
Context (Hargs : init_args init) (Hmode : it_mode init = TINY_FD_MODE_NRM) (Hin : initialised init mtu hdlc h).

#[local] Abbreviation c := (config_of mtu h).

Lemma started_fd_wf : fd_wf c false h.
Proof using Hin. by destruct (in_wf _ _ _ _ Hin app 0%nat (mk_app [] [])). Qed.

(** A span is that of a slot, in its queue. *)
Lemma span_slot i s :
  slot_spans c !! i = Some s ->
  (exists f, q_frames (fd_i_queue h) !! i = Some f /\ s = (fi_addr f, fi_addr f + 2 + mtu)) \/
  (exists j f, i = (length (q_frames (fd_i_queue h)) + j)%nat /\ q_frames (fd_s_queue h) !! j = Some f /\
     s = (fi_addr f, fi_addr f + 4)).
Proof using Type.
  unfold slot_spans. cbn. intros [Hs|[Hle Hs]]%lookup_app_Some.
  - rewrite !list_lookup_fmap in Hs. left. destruct (q_frames (fd_i_queue h) !! i) as [f|]; [|done].
    injection Hs as <-. by exists f.
  - rewrite !length_fmap in *. rewrite !list_lookup_fmap in Hs. right.
    destruct (q_frames (fd_s_queue h) !! (i - length (q_frames (fd_i_queue h)))%nat) as [f|] eqn:E; [|done].
    injection Hs as <-. exists (i - length (q_frames (fd_i_queue h)))%nat, f. split; [lia|done].
Qed.

Lemma started_apart : apart c.
Proof using Hargs Hin.
  pose proof (proj1 (in_mtu _ _ _ _ Hin)) as Hm. pose proof (ia_buffer _ Hargs) as (Hbuf & _).
  assert (Hdis : forall f g n k, 0 < n -> 0 < k ->
    (forall a, fi_addr f <= a < fi_addr f + n -> fi_addr g <= a < fi_addr g + k -> False) ->
    fi_addr f + n <= fi_addr g \/ fi_addr g + k <= fi_addr f).
  { intros f g n k Hn Hk Hno. destruct (Z.le_gt_cases (fi_addr f + n) (fi_addr g)); [by left|].
    destruct (Z.le_gt_cases (fi_addr g + k) (fi_addr f)); [by right|].
    exfalso. apply (Hno (Z.max (fi_addr f) (fi_addr g))); lia. }
  split.
  - apply Forall_lookup. intros i s Hs. apply span_slot in Hs as [(f & Hf & ->)|(j & f & _ & Hf & ->)];
      apply list_elem_of_lookup_2 in Hf; cbn.
    + pose proof (in_inside _ _ _ _ Hin f (fi_addr f)) as H. unfold slot_range in H.
      assert (it_buffer init <= fi_addr f < it_buffer init + it_buffer_size init) by (apply H; left; split; [done|lia]). lia.
    + pose proof (in_inside _ _ _ _ Hin f (fi_addr f)) as H. unfold slot_range in H.
      assert (it_buffer init <= fi_addr f < it_buffer init + it_buffer_size init) by (apply H; right; split; [done|lia]). lia.
  - intros i j s t Hs Ht Hne.
    apply span_slot in Hs as [(f & Hf & ->)|(i' & f & -> & Hf & ->)];
      apply span_slot in Ht as [(g & Hg & ->)|(j' & g & -> & Hg & ->)]; cbn [fst snd].
    + rewrite <- !Z.add_assoc. apply Hdis; [lia..|]. intros a Ha Hb. apply Hne.
      apply (in_i_apart _ _ _ _ Hin i j f g a Hf Hg); unfold slot_range; lia.
    + left. apply list_elem_of_lookup_2 in Hf, Hg.
      pose proof (in_i_before_s _ _ _ _ Hin f g (fi_addr f + 2 + mtu - 1) (fi_addr g) Hf Hg) as H.
      unfold slot_range in H. lia.
    + right. apply list_elem_of_lookup_2 in Hf, Hg.
      pose proof (in_i_before_s _ _ _ _ Hin g f (fi_addr g + 2 + mtu - 1) (fi_addr f) Hg Hf) as H.
      unfold slot_range in H. lia.
    + apply Hdis; [lia..|]. intros a Ha Hb. apply Hne. f_equal.
      apply (in_s_apart _ _ _ _ Hin i' j' f g a Hf Hg); unfold slot_range; lia.
Qed.

Lemma started_address : fd_addr h = station_address init.
Proof using Hin. exact (in_addr _ _ _ _ Hin). Qed.

Lemma started_peers_count : 1 <= c_peers c <= 255.
Proof using Hargs Hin.
  cbn. rewrite (in_peers _ _ _ _ Hin). pose proof (ia_peers _ Hargs) as Hq. unfold fits in Hq. change (2 ^ 8) with 256 in Hq.
  destruct (Z.eqb_spec (it_peers_count init) 0); lia.
Qed.

Lemma started_registry : registry c h.
Proof using Hmode Hin.
  intros a (p & -> & Hp)%list_elem_of_fmap. pose proof (in_peer_addr _ _ _ _ Hin) as Ha.
  rewrite Forall_forall in Ha. rewrite (Ha p Hp). rewrite (in_mode _ _ _ _ Hin), Hmode.
  change (TINY_FD_MODE_NRM =? TINY_FD_MODE_ABM) with false. rewrite orb_false_r.
  unfold __is_secondary_station, __is_primary_station. cbn [c_addr config_of].
  by destruct (__is_primary_address (fd_addr h)); cbn [negb]; [left|].
Qed.

(** The station is ready for the line. *)
Lemma started_line_station millis peers u :
  let w := register_all millis peers (mk_fd_world h 0 u) in
  let addrs := pi_addr <$> fd_peers (handle w) in
  line_station c addrs /\ node_ok c addrs (mk_node w None [] None) /\
  has_marker (handle w) = __is_primary_address (station_address init).
Proof using Hargs Hmode Hin.
  cbv zeta. pose proof started_address as Ea.
  assert (Hown : clear_bits HDLC_CR_BIT (c_addr c) = c_addr c) by (cbn; rewrite Ea; apply station_address_clear).
  destruct (register_all_ok millis c Hown started_peers_count peers (mk_fd_world h 0 u) started_fd_wf started_registry)
    as (Hw & Hr & Hm).
  set (w := register_all millis peers _) in *. split; [|split].
  - split; [cbn; by rewrite (in_mode _ _ _ _ Hin)|exact started_peers_count|exact started_apart|exact Hown|].
    intros a Ha Hinv. specialize (Hr a Ha). destruct (__is_primary_address (c_addr c)); [|done]. by destruct Hr.
  - split; cbn; try done. intros l1 frame l2 E. by destruct l1.
  - rewrite Hm. unfold has_marker. cbn [handle]. rewrite (in_marker _ _ _ _ Hin). unfold __is_primary_station. by rewrite Ea.
Qed.

End Started.

(** The stations of the line. *)
Lemma power_up_ok (millis : nat -> nat -> Z) (p : layout) (stations : list (tiny_fd_init_t * list Z)) (start : list node) :
  layout64 p -> Forall (fun s => init_args (fst s) /\ it_mode (fst s) = TINY_FD_MODE_NRM) stations ->
  NoDup ((fun s => station_address (fst s)) <$> stations) ->
  (forall i n, start !! i = Some n -> exists s, stations !! i = Some s /\ powered_up (millis i) p s n) ->
  exists cs, line_config cs /\ line_ok cs start /\
    forall i n, start !! i = Some n -> nd_taken n = None /\ nd_tx n = None /\
      (__is_primary_station (handle (nd_world n)) = true -> has_marker (handle (nd_world n)) = true).
Proof.
  intros Hp Hinits Hdis Hstart. rewrite Forall_lookup in Hinits. rewrite NoDup_alt in Hdis.
  set (own := fun n => (config_of (q_mtu (fd_i_queue (handle (nd_world n)))) (handle (nd_world n)),
                        pi_addr <$> fd_peers (handle (nd_world n)))).
  assert (Hnode : forall i n, start !! i = Some n -> exists s c addrs, stations !! i = Some s /\ own n = (c, addrs) /\
    c_addr c = station_address (fst s) /\ line_station c addrs /\ node_ok c addrs n /\
    has_marker (handle (nd_world n)) = __is_primary_address (c_addr c) /\ nd_inbox n = []).
  { intros i n Hi. destruct (Hstart i n Hi) as (s & Hs & hdlc & h & Hinit & ->).
    destruct (Hinits i s Hs) as [Hargs Hmode]. destruct (fd_init_spec p (fst s) hdlc h Hp Hargs Hinit) as (mtu & Hin).
    destruct (started_line_station (fst s) mtu hdlc h Hargs Hmode Hin (millis i) (snd s) (mk_app [] [])) as (Hst & Hn & Hm).
    set (w := register_all _ _ _) in *. pose proof (started_address _ _ _ _ Hin) as Ea.
    exists s, (config_of mtu h), (pi_addr <$> fd_peers (handle w)). split; [done|]. split.
    - unfold own. cbn [nd_world]. f_equal. pose proof (no_wf _ _ _ Hn) as [Hi0 Hs0 _ _ Hcount _ Haddr Hm0 _ _ _].
      cbn [nd_world] in *. unfold config_of in *. cbn in *.
      by rewrite (qw_addrs _ _ _ _ _ Hi0), (qw_addrs _ _ _ _ _ Hs0), (qw_mtu _ _ _ _ _ Hi0), Hcount, Haddr, Hm0.
    - split_and!; try done. cbn [nd_world]. rewrite Hm. cbn. by rewrite Ea. }
  exists (own <$> start).
  assert (Hcs : forall i c addrs, (own <$> start) !! i = Some (c, addrs) -> exists s n, stations !! i = Some s /\ start !! i = Some n /\
    c_addr c = station_address (fst s) /\ line_station c addrs /\ node_ok c addrs n).
  { intros i c addrs. rewrite list_lookup_fmap, fmap_Some. intros (n & Hi & E).
    destruct (Hnode i n Hi) as (s & c' & a' & Hs & E' & H1 & H2 & H3 & _). rewrite E' in E. injection E as -> ->. by exists s, n. }
  assert (Hsame : forall i j c d a b, (own <$> start) !! i = Some (c, a) -> (own <$> start) !! j = Some (d, b) ->
    c_addr c = c_addr d -> i = j).
  { intros i j c d a b Hi Hj E. destruct (Hcs i c a Hi) as (s & _ & Hs & _ & Es & _), (Hcs j d b Hj) as (t & _ & Ht & _ & Et & _).
    apply (Hdis i j (station_address (fst s))); rewrite list_lookup_fmap; [by rewrite Hs|rewrite Ht; cbn; by rewrite <- Et, <- E, Es]. }
  assert (Hprim : forall i j c d a b, (own <$> start) !! i = Some (c, a) -> (own <$> start) !! j = Some (d, b) ->
    __is_primary_address (c_addr c) = true -> __is_primary_address (c_addr d) = true -> i = j).
  { intros i j c d a b Hi Hj Hp1 Hp2. destruct (Hcs i c a Hi) as (s & _ & Hs & _ & Es & Hst & _), (Hcs j d b Hj) as (t & _ & Ht & _ & Et & Hst' & _).
    apply (Hsame i j c d a b Hi Hj). unfold __is_primary_address in Hp1, Hp2.
    rewrite (ls_own _ _ Hst) in Hp1. rewrite (ls_own _ _ Hst') in Hp2. apply Z.eqb_eq in Hp1, Hp2. congruence. }
  split; [split; [|exact Hprim|exact Hsame]|split; [split|]].
  - intros i c addrs Hi. by destruct (Hcs i c addrs Hi) as (_ & _ & _ & _ & _ & ? & _).
  - intros i n Hi. destruct (Hnode i n Hi) as (s & c & a & _ & E & _ & _ & H & _). exists c, a.
    split; [by rewrite list_lookup_fmap, Hi; cbn; rewrite E|done].
  - assert (Hcl : forall i n, start !! i = Some n -> claims n -> exists c a, (own <$> start) !! i = Some (c, a) /\ __is_primary_address (c_addr c) = true).
    { intros i n Hi. destruct (Hnode i n Hi) as (s & c & a & _ & E & _ & _ & _ & Hm & Hin). intros [H|(f & Hf & _)].
      - exists c, a. rewrite list_lookup_fmap, Hi. cbn. rewrite E. split; [done|]. by rewrite <- Hm.
      - rewrite Hin in Hf. by apply not_elem_of_nil in Hf. }
    intros i j n m Hi Hj Hn Hm. destruct (Hcl i n Hi Hn) as (c & a & Hc & Hp1), (Hcl j m Hj Hm) as (d & b & Hd & Hp2).
    by eapply Hprim.
  - intros i n Hi. destruct (Hnode i n Hi) as (s & c & a & _ & _ & _ & _ & Hno & Hm & _).
    destruct (Hstart i n Hi) as (? & _ & ? & ? & _ & ->). split_and!; [done|done|].
    unfold __is_primary_station. by rewrite (wf_addr _ _ _ (no_wf _ _ _ Hno)), Hm.
Qed.

(** ** Properties *)

(** C3: one talker at a time in normal response mode.  Set up any number of stations with
    [tiny_fd_init] (64-bit pointers, buffers aligned to eight bytes, CRC type not OFF) in normal
    response mode, with different addresses, and register any peers.
    Whatever packets the applications queue or disconnections they ask for, whenever
    each station looks for something to send, however long everything takes, whoever hears the frames and
    whoever misses them, and whenever they are read: in a run where nobody is late, at no
    time do two stations transmit or hold the right to; and a station that transmits holds the marker, with
    nothing left to read that is for it.  Nobody is late: whenever the primary has given the marker away
    and some station has it, a frame that brings it is still unread, or a frame for the
    primary is, less than its retry timeout has passed since it last took a frame to transmit. *)
Theorem tiny_fd_one_talker (offset : nat -> Z) (others : nat -> Z -> fd_world app -> fd_world app)
  (millis : nat -> nat -> Z) (p : layout) (stations : list (tiny_fd_init_t * list Z)) (t0 : Z) (start : list node) (l : line)
  (Hp : layout64 p)
  (Hinits : Forall (fun s => init_args (fst s) /\ it_mode (fst s) = TINY_FD_MODE_NRM) stations)
  (Hdistinct : NoDup ((fun s => station_address (fst s)) <$> stations))
  (Hstart : forall i n, start !! i = Some n -> exists s, stations !! i = Some s /\ powered_up (millis i) p s n)
  (Hrun : rtc (prompt_step offset others) (mk_line t0 start) l) :
  (forall i j n m, ln_nodes l !! i = Some n -> ln_nodes l !! j = Some m -> talks n -> talks m -> i = j) /\
  (forall i n, ln_nodes l !! i = Some n -> nd_tx n <> None ->
     has_marker (handle (nd_world n)) = true /\ Forall (deaf n) (nd_inbox n)).
Proof.
  destruct (power_up_ok millis p stations start Hp Hinits Hdistinct Hstart) as (cs & Hcs & Hok & Hfresh).
  assert (Ht : line_timed offset (mk_line t0 start)).
  { intros i n Hi. destruct (Hfresh i n Hi) as (E1 & E2 & E3). split; rewrite ?E1, ?E2; [done|done|].
    intros Hpr Hm. by rewrite E3 in Hm. }
  pose proof (line_run_ok offset others cs Hcs (mk_line t0 start) l Hok Ht Hrun) as Hok'.
  assert (Htx : forall i n, ln_nodes l !! i = Some n -> nd_tx n <> None -> has_marker (handle (nd_world n)) = true).
  { intros i n Hi Hn. destruct (lo_nodes _ _ Hok' i n Hi) as (c & a & _ & H).
    destruct (nd_tx n) as [[header frame]|] eqn:E; [|done]. by destruct (no_tx _ _ _ H header frame E). }
  split.
  - intros i j n m Hi Hj Hn Hm. apply (lo_sole _ _ Hok' i j n m Hi Hj); left.
    + destruct Hn as [Hn|Hn]; [by eapply Htx|done].
    + destruct Hm as [Hm|Hm]; [by eapply Htx|done].
  - intros i n Hi Hn. pose proof (Htx i n Hi Hn) as Hm. split; [done|].
    destruct (lo_nodes _ _ Hok' i n Hi) as (c & a & _ & H). by apply (no_holder _ _ _ H).
Qed.

(** *** A primary with two secondaries *)

Definition nrm_init (addr peers : Z) : tiny_fd_init_t :=
  sample_fd_init <| it_mode := TINY_FD_MODE_NRM |> <| it_addr := addr |> <| it_peers_count := peers |>
    <| it_buffer_size := 2048 |>.

Definition nrm_stations : list (tiny_fd_init_t * list Z) := [(nrm_init 0 2, [1; 2]); (nrm_init 1 1, []); (nrm_init 2 1, [])].

Definition nrm_node (s : tiny_fd_init_t * list Z) : node :=
  match tiny_fd_init layout_64 (fst s) with
  | (_, Some (_, h)) => mk_node (register_all stopped_clock (snd s) (mk_fd_world h 0 (mk_app [] []))) None [] None
  | (_, None) => mk_node (mk_fd_world sample_primary 0 (mk_app [] [])) None [] None
  end.

Definition nrm_start : list node := nrm_node <$> nrm_stations.

Definition fresh_locals : tx_locals := mk_tx_locals 0 true false [].

(** Clocks that show the time of the line. *)
Definition on_time : nat -> Z := fun _ => 0.

Definition idle_line : nat -> Z -> fd_world app -> fd_world app := fun _ => idle_others.

(** One look for something to send, with the frame it starts. *)
Definition poll_node (now : Z) (i : nat) (n : node) : node :=
  let '(r, _, (hdlc, w)) := get_tx_data_idle (reading on_time now i) idle_others app_callbacks
    (fd_next_peer (handle (nd_world n))) 0 fresh_locals (zero_hdlc, nd_world n) in
  n <| nd_world := w |>
    <| nd_tx := match r with
                | Continue => Some (tx_origin_data hdlc, mem_range (fd_mem (handle w)) (tx_origin_data hdlc) (Z.to_nat (tx_len hdlc)))
                | _ => None end |>
    <| nd_taken := match r with Continue => Some now | _ => nd_taken n end |>.

(** Time passes; a station looks for something to send; its transmission ends, heard by all or by none; it
    reads a frame. *)
Inductive line_move : Type := MoveTick (d : Z) | MovePoll (i : nat) | MoveEnd (i : nat) (heard : bool) | MoveRead (i : nat).

Definition move_nodes (now : Z) (nodes : list node) (m : line_move) : list node :=
  match m with
  | MoveTick _ => nodes
  | MovePoll i => alter (poll_node now i) i nodes
  | MoveEnd i heard =>
      match nodes !! i with
      | Some n =>
          match nd_tx n with
          | Some (header, frame) =>
              let mem := fd_mem (handle (nd_world n)) in
              imap (after_end i (on_frame_send header [mem header; mem (header + 1)] (nd_world n)) (fun _ => heard) frame) nodes
          | None => nodes
          end
      | None => nodes
      end
  | MoveRead i =>
      alter (fun n => match nd_inbox n with
                      | frame :: rest => n <| nd_world := on_frame_read (reading on_time now i) app_callbacks frame (nd_world n) |> <| nd_inbox := rest |>
                      | [] => n end) i nodes
  end.

Definition line_move_run (l : line) (m : line_move) : line :=
  mk_line (ln_now l + match m with MoveTick d => d | _ => 0 end) (move_nodes (ln_now l) (ln_nodes l) m).

Definition line_move_ok (l : line) (m : line_move) : bool :=
  match m with
  | MoveTick d => 0 <=? d
  | MovePoll i => match ln_nodes l !! i with Some n => bool_decide (nd_tx n = None) | None => false end
  | MoveEnd _ _ => true
  | MoveRead i => match ln_nodes l !! i with
                  | Some n => match nd_inbox n with [] => false | _ :: _ => true end
                  | None => false end
  end.

(** Deciding whether somebody is late. *)
Definition claims_b (n : node) : bool :=
  has_marker (handle (nd_world n)) || existsb (fun f => accepts (handle (nd_world n)) f && final f) (nd_inbox n).

Definition turn_lasts_b (nodes : list node) (n : node) : bool :=
  existsb claims_b nodes || existsb (accepts (handle (nd_world n))) (nd_inbox n).

Definition prompt_b (l : line) : bool :=
  forallb (fun n =>
    implb (__is_primary_station (handle (nd_world n)) && negb (has_marker (handle (nd_world n))) && turn_lasts_b (ln_nodes l) n)
      (match nd_taken n with Some t => ln_now l <? t + fd_retry_timeout (handle (nd_world n)) | None => true end)) (ln_nodes l).

Lemma claims_b_spec n : claims_b n = true <-> claims n.
Proof.
  unfold claims_b, claims. rewrite orb_true_iff, existsb_exists. split; (intros [H|(f & Hf & H)]; [by left|right; exists f]).
  - apply andb_true_iff in H. by rewrite list_elem_of_In.
  - rewrite <- list_elem_of_In. split; [done|]. by apply andb_true_iff.
Qed.

Lemma turn_lasts_b_spec nodes n : turn_lasts_b nodes n = true <-> turn_lasts nodes n.
Proof.
  unfold turn_lasts_b, turn_lasts. rewrite orb_true_iff, !existsb_exists.
  split; (intros [(x & Hx & H)|(x & Hx & H)]; [left|right]; exists x).
  - split; [by apply list_elem_of_In|by apply claims_b_spec].
  - split; [by apply list_elem_of_In|done].
  - split; [by apply list_elem_of_In|by apply claims_b_spec].
  - split; [by apply list_elem_of_In|done].
Qed.

Lemma prompt_b_spec l : prompt_b l = true <-> prompt l.
Proof.
  unfold prompt_b, prompt. rewrite forallb_forall. split; intros H n.
  - intros t Hn Hp Hm Ht Hl%turn_lasts_b_spec. specialize (H n (proj1 (list_elem_of_In _ _) Hn)).
    rewrite Hp, Hm, Hl, Ht in H. by apply Z.ltb_lt.
  - intros Hn%list_elem_of_In. destruct (__is_primary_station _) eqn:Hp; [|done].
    destruct (has_marker _) eqn:Hm; [done|]. destruct (turn_lasts_b _ _) eqn:Hl; [|done].
    apply turn_lasts_b_spec in Hl. destruct (nd_taken n) as [t|] eqn:Ht; [|done]. apply Z.ltb_lt. by apply (H n t).
Qed.

Fixpoint line_moves_ok (ok : line -> bool) (l : line) (ms : list line_move) : bool :=
  match ms with
  | [] => true
  | m :: ms => ok l && line_move_ok l m && line_moves_ok ok (line_move_run l m) ms
  end.

Lemma line_move_step l m : line_move_ok l m = true -> line_step on_time idle_line l (line_move_run l m) \/ line_move_run l m = l.
Proof.
  destruct l as [now nodes], m as [d|i|i heard|i]; unfold line_move_run; cbn [line_move_ok ln_nodes ln_now move_nodes]; rewrite ?Z.add_0_r.
  - intros Hd%Z.leb_le. left. by constructor.
  - destruct (nodes !! i) as [n|] eqn:Hi; [|done]. intros Htx%bool_decide_eq_true. left.
    assert (alter (poll_node now i) i nodes = <[i := poll_node now i n]> nodes) as ->.
    { apply list_eq. intros j. destruct (decide (i = j)) as [<-|Hne].
      - rewrite list_lookup_alter_eq, Hi. symmetry. apply list_lookup_insert_eq. by eapply lookup_lt_Some.
      - by rewrite list_lookup_alter_ne, list_lookup_insert_ne. }
    unfold poll_node. destruct (get_tx_data_idle _ _ _ _ _ _ _) as [[r l'] [hdlc w]] eqn:E.
    eapply LinePoll; [done|done| |exact E]. by split.
  - intros _. destruct (nodes !! i) as [n|] eqn:Hi; [|by right]. destruct (nd_tx n) as [[header frame]|] eqn:Htx; [|by right].
    left. by eapply (LineEnd _ _ now nodes i n header frame).
  - destruct (nodes !! i) as [n|] eqn:Hi; [|done]. destruct (nd_inbox n) as [|frame rest] eqn:Hin; [done|]. intros _. left.
    match goal with |- line_step _ _ _ (mk_line _ ?x) => assert (x = <[i := n <| nd_world := on_frame_read (reading on_time now i) app_callbacks frame (nd_world n) |>
        <| nd_inbox := rest |>]> nodes) as -> end; [|by eapply (LineRead _ _ now nodes i n frame rest)].
    apply list_eq. intros j. destruct (decide (i = j)) as [<-|Hne].
    + rewrite list_lookup_alter_eq, Hi. cbn. rewrite Hin. symmetry. apply list_lookup_insert_eq. by eapply lookup_lt_Some.
    + by rewrite list_lookup_alter_ne, list_lookup_insert_ne.
Qed.

Lemma line_moves_run l ms : line_moves_ok (fun _ => true) l ms = true ->
  rtc (line_step on_time idle_line) l (foldl line_move_run l ms).
Proof.
  revert l. induction ms as [|m ms IH]; intros l; cbn [line_moves_ok foldl]; [done|].
  intros [H1 H2]%andb_true_iff. specialize (IH _ H2).
  destruct (line_move_step l m H1) as [H|E]; [|by rewrite E in IH |- *].
  etrans; [by apply rtc_once|done].
Qed.

Lemma prompt_moves_run l ms : line_moves_ok prompt_b l ms = true ->
  rtc (prompt_step on_time idle_line) l (foldl line_move_run l ms).
Proof.
  revert l. induction ms as [|m ms IH]; intros l; cbn [line_moves_ok foldl]; [done|].
  intros [[H0%prompt_b_spec H1]%andb_true_iff H2]%andb_true_iff. specialize (IH _ H2).
  destruct (line_move_step l m H1) as [H|E]; [|by rewrite E in IH |- *].
  etrans; [by apply rtc_once|done].
Qed.

(** The primary asks the first secondary for a connection and nobody hears it; 200 ms later it takes the
    marker back and asks the second; that one answers; the primary goes on to the first. *)
Definition nrm_moves : list line_move :=
  [MovePoll 0; MoveTick 5; MoveEnd 0 false; MoveTick 200; MovePoll 0; MovePoll 0; MoveTick 5; MoveEnd 0 true;
   MoveTick 50; MoveRead 2; MovePoll 2; MoveTick 5; MoveEnd 2 true; MoveRead 0; MovePoll 0].

Definition nrm_line : line := foldl line_move_run (mk_line 0 nrm_start) nrm_moves.

(** The secondary takes 200 ms to answer. *)
Definition late_moves : list line_move :=
  [MovePoll 0; MoveTick 5; MoveEnd 0 true; MoveRead 1; MoveTick 200; MovePoll 1; MovePoll 0; MovePoll 0].

Definition late_line : line := foldl line_move_run (mk_line 0 nrm_start) late_moves.

Lemma nrm_stations_ok : Forall (fun s => init_args (fst s) /\ it_mode (fst s) = TINY_FD_MODE_NRM) nrm_stations.
Proof. by repeat constructor. Qed.

Lemma nrm_start_ok i n : nrm_start !! i = Some n ->
  exists s, nrm_stations !! i = Some s /\ powered_up stopped_clock layout_64 s n.
Proof.
  unfold nrm_start. rewrite list_lookup_fmap, fmap_Some. intros (s & Hs & ->). exists s. split; [done|].
  assert (Hall : forallb (fun s => match tiny_fd_init layout_64 (fst s) with
                                   | (r, Some _) => r =? TINY_SUCCESS | (_, None) => false end) nrm_stations = true)
    by by vm_compute.
  rewrite forallb_forall in Hall. specialize (Hall s). unfold powered_up, nrm_node.
  destruct (tiny_fd_init layout_64 (fst s)) as [r [[hdlc h]|]].
  - exists hdlc, h. split; [|done]. f_equal. apply Z.eqb_eq, Hall. by eapply list_elem_of_In, list_elem_of_lookup_2.
  - assert (false = true) by (apply Hall; by eapply list_elem_of_In, list_elem_of_lookup_2). done.
Qed.

Lemma tiny_fd_one_talker_witness :
  (forall i j n m, ln_nodes nrm_line !! i = Some n -> ln_nodes nrm_line !! j = Some m -> talks n -> talks m -> i = j) /\
  ((fun n => bool_decide (nd_tx n = None)) <$> ln_nodes nrm_line) = [false; true; true].
Proof.
  split; [|by vm_compute].
  apply (tiny_fd_one_talker on_time idle_line (fun _ => stopped_clock) layout_64 nrm_stations 0 nrm_start nrm_line).
  - exact layout_64_ok.
  - exact nrm_stations_ok.
  - by apply (bool_decide_unpack _); vm_compute.
  - exact nrm_start_ok.
  - apply prompt_moves_run. vm_compute. reflexivity.
Defined.

(** A secondary that is late: the primary takes the marker back while the answer is under way, and then both
    transmit. *)
Lemma tiny_fd_late_two_talkers :
  rtc (line_step on_time idle_line) (mk_line 0 nrm_start) late_line /\
  exists n m, ln_nodes late_line !! 0%nat = Some n /\ ln_nodes late_line !! 1%nat = Some m /\
    nd_tx n <> None /\ nd_tx m <> None /\ has_marker (handle (nd_world n)) = true /\ has_marker (handle (nd_world m)) = true.
Proof.
  split; [by apply line_moves_run; vm_compute|].
  do 2 eexists. split; [vm_compute; reflexivity|]. split; [vm_compute; reflexivity|]. by split_and!; vm_compute.
Qed.
