(* ===== verification/FdPollStall.v ===== *)
(** * A primary that stops polling

    A primary in normal response mode serves its peers in turn, and goes on to the next when it has sent a
    frame with the P bit.  When it has nothing for the peer whose turn it is, it queues a
    frame to send; but the service queue has four slots for all peers, and frames for another
    peer stay in it until the turn of that peer comes.  Once they fill it, nothing can be queued for
    the peer whose turn it is, no frame is sent, and the turn never passes. *)

From S2P Require Import Prelude Crc HdlcLL HdlcSpec HdlcTx HdlcRx FdTypes FdQueue FdPeers FdIQueue FdLog.
From S2P Require Import FdService FdTx FdRx Fd FdApi FdInv FdSafe FdStation FdInit FdFifo FdSlots.
From S2P Require Import FdRun FdFlow FdConn FdMoves FdXmit FdE2E FdDelivery FdProgress FdWire.
From S2P Require Import FdMarker FdMarkerTx FdLine FdTalker.

(** What the choice of the next frame depends on, the window apart. *)
Record poll_view : Type := mk_poll_view {
  pv_marker : bool;
  pv_sending : bool;
  pv_mode : Z;
  pv_addr : Z;
  pv_turn : Z;
  pv_queue : tiny_fd_queue_t;
  pv_peer : Z;
  pv_state : tiny_fd_state_t
}.

Definition view (h : tiny_fd_data_t) : poll_view :=
  mk_poll_view (has_marker h) (nz (Z.land (fd_events h) FD_EVENT_TX_SENDING)) (fd_mode h) (fd_addr h) (fd_next_peer h)
    (fd_s_queue h) (pi_addr (peer_at h 0)) (pi_state (peer_at h 0)).

(** The primary has the marker and peer 0, which is not connected, has its turn; no slot of the service
    queue is free and none holds a frame for that peer. *)
Definition blocked (h : tiny_fd_data_t) : bool :=
  has_marker h && negb (nz (Z.land (fd_events h) FD_EVENT_TX_SENDING)) && (fd_mode h =? TINY_FD_MODE_NRM) &&
  __is_primary_station h && (fd_next_peer h =? 0) && negb (pi_addr (peer_at h 0) =? HDLC_INVALID_PEER_INDEX) &&
  (bool_decide (pi_state (peer_at h 0) = TINY_FD_STATE_DISCONNECTED) ||
   bool_decide (pi_state (peer_at h 0) = TINY_FD_STATE_CONNECTING)) &&
  (0 <=? q_lookup_index (fd_s_queue h)) && (q_lookup_index (fd_s_queue h) <? q_size (fd_s_queue h)) &&
  forallb (fun f => negb (slot_matches TINY_FD_QUEUE_FREE 0 0 f) &&
    negb (slot_matches (Z.lor TINY_FD_QUEUE_S_FRAME TINY_FD_QUEUE_U_FRAME) (__peer_to_address_field h 0) 0 f))
    (q_frames (fd_s_queue h)).

Lemma blocked_view h h' : view h' = view h -> blocked h' = blocked h.
Proof.
  intros [= E1 E2 E3 E4 E5 E6 E7 E8]. unfold blocked, __is_primary_station, __peer_to_address_field.
  by rewrite E1, E2, E3, E4, E5, E6, E7, E8.
Qed.

(** *** Observations *)

Lemma view_upd_peer i f h :
  (forall p, pi_addr (f p) = pi_addr p /\ pi_state (f p) = pi_state p) -> view (upd_peer i f h) = view h.
Proof.
  intros Hf. unfold view. assert (forall {A} (g : tiny_fd_peer_info_t -> A), (forall p, g (f p) = g p) ->
    g (peer_at (upd_peer i f h) 0) = g (peer_at h 0)) as Hat.
  { intros A g Hg. unfold peer_at, upd_peer. cbn. rewrite !nth_lookup. destruct (decide (Z.to_nat i = Z.to_nat 0)) as [->|Hne].
    - rewrite list_lookup_alter_eq. destruct (fd_peers h !! Z.to_nat 0); cbn; [apply Hg|done].
    - by rewrite list_lookup_alter_ne. }
  rewrite (Hat _ pi_addr), (Hat _ pi_state); [done|intros p; apply Hf..].
Qed.

Lemma view_events_set bits h :
  Z.land bits FD_EVENT_HAS_MARKER = 0 -> Z.land bits FD_EVENT_TX_SENDING = 0 -> view (fd_events_set bits h) = view h.
Proof.
  intros H1 H2. unfold view, has_marker. change (fd_events (fd_events_set bits h)) with (events_set bits (fd_events h)).
  by rewrite !nz_events_set.
Qed.

Lemma view_events_clear bits h :
  Z.land (Z.lxor bits EVENT_BITS_ALL) FD_EVENT_HAS_MARKER = FD_EVENT_HAS_MARKER ->
  Z.land (Z.lxor bits EVENT_BITS_ALL) FD_EVENT_TX_SENDING = FD_EVENT_TX_SENDING -> view (fd_events_clear bits h) = view h.
Proof.
  intros H1 H2. unfold view, has_marker.
  change (fd_events (fd_events_clear bits h)) with (events_clear bits (fd_events h)). by rewrite !nz_events_clear.
Qed.

#[local] Hint Extern 2 (Unseen view _) =>
  let h := fresh "h" in
  intros h; first [exact eq_refl | apply view_upd_peer; done | apply view_events_set; done
    | apply view_events_clear; done] : typeclass_instances.

Section Blocked.

Context {US : Type} (millis : nat -> Z) (others : Z -> fd_world US -> fd_world US) (cbs : fd_callbacks US).

Record blocked_spec (h : tiny_fd_data_t) : Prop := mk_blocked_spec {
  bs_marker : has_marker h = true;
  bs_sending : nz (Z.land (fd_events h) FD_EVENT_TX_SENDING) = false;
  bs_mode : fd_mode h = TINY_FD_MODE_NRM;
  bs_primary : __is_primary_station h = true;
  bs_turn : fd_next_peer h = 0;
  bs_peer : pi_addr (peer_at h 0) <> HDLC_INVALID_PEER_INDEX;
  bs_state : pi_state (peer_at h 0) = TINY_FD_STATE_DISCONNECTED \/ pi_state (peer_at h 0) = TINY_FD_STATE_CONNECTING;
  bs_full : forall type data, snd (__put_u_s_frame_to_tx_queue h type data) = h;
  bs_none : forall peer, tiny_fd_get_next_s_u_frame_to_send h peer (__peer_to_address_field h 0) = (None, h)
}.

Lemma blocked_iff h : blocked h = true -> blocked_spec h.
Proof using Type.
  unfold blocked. rewrite !andb_true_iff. intros [[[[[[[[[H1 H2] H3] H4] H5] H6] H7] H8] H9] Hs].
  apply negb_true_iff in H2, H6. apply Z.eqb_eq in H3, H5. apply Z.eqb_neq in H6. apply Z.leb_le in H8. apply Z.ltb_lt in H9.
  assert (Hl : 0 <= q_lookup_index (fd_s_queue h) < q_size (fd_s_queue h)) by lia.
  rewrite forallb_forall in Hs.
  assert (Hall : forall f, f ∈ q_frames (fd_s_queue h) -> slot_matches TINY_FD_QUEUE_FREE 0 0 f = false /\
    slot_matches (Z.lor TINY_FD_QUEUE_S_FRAME TINY_FD_QUEUE_U_FRAME) (__peer_to_address_field h 0) 0 f = false).
  { intros f Hf. apply list_elem_of_In, Hs, andb_true_iff in Hf as [A B]. by apply negb_true_iff in A, B. }
  split; try done.
  - apply orb_true_iff in H7 as [H7|H7]; apply bool_decide_eq_true in H7; auto.
  - intros type data. unfold __put_u_s_frame_to_tx_queue, tiny_fd_queue_allocate.
    rewrite (proj2 (get_next_None _ _ _ _ Hl)) by (apply Forall_forall; intros f Hf; by apply Hall).
    destruct (_ <=? _); by destruct h.
  - intros peer. unfold tiny_fd_get_next_s_u_frame_to_send.
    rewrite (proj2 (get_next_None _ _ _ _ Hl)); [done|]. apply Forall_forall. intros f Hf. by apply Hall.
Qed.

(** [handle->peers[0].state = TINY_FD_STATE_CONNECTING] *)
Lemma blocked_connecting h :
  blocked h = true -> blocked (upd_peer 0 (fun p => p <| pi_state := TINY_FD_STATE_CONNECTING |>) h) = true.
Proof using Type.
  intros Hb. rewrite <- Hb. unfold blocked, __is_primary_station, __peer_to_address_field, has_marker.
  pose proof Hb as Hst%blocked_iff%bs_state.
  set (h' := upd_peer 0 _ h).
  assert (Ha : pi_addr (peer_at h' 0) = pi_addr (peer_at h 0)).
  { unfold h'. by destruct (peer_at_any (fun p => p <| pi_state := TINY_FD_STATE_CONNECTING |>) h) as [->| ->]. }
  assert (Hs : pi_state (peer_at h' 0) = TINY_FD_STATE_CONNECTING \/ pi_state (peer_at h' 0) = pi_state (peer_at h 0)).
  { unfold h'. destruct (peer_at_any (fun p => p <| pi_state := TINY_FD_STATE_CONNECTING |>) h) as [->| ->]; auto. }
  rewrite Ha. change (fd_events h') with (fd_events h). change (fd_mode h') with (fd_mode h).
  change (fd_addr h') with (fd_addr h). change (fd_next_peer h') with (fd_next_peer h). change (fd_s_queue h') with (fd_s_queue h).
  do 3 f_equal. f_equal. destruct Hs as [->| ->]; [|done]. rewrite orb_true_r.
  by destruct Hst as [-> | ->]; rewrite ?orb_true_r.
Qed.

Lemma blocked_on f (w : fd_world US) : Unseen view f -> blocked (handle (on_handle f w)) = blocked (handle w).
Proof using Type. intros Hf. apply blocked_view, Hf. Qed.

Lemma blocked_timer (w : fd_world US) :
  blocked (handle w) = true -> blocked (handle (check_idle_timeout millis cbs 0 w)) = true.
Proof using Type.
  intros Hb. unfold check_idle_timeout.
  assert (bool_decide (pi_state (peer_at (handle w) 0) = TINY_FD_STATE_CONNECTED) ||
          bool_decide (pi_state (peer_at (handle w) 0) = TINY_FD_STATE_DISCONNECTING) = false) as ->.
  { by destruct (bs_state _ (blocked_iff _ Hb)) as [-> | ->]. }
  unfold tiny_fd_disconnected_check_idle_timeout. set (w0 := on_handle tiny_mutex_lock w).
  assert (H0 : blocked (handle w0) = true) by (unfold w0; by rewrite blocked_on by apply _). clearbody w0.
  unfold __time_passed_since_last_frame_received. cbn [time_since tiny_millis]. rewrite blocked_on by apply _.
  destruct (_ <=? _); [|done]. destruct (__is_primary_station _); [|done].
  rewrite blocked_on by apply _. change (handle (?x <| clock ::= S |>)) with (handle x).
  change (handle (on_handle ?f ?x)) with (f (handle x)). cbv beta. apply blocked_connecting.
  unfold put_u, put_u_s.
  match goal with |- context [handle (on_handle ?f ?x)] => change (handle (on_handle f x)) with (f (handle x)) end. cbv beta.
  match goal with |- context [snd (__put_u_s_frame_to_tx_queue ?h ?t ?d)] => by rewrite (bs_full h (blocked_iff h H0)) end.
Qed.

Lemma blocked_put_marker h : blocked h = true -> put_marker_frame 0 (__peer_to_address_field h 0) h = h.
Proof using Type.
  intros Hb. pose proof (bs_full _ (blocked_iff _ Hb)) as Hfull. unfold put_marker_frame, put_u_s.
  destruct (_ && _); apply Hfull.
Qed.

Lemma blocked_next (w : fd_world US) :
  blocked (handle w) = true ->
  exists w', tiny_fd_get_next_frame_to_send millis cbs 0 w = (None, w') /\ blocked (handle w') = true.
Proof using Type.
  intros Hb. unfold tiny_fd_get_next_frame_to_send. cbv zeta. set (w0 := on_handle tiny_mutex_lock w).
  assert (H0 : blocked (handle w0) = true) by (unfold w0; by rewrite blocked_on by apply _). clearbody w0.
  pose proof (blocked_iff _ H0) as []. rewrite bs_none0.
  assert (w0 <| handle := handle w0 |> = w0) as -> by (by destruct w0).
  unfold tiny_fd_get_next_i_frame.
  assert (bool_decide (pi_state (peer_at (handle w0) 0) = TINY_FD_STATE_DISCONNECTED) ||
          bool_decide (pi_state (peer_at (handle w0) 0) = TINY_FD_STATE_CONNECTING) = true) as ->.
  { by destruct bs_state0 as [-> | ->]. }
  cbv iota. rewrite bs_mode0. change (TINY_FD_MODE_NRM =? TINY_FD_MODE_NRM) with true. cbv iota.
  rewrite blocked_put_marker by done. rewrite bs_none0. cbv iota.
  eexists. split; [reflexivity|]. rewrite blocked_on by apply _. exact H0.
Qed.

(** A pass of the loop hands no frame over. *)
Lemma blocked_idle l hdlc (w : fd_world US) :
  blocked (handle w) = true ->
  exists w', blocked (handle w') = true /\
    get_tx_data_idle millis others cbs 0 0 l (hdlc, w) =
      ((if l_wait_point_passed l then Break (l_result l) else Generated 0 []), l <| l_wait_point_passed := true |>, (hdlc, w')).
Proof using Type.
  intros Hb. pose proof (blocked_iff _ Hb) as [Hmk _ _ _ _ Hpeer _ _ _]. unfold get_tx_data_idle.
  rewrite (proj2 (Z.eqb_neq _ _) Hpeer). pose proof (blocked_timer w Hb) as H0.
  set (w0 := check_idle_timeout millis cbs 0 w) in *. clearbody w0. clear Hmk Hpeer.
  destruct (l_wait_point_passed l) eqn:Hl. { exists w0. split; [done|]. destruct l. cbn in Hl. by rewrite Hl. }
  cbv zeta. unfold fd_events_wait. rewrite !wait_now. unfold tiny_events_poll at 1.
  pose proof (blocked_iff _ H0) as [Hmk _ Hmode Hprim _ _ _ _ _]. unfold has_marker in Hmk. rewrite Hmk.
  change (nz EVENT_BITS_LEAVE) with false. cbv iota. rewrite (nz_land _ _ Hmk). rewrite wait_now.
  assert (H1 : blocked (handle (snd (tiny_events_poll fd_events (fun v h => h <| fd_events := v |>)
     FD_EVENT_TX_DATA_AVAILABLE EVENT_BITS_CLEAR w0))) = true).
  { unfold tiny_events_poll. destruct (nz (Z.land (fd_events (handle w0)) FD_EVENT_TX_DATA_AVAILABLE)); [|done].
    change (nz EVENT_BITS_CLEAR) with true. cbv iota. cbn [snd].
    rewrite <- H0. apply blocked_view. by apply (view_events_clear FD_EVENT_TX_DATA_AVAILABLE). }
  destruct (tiny_events_poll _ _ _ _ w0) as [available w1]. cbn [snd] in H1.
  clear Hmk Hmode Hprim. pose proof (blocked_iff _ H1) as [_ _ Hmode _ _ _ _ _ _].
  rewrite Hmode. change (TINY_FD_MODE_NRM =? TINY_FD_MODE_NRM) with true. rewrite orb_true_r.
  destruct (blocked_next w1 H1) as (w2 & -> & H2). pose proof (blocked_iff _ H2) as [_ _ Hmode2 Hprim2 _ _ _ _ _].
  exists w2. split; [done|]. rewrite Hmode2. unfold __is_secondary_station. by rewrite Hprim2.
Qed.

Lemma blocked_loop fuel len l hdlc (w : fd_world US) :
  blocked (handle w) = true -> 0 < len -> l_result l = 0 -> l_wait_point_passed l = true \/ l_repeat l = true ->
  exists w', blocked (handle w') = true /\
    get_tx_data_loop millis others cbs (S fuel) 0 len 0 l (hdlc, w) =
      if l_wait_point_passed l then Some (0, l_out l, (hdlc, w'))
      else get_tx_data_loop millis others cbs fuel 0 len 0
             (mk_tx_locals 0 false true (l_out l)) (hdlc, w').
Proof using Type.
  intros Hb Hlen Hl Hrep. destruct (blocked_idle l hdlc w Hb) as (w' & Hw' & E). exists w'. split; [done|].
  cbn [get_tx_data_loop]. rewrite Hl, (proj2 (Z.ltb_lt 0 len)) by done.
  unfold get_tx_data_pass, fd_events_wait. cbn [fst snd]. rewrite wait_now.
  unfold tiny_events_poll at 1. rewrite (bs_sending _ (blocked_iff _ Hb)). change (nz 0) with false. cbv iota.
  rewrite E. destruct l as [res rep wait out]. cbn in Hl. subst res. cbn in *. destruct wait; [done|].
  destruct Hrep as [?| ->]; [done|]. transitivity (get_tx_data_loop millis others cbs fuel 0 len 0 (mk_tx_locals 0 false true (out ++ [])) (hdlc, w'));
    [done|by rewrite app_nil_r].
Qed.

(** A call that asks for bytes gets none. *)
Lemma blocked_get hdlc (w : fd_world US) len :
  blocked (handle w) = true ->
  exists w', tiny_fd_get_tx_data millis others cbs (hdlc, w) len 0 = (0, [], (hdlc, w')) /\ blocked (handle w') = true.
Proof using Type.
  intros Hb. unfold tiny_fd_get_tx_data. cbn [snd]. rewrite (bs_turn _ (blocked_iff _ Hb)).
  unfold get_tx_data_fuel. replace (2 * Z.to_nat len + 4)%nat with (S (S (2 * Z.to_nat len + 2))) by lia.
  destruct (Z.le_gt_cases len 0) as [Hlen|Hlen].
  { exists w. cbn [get_tx_data_loop l_result]. by rewrite (proj2 (Z.ltb_ge 0 len)). }
  destruct (blocked_loop (S (2 * Z.to_nat len + 2)) len (mk_tx_locals 0 true false []) hdlc w Hb) as (w1 & H1 & ->); [done|done|by right|].
  cbn [l_wait_point_passed l_out].
  destruct (blocked_loop (2 * Z.to_nat len + 2) len (mk_tx_locals 0 false true []) hdlc w1 H1) as (w2 & H2 & ->); [done|done|by left|].
  by exists w2.
Qed.

(** Queueing packets does not help. *)
Lemma blocked_send (w : fd_world US) address data :
  blocked (handle w) = true -> blocked (handle (snd (tiny_fd_send_packet_to millis others address data 0 w))) = true.
Proof using Type.
  intros Hb. unfold tiny_fd_send_packet_to. cbv zeta. set (peer := destination _ _). destruct (_ =? _); [done|].
  cbn [tiny_millis]. set (w0 := w <| clock ::= S |>).
  assert (H0 : blocked (handle w0) = true) by done. clearbody w0. destruct (_ <? _); [exact H0|].
  unfold peer_events_wait, fd_events_wait. rewrite wait_now.
  assert (H1 : blocked (handle (snd (tiny_events_poll (fun h => pi_events (peer_at h peer))
     (fun v => upd_peer peer (fun p => p <| pi_events := v |>)) FD_EVENT_CAN_ACCEPT_I_FRAMES EVENT_BITS_CLEAR w0))) = true).
  { unfold tiny_events_poll. destruct (nz (Z.land _ _)); [|done]. change (nz EVENT_BITS_CLEAR) with true. cbv iota. cbn [snd].
    rewrite <- H0. apply blocked_view. by apply (view_upd_peer peer). }
  destruct (tiny_events_poll _ _ _ _ w0) as [can w1]. cbn [snd] in H1. destruct (nz can); [|exact H1].
  unfold time_since. cbn [tiny_millis]. set (w2 := w1 <| clock ::= S |>).
  assert (H2 : blocked (handle w2) = true) by done. clearbody w2.
  match goal with |- context [if (u32 ?x <? 0) then ?y else 0] =>
    assert (Hnow : (if (u32 x <? 0) then y else 0) = 0) by
      (pose proof (fits_u32 x) as Hx; unfold fits in Hx; by rewrite (proj2 (Z.ltb_ge _ _)) by lia)
  end.
  rewrite Hnow, wait_now.
  assert (H3 : blocked (handle (snd (tiny_events_poll fd_events (fun v h => h <| fd_events := v |>)
     FD_EVENT_QUEUE_HAS_FREE_SLOTS EVENT_BITS_CLEAR w2))) = true).
  { unfold tiny_events_poll. destruct (nz (Z.land _ _)); [|done]. change (nz EVENT_BITS_CLEAR) with true. cbv iota. cbn [snd].
    rewrite <- H2. apply blocked_view. by apply (view_events_clear FD_EVENT_QUEUE_HAS_FREE_SLOTS). }
  destruct (tiny_events_poll _ _ _ _ w2) as [free w3]. cbn [snd] in H3. destruct (nz free); cycle 1.
  { cbn [snd]. by rewrite blocked_on by apply _. }
  set (w4 := on_handle tiny_mutex_lock w3).
  assert (H4 : blocked (handle w4) = true) by (unfold w4; by rewrite blocked_on by apply _). clearbody w4.
  assert (H5 : blocked (snd (__put_i_frame_to_tx_queue (handle w4) peer data)) = true).
  { unfold __put_i_frame_to_tx_queue. destruct (tiny_fd_queue_allocate _ _ data) as [[i|] q]; cbn [snd]; [|done].
    rewrite <- H4. apply blocked_view. rewrite view_events_set by done. unfold upd_control. by rewrite view_upd_peer. }
  destruct (__put_i_frame_to_tx_queue (handle w4) peer data) as [put h5]. cbn [snd] in H5.
  set (p := if put then _ else _).
  assert (H6 : blocked (handle (snd p)) = true).
  { unfold p. destruct put; [|exact H5]. destruct (tiny_fd_queue_has_free_slots _); [|exact H5].
    cbn [snd]. by rewrite blocked_on by apply _. }
  destruct p as [res w6]. cbn [snd] in *. rewrite blocked_on by apply _.
  destruct (negb _); [by rewrite blocked_on by apply _|done].
Qed.

End Blocked.

(** ** Properties *)

Section Calls.

Context {US : Type} (millis : nat -> Z) (others : Z -> fd_world US -> fd_world US) (cbs : fd_callbacks US).

(** A call of the channel driver or of the application. *)
Inductive fd_call : Type := CallGet (len : Z) | CallSendTo (address : Z) (data : list Z).

(** The bytes for the channel that calls produce, and the station after them. *)
Fixpoint run_calls (calls : list fd_call) (lw : hdlc_ll_data_t * fd_world US) : list Z * (hdlc_ll_data_t * fd_world US) :=
  match calls with
  | [] => ([], lw)
  | CallGet len :: calls =>
      let '(_, out, lw) := tiny_fd_get_tx_data millis others cbs lw len 0 in
      let '(rest, lw) := run_calls calls lw in (out ++ rest, lw)
  | CallSendTo address data :: calls =>
      run_calls calls (fst lw, snd (tiny_fd_send_packet_to millis others address data 0 (snd lw)))
  end.

End Calls.


(** *** How a primary gets there

    A primary with the peers 1 and 2; only station 2 answers.  After the connection has been
    made, station 2 queues four packets and sends them when it is polled; each is acknowledged with a
    frame of its own, which fill the queue of the primary, and it is the turn of peer 1. *)

(** Every reading of the clock is 20 ms after the one before. *)
Definition steady_clock (n : nat) : Z := 1000 + 20 * Z.of_nat n.

#[local] Abbreviation station := (hdlc_ll_data_t * fd_world app)%type.

Definition power_on (s : tiny_fd_init_t * list Z) : station :=
  match tiny_fd_init layout_64 (fst s) with
  | (_, Some (hdlc, h)) => (hdlc, register_all steady_clock (snd s) (mk_fd_world h 0 (mk_app [] [])))
  | (_, None) => (zero_hdlc, mk_fd_world sample_primary 0 (mk_app [] []))
  end.

(** [n] calls for bytes to send. *)
Definition speak (n : nat) : station -> list Z * station :=
  run_calls steady_clock idle_others app_callbacks (replicate n (CallGet 256)).

Definition hear (data : list Z) (lw : station) : station :=
  snd (tiny_fd_on_rx_data steady_clock app_callbacks lw data).

(** The primary is called [n] times, the secondary hears it and is called [k] times, the primary hears that. *)
Definition exchange (x : station * station) (nk : nat * nat) : station * station :=
  let '(a, p) := speak (fst nk) (fst x) in
  let '(b, s) := speak (snd nk) (hear a (snd x)) in
  (hear b p, s).

Definition four_packets (s : station) : station :=
  snd (run_calls steady_clock idle_others app_callbacks (CallSendTo 2 <$> [[1]; [2]; [3]; [4]]) s).

Definition stalled_line : station * station :=
  let x := foldl exchange (power_on (nrm_init 0 2, [1; 2]), power_on (nrm_init 2 1, []))
             [(6, 3); (1, 3); (1, 3); (1, 3); (1, 3); (1, 3)]%nat in
  exchange (fst x, four_packets (snd x)) (3, 4)%nat.

