(* ===== verification/PosixHal.v ===== *)
(** * Platform services on macOS and MinGW (src/hal/macos/macos_hal.inl, src/hal/mingw32/mingw32_hal.inl)

    Both use a POSIX mutex and condition variable as the Linux functions do (LinuxHal.v), and differ in
    the clocks: macOS takes the time with [gettimeofday], in microseconds, and counts its own
    milliseconds from the ticks of [mach_absolute_time]; MinGW has [long]s of 32 bits and counts
    microseconds with [QueryPerformanceCounter].  The theorems: on both, threads do what they do
    on Linux, so the functions act at one instant there too; the tick clocks are exact as long as
    their products fit, which on Windows is no longer than ten days. *)

From S2P Require Import Prelude Packet FdTypes Hal LinuxHal.

(** ** The mutex *)

Definition macos_mutex_create : bool := linux_mutex_create.
Definition macos_mutex_lock (mutex : bool) : option bool := linux_mutex_lock mutex.
Definition macos_mutex_try_lock (mutex : bool) : Z * bool :=
  let '(ret, mutex) := pthread_mutex_trylock mutex in (if ret =? 0 then 1 else 0, mutex).
Definition macos_mutex_unlock (mutex : bool) : bool := linux_mutex_unlock mutex.

Definition mingw_mutex_create : bool := linux_mutex_create.
Definition mingw_mutex_lock (mutex : bool) : option bool := linux_mutex_lock mutex.
Definition mingw_mutex_try_lock (mutex : bool) : Z * bool :=
  let '(ret, mutex) := pthread_mutex_trylock mutex in (if ret =? 0 then 1 else 0, mutex).
Definition mingw_mutex_unlock (mutex : bool) : bool := linux_mutex_unlock mutex.

(** ** Event groups *)

Definition macos_events_create : lshared := mk_lshared macos_mutex_create 0 0 0.
Definition mingw_events_create : lshared := mk_lshared mingw_mutex_create 0 0 0.

(** [struct timeval], and [gettimeofday] of the clock's time. *)
Record timeval : Type := mk_timeval { tv_secs : Z; tv_usec : Z }.

Definition gettimeofday (now : timespec) : timeval := mk_timeval (tv_sec now) (tv_nsec now / 1000).

Definition macos_deadline (timeout : Z) (tv : timeval) : timespec :=
  let ts := mk_timespec (tv_secs tv + timeout / 1000) (tv_usec tv * 1000 + (timeout mod 1000) * 1000000) in
  if 1000000000 <=? tv_nsec ts
  then ts <| tv_nsec ::= fun n => n - 1000000000 |> <| tv_sec ::= fun s => s + 1 |>
  else ts.

(** The mutex is taken, and the loop of LinuxHal.v begins: the three systems share its text. *)
Definition macos_events_wait (bits clear timeout : Z) : lprog :=
  LClock (fun now =>
    let ts := macos_deadline timeout (gettimeofday now) in
    LLock (LWaiters (fun n => u16 (n + 1)) (LLoop bits clear timeout ts))).

Definition macos_events_check_int (bits clear : Z) : lprog := macos_events_wait bits clear 0.
Definition macos_events_set (bits : Z) : lprog := linux_events_set bits.
Definition macos_events_clear (bits : Z) : lprog := linux_events_clear bits.

(** [tv_nsec] is a [long], which has 32 bits on Windows; the sums are made in 64 bits without
    sign. *)
Definition long (z : Z) : Z := signed (-2 ^ 31) 32 z.
Definition u64 (z : Z) : Z := z mod 2 ^ 64.

Definition mingw_deadline (timeout : Z) (ts : timespec) : timespec :=
  let ts := ts <| tv_sec ::= fun s => s + timeout / 1000 |> in
  let ts := ts <| tv_nsec ::= fun n => long (u64 (n + (timeout mod 1000) * 1000000)) |> in
  if 1000000000 <=? u64 (tv_nsec ts)
  then ts <| tv_nsec ::= fun n => long (u64 (n - 1000000000)) |> <| tv_sec ::= fun s => s + 1 |>
  else ts.

Definition mingw_events_wait (bits clear timeout : Z) : lprog :=
  LClock (fun now =>
    let ts := mingw_deadline timeout now in
    LLock (LWaiters (fun n => u16 (n + 1)) (LLoop bits clear timeout ts))).

Definition mingw_events_check_int (bits clear : Z) : lprog := mingw_events_wait bits clear 0.
Definition mingw_events_set (bits : Z) : lprog := linux_events_set bits.
Definition mingw_events_clear (bits : Z) : lprog := linux_events_clear bits.

Definition macos_code (o : events_op) : lprog :=
  match o with
  | EventsSet bits => macos_events_set bits
  | EventsClear bits => macos_events_clear bits
  | EventsCheckInt bits clear => macos_events_check_int bits clear
  | EventsWait bits clear timeout => macos_events_wait bits clear timeout
  end.

Definition mingw_code (o : events_op) : lprog :=
  match o with
  | EventsSet bits => mingw_events_set bits
  | EventsClear bits => mingw_events_clear bits
  | EventsCheckInt bits clear => mingw_events_check_int bits clear
  | EventsWait bits clear timeout => mingw_events_wait bits clear timeout
  end.

(** ** Sleeping and the clocks *)

(** The microseconds [usleep] is asked for. *)
Definition macos_sleep (millis : Z) : Z := u32 (millis * 1000).
Definition mingw_sleep (millis : Z) : Z := u32 (millis * 1000).

(** [LARGE_INTEGER], 64 bits with a sign. *)
Definition large (z : Z) : Z := signed (-2 ^ 63) 64 z.

(** The due time of the timer [tiny_sleep_us] waits for: negative is from now, in units of 100 ns. *)
Definition mingw_sleep_us (us : Z) : Z := - (10 * us).

(** [s_timebase_info], [s_start_time] and [initialized] *)
Record mach_timing : Type := mk_mach_timing {
  mt_numer : Z;
  mt_denom : Z;
  mt_start : Z;
  mt_initialized : bool
}.

(** [tiny_timing_init]: [numer] and [denom] are what [mach_timebase_info] gives, [now] is [mach_absolute_time]. *)
Definition tiny_timing_init (numer denom now : Z) (t : mach_timing) : mach_timing :=
  if mt_initialized t then t else mk_mach_timing numer denom now true.

Definition mach_nanos (t : mach_timing) (now : Z) : Z :=
  let elapsed := u64 (now - mt_start t) in u64 (elapsed * mt_numer t) / mt_denom t.

(** [now0] is the reading of the first call only, [now] that of every call. *)
Definition macos_millis (numer denom now0 now : Z) (t : mach_timing) : Z * mach_timing :=
  let t := tiny_timing_init numer denom now0 t in (u32 (mach_nanos t now / 1000000), t).

Definition macos_micros (numer denom now0 now : Z) (t : mach_timing) : Z * mach_timing :=
  let t := tiny_timing_init numer denom now0 t in (u32 (mach_nanos t now / 1000), t).

(** [counter] and [frequency] are those of the performance counter; a product that does not fit wraps
    around, as the compilers for Windows make it. *)
Definition mingw_micros (counter frequency : Z) : Z := u32 (Z.quot (large (counter * 1000000)) frequency).
Definition mingw_millis (ticks : Z) : Z := u32 ticks.

(** ** The same programs on another clock *)

Section Clocks.

(** The system's clock, and the one the functions of Linux would need to do the same. *)
Context (clock seen : nat -> timespec).

(** Both clocks agree when the deadline has passed. *)
Definition same_deadline (ts : timespec) : Prop :=
  forall n, (nanoseconds ts <=? nanoseconds (clock n)) = (nanoseconds ts <=? nanoseconds (seen n)).

(** The left program does on [clock] what the right one does on [seen]. *)
Inductive runs_as : lprog -> lprog -> Prop :=
| AsReturn r : runs_as (LReturn r) (LReturn r)
| AsLock k k' : runs_as k k' -> runs_as (LLock k) (LLock k')
| AsUnlock k k' : runs_as k k' -> runs_as (LUnlock k) (LUnlock k')
| AsLoad k k' : (forall b, runs_as (k b) (k' b)) -> runs_as (LLoad k) (LLoad k')
| AsStore v k k' : runs_as k k' -> runs_as (LStore v k) (LStore v k')
| AsWaiters f k k' : runs_as k k' -> runs_as (LWaiters f k) (LWaiters f k')
| AsClock k k' : (forall n, runs_as (k (clock n)) (k' (seen n))) -> runs_as (LClock k) (LClock k')
| AsBroadcast k k' : runs_as k k' -> runs_as (LBroadcast k) (LBroadcast k')
| AsLoop bits clear timeout ts : same_deadline ts -> runs_as (LLoop bits clear timeout ts) (LLoop bits clear timeout ts)
| AsCondWait bits clear timeout ts :
    same_deadline ts -> runs_as (LCondWait bits clear timeout ts) (LCondWait bits clear timeout ts)
| AsAsleep bits clear timeout ts :
    same_deadline ts -> runs_as (LAsleep bits clear timeout ts) (LAsleep bits clear timeout ts)
| AsWoken bits clear timeout ts res :
    same_deadline ts -> runs_as (LWoken bits clear timeout ts res) (LWoken bits clear timeout ts res).

Hint Constructors runs_as : core.

Lemma wait_end_as locked : runs_as (linux_wait_end locked) (linux_wait_end locked).
Proof using Type. unfold linux_wait_end. auto. Qed.

Lemma wait_found_as bits clear : runs_as (linux_wait_found bits clear) (linux_wait_found bits clear).
Proof using Type. unfold linux_wait_found. constructor. intros b. destruct (nz clear); auto using wait_end_as. Qed.

Lemma wait_loop_as bits clear timeout ts :
  same_deadline ts -> runs_as (linux_wait_loop bits clear timeout ts) (linux_wait_loop bits clear timeout ts).
Proof using Type. intros H. constructor. intros b. destruct (_ =? 0); auto using wait_found_as. Qed.

Lemma wait_woken_as bits clear timeout ts res :
  same_deadline ts -> runs_as (linux_wait_woken bits clear timeout ts res) (linux_wait_woken bits clear timeout ts res).
Proof using Type. intros H. unfold linux_wait_woken. destruct (res =? ETIMEDOUT); auto using wait_end_as. Qed.

Lemma events_set_as bits : runs_as (linux_events_set bits) (linux_events_set bits).
Proof using Type. unfold linux_events_set. auto 10. Qed.

Lemma events_clear_as bits : runs_as (linux_events_clear bits) (linux_events_clear bits).
Proof using Type. unfold linux_events_clear. auto 10. Qed.

Lemma runs_as_return p p' : runs_as p p' -> forall r, p = LReturn r <-> p' = LReturn r.
Proof using Type. by destruct 1. Qed.

(** One action or wake-up. *)
Lemma step_lprog_as c p p' s :
  runs_as p p' ->
  runs_as (fst (step_lprog clock c p s)) (fst (step_lprog seen c p' s)) /\
  snd (step_lprog clock c p s) = snd (step_lprog seen c p' s).
Proof using Type.
  intros Hp. pose proof Hp as H0. destruct Hp, c; cbn -[linux_wait_loop linux_wait_woken]; auto;
    try (split; [|done]; auto using wait_loop_as).
  - destruct (linux_mutex_lock _); auto.
  - rewrite H. destruct (_ && _); auto.
  - destruct (linux_mutex_lock _); cbn; auto using wait_woken_as.
Qed.

(** Threads that differ by their programs only. *)
Definition thread_as (t t' : thread lprog) : Prop :=
  th_todo t = th_todo t' /\ th_done t = th_done t' /\
  match th_now t, th_now t' with
  | Some (o, p), Some (o', p') => o = o' /\ runs_as p p'
  | None, None => True
  | _, _ => False
  end.

Definition system_as (y y' : system lshared lprog) : Prop :=
  sy_shared y = sy_shared y' /\ Forall2 thread_as (sy_threads y) (sy_threads y').

Context (code : events_op -> lprog).
Context (code_as : forall o, runs_as (code o) (linux_code o)).

Lemma step_lthread_as c t t' s :
  thread_as t t' ->
  thread_as (fst (step_lthread code clock c t s)) (fst (step_lthread linux_code seen c t' s)) /\
  snd (step_lthread code clock c t s) = snd (step_lthread linux_code seen c t' s).
Proof using code_as.
  destruct t as [now todo dn], t' as [now' todo' dn']. intros (Htodo & Hdone & Hnow). cbn in Htodo, Hdone, Hnow.
  subst todo' dn'. unfold step_lthread. cbn [th_now th_todo th_done].
  destruct now as [[o p]|], now' as [[o' p']|]; try done.
  - destruct Hnow as [<- Hp]. pose proof (step_lprog_as c p p' s Hp) as [H1 H2].
    destruct Hp; try (by split); destruct (step_lprog clock c _ s), (step_lprog seen c _ s); by split.
  - destruct todo as [|o todo]; by split.
Qed.

Lemma awaken_as t t' : thread_as t t' -> thread_as (awaken t) (awaken t').
Proof using Type.
  destruct t as [now todo dn], t' as [now' todo' dn']. intros (Htodo & Hdone & Hnow). cbn in Htodo, Hdone, Hnow.
  subst todo' dn'. unfold awaken. cbn [th_now]. destruct now as [[o p]|], now' as [[o' p']|]; try done.
  destruct Hnow as [<- Hp]. destruct Hp; split_and!; try done; cbn; auto.
Qed.

Lemma broadcasts_as c t t' : thread_as t t' -> broadcasts c t = broadcasts c t'.
Proof using Type.
  intros (_ & _ & Hnow). unfold broadcasts. destruct c; try done.
  destruct (th_now t) as [[o p]|], (th_now t') as [[o' p']|]; try done.
  destruct Hnow as [_ Hp]. by destruct Hp.
Qed.

Lemma step_lsystem_as y y' m :
  system_as y y' -> system_as (step_lsystem code clock y m) (step_lsystem linux_code seen y' m).
Proof using code_as.
  intros [Hs Ht]. destruct m as [i c]. unfold step_lsystem.
  rewrite <- Hs.
  destruct (sy_threads y !! i) as [t|] eqn:Hi.
  - destruct (Forall2_lookup_l _ _ _ _ _ Ht Hi) as (t' & Hi' & Htt). rewrite Hi'.
    pose proof (step_lthread_as c t t' (sy_shared y) Htt) as [H1 H2].
    destruct (step_lthread code clock c t _) as [t1 s1], (step_lthread linux_code seen c t' _) as [t1' s1'].
    cbn in H1, H2. subst s1'. rewrite <- (broadcasts_as c t t' Htt). split; [done|]. cbn.
    pose proof (Forall2_insert _ _ _ _ _ i Ht H1) as Hins. destruct (broadcasts c t); [|done].
    apply Forall2_fmap. eapply Forall2_impl; [done|]. intros u u'. apply awaken_as.
  - destruct (sy_threads y' !! i) as [t'|] eqn:Hi'; [|by split].
    destruct (Forall2_lookup_r _ _ _ _ _ Ht Hi') as (t & Hi'' & _). congruence.
Qed.

Lemma lrun_as y y' schedule :
  system_as y y' -> system_as (lrun code clock y schedule) (lrun linux_code seen y' schedule).
Proof using code_as.
  unfold lrun. revert y y'. induction schedule as [|m schedule IH]; intros y y' Hy; [done|].
  cbn. by apply IH, step_lsystem_as.
Qed.

Lemma lstart_as b0 calls : system_as (lstart b0 calls) (lstart b0 calls).
Proof using Type.
  split; [done|]. cbn. apply Forall2_fmap, Forall_Forall2_diag, Forall_forall. by intros todo _.
Qed.

(** What can be seen of the threads, and of the memory they share. *)
Lemma same_run b0 calls schedule :
  let y := lrun code clock (lstart b0 calls) schedule in
  let z := lrun linux_code seen (lstart b0 calls) schedule in
  sy_shared y = sy_shared z /\ th_done <$> sy_threads y = th_done <$> sy_threads z /\
  th_todo <$> sy_threads y = th_todo <$> sy_threads z.
Proof using code_as.
  intros y z. destruct (lrun_as _ _ schedule (lstart_as b0 calls)) as [Hs Ht]. fold y z in Hs, Ht.
  split; [done|]. clear Hs. clearbody y z.
  induction Ht as [|t t' l l' (Htodo & Hdone & _) _ [IH1 IH2]]; [done|]. cbn. split; congruence.
Qed.

End Clocks.

(** ** macOS *)

(** A clock in whole microseconds. *)
Definition micro (clock : nat -> timespec) (n : nat) : timespec :=
  mk_timespec (tv_sec (clock n)) (tv_nsec (clock n) / 1000 * 1000).

Lemma macos_deadline_micro timeout clock n :
  macos_deadline timeout (gettimeofday (clock n)) = add_timeout timeout (micro clock n).
Proof. reflexivity. Qed.

(** Whole microseconds have passed on a clock when they have on the clock in microseconds. *)
Lemma micro_deadline clock ts : nanoseconds ts mod 1000 = 0 -> same_deadline clock (micro clock) ts.
Proof.
  intros Hts n. unfold nanoseconds, micro in *. cbn.
  pose proof (Z.div_mod (tv_nsec (clock n)) 1000 ltac:(lia)).
  pose proof (Z.mod_pos_bound (tv_nsec (clock n)) 1000 ltac:(lia)).
  pose proof (Z.div_mod (tv_sec ts * 1000000000 + tv_nsec ts) 1000 ltac:(lia)).
  apply eq_true_iff_eq. rewrite !Z.leb_le. lia.
Qed.

Lemma add_timeout_micro timeout clock n : nanoseconds (add_timeout timeout (micro clock n)) mod 1000 = 0.
Proof.
  rewrite add_timeout_nanoseconds. unfold nanoseconds, micro. cbn.
  replace (_ + _) with ((tv_sec (clock n) * 1000000 + tv_nsec (clock n) / 1000 + timeout * 1000) * 1000) by lia.
  apply Z_mod_mult.
Qed.

Lemma macos_code_as clock o : runs_as clock (micro clock) (macos_code o) (linux_code o).
Proof.
  assert (Hwait : forall bits clear timeout,
            runs_as clock (micro clock) (macos_events_wait bits clear timeout) (linux_events_wait bits clear timeout)).
  { intros bits clear timeout. constructor. intros n. rewrite macos_deadline_micro.
    do 3 constructor. apply micro_deadline, add_timeout_micro. }
  destruct o; [apply events_set_as|apply events_clear_as|apply Hwait|apply Hwait].
Qed.

(** The event functions of macOS do what those of Linux do on a clock in whole
    microseconds: whatever calls any number of threads make, however their actions are interleaved
    and whenever they are woken, the memory, the calls made and their results are the same. *)
Theorem macos_events_as_linux (clock : nat -> timespec) (b0 : Z) (calls : list (list events_op))
  (schedule : list (nat * turn)) :
  let y := lrun macos_code clock (lstart b0 calls) schedule in
  let z := lrun linux_code (micro clock) (lstart b0 calls) schedule in
  sy_shared y = sy_shared z /\ th_done <$> sy_threads y = th_done <$> sy_threads z /\
  th_todo <$> sy_threads y = th_todo <$> sy_threads z.
Proof. apply same_run, macos_code_as. Qed.

(** Atomicity carries over, from the results of one system to those of another. *)
Lemma linearizable_transfer (clock : nat -> timespec) (b0 : Z) (calls : list (list events_op))
  (schedule : list (nat * turn)) (y : system lshared lprog) :
  let z := lrun linux_code clock (lstart b0 calls) schedule in
  sy_shared y = sy_shared z -> th_done <$> sy_threads y = th_done <$> sy_threads z ->
  exists h, history_run (atomic_linux clock) b0 h (ls_bits (sy_shared y)) /\
    forall i t, sy_threads y !! i = Some t ->
      exists cs pending, calls !! i = Some cs /\ of_thread i h = th_done t ++ pending /\
        (length pending <= 1)%nat /\ (fst <$> of_thread i h) `prefix_of` cs.
Proof.
  intros z Hs Hd. destruct (linux_events_linearizable clock b0 calls schedule) as (h & Hh & Ht).
  exists h. fold z in Hh, Ht. rewrite Hs. split; [done|]. intros i t Hi.
  assert (Hz : (th_done <$> sy_threads z) !! i = Some (th_done t)) by (rewrite <- Hd, list_lookup_fmap, Hi; done).
  rewrite list_lookup_fmap in Hz. apply fmap_Some in Hz as (t' & Hi' & ->). by apply Ht.
Qed.

(** The event functions of macOS are atomic, on the clock in microseconds: for any
    threads, interleaving and wake-ups the calls have taken effect one after the other, no update
    is lost, and a wait ends with 0 only when its time has passed between two readings of
    [gettimeofday]. *)
Theorem macos_events_linearizable (clock : nat -> timespec) (b0 : Z) (calls : list (list events_op))
  (schedule : list (nat * turn)) :
  let y := lrun macos_code clock (lstart b0 calls) schedule in
  exists h, history_run (atomic_linux (micro clock)) b0 h (ls_bits (sy_shared y)) /\
    forall i t, sy_threads y !! i = Some t ->
      exists cs pending, calls !! i = Some cs /\ of_thread i h = th_done t ++ pending /\
        (length pending <= 1)%nat /\ (fst <$> of_thread i h) `prefix_of` cs.
Proof.
  intros y. destruct (macos_events_as_linux clock b0 calls schedule) as (Hs & Hd & _).
  exact (linearizable_transfer (micro clock) b0 calls schedule _ Hs Hd).
Qed.

(** ** MinGW *)

Lemma mingw_deadline_eq timeout ts :
  0 <= tv_nsec ts < 1000000000 -> mingw_deadline timeout ts = add_timeout timeout ts.
Proof.
  intros Hn. pose proof (Z.mod_pos_bound timeout 1000 ltac:(lia)) as Hm.
  unfold mingw_deadline, add_timeout. red_upd.
  set (n := tv_nsec ts + timeout mod 1000 * 1000000) in *.
  assert (Hlong : forall z, 0 <= z < 2 ^ 31 -> long (u64 z) = z).
  { intros z Hz. unfold long, u64. rewrite Z.mod_small by lia. apply signed_id; lia. }
  assert (n < 1998999999 + 1 /\ 0 <= n) by (unfold n; lia).
  rewrite (Hlong n) by lia. assert (u64 n = n) as -> by (apply Z.mod_small; lia).
  destruct (Z.leb_spec 1000000000 n); [|done]. cbn. by rewrite (Hlong (n - 1000000000)) by lia.
Qed.

Lemma mingw_code_as clock o :
  (forall n, 0 <= tv_nsec (clock n) < 1000000000) -> runs_as clock clock (mingw_code o) (linux_code o).
Proof.
  intros Hclock.
  assert (Hwait : forall bits clear timeout,
            runs_as clock clock (mingw_events_wait bits clear timeout) (linux_events_wait bits clear timeout)).
  { intros bits clear timeout. constructor. intros n. rewrite mingw_deadline_eq by done. by do 3 constructor. }
  destruct o; [apply events_set_as|apply events_clear_as|apply Hwait|apply Hwait].
Qed.

(** So the 32 bits of a [long] are enough, and the functions of MinGW are atomic too. *)
Theorem mingw_events_linearizable (clock : nat -> timespec) (b0 : Z) (calls : list (list events_op))
  (schedule : list (nat * turn)) (Hclock : forall n, 0 <= tv_nsec (clock n) < 1000000000) :
  let y := lrun mingw_code clock (lstart b0 calls) schedule in
  exists h, history_run (atomic_linux clock) b0 h (ls_bits (sy_shared y)) /\
    forall i t, sy_threads y !! i = Some t ->
      exists cs pending, calls !! i = Some cs /\ of_thread i h = th_done t ++ pending /\
        (length pending <= 1)%nat /\ (fst <$> of_thread i h) `prefix_of` cs.
Proof.
  intros y. destruct (same_run clock clock mingw_code (fun o => mingw_code_as clock o Hclock) b0 calls schedule)
    as (Hs & Hd & _).
  exact (linearizable_transfer clock b0 calls schedule _ Hs Hd).
Qed.

(** ** The tick clocks *)

(** The clock of macOS is set going once, *)
Lemma tiny_timing_init_once numer denom now0 now1 t :
  tiny_timing_init numer denom now1 (tiny_timing_init numer denom now0 t) = tiny_timing_init numer denom now0 t.
Proof. unfold tiny_timing_init. by destruct (mt_initialized t) eqn:E; rewrite ?E. Qed.

(** and counts the milliseconds since then, as long as the product of ticks and numerator fits in 64 bits. *)
Theorem macos_millis_exact (numer denom now0 now start : Z) (t : mach_timing)
  (Ht : t = mk_mach_timing numer denom start true) (Hd : 0 < denom) (Hn : 0 < numer)
  (Hnow : start <= now) (Hfit : (now - start) * numer < 2 ^ 64) :
  macos_millis numer denom now0 now t = (u32 ((now - start) * numer / (denom * 1000000)), t) /\
  macos_micros numer denom now0 now t = (u32 ((now - start) * numer / (denom * 1000)), t).
Proof.
  subst t. unfold macos_millis, macos_micros, tiny_timing_init, mach_nanos. cbn [mt_initialized mt_start mt_numer mt_denom].
  assert (Hu : u64 (now - start) = now - start) by (apply Z.mod_small; nia).
  assert (Hv : u64 ((now - start) * numer) = (now - start) * numer) by (apply Z.mod_small; nia).
  by rewrite Hu, Hv, !Z.div_div by lia.
Qed.

(** The microseconds of Windows are right as long as a million times the counter fits in 63 bits. *)
Theorem mingw_micros_exact (counter frequency : Z)
  (Hf : 0 < frequency) (Hc : 0 <= counter) (Hfit : counter * 1000000 < 2 ^ 63) :
  mingw_micros counter frequency = u32 (counter * 1000000 / frequency).
Proof.
  unfold mingw_micros, large. rewrite signed_id by lia. by rewrite Z.quot_div_nonneg by lia.
Qed.

(** With the usual ten million ticks a second that is ten days and sixteen hours after the start
    of the system: then the clock jumps within one tick, by more than half an hour, although the number of
    microseconds is far from the end of 64 bits. *)
Lemma mingw_micros_jump :
  let frequency := 10000000 in let counter := 9223372036854 in
  (864000 * frequency < counter /\ counter < 950400 * frequency) /\
  mingw_micros counter frequency = 3214202341 /\ mingw_micros (counter + 1) frequency = 1080764955 /\
  u32 ((counter + 1) * 1000000 / frequency) = 3214202341.
Proof. by vm_compute. Qed.
