(* ===== verification/WinHal.v ===== *)
(** * Platform services on Windows (src/hal/win32/win32_hal.inl)

    Event groups on a critical section and a condition variable.  Inside the critical section a
    function runs alone; while it sleeps or waits to enter, other threads act, so these two calls
    of the system may change the group in any way.  The theorems: a wait ends, with the bits
    when one of those it waits for is set and otherwise only after its time, unless the timeout is infinite, no
    bit it waits for is set and nobody wakes it; a mutex whose owner died is taken by [tiny_mutex_try_lock], which reports that it was not. *)

From S2P Require Import Prelude Packet FdTypes Hal LinuxHal PosixHal.

(** ** Event groups *)

(** [tiny_events_t] *)
Record win32_events_t : Type := mk_win32_events { we_bits : Z; we_waiters : Z }.

#[export] Instance eta_win32_events : Eta win32_events_t := fun v => mk_win32_events (we_bits v) (we_waiters v).

Definition INFINITE : Z := 0xFFFFFFFF.
Definition WAIT_OBJECT_0 : Z := 0.
Definition WAIT_ABANDONED : Z := 0x80.
Definition WAIT_TIMEOUT : Z := 0x102.

(** The calls of the system on the environment [E], which holds the other threads: those
    that let the others run take the group and give it back as they leave it.  A thread that is never woken
    sleeps for ever: [None]. *)
Record windows (E : Type) : Type := mk_windows {
  EnterCriticalSection : win32_events_t -> E -> win32_events_t * E;
  SleepConditionVariableCS : Z -> win32_events_t -> E -> option (bool * win32_events_t * E);
  WakeAllConditionVariable : E -> E;
  LeaveCriticalSection : E -> E;
  GetTickCount : E -> Z * E;
  WaitForSingleObject : Z -> Z -> E -> Z * E;
  ReleaseMutex : Z -> E -> E
}.
Arguments EnterCriticalSection {E}.
Arguments SleepConditionVariableCS {E}.
Arguments WakeAllConditionVariable {E}.
Arguments LeaveCriticalSection {E}.
Arguments GetTickCount {E}.
Arguments WaitForSingleObject {E}.
Arguments ReleaseMutex {E}.

Definition win32_events_create : win32_events_t := mk_win32_events 0 0.

Section Functions.

Context {E : Type} (sys : windows E).

Definition win32_millis (e : E) : Z * E := GetTickCount sys e.

(** [timeout -= delta > timeout ? timeout : delta] *)
Definition less_delta (timeout delta : Z) : Z :=
  if timeout =? INFINITE then timeout else u32 (timeout - (if timeout <? delta then timeout else delta)).

(** How a call that may block ends: it returns; it sleeps for ever, on the group and the environment
    it went to sleep with; or the fuel has run out. *)
Inductive blocking : Type :=
| Returned (result : Z) (ev : win32_events_t) (e : E)
| Asleep (ev : win32_events_t) (e : E)
| OutOfFuel.

(** The loop of [tiny_events_wait]: it gives the value of [res]. *)
Fixpoint win32_wait_loop (fuel : nat) (bits timeout : Z) (ev : win32_events_t) (e : E) : blocking :=
  if negb (Z.land (we_bits ev) bits =? 0) then Returned 0 ev e else
  match fuel with
  | O => OutOfFuel
  | S fuel =>
      let '(start_ms, e) := win32_millis e in
      match SleepConditionVariableCS sys timeout ev e with
      | None => Asleep ev e
      | Some (woken, ev, e) =>
          if negb (timeout =? INFINITE) && negb woken then Returned 1 ev e else
          let '(now, e) := win32_millis e in
          let delta := u32 (now - start_ms) in
          win32_wait_loop fuel bits (less_delta timeout delta) ev e
      end
  end.

Definition win32_events_wait (fuel : nat) (bits clear timeout : Z) (ev : win32_events_t) (e : E) : blocking :=
  let '(ev, e) := EnterCriticalSection sys ev e in
  let ev := ev <| we_waiters ::= fun n => u16 (n + 1) |> in
  match win32_wait_loop fuel bits timeout ev e with
  | OutOfFuel => OutOfFuel
  | Asleep ev e => Asleep ev e
  | Returned res ev e =>
      let '(locked, ev) :=
        if negb (res =? 1)
        then (we_bits ev, if nz clear then ev <| we_bits ::= bits_without bits |> else ev)
        else (0, ev) in
      let ev := ev <| we_waiters ::= fun n => u16 (n - 1) |> in
      Returned locked ev (LeaveCriticalSection sys e)
  end.

Definition win32_events_check_int (fuel : nat) (bits clear : Z) (ev : win32_events_t) (e : E) : blocking :=
  win32_events_wait fuel bits clear 0 ev e.

Definition win32_events_set (bits : Z) (ev : win32_events_t) (e : E) : win32_events_t * E :=
  let '(ev, e) := EnterCriticalSection sys ev e in
  let ev := ev <| we_bits ::= fun b => u8 (Z.lor b bits) |> in
  let e := WakeAllConditionVariable sys e in
  (ev, LeaveCriticalSection sys e).

Definition win32_events_clear (bits : Z) (ev : win32_events_t) (e : E) : win32_events_t * E :=
  let '(ev, e) := EnterCriticalSection sys ev e in
  let ev := ev <| we_bits ::= bits_without bits |> in
  (ev, LeaveCriticalSection sys e).

(** ** Mutexes *)

(** A mutex is a handle of the system. *)
Definition win32_mutex_lock (mutex : Z) (e : E) : E := snd (WaitForSingleObject sys mutex INFINITE e).

Definition win32_mutex_try_lock (mutex : Z) (e : E) : Z * E :=
  let '(ret, e) := WaitForSingleObject sys mutex 0 e in (if ret =? WAIT_OBJECT_0 then 1 else 0, e).

Definition win32_mutex_unlock (mutex : Z) (e : E) : E := ReleaseMutex sys mutex e.

End Functions.

Arguments Returned {E}.
Arguments Asleep {E}.
Arguments OutOfFuel {E}.

(** ** Clocks and sleeping *)

Definition win32_sleep (millis : Z) : Z := millis.
Definition win32_sleep_us (us : Z) : Z := - (10 * us).
Definition win32_micros (counter frequency : Z) : Z := u32 (Z.quot (large (counter * 1000000)) frequency).

(** Both Windows variants count microseconds in the same way, and jump at the same time. *)
Lemma win32_micros_mingw counter frequency : win32_micros counter frequency = mingw_micros counter frequency.
Proof. reflexivity. Qed.

(** ** What Windows documents *)

(** [ticks] is the time in milliseconds, which does not go back; a sleep fails after its time
    only and never when that is [INFINITE], and lasts for ever only then; [wakeups] bounds the number of times a
    sleeper is woken. *)
Class SleepLaws {E} (sys : windows E) (ticks : E -> Z) (wakeups : E -> nat) : Prop := {
  law_ticks e : let '(now, e') := GetTickCount sys e in
    now = u32 (ticks e) /\ ticks e <= ticks e' /\ (wakeups e' <= wakeups e)%nat;
  law_enter ev e : let '(ev', e') := EnterCriticalSection sys ev e in
    ticks e <= ticks e' /\ (wakeups e' <= wakeups e)%nat;
  law_sleep timeout ev e :
    match SleepConditionVariableCS sys timeout ev e with
    | None => timeout = INFINITE
    | Some (woken, ev', e') =>
        ticks e <= ticks e' /\
        if woken then (wakeups e' < wakeups e)%nat else timeout <> INFINITE /\ ticks e + timeout <= ticks e'
    end;
  law_leave e : ticks e <= ticks (LeaveCriticalSection sys e)
}.

(** Whose a mutex is; waiting for an abandoned one takes it like any other. *)
Class MutexLaws {E} (sys : windows E) (me : nat) (owner : Z -> E -> option nat) : Prop := {
  law_wait mutex timeout e : let '(ret, e') := WaitForSingleObject sys mutex timeout e in
    (ret = WAIT_OBJECT_0 \/ ret = WAIT_ABANDONED) /\ owner mutex e' = Some me \/
    ret = WAIT_TIMEOUT /\ timeout <> INFINITE /\ owner mutex e' = owner mutex e
}.

Section Waiting.

Context {E : Type} (sys : windows E) (ticks : E -> Z) (wakeups : E -> nat).
Context `{!SleepLaws sys ticks wakeups}.

(** The time taken off the timeout is no more than has passed. *)
Lemma less_delta_bound timeout t0 t1 :
  fits 32 timeout -> timeout <> INFINITE -> t0 <= t1 ->
  let left := less_delta timeout (u32 (u32 t1 - u32 t0)) in
  fits 32 left /\ left <> INFINITE /\ timeout <= left + (t1 - t0).
Proof using Type.
  intros Ht Hne Hle. unfold less_delta. rewrite (proj2 (Z.eqb_neq _ _) Hne).
  assert (Hd : u32 (u32 t1 - u32 t0) = (t1 - t0) mod 2 ^ 32).
  { unfold u32. rewrite Zminus_mod_idemp_l, Zminus_mod_idemp_r. done. }
  rewrite Hd. pose proof (Z.mod_pos_bound (t1 - t0) (2 ^ 32) ltac:(lia)).
  pose proof (Z.mod_le (t1 - t0) (2 ^ 32) ltac:(lia) ltac:(lia)).
  unfold fits, INFINITE in *. destruct (Z.ltb_spec timeout ((t1 - t0) mod 2 ^ 32)); cbn zeta; rewrite u32_id; unfold fits; lia.
Qed.

Lemma less_delta_infinite delta : less_delta INFINITE delta = INFINITE.
Proof using Type. reflexivity. Qed.

(** How the loop ends. *)
Definition loop_end (bits timeout t0 res : Z) (ev : win32_events_t) (e : E) : Prop :=
  ticks e >= t0 /\
  (res = 0 /\ nz (Z.land (we_bits ev) bits) = true \/
   res = 1 /\ timeout <> INFINITE /\ t0 + timeout <= ticks e).

(** The thread sleeps for ever: its timeout is infinite, no bit it waits for was set when it went to
    sleep, and the sleep is one that nobody ends. *)
Definition never_woken (bits timeout : Z) (ev : win32_events_t) (e : E) : Prop :=
  timeout = INFINITE /\ Z.land (we_bits ev) bits = 0 /\ SleepConditionVariableCS sys INFINITE ev e = None.

Lemma win32_wait_loop_ends fuel bits timeout ev e :
  fits 32 timeout -> (wakeups e < fuel)%nat ->
  match win32_wait_loop sys fuel bits timeout ev e with
  | OutOfFuel => False
  | Asleep ev' e' => ticks e <= ticks e' /\ never_woken bits timeout ev' e'
  | Returned res ev' e' => loop_end bits timeout (ticks e) res ev' e'
  end.
Proof using SleepLaws0.
  revert timeout ev e. induction fuel as [|fuel IH]; intros timeout ev e Ht Hf; [lia|]. cbn [win32_wait_loop].
  destruct (Z.land (we_bits ev) bits =? 0) eqn:Hb; cbn [negb].
  2: { split; [lia|]. left. unfold nz. by rewrite Hb. }
  unfold win32_millis. pose proof (law_ticks e) as H1. destruct (GetTickCount sys e) as [start e1]. destruct H1 as (-> & H1 & W1).
  pose proof (law_sleep timeout ev e1) as H2.
  destruct (SleepConditionVariableCS sys timeout ev e1) as [[[woken ev2] e2]|] eqn:Hsleep; cycle 1.
  { split; [lia|]. apply Z.eqb_eq in Hb. subst timeout. by split_and!. }
  destruct H2 as [H2 Hw].
  destruct woken.
  2: { destruct Hw as [Hne Hlate]. rewrite (proj2 (Z.eqb_neq _ _) Hne). cbn [negb andb].
       split; [lia|]. right. split_and!; [done|done|lia]. }
  rewrite andb_false_r. pose proof (law_ticks e2) as H3. destruct (GetTickCount sys e2) as [now e3].
  destruct H3 as (-> & H3 & W3).
  destruct (decide (timeout = INFINITE)) as [->|Hne].
  - rewrite less_delta_infinite. specialize (IH INFINITE ev2 e3 Ht ltac:(lia)).
    destruct (win32_wait_loop sys fuel bits INFINITE ev2 e3) as [res ev' e'|ev' e'|]; [|destruct IH; split; [lia|done]|done].
    destruct IH as [Hle [?|(_ & ? & _)]]; [|done]. split; [lia|by left].
  - destruct (less_delta_bound timeout (ticks e) (ticks e2) Ht Hne ltac:(lia)) as (Hfit & Hne' & Hleft).
    specialize (IH _ ev2 e3 Hfit ltac:(lia)).
    destruct (win32_wait_loop sys fuel bits _ ev2 e3) as [res ev' e'|ev' e'|]; [|by destruct IH as [_ [? _]]|done].
    destruct IH as [Hle [?|(? & _ & ?)]]; (split; [lia|]); [by left|right]. split_and!; [done|done|lia].
Qed.

(** C40: a wait on Windows ends, as it should.  With more fuel than there are wake-ups the loop comes to
    its end.  It returns the bits there were when one of those it waits for was set, which are
    cleared if asked for and only they; or 0 and the bits as they were, when at least the
    timeout has passed since the call, however often the thread was woken, and never for a timeout
    of 0xFFFFFFFF.  The one other end is a thread that sleeps for ever: only with that
    timeout, only when none of the bits it waits for was set as it went to sleep, and only in a
    sleep that nobody ends. *)
Theorem win32_events_wait_ends (fuel : nat) (bits clear timeout : Z) (ev : win32_events_t) (e : E)
  (Ht : fits 32 timeout) (Hfuel : (wakeups e < fuel)%nat) :
  match win32_events_wait sys fuel bits clear timeout ev e with
  | OutOfFuel => False
  | Asleep ev' e' =>
      ticks e <= ticks e' /\ timeout = INFINITE /\ Z.land (we_bits ev') bits = 0 /\
      SleepConditionVariableCS sys INFINITE ev' e' = None
  | Returned r ev' e' =>
      ticks e <= ticks e' /\
      exists b, (r = b /\ nz (Z.land b bits) = true /\ we_bits ev' = (if nz clear then bits_without bits b else b)) \/
                (r = 0 /\ timeout <> INFINITE /\ ticks e + timeout <= ticks e' /\ we_bits ev' = b)
  end.
Proof using SleepLaws0.
  unfold win32_events_wait. pose proof (law_enter ev e) as H1.
  destruct (EnterCriticalSection sys ev e) as [ev1 e1]. destruct H1 as [H1 W1].
  set (ev2 := ev1 <| we_waiters ::= _ |>).
  pose proof (win32_wait_loop_ends fuel bits timeout ev2 e1 Ht ltac:(lia)) as H.
  destruct (win32_wait_loop sys fuel bits timeout ev2 e1) as [res ev3 e3|ev3 e3|]; [|destruct H; split; [lia|done]|done].
  destruct H as [Hle Hc]. pose proof (law_leave e3) as H4.
  destruct Hc as [[-> Hb]|(-> & Hne & Hlate)]; cbn; (split; [lia|]); exists (we_bits ev3).
  - left. split; [done|]. split; [done|]. by destruct (nz clear).
  - right. split_and!; [done|done|lia|done].
Qed.

End Waiting.

(** What [tiny_mutex_try_lock] tells: 1 means that the mutex is the thread's, but so can 0: a
    mutex whose owner ended without releasing it is taken and reported as not
    taken, and nobody will release it. *)
Theorem win32_mutex_try_lock_owner {E} (sys : windows E) (me : nat) (owner : Z -> E -> option nat)
  (Hm : MutexLaws sys me owner) (mutex : Z) (e : E) :
  let '(r, e') := win32_mutex_try_lock sys mutex e in
  (r = 1 /\ owner mutex e' = Some me) \/
  (r = 0 /\ (owner mutex e' = owner mutex e \/
             fst (WaitForSingleObject sys mutex 0 e) = WAIT_ABANDONED /\ owner mutex e' = Some me)).
Proof.
  unfold win32_mutex_try_lock. pose proof (law_wait (me := me) mutex 0 e) as H.
  destruct (WaitForSingleObject sys mutex 0 e) as [ret e'].
  destruct H as [[[-> | ->] Ho]|(-> & _ & Ho)]; cbn; auto.
Qed.

(** [tiny_mutex_lock] always takes the mutex. *)
Theorem win32_mutex_lock_owner {E} (sys : windows E) (me : nat) (owner : Z -> E -> option nat)
  (Hm : MutexLaws sys me owner) (mutex : Z) (e : E) :
  owner mutex (win32_mutex_lock sys mutex e) = Some me.
Proof.
  unfold win32_mutex_lock. pose proof (law_wait (me := me) mutex INFINITE e) as H.
  destruct (WaitForSingleObject sys mutex INFINITE e) as [ret e']. destruct H as [[_ Ho]|(_ & ? & _)]; done.
Qed.

(** ** A system *)

(** Time in milliseconds, and what happens to a sleeper, one entry for each sleep: the bits
    the others set before they wake it, and when. *)
Record sleep_env : Type := mk_sleep_env { se_now : Z; se_script : list (Z * Z); se_owner : option nat; se_abandoned : bool }.

#[export] Instance eta_sleep_env : Eta sleep_env := fun e =>
  mk_sleep_env (se_now e) (se_script e) (se_owner e) (se_abandoned e).

Definition demo_windows : windows sleep_env := {|
  EnterCriticalSection ev e := (ev, e);
  SleepConditionVariableCS timeout ev e :=
    match se_script e with
    | (after, b) :: script =>
        if negb (timeout =? INFINITE) && (timeout <? Z.max 0 after)
        then Some (false, ev, e <| se_now ::= Z.add (Z.max 0 timeout) |>)
        else Some (true, ev <| we_bits ::= Z.lor b |>, e <| se_now ::= Z.add (Z.max 0 after) |> <| se_script := script |>)
    | [] => if timeout =? INFINITE then None else Some (false, ev, e <| se_now ::= Z.add (Z.max 0 timeout) |>)
    end;
  WakeAllConditionVariable e := e;
  LeaveCriticalSection e := e;
  GetTickCount e := (u32 (se_now e), e);
  WaitForSingleObject _ timeout e :=
    if se_abandoned e then (WAIT_ABANDONED, e <| se_owner := Some 0%nat |> <| se_abandoned := false |>) else
    if (timeout =? INFINITE) || bool_decide (se_owner e = None)
    then (WAIT_OBJECT_0, e <| se_owner := Some 0%nat |>) else (WAIT_TIMEOUT, e);
  ReleaseMutex _ e := e <| se_owner := None |>
|}.

#[export] Instance demo_sleep_laws : SleepLaws demo_windows se_now (fun e => length (se_script e)).
Proof.
  split; cbn; try done.
  intros timeout ev e. destruct (se_script e) as [|[after b] script] eqn:Hs.
  - destruct (Z.eqb_spec timeout INFINITE); [done|]. cbn. lia.
  - destruct (Z.eqb_spec timeout INFINITE); cbn [negb andb].
    + cbn. split; lia.
    + destruct (timeout <? _); cbn; lia.
Qed.

#[export] Instance demo_mutex_laws : MutexLaws demo_windows 0 (fun _ => se_owner).
Proof.
  split. intros mutex timeout e. cbn. destruct (se_abandoned e); [left; cbn; auto|].
  destruct (Z.eqb_spec timeout INFINITE); cbn [orb]; [left; cbn; auto|].
  destruct (bool_decide (se_owner e = None)); [left; cbn; auto|right; auto].
Qed.

(** The bits a finished call leaves, and whether it came to its end. *)
Definition bits_left {E} (o : blocking (E := E)) : option Z :=
  match o with Returned _ ev _ | Asleep ev _ => Some (we_bits ev) | OutOfFuel => None end.

(** Woken after 30 ms for another bit, a thread goes on sleeping for what is left of its 100 ms; *)
Lemma win32_events_wait_ends_witness :
  let e := mk_sleep_env 4294967290 [(30, 2); (90, 1)] None false in
  bits_left (win32_events_wait demo_windows 3 1 1 100 win32_events_create e) = Some 2 /\
  match win32_events_wait demo_windows 3 1 1 100 win32_events_create e with
  | Returned r ev' e' =>
      4294967290 <= se_now e' /\
      exists b, (r = b /\ nz (Z.land b 1) = true /\ we_bits ev' = bits_without 1 b) \/
                (r = 0 /\ 100 <> INFINITE /\ 4294967290 + 100 <= se_now e' /\ we_bits ev' = b)
  | _ => False
  end.
Proof.
  intros e. split; [by vm_compute|].
  pose proof (win32_events_wait_ends demo_windows se_now (fun e => length (se_script e)) 3 1 1 100 win32_events_create e
    ltac:(unfold fits; lia) ltac:(cbn; lia)) as H.
  destruct (win32_events_wait demo_windows 3 1 1 100 win32_events_create e) as [r ev' e'|ev' e'|];
    [exact H|by destruct H as (_ & H & _)|exact H].
Defined.

(** one that waits without limit returns with a bit that is set, at once or when it is woken for it; *)
Lemma win32_wait_infinite_returns :
  bits_left (win32_events_wait demo_windows 1 1 1 INFINITE (mk_win32_events 3 0) (mk_sleep_env 0 [] None false)) = Some 2 /\
  match win32_events_wait demo_windows 3 1 0 INFINITE win32_events_create (mk_sleep_env 0 [(30, 2); (90, 1)] None false) with
  | Returned r ev e => r = 3 /\ se_now e = 120
  | _ => False
  end.
Proof. by vm_compute. Qed.

(** and sleeps for ever when only other bits are ever set; *)
Lemma win32_wait_infinite_sleeps :
  match win32_events_wait demo_windows 2 1 0 INFINITE win32_events_create (mk_sleep_env 0 [(30, 2)] None false) with
  | Asleep ev e => we_bits ev = 2 /\ se_now e = 30
  | _ => False
  end.
Proof. by vm_compute. Qed.

(** and a mutex left behind by a thread that ended is owned and reported as not taken. *)
Lemma win32_mutex_try_lock_abandoned :
  let '(r, e') := win32_mutex_try_lock demo_windows 5 (mk_sleep_env 0 [] (Some 3%nat) true) in
  r = 0 /\ se_owner e' = Some 0%nat.
Proof. by vm_compute. Qed.
