(* ===== verification/RtosHal.v ===== *)
(** * Platform services on FreeRTOS and ESP32 (src/hal/freertos/freertos_hal.inl, src/hal/esp32/esp32_hal.inl)

    The services of the kernel, which are parameters, called with times in ticks.  The two files have
    the same functions.  The theorems: what a wait returns are bits that were asked for, unlike
    on the other platforms; it may give up before its time, by less than a tick, so a
    wait for less than a tick does not wait at all; and 0xFFFFFFFF is for ever only when a tick is a
    millisecond. *)

From S2P Require Import Prelude FdTypes Hal LinuxHal.

Definition pdTRUE : Z := 1.
Definition pdFALSE : Z := 0.
Definition portMAX_DELAY : Z := 0xFFFFFFFF.

(** The calls of the kernel on the environment [E], which holds the other tasks, and
    [esp_timer_get_time].  A task that waits for ever gets no value. *)
Record freertos (E : Type) : Type := mk_freertos {
  portTICK_PERIOD_MS : Z;
  xSemaphoreTake : Z -> Z -> E -> Z * E;
  xSemaphoreGive : Z -> E -> E;
  xEventGroupWaitBits : Z -> Z -> Z -> Z -> Z -> E -> option (Z * E);
  xEventGroupSetBits : Z -> Z -> E -> E;
  xEventGroupClearBits : Z -> Z -> E -> E;
  vTaskDelay : Z -> E -> E;
  esp_timer_get_time : E -> Z * E
}.
Arguments portTICK_PERIOD_MS {E}.
Arguments xSemaphoreTake {E}.
Arguments xSemaphoreGive {E}.
Arguments xEventGroupWaitBits {E}.
Arguments xEventGroupSetBits {E}.
Arguments xEventGroupClearBits {E}.
Arguments vTaskDelay {E}.
Arguments esp_timer_get_time {E}.

Section Functions.

Context {E : Type} (os : freertos E).

Definition freertos_mutex_lock (mutex : Z) (e : E) : E := snd (xSemaphoreTake os mutex portMAX_DELAY e).

Definition freertos_mutex_try_lock (mutex : Z) (e : E) : Z * E :=
  let '(ret, e) := xSemaphoreTake os mutex 0 e in (if ret =? pdTRUE then 1 else 0, e).

Definition freertos_mutex_unlock (mutex : Z) (e : E) : E := xSemaphoreGive os mutex e.

(** The result is cut to [uint8_t]. *)
Definition freertos_events_wait (events bits clear timeout : Z) (e : E) : option (Z * E) :=
  match xEventGroupWaitBits os events bits (if nz clear then pdTRUE else pdFALSE) pdFALSE
          (timeout / portTICK_PERIOD_MS os) e with
  | Some (ret, e) => Some (u8 (Z.land ret bits), e)
  | None => None
  end.

Definition freertos_events_check_int (events bits clear : Z) (e : E) : option (Z * E) :=
  freertos_events_wait events bits clear 0 e.

Definition freertos_events_set (events bits : Z) (e : E) : E := xEventGroupSetBits os events bits e.
Definition freertos_events_clear (events bits : Z) (e : E) : E := xEventGroupClearBits os events bits e.

Definition freertos_sleep (millis : Z) (e : E) : E := vTaskDelay os (millis / portTICK_PERIOD_MS os) e.

Definition freertos_millis (e : E) : Z * E :=
  let '(us, e) := esp_timer_get_time os e in (u32 (Z.quot us 1000), e).

Definition freertos_micros (e : E) : Z * E :=
  let '(us, e) := esp_timer_get_time os e in (u32 us, e).

(** The loop of [tiny_sleep_us]; [None] when the fuel runs out. *)
Fixpoint freertos_spin (fuel : nat) (start us : Z) (e : E) : option E :=
  match fuel with
  | O => None
  | S fuel =>
      let '(now, e) := freertos_micros e in
      if u32 (now - start) <? us then freertos_spin fuel start us e else Some e
  end.

Definition freertos_sleep_us (fuel : nat) (us : Z) (e : E) : option E :=
  let '(start, e) := freertos_micros e in freertos_spin fuel start us e.

(** The functions of the ESP32. *)
Definition esp32_mutex_lock := freertos_mutex_lock.
Definition esp32_mutex_try_lock := freertos_mutex_try_lock.
Definition esp32_mutex_unlock := freertos_mutex_unlock.
Definition esp32_events_wait := freertos_events_wait.
Definition esp32_events_check_int := freertos_events_check_int.
Definition esp32_events_set := freertos_events_set.
Definition esp32_events_clear := freertos_events_clear.
Definition esp32_sleep := freertos_sleep.
Definition esp32_sleep_us := freertos_sleep_us.
Definition esp32_millis := freertos_millis.
Definition esp32_micros := freertos_micros.

End Functions.

(** ** What FreeRTOS documents *)

(** [group] gives the bits of an event group, [ticks] counts the ticks.  A wait for any of some bits returns
    the value the group had when one of them was set, before they are cleared if that was asked for; or
    the value when the time was over, none of them being set; only a wait for [portMAX_DELAY] may not return. *)
Class EventGroupLaws {E} (os : freertos E) (group : Z -> E -> Z) (ticks : E -> Z) : Prop := {
  law_period : 0 < portTICK_PERIOD_MS os;
  law_wait_bits events bits clear delay e :
    match xEventGroupWaitBits os events bits clear pdFALSE delay e with
    | None => delay = portMAX_DELAY
    | Some (v, e') =>
        nz (Z.land v bits) = true /\ group events e' = (if nz clear then Z.land v (Z.lnot bits) else v) \/
        Z.land v bits = 0 /\ group events e' = v /\ ticks e + delay <= ticks e' /\ delay <> portMAX_DELAY
    end;
  law_set_bits events bits e : group events (xEventGroupSetBits os events bits e) = Z.lor (group events e) bits;
  law_clear_bits events bits e :
    group events (xEventGroupClearBits os events bits e) = Z.land (group events e) (Z.lnot bits)
}.

(** [time] is the timer in microseconds; between two readings it goes on, by at most [step]. *)
Class TimerLaws {E} (os : freertos E) (time : E -> Z) (step : Z) : Prop := {
  law_time_positive e : 0 <= time e;
  law_timer e : let '(now, e') := esp_timer_get_time os e in
    now = time e /\ time e < time e' <= time e + step
}.

Section Waiting.

Context {E : Type} (os : freertos E) (group : Z -> E -> Z) (ticks : E -> Z).
Context `{!EventGroupLaws os group ticks}.

(** The ticks of a timeout in milliseconds: less than a tick is lost, *)
Lemma ticks_of_timeout timeout :
  let period := portTICK_PERIOD_MS os in
  timeout - period < timeout / period * period <= timeout /\ (0 <= timeout < period -> timeout / period = 0).
Proof using EventGroupLaws0.
  intros period. pose proof (law_period (os := os)). fold period in H.
  pose proof (Z.div_mod timeout period ltac:(lia)). pose proof (Z.mod_pos_bound timeout period ltac:(lia)).
  split; [lia|]. apply Z.div_small.
Qed.

(** and for ever stays for ever with ticks of one millisecond only; no shorter timeout becomes so. *)
Lemma forever_of_timeout timeout :
  fits 32 timeout ->
  timeout / portTICK_PERIOD_MS os = portMAX_DELAY <-> portTICK_PERIOD_MS os = 1 /\ timeout = WAIT_FOREVER.
Proof using EventGroupLaws0.
  intros Ht. pose proof (law_period (os := os)). unfold fits, WAIT_FOREVER, portMAX_DELAY in *. split.
  - intros Hq. destruct (Z.le_gt_cases (portTICK_PERIOD_MS os) 1) as [|Hp].
    + assert (portTICK_PERIOD_MS os = 1) as Hp by lia. rewrite Hp, Z.div_1_r in Hq. lia.
    + destruct (decide (timeout = 0)) as [->|]; [rewrite Z.div_0_l in Hq by lia; lia|].
      pose proof (Z.div_lt timeout (portTICK_PERIOD_MS os)). lia.
  - intros [-> ->]. done.
Qed.

(** What a wait on FreeRTOS and the ESP32 returns: those of the bits asked for that were set, at
    least one, when they are cleared if that was asked for and no others; or 0 when none was set for
    the timeout less a tick at most: in milliseconds of the tick counter, more than [timeout] less a
    period has passed.  It always returns, but for a timeout of 0xFFFFFFFF with ticks of a millisecond, which
    never gives 0. *)
Theorem freertos_events_wait_result (events bits clear timeout : Z) (e : E)
  (Hb : fits 8 bits) (Ht : fits 32 timeout) :
  let forever := portTICK_PERIOD_MS os = 1 /\ timeout = WAIT_FOREVER in
  match freertos_events_wait os events bits clear timeout e with
  | None => forever
  | Some (r, e') =>
      Z.land r (Z.lnot bits) = 0 /\
      ((exists v, r = Z.land v bits /\ r <> 0 /\
          group events e' = (if nz clear then Z.land v (Z.lnot bits) else v)) \/
       (r = 0 /\ Z.land (group events e') bits = 0 /\
          timeout - portTICK_PERIOD_MS os < (ticks e' - ticks e) * portTICK_PERIOD_MS os /\ ~ forever))
  end.
Proof using EventGroupLaws0.
  intros forever. unfold freertos_events_wait.
  pose proof (law_wait_bits (os := os) events bits (if nz clear then pdTRUE else pdFALSE)
                (timeout / portTICK_PERIOD_MS os) e) as H.
  destruct (xEventGroupWaitBits os events bits _ pdFALSE _ e) as [[v e']|]; [|by apply forever_of_timeout].
  assert (Hu : u8 (Z.land v bits) = Z.land v bits).
  { unfold u8. rewrite <- Z.land_ones by lia. rewrite <- Z.land_assoc. f_equal.
    rewrite Z.land_ones by lia. by apply u8_id. }
  rewrite Hu. split.
  { rewrite <- Z.land_assoc, Z.land_lnot_diag. apply Z.land_0_r. }
  destruct H as [[Hnz Hg]|(Hz & Hg & Hlate & Hd)].
  - left. exists v. split; [done|]. split.
    + unfold nz in Hnz. by apply negb_true_iff, Z.eqb_neq in Hnz.
    + rewrite Hg. by destruct (nz clear).
  - right. split; [done|]. split; [by rewrite Hg|]. destruct (ticks_of_timeout timeout) as [[Hl _] _].
    pose proof (law_period (os := os)). split; [nia|]. intros Hf. by apply Hd, forever_of_timeout.
Qed.

(** Bits that are set are there, and bits that are cleared are not. *)
Lemma freertos_events_set_clear events bits e :
  Z.land (group events (freertos_events_set os events bits e)) bits = bits /\
  Z.land (group events (freertos_events_clear os events bits e)) bits = 0.
Proof using EventGroupLaws0.
  unfold freertos_events_set, freertos_events_clear. rewrite law_set_bits, law_clear_bits. split.
  - apply Z.bits_inj'. intros n Hn. rewrite Z.land_spec, Z.lor_spec. by destruct (Z.testbit _ n), (Z.testbit bits n).
  - rewrite <- Z.land_assoc, (Z.land_comm _ bits), Z.land_lnot_diag. apply Z.land_0_r.
Qed.

End Waiting.

(** *** The busy loop *)

Section Spinning.

Context {E : Type} (os : freertos E) (time : E -> Z) (step : Z).
Context `{!TimerLaws os time step}.

Lemma freertos_spin_ends fuel t0 us e :
  0 <= us -> us + step < 2 ^ 32 -> t0 <= time e <= t0 + us + step -> (Z.to_nat (t0 + us - time e) < fuel)%nat ->
  exists e', freertos_spin os fuel (u32 t0) us e = Some e' /\ t0 + us < time e' <= t0 + us + 2 * step.
Proof using TimerLaws0.
  intros Hus Hfit. revert e. induction fuel as [|fuel IH]; intros e He Hf; [lia|]. cbn [freertos_spin].
  unfold freertos_micros. pose proof (law_timer e) as H. destruct (esp_timer_get_time os e) as [now e1].
  destruct H as [-> H].
  assert (Hd : u32 (u32 (time e) - u32 t0) = time e - t0).
  { unfold u32. rewrite Zminus_mod_idemp_l, Zminus_mod_idemp_r. apply Z.mod_small. lia. }
  rewrite Hd. destruct (Z.ltb_spec (time e - t0) us) as [Hlt|Hge].
  - apply IH; lia.
  - exists e1. split; [done|]. lia.
Qed.

(** [tiny_sleep_us] ends, after its time and at most two steps of the timer later, unless the time is so
    close to the range of the counter that a reading may miss it. *)
Theorem freertos_sleep_us_ends (fuel : nat) (us : Z) (e : E) (Hus : 0 <= us) (Hfit : us + step < 2 ^ 32)
  (Hfuel : (Z.to_nat us < fuel)%nat) :
  exists e', freertos_sleep_us os fuel us e = Some e' /\ time e + us < time e' <= time e + us + 2 * step.
Proof using TimerLaws0.
  unfold freertos_sleep_us, freertos_micros. pose proof (law_timer e) as H.
  destruct (esp_timer_get_time os e) as [now e1] eqn:Ee. destruct H as [-> H].
  pose proof (law_time_positive (os := os) e). apply freertos_spin_ends; lia.
Qed.

End Spinning.

(** ** A kernel *)

(** The bits of the one group, the ticks, and the microseconds. *)
Record rtos_env : Type := mk_rtos_env { re_bits : Z; re_ticks : Z; re_time : Z }.

#[export] Instance eta_rtos_env : Eta rtos_env := fun e => mk_rtos_env (re_bits e) (re_ticks e) (re_time e).

(** A kernel with ticks of ten milliseconds in which no other task runs: a wait for bits that are not
    set ends when its time is over, or never. *)
Definition demo_freertos : freertos rtos_env := {|
  portTICK_PERIOD_MS := 10;
  xSemaphoreTake _ _ e := (pdTRUE, e);
  xSemaphoreGive _ e := e;
  xEventGroupWaitBits _ bits clear _ delay e :=
    let v := re_bits e in
    if nz (Z.land v bits) then Some (v, e <| re_bits := if nz clear then Z.land v (Z.lnot bits) else v |>)
    else if delay =? portMAX_DELAY then None else Some (v, e <| re_ticks ::= Z.add (Z.max 0 delay) |>);
  xEventGroupSetBits _ bits e := e <| re_bits ::= fun b => Z.lor b bits |>;
  xEventGroupClearBits _ bits e := e <| re_bits ::= fun b => Z.land b (Z.lnot bits) |>;
  vTaskDelay delay e := e <| re_ticks ::= Z.add delay |>;
  esp_timer_get_time e := (Z.max 0 (re_time e), e <| re_time := Z.max 0 (re_time e) + 3 |>)
|}.

#[export] Instance demo_group_laws : EventGroupLaws demo_freertos (fun _ => re_bits) re_ticks.
Proof.
  split; cbn; try done. intros _ bits clear delay e.
  destruct (nz (Z.land (re_bits e) bits)) eqn:Hb; [left; by destruct (nz clear)|].
  destruct (Z.eqb_spec delay portMAX_DELAY); [done|]. right. unfold nz in Hb. apply negb_false_iff, Z.eqb_eq in Hb.
  cbn. split_and!; [done|done|lia|done].
Qed.

#[export] Instance demo_timer_laws : TimerLaws demo_freertos (fun e => Z.max 0 (re_time e)) 3.
Proof. split; intros e; cbn; lia. Qed.

(** Bits 0 and 1 are set, bit 1 is asked for. *)
Lemma freertos_events_wait_result_witness :
  let e := mk_rtos_env 3 100 0 in
  freertos_events_wait demo_freertos 1 2 1 50 e = Some (2, mk_rtos_env 1 100 0) /\
  match freertos_events_wait demo_freertos 1 4 1 55 e with
  | None => False
  | Some (r, e') => Z.land r (Z.lnot 4) = 0 /\ (r = 0 -> 55 - 10 < (re_ticks e' - 100) * 10)
  end.
Proof.
  intros e. split; [by vm_compute|].
  pose proof (freertos_events_wait_result demo_freertos (fun _ => re_bits) re_ticks 1 4 1 55 e
    ltac:(unfold fits; lia) ltac:(unfold fits; lia)) as H. cbv zeta in H.
  destruct (freertos_events_wait demo_freertos 1 4 1 55 e) as [[r e']|]; [|destruct H as [H _]; discriminate H].
  destruct H as [Hsub [(v & _ & Hne & _)|(_ & _ & Hlate & _)]]; (split; [exact Hsub|]); intros Hr.
  - destruct (Hne Hr).
  - exact Hlate.
Defined.

(** A wait for five milliseconds does not wait, and one for ever gives up after fifty days. *)
Lemma freertos_wait_short :
  (re_ticks <$> (snd <$> freertos_events_wait demo_freertos 1 4 1 5 (mk_rtos_env 0 100 0))) = Some 100 /\
  (fst <$> freertos_events_wait demo_freertos 1 4 1 WAIT_FOREVER (mk_rtos_env 0 100 0)) = Some 0.
Proof. by vm_compute. Qed.
