(* ===== verification/AtomicHal.v ===== *)
(** * Atomic blocks on AVR and Arduino (src/hal/avr/avr_hal.inl, src/hal/arduino/arduino_hal.inl)

    What [ATOMIC_BLOCK] of hal/single_core is on these processors, instruction by instruction: interrupts
    are disabled (AVR, Cortex-M0), a lock is taken (Cortex-M3 and M4), or nothing happens (all others).
    Interrupt handlers may run between any two instructions while interrupts are enabled.  The
    theorems: where interrupts are disabled a block is one instant, as the single-core functions
    of Hal.v assume; the other blocks lose updates or never end when a handler uses the same
    functions; on AVR a block enables interrupts that were disabled, and without Arduino no wait
    ends by its timeout. *)

From S2P Require Import Prelude FdTypes Hal.

(** ** Instructions *)

(** The processor: the word of memory the block works on, whether interrupts are enabled, and the
    handlers waiting for that, each with what it does to the word. *)
Record cpu : Type := mk_cpu {
  cpu_word : Z;
  cpu_enabled : bool;
  cpu_pending : list (Z -> Z)
}.

#[export] Instance eta_cpu : Eta cpu := fun c => mk_cpu (cpu_word c) (cpu_enabled c) (cpu_pending c).

(** A program at its next instruction. *)
Inductive iprog : Type :=
| Done (r : Z)
| Load (k : Z -> iprog)
| Store (v : Z) (k : iprog)
| Mrs (k : bool -> iprog)
| SetEnabled (enabled : bool) (k : iprog).

(** [cli], [sei], [cpsid i], and [MSR primask], whose bit 0 masks interrupts *)
Definition cli (k : iprog) : iprog := SetEnabled false k.
Definition sei (k : iprog) : iprog := SetEnabled true k.
Definition cpsid (k : iprog) : iprog := SetEnabled false k.
Definition msr_primask (mask : bool) (k : iprog) : iprog := SetEnabled (negb mask) k.

(** The handlers that wait run as soon as they may, each to its end. *)
Definition interrupts (c : cpu) : cpu :=
  if cpu_enabled c
  then c <| cpu_word ::= fun w => foldl (fun w h => h w) w (cpu_pending c) |> <| cpu_pending := [] |>
  else c.

Definition exec (p : iprog) (c : cpu) : iprog * cpu :=
  match p with
  | Done r => (Done r, c)
  | Load k => (k (cpu_word c), c)
  | Store v k => (k, c <| cpu_word := v |>)
  | Mrs k => (k (negb (cpu_enabled c)), c)
  | SetEnabled enabled k => (k, c <| cpu_enabled := enabled |>)
  end.

(** Before each instruction the interrupts of one entry of [arrivals] are requested. *)
Fixpoint run_cpu (p : iprog) (c : cpu) (arrivals : list (list (Z -> Z))) : iprog * cpu :=
  match arrivals with
  | [] => (p, c)
  | new :: arrivals =>
      let c := interrupts (c <| cpu_pending ::= fun l => l ++ new |>) in
      let '(p, c) := exec p c in run_cpu p c arrivals
  end.

(** ** The blocks *)

(** [_iDisGetPrimask] and [_iSetPrimask] of the AVR, *)
Definition avr_disable (k : iprog) : iprog := cli k.
Definition avr_restore (k : iprog) : iprog := sei k.

Definition avr_block (body : (Z -> iprog) -> iprog) : iprog :=
  avr_disable (body (fun r => avr_restore (Done r))).

(** of the Cortex-M0, *)
Definition m0_disable (k : bool -> iprog) : iprog := Mrs (fun mask => cpsid (k mask)).
Definition m0_restore (mask : bool) (k : iprog) : iprog := msr_primask mask k.

Definition m0_block (body : (Z -> iprog) -> iprog) : iprog :=
  m0_disable (fun mask => body (fun r => m0_restore mask (Done r))).

(** and the empty macro. *)
Definition plain_block (body : (Z -> iprog) -> iprog) : iprog := body Done.

(** The bodies of the blocks of hal/single_core; [k] is what comes after with the result. *)
Definition set_body (bits : Z) (k : Z -> iprog) : iprog := Load (fun b => Store (u8 (Z.lor b bits)) (k 0)).
Definition clear_body (bits : Z) (k : Z -> iprog) : iprog := Load (fun b => Store (bits_without bits b) (k 0)).
Definition look_body (bits clear : Z) (k : Z -> iprog) : iprog :=
  Load (fun locked => if wants_clear bits clear locked then Load (fun b => Store (bits_without bits b) (k locked))
                      else k locked).
Definition try_lock_body (k : Z -> iprog) : iprog := Load (fun m => Store 1 (k (if nz m then 0 else 1))).
Definition unlock_body (k : Z -> iprog) : iprog := Store 0 (k 0).

(** ** The lock of the Cortex-M3 and M4 *)

(** [__sync_lock_test_and_set]: the old value and the new one. *)
Definition test_and_set (lock : Z) : Z * Z := (lock, 1).
Definition lock_release (lock : Z) : Z := 0.

(** [_get_lock]; [None] when the fuel runs out. *)
Fixpoint m3_get_lock (fuel : nat) (lock : Z) : option Z :=
  match fuel with
  | O => None
  | S fuel => let '(old, lock) := test_and_set lock in if nz old then m3_get_lock fuel lock else Some lock
  end.

Definition m3_free_lock (lock : Z) : Z := lock_release lock.

(** ** Time *)

(** AVR: [arduino] tells whether the Arduino core is there, whose functions are parameters. *)
Section Time.

Context {E : Type} (arduino : bool) (delay delayMicroseconds : Z -> E -> E) (delay_ms_1 delay_us_1 : E -> E).
Context (millis micros : E -> Z).

Definition avr_sleep (ms : Z) (e : E) : E :=
  if ms =? 0 then e else if arduino then delay ms e else Nat.iter (Z.to_nat ms) delay_ms_1 e.

Definition avr_sleep_us (us : Z) (e : E) : E :=
  if us =? 0 then e else if arduino then delayMicroseconds us e else Nat.iter (Z.to_nat us) delay_us_1 e.

Definition avr_millis (e : E) : Z := if arduino then millis e else 0.
Definition avr_micros (e : E) : Z := if arduino then micros e else 0.

Definition arduino_sleep (ms : Z) (e : E) : E := delay ms e.
Definition arduino_sleep_us (us : Z) (e : E) : E := delayMicroseconds us e.
Definition arduino_millis (e : E) : Z := millis e.
Definition arduino_micros (e : E) : Z := micros e.

End Time.

(** ** A block is one instant *)

(** The handlers [l], one after the other. *)
Definition handle (l : list (Z -> Z)) (w : Z) : Z := foldl (fun w h => h w) w l.

Lemma handle_app l1 l2 w : handle (l1 ++ l2) w = handle l2 (handle l1 w).
Proof. apply foldl_app. Qed.

(** From [p], on the word [w], [n] instructions lead to [k r] and the word [w'], if nothing interrupts. *)
Inductive straight (k : Z -> iprog) : iprog -> Z -> Z -> Z -> nat -> Prop :=
| StraightEnd r w : straight k (k r) w r w 0
| StraightLoad j w r w' n : straight k (j w) w r w' n -> straight k (Load j) w r w' (S n)
| StraightStore v p w r w' n : straight k p v r w' n -> straight k (Store v p) w r w' (S n).

(** The body gives [f w] and leaves the word [g w], in three instructions at most. *)
Definition atomic_body (body : (Z -> iprog) -> iprog) (f g : Z -> Z) : Prop :=
  forall k w, exists n, (n <= 3)%nat /\ straight k (body k) w (f w) (g w) n.

Lemma set_body_atomic bits : atomic_body (set_body bits) (fun _ => 0) (fun b => u8 (Z.lor b bits)).
Proof. intros k w. eexists. split; [|repeat constructor]. lia. Qed.

Lemma clear_body_atomic bits : atomic_body (clear_body bits) (fun _ => 0) (bits_without bits).
Proof. intros k w. eexists. split; [|repeat constructor]. lia. Qed.

Lemma look_body_atomic bits clear :
  atomic_body (look_body bits clear) (fun b => b) (SingleCore.single_look bits clear).
Proof.
  intros k w. unfold look_body, SingleCore.single_look. destruct (wants_clear bits clear w) eqn:E.
  - exists 3%nat. split; [done|]. constructor. rewrite E. repeat constructor.
  - exists 1%nat. split; [lia|]. constructor. rewrite E. constructor.
Qed.

Lemma try_lock_body_atomic :
  atomic_body try_lock_body (fun m => fst (SingleCore.single_mutex_try_lock m))
    (fun m => snd (SingleCore.single_mutex_try_lock m)).
Proof. intros k w. eexists. split; [|repeat constructor]. lia. Qed.

Lemma unlock_body_atomic : atomic_body unlock_body (fun _ => 0) SingleCore.single_mutex_unlock.
Proof. intros k w. eexists. split; [|repeat constructor]. lia. Qed.

(** With interrupts disabled requests wait; *)
Lemma execute_straight k p w r w' n pending arrivals :
  straight k p w r w' n -> (n <= length arrivals)%nat ->
  run_cpu p (mk_cpu w false pending) arrivals =
  run_cpu (k r) (mk_cpu w' false (pending ++ concat (take n arrivals))) (drop n arrivals).
Proof.
  intros Hs. revert pending arrivals.
  induction Hs as [r w|j w r w' n Hs IH|v p w r w' n Hs IH]; intros pending arrivals Hlen.
  - cbn. by rewrite app_nil_r.
  - destruct arrivals as [|new arrivals]; [cbn in Hlen; lia|]. cbn in Hlen |- *.
    change (run_cpu (j w) (mk_cpu w false (pending ++ new)) arrivals = run_cpu (k r) (mk_cpu w' false (pending ++ new ++ concat (take n arrivals))) (drop n arrivals)).
    rewrite IH by lia. by rewrite app_assoc.
  - destruct arrivals as [|new arrivals]; [cbn in Hlen; lia|]. cbn in Hlen |- *.
    change (run_cpu p (mk_cpu v false (pending ++ new)) arrivals = run_cpu (k r) (mk_cpu w' false (pending ++ new ++ concat (take n arrivals))) (drop n arrivals)).
    rewrite IH by lia. by rewrite app_assoc.
Qed.

(** after the block they are handled, if interrupts are enabled then. *)
Lemma execute_done r c arrivals :
  exists later waiting, cpu_pending c ++ concat arrivals = later ++ waiting /\
    (cpu_enabled c = false -> later = []) /\
    run_cpu (Done r) c arrivals = (Done r, mk_cpu (handle later (cpu_word c)) (cpu_enabled c) waiting).
Proof.
  revert c. induction arrivals as [|new arrivals IH]; intros [w en pending].
  - exists [], pending. cbn. rewrite app_nil_r. auto.
  - destruct en.
    + destruct (IH (mk_cpu (handle (pending ++ new) w) true [])) as (later & waiting & Heq & _ & He).
      exists (pending ++ new ++ later), waiting. cbn in Heq |- *. split; [rewrite Heq, <- !app_assoc; done|]. split; [done|].
      change (run_cpu (Done r) (mk_cpu (handle (pending ++ new) w) true []) arrivals =
              (Done r, mk_cpu (handle (pending ++ new ++ later) w) true waiting)).
      rewrite He, app_assoc. cbn. by rewrite (handle_app (pending ++ new) later).
    + destruct (IH (mk_cpu w false (pending ++ new))) as (later & waiting & Heq & Hd & He).
      exists later, waiting. cbn in Heq |- *. split; [by rewrite <- Heq, <- app_assoc|]. split; [exact Hd|].
      exact He.
Qed.

(** From the first instruction after interrupts were disabled on. *)
Lemma execute_critical body f g enabled w pending arrivals :
  atomic_body body f g -> (4 <= length arrivals)%nat ->
  exists later waiting, pending ++ concat arrivals = later ++ waiting /\
    (enabled = false -> later = []) /\
    run_cpu (body (fun r => SetEnabled enabled (Done r))) (mk_cpu w false pending) arrivals =
    (Done (f w), mk_cpu (handle later (g w)) enabled waiting).
Proof.
  intros Hbody Hlen. destruct (Hbody (fun r => SetEnabled enabled (Done r)) w) as (n & Hn & Hs).
  rewrite (execute_straight _ _ _ _ _ n pending arrivals Hs) by lia.
  destruct (drop n arrivals) as [|new rest] eqn:Hd.
  { apply (f_equal length) in Hd. rewrite length_drop in Hd. cbn in Hd. lia. }
  set (c := mk_cpu (g w) enabled ((pending ++ concat (take n arrivals)) ++ new)).
  destruct (execute_done (f w) c rest) as (later & waiting & Heq & Hoff & He).
  exists later, waiting. split; [|split; [exact Hoff|exact He]].
  cbn in Heq. rewrite <- Heq. rewrite <- (take_drop n arrivals) at 1.
  rewrite Hd, concat_app. cbn. by rewrite <- !app_assoc.
Qed.

(** Interrupts before the first instruction, when they are enabled. *)
Lemma execute_cons p w enabled pending new arrivals :
  run_cpu p (mk_cpu w enabled pending) (new :: arrivals) =
  let '(p, c) := exec p (if enabled then mk_cpu (handle (pending ++ new) w) true [] else mk_cpu w false (pending ++ new)) in
  run_cpu p c arrivals.
Proof. by destruct enabled. Qed.

(** C39: on a Cortex-M0 an atomic block is one instant.  Whatever interrupts are requested while it
    runs, their handlers run before it or after it: the result and the word are those of the body
    run without interruption on the word the earlier handlers left.  The block restores the
    interrupts as they were: if they were disabled, all handlers still wait. *)
Theorem m0_block_atomic (body : (Z -> iprog) -> iprog) (f g : Z -> Z) (enabled : bool) (w : Z)
  (arrivals : list (list (Z -> Z))) (Hbody : atomic_body body f g) (Hlen : (6 <= length arrivals)%nat) :
  exists earlier later waiting, concat arrivals = earlier ++ later ++ waiting /\
    (enabled = false -> earlier = [] /\ later = []) /\
    run_cpu (m0_block body) (mk_cpu w enabled []) arrivals =
    (Done (f (handle earlier w)), mk_cpu (handle later (g (handle earlier w))) enabled waiting).
Proof.
  destruct arrivals as [|new0 [|new1 rest]]; [cbn in Hlen; lia..|]. cbn in Hlen.
  unfold m0_block, m0_disable, m0_restore, msr_primask, cpsid. rewrite execute_cons. cbn [exec app].
  destruct enabled; cbn [cpu_enabled negb]; rewrite execute_cons; cbn [exec app]; cbn [fupd cpu_word cpu_pending cpu_enabled].
  - destruct (execute_critical body f g true (handle new1 (handle new0 w)) [] rest Hbody ltac:(lia))
      as (later & waiting & Heq & _ & He).
    exists (new0 ++ new1), later, waiting. rewrite handle_app. split; [|split; [done|exact He]].
    cbn in Heq |- *. by rewrite Heq, <- app_assoc.
  - destruct (execute_critical body f g false w (new0 ++ new1) rest Hbody ltac:(lia))
      as (later & waiting & Heq & Hoff & He).
    exists [], [], waiting. rewrite (Hoff eq_refl) in Heq, He. split; [|split; [done|exact He]].
    cbn in Heq |- *. by rewrite <- Heq, <- app_assoc.
Qed.

(** On AVR a block is one instant too, but it ends with interrupts enabled, whether they were or not:
    a caller that had disabled them, or an interrupt handler, is interrupted after it. *)
Theorem avr_block_atomic (body : (Z -> iprog) -> iprog) (f g : Z -> Z) (enabled : bool) (w : Z)
  (arrivals : list (list (Z -> Z))) (Hbody : atomic_body body f g) (Hlen : (5 <= length arrivals)%nat) :
  exists earlier later waiting, concat arrivals = earlier ++ later ++ waiting /\
    (enabled = false -> earlier = []) /\
    run_cpu (avr_block body) (mk_cpu w enabled []) arrivals =
    (Done (f (handle earlier w)), mk_cpu (handle later (g (handle earlier w))) true waiting).
Proof.
  destruct arrivals as [|new0 rest]; [cbn in Hlen; lia|]. cbn in Hlen.
  unfold avr_block, avr_disable, avr_restore, cli, sei. rewrite execute_cons. cbn [exec app].
  destruct enabled.
  - destruct (execute_critical body f g true (handle new0 w) [] rest Hbody ltac:(lia)) as (later & waiting & Heq & _ & He).
    exists new0, later, waiting. split; [cbn in Heq |- *; by rewrite Heq|]. split; [done|exact He].
  - destruct (execute_critical body f g true w new0 rest Hbody ltac:(lia)) as (later & waiting & Heq & _ & He).
    exists [], later, waiting. split; [exact Heq|]. split; [done|exact He].
Qed.

(** A handler that sets bit 1 between the two instructions of a block that sets bit 0. *)
Definition set_2 (w : Z) : Z := u8 (Z.lor w 2).

Lemma m0_block_atomic_witness :
  atomic_body (set_body 1) (fun _ => 0) (fun b => u8 (Z.lor b 1)) /\
  exists earlier later waiting, [set_2] = earlier ++ later ++ waiting /\
    run_cpu (m0_block (set_body 1)) (mk_cpu 0 true []) [[]; []; []; [set_2]; []; []] =
    (Done 0, mk_cpu (handle later (u8 (Z.lor (handle earlier 0) 1))) true waiting).
Proof.
  split; [apply set_body_atomic|].
  destruct (m0_block_atomic (set_body 1) (fun _ => 0) (fun b => u8 (Z.lor b 1)) true 0 [[]; []; []; [set_2]; []; []]
              (set_body_atomic 1) ltac:(cbn; lia)) as (earlier & later & waiting & Heq & _ & He).
  exists earlier, later, waiting. split; [exact Heq|exact He].
Defined.

(** Where the macro is empty, the handler's bit is lost; *)
Lemma plain_block_loses :
  run_cpu (plain_block (set_body 1)) (mk_cpu 0 true []) [[]; [set_2]; []] = (Done 0, mk_cpu 1 true []) /\
  run_cpu (m0_block (set_body 1)) (mk_cpu 0 true []) [[]; []; []; [set_2]; []; []; []] = (Done 0, mk_cpu 3 true []).
Proof. by vm_compute. Qed.

(** and an AVR handler, which runs with interrupts disabled, ends its block with them enabled. *)
Lemma avr_block_enables :
  cpu_enabled (snd (run_cpu (avr_block (look_body 1 0)) (mk_cpu 0 false []) (replicate 5 []))) = true.
Proof. by vm_compute. Qed.

(** ** The lock *)

(** The lock of the Cortex-M3 and M4 is taken at once when it is free; when it is taken, the loop does
    not end: an interrupt handler that calls an event function while the program it interrupted is in a block
    never returns, since that program cannot go on to free the lock. *)
Theorem m3_get_lock_spins (fuel : nat) (lock : Z) :
  m3_get_lock (S fuel) lock = (if nz lock then None else Some 1).
Proof.
  assert (H : forall n, m3_get_lock n 1 = None) by (induction n as [|n IH]; [done|exact IH]).
  cbn. destruct (nz lock); [apply H|done].
Qed.

Lemma m3_lock_cycle fuel : m3_free_lock <$> m3_get_lock (S fuel) 0 = Some 0.
Proof. reflexivity. Qed.

(** ** No time *)

(** The clock of AVR without the Arduino core. *)
Definition no_clock (n : nat) : Z := avr_millis false (fun _ : nat => 0) n.

(** A thread in the loop of a wait. *)
Definition stuck_wait (bits clear timeout b : Z) (t : thread prog) : Prop :=
  th_done t = [] /\
  (th_now t = None /\ th_todo t = [EventsWait bits clear timeout] \/
   exists p, th_now t = Some (EventsWait bits clear timeout, p) /\
     (p = SingleCore.single_events_wait bits clear timeout \/ p = SingleCore.single_wait_pass bits clear timeout 0 \/
      p = after_look bits timeout 0 b \/ p = WaitLoop 0)).

Lemma stuck_step bits clear timeout b t s :
  nz (Z.land b bits) = false -> 0 < timeout -> stuck_wait bits clear timeout b t -> sh_bits s = b ->
  let '(t', s') := @step_thread single_core no_clock t s in stuck_wait bits clear timeout b t' /\ sh_bits s' = b.
Proof.
  intros Hb Ht [Hd Hc] Hs. unfold step_thread. destruct Hc as [[Hnow Htodo]|(p & Hnow & Hp)]; rewrite Hnow.
  - rewrite Htodo. split; [|done]. split; [done|]. right. eexists. split; [reflexivity|]. by left.
  - destruct Hp as [-> |[-> |[-> | ->]]].
    + split; [|done]. split; [done|]. right. eexists. split; [reflexivity|]. right. by left.
    + cbn. unfold SingleCore.single_look, wants_clear. rewrite Hs, Hb, andb_false_r. split; [|done].
      split; [done|]. right. eexists. split; [reflexivity|]. right. right. by left.
    + unfold after_look. rewrite Hb. cbn. split; [|done]. split; [done|]. right. eexists. split; [reflexivity|].
      right. right. right. assert (E : forall v, v = 0 -> (timeout <=? v) = false) by (intros v ->; by apply Z.leb_gt).
      by rewrite E.
    + split; [|done]. split; [done|]. right. eexists. split; [reflexivity|]. right. by left.
Qed.

(** Without the Arduino core no wait on AVR ends by its timeout: a thread that waits for bits that nobody
    sets, with any timeout but 0, never returns from the call, however long it runs. *)
Theorem avr_events_wait_stuck (bits clear timeout b : Z) (n : nat)
  (Hb : nz (Z.land b bits) = false) (Ht : 0 < timeout) :
  let y := @run single_core no_clock (start b [[EventsWait bits clear timeout]]) (replicate n 0%nat) in
  exists t, sy_threads y = [t] /\ th_done t = [] /\ sh_bits (sy_shared y) = b.
Proof.
  intros y. enough (exists t, sy_threads y = [t] /\ stuck_wait bits clear timeout b t /\ sh_bits (sy_shared y) = b)
    as (t & Hy & [Hd _] & Hs) by (by exists t).
  assert (Hstart : exists t, sy_threads (start b [[EventsWait bits clear timeout]]) = [t] /\
            stuck_wait bits clear timeout b t /\ sh_bits (sy_shared (start b [[EventsWait bits clear timeout]])) = b).
  { eexists. split; [reflexivity|]. split; [|done]. split; [done|]. by left. }
  unfold y, run. revert Hstart. generalize (start b [[EventsWait bits clear timeout]]). clear y.
  induction n as [|n IH]; intros y (t & Hy & Hst & Hs); [by exists t|]. cbn. apply IH.
  unfold step_system. rewrite Hy. cbn.
  pose proof (stuck_step bits clear timeout b t (sy_shared y) Hb Ht Hst Hs) as H.
  destruct (@step_thread single_core no_clock t (sy_shared y)) as [t' s']. destruct H as [H1 H2]. by exists t'.
Qed.

Lemma avr_events_wait_stuck_witness :
  let y := @run single_core no_clock (start 2 [[EventsWait 1 1 100]]) (replicate 1000 0%nat) in
  exists t, sy_threads y = [t] /\ th_done t = [] /\ sh_bits (sy_shared y) = 2.
Proof. apply (avr_events_wait_stuck 1 1 100 2 1000); [reflexivity|lia]. Defined.
