(* ===== verification/MacSerial.v ===== *)
(** * The serial port on macOS (src/hal/macos/macos_serial.inl)

    The port over the POSIX calls of LinuxSerial.v, with the constants of macOS and the calls only macOS
    has as parameters.  The theorems: sending and reading are what they are on Linux; a port that
    fails to open keeps no descriptor; the code that turns the modem lines off never runs, since a
    descriptor whose settings can be read is a terminal. *)

From stdpp Require Import gmap.
From Stdlib Require Import String.
From S2P Require Import Prelude Packet Proto SerialLink LinuxSerial.

(** ** Constants of the system's headers *)

Definition MAC_EAGAIN : Z := 35.
Definition MAC_POLLWRNORM : Z := 0x004.
Definition MAC_O_NONBLOCK : Z := 0x004.
Definition MAC_ICANON : Z := 0x100.
Definition MAC_ECHO : Z := 0x8.
Definition MAC_ECHONL : Z := 0x10.
Definition MAC_ECHOCTL : Z := 0x40.
Definition MAC_HUPCL : Z := 0x4000.
Definition MAC_CLOCAL : Z := 0x8000.
Definition MAC_CREAD : Z := 0x800.
Definition MAC_ONLCR : Z := 0x2.
Definition MAC_ICRNL : Z := 0x100.
Definition MAC_CRTSCTS : Z := 0x30000.
Definition MAC_IXON : Z := 0x200.
Definition MAC_IXOFF : Z := 0x400.
Definition MAC_IXANY : Z := 0x800.
Definition TIOCM_DTR : Z := 0x2.
Definition TIOCM_RTS : Z := 0x4.

(** [x & ~bits] on [tcflag_t], which has 64 bits on macOS. *)
Definition without64 (bits x : Z) : Z := Z.land x (Z.lnot bits) mod 2 ^ 64.

(** The speeds of the header of macOS, where [B115200] is 115200; the faster ones of the [switch] are not
    defined there. *)
Definition mac_speeds : list Z :=
  [50; 75; 110; 134; 150; 200; 300; 600; 1200; 1800; 2400; 4800; 9600; 19200; 38400; 57600; 115200; 230400].

Definition baud_to_speed (baud : Z) : Z := if bool_decide (baud ∈ mac_speeds) then baud else 0.

(** The calls of the system: those of POSIX, and [open] with a path, the two uses of [fcntl],
    [isatty], and [ioctl] with [IOSSIOSPEED], [TIOCMGET] (result and status) and [TIOCMSET]. *)
Record macos (E : Type) : Type := mk_macos {
  mac_posix : linux E;
  mac_open : string -> E -> Z * E;
  mac_getfl : Z -> E -> Z * E;
  mac_setfl : Z -> Z -> E -> E;
  mac_isatty : Z -> E -> Z * E;
  mac_set_speed : Z -> Z -> E -> Z * E;
  mac_tiocmget : Z -> E -> Z * Z * E;
  mac_tiocmset : Z -> Z -> E -> E
}.
Arguments mk_macos {E}.
Arguments mac_posix {E}.
Arguments mac_open {E}.
Arguments mac_getfl {E}.
Arguments mac_setfl {E}.
Arguments mac_isatty {E}.
Arguments mac_set_speed {E}.
Arguments mac_tiocmget {E}.
Arguments mac_tiocmset {E}.

(** The name of the device: [strstr] looks for the text anywhere, [name + 9] is behind nine characters,
    and [snprintf] keeps 255. *)
Definition device_name (name : string) : string :=
  match String.index 0 "/dev/tty." name with
  | Some _ => String.substring 0 255 ("/dev/cu." ++ String.substring 9 (String.length name - 9) name)
  | None => name
  end.

Section Port.

Context {E : Type} (sys : macos E).

Definition is_pty (fd : Z) (e : E) : Z * E := mac_isatty sys fd e.

Definition macos_serial_close (port : Z) (e : E) : E :=
  if 0 <=? port then sys_close (mac_posix sys) port e else e.

(** Setting the file back to blocking mode. *)
Definition mac_blocking (fd : Z) (e : E) : E :=
  let '(flags, e) := mac_getfl sys fd e in
  if negb (flags =? -1) then mac_setfl sys fd (signed (-2 ^ 31) 32 (Z.land flags (Z.lnot MAC_O_NONBLOCK))) e else e.

(** The settings made before the speed. *)
Definition mac_options (oldt : termios) : termios :=
  let options := cfmakeraw (mac_posix sys) oldt in
  let options := options <| c_lflag ::= without64 MAC_ICANON |> in
  let options := options <| c_lflag ::= without64 (Z.lor (Z.lor MAC_ECHO MAC_ECHOCTL) MAC_ECHONL) |> in
  let options := options <| c_cflag ::= Z.lor MAC_HUPCL |> in
  let options := options <| c_cflag ::= Z.lor (Z.lor MAC_CLOCAL MAC_CREAD) |> in
  let options := options <| c_oflag ::= without64 MAC_ONLCR |> in
  let options := options <| c_iflag ::= without64 MAC_ICRNL |> in
  let options := options <| c_cflag ::= without64 MAC_CRTSCTS |> in
  let options := options <| c_iflag ::= without64 (Z.lor (Z.lor MAC_IXON MAC_IXOFF) MAC_IXANY) |> in
  options <| c_vmin := 0 |> <| c_vtime := 1 |>.

(** The speed in the settings, if it is one of the header, and [baud_set]. *)
Definition mac_set_baud (baud : Z) (options : termios) : bool * termios :=
  let speed := baud_to_speed baud in
  if negb (speed =? 0) then
    let '(ret, options) := cfsetispeed (mac_posix sys) options speed in
    if ret =? 0 then
      let '(ret, options) := cfsetospeed (mac_posix sys) options speed in (ret =? 0, options)
    else (false, options)
  else (false, options).

(** Turning DTR and RTS off. *)
Definition mac_modem_lines (fd : Z) (e : E) : E :=
  let '(pty, e) := is_pty fd e in
  if negb (nz pty) then
    let '(ret, status, e) := mac_tiocmget sys fd e in
    if ret =? 0 then
      let status := Z.land status (Z.lnot TIOCM_DTR) in
      let status := Z.land status (Z.lnot TIOCM_RTS) in
      mac_tiocmset sys fd status e
    else e
  else e.

Definition macos_serial_open (name : string) (baud : Z) (e : E) : Z * E :=
  let name := device_name name in
  let '(fd, e) := mac_open sys name e in
  if fd =? -1 then (TINY_SERIAL_INVALID, e) else
  let e := mac_blocking fd e in
  let '(ret, oldt, e) := sys_tcgetattr (mac_posix sys) fd e in
  if ret =? -1 then (TINY_SERIAL_INVALID, sys_close (mac_posix sys) fd e) else
  let options := mac_options oldt in
  let '(baud_set, options) := mac_set_baud baud options in
  let '(ret, e) := sys_tcsetattr (mac_posix sys) fd options e in
  if ret =? -1 then (TINY_SERIAL_INVALID, sys_close (mac_posix sys) fd e) else
  let e := if negb baud_set then snd (mac_set_speed sys fd baud e) else e in
  let e := mac_modem_lines fd e in
  (fd, sys_tcflush (mac_posix sys) fd e).

(** The loop around [poll] is that of [poll_again]. *)
Definition macos_serial_send_timeout (fuel : nat) (port : Z) (buf : list Z) (timeout_ms : Z) (e : E)
  : option (Z * E) :=
  match poll_again (mac_posix sys) fuel port (Z.lor POLLOUT MAC_POLLWRNORM) timeout_ms e with
  | None => None
  | Some (ret, revents, e) =>
      if ret <? 0 then Some (ret, e) else
      if (ret =? 0) || negb (nz (Z.land revents (Z.lor POLLOUT MAC_POLLWRNORM))) then Some (0, e) else
      let '(ret, e) := sys_write (mac_posix sys) port buf e in
      if (ret <? 0) && ((errno (mac_posix sys) e =? MAC_EAGAIN) || (errno (mac_posix sys) e =? EINTR)) then Some (0, e)
      else Some (ret, e)
  end.

Definition macos_serial_read_timeout (fuel : nat) (port len timeout_ms : Z) (e : E)
  : option (Z * list Z * E) :=
  match poll_again (mac_posix sys) fuel port (Z.lor POLLIN POLLRDNORM) timeout_ms e with
  | None => None
  | Some (ret, revents, e) =>
      if ret <? 0 then Some (ret, [], e) else
      if (ret =? 0) || negb (nz (Z.land revents (Z.lor POLLIN POLLRDNORM))) then Some (0, [], e) else
      let '(ret, buf, e) := sys_read (mac_posix sys) port len e in
      if (ret <? 0) && ((errno (mac_posix sys) e =? MAC_EAGAIN) || (errno (mac_posix sys) e =? EINTR)) then Some (0, buf, e)
      else Some (ret, buf, e)
  end.

Definition macos_serial_send (fuel : nat) (port : Z) (buf : list Z) (e : E) : option (Z * E) :=
  macos_serial_send_timeout fuel port buf 100 e.

Definition macos_serial_read (fuel : nat) (port len : Z) (e : E) : option (Z * list Z * E) :=
  macos_serial_read_timeout fuel port len 100 e.

End Port.

(** ** Names *)

(** A real device gets its call-out name; *)
Lemma device_name_tty rest :
  (String.length rest <= 247)%nat -> device_name ("/dev/tty." ++ rest) = ("/dev/cu." ++ rest)%string.
Proof.
  intros Hlen. unfold device_name.
  assert (Hpre : String.prefix "/dev/tty." ("/dev/tty." ++ rest) = true) by (by destruct rest).
  assert (Hi : String.index 0 "/dev/tty." ("/dev/tty." ++ rest) = Some 0%nat) by (cbn; by destruct rest).
  rewrite Hi.
  assert (Hsub : forall s, String.substring 0 (String.length s) s = s)
    by (induction s as [|c s IH]; cbn; [done|by rewrite IH]).
  assert (Hall : forall n s, (String.length s <= n)%nat -> String.substring 0 n s = s).
  { intros n s. revert n. induction s as [|c s IH]; intros n Hn; [by destruct n|].
    destruct n as [|n]; cbn in Hn |- *; [lia|]. by rewrite IH by lia. }
  assert (El : (String.length ("/dev/tty." ++ rest) - 9)%nat = String.length rest).
  { change (String.length ("/dev/tty." ++ rest)) with (9 + String.length rest)%nat. lia. }
  rewrite El.
  assert (E : String.substring 9 (String.length rest) ("/dev/tty." ++ rest) = rest) by apply Hsub.
  rewrite E. apply Hall. change (8 + String.length rest <= 255)%nat. lia.
Qed.

(** other names are left alone, but for those that have the text further on: nine characters are cut off
    in front wherever it was found. *)
Lemma device_name_inside : device_name "/mnt/dev/tty.usb" = "/dev/cu.tty.usb"%string.
Proof. reflexivity. Qed.

(** ** Sending and reading *)

(** The calls as Linux numbers their events and errors. *)
Definition linux_event (events : Z) : Z :=
  if events =? Z.lor POLLOUT POLLWRNORM then Z.lor POLLOUT MAC_POLLWRNORM else events.

Definition as_linux {E} (sys : linux E) : linux E := {|
  sys_open := sys_open sys;
  sys_set_blocking := sys_set_blocking sys;
  sys_close := sys_close sys;
  sys_tcgetattr := sys_tcgetattr sys;
  sys_tcsetattr := sys_tcsetattr sys;
  sys_tcflush := sys_tcflush sys;
  sys_poll fd events timeout e :=
    let '(ret, revents, e) := sys_poll sys fd (linux_event events) timeout e in
    (ret, if nz (Z.land revents (linux_event events)) then events else 0, e);
  sys_read := sys_read sys;
  sys_write := sys_write sys;
  errno e :=
    let n := errno sys e in if n =? MAC_EAGAIN then EAGAIN else if n =? EAGAIN then MAC_EAGAIN else n;
  cfmakeraw := cfmakeraw sys;
  cfsetspeed := cfsetspeed sys;
  cfsetospeed := cfsetospeed sys;
  cfsetispeed := cfsetispeed sys
|}.

Section AsLinux.

Context {E : Type} (sys : macos E).

Lemma errno_eintr e : (errno (as_linux (mac_posix sys)) e =? EINTR) = (errno (mac_posix sys) e =? EINTR).
Proof using Type.
  unfold as_linux. cbn [errno]. destruct (Z.eqb_spec (errno (mac_posix sys) e) MAC_EAGAIN) as [->|]; [done|].
  by destruct (Z.eqb_spec (errno (mac_posix sys) e) EAGAIN) as [->|].
Qed.

Lemma errno_again e : (errno (as_linux (mac_posix sys)) e =? EAGAIN) = (errno (mac_posix sys) e =? MAC_EAGAIN).
Proof using Type.
  unfold as_linux. cbn [errno]. destruct (Z.eqb_spec (errno (mac_posix sys) e) MAC_EAGAIN) as [_|Hn]; [done|].
  destruct (Z.eqb_spec (errno (mac_posix sys) e) EAGAIN) as [_|Hm]; [done|]. by apply Z.eqb_neq.
Qed.

Lemma sys_poll_as fd events timeout e :
  sys_poll (as_linux (mac_posix sys)) fd events timeout e =
  let '(ret, revents, e) := sys_poll (mac_posix sys) fd (linux_event events) timeout e in
  (ret, if nz (Z.land revents (linux_event events)) then events else 0, e).
Proof using Type. reflexivity. Qed.

Lemma poll_again_as fuel fd events timeout e :
  poll_again (as_linux (mac_posix sys)) fuel fd events timeout e =
  (fun r => let '(ret, revents, e) := r in (ret, if nz (Z.land revents (linux_event events)) then events else 0, e))
    <$> poll_again (mac_posix sys) fuel fd (linux_event events) timeout e.
Proof using Type.
  revert e. induction fuel as [|fuel IH]; intros e; [done|]. cbn [poll_again]. rewrite sys_poll_as.
  destruct (sys_poll (mac_posix sys) fd (linux_event events) _ e) as [[ret revents] e']. rewrite errno_eintr.
  destruct (_ && _); [apply IH|done].
Qed.

Lemma macos_send_as fuel port buf timeout e :
  macos_serial_send_timeout sys fuel port buf timeout e =
  linux_serial_send_timeout (as_linux (mac_posix sys)) fuel port buf timeout e.
Proof using Type.
  unfold macos_serial_send_timeout, linux_serial_send_timeout. rewrite poll_again_as.
  change (linux_event (Z.lor POLLOUT POLLWRNORM)) with (Z.lor POLLOUT MAC_POLLWRNORM).
  destruct (poll_again (mac_posix sys) fuel port _ timeout e) as [[[ret revents] e']|]; [|done]. cbn -[Z.lor errno as_linux].
  destruct (ret <? 0); [done|]. destruct (ret =? 0); [done|].
  destruct (nz (Z.land revents (Z.lor POLLOUT MAC_POLLWRNORM))); [|done]. cbn -[errno as_linux].
  change (sys_write (as_linux (mac_posix sys))) with (sys_write (mac_posix sys)).
  destruct (sys_write (mac_posix sys) port buf e') as [n e2]. by rewrite errno_again, errno_eintr.
Qed.

Lemma macos_read_as fuel port len timeout e :
  macos_serial_read_timeout sys fuel port len timeout e =
  linux_serial_read_timeout (as_linux (mac_posix sys)) fuel port len timeout e.
Proof using Type.
  unfold macos_serial_read_timeout, linux_serial_read_timeout. rewrite poll_again_as.
  change (linux_event (Z.lor POLLIN POLLRDNORM)) with (Z.lor POLLIN POLLRDNORM).
  destruct (poll_again (mac_posix sys) fuel port _ timeout e) as [[[ret revents] e']|]; [|done]. cbn -[Z.lor errno as_linux].
  destruct (ret <? 0); [done|]. destruct (ret =? 0); [done|].
  destruct (nz (Z.land revents (Z.lor POLLIN POLLRDNORM))); [|done]. cbn -[errno as_linux].
  change (sys_read (as_linux (mac_posix sys))) with (sys_read (mac_posix sys)).
  destruct (sys_read (mac_posix sys) port len e') as [[n data] e2]. by rewrite errno_again, errno_eintr.
Qed.

#[export] Instance as_linux_line (wire incoming : E -> list Z) (interrupts : E -> nat) :
  LineLaws (mac_posix sys) wire incoming interrupts -> LineLaws (as_linux (mac_posix sys)) wire incoming interrupts.
Proof using Type.
  intros Hline. split; [|exact (law_write (LineLaws := Hline))|exact (law_read (LineLaws := Hline))].
  intros fd events timeout e. pose proof (law_poll (sys := mac_posix sys) fd (linux_event events) timeout e) as H.
  rewrite sys_poll_as.
  destruct (sys_poll (mac_posix sys) fd (linux_event events) timeout e) as [[ret revents] e'].
  destruct H as (Hw & Hi & Hn). split_and!; [done|done|]. intros Hr Hint. apply Hn; [done|].
  apply Z.eqb_eq. rewrite <- errno_eintr. by apply Z.eqb_eq.
Qed.

End AsLinux.

(** On macOS, too, the number a send or a read returns is the number of bytes that went over the line, on every
    branch, and every call ends. *)
Theorem macos_serial_transfers {E} (sys : macos E) (wire incoming : E -> list Z) (interrupts : E -> nat)
  (Hline : LineLaws (mac_posix sys) wire incoming interrupts)
  (fuel : nat) (port len timeout_ms : Z) (buf : list Z) (e : E) (Hfuel : (interrupts e < fuel)%nat) :
  (exists n e', macos_serial_send_timeout sys fuel port buf timeout_ms e = Some (n, e') /\
     n <= Z.of_nat (length buf) /\ wire e' = wire e ++ take (Z.to_nat n) buf /\ incoming e' = incoming e) /\
  (exists n data e', macos_serial_read_timeout sys fuel port len timeout_ms e = Some (n, data, e') /\
     n <= Z.max 0 len /\ wire e' = wire e /\ take (Z.to_nat n) data = take (Z.to_nat n) (incoming e) /\
     incoming e' = drop (Z.to_nat n) (incoming e)).
Proof.
  pose proof (as_linux_line sys wire incoming interrupts Hline) as Hl. rewrite macos_send_as, macos_read_as.
  destruct (linux_serial_transfers (as_linux (mac_posix sys)) wire incoming interrupts fuel port len timeout_ms buf e Hfuel)
    as [(n & e' & Hs & Hn & Hw & Hi & _) (m & data & e2 & Hr & Hm & Hw2 & Ht & Hi2 & _)].
  split; [by exists n, e'|by exists m, data, e2].
Qed.

(** ** Descriptors and modem lines *)

(** What macOS documents of the calls POSIX does not have: none opens or closes a descriptor, and
    whether a descriptor is a terminal does not change; settings can be read of terminals only, and
    [isatty] tells a terminal. *)
Class MacLaws {E} (sys : macos E) (open_fds : E -> gset Z) (terminal : E -> Z -> bool) : Prop := {
  law_mac_open name e : let '(fd, e') := mac_open sys name e in
    fd = -1 /\ open_fds e' = open_fds e \/ 0 <= fd /\ (fd ∉ open_fds e) /\ open_fds e' = ({[fd]} ∪ open_fds e);
  law_mac_close fd e : open_fds (sys_close (mac_posix sys) fd e) = open_fds e ∖ {[fd]};
  law_mac_getfl fd e : open_fds (snd (mac_getfl sys fd e)) = open_fds e;
  law_mac_setfl fd flags e : open_fds (mac_setfl sys fd flags e) = open_fds e;
  law_mac_tcgetattr fd e : let '(ret, t, e') := sys_tcgetattr (mac_posix sys) fd e in
    open_fds e' = open_fds e /\ (ret <> -1 -> terminal e' fd = true);
  law_mac_tcsetattr fd t e : let '(ret, e') := sys_tcsetattr (mac_posix sys) fd t e in
    open_fds e' = open_fds e /\ terminal e' fd = terminal e fd;
  law_mac_set_speed fd baud e : let '(ret, e') := mac_set_speed sys fd baud e in
    open_fds e' = open_fds e /\ terminal e' fd = terminal e fd;
  law_mac_isatty fd e : let '(ret, e') := mac_isatty sys fd e in
    open_fds e' = open_fds e /\ nz ret = terminal e fd;
  law_mac_tcflush fd e : open_fds (sys_tcflush (mac_posix sys) fd e) = open_fds e
}.

Section Opening.

Context {E : Type} (sys : macos E) (open_fds : E -> gset Z) (terminal : E -> Z -> bool).
Context `{!MacLaws sys open_fds terminal}.

Lemma mac_blocking_fds fd e : open_fds (mac_blocking sys fd e) = open_fds e.
Proof using MacLaws0.
  unfold mac_blocking. pose proof (law_mac_getfl fd e) as H. destruct (mac_getfl sys fd e) as [flags e']. cbn in H.
  destruct (negb _); [by rewrite law_mac_setfl|done].
Qed.

(** On a terminal the modem lines are not touched. *)
Lemma mac_modem_lines_terminal fd e :
  terminal e fd = true -> mac_modem_lines sys fd e = snd (mac_isatty sys fd e) /\
    open_fds (snd (mac_isatty sys fd e)) = open_fds e.
Proof using MacLaws0.
  intros Ht. unfold mac_modem_lines, is_pty. pose proof (law_mac_isatty fd e) as H.
  destruct (mac_isatty sys fd e) as [pty e']. destruct H as [H1 H2]. by rewrite H2, Ht.
Qed.

(** What [macos_serial_open] does once the file is open. *)
Definition mac_configure (fd baud : Z) (e : E) : Z * E :=
  let '(ret, oldt, e) := sys_tcgetattr (mac_posix sys) fd e in
  if ret =? -1 then (TINY_SERIAL_INVALID, sys_close (mac_posix sys) fd e) else
  let '(baud_set, options) := mac_set_baud sys baud (mac_options sys oldt) in
  let '(ret, e) := sys_tcsetattr (mac_posix sys) fd options e in
  if ret =? -1 then (TINY_SERIAL_INVALID, sys_close (mac_posix sys) fd e) else
  let e := if negb baud_set then snd (mac_set_speed sys fd baud e) else e in
  (fd, sys_tcflush (mac_posix sys) fd (snd (mac_isatty sys fd e))).

(** The modem lines are never reached, *)
Lemma macos_serial_open_eq name baud e :
  macos_serial_open sys name baud e =
  let '(fd, e) := mac_open sys (device_name name) e in
  if fd =? -1 then (TINY_SERIAL_INVALID, e) else mac_configure fd baud (mac_blocking sys fd e).
Proof using MacLaws0.
  unfold macos_serial_open, mac_configure. destruct (mac_open sys (device_name name) e) as [fd e1].
  destruct (fd =? -1); [done|]. set (e2 := mac_blocking sys fd e1). clearbody e2.
  pose proof (law_mac_tcgetattr fd e2) as H2. destruct (sys_tcgetattr (mac_posix sys) fd e2) as [[ret oldt] e3].
  destruct H2 as [_ H2]. destruct (Z.eqb_spec ret (-1)) as [|Hr]; [done|].
  destruct (mac_set_baud sys baud (mac_options sys oldt)) as [baud_set options].
  pose proof (law_mac_tcsetattr fd options e3) as H4. destruct (sys_tcsetattr (mac_posix sys) fd options e3) as [ret4 e4].
  destruct H4 as [_ H4]. rewrite (H2 Hr) in H4. destruct (ret4 =? -1); [done|].
  pose proof (law_mac_set_speed fd baud e4) as H5. destruct (mac_set_speed sys fd baud e4) as [ret5 e5]. destruct H5 as [_ H5].
  destruct baud_set; cbn [negb snd].
  - by rewrite (proj1 (mac_modem_lines_terminal fd e4 H4)).
  - by rewrite (proj1 (mac_modem_lines_terminal fd e5 (eq_trans H5 H4))).
Qed.

(** and whatever fails, no descriptor stays open. *)
Lemma mac_configure_fds fd baud e fds :
  (fd ∉ fds) -> open_fds e = ({[fd]} ∪ fds) ->
  let '(r, e') := mac_configure fd baud e in
  r = TINY_SERIAL_INVALID /\ open_fds e' = fds \/ r = fd /\ open_fds e' = ({[fd]} ∪ fds).
Proof using MacLaws0.
  intros Hnew He. unfold mac_configure.
  assert (Hback : forall e', open_fds e' = ({[fd]} ∪ fds) -> open_fds (sys_close (mac_posix sys) fd e') = fds).
  { intros e' E'. rewrite law_mac_close, E'. apply set_eq. intros x.
    rewrite elem_of_difference, elem_of_union, elem_of_singleton. split; [tauto|]. intros Hx. split; [by right|]. by intros ->. }
  pose proof (law_mac_tcgetattr fd e) as H2. destruct (sys_tcgetattr (mac_posix sys) fd e) as [[ret oldt] e3].
  destruct H2 as [H2 Ht]. rewrite He in H2. destruct (Z.eqb_spec ret (-1)); [left; auto|].
  destruct (mac_set_baud sys baud (mac_options sys oldt)) as [baud_set options].
  pose proof (law_mac_tcsetattr fd options e3) as H4. destruct (sys_tcsetattr (mac_posix sys) fd options e3) as [ret4 e4].
  destruct H4 as [H4 _]. rewrite H2 in H4. destruct (ret4 =? -1); [left; auto|]. right. split; [done|].
  rewrite law_mac_tcflush. pose proof (law_mac_set_speed fd baud e4) as H5.
  destruct (mac_set_speed sys fd baud e4) as [ret5 e5]. destruct H5 as [H5 _].
  destruct baud_set; cbn [negb snd].
  - pose proof (law_mac_isatty fd e4) as H6. destruct (mac_isatty sys fd e4). cbn. destruct H6. congruence.
  - pose proof (law_mac_isatty fd e5) as H6. destruct (mac_isatty sys fd e5). cbn. destruct H6. congruence.
Qed.

End Opening.

(** The same system, with other calls for the modem lines. *)
Definition with_modem {E} (sys : macos E) (get : Z -> E -> Z * Z * E) (set : Z -> Z -> E -> E) : macos E :=
  mk_macos (mac_posix sys) (mac_open sys) (mac_getfl sys) (mac_setfl sys) (mac_isatty sys) (mac_set_speed sys) get set.

(** Opening a port on macOS.  The call does the same whatever the calls for the modem
    lines do: it never makes them, so DTR and RTS stay as they are, on serial ports as well; the test that is to
    leave out pseudo terminals leaves out every terminal, and a descriptor whose settings can be read is one.
    Whatever call fails, no descriptor stays open; on success there is one more. *)
Theorem macos_serial_open_ports {E} (sys : macos E) (open_fds : E -> gset Z) (terminal : E -> Z -> bool)
  (Hm : MacLaws sys open_fds terminal) (name : string) (baud : Z) (e : E) :
  (forall get set, macos_serial_open (with_modem sys get set) name baud e = macos_serial_open sys name baud e) /\
  let '(fd, e') := macos_serial_open sys name baud e in
  fd = TINY_SERIAL_INVALID /\ open_fds e' = open_fds e \/
  fd <> TINY_SERIAL_INVALID /\ (fd ∉ open_fds e) /\ open_fds e' = ({[fd]} ∪ open_fds e).
Proof.
  split.
  - intros get set. assert (Hm' : MacLaws (with_modem sys get set) open_fds terminal) by (destruct Hm; by split).
    rewrite (macos_serial_open_eq sys open_fds terminal).
    by rewrite (macos_serial_open_eq (with_modem sys get set) open_fds terminal).
  - rewrite (macos_serial_open_eq sys open_fds terminal). pose proof (law_mac_open (device_name name) e) as H.
    destruct (mac_open sys (device_name name) e) as [fd e1]. destruct H as [[-> H]|(Hfd & Hnew & H)]; [by left|].
    unfold TINY_SERIAL_INVALID. destruct (Z.eqb_spec fd (-1)) as [|_]; [lia|].
    rewrite <- (mac_blocking_fds sys open_fds terminal fd e1) in H.
    pose proof (mac_configure_fds sys open_fds terminal fd baud _ _ Hnew H) as Hc. destruct (mac_configure sys fd baud _) as [r e'].
    destruct Hc as [[-> Hc]|[-> Hc]]; [by left|right]. split_and!; [lia|done|done].
Qed.

(** Speeds of the header are set with the settings; *)
Lemma baud_to_speed_known baud : baud ∈ mac_speeds -> baud_to_speed baud = baud /\ baud <> 0.
Proof.
  intros H. unfold baud_to_speed. rewrite bool_decide_true by done. split; [done|]. intros ->.
  assert (Hb : bool_decide (0 ∈ mac_speeds) = false) by by vm_compute. by apply bool_decide_eq_false in Hb.
Qed.

(** a system with one terminal. *)
Definition demo_macos : macos demo_env := {|
  mac_posix := demo_linux;
  mac_open _ e := sys_open demo_linux e;
  mac_getfl _ e := (6, e);
  mac_setfl _ _ e := e;
  mac_isatty _ e := (1, e);
  mac_set_speed _ _ e := (0, e);
  mac_tiocmget _ e := (0, 6, e);
  mac_tiocmset _ status e := e <| de_errno := status |>
|}.

#[export] Instance demo_mac_laws : MacLaws demo_macos de_fds (fun _ _ => true).
Proof.
  pose proof demo_descriptors as H. split; cbn; try done. intros _ e. exact (law_open (DescriptorLaws := H) e).
Qed.

Lemma macos_serial_open_ports_witness :
  let '(fd, e') := macos_serial_open demo_macos "/dev/tty.usbserial" 115200 demo_port_env in
  fd = 3 /\ de_fds e' = {[3]} ∪ {[0; 1; 2]} /\
  macos_serial_open (with_modem demo_macos (fun _ e => (0, 0, e)) (fun _ _ e => e)) "/dev/tty.usbserial" 115200 demo_port_env = (fd, e').
Proof.
  pose proof (macos_serial_open_ports demo_macos de_fds (fun _ _ => true) demo_mac_laws "/dev/tty.usbserial" 115200 demo_port_env)
    as [Hm H].
  specialize (Hm (fun _ e => (0, 0, e)) (fun _ _ e => e)).
  assert (Hfd : fst (macos_serial_open demo_macos "/dev/tty.usbserial" 115200 demo_port_env) = 3) by by vm_compute.
  destruct (macos_serial_open demo_macos _ _ _) as [fd e']. cbn in Hfd. subst fd.
  destruct H as [[H _]|(_ & _ & H)]; [discriminate H|]. exact (conj eq_refl (conj H Hm)).
Defined.
