(* ===== verification/WinSerial.v ===== *)
(** * The serial port on Windows (src/hal/win32/win32_serial.inl)

    The port over the calls of the system, which are parameters with what Windows documents of them.
    The theorems: what a send or a read returns, and that the timeouts of the port are then the
    ones asked for; that a timeout of 0 is none, so that a read meant not to wait waits for ever; and that a
    port whose settings fail is closed twice. *)

From stdpp Require Import gmap.
From S2P Require Import Prelude LinuxSerial.

Definition INVALID_HANDLE_VALUE : Z := -1.
Definition CBR_9600 : Z := 9600.
Definition CBR_38400 : Z := 38400.
Definition CBR_57600 : Z := 57600.
Definition CBR_115200 : Z := 115200.
Definition NOPARITY : Z := 0.
Definition ONESTOPBIT : Z := 0.
Definition EV_RXCHAR : Z := 0x0001.
Definition PURGE_TXABORT : Z := 0x0001.
Definition PURGE_RXABORT : Z := 0x0002.
Definition PURGE_TXCLEAR : Z := 0x0004.
Definition PURGE_RXCLEAR : Z := 0x0008.

(** [DCB]: the fields that are set, and the rest. *)
Record DCB : Type := mk_DCB {
  BaudRate : Z; fBinary : bool; ByteSize : Z; Parity : Z; StopBits : Z; dcb_rest : Z
}.

#[export] Instance eta_DCB : Eta DCB := fun d =>
  mk_DCB (BaudRate d) (fBinary d) (ByteSize d) (Parity d) (StopBits d) (dcb_rest d).

Record COMMTIMEOUTS : Type := mk_timeouts {
  ReadIntervalTimeout : Z;
  ReadTotalTimeoutMultiplier : Z;
  ReadTotalTimeoutConstant : Z;
  WriteTotalTimeoutMultiplier : Z;
  WriteTotalTimeoutConstant : Z
}.

#[export] Instance eta_timeouts : Eta COMMTIMEOUTS := fun t =>
  mk_timeouts (ReadIntervalTimeout t) (ReadTotalTimeoutMultiplier t) (ReadTotalTimeoutConstant t)
    (WriteTotalTimeoutMultiplier t) (WriteTotalTimeoutConstant t).

(** The calls of the system on the environment [E].  [ReadFile] gives whether it succeeded and the bytes,
    [WriteFile] whether it succeeded and how many it wrote. *)
Record win32 (E : Type) : Type := mk_win32 {
  CreateFileA : E -> Z * E;
  CloseHandle : Z -> E -> E;
  PurgeComm : Z -> Z -> E -> E;
  GetCommState : Z -> E -> DCB * E;
  SetCommState : Z -> DCB -> E -> bool * E;
  GetCommTimeouts : Z -> E -> COMMTIMEOUTS * E;
  SetCommTimeouts : Z -> COMMTIMEOUTS -> E -> bool * E;
  SetCommMask : Z -> Z -> E -> bool * E;
  WriteFile : Z -> list Z -> E -> bool * Z * E;
  ReadFile : Z -> Z -> E -> bool * list Z * E
}.
Arguments CreateFileA {E}.
Arguments CloseHandle {E}.
Arguments PurgeComm {E}.
Arguments GetCommState {E}.
Arguments SetCommState {E}.
Arguments GetCommTimeouts {E}.
Arguments SetCommTimeouts {E}.
Arguments SetCommMask {E}.
Arguments WriteFile {E}.
Arguments ReadFile {E}.

Definition win32_bits_to_baud (bits : Z) : Z :=
  if bits =? 115200 then CBR_115200 else
  if bits =? 57600 then CBR_57600 else
  if bits =? 38400 then CBR_38400 else CBR_9600.

Section Port.

Context {E : Type} (sys : win32 E).

(** The port is closed if it is valid; it is purged in any case. *)
Definition win32_serial_close (port : Z) (e : E) : E :=
  let e := PurgeComm sys port
             (Z.lor PURGE_RXABORT (Z.lor PURGE_TXABORT (Z.lor PURGE_RXCLEAR PURGE_TXCLEAR))) e in
  if negb (port =? INVALID_HANDLE_VALUE) then CloseHandle sys port e else e.

Definition win32_settings (port baud : Z) (e : E) : bool * E :=
  let '(dcb, e) := GetCommState sys port e in
  let dcb := dcb <| BaudRate := win32_bits_to_baud baud |> <| fBinary := true |> <| ByteSize := 8 |>
                 <| Parity := NOPARITY |> <| StopBits := ONESTOPBIT |> in
  let '(ok, e) := SetCommState sys port dcb e in
  if negb ok then (false, win32_serial_close port e) else (true, e).

Definition win32_set_read_timeout (port timeout_ms : Z) (e : E) : bool * E :=
  let '(t, e) := GetCommTimeouts sys port e in
  if (ReadTotalTimeoutConstant t =? timeout_ms) && negb (nz (ReadTotalTimeoutMultiplier t)) then (true, e) else
  let t := t <| ReadIntervalTimeout := 0 |> <| ReadTotalTimeoutMultiplier := 0 |>
             <| ReadTotalTimeoutConstant := timeout_ms |> in
  let '(ok, e) := SetCommTimeouts sys port t e in
  if negb ok then (false, win32_serial_close port e) else (true, e).

Definition win32_set_send_timeout (port timeout_ms : Z) (e : E) : bool * E :=
  let '(t, e) := GetCommTimeouts sys port e in
  if (WriteTotalTimeoutConstant t =? timeout_ms) && negb (nz (WriteTotalTimeoutMultiplier t)) then (true, e) else
  let t := t <| WriteTotalTimeoutMultiplier := 0 |> <| WriteTotalTimeoutConstant := timeout_ms |> in
  let '(ok, e) := SetCommTimeouts sys port t e in
  if negb ok then (false, win32_serial_close port e) else (true, e).

(** The four settings, each only if those before succeeded. *)
Definition win32_configure (port baud : Z) (e : E) : bool * E :=
  let '(ok, e) := win32_settings port baud e in
  if negb ok then (false, e) else
  let '(ok, e) := win32_set_read_timeout port 100 e in
  if negb ok then (false, e) else
  let '(ok, e) := win32_set_send_timeout port 100 e in
  if negb ok then (false, e) else
  SetCommMask sys port EV_RXCHAR e.

Definition win32_serial_open (baud : Z) (e : E) : Z * E :=
  let '(port, e) := CreateFileA sys e in
  if negb (port =? INVALID_HANDLE_VALUE) then
    let '(ok, e) := win32_configure port baud e in
    if negb ok then (INVALID_HANDLE_VALUE, win32_serial_close port e) else (port, e)
  else (port, e).

Definition win32_serial_send_timeout (port : Z) (buf : list Z) (timeout_ms : Z) (e : E) : Z * E :=
  let '(ok, e) := win32_set_send_timeout port timeout_ms e in
  if negb ok then (-1, e) else
  let '(ok, tBytes, e) := WriteFile sys port buf e in
  if ok then (tBytes, e) else (-1, PurgeComm sys port PURGE_TXABORT e).

Definition win32_serial_read_timeout (port len timeout_ms : Z) (e : E) : Z * list Z * E :=
  let '(ok, e) := win32_set_read_timeout port timeout_ms e in
  if negb ok then (-1, [], e) else
  let '(ok, buf, e) := ReadFile sys port len e in
  if ok then (Z.of_nat (length buf), buf, e) else (-1, buf, PurgeComm sys port PURGE_RXABORT e).

Definition win32_serial_send (port : Z) (buf : list Z) (e : E) : Z * E := win32_serial_send_timeout port buf 100 e.
Definition win32_serial_read (port len : Z) (e : E) : Z * list Z * E := win32_serial_read_timeout port len 100 e.

End Port.

(** ** What Windows documents *)

(** The total timeout of a read of [len] bytes: with both values 0 there is none. *)
Definition read_total (t : COMMTIMEOUTS) (len : Z) : option Z :=
  if (ReadTotalTimeoutMultiplier t =? 0) && (ReadTotalTimeoutConstant t =? 0) then None
  else Some (ReadTotalTimeoutMultiplier t * len + ReadTotalTimeoutConstant t).

Definition write_total (t : COMMTIMEOUTS) (len : Z) : option Z :=
  if (WriteTotalTimeoutMultiplier t =? 0) && (WriteTotalTimeoutConstant t =? 0) then None
  else Some (WriteTotalTimeoutMultiplier t * len + WriteTotalTimeoutConstant t).

(** [timeouts] are those of a port, [wire] is what has gone out, [incoming] what has arrived and was not
    read, [handles] the open handles, and [bad_closes] counts the calls of [CloseHandle] for others. *)
Class PortLaws {E} (sys : win32 E) (timeouts : E -> Z -> COMMTIMEOUTS) (wire incoming : E -> list Z)
  (handles : E -> gset Z) (bad_closes : E -> nat) : Prop := {
  law_create e : let '(port, e') := CreateFileA sys e in
    bad_closes e' = bad_closes e /\
    (port = INVALID_HANDLE_VALUE /\ handles e' = handles e \/
     port <> INVALID_HANDLE_VALUE /\ (port ∉ handles e) /\ handles e' = ({[port]} ∪ handles e));
  law_close_handle port e :
    handles (CloseHandle sys port e) = handles e ∖ {[port]} /\
    bad_closes (CloseHandle sys port e) = (if decide (port ∈ handles e) then bad_closes e else S (bad_closes e));
  law_purge port flags e : let e' := PurgeComm sys port flags e in
    handles e' = handles e /\ bad_closes e' = bad_closes e;
  law_get_state port e : let '(_, e') := GetCommState sys port e in
    handles e' = handles e /\ bad_closes e' = bad_closes e;
  law_set_state port dcb e : let '(_, e') := SetCommState sys port dcb e in
    handles e' = handles e /\ bad_closes e' = bad_closes e;
  law_get_timeouts port e : let '(t, e') := GetCommTimeouts sys port e in
    t = timeouts e port /\ timeouts e' = timeouts e /\ wire e' = wire e /\ incoming e' = incoming e /\
    handles e' = handles e /\ bad_closes e' = bad_closes e;
  law_set_timeouts port t e : let '(ok, e') := SetCommTimeouts sys port t e in
    (ok = true -> timeouts e' port = t) /\ wire e' = wire e /\ incoming e' = incoming e /\
    handles e' = handles e /\ bad_closes e' = bad_closes e;
  law_set_mask port mask e : let '(_, e') := SetCommMask sys port mask e in
    handles e' = handles e /\ bad_closes e' = bad_closes e;
  law_write_file port buf e : let '(ok, n, e') := WriteFile sys port buf e in
    timeouts e' = timeouts e /\ incoming e' = incoming e /\
    (ok = true -> 0 <= n <= Z.of_nat (length buf) /\ wire e' = wire e ++ take (Z.to_nat n) buf);
  law_read_file port len e : let '(ok, buf, e') := ReadFile sys port len e in
    timeouts e' = timeouts e /\ wire e' = wire e /\
    (ok = true -> Z.of_nat (length buf) <= Z.max 0 len /\ incoming e = buf ++ incoming e')
}.

Lemma remove_twice (A : gset Z) x : (A ∖ {[x]}) ∖ {[x]} = A ∖ {[x]}.
Proof. set_solver. Qed.

Lemma not_in_removed (A : gset Z) x : x ∉ A ∖ {[x]}.
Proof. set_solver. Qed.

Lemma remove_added (A : gset Z) x : (x ∉ A) -> ({[x]} ∪ A) ∖ {[x]} = A.
Proof. set_solver. Qed.

Section Line.

Context {E : Type} (sys : win32 E) (timeouts : E -> Z -> COMMTIMEOUTS) (wire incoming : E -> list Z).
Context (handles : E -> gset Z) (bad_closes : E -> nat).
Context `{!PortLaws sys timeouts wire incoming handles bad_closes}.

(** The timeouts for reading, or sending, are [timeout_ms] in all. *)
Definition reads_for (timeout_ms : Z) (t : COMMTIMEOUTS) : Prop :=
  ReadTotalTimeoutMultiplier t = 0 /\ ReadTotalTimeoutConstant t = timeout_ms.
Definition writes_for (timeout_ms : Z) (t : COMMTIMEOUTS) : Prop :=
  WriteTotalTimeoutMultiplier t = 0 /\ WriteTotalTimeoutConstant t = timeout_ms.

Lemma eqb_multiplier a b m : (a =? b) && negb (nz m) = true -> a = b /\ m = 0.
Proof using Type.
  intros [H1%Z.eqb_eq H2]%andb_true_iff. split; [done|]. unfold nz in H2. rewrite negb_involutive in H2. by apply Z.eqb_eq.
Qed.

(** The timeouts are set, nothing else changes, or the port is closed. *)
Lemma set_read_timeout_ok port timeout_ms e :
  let '(ok, e') := win32_set_read_timeout sys port timeout_ms e in
  ok = true -> reads_for timeout_ms (timeouts e' port) /\ wire e' = wire e /\ incoming e' = incoming e /\
    handles e' = handles e /\ bad_closes e' = bad_closes e.
Proof using PortLaws0.
  unfold win32_set_read_timeout. pose proof (law_get_timeouts port e) as H.
  destruct (GetCommTimeouts sys port e) as [t e1]. destruct H as (-> & Ht & Hw & Hi & Hh & Hb).
  destruct (_ && _) eqn:Eq; [apply eqb_multiplier in Eq as [H1 H2]; rewrite Ht; intros _; split; [by split|by split_and!]|].
  set (t' := _ <| ReadIntervalTimeout := 0 |> <| _ := _ |> <| _ := _ |>).
  pose proof (law_set_timeouts port t' e1) as H. destruct (SetCommTimeouts sys port t' e1) as [ok e2].
  destruct H as (Hset & Hw2 & Hi2 & Hh2 & Hb2). destruct ok; [|done]. intros _. rewrite (Hset eq_refl).
  split_and!; try congruence. by split.
Qed.

Lemma set_send_timeout_ok port timeout_ms e :
  let '(ok, e') := win32_set_send_timeout sys port timeout_ms e in
  ok = true -> writes_for timeout_ms (timeouts e' port) /\ wire e' = wire e /\ incoming e' = incoming e /\
    handles e' = handles e /\ bad_closes e' = bad_closes e.
Proof using PortLaws0.
  unfold win32_set_send_timeout. pose proof (law_get_timeouts port e) as H.
  destruct (GetCommTimeouts sys port e) as [t e1]. destruct H as (-> & Ht & Hw & Hi & Hh & Hb).
  destruct (_ && _) eqn:Eq; [apply eqb_multiplier in Eq as [H1 H2]; rewrite Ht; intros _; split; [by split|by split_and!]|].
  set (t' := _ <| WriteTotalTimeoutMultiplier := 0 |> <| _ := _ |>).
  pose proof (law_set_timeouts port t' e1) as H. destruct (SetCommTimeouts sys port t' e1) as [ok e2].
  destruct H as (Hset & Hw2 & Hi2 & Hh2 & Hb2). destruct ok; [|done]. intros _. rewrite (Hset eq_refl).
  split_and!; try congruence. by split.
Qed.

(** Sending and reading on Windows: -1, or the number of bytes that went over the line within
    timeouts that are the ones asked for. *)
Theorem win32_serial_transfers (port len timeout_ms : Z) (buf : list Z) (e : E) :
  (let '(n, e') := win32_serial_send_timeout sys port buf timeout_ms e in
   n <> -1 -> 0 <= n <= Z.of_nat (length buf) /\ wire e' = wire e ++ take (Z.to_nat n) buf /\
     incoming e' = incoming e /\ writes_for timeout_ms (timeouts e' port)) /\
  (let '(n, data, e') := win32_serial_read_timeout sys port len timeout_ms e in
   n <> -1 -> n = Z.of_nat (length data) /\ n <= Z.max 0 len /\ wire e' = wire e /\
     incoming e = data ++ incoming e' /\ reads_for timeout_ms (timeouts e' port)).
Proof using PortLaws0.
  split.
  - unfold win32_serial_send_timeout. pose proof (set_send_timeout_ok port timeout_ms e) as H.
    destruct (win32_set_send_timeout sys port timeout_ms e) as [ok e1]. destruct ok; cbn [negb]; [|done].
    destruct (H eq_refl) as (Ht & Hw & Hi & _). pose proof (law_write_file port buf e1) as H2.
    destruct (WriteFile sys port buf e1) as [[ok n] e2]. destruct H2 as (Ht2 & Hi2 & Hok).
    destruct ok; [|done]. intros _. destruct (Hok eq_refl) as [Hn Hw2]. rewrite Ht2, Hi2, Hw2, Hw.
    split; [done|]. split; [done|]. split; [done|exact Ht].
  - unfold win32_serial_read_timeout. pose proof (set_read_timeout_ok port timeout_ms e) as H.
    destruct (win32_set_read_timeout sys port timeout_ms e) as [ok e1]. destruct ok; cbn [negb]; [|done].
    destruct (H eq_refl) as (Ht & Hw & Hi & _). pose proof (law_read_file port len e1) as H2.
    destruct (ReadFile sys port len e1) as [[ok data] e2]. destruct H2 as (Ht2 & Hw2 & Hok).
    destruct ok; [|done]. intros _. destruct (Hok eq_refl) as [Hn Hi2]. rewrite Ht2, Hw2, <- Hi.
    split; [done|]. split; [done|]. split; [done|]. split; [done|exact Ht].
Qed.

(** Such a read or send lasts [timeout_ms] at most, but for 0, which is no timeout. *)
Lemma total_timeout timeout_ms t len :
  (reads_for timeout_ms t -> read_total t len = if timeout_ms =? 0 then None else Some timeout_ms) /\
  (writes_for timeout_ms t -> write_total t len = if timeout_ms =? 0 then None else Some timeout_ms).
Proof using Type.
  unfold reads_for, writes_for, read_total, write_total.
  split; intros [-> ->]; cbn; destruct (timeout_ms =? 0); by rewrite ?Z.mul_0_l.
Qed.

(** *** Opening and closing *)

Lemma serial_close_handles port e :
  let e' := win32_serial_close sys port e in
  port <> INVALID_HANDLE_VALUE ->
  handles e' = handles e ∖ {[port]} /\
  bad_closes e' = (if decide (port ∈ handles e) then bad_closes e else S (bad_closes e)).
Proof using PortLaws0.
  intros e' Hp. unfold e', win32_serial_close. rewrite (proj2 (Z.eqb_neq _ _) Hp). cbn [negb].
  set (flags := Z.lor _ _). destruct (law_purge port flags e) as [Hh Hb].
  destruct (law_close_handle port (PurgeComm sys port flags e)) as [Hh2 Hb2]. by rewrite Hh2, Hb2, Hh, Hb.
Qed.

(** A step of the configuration: it keeps the handles, or fails and has closed the port. *)
Definition keeps_or_closes (port : Z) (ok : bool) (e e' : E) : Prop :=
  bad_closes e' = bad_closes e /\ handles e' = (if ok then handles e else handles e ∖ {[port]}).

Lemma close_step port e1 e :
  port <> INVALID_HANDLE_VALUE -> port ∈ handles e -> handles e1 = handles e -> bad_closes e1 = bad_closes e ->
  keeps_or_closes port false e (win32_serial_close sys port e1).
Proof using PortLaws0.
  intros Hp Hin Hh Hb. destruct (serial_close_handles port e1 Hp) as [H1 H2]. split.
  - rewrite H2, decide_True by (by rewrite Hh). done.
  - by rewrite H1, Hh.
Qed.

Lemma win32_settings_ok port baud e :
  port <> INVALID_HANDLE_VALUE -> port ∈ handles e ->
  let '(ok, e') := win32_settings sys port baud e in keeps_or_closes port ok e e'.
Proof using PortLaws0.
  intros Hp Hin. unfold win32_settings. pose proof (law_get_state port e) as H1.
  destruct (GetCommState sys port e) as [dcb e1]. destruct H1 as [Hh1 Hb1].
  set (d := _ <| BaudRate := _ |> <| _ := _ |> <| _ := _ |> <| _ := _ |> <| _ := _ |>).
  pose proof (law_set_state port d e1) as H2. destruct (SetCommState sys port d e1) as [ok e2].
  destruct H2 as [Hh2 Hb2]. destruct ok; cbn [negb].
  - split; congruence.
  - apply close_step; congruence.
Qed.

Lemma set_read_timeout_step port timeout_ms e :
  port <> INVALID_HANDLE_VALUE -> port ∈ handles e ->
  let '(ok, e') := win32_set_read_timeout sys port timeout_ms e in keeps_or_closes port ok e e'.
Proof using PortLaws0.
  intros Hp Hin. unfold win32_set_read_timeout. pose proof (law_get_timeouts port e) as H.
  destruct (GetCommTimeouts sys port e) as [t e1]. destruct H as (_ & _ & _ & _ & Hh & Hb).
  destruct (_ && _); [by split|]. set (t' := _ <| ReadIntervalTimeout := 0 |> <| _ := _ |> <| _ := _ |>).
  pose proof (law_set_timeouts port t' e1) as H. destruct (SetCommTimeouts sys port t' e1) as [ok e2].
  destruct H as (_ & _ & _ & Hh2 & Hb2). destruct ok; cbn [negb]; [split; congruence|]. apply close_step; congruence.
Qed.

Lemma set_send_timeout_step port timeout_ms e :
  port <> INVALID_HANDLE_VALUE -> port ∈ handles e ->
  let '(ok, e') := win32_set_send_timeout sys port timeout_ms e in keeps_or_closes port ok e e'.
Proof using PortLaws0.
  intros Hp Hin. unfold win32_set_send_timeout. pose proof (law_get_timeouts port e) as H.
  destruct (GetCommTimeouts sys port e) as [t e1]. destruct H as (_ & _ & _ & _ & Hh & Hb).
  destruct (_ && _); [by split|]. set (t' := _ <| WriteTotalTimeoutMultiplier := 0 |> <| _ := _ |>).
  pose proof (law_set_timeouts port t' e1) as H. destruct (SetCommTimeouts sys port t' e1) as [ok e2].
  destruct H as (_ & _ & _ & Hh2 & Hb2). destruct ok; cbn [negb]; [split; congruence|]. apply close_step; congruence.
Qed.

(** The whole configuration: when it fails, the port is closed already, unless it was the last call that failed. *)
Lemma win32_configure_ok port baud e :
  port <> INVALID_HANDLE_VALUE -> port ∈ handles e ->
  let '(ok, e') := win32_configure sys port baud e in
  bad_closes e' = bad_closes e /\
  (handles e' = handles e \/ ok = false /\ handles e' = handles e ∖ {[port]}).
Proof using PortLaws0.
  intros Hp Hin. unfold win32_configure. pose proof (win32_settings_ok port baud e Hp Hin) as H1.
  destruct (win32_settings sys port baud e) as [ok e1]. destruct H1 as [B1 H1].
  destruct ok; cbn [negb]; [|split; [done|by right]].
  pose proof (set_read_timeout_step port 100 e1 Hp ltac:(by rewrite H1)) as H2.
  destruct (win32_set_read_timeout sys port 100 e1) as [ok e2]. destruct H2 as [B2 H2].
  destruct ok; cbn [negb]; [|split; [congruence|right; split; congruence]].
  pose proof (set_send_timeout_step port 100 e2 Hp ltac:(by rewrite H2, H1)) as H3.
  destruct (win32_set_send_timeout sys port 100 e2) as [ok e3]. destruct H3 as [B3 H3].
  destruct ok; cbn [negb]; [|split; [congruence|right; split; congruence]].
  pose proof (law_set_mask port EV_RXCHAR e3) as H4. destruct (SetCommMask sys port EV_RXCHAR e3) as [ok e4].
  destruct H4 as [H4 B4]. split; [congruence|left; congruence].
Qed.

(** Opening a port on Windows leaves no handle open when it fails, and one more, the one returned, when
    it does not; but when one of the settings or timeouts is refused, the handle is closed twice: the
    second time it may be another thread's already. *)
Theorem win32_serial_open_handles (baud : Z) (e : E) :
  let '(created, e1) := CreateFileA sys e in
  let '(port, e') := win32_serial_open sys baud e in
  (port = INVALID_HANDLE_VALUE /\ handles e' = handles e /\
     (fst (win32_settings sys created baud e1) = false -> created <> INVALID_HANDLE_VALUE ->
      bad_closes e' = S (bad_closes e))) \/
  (port <> INVALID_HANDLE_VALUE /\ port = created /\ handles e' = ({[port]} ∪ handles e) /\
     bad_closes e' = bad_closes e /\ handles (win32_serial_close sys port e') = handles e).
Proof using PortLaws0.
  unfold win32_serial_open. pose proof (law_create e) as H1. destruct (CreateFileA sys e) as [port e1].
  destruct H1 as [B1 [[-> H1]|(Hp & Hnew & H1)]]; [left; by split_and!|].
  rewrite (proj2 (Z.eqb_neq _ _) Hp). cbn [negb].
  assert (Hin : port ∈ handles e1) by (rewrite H1; apply elem_of_union; left; by apply elem_of_singleton).
  assert (Hback : handles e1 ∖ {[port]} = handles e) by (rewrite H1; by apply remove_added).
  pose proof (win32_configure_ok port baud e1 Hp Hin) as H2.
  pose proof (win32_settings_ok port baud e1 Hp Hin) as H3.
  assert (Hfail : fst (win32_settings sys port baud e1) = false -> fst (win32_configure sys port baud e1) = false /\
            snd (win32_configure sys port baud e1) = snd (win32_settings sys port baud e1)).
  { unfold win32_configure. destruct (win32_settings sys port baud e1) as [ok e2]. by intros [= ->]. }
  destruct (win32_configure sys port baud e1) as [ok e2]. cbn [fst snd] in Hfail.
  destruct H2 as [B2 H2]. destruct (serial_close_handles port e2 Hp) as [Hc Bc]. destruct ok; cbn [negb].
  - right. destruct H2 as [H2|[? _]]; [|done]. rewrite Hc, H2. split_and!; congruence.
  - left. split; [done|]. split.
    + rewrite Hc. destruct H2 as [-> |[_ ->]]; [done|]. by rewrite remove_twice.
    + intros Hs _. destruct (win32_settings sys port baud e1) as [ok e3]. destruct (Hfail Hs) as [_ ->]. cbn in Hs. subst ok.
      destruct H3 as [B3 H3]. cbn [snd] in *. rewrite Bc, decide_False by (rewrite H3; apply not_in_removed). congruence.
Qed.

End Line.

(** ** A system *)

(** Settings that are accepted or not, and the state the laws speak of. *)
Record win_env : Type := mk_win_env {
  wn_accepts : bool;
  wn_timeouts : COMMTIMEOUTS;
  wn_wire : list Z;
  wn_incoming : list Z;
  wn_handles : gset Z;
  wn_bad : nat
}.

#[export] Instance eta_win_env : Eta win_env := fun e =>
  mk_win_env (wn_accepts e) (wn_timeouts e) (wn_wire e) (wn_incoming e) (wn_handles e) (wn_bad e).

Definition demo_win32 : win32 win_env := {|
  CreateFileA e := if bool_decide (7 ∈ wn_handles e) then (INVALID_HANDLE_VALUE, e)
                   else (7, e <| wn_handles ::= fun s => {[7]} ∪ s |>);
  CloseHandle port e :=
    e <| wn_bad ::= fun n => if bool_decide (port ∈ wn_handles e) then n else S n |> <| wn_handles ::= fun s => s ∖ {[port]} |>;
  PurgeComm _ _ e := e;
  GetCommState _ e := (mk_DCB 1200 false 7 1 2 0, e);
  SetCommState _ _ e := (wn_accepts e, e);
  GetCommTimeouts _ e := (wn_timeouts e, e);
  SetCommTimeouts _ t e := (true, e <| wn_timeouts := t |>);
  SetCommMask _ _ e := (true, e);
  WriteFile _ buf e := (true, Z.of_nat (length (take 3 buf)), e <| wn_wire ::= fun w => w ++ take 3 buf |>);
  ReadFile _ len e := let data := take (Z.to_nat len) (wn_incoming e) in
                      (true, data, e <| wn_incoming ::= drop (Z.to_nat len) |>)
|}.

#[export] Instance demo_port_laws :
  PortLaws demo_win32 (fun e _ => wn_timeouts e) wn_wire wn_incoming wn_handles wn_bad.
Proof.
  split; try (by intros; cbn; split_and!).
  - intros e. cbn. destruct (decide (7 ∈ wn_handles e)) as [H|H].
    + rewrite bool_decide_true by done. auto.
    + rewrite bool_decide_false by done. auto.
  - intros port e. cbn. split; [done|]. by case_bool_decide; case_decide.
  - intros port buf e. cbn. split_and!; try done. intros _. rewrite Nat2Z.id, length_take. split; [lia|]. f_equal.
    destruct (Nat.min_spec 3 (length buf)) as [[_ ->]|[? ->]]; [done|]. by rewrite !take_ge by lia.
  - intros port len e. cbn. split_and!; try done. intros _. rewrite length_take. split; [lia|]. by rewrite take_drop.
Qed.

(** A driver that refuses the settings: the handle is closed, and closed again. *)
Definition refusing : win_env := mk_win_env false (mk_timeouts 5 1 1 1 1) [] [1; 2] {[0; 1]} 0.

Lemma win32_serial_open_handles_witness :
  let '(port, e') := win32_serial_open demo_win32 9600 refusing in
  port = INVALID_HANDLE_VALUE /\ wn_handles e' = {[0; 1]} /\ wn_bad e' = 1%nat.
Proof.
  pose proof (win32_serial_open_handles demo_win32 (fun e _ => wn_timeouts e) wn_wire wn_incoming wn_handles wn_bad 9600 refusing) as H.
  assert (Hc : fst (CreateFileA demo_win32 refusing) = 7) by by vm_compute.
  assert (Hs : fst (win32_settings demo_win32 7 9600 (snd (CreateFileA demo_win32 refusing))) = false) by by vm_compute.
  assert (Hp : fst (win32_serial_open demo_win32 9600 refusing) = INVALID_HANDLE_VALUE) by by vm_compute.
  destruct (CreateFileA demo_win32 refusing) as [created e1]. cbn in Hc. subst created. cbn [snd] in Hs.
  destruct (win32_serial_open demo_win32 9600 refusing) as [port e']. cbn in Hp. subst port.
  destruct H as [(_ & Hh & Hb)|(Hn & _)]; [|destruct (Hn eq_refl)].
  split; [reflexivity|]. split; [exact Hh|]. exact (Hb Hs ltac:(discriminate)).
Defined.

(** A read that is not to wait leaves the port without a timeout. *)
Lemma win32_read_timeout_0 :
  let '(n, data, e') := win32_serial_read_timeout demo_win32 7 1 0 refusing in
  n = 1 /\ read_total (wn_timeouts e') 1 = None.
Proof. by vm_compute. Qed.
