(* ===== verification/SmallSerial.v ===== *)
(** * The serial ports of small systems (src/hal/esp32, src/hal/arduino, src/hal/no_platform)

    The UART driver of the ESP32, a [HardwareSerial] of Arduino, and no port at all.  The drivers are
    parameters.  The theorems: what a send on the ESP32 returns and that it ends; that the pins cannot be
    chosen by the name of the port; that a port of Arduino is a line the link layers can work
    with. *)

From Stdlib Require Import String Ascii.
From S2P Require Import Prelude Packet Proto SerialLink ProtoQueue ProtoFlow.
From S2P Require Import Crc HdlcLL HdlcSpec HdlcTx HdlcRx FdTypes HdlcLayer ProtoLink.

Module Esp32.

(** ** Text *)

Definition digit (c : ascii) : option Z :=
  let n := Z.of_nat (nat_of_ascii c) in if (48 <=? n) && (n <=? 57) then Some (n - 48) else None.

Definition space (c : ascii) : bool :=
  let n := Z.of_nat (nat_of_ascii c) in (n =? 32) || ((9 <=? n) && (n <=? 13)).

Fixpoint digits (acc : Z) (s : string) : Z :=
  match s with
  | EmptyString => acc
  | String c s => match digit c with Some d => digits (acc * 10 + d) s | None => acc end
  end.

Fixpoint skip_spaces (s : string) : string :=
  match s with String c s' => if space c then skip_spaces s' else s | EmptyString => s end.

(** [strtol(s, NULL, 10)] with a [long] of 32 bits. *)
Definition strtol (s : string) : Z :=
  let clamp z := Z.max (-2 ^ 31) (Z.min (2 ^ 31 - 1) z) in
  match skip_spaces s with
  | String "-" s => clamp (- digits 0 s)
  | String "+" s => clamp (digits 0 s)
  | s => clamp (digits 0 s)
  end.

(** The tokens [strtok(s, ",")] gives one after the other: the pieces that are not empty. *)
Fixpoint pieces (s : string) : string * list string :=
  match s with
  | EmptyString => (EmptyString, [])
  | String c s =>
      let '(piece, rest) := pieces s in
      if (c =? ",")%char then (EmptyString, piece :: rest) else (String c piece, rest)
  end.

Definition tokens (s : string) : list string :=
  let '(piece, rest) := pieces s in filter (fun p => p <> EmptyString) (piece :: rest).

(** ** The driver *)

Definition UART_PIN_NO_CHANGE : Z := -1.

(** [uart_config_t]: the fields that depend on the call. *)
Definition BUFSIZE : Z := 128.

(** The calls of the driver and of FreeRTOS on the environment [E]; the three of the set-up give
    [ESP_OK], 0, or an error.  [uart_read_bytes] gives its result and the bytes. *)
Record esp (E : Type) : Type := mk_esp {
  portTICK_PERIOD_MS : Z;
  uart_driver_delete : Z -> E -> E;
  uart_param_config : Z -> Z -> E -> Z * E;
  uart_set_pin : Z -> Z -> Z -> Z -> Z -> E -> Z * E;
  uart_driver_install : Z -> Z -> E -> Z * E;
  uart_tx_chars : Z -> list Z -> E -> Z * E;
  uart_wait_tx_done : Z -> Z -> E -> E;
  uart_read_bytes : Z -> Z -> Z -> E -> Z * list Z * E;
  xTaskGetTickCount : E -> Z * E
}.
Arguments portTICK_PERIOD_MS {E}.
Arguments uart_driver_delete {E}.
Arguments uart_param_config {E}.
Arguments uart_set_pin {E}.
Arguments uart_driver_install {E}.
Arguments uart_tx_chars {E}.
Arguments uart_wait_tx_done {E}.
Arguments uart_read_bytes {E}.
Arguments xTaskGetTickCount {E}.

(** The pins: transmit, receive, RTS and CTS. *)
Record pins : Type := mk_pins { tx_gpio : Z; rx_gpio : Z; rts_gpio : Z; cts_gpio : Z }.

#[export] Instance eta_pins : Eta pins := fun p => mk_pins (tx_gpio p) (rx_gpio p) (rts_gpio p) (cts_gpio p).

Definition no_pins : pins := mk_pins UART_PIN_NO_CHANGE UART_PIN_NO_CHANGE UART_PIN_NO_CHANGE UART_PIN_NO_CHANGE.

Definition set_gpio (index value : Z) (p : pins) : pins :=
  if index =? 1 then p <| tx_gpio := value |> else
  if index =? 2 then p <| rx_gpio := value |> else
  if index =? 3 then p <| rts_gpio := value |> else
  if index =? 4 then p <| cts_gpio := value |> else p.

(** The loop over the tokens. *)
Fixpoint parse_pins (index : Z) (l : list string) (p : pins) : pins :=
  match l with
  | [] => p
  | token :: l => parse_pins (index + 1) l (set_gpio index (strtol token) p)
  end.

(** The port of a name; the ESP8266 has two only. *)
Definition uart_number (esp8266 : bool) (name : string) : Z :=
  if String.eqb name "uart0" then 0 else
  if String.eqb name "uart1" then 1 else
  if negb esp8266 && String.eqb name "uart2" then 2 else -1.

Section Port.

Context {E : Type} (os : esp E).

Definition esp32_serial_close (port : Z) (e : E) : E := uart_driver_delete os port e.

(** [ESP_ERROR_CHECK]: the program stops, [None], when a call fails. *)
Definition error_check (r : Z * E) : option E := let '(err, e) := r in if err =? 0 then Some e else None.

Definition esp32_serial_open (esp8266 : bool) (name : string) (baud : Z) (e : E) : option (Z * E) :=
  let handle := uart_number esp8266 name in
  if handle <? 0 then Some (TINY_SERIAL_INVALID, e) else
  let p := parse_pins 0 (tokens name) no_pins in
  match error_check (uart_param_config os handle baud e) with
  | None => None
  | Some e =>
      match error_check (uart_set_pin os handle (tx_gpio p) (rx_gpio p) (rts_gpio p) (cts_gpio p) e) with
      | None => None
      | Some e =>
          match error_check (uart_driver_install os handle BUFSIZE e) with
          | None => None
          | Some e => Some (handle, e)
          end
      end
  end.

(** The ticks of a timeout, rounded, in 32 bits. *)
Definition send_ticks (timeout_ms : Z) : Z :=
  u32 (timeout_ms + portTICK_PERIOD_MS os / 2) / portTICK_PERIOD_MS os.

(** The loop of [tiny_serial_send_timeout]; [None] when the fuel runs out. *)
Fixpoint esp32_send_loop (fuel : nat) (port : Z) (buf : list Z) (sent start_ticks ticks_left : Z) (e : E)
  : option (Z * E) :=
  if negb (sent <? Z.of_nat (length buf)) then Some (sent, e) else
  match fuel with
  | O => None
  | S fuel =>
      let '(n, e) := uart_tx_chars os port (drop (Z.to_nat sent) buf) e in
      if n <? 0 then Some (sent, e) else
      let sent := sent + n in
      if (Z.of_nat (length buf) <=? sent) || (ticks_left <=? 0) then Some (sent, e) else
      let e := uart_wait_tx_done os port ticks_left e in
      let '(now, e) := xTaskGetTickCount os e in
      let delta := u32 (now - start_ticks) in
      let ticks_left := if delta <? ticks_left then ticks_left - delta else 0 in
      esp32_send_loop fuel port buf sent start_ticks ticks_left e
  end.

Definition esp32_serial_send_timeout (fuel : nat) (port : Z) (buf : list Z) (timeout_ms : Z) (e : E)
  : option (Z * E) :=
  let '(start_ticks, e) := xTaskGetTickCount os e in
  esp32_send_loop fuel port buf 0 start_ticks (send_ticks timeout_ms) e.

Definition esp32_serial_send (fuel : nat) (port : Z) (buf : list Z) (e : E) : option (Z * E) :=
  esp32_serial_send_timeout fuel port buf 100 e.

Definition esp32_serial_read_timeout (port len timeout_ms : Z) (e : E) : Z * list Z * E :=
  uart_read_bytes os port len (timeout_ms / portTICK_PERIOD_MS os) e.

Definition esp32_serial_read (port len : Z) (e : E) : Z * list Z * E := esp32_serial_read_timeout port len 100 e.

End Port.

(** ** Opening *)

(** The parser finds the pins a name is documented to have, *)
Lemma parse_pins_documented :
  parse_pins 0 (tokens "uart0,4,5,-1,18") no_pins = mk_pins 4 5 (-1) 18.
Proof. reflexivity. Qed.

(** but such a name is refused before it is parsed: the names that are accepted have no pins, and
    the pins of the driver are never changed. *)
Theorem esp32_serial_open_pins {E} (os : esp E) (esp8266 : bool) (name : string) (baud : Z) (e : E) :
  uart_number esp8266 name < 0 /\ esp32_serial_open os esp8266 name baud e = Some (TINY_SERIAL_INVALID, e) \/
  0 <= uart_number esp8266 name /\ parse_pins 0 (tokens name) no_pins = no_pins /\
    (name = "uart0" \/ name = "uart1" \/ name = "uart2")%string.
Proof.
  unfold esp32_serial_open. destruct (Z.ltb_spec (uart_number esp8266 name) 0) as [|Hn]; [by left|right].
  split; [done|]. unfold uart_number in Hn.
  destruct (String.eqb_spec name "uart0") as [->|]; [split; [reflexivity|by left]|].
  destruct (String.eqb_spec name "uart1") as [->|]; [split; [reflexivity|right; by left]|].
  destruct (String.eqb_spec name "uart2") as [->|]; [split; [reflexivity|right; by right]|].
  rewrite andb_false_r in Hn. lia.
Qed.

(** ** Sending *)

(** What the driver documents: [uart_tx_chars] takes some of the bytes, at least one when there is [room],
    or fails; [uart_wait_tx_done] returns when there is room or its time is over.  [ticks] is the tick counter, which
    does not overflow here (with ticks of ten milliseconds it would after 497 days). *)
Class EspLaws {E} (os : esp E) (wire : E -> list Z) (ticks : E -> Z) (room : E -> bool) : Prop := {
  law_tick_range e : 0 <= ticks e < 2 ^ 32;
  law_tx_chars port data e : let '(n, e') := uart_tx_chars os port data e in
    ticks e <= ticks e' /\
    (n < 0 /\ wire e' = wire e \/
     0 <= n <= Z.of_nat (length data) /\ wire e' = wire e ++ take (Z.to_nat n) data /\
       (room e = true -> data <> [] -> 0 < n));
  law_wait_tx port delay e : let e' := uart_wait_tx_done os port delay e in
    wire e' = wire e /\ ticks e <= ticks e' /\ (room e' = true \/ ticks e + delay <= ticks e');
  law_tick_count e : let '(now, e') := xTaskGetTickCount os e in
    now = ticks e /\ ticks e' = ticks e /\ wire e' = wire e /\ room e' = room e
}.

Section Sending.

Context {E : Type} (os : esp E) (wire : E -> list Z) (ticks : E -> Z) (room : E -> bool).
Context `{!EspLaws os wire ticks room}.

(** What is left to do: bytes, and at most two turns in which none is taken. *)
Definition turns (len sent ticks_left : Z) (e : E) : nat :=
  Z.to_nat (len - sent) + (if ticks_left <=? 0 then 0 else 1) + (if room e then 0 else 1).

Lemma take_app_drop (k n : nat) (l : list Z) : take k l ++ take n (drop k l) = take (k + n) l.
Proof using Type. by rewrite take_take_drop. Qed.

Lemma send_loop_ends fuel port buf sent start ticks_left e w :
  0 <= sent <= Z.of_nat (length buf) -> wire e = w ++ take (Z.to_nat sent) buf ->
  0 <= start <= ticks e -> (turns (Z.of_nat (length buf)) sent ticks_left e < fuel)%nat ->
  exists n e', esp32_send_loop os fuel port buf sent start ticks_left e = Some (n, e') /\
    sent <= n <= Z.of_nat (length buf) /\ wire e' = w ++ take (Z.to_nat n) buf /\ ticks e <= ticks e'.
Proof using EspLaws0.
  revert sent ticks_left e. induction fuel as [|fuel IH]; intros sent ticks_left e Hs Hw Hst Hf; [lia|].
  cbn [esp32_send_loop]. destruct (Z.ltb_spec sent (Z.of_nat (length buf))) as [Hlt|]; cbn [negb];
    [|exists sent, e; split_and!; [done|lia|lia|done|lia]].
  set (data := drop (Z.to_nat sent) buf).
  assert (Hdata : Z.of_nat (length data) = Z.of_nat (length buf) - sent) by (unfold data; rewrite length_drop; lia).
  pose proof (law_tx_chars (os := os) port data e) as H1. destruct (uart_tx_chars os port data e) as [n e1].
  destruct H1 as [Ht1 [[Hn Hw1]|(Hn & Hw1 & Hroom)]].
  { rewrite (proj2 (Z.ltb_lt n 0) Hn). exists sent, e1. split_and!; [done|lia|lia|congruence|lia]. }
  rewrite (proj2 (Z.ltb_ge n 0)) by lia.
  assert (Hw1' : wire e1 = w ++ take (Z.to_nat (sent + n)) buf).
  { rewrite Hw1, Hw, <- app_assoc. f_equal. unfold data. rewrite take_app_drop. f_equal. lia. }
  destruct ((Z.of_nat (length buf) <=? sent + n) || (ticks_left <=? 0)) eqn:Hend.
  { exists (sent + n), e1. split_and!; [done|lia|lia|done|lia]. }
  apply orb_false_iff in Hend as [Hmore%Z.leb_gt Hleft%Z.leb_gt].
  pose proof (law_wait_tx (os := os) port ticks_left e1) as H2. set (e2 := uart_wait_tx_done os port ticks_left e1) in *.
  clearbody e2. destruct H2 as (Hw2 & Ht2 & Hwait).
  pose proof (law_tick_count (os := os) e2) as H3. destruct (xTaskGetTickCount os e2) as [now e3].
  destruct H3 as (-> & Ht3 & Hw3 & Hr3).
  pose proof (law_tick_range (os := os) e2). rewrite (u32_id (ticks e2 - start)) by (unfold fits; lia).
  set (left := if _ <? ticks_left then _ else _).
  destruct (IH (sent + n) left e3) as (m & e' & Hm & Hb & Hwm & Htm); [lia|congruence|lia| |].
  2: { exists m, e'. split_and!; [exact Hm|lia|lia|done|lia]. }
  unfold turns in *. rewrite (proj2 (Z.leb_gt ticks_left 0) Hleft) in Hf. rewrite Hr3.
  assert (Hprog : room e = true -> 0 < n) by (intros; apply Hroom; [done|]; intros E0; rewrite E0 in Hdata; cbn in Hdata; lia).
  assert (Hover : room e2 = false -> (left <=? 0) = true).
  { intros Er. destruct Hwait as [Hwait|Hwait]; [congruence|]. unfold left.
    destruct (Z.ltb_spec (ticks e2 - start) ticks_left); [lia|done]. }
  destruct (room e2); [|rewrite (Hover eq_refl)]; destruct (left <=? 0); destruct (room e);
    try specialize (Hprog eq_refl); lia.
Qed.

(** A send on the ESP32 ends, after no more turns than there are bytes and three, and returns the number of bytes
    that went to the driver, also after an error. *)
Theorem esp32_serial_send_ends (fuel : nat) (port : Z) (buf : list Z) (timeout_ms : Z) (e : E)
  (Hfuel : (length buf + 3 <= fuel)%nat) :
  exists n e', esp32_serial_send_timeout os fuel port buf timeout_ms e = Some (n, e') /\
    0 <= n <= Z.of_nat (length buf) /\ wire e' = wire e ++ take (Z.to_nat n) buf.
Proof using EspLaws0.
  unfold esp32_serial_send_timeout. pose proof (law_tick_count (os := os) e) as H.
  destruct (xTaskGetTickCount os e) as [now e1]. destruct H as (-> & Ht & Hw & Hr).
  pose proof (law_tick_range (os := os) e).
  destruct (send_loop_ends fuel port buf 0 (ticks e) (send_ticks os timeout_ms) e1 (wire e)) as (n & e' & He & Hn & Hw' & _).
  - lia.
  - by rewrite Hw, take_0, app_nil_r.
  - lia.
  - unfold turns. destruct (_ <=? 0), (room e1); lia.
  - by exists n, e'.
Qed.

End Sending.

(** ** A driver *)

(** It takes two bytes at a time and needs three ticks of ten milliseconds for them. *)
Record esp_env : Type := mk_esp_env { ee_wire : list Z; ee_ticks : Z; ee_busy : bool }.

#[export] Instance eta_esp_env : Eta esp_env := fun e => mk_esp_env (ee_wire e) (ee_ticks e) (ee_busy e).

Definition ee_now (e : esp_env) : Z := Z.max 0 (Z.min (ee_ticks e) (2 ^ 32 - 1)).

Definition demo_esp : esp esp_env := {|
  portTICK_PERIOD_MS := 10;
  uart_driver_delete _ e := e;
  uart_param_config _ _ e := (0, e);
  uart_set_pin _ _ _ _ _ e := (0, e);
  uart_driver_install _ _ e := (0, e);
  uart_tx_chars _ data e :=
    if ee_busy e then (0, e)
    else (Z.of_nat (length (take 2 data)), e <| ee_wire ::= fun w => w ++ take 2 data |> <| ee_busy := true |>);
  uart_wait_tx_done _ delay e :=
    if (delay <? 3) && (ee_now e + 3 <? 2 ^ 32) then e <| ee_ticks := ee_now e + Z.max 0 delay |>
    else mk_esp_env (ee_wire e) (ee_now e + 3) false;
  uart_read_bytes _ _ _ e := (0, [], e);
  xTaskGetTickCount e := (ee_now e, e)
|}.

#[export] Instance demo_esp_laws : EspLaws demo_esp ee_wire ee_now (fun e => negb (ee_busy e)).
Proof.
  split.
  - intros e. unfold ee_now. lia.
  - intros port data e. cbn. destruct (ee_busy e).
    + split; [lia|]. right. rewrite take_0, app_nil_r. split_and!; [lia|lia|done|done].
    + split; [done|]. right. rewrite Nat2Z.id, length_take. split; [lia|]. split.
      * change (ee_wire e ++ take 2 data = ee_wire e ++ take (Nat.min 2 (length data)) data). f_equal.
        destruct (Nat.min_spec 2 (length data)) as [[_ ->]|[? ->]]; [done|]. by rewrite !take_ge by lia.
      * intros _ Hd. destruct data; [done|]. cbn. lia.
  - intros port delay e. cbn [uart_wait_tx_done demo_esp].
    assert (Hx : 0 <= ee_now e < 2 ^ 32) by (unfold ee_now; lia). set (x := ee_now e) in *. clearbody x.
    destruct ((delay <? 3) && (x + 3 <? 2 ^ 32)) eqn:Hd; (split; [done|]); unfold ee_now; cbn.
    + apply andb_true_iff in Hd as [H1%Z.ltb_lt H2%Z.ltb_lt]. split; [lia|]. right. lia.
    + split; [lia|by left].
  - intros e. by cbn.
Qed.

(** Ten bytes in 100 ms, ten ticks: *)
Lemma esp32_serial_send_ends_witness :
  exists n e', esp32_serial_send_timeout demo_esp 13 0 (replicate 10 65) 100 (mk_esp_env [] 0 false) = Some (n, e') /\
    0 <= n <= 10 /\ ee_wire e' = take (Z.to_nat n) (replicate 10 65).
Proof.
  destruct (esp32_serial_send_ends demo_esp ee_wire ee_now (fun e => negb (ee_busy e)) 13 0 (replicate 10 65) 100
              (mk_esp_env [] 0 false) ltac:(cbn; lia)) as (n & e' & He & Hn & Hw).
  exists n, e'. split; [exact He|]. split; [exact Hn|exact Hw].
Defined.

(** the call gives up after seven, since the time from the start of the call is taken off what is
    left of the timeout in every turn; the longest timeout becomes none, as its rounding overflows. *)
Lemma esp32_serial_send_early :
  (match esp32_serial_send_timeout demo_esp 13 0 (replicate 10 65) 100 (mk_esp_env [] 0 false) with
   | Some (n, e') => Some (n, ee_now e') | None => None end) = Some (6, 7) /\
  send_ticks demo_esp 100 = 10 /\ send_ticks demo_esp 0xFFFFFFFF = 0.
Proof. by vm_compute. Qed.

End Esp32.

Module Arduino.

(** A [HardwareSerial]; [readBytes] gives its result and the bytes. *)
Record hardware_serial (E : Type) : Type := mk_hardware_serial {
  hw_begin : Z -> Z -> E -> E;
  hw_end : Z -> E -> E;
  hw_setTimeout : Z -> Z -> E -> E;
  hw_write : Z -> list Z -> E -> Z * E;
  hw_available : Z -> E -> Z * E;
  hw_readBytes : Z -> Z -> E -> Z * list Z * E
}.
Arguments hw_begin {E}.
Arguments hw_end {E}.
Arguments hw_setTimeout {E}.
Arguments hw_write {E}.
Arguments hw_available {E}.
Arguments hw_readBytes {E}.

Section Port.

Context {E : Type} (hw : hardware_serial E).

Definition arduino_serial_close (port : Z) (e : E) : E := hw_end hw port e.

(** The name is the pointer to the object. *)
Definition arduino_serial_open (name baud : Z) (e : E) : Z * E := (name, hw_begin hw name baud e).

Definition arduino_serial_send_timeout (port : Z) (buf : list Z) (timeout_ms : Z) (e : E) : Z * E :=
  hw_write hw port buf (hw_setTimeout hw port timeout_ms e).

Definition arduino_serial_send (port : Z) (buf : list Z) (e : E) : Z * E := arduino_serial_send_timeout port buf 100 e.

Definition arduino_serial_read_timeout (port len timeout_ms : Z) (e : E) : Z * list Z * E :=
  let e := hw_setTimeout hw port timeout_ms e in
  let '(n, e) := hw_available hw port e in
  if negb (nz n) then (0, [], e) else hw_readBytes hw port len e.

Definition arduino_serial_read (port len : Z) (e : E) : Z * list Z * E :=
  let e := hw_setTimeout hw port 100 e in
  let '(n, e) := hw_available hw port e in
  if negb (nz n) then (0, [], e) else hw_readBytes hw port len e.

(** The port of the object at [name], as the link layers use it. *)
Definition arduino_port (name : Z) : serial_port E := {|
  tiny_serial_open := arduino_serial_open name;
  tiny_serial_close := arduino_serial_close;
  tiny_serial_send_timeout := arduino_serial_send_timeout;
  tiny_serial_read_timeout := arduino_serial_read_timeout
|}.

End Port.

(** What Arduino documents: [write] puts all bytes into the buffer and gives their number; [available]
    is the number of bytes that have arrived; [readBytes] gives at least one of them, if there is one. *)
Class HardwareLaws {E} (hw : hardware_serial E) (wire incoming : E -> list Z) : Prop := {
  law_hw_timeout port timeout e : let e' := hw_setTimeout hw port timeout e in
    wire e' = wire e /\ incoming e' = incoming e;
  law_hw_write port buf e : let '(n, e') := hw_write hw port buf e in
    n = Z.of_nat (length buf) /\ wire e' = wire e ++ buf /\ incoming e' = incoming e;
  law_hw_available port e : let '(n, e') := hw_available hw port e in
    wire e' = wire e /\ incoming e' = incoming e /\ n = Z.of_nat (length (incoming e));
  law_hw_read port len e : 0 < len -> incoming e <> [] ->
    let '(n, buf, e') := hw_readBytes hw port len e in
    wire e' = wire e /\ 1 <= n <= len /\ n <= Z.of_nat (length (incoming e)) /\
    take (Z.to_nat n) buf = take (Z.to_nat n) (incoming e) /\ incoming e' = drop (Z.to_nat n) (incoming e)
}.

(** A [HardwareSerial] does what the link layers rely on, so what they promise (ProtoLink.v,
    ProtoRecv.v) holds on Arduino. *)
Theorem arduino_serial_line {E} (hw : hardware_serial E) (wire incoming : E -> list Z)
  (Hhw : HardwareLaws hw wire incoming) (name : Z) : SerialLine (arduino_port hw name) wire incoming.
Proof.
  split.
  - intros port buf timeout e Hbuf. cbn. unfold arduino_serial_send_timeout.
    destruct (law_hw_timeout port timeout e) as [Hw1 Hi1]. set (e1 := hw_setTimeout hw port timeout e) in *. clearbody e1.
    pose proof (law_hw_write port buf e1) as H. destruct (hw_write hw port buf e1) as [n e2]. destruct H as (-> & Hw2 & Hi2).
    eexists _, _. split; [reflexivity|]. rewrite Nat2Z.id, firstn_all. destruct buf; [done|]. cbn [length].
    split_and!; [lia|lia|congruence|congruence].
  - intros port len timeout e Hlen. cbn. unfold arduino_serial_read_timeout.
    destruct (law_hw_timeout port timeout e) as [Hw1 Hi1]. set (e1 := hw_setTimeout hw port timeout e) in *. clearbody e1.
    pose proof (law_hw_available port e1) as H. destruct (hw_available hw port e1) as [n e2]. destruct H as (Hw2 & Hi2 & ->).
    destruct (incoming e1) as [|b l] eqn:Hin.
    + eexists 0, [], e2. split; [reflexivity|]. split_and!; [congruence|lia|left; split_and!; [congruence|lia|congruence]].
    + assert (nz (Z.of_nat (length (b :: l))) = true) as ->.
      { unfold nz. apply negb_true_iff, Z.eqb_neq. cbn. lia. }
      pose proof (law_hw_read port len e2 Hlen ltac:(by rewrite Hi2)) as H.
      destruct (hw_readBytes hw port len e2) as [[n buf] e3]. destruct H as (Hw3 & Hn & Hl & Ht & Hd).
      rewrite Hi2 in Hl, Ht, Hd. exists n, buf, e3. rewrite <- Hi1, Hw3, Hw2, Hw1.
      split; [reflexivity|]. split; [done|]. split; [lia|]. right. split_and!; [lia|lia|done|done].
Qed.

(** A read of an empty line returns at once: the timeout is not waited for. *)
Lemma arduino_read_empty {E} (hw : hardware_serial E) port len timeout e :
  fst (hw_available hw port (hw_setTimeout hw port timeout e)) = 0 ->
  arduino_serial_read_timeout hw port len timeout e = (0, [], snd (hw_available hw port (hw_setTimeout hw port timeout e))).
Proof. unfold arduino_serial_read_timeout. destruct (hw_available _ _ _) as [n e']. cbn. by intros ->. Qed.

End Arduino.

Module NoPlatformSerial.

Section Port.

Context {E : Type}.

Definition noplatform_serial_close (port : Z) (e : E) : E := e.
Definition noplatform_serial_open (baud : Z) (e : E) : Z * E := (TINY_SERIAL_INVALID, e).
Definition noplatform_serial_send_timeout (port : Z) (buf : list Z) (timeout_ms : Z) (e : E) : Z * E := (-1, e).
Definition noplatform_serial_read_timeout (port len timeout_ms : Z) (e : E) : Z * list Z * E := (-1, [], e).
Definition noplatform_serial_send (port : Z) (buf : list Z) (e : E) : Z * E := (-1, e).
Definition noplatform_serial_read (port len : Z) (e : E) : Z * list Z * E := (-1, [], e).

Definition noplatform_port : serial_port E := {|
  tiny_serial_open := noplatform_serial_open;
  tiny_serial_close := noplatform_serial_close;
  tiny_serial_send_timeout := noplatform_serial_send_timeout;
  tiny_serial_read_timeout := noplatform_serial_read_timeout
|}.

End Port.

(** A link layer does not start on it. *)
Lemma noplatform_begin {L E} `{HasSerial L} (speed : Z) (w : L * proto E) :
  fst (serial_begin noplatform_port speed w) = false.
Proof. by destruct w. Qed.

End NoPlatformSerial.
